(* ===== verification/_CoqProject ===== *)
-Q . S2P
Prelude.v
Bytes.v
Str.v
Btree.v
Dn.v
Partition.v
Key.v
Registry.v
Decimal.v
Sid.v
SecurityDescriptor.v
Utf8.v
Entry.v
Etcd.v
Index.v
Ridpool.v
Store.v
Directory.v
Filter.v
Schema.v
Token.v
Framing.v
Nfold.v
Kerberos.v
Wrap.v
Md4.v
Sign.v
Password.v
Principal.v
Keytab.v
Krb.v
Ndr.v
Pdu.v
BinaryAttrs.v
Pac.v
Kdc.v
KdcAs.v
KdcTgs.v
KdcServer.v
Kpasswd.v
Accept.v
RootDse.v
Ldap.v
LdapOps.v
LdapBind.v
SingleSignOn.v
LdapSession.v
Samr.v
Netlogon.v
RpcServer.v
RpcClient.v
Oidc.v
OidcHandlers.v
OidcFlow.v
Gc.v
GcReplica.v
Config.v
ConfigSpec.v
ConfigCtl.v
Bootstrap.v
BootstrapSpec.v
BootstrapRace.v
KrbClient.v
KrbLogon.v
Daemons.v
Join.v
JoinSpec.v
KdcCtl.v
JoinRun.v
Dns.v
