(* ===== verification/Prelude.v ===== *)
(** * IronDirectory: a verification development

    IronDirectory is a directory and identity service in Rust: an LDAP server,
    a Kerberos KDC with a password service, an MSRPC server (LSARPC, SAMR,
    NETLOGON), an OpenID Connect provider and a Global Catalog, all on etcd
    clusters; with tools that provision, configure and exercise a domain.  The
    crates are under [src/crates].  This library translates them into Rocq
    definitions, function by function, and proves what makes them correct.

    ** How the code is modelled

    - Integers, bytes and characters are [Z] with their widths written out; a
      string is the list of its characters.  [Result] is [result], [?] is its
      bind, a panic is a value ([None], or [Panic] of [Krb.stop]).
    - Code that talks to the store, the clock or the random number generator
      is a [prog] ([Etcd.v]): a tree of requests with a continuation for every
      reply.  [runs] relates a program to all its outcomes: a request may fail
      before or after it took effect.  [exec] runs it against a reference
      server, which is how witnesses are evaluated; [step] interleaves the
      requests of several processes; [runs_at] also bounds the clock.
    - Third-party code is a class, with the laws the program relies on as
      further classes, and a concrete instance in the witnesses: [EntryCodec]
      and [PartitionJson] (serde), [Base64], [Base64Url], [UnicodeLower],
      [OpenSsl] with [OpenSslLaws] and [Cfb8] (OpenSSL), [KrbCodec], [Der],
      [DerLaw], [DerTotal], [WireCodec], [WireLaws] and [ClientCodec]
      (rasn-kerberos), [LdapCodec] (rasn-ldap), [ToJson], [FromJson],
      [SigningKey], [HashOrder] (the iteration order of a hash map) and
      [DnsService] (MicroDNS).
    - Loops that need not end take fuel ([nat]): the compare-and-swap loop of
      the RID pool, whose theorem holds for every fuel, and connection loops,
      whose fuel bounds the messages they read; as much as the length of the
      input is shown to be enough ([LdapSession.session_serves],
      [KdcServer.kdc_connection_serves], [RpcServer.rpc_connection_terminates]).

    ** The files

    Foundations.  [Prelude] (results, tactics, the hint database [iron],
    lists); [Bytes], [Str], [Decimal], [Utf8], [Btree] (the parts of the Rust
    standard library the program uses).

    [crates/partition].  [Dn] (dn.rs, error.rs), [Partition] (partition.rs),
    [Key] (key.rs), [Registry] (registry.rs), [Sid] (sid.rs),
    [SecurityDescriptor] (security_descriptor.rs).  Parsing and printing of
    names round-trip, equality of DNs is a setoid under which containment is
    proper, keys are injective where the escaping allows it, and a DN is
    routed to the partition with the longest base ([Registry.resolve_spec]).

    [crates/store].  [Entry] (model.rs), [BinaryAttrs], [Etcd] (the service),
    [Index] (index.rs, entry.rs), [Ridpool] (ridpool.rs), [Store] (store.rs)
    and [Directory].  The entry and index keys of a partition refine one map
    from names to entries ([Index.writes_refine_directory]); of concurrent
    creations one wins; a RID is handed out once.  [Directory] states every
    store operation on a [forest] of such maps ([holds]); all servers below
    are proved against it and not against the key layout.

    [crates/crypto].  [Nfold], [Kerberos] (kerberos.rs), [Md4], [Sign],
    [Password] (pbkdf2.rs): the enctypes, hashes and encodings over OpenSSL's
    primitives, with their round trips.

    [crates/ldap].  [Filter], [Schema], [Token], [Framing], [Wrap], [Accept],
    [RootDse]; [Ldap] has the operations of session.rs and [LdapOps] their
    theorems (what an add, search, modify, rename, delete or password reset
    does to the forest, for every answer of the store); [LdapBind] the binds,
    [LdapSession] the connection: the identity of a session is justified, an
    active security layer protects every later message, the loop ends.

    [crates/kdc].  [Principal], [Keytab], [Krb] (lib.rs, time.rs,
    krberror.rs), [Pac], [Kdc] (the shared steps, and the judgements [ro] for
    programs that read and [wpt] for programs that write), [KdcAs], [KdcTgs],
    [KdcServer] (wire.rs, server.rs), [Kpasswd]: a ticket is issued only to who
    proved the key of the client or of its ticket, with the client's own
    groups; a password is changed only by its owner or an administrator.

    [crates/rpc].  [Ndr], [Pdu], [Samr] (lsarpc.rs, samr.rs), [Netlogon],
    [RpcServer] (server.rs): wire formats, the creation of computer accounts,
    the secure channel and the connection loop.

    [crates/oidc].  [Oidc], [OidcHandlers], [OidcFlow]: codes come from a sign
    in, go to the registered address and are redeemed once.

    [crates/gc].  [Gc], [GcReplica]: the replica converges to the directory,
    with the whitelisted attributes only; searches return what it holds.

    [crates/config].  [Config], [ConfigSpec], [ConfigCtl]: the records are a
    map of partitions, and the commands keep the forest's links.

    [crates/bootstrap].  [Bootstrap], [BootstrapSpec], [BootstrapRace]:
    provisioning creates what is missing, once, also when members race.

    [crates/simulate].  [RpcClient] (the SAMR and LSARPC clients), [KrbClient]
    (krb_client.rs), [Join] (join.rs, rpc_client.rs and the command).

    [crates/dns].  [Dns]: the client of MicroDNS and the command.

    The programs.  [Daemons] has the start of [iron-kdcd], [iron-rpcd],
    [iron-ldapd], [iron-oidcd] and [iron-gcd], from the environment to the
    state they serve; [KdcCtl] the commands [iron-kdc-ctl] and [iron-rpc-ctl].

    ** How the parts interact

    [SingleSignOn]: the ticket the KDC issues for the LDAP service is one the
    LDAP server accepts.  [KrbLogon]: a client with the right password, talking
    to the KDC over a network, gets its service ticket or fails for want of the
    store or of random bytes; it is never refused.  [KdcCtl]:
    this holds after [iron-kdc-ctl set-password], and both sides of a trust get
    the same keys.  [JoinSpec] and [JoinRun]: a whole domain join, LSARPC, SAMR,
    secrets, NETLOGON and Kerberos, over one store, ends with the account in
    the directory and a ticket with the computer's PAC.
    [Daemons.programs_share_store]: servers with the same settings do use one
    store.

    ** Assumptions worth knowing

    The clusters are one finite map, since every key starts with the id of its
    partition; programs that read two clusters are split into a program per
    cluster ([Daemons.load_topology]).  Theorems on a directory assume that it
    is [holds]-represented, which the empty store is and every modelled write
    preserves.  Names of entries are assumed to be spelled as they were stored
    ([spelled]) where the code relies on it; [Index] and [Key] show what goes
    wrong otherwise.  Composition theorems assume that messages fit the length
    fields of their transport ([carried], [join_fits]) and that clocks agree to
    within the tolerated skew ([clocks_agree]).

    ** What is not modelled

    Sockets, listeners, TLS and the health endpoints (conn.rs, tls.rs,
    health.rs, and the end of every [main]): they move bytes to and from the
    handlers above.  Logging and what commands print.  The connection set-up of
    the etcd client and the loading of OpenSSL's FIPS provider, which are calls
    of libraries; their results are parameters.  The wrappers of
    digest.rs, hmac.rs and aead.rs that nothing modelled calls.  In
    [iron-simulate], waiting for the spawned tasks and counting their results.
    Files under [tests] and [examples] are not part of the programs. *)

From Stdlib Require Export ZArith Lia.
From stdpp Require Export base tactics option list gmap strings sorting.

(** ** Conventions

    Machine integers, bytes and characters are all [Z]; a byte satisfies
    [is_byte], a character is a Unicode scalar value.  A Rust [String] or
    [&str] is the list of its [chars()]; byte strings are lists of bytes. *)

Open Scope Z_scope.

Abbreviation byte := Z (only parsing).
Abbreviation bytes := (list Z) (only parsing).
Abbreviation char := Z (only parsing).
Abbreviation rstring := (list Z) (only parsing).

(** ** Results

    [result E A] is Rust's [Result<A, E>]; the [?] operator is the bind of the
    monad, so stdpp's [x ← m; k] notation reads as [let x = m?; k]. *)

Inductive result (E A : Type) : Type :=
| Ok (a : A)
| Err (e : E).
Arguments Ok {E A} a.
Arguments Err {E A} e.

#[global] Instance result_ret {E} : MRet (result E) := fun A a => Ok a.
#[global] Instance result_bind {E} : MBind (result E) :=
  fun A B f m => match m with Ok a => f a | Err e => Err e end.
#[global] Instance result_fmap {E} : FMap (result E) :=
  fun A B f m => match m with Ok a => Ok (f a) | Err e => Err e end.

#[global] Instance result_eq_dec {E A} `{EqDecision E, EqDecision A} :
  EqDecision (result E A).
Proof. solve_decision. Defined.

(** [ok_or e o] is [Option::ok_or]. *)
Definition ok_or {E A} (e : E) (o : option A) : result E A :=
  match o with Some a => Ok a | None => Err e end.

(** [map_err f m] is [Result::map_err]. *)
Definition map_err {E F A} (f : E -> F) (m : result E A) : result F A :=
  match m with Ok a => Ok a | Err e => Err (f e) end.

(** [ok m] is [Result::ok]. *)
Definition ok {E A} (m : result E A) : option A :=
  match m with Ok a => Some a | Err _ => None end.

Definition is_ok {E A} (m : result E A) : bool :=
  match m with Ok _ => true | Err _ => false end.

(** [try_map f l] is [l.iter().map(f).collect::<Result<Vec<_>, _>>()]: the
    first error stops the iteration. *)
Fixpoint try_map {E A B} (f : A -> result E B) (l : list A) : result E (list B) :=
  match l with
  | [] => Ok []
  | a :: l' => b ← f a; bs ← try_map f l'; Ok (b :: bs)
  end.

(** [try_fold f s l] is a [for] loop whose body may return early. *)
Fixpoint try_fold {E A S} (f : S -> A -> result E S) (s : S) (l : list A) : result E S :=
  match l with
  | [] => Ok s
  | a :: l' => s' ← f s a; try_fold f s' l'
  end.

(** ** Integer widths *)

Definition is_byte (b : Z) : Prop := 0 <= b < 256.
Definition in_u16 (z : Z) : Prop := 0 <= z < 2 ^ 16.
Definition in_u32 (z : Z) : Prop := 0 <= z < 2 ^ 32.
Definition in_u64 (z : Z) : Prop := 0 <= z < 2 ^ 64.

(** [as u8], [as u16], [as u32] and [as u64] casts. *)
Definition as_u8 (z : Z) : Z := z mod 2 ^ 8.
Definition as_u16 (z : Z) : Z := z mod 2 ^ 16.
Definition as_u32 (z : Z) : Z := z mod 2 ^ 32.
Definition as_u64 (z : Z) : Z := z mod 2 ^ 64.

(** Length of a vector or slice as an integer. *)
Definition zlen {A} (l : list A) : Z := Z.of_nat (length l).

(** [ztake n l], [zdrop n l] are [&l[..n]] and [&l[n..]] for in-range [n]. *)
Definition ztake {A} (n : Z) (l : list A) : list A := take (Z.to_nat n) l.
Definition zdrop {A} (n : Z) (l : list A) : list A := drop (Z.to_nat n) l.

(** [slice l a b] is [l.get(a..b)]: [None] when [a > b] or [b] is past the
    end. *)
Definition slice {A} (l : list A) (a b : Z) : option (list A) :=
  if (0 <=? a) && (a <=? b) && (b <=? zlen l) then Some (ztake (b - a) (zdrop a l)) else None.

(** ** Tactics *)

Ltac zlia := Z.div_mod_to_equations; lia.

(** Case analysis on the discriminee of a match in a hypothesis or the goal,
    keeping its equation. *)
Ltac destr_match :=
  match goal with
  | H : context [match ?x with _ => _ end] |- _ => destruct x eqn:?
  | |- context [match ?x with _ => _ end] => destruct x eqn:?
  end.

(** Inverts the binds of the result monad in [H]. *)
Ltac inv_bind H :=
  repeat match type of H with
  | (mbind _ ?m) = Ok _ =>
      let E := fresh "E" in destruct m eqn:E; [cbn [mbind result_bind] in H|discriminate H]
  | (fmap _ ?m) = Ok _ =>
      let E := fresh "E" in destruct m eqn:E; [cbn [fmap result_fmap] in H|discriminate H]
  end.

(** Closed decidable facts, by evaluation. *)
Ltac by_decide := apply (bool_decide_unpack _); vm_compute; exact I.

Create HintDb iron discriminated.

(** ** Generic lemmas *)

Section result_lemmas.
  Context {E A B : Type}.
  Implicit Types (m : result E A).

Lemma bind_ok (f : A -> result E B) m b :
  m ≫= f = Ok b <-> exists a, m = Ok a /\ f a = Ok b.
Proof. destruct m; naive_solver. Qed.

Lemma bind_err (f : A -> result E B) m e :
  m ≫= f = Err e <-> m = Err e \/ exists a, m = Ok a /\ f a = Err e.
Proof. destruct m; naive_solver. Qed.

Lemma fmap_ok (f : A -> B) m b :
  f <$> m = Ok b <-> exists a, m = Ok a /\ f a = b.
Proof. destruct m; unfold fmap, result_fmap; naive_solver. Qed.
End result_lemmas.

Section try_map_lemmas.
  Context {E A B : Type}.

Lemma try_map_ok (f : A -> result E B) l l' :
  try_map f l = Ok l' <-> Forall2 (fun a b => f a = Ok b) l l'.
Proof.
  revert l'; induction l as [|a l IH]; intros l'; cbn [try_map].
  - split; [intros [= <-]; constructor | inversion 1; done].
  - rewrite bind_ok. setoid_rewrite bind_ok. split.
    + intros (b & Hb & bs & Hbs & [= <-]). constructor; [done|]. by apply IH.
    + inversion 1; subst. eexists; split; [done|]. eexists; split; [by apply IH|done].
Qed.

Lemma try_map_err (f : A -> result E B) l e :
  try_map f l = Err e ->
  exists l1 a l2, l = l1 ++ a :: l2 /\ f a = Err e /\ Forall (fun x => is_ok (f x) = true) l1.
Proof.
  induction l as [|a l IH]; cbn [try_map]; [done|].
  rewrite bind_err. intros [He|(b & Hb & H)].
  - exists [], a, l. auto.
  - apply bind_err in H as [H|(? & _ & ?)]; [|done].
    destruct (IH H) as (l1 & x & l2 & -> & ? & ?). exists (a :: l1), x, l2.
    split; [done|]. split; [done|]. constructor; [by rewrite Hb|done].
Qed.
End try_map_lemmas.

Section slice_lemmas.
  Context {A : Type}.
  Implicit Types l k : list A.

Lemma zlen_nonneg l : 0 <= zlen l.
Proof. unfold zlen. lia. Qed.
Lemma zlen_app l k : zlen (l ++ k) = zlen l + zlen k.
Proof. unfold zlen. rewrite length_app. lia. Qed.
Lemma zlen_cons (a : A) l : zlen (a :: l) = 1 + zlen l.
Proof. unfold zlen. simpl. lia. Qed.
Lemma zlen_nil : zlen ([] : list A) = 0.
Proof. done. Qed.

Lemma ztake_app_exact n l k : n = zlen l -> ztake n (l ++ k) = l.
Proof. intros ->. unfold ztake, zlen. rewrite Nat2Z.id. apply take_app_length. Qed.
Lemma zdrop_app_exact n l k : n = zlen l -> zdrop n (l ++ k) = k.
Proof. intros ->. unfold zdrop, zlen. rewrite Nat2Z.id. apply drop_app_length. Qed.
Lemma zlen_ztake n l : 0 <= n <= zlen l -> zlen (ztake n l) = n.
Proof. unfold ztake, zlen. rewrite length_take. lia. Qed.
Lemma zlen_zdrop n l : 0 <= n <= zlen l -> zlen (zdrop n l) = zlen l - n.
Proof. unfold zdrop, zlen. rewrite length_drop. lia. Qed.
Lemma ztake_zdrop n l : ztake n l ++ zdrop n l = l.
Proof. apply take_drop. Qed.

Lemma slice_app_exact l1 l2 l3 a b :
  a = zlen l1 -> b = zlen l1 + zlen l2 -> slice (l1 ++ l2 ++ l3) a b = Some l2.
Proof.
  intros -> ->. unfold slice.
  pose proof (zlen_nonneg l1); pose proof (zlen_nonneg l2); pose proof (zlen_nonneg l3).
  rewrite !zlen_app.
  replace (_ && _) with true
    by (symmetry; rewrite !andb_true_iff, !Z.leb_le; lia).
  rewrite (zdrop_app_exact (zlen l1)) by done.
  f_equal. apply ztake_app_exact. lia.
Qed.

Lemma slice_Some l a b k :
  slice l a b = Some k -> 0 <= a <= b /\ b <= zlen l /\ zlen k = b - a.
Proof.
  unfold slice. destruct (_ && _) eqn:E; [|done]. intros [= <-].
  rewrite !andb_true_iff, !Z.leb_le in E. destruct E as [[??]?].
  split; [lia|]. split; [lia|]. rewrite zlen_ztake; [done|]. rewrite zlen_zdrop; lia.
Qed.
End slice_lemmas.

#[export] Hint Rewrite @zlen_app @zlen_cons @zlen_nil : zlen.

(** A list is sorted by [R] iff it is empty or its head bounds the tail; the
    lexicographic facts below feed the ordered-map file. *)
Lemma app_eq_split {A} (l1 l2 k1 k2 : list A) :
  l1 ++ l2 = k1 ++ k2 -> length l1 = length k1 -> l1 = k1 /\ l2 = k2.
Proof. intros H Hl. by apply app_inj_1. Qed.

Lemma app_eq_split_r {A} (l1 l2 k1 k2 : list A) :
  l1 ++ l2 = k1 ++ k2 -> length l2 = length k2 -> l1 = k1 /\ l2 = k2.
Proof. intros H Hl. by apply app_inj_2. Qed.
