(* ===== verification/Bytes.v ===== *)
(** Fixed-width integers as bytes: [to_le_bytes], [from_le_bytes] and their
    big-endian counterparts, with the round trips the wire formats rely on. *)

From S2P Require Import Prelude.

(** [le_bytes n z] is [z.to_le_bytes()] of an [n]-byte integer. *)
Fixpoint le_bytes (n : nat) (z : Z) : bytes :=
  match n with
  | O => []
  | S n' => z mod 256 :: le_bytes n' (z / 256)
  end.

(** [le_val l] is [from_le_bytes]. *)
Fixpoint le_val (l : bytes) : Z :=
  match l with
  | [] => 0
  | b :: l' => b + 256 * le_val l'
  end.

Definition be_bytes (n : nat) (z : Z) : bytes := rev (le_bytes n z).
Definition be_val (l : bytes) : Z := le_val (rev l).

Definition bytes_ok (l : bytes) : Prop := Forall is_byte l.

Lemma length_le_bytes n z : length (le_bytes n z) = n.
Proof. revert z; induction n; intros; simpl; auto. Qed.

Lemma length_be_bytes n z : length (be_bytes n z) = n.
Proof. unfold be_bytes. rewrite length_rev. apply length_le_bytes. Qed.

Lemma zlen_le_bytes n z : zlen (le_bytes n z) = Z.of_nat n.
Proof. unfold zlen. by rewrite length_le_bytes. Qed.

Lemma zlen_be_bytes n z : zlen (be_bytes n z) = Z.of_nat n.
Proof. unfold zlen. by rewrite length_be_bytes. Qed.

Lemma le_bytes_ok n z : bytes_ok (le_bytes n z).
Proof.
  revert z; induction n; intros; simpl; constructor; [|apply IHn].
  unfold is_byte. zlia.
Qed.

Lemma be_bytes_ok n z : bytes_ok (be_bytes n z).
Proof. unfold be_bytes, bytes_ok. apply Forall_rev, le_bytes_ok. Qed.

Lemma le_val_bound l : bytes_ok l -> 0 <= le_val l < 256 ^ zlen l.
Proof.
  induction 1 as [|b l Hb _ IH]; simpl; [by unfold zlen; simpl; lia|].
  rewrite zlen_cons, Z.pow_add_r by (unfold zlen; lia).
  unfold is_byte in Hb. change (256 ^ 1) with 256. nia.
Qed.

Lemma be_val_bound l : bytes_ok l -> 0 <= be_val l < 256 ^ zlen l.
Proof.
  intros H. unfold be_val.
  replace (zlen l) with (zlen (rev l)) by (unfold zlen; by rewrite length_rev).
  apply le_val_bound. by apply Forall_rev.
Qed.

Lemma le_val_le_bytes n z : le_val (le_bytes n z) = z mod 256 ^ Z.of_nat n.
Proof.
  revert z; induction n as [|n IH]; intros z; [by rewrite Z.mod_1_r|].
  cbn [le_bytes le_val]. rewrite IH, Nat2Z.inj_succ, Z.pow_succ_r by lia.
  rewrite Z.rem_mul_r by lia. lia.
Qed.

Lemma le_roundtrip n z : 0 <= z < 256 ^ Z.of_nat n -> le_val (le_bytes n z) = z.
Proof. intros. rewrite le_val_le_bytes. by apply Z.mod_small. Qed.

Lemma be_roundtrip n z : 0 <= z < 256 ^ Z.of_nat n -> be_val (be_bytes n z) = z.
Proof. intros. unfold be_val, be_bytes. rewrite rev_involutive. by apply le_roundtrip. Qed.

Lemma le_bytes_le_val l : bytes_ok l -> le_bytes (length l) (le_val l) = l.
Proof.
  induction 1 as [|b l Hb _ IH]; [done|]. cbn [length le_bytes le_val].
  unfold is_byte in Hb. f_equal; [zlia|].
  rewrite <- IH at 3. f_equal. zlia.
Qed.

Lemma be_bytes_be_val l : bytes_ok l -> be_bytes (length l) (be_val l) = l.
Proof.
  intros H. unfold be_bytes, be_val. rewrite <- (length_rev l).
  rewrite le_bytes_le_val by (by apply Forall_rev). apply rev_involutive.
Qed.

Lemma le_bytes_inj n a b :
  0 <= a < 256 ^ Z.of_nat n -> 0 <= b < 256 ^ Z.of_nat n ->
  le_bytes n a = le_bytes n b -> a = b.
Proof. intros Ha Hb H. rewrite <- (le_roundtrip n a), <- (le_roundtrip n b), H; done. Qed.

Lemma bytes_ok_app l k : bytes_ok (l ++ k) <-> bytes_ok l /\ bytes_ok k.
Proof. apply Forall_app. Qed.

Lemma bytes_ok_ztake n l : bytes_ok l -> bytes_ok (ztake n l).
Proof. apply Forall_take. Qed.

Lemma bytes_ok_zdrop n l : bytes_ok l -> bytes_ok (zdrop n l).
Proof. apply Forall_drop. Qed.

#[export] Hint Resolve le_bytes_ok be_bytes_ok bytes_ok_ztake bytes_ok_zdrop : iron.
#[export] Hint Rewrite zlen_le_bytes zlen_be_bytes : zlen.

(** [constant_time_eq]: the accumulated-difference comparison used wherever a
    secret is compared; the callers are in the crypto and GSSAPI files. *)
Fixpoint xor_acc (acc : Z) (a b : bytes) : Z :=
  match a, b with
  | x :: a', y :: b' => xor_acc (Z.lor acc (Z.lxor x y)) a' b'
  | _, _ => acc
  end.

Lemma xor_acc_zero acc a b :
  0 <= acc -> bytes_ok a -> bytes_ok b -> length a = length b ->
  xor_acc acc a b = 0 <-> acc = 0 /\ a = b.
Proof.
  intros Hacc Ha. revert acc b Hacc.
  induction Ha as [|x a Hx _ IH]; intros acc [|y b] Hacc Hb Hl;
    cbn [xor_acc]; try discriminate; [naive_solver|].
  inversion Hb as [|? ? Hy Hb' ]; subst. injection Hl as Hl. unfold is_byte in *.
  rewrite IH; [|by apply Z.lor_nonneg; split; [|apply Z.lxor_nonneg; lia]|done..].
  rewrite Z.lor_eq_0_iff, Z.lxor_eq_0_iff. naive_solver.
Qed.

(** [read_exact] on the bytes a peer sends: the next [n] bytes, unless the stream ends before. *)
Definition read_exact (n : Z) (input : bytes) : option (bytes * bytes) :=
  if zlen input <? n then None else Some (ztake n input, zdrop n input).

Lemma read_exact_app n (a b : bytes) : n = zlen a -> read_exact n (a ++ b) = Some (a, b).
Proof.
  intros ->. unfold read_exact. rewrite zlen_app. pose proof (zlen_nonneg b).
  rewrite (proj2 (Z.ltb_ge _ _)) by lia. by rewrite ztake_app_exact, zdrop_app_exact.
Qed.
