(* ===== verification/Str.v ===== *)
(** Rust strings: the [str]/[String] operations the program uses, on the list
    of characters, with the ordering [String] values have in maps and sorts. *)

From Stdlib Require Import Ascii String.
From S2P Require Import Prelude.

(** A literal of the source, ASCII only. *)
Definition str (s : string) : rstring :=
  List.map (fun a => Z.of_nat (nat_of_ascii a)) (list_ascii_of_string s).

Definition ch (s : string) : char := default 0 (head (str s)).

(** [char::is_whitespace]: the Unicode White_Space property. *)
Definition is_whitespace (c : char) : bool :=
  ((9 <=? c) && (c <=? 13)) || (c =? 32) || (c =? 133) || (c =? 160) || (c =? 5760)
  || ((8192 <=? c) && (c <=? 8202)) || (c =? 8232) || (c =? 8233) || (c =? 8239)
  || (c =? 8287) || (c =? 12288).

Fixpoint trim_start (s : rstring) : rstring :=
  match s with
  | c :: s' => if is_whitespace c then trim_start s' else s
  | [] => []
  end.
Definition trim_end (s : rstring) : rstring := rev (trim_start (rev s)).
Definition trim (s : rstring) : rstring := trim_end (trim_start s).

(** [char::to_ascii_lowercase] and the [str] method of that name. *)
Definition ascii_lower (c : char) : char := if (65 <=? c) && (c <=? 90) then c + 32 else c.
Definition ascii_upper (c : char) : char := if (97 <=? c) && (c <=? 122) then c - 32 else c.
Definition to_ascii_lowercase (s : rstring) : rstring := List.map ascii_lower s.
Definition to_ascii_uppercase (s : rstring) : rstring := List.map ascii_upper s.
Definition eq_ignore_ascii_case (a b : rstring) : bool :=
  bool_decide (to_ascii_lowercase a = to_ascii_lowercase b).

Definition is_ascii_digit (c : char) : bool := (48 <=? c) && (c <=? 57).
Definition is_ascii_hexdigit (c : char) : bool :=
  is_ascii_digit c || ((97 <=? c) && (c <=? 102)) || ((65 <=? c) && (c <=? 70)).
Definition hex_value (c : char) : Z :=
  if is_ascii_digit c then c - 48 else if (97 <=? c) && (c <=? 102) then c - 87 else c - 55.

(** [parts.join(sep)]. *)
Fixpoint join (sep : rstring) (parts : list rstring) : rstring :=
  match parts with
  | [] => []
  | [p] => p
  | p :: ps => p ++ sep ++ join sep ps
  end.

(** [s.split(c)]: always at least one piece. *)
Fixpoint split_char (d : char) (s : rstring) : list rstring :=
  match s with
  | [] => [[]]
  | c :: s' =>
      if c =? d then [] :: split_char d s'
      else match split_char d s' with p :: ps => (c :: p) :: ps | [] => [[c]] end
  end.

(** [s.strip_prefix(p)]. *)
Fixpoint strip_prefix (p s : rstring) : option rstring :=
  match p, s with
  | [], _ => Some s
  | a :: p', b :: s' => if a =? b then strip_prefix p' s' else None
  | _ :: _, [] => None
  end.
Definition starts_with (p s : rstring) : bool := bool_decide (is_Some (strip_prefix p s)).

(** [Ord] on strings: lexicographic; on UTF-8 the byte order and the character
    order agree. *)
Fixpoint str_compare (a b : rstring) : comparison :=
  match a, b with
  | [], [] => Eq
  | [], _ :: _ => Lt
  | _ :: _, [] => Gt
  | x :: a', y :: b' => match x ?= y with Eq => str_compare a' b' | o => o end
  end.

(** A type with the total order of its Rust [Ord] implementation. *)
Class Ordered (K : Type) := {
  kcmp : K -> K -> comparison;
  kcmp_eq a b : kcmp a b = Eq <-> a = b;
  kcmp_antisym a b : kcmp b a = CompOpp (kcmp a b);
  kcmp_trans a b c : kcmp a b = Lt -> kcmp b c = Lt -> kcmp a c = Lt;
}.

Lemma str_compare_eq a b : str_compare a b = Eq <-> a = b.
Proof.
  revert b; induction a as [|x a IH]; intros [|y b]; simpl; try naive_solver.
  destruct (Z.compare_spec x y); [|naive_solver lia..].
  rewrite IH. naive_solver.
Qed.

Lemma str_compare_antisym a b : str_compare b a = CompOpp (str_compare a b).
Proof.
  revert b; induction a as [|x a IH]; intros [|y b]; simpl; try done.
  rewrite (Z.compare_antisym x y). destruct (x ?= y); simpl; auto.
Qed.

Lemma str_compare_trans a b c :
  str_compare a b = Lt -> str_compare b c = Lt -> str_compare a c = Lt.
Proof.
  revert b c; induction a as [|x a IH]; intros [|y b] [|z c]; simpl; try done.
  destruct (Z.compare_spec x y) as [->|Hxy|]; [|destruct (Z.compare_spec y z) as [->|Hyz|]|done];
    intros Hab Hbc; try done.
  - destruct (y ?= z); eauto.
  - by rewrite (proj2 (Z.compare_lt_iff x z)).
  - by rewrite (proj2 (Z.compare_lt_iff x z)) by lia.
Qed.

#[global] Instance str_ordered : Ordered (list Z) := {|
  kcmp := str_compare;
  kcmp_eq := str_compare_eq;
  kcmp_antisym := str_compare_antisym;
  kcmp_trans := str_compare_trans;
|}.

(** Lexicographic order on pairs, as Rust's tuples have it. *)
Definition pair_compare {A B} `{Ordered A, Ordered B} (p q : A * B) : comparison :=
  match kcmp p.1 q.1 with Eq => kcmp p.2 q.2 | o => o end.

Section order.
  Context {K : Type} `{Ordered K}.

Definition klt (a b : K) : Prop := kcmp a b = Lt.
Definition kle (a b : K) : Prop := kcmp a b <> Gt.

Lemma kcmp_refl a : kcmp a a = Eq.
Proof. by apply kcmp_eq. Qed.

#[global] Instance klt_strict : StrictOrder klt.
Proof.
  split.
  - intros a Ha. unfold klt in Ha. by rewrite kcmp_refl in Ha.
  - intros a b c. apply kcmp_trans.
Qed.

Lemma kcmp_gt_lt a b : kcmp a b = Gt <-> kcmp b a = Lt.
Proof. rewrite (kcmp_antisym a b). destruct (kcmp a b); naive_solver. Qed.

Lemma kle_lt_eq a b : kle a b <-> klt a b \/ a = b.
Proof.
  unfold kle, klt. rewrite <- kcmp_eq. destruct (kcmp a b); naive_solver.
Qed.

#[global] Instance kle_trans : Transitive kle.
Proof.
  intros a b c. rewrite !kle_lt_eq. intros [?| ->] [?|?]; subst; auto.
  left. by trans b.
Qed.

Lemma kle_total a b : kle a b \/ kle b a.
Proof.
  unfold kle. rewrite (kcmp_antisym a b). destruct (kcmp a b); simpl; auto.
Qed.
End order.

#[global] Program Instance pair_ordered {A B} `{Ordered A, Ordered B} : Ordered (A * B) := {|
  kcmp := pair_compare;
|}.
Next Obligation.
  intros A B ? ? [a1 b1] [a2 b2]. unfold pair_compare; simpl.
  destruct (kcmp a1 a2) eqn:E.
  - apply kcmp_eq in E as ->. rewrite kcmp_eq. naive_solver.
  - split; [done|]. intros [= -> ->]. by rewrite kcmp_refl in E.
  - split; [done|]. intros [= -> ->]. by rewrite kcmp_refl in E.
Qed.
Next Obligation.
  intros A B ? ? [a1 b1] [a2 b2]. unfold pair_compare; simpl.
  rewrite (kcmp_antisym a1 a2). destruct (kcmp a1 a2); simpl; auto using kcmp_antisym.
Qed.
Next Obligation.
  intros A B ? ? [a1 b1] [a2 b2] [a3 b3]. unfold pair_compare; simpl.
  destruct (kcmp a1 a2) eqn:E12; [apply kcmp_eq in E12 as ->| |done].
  - destruct (kcmp a2 a3); eauto using kcmp_trans.
  - destruct (kcmp a2 a3) eqn:E23; [apply kcmp_eq in E23 as ->; by rewrite E12| |done].
    by rewrite (kcmp_trans _ _ _ E12 E23).
Qed.

(** Characters the formats give a meaning to. *)
Abbreviation c_space := 32 (only parsing).
Abbreviation c_dquote := 34 (only parsing).
Abbreviation c_hash := 35 (only parsing).
Abbreviation c_plus := 43 (only parsing).
Abbreviation c_comma := 44 (only parsing).
Abbreviation c_dash := 45 (only parsing).
Abbreviation c_dot := 46 (only parsing).
Abbreviation c_slash := 47 (only parsing).
Abbreviation c_colon := 58 (only parsing).
Abbreviation c_semi := 59 (only parsing).
Abbreviation c_lt := 60 (only parsing).
Abbreviation c_eq := 61 (only parsing).
Abbreviation c_gt := 62 (only parsing).
Abbreviation c_at := 64 (only parsing).
Abbreviation c_bslash := 92 (only parsing).

(** ** Facts about trimming and case *)

Lemma ascii_lower_idem c : ascii_lower (ascii_lower c) = ascii_lower c.
Proof.
  unfold ascii_lower. destruct ((65 <=? c) && (c <=? 90)) eqn:E; [|by rewrite E].
  apply andb_true_iff in E as [E1%Z.leb_le E2%Z.leb_le].
  replace (c + 32 <=? 90) with false by (symmetry; apply Z.leb_gt; lia).
  by rewrite andb_false_r.
Qed.

Lemma to_ascii_lowercase_idem s : to_ascii_lowercase (to_ascii_lowercase s) = to_ascii_lowercase s.
Proof. unfold to_ascii_lowercase. rewrite map_map. apply map_ext, ascii_lower_idem. Qed.

Lemma to_ascii_lowercase_app s t :
  to_ascii_lowercase (s ++ t) = to_ascii_lowercase s ++ to_ascii_lowercase t.
Proof. apply map_app. Qed.

Lemma ascii_lower_whitespace c : is_whitespace (ascii_lower c) = is_whitespace c.
Proof.
  unfold ascii_lower. destruct ((65 <=? c) && (c <=? 90)) eqn:E; [|done].
  apply andb_true_iff in E as [E1%Z.leb_le E2%Z.leb_le]. unfold is_whitespace.
  repeat match goal with
  | |- context [?a <=? ?b] =>
      first [replace (a <=? b) with true by (symmetry; apply Z.leb_le; lia)
            |replace (a <=? b) with false by (symmetry; apply Z.leb_gt; lia)]
  | |- context [?a =? ?b] => replace (a =? b) with false by (symmetry; apply Z.eqb_neq; lia)
  end. done.
Qed.

Definition head_ok (s : rstring) : Prop :=
  match head s with Some c => is_whitespace c = false | None => True end.
Definition last_ok (s : rstring) : Prop :=
  match last s with Some c => is_whitespace c = false | None => True end.
(** Neither end of the string is white space. *)
Definition trimmed (s : rstring) : Prop := head_ok s /\ last_ok s.

Lemma trim_start_id s : head_ok s -> trim_start s = s.
Proof. destruct s as [|c s]; [done|]. unfold head_ok; simpl. by intros ->. Qed.

Lemma trim_start_head_ok s : head_ok (trim_start s).
Proof.
  induction s as [|c s IH]; [done|]. simpl.
  destruct (is_whitespace c) eqn:E; [done|]. unfold head_ok; by simpl.
Qed.

Lemma head_rev_last (s : rstring) : head (rev s) = last s.
Proof. rewrite rev_alt. apply head_reverse. Qed.

Lemma trim_end_id s : last_ok s -> trim_end s = s.
Proof.
  intros Hs. unfold trim_end. rewrite trim_start_id; [apply rev_involutive|].
  unfold head_ok. by rewrite head_rev_last.
Qed.

Lemma trim_id s : trimmed s -> trim s = s.
Proof. intros [H1 H2]. unfold trim. rewrite trim_start_id by done. by apply trim_end_id. Qed.

Lemma last_rev_head (s : rstring) : last (rev s) = head s.
Proof. rewrite <- (rev_involutive s) at 2. by rewrite head_rev_last. Qed.

Lemma trim_end_last_ok s : last_ok (trim_end s).
Proof.
  unfold last_ok, trim_end. rewrite last_rev_head.
  apply (trim_start_head_ok (rev s)).
Qed.

(** [trim_start] removes a white-space prefix. *)
Lemma trim_start_suffix s :
  exists w, s = w ++ trim_start s /\ Forall (fun c => is_whitespace c = true) w.
Proof.
  induction s as [|c s (w & Hw & Hf)]; simpl; [by exists []|].
  destruct (is_whitespace c) eqn:E; [|by exists []].
  exists (c :: w). split; [simpl; by rewrite <- Hw|by constructor].
Qed.

Lemma trim_end_prefix s :
  exists w, s = trim_end s ++ w /\ Forall (fun c => is_whitespace c = true) w.
Proof.
  destruct (trim_start_suffix (rev s)) as (w & Hw & Hf).
  exists (rev w). split; [|by apply Forall_rev].
  rewrite <- (rev_involutive s) at 1. rewrite Hw, rev_app_distr. done.
Qed.

Lemma trim_trimmed s : trimmed (trim s).
Proof.
  split; [|apply trim_end_last_ok]. unfold trim.
  destruct (trim_end_prefix (trim_start s)) as (w & Hw & _).
  pose proof (trim_start_head_ok s) as Hh. unfold head_ok in *.
  destruct (trim_end (trim_start s)) as [|c t]; [done|].
  rewrite Hw in Hh. done.
Qed.

Lemma head_ok_lower s : head_ok s -> head_ok (to_ascii_lowercase s).
Proof. destruct s; [done|]. unfold head_ok; simpl. by rewrite ascii_lower_whitespace. Qed.

Lemma last_ok_lower s : last_ok s -> last_ok (to_ascii_lowercase s).
Proof.
  unfold last_ok, to_ascii_lowercase. change (List.map ascii_lower s) with (ascii_lower <$> s).
  rewrite fmap_last. destruct (last s); simpl; [|done]. by rewrite ascii_lower_whitespace.
Qed.

Lemma trimmed_lower s : trimmed s -> trimmed (to_ascii_lowercase s).
Proof. intros []. split; auto using head_ok_lower, last_ok_lower. Qed.

#[export] Hint Resolve trim_trimmed trimmed_lower : iron.

(** ** Prefixes, joins and splits *)

Lemma strip_prefix_Some p s r : strip_prefix p s = Some r <-> s = p ++ r.
Proof.
  revert s; induction p as [|a p IH]; intros s; simpl; [naive_solver|].
  destruct s as [|b s]; [naive_solver|]. destruct (Z.eqb_spec a b); naive_solver.
Qed.

Lemma starts_with_spec p s : starts_with p s = true <-> exists r, s = p ++ r.
Proof.
  unfold starts_with. rewrite bool_decide_eq_true. unfold is_Some.
  by setoid_rewrite strip_prefix_Some.
Qed.

Lemma join_cons sep p ps : ps <> [] -> join sep (p :: ps) = p ++ sep ++ join sep ps.
Proof. by destruct ps. Qed.

Lemma join_app sep ps qs :
  ps <> [] -> qs <> [] -> join sep (ps ++ qs) = join sep ps ++ sep ++ join sep qs.
Proof.
  intros Hp Hq. induction ps as [|p ps IH]; [done|]. destruct ps as [|p' ps].
  - simpl. by destruct qs.
  - change ((p :: p' :: ps) ++ qs) with (p :: (p' :: ps) ++ qs).
    rewrite join_cons by done. rewrite IH by done.
    rewrite (join_cons sep p (p' :: ps)) by done. by rewrite <- !app_assoc.
Qed.

Lemma join_concat sep p ps : join sep (p :: ps) = p ++ concat (List.map (fun q => sep ++ q) ps).
Proof.
  revert p; induction ps as [|q ps IH]; intros p; [by rewrite app_nil_r|].
  rewrite join_cons, IH by done. cbn [List.map concat]. by rewrite <- app_assoc.
Qed.

Lemma split_char_nonempty d s : split_char d s <> [].
Proof. destruct s as [|c s]; simpl; [done|]. destruct (c =? d); [done|]. by destruct (split_char d s). Qed.

Lemma split_char_nosep d s : d ∉ s -> split_char d s = [s].
Proof.
  induction s as [|c s IH]; simpl; [done|]. intros [Hc Hs]%not_elem_of_cons.
  rewrite (proj2 (Z.eqb_neq c d)) by congruence. by rewrite IH.
Qed.

Lemma split_char_app d p s :
  d ∉ p -> split_char d (p ++ d :: s) = p :: split_char d s.
Proof.
  induction p as [|c p IH]; simpl; [by rewrite Z.eqb_refl|].
  intros [Hc Hp]%not_elem_of_cons.
  rewrite (proj2 (Z.eqb_neq c d)) by congruence. by rewrite IH.
Qed.

(** Splitting inverts joining when no piece holds the separator. *)
Lemma split_join d ps :
  ps <> [] -> Forall (fun p => d ∉ p) ps -> split_char d (join [d] ps) = ps.
Proof.
  intros Hne Hps. induction Hps as [|p ps Hp Hps IH]; [done|].
  destruct ps as [|q ps]; [by apply split_char_nosep|].
  rewrite join_cons by done. cbn [app]. rewrite split_char_app by done.
  by rewrite IH.
Qed.

Lemma join_split d s : join [d] (split_char d s) = s.
Proof.
  induction s as [|c s IH]; [done|]. simpl.
  pose proof (split_char_nonempty d s).
  destruct (Z.eqb_spec c d) as [->|].
  - rewrite join_cons by done. simpl. by rewrite IH.
  - destruct (split_char d s) as [|p [|q ps]]; [done|by simpl in *; rewrite IH|].
    rewrite join_cons in IH by done. rewrite join_cons by done. simpl in *. by rewrite IH.
Qed.

(** Joined pieces without the separator are determined by the joined string. *)
Lemma join_inj d ps qs :
  Forall (fun p => d ∉ p) ps -> Forall (fun p => d ∉ p) qs -> ps <> [] -> qs <> [] ->
  join [d] ps = join [d] qs -> ps = qs.
Proof.
  intros Hp Hq Hnp Hnq H. by rewrite <- (split_join d ps), <- (split_join d qs), H.
Qed.
