(* ===== verification/Btree.v ===== *)
(** [BTreeMap] as a key-sorted association list (iteration is in key order),
    and the stable [sort_by] of the standard library. *)

From S2P Require Import Prelude Str.

Section btree.
  Context {K V : Type} `{Ordered K}.
  Implicit Types (m : list (K * V)) (k : K) (v : V).

Fixpoint bt_get (k : K) (m : list (K * V)) : option V :=
  match m with
  | [] => None
  | (k', v) :: m' => match kcmp k k' with Eq => Some v | _ => bt_get k m' end
  end.

Fixpoint bt_insert (k : K) (v : V) (m : list (K * V)) : list (K * V) :=
  match m with
  | [] => [(k, v)]
  | (k', v') :: m' =>
      match kcmp k k' with
      | Lt => (k, v) :: m
      | Eq => (k, v) :: m'
      | Gt => (k', v') :: bt_insert k v m'
      end
  end.

Fixpoint bt_remove (k : K) (m : list (K * V)) : list (K * V) :=
  match m with
  | [] => []
  | (k', v) :: m' => match kcmp k k' with Eq => m' | _ => (k', v) :: bt_remove k m' end
  end.

Definition bt_contains (k : K) (m : list (K * V)) : bool :=
  match bt_get k m with Some _ => true | None => false end.
Definition bt_keys (m : list (K * V)) : list K := List.map fst m.
Definition bt_values (m : list (K * V)) : list V := List.map snd m.

(** The invariant: strictly increasing keys. *)
Inductive bt_wf : list (K * V) -> Prop :=
| bt_wf_nil : bt_wf []
| bt_wf_cons k v m : Forall (fun p => klt k p.1) m -> bt_wf m -> bt_wf ((k, v) :: m).

Lemma bt_get_insert_eq k v m : bt_get k (bt_insert k v m) = Some v.
Proof.
  induction m as [|[k' v'] m IH]; simpl; [by rewrite kcmp_refl|].
  destruct (kcmp k k') eqn:E; simpl; rewrite ?kcmp_refl, ?E; auto.
Qed.

Lemma bt_get_insert_ne k k' v m : k <> k' -> bt_get k' (bt_insert k v m) = bt_get k' m.
Proof.
  intros Hne. assert (kcmp k' k <> Eq) as Hc by (by rewrite kcmp_eq).
  induction m as [|[k'' v''] m IH]; simpl.
  - by destruct (kcmp k' k).
  - destruct (kcmp k k'') eqn:E; simpl.
    + apply kcmp_eq in E as ->. by destruct (kcmp k' k'').
    + by destruct (kcmp k' k).
    + by rewrite IH.
Qed.

Lemma bt_get_insert k k' v m :
  bt_get k' (bt_insert k v m) = match kcmp k k' with Eq => Some v | _ => bt_get k' m end.
Proof.
  destruct (kcmp k k') eqn:E; [apply kcmp_eq in E as ->; apply bt_get_insert_eq|..];
    apply bt_get_insert_ne; intros Heq%kcmp_eq; congruence.
Qed.

Lemma bt_get_lt k m : Forall (fun p => klt k p.1) m -> bt_get k m = None.
Proof.
  induction 1 as [|[k' v'] m Hk _ IH]; [done|]. simpl in *. unfold klt in Hk. by rewrite Hk.
Qed.

Lemma bt_get_In m k v : bt_wf m -> bt_get k m = Some v <-> (k, v) ∈ m.
Proof.
  induction 1 as [|k' v' m Hlt Hwf IH]; simpl; [split; [done|by intros ?%elem_of_nil]|].
  rewrite elem_of_cons. destruct (kcmp k k') eqn:E.
  - apply kcmp_eq in E as ->. split; [naive_solver|]. intros [?|Hin]; [naive_solver|].
    rewrite Forall_forall in Hlt. specialize (Hlt _ Hin). simpl in Hlt.
    unfold klt in Hlt. by rewrite kcmp_refl in Hlt.
  - rewrite IH. split; [auto|]. intros [[= -> ->]|]; [|done]. by rewrite kcmp_refl in E.
  - rewrite IH. split; [auto|]. intros [[= -> ->]|]; [|done]. by rewrite kcmp_refl in E.
Qed.

Lemma bt_insert_keys_Forall (P : K -> Prop) k v m :
  P k -> Forall (fun p => P p.1) m -> Forall (fun p => P p.1) (bt_insert k v m).
Proof.
  intros Hk. induction 1 as [|[k' v'] m Hk' Hm IH]; simpl; [by constructor|].
  destruct (kcmp k k'); repeat constructor; auto.
Qed.

Lemma bt_insert_wf k v m : bt_wf m -> bt_wf (bt_insert k v m).
Proof.
  induction 1 as [|k' v' m Hlt Hwf IH]; simpl; [by repeat constructor|].
  destruct (kcmp k k') eqn:E.
  - apply kcmp_eq in E as ->. by constructor.
  - constructor; [|by constructor]. constructor; [done|].
    eapply Forall_impl; [exact Hlt|]. intros p Hp. simpl in *. by trans k'.
  - constructor; [|done]. apply bt_insert_keys_Forall; [|done].
    by apply kcmp_gt_lt.
Qed.

Lemma bt_remove_incl k m p : p ∈ bt_remove k m -> p ∈ m.
Proof.
  induction m as [|[k' v'] m IH]; simpl; [done|].
  destruct (kcmp k k'); rewrite !elem_of_cons; naive_solver.
Qed.

Lemma bt_remove_wf k m : bt_wf m -> bt_wf (bt_remove k m).
Proof.
  induction 1 as [|k' v' m Hlt Hwf IH]; simpl; [constructor|].
  destruct (kcmp k k'); try done; constructor; try done;
    rewrite Forall_forall in *; intros p Hp%bt_remove_incl; auto.
Qed.

Lemma bt_get_remove_ne k k' m : k <> k' -> bt_get k' (bt_remove k m) = bt_get k' m.
Proof.
  intros Hne. induction m as [|[k'' v''] m IH]; simpl; [done|].
  destruct (kcmp k k'') eqn:E; simpl; [|by rewrite IH..].
  apply kcmp_eq in E as <-. destruct (kcmp k' k) eqn:E'; [|done..].
  by apply kcmp_eq in E' as ->.
Qed.

Lemma bt_get_remove_eq k m : bt_wf m -> bt_get k (bt_remove k m) = None.
Proof.
  induction 1 as [|k' v' m Hlt Hwf IH]; simpl; [done|].
  destruct (kcmp k k') eqn:E; simpl; rewrite ?E; try done.
  apply kcmp_eq in E as ->. by apply bt_get_lt.
Qed.

(** Two maps with the same bindings are the same list. *)
Lemma bt_ext m1 m2 : bt_wf m1 -> bt_wf m2 -> (forall k, bt_get k m1 = bt_get k m2) -> m1 = m2.
Proof.
  intros H1. revert m2. induction H1 as [|k v m1 Hlt1 Hwf1 IH]; intros m2 H2 Hget.
  - destruct H2 as [|k v m2]; [done|]. specialize (Hget k). simpl in Hget.
    by rewrite kcmp_refl in Hget.
  - destruct H2 as [|k' v' m2 Hlt2 Hwf2].
    { specialize (Hget k). simpl in Hget. by rewrite kcmp_refl in Hget. }
    assert (k = k') as ->.
    { destruct (kcmp k k') eqn:E; [by apply kcmp_eq|..].
      - specialize (Hget k). simpl in Hget. rewrite kcmp_refl, E in Hget.
        rewrite bt_get_lt in Hget; [done|].
        eapply Forall_impl; [exact Hlt2|]. intros p Hp. by trans k'.
      - apply kcmp_gt_lt in E. specialize (Hget k'). simpl in Hget.
        rewrite kcmp_refl, E in Hget. rewrite bt_get_lt in Hget; [done|].
        eapply Forall_impl; [exact Hlt1|]. intros p Hp. by trans k. }
    f_equal.
    + specialize (Hget k'). simpl in Hget. rewrite kcmp_refl in Hget. congruence.
    + apply IH; [done|]. intros k. specialize (Hget k). simpl in Hget.
      destruct (kcmp k k') eqn:E; [|done..]. apply kcmp_eq in E as ->.
      by rewrite !bt_get_lt.
Qed.

Lemma bt_values_elem m v : v ∈ bt_values m <-> exists k, (k, v) ∈ m.
Proof.
  unfold bt_values. change (List.map snd m) with (snd <$> m). rewrite list_elem_of_fmap.
  split; [intros ([k v'] & -> & ?); eauto|]. intros [k Hk]. by exists (k, v).
Qed.
End btree.

#[export] Hint Resolve bt_insert_wf bt_remove_wf bt_wf_nil : iron.
#[export] Hint Rewrite @bt_get_insert_eq : iron.

(** ** [slice::sort_by]

    The result of a stable sort is determined by its specification; insertion
    from the right computes it. *)
Section sort.
  Context {A K : Type} `{Ordered K} (key : A -> K).

Fixpoint sort_insert (a : A) (l : list A) : list A :=
  match l with
  | [] => [a]
  | b :: l' => match kcmp (key a) (key b) with Gt => b :: sort_insert a l' | _ => a :: l end
  end.

Definition sort_by (l : list A) : list A := foldr sort_insert [] l.

Definition sorted_by (l : list A) : Prop := Sorted (fun a b => kle (key a) (key b)) l.

Lemma sort_insert_perm a l : sort_insert a l ≡ₚ a :: l.
Proof.
  induction l as [|b l IH]; simpl; [done|]. destruct (kcmp (key a) (key b)); [done..|].
  rewrite IH. apply Permutation_swap.
Qed.

Lemma sort_by_perm l : sort_by l ≡ₚ l.
Proof.
  induction l as [|a l IH]; simpl; [done|]. by rewrite sort_insert_perm, IH.
Qed.

Lemma sort_insert_sorted a l : sorted_by l -> sorted_by (sort_insert a l).
Proof.
  unfold sorted_by. induction 1 as [|b l Hs IH Hd]; simpl; [by repeat constructor|].
  destruct (kcmp (key a) (key b)) eqn:E.
  - repeat constructor; auto. unfold kle. by rewrite E.
  - repeat constructor; auto. unfold kle. by rewrite E.
  - assert (kle (key b) (key a)) as Hba
      by (apply kcmp_gt_lt in E; unfold kle; by rewrite E).
    constructor; [done|]. destruct l as [|c l]; simpl; [by constructor|].
    destruct (kcmp (key a) (key c)); constructor; auto. by inversion Hd.
Qed.

Lemma sort_by_sorted l : sorted_by (sort_by l).
Proof. induction l; simpl; [constructor|]. by apply sort_insert_sorted. Qed.

Lemma sort_by_id l : sorted_by l -> sort_by l = l.
Proof.
  unfold sorted_by. induction 1 as [|a l Hs IH Hd]; simpl; [done|]. rewrite IH.
  destruct Hd as [|b l Hab]; simpl; [done|]. unfold kle in Hab.
  by destruct (kcmp (key a) (key b)).
Qed.
End sort.
