(* ===== verification/Dn.v ===== *)
(** Distinguished names, [crates/partition/src/dn.rs]: the RFC 4514 parser and
    printer, the case-insensitive equality of DNs as a setoid, subtree
    containment, and the errors of [crates/partition/src/error.rs]. *)

From S2P Require Import Prelude Str Btree.

(** ** Errors *)

(** The reasons [InvalidDn] is reported with: three by [Dn::parse], the last by
    the store for a key outside a partition's tree. *)
Inductive dn_reason :=
| EmptyRdn
| NoEquals (ava : rstring)
| EmptyAttr
| NotUnderTree.

Inductive PartitionError :=
| InvalidDn (input : rstring) (reason : dn_reason)
| InvalidId (s : rstring)
| InvalidForestId (s : rstring)
| UnknownPartition (s : rstring)
| NoOwningPartition (s : rstring)
| DuplicateId (s : rstring).

#[global] Instance dn_reason_eq_dec : EqDecision dn_reason.
Proof. solve_decision. Defined.
#[global] Instance PartitionError_eq_dec : EqDecision PartitionError.
Proof. solve_decision. Defined.

(** ** Data *)

Record Ava := mkAva { attr : rstring; value : rstring; norm_value : rstring }.
Record Rdn := mkRdn { avas : list Ava }.
Record Dn := mkDn { rdns : list Rdn }.

#[global] Instance Ava_eq_dec : EqDecision Ava.
Proof. solve_decision. Defined.
#[global] Instance Rdn_eq_dec : EqDecision Rdn.
Proof. solve_decision. Defined.
#[global] Instance Dn_eq_dec : EqDecision Dn.
Proof. solve_decision. Defined.

(** [impl PartialEq for Ava], and the derived element-wise equality of the
    vectors of AVAs and RDNs. *)
Definition ava_eq (a b : Ava) : bool :=
  bool_decide (attr a = attr b) && bool_decide (norm_value a = norm_value b).

Fixpoint vec_eq {A} (eq : A -> A -> bool) (l k : list A) : bool :=
  match l, k with
  | [], [] => true
  | a :: l', b :: k' => eq a b && vec_eq eq l' k'
  | _, _ => false
  end.

Definition rdn_eq (r s : Rdn) : bool := vec_eq ava_eq (avas r) (avas s).
Definition dn_eq (d e : Dn) : bool := vec_eq rdn_eq (rdns d) (rdns e).

(** ** Scanning *)

(** [split_unescaped]: the loop over the characters, with its three locals. *)
Fixpoint split_loop (delim : char) (cs : rstring) (parts : list rstring) (cur : rstring)
    (escaped : bool) : list rstring :=
  match cs with
  | [] => parts ++ [if escaped then cur ++ [c_bslash] else cur]
  | c :: cs' =>
      if escaped then split_loop delim cs' parts (cur ++ [c_bslash; c]) false
      else if c =? c_bslash then split_loop delim cs' parts cur true
      else if c =? delim then split_loop delim cs' (parts ++ [cur]) [] false
      else split_loop delim cs' parts (cur ++ [c]) false
  end.

Definition split_unescaped (s : rstring) (delim : char) : list rstring :=
  split_loop delim s [] [] false.

(** [find_unescaped]: the index of the first unescaped [delim]; an index in
    characters, where the source has the byte offset of the same character. *)
Fixpoint find_loop (delim : char) (cs : rstring) (i : nat) (escaped : bool) : option nat :=
  match cs with
  | [] => None
  | c :: cs' =>
      if escaped then find_loop delim cs' (S i) false
      else if c =? c_bslash then find_loop delim cs' (S i) true
      else if c =? delim then Some i
      else find_loop delim cs' (S i) false
  end.

Definition find_unescaped (s : rstring) (delim : char) : option nat :=
  find_loop delim s O false.

(** [unescape]. *)
Fixpoint unescape (s : rstring) : rstring :=
  match s with
  | [] => []
  | c :: s' =>
      if negb (c =? c_bslash) then c :: unescape s'
      else
        match s' with
        | [] => [c_bslash]
        | h1 :: s1 =>
            if is_ascii_hexdigit h1 then
              match s1 with
              | h2 :: s2 =>
                  if is_ascii_hexdigit h2
                  then (16 * hex_value h1 + hex_value h2) :: unescape s2
                  else h1 :: unescape s1
              | [] => h1 :: unescape s1
              end
            else h1 :: unescape s1
        end
  end.

(** The characters [escape_value] always escapes. *)
Definition is_special (c : char) : bool :=
  (c =? c_bslash) || (c =? c_comma) || (c =? c_plus) || (c =? c_eq) || (c =? c_lt)
  || (c =? c_gt) || (c =? c_hash) || (c =? c_semi) || (c =? c_dquote).

Definition escape_char (edge : bool) (c : char) : rstring :=
  if is_special c then [c_bslash; c]
  else if (c =? c_space) && edge then [c_bslash; c_space]
  else [c].

(** [escape_value]. *)
Definition escape_value (v : rstring) : rstring :=
  concat (imap (fun i c => escape_char ((i =? 0)%nat || (i =? length v - 1)%nat) c) v).

(** ** Parsing and printing *)

Definition parse_ava (s full : rstring) : result PartitionError Ava :=
  match find_unescaped s c_eq with
  | None => Err (InvalidDn full (NoEquals s))
  | Some eq =>
      let attr := to_ascii_lowercase (trim (take eq s)) in
      if bool_decide (attr = []) then Err (InvalidDn full EmptyAttr)
      else
        let raw_value := trim (drop (S eq) s) in
        let value := unescape raw_value in
        let norm_value := to_ascii_lowercase (trim value) in
        Ok (mkAva attr value norm_value)
  end.

Definition ava_key (a : Ava) : rstring * rstring := (attr a, norm_value a).

(** One turn of the loop of [Dn::parse]. *)
Definition parse_rdn (full rdn_str : rstring) : result PartitionError Rdn :=
  let rdn_str := trim rdn_str in
  if bool_decide (rdn_str = []) then Err (InvalidDn full EmptyRdn)
  else
    avas ← try_map (fun ava_str => parse_ava (trim ava_str) full) (split_unescaped rdn_str c_plus);
    Ok (mkRdn (sort_by ava_key avas)).

Definition root : Dn := mkDn [].

Definition parse (s : rstring) : result PartitionError Dn :=
  let trimmed := trim s in
  if bool_decide (trimmed = []) then Ok root
  else rdns ← try_map (parse_rdn s) (split_unescaped trimmed c_comma); Ok (mkDn rdns).

Definition ava_to_string (a : Ava) : rstring := attr a ++ [c_eq] ++ escape_value (value a).
Definition rdn_to_string (r : Rdn) : rstring := join [c_plus] (List.map ava_to_string (avas r)).
Definition to_string (d : Dn) : rstring := join [c_comma] (List.map rdn_to_string (rdns d)).

Definition normalized_string (r : Rdn) : rstring :=
  join [c_plus] (List.map (fun a => attr a ++ [c_eq] ++ norm_value a) (avas r)).

(** ** Structure *)

Definition is_empty (d : Dn) : bool := bool_decide (rdns d = []).
Definition depth (d : Dn) : nat := length (rdns d).

Definition parent (d : Dn) : option Dn :=
  match rdns d with
  | [] => None
  | _ :: rs => Some (mkDn rs)
  end.

Definition is_within (d base : Dn) : bool :=
  if (length (rdns d) <? length (rdns base))%nat then false
  else
    let off := (length (rdns d) - length (rdns base))%nat in
    vec_eq rdn_eq (drop off (rdns d)) (rdns base).

Definition is_strict_descendant_of (d base : Dn) : bool :=
  (length (rdns base) <? length (rdns d))%nat && is_within d base.

Definition reversed_components (d : Dn) : list rstring :=
  List.map normalized_string (rev (rdns d)).

(** ** The setoid of DNs

    Two DNs that differ in the spelling of a value only are equal for the
    program; [≡] is that equality and the structural operations respect it. *)

#[global] Instance ava_equiv : Equiv Ava :=
  fun a b => attr a = attr b /\ norm_value a = norm_value b.
#[global] Instance rdn_equiv : Equiv Rdn := fun r s => avas r ≡ avas s.
#[global] Instance dn_equiv : Equiv Dn := fun d e => rdns d ≡ rdns e.

#[global] Instance ava_equivalence : Equivalence (≡@{Ava}).
Proof. split; repeat intros []; split; simpl in *; congruence. Qed.
#[global] Instance rdn_equivalence : Equivalence (≡@{Rdn}).
Proof.
  unfold equiv, rdn_equiv. split; [by intros ?| by intros ???|].
  intros ??? Hab Hbc. by rewrite Hab.
Qed.
#[global] Instance dn_equivalence : Equivalence (≡@{Dn}).
Proof.
  unfold equiv, dn_equiv. split; [by intros ?| by intros ???|].
  intros ??? Hab Hbc. by rewrite Hab.
Qed.

Lemma ava_eq_spec a b : ava_eq a b = true <-> a ≡ b.
Proof. unfold ava_eq. rewrite andb_true_iff, !bool_decide_eq_true. done. Qed.

Lemma vec_eq_spec {A} `{Equiv A} (eqb : A -> A -> bool) (l k : list A) :
  (forall a b, eqb a b = true <-> a ≡ b) -> vec_eq eqb l k = true <-> l ≡ k.
Proof.
  intros Heq. revert k; induction l as [|a l IH]; intros [|b k]; simpl.
  - split; [constructor|done].
  - split; [done|inversion 1].
  - split; [done|inversion 1].
  - rewrite andb_true_iff, Heq, IH. split; [intros []; by constructor|by inversion 1].
Qed.

Lemma rdn_eq_spec r s : rdn_eq r s = true <-> r ≡ s.
Proof. apply vec_eq_spec, ava_eq_spec. Qed.
Lemma dn_eq_spec d e : dn_eq d e = true <-> d ≡ e.
Proof. apply vec_eq_spec, rdn_eq_spec. Qed.

#[global] Instance dn_equiv_dec : RelDecision (≡@{Dn}).
Proof.
  intros d e. destruct (dn_eq d e) eqn:E; [left; by apply dn_eq_spec|right].
  rewrite <- dn_eq_spec. by rewrite E.
Defined.

#[global] Instance rdns_proper : Proper ((≡) ==> (≡)) rdns.
Proof. by intros ???. Qed.

(** Containment is the suffix relation of the setoid. *)
Lemma is_within_suffix d base :
  is_within d base = true <-> exists pre suf, rdns d = pre ++ suf /\ suf ≡ rdns base.
Proof.
  unfold is_within. destruct (Nat.ltb_spec (length (rdns d)) (length (rdns base))) as [Hl|Hl].
  - split; [done|]. intros (pre & suf & Hd & Hs). apply length_proper in Hs.
    rewrite Hd, length_app in Hl. lia.
  - rewrite (vec_eq_spec _ _ _ rdn_eq_spec). split.
    + intros H. eexists (take _ _), _. split; [symmetry; apply take_drop|exact H].
    + intros (pre & suf & Hd & Hs). pose proof (length_proper _ _ Hs) as Hls.
      rewrite Hd, length_app, Hls, Nat.add_sub, drop_app_length. done.
Qed.

#[global] Instance is_within_proper : Proper ((≡) ==> (≡) ==> (=)) is_within.
Proof.
  intros d d' Hd b b' Hb. unfold is_within. unfold equiv, dn_equiv in Hd, Hb.
  rewrite (length_proper _ _ Hd), (length_proper _ _ Hb).
  destruct (_ <? _)%nat; [done|]. apply eq_bool_prop_intro. rewrite !Is_true_true.
  rewrite !(vec_eq_spec _ _ _ rdn_eq_spec). rewrite Hb.
  by rewrite (drop_proper _ _ _ Hd).
Qed.

Lemma is_within_refl d : is_within d d = true.
Proof. apply is_within_suffix. by exists [], (rdns d). Qed.

Lemma is_within_trans a b c : is_within a b = true -> is_within b c = true -> is_within a c = true.
Proof.
  rewrite !is_within_suffix. intros (p & s & Ha & Hs) (q & t & Hb & Ht).
  rewrite Hb in Hs. apply app_equiv_eq in Hs as (s1 & s2 & -> & Hs1 & Hs2).
  exists (p ++ s1), s2. rewrite Ha, <- app_assoc. split; [done|]. by rewrite Hs2.
Qed.

Lemma is_within_depth a b : is_within a b = true -> (depth b <= depth a)%nat.
Proof.
  unfold is_within, depth. by destruct (Nat.ltb_spec (length (rdns a)) (length (rdns b))).
Qed.

(** Two bases of one DN are comparable: the shallower contains the deeper. *)
Lemma is_within_linear d a b :
  is_within d a = true -> is_within d b = true -> (depth a <= depth b)%nat -> is_within b a = true.
Proof.
  rewrite !is_within_suffix. unfold depth. intros (p & s & Hd & Hs) (q & t & Hd' & Ht) Hl.
  rewrite <- (length_proper _ _ Hs), <- (length_proper _ _ Ht) in Hl.
  rewrite Hd in Hd'.
  assert (length q <= length p)%nat as Hqp.
  { apply (f_equal length) in Hd'. rewrite !length_app in Hd'. lia. }
  assert (t = drop (length q) p ++ s) as Heq.
  { rewrite <- (drop_app_length q t), <- Hd', drop_app_le by done. done. }
  rewrite Heq in Ht.
  symmetry in Ht. apply app_equiv_eq in Ht as (s1 & s2 & Hb & Hs1 & Hs2).
  exists s1, s2. split; [done|]. rewrite Hs2. done.
Qed.

Lemma is_within_antisym a b : is_within a b = true -> is_within b a = true -> a ≡ b.
Proof.
  intros Hab Hba. pose proof (is_within_depth _ _ Hab). pose proof (is_within_depth _ _ Hba).
  apply is_within_suffix in Hab as (p & s & Ha & Hs). unfold depth in *.
  apply length_proper in Hs as Hl. unfold equiv, dn_equiv. rewrite Ha in *.
  rewrite length_app in *. destruct p; [done|]. simpl in *. lia.
Qed.

(** ** Escaped text

    [esc_clean D s]: every backslash of [s] escapes the character after it and
    no character of [D] occurs unescaped. *)
Inductive esc_clean (D : list char) : rstring -> Prop :=
| esc_nil : esc_clean D []
| esc_plain c s : c <> c_bslash -> c ∉ D -> esc_clean D s -> esc_clean D (c :: s)
| esc_pair c s : esc_clean D s -> esc_clean D (c_bslash :: c :: s).

#[local] Hint Constructors esc_clean : core.

Lemma esc_clean_app D s t : esc_clean D s -> esc_clean D t -> esc_clean D (s ++ t).
Proof. induction 1; simpl; auto. Qed.

Lemma esc_clean_mono D D' s : (forall c, c ∈ D' -> c ∈ D) -> esc_clean D s -> esc_clean D' s.
Proof. intros HD. induction 1; auto. Qed.

Lemma split_loop_clean D d s rest parts cur :
  d ∈ D -> esc_clean D s ->
  split_loop d (s ++ rest) parts cur false = split_loop d rest parts (cur ++ s) false.
Proof.
  intros Hd Hs. revert cur. induction Hs as [|c s Hc HD Hs IH|c s Hs IH]; intros cur.
  - by rewrite app_nil_r.
  - cbn [app split_loop]. rewrite (proj2 (Z.eqb_neq c c_bslash)) by done.
    rewrite (proj2 (Z.eqb_neq c d)) by set_solver. rewrite IH. by rewrite <- app_assoc.
  - cbn [app split_loop]. rewrite Z.eqb_refl, IH. by rewrite <- app_assoc.
Qed.

(** Splitting inverts joining on escaped text. *)
Lemma split_unescaped_join D d ps :
  d ∈ D -> d <> c_bslash -> ps <> [] -> Forall (esc_clean D) ps ->
  split_unescaped (join [d] ps) d = ps.
Proof.
  intros Hd Hb Hne Hps. unfold split_unescaped.
  assert (forall acc, split_loop d (join [d] ps) acc [] false = acc ++ ps) as H; [|apply H].
  induction Hps as [|p ps Hp Hps IH]; [done|]. intros acc. destruct ps as [|q ps].
  - cbn [join]. rewrite <- (app_nil_r p) at 1. rewrite (split_loop_clean D) by done. done.
  - rewrite join_cons, (split_loop_clean D) by done. cbn [app split_loop].
    rewrite (proj2 (Z.eqb_neq d c_bslash)), Z.eqb_refl by done.
    rewrite IH by done. by rewrite <- app_assoc.
Qed.

Lemma find_loop_clean D d s rest i :
  d ∈ D -> esc_clean D s ->
  find_loop d (s ++ rest) i false = find_loop d rest (i + length s)%nat false.
Proof.
  intros Hd Hs. revert i. induction Hs as [|c s Hc HD Hs IH|c s Hs IH]; intros i.
  - by rewrite Nat.add_0_r.
  - cbn [app find_loop]. rewrite (proj2 (Z.eqb_neq c c_bslash)) by done.
    rewrite (proj2 (Z.eqb_neq c d)) by set_solver. rewrite IH. f_equal. simpl. lia.
  - cbn [app find_loop]. rewrite Z.eqb_refl, IH. f_equal. simpl. lia.
Qed.

Lemma find_unescaped_first D d s rest :
  d ∈ D -> d <> c_bslash -> esc_clean D s ->
  find_unescaped (s ++ d :: rest) d = Some (length s).
Proof.
  intros Hd Hb Hs. unfold find_unescaped. rewrite (find_loop_clean D) by done. cbn [find_loop].
  rewrite (proj2 (Z.eqb_neq d c_bslash)), Z.eqb_refl by done. done.
Qed.

(** ** [unescape] inverts [escape_value] *)

Lemma special_not_hex c : is_special c = true -> is_ascii_hexdigit c = false.
Proof.
  unfold is_special, is_ascii_hexdigit, is_ascii_digit.
  rewrite !orb_true_iff, !Z.eqb_eq.
  intros [[[[[[[[->| ->]| ->]| ->]| ->]| ->]| ->]| ->]| ->]; done.
Qed.

Lemma unescape_escape_char e c rest : unescape (escape_char e c ++ rest) = c :: unescape rest.
Proof.
  unfold escape_char. destruct (is_special c) eqn:Hs.
  - cbn [app unescape]. by rewrite (special_not_hex c Hs).
  - destruct ((c =? c_space) && e) eqn:He.
    + apply andb_true_iff in He as [->%Z.eqb_eq _]. done.
    + cbn [app unescape]. unfold is_special in Hs. rewrite !orb_false_iff in Hs.
      destruct Hs as [[[[[[[[-> _] _] _] _] _] _] _] _]. done.
Qed.

Lemma unescape_concat_escape (f : nat -> bool) v :
  unescape (concat (imap (fun i c => escape_char (f i) c) v)) = v.
Proof.
  revert f; induction v as [|c v IH]; intros f; [done|]. cbn [imap concat].
  rewrite unescape_escape_char. f_equal. apply (IH (f ∘ S)).
Qed.

Lemma unescape_escape_value v : unescape (escape_value v) = v.
Proof. apply (unescape_concat_escape (fun i => (i =? 0)%nat || (i =? length v - 1)%nat)). Qed.

Lemma escape_char_clean D e c :
  (forall d, d ∈ D -> is_special d = true) -> esc_clean D (escape_char e c).
Proof.
  intros HD. unfold escape_char. destruct (is_special c) eqn:Hs; [auto|].
  destruct (_ && _); [auto|]. constructor; [|intros H%HD; congruence|constructor].
  intros ->. done.
Qed.

Lemma escape_value_clean D v :
  (forall d, d ∈ D -> is_special d = true) -> esc_clean D (escape_value v).
Proof.
  intros HD. unfold escape_value. generalize (length v - 1)%nat as n. intros n.
  generalize 0%nat as z. intros z.
  assert (forall f : nat -> bool, esc_clean D (concat (imap (fun i c => escape_char (f i) c) v))) as H;
    [|apply (H (fun i => (i =? z)%nat || (i =? n)%nat))].
  induction v as [|c v IH]; intros f; [constructor|]. cbn [imap concat].
  apply esc_clean_app; [by apply escape_char_clean|]. apply (IH (f ∘ S)).
Qed.

(** ** Round trip *)

(** White space other than the space character. *)
Definition other_space (c : char) : bool := is_whitespace c && negb (c =? c_space).

(** A value the printer's escaping protects from the parser's trimming: a
    leading space is escaped and survives, a trailing one does not. *)
Definition value_ok (v : rstring) : Prop :=
  match head v with Some c => other_space c = false | None => True end /\ last_ok v.

Definition delims : list char := [c_comma; c_plus; c_eq].

Record ava_wf (a : Ava) : Prop := {
  aw_attr_ne : attr a <> [];
  aw_attr_trimmed : trimmed (attr a);
  aw_attr_lower : to_ascii_lowercase (attr a) = attr a;
  aw_attr_clean : esc_clean delims (attr a);
  aw_value : value_ok (value a);
  aw_norm : norm_value a = to_ascii_lowercase (trim (value a));
}.

Record rdn_wf (r : Rdn) : Prop := {
  rw_ne : avas r <> [];
  rw_avas : Forall ava_wf (avas r);
  rw_sorted : sorted_by ava_key (avas r);
}.

Definition dn_wf (d : Dn) : Prop := Forall rdn_wf (rdns d).

Lemma head_app_ne {A} (s t : list A) : s <> [] -> head (s ++ t) = head s.
Proof. by destruct s. Qed.
Lemma last_app_ne {A} (s t : list A) : t <> [] -> last (s ++ t) = last t.
Proof. rewrite last_app. intros H. destruct (last t) eqn:E; [done|]. by apply last_None in E. Qed.

Lemma escape_value_head v : value_ok v -> head_ok (escape_value v).
Proof.
  intros [Hh _]. unfold escape_value. destruct v as [|c v]; [done|]. cbn [imap concat head] in *.
  unfold head_ok, escape_char. destruct (is_special c); [done|].
  replace ((0 =? 0)%nat || _) with true by done. rewrite andb_true_r.
  destruct (c =? c_space) eqn:E; [done|]. cbn [app head].
  unfold other_space in Hh. rewrite E in Hh. by rewrite andb_true_r in Hh.
Qed.

Lemma special_not_space c : is_special c = true -> is_whitespace c = false.
Proof.
  unfold is_special. rewrite !orb_true_iff, !Z.eqb_eq.
  intros [[[[[[[[->| ->]| ->]| ->]| ->]| ->]| ->]| ->]| ->]; done.
Qed.

Lemma escape_char_ne e c : escape_char e c <> [].
Proof. unfold escape_char. by destruct (is_special c), ((c =? c_space) && e). Qed.

Lemma concat_escape_last (f : nat -> bool) v :
  last_ok v -> last_ok (concat (imap (fun i c => escape_char (f i) c) v)).
Proof.
  revert f; induction v as [|c v IH]; intros f Hv; [done|]. cbn [imap concat].
  destruct v as [|c' v].
  - cbn [imap concat]. rewrite app_nil_r. unfold last_ok in *. cbn in Hv. unfold escape_char.
    destruct (is_special c) eqn:Es; [done|].
    destruct (Z.eqb_spec c c_space) as [->|]; [done|]. done.
  - unfold last_ok in *. rewrite last_app_ne; [|].
    + apply (IH (f ∘ S)). done.
    + cbn [imap concat]. intros [H _]%app_eq_nil. by apply escape_char_ne in H.
Qed.

Lemma escape_value_trimmed v : value_ok v -> trimmed (escape_value v).
Proof.
  intros Hv. split; [by apply escape_value_head|].
  apply (concat_escape_last (fun i => (i =? 0)%nat || (i =? length v - 1)%nat)), Hv.
Qed.

Lemma trimmed_app s m t :
  head_ok s -> s <> [] -> m <> [] -> last_ok m -> last_ok t -> trimmed (s ++ m ++ t).
Proof.
  intros Hs Hne Hm Hml Ht. split; unfold head_ok, last_ok in *.
  - by rewrite head_app_ne.
  - destruct (decide (t = [])) as [->|].
    + rewrite app_nil_r, last_app_ne by done. done.
    + by rewrite !last_app_ne by (try done; intros []%app_eq_nil; done).
Qed.

Lemma ava_to_string_ne a : ava_to_string a <> [].
Proof. unfold ava_to_string. by destruct (attr a). Qed.

Lemma ava_to_string_trimmed a : ava_wf a -> trimmed (ava_to_string a).
Proof.
  intros Ha. unfold ava_to_string.
  apply trimmed_app; [apply Ha| apply Ha |done|done|].
  apply escape_value_trimmed, Ha.
Qed.

Lemma ava_to_string_clean a : ava_wf a -> esc_clean [c_comma; c_plus] (ava_to_string a).
Proof.
  intros Ha. unfold ava_to_string. apply esc_clean_app; [|apply esc_clean_app].
  - eapply esc_clean_mono; [|apply Ha]. set_solver.
  - constructor; [done|set_solver|constructor].
  - apply escape_value_clean. intros d. rewrite !elem_of_cons.
    intros [->|[->|Hd]]; [done|done|]. by apply elem_of_nil in Hd.
Qed.

Lemma parse_ava_to_string a full : ava_wf a -> parse_ava (ava_to_string a) full = Ok a.
Proof.
  intros Ha. unfold parse_ava, ava_to_string. cbn [app].
  rewrite (find_unescaped_first delims) by (set_solver || done || apply Ha).
  rewrite take_app_length. rewrite trim_id, (aw_attr_lower _ Ha) by apply Ha.
  rewrite bool_decide_false by apply Ha.
  replace (drop (S (length (attr a))) _) with (escape_value (value a)).
  2: { rewrite <- Nat.add_1_r, <- drop_drop, drop_app_length. done. }
  rewrite (trim_id (escape_value _)) by (apply escape_value_trimmed, Ha).
  rewrite unescape_escape_value, <- (aw_norm _ Ha). by destruct a.
Qed.

Lemma join_ne d ps : ps <> [] -> Forall (fun p => p <> []) ps -> join [d] ps <> [].
Proof.
  intros Hne Hps. destruct Hps as [|p ps Hp Hps]; [done|].
  destruct ps; [done|]. rewrite join_cons by done. by destruct p.
Qed.

Lemma join_trimmed d ps :
  Forall (fun p => trimmed p /\ p <> []) ps -> trimmed (join [d] ps).
Proof.
  intros Hps. induction Hps as [|p ps [Hp Hpne] Hps IH]; [done|].
  destruct ps as [|q ps]; [done|]. rewrite join_cons by done.
  assert (join [d] (q :: ps) <> []) as Hj.
  { apply join_ne; [done|]. eapply Forall_impl; [exact Hps|]. by intros ? []. }
  split; unfold head_ok, last_ok.
  - rewrite head_app_ne by done. apply Hp.
  - rewrite !last_app_ne by done. apply IH.
Qed.

Lemma join_clean D d ps :
  d ∉ D -> d <> c_bslash -> Forall (esc_clean D) ps -> esc_clean D (join [d] ps).
Proof.
  intros Hd Hb Hps. induction Hps as [|p ps Hp Hps IH]; [constructor|].
  destruct ps; [done|]. rewrite join_cons by done. auto using esc_clean_app.
Qed.

(** Parsing inverts any printer of AVAs whose output the scanners respect;
    [back] is what one printed AVA is read as. *)
Section printing.
  Context (show : Ava -> rstring) (back : Ava -> Ava) (ok_ava : Ava -> Prop).
  Context (show_ne : forall a, show a <> []).
  Context (show_trimmed : forall a, ok_ava a -> trimmed (show a)).
  Context (show_clean : forall a, ok_ava a -> esc_clean [c_comma; c_plus] (show a)).
  Context (parse_show : forall a full, ok_ava a -> parse_ava (show a) full = Ok (back a)).
  Context (back_key : forall a, ok_ava a -> ava_key (back a) = ava_key a).

Definition show_rdn (r : Rdn) : rstring := join [c_plus] (List.map show (avas r)).
Definition show_dn (d : Dn) : rstring := join [c_comma] (List.map show_rdn (rdns d)).
Definition back_rdn (r : Rdn) : Rdn := mkRdn (List.map back (avas r)).

Record rdn_printable (r : Rdn) : Prop := {
  rp_ne : avas r <> [];
  rp_avas : Forall ok_ava (avas r);
  rp_sorted : sorted_by ava_key (avas r);
}.

Lemma show_avas_Forall (P : rstring -> Prop) r :
  rdn_printable r -> (forall a, ok_ava a -> P (show a)) -> Forall P (List.map show (avas r)).
Proof. intros Hr HP. apply Forall_fmap. eapply Forall_impl; [apply Hr|]. exact HP. Qed.

Lemma show_avas_ne r : rdn_printable r -> List.map show (avas r) <> [].
Proof. intros Hr. pose proof (rp_ne _ Hr). by destruct (avas r). Qed.

Lemma show_rdn_ne r : rdn_printable r -> show_rdn r <> [].
Proof.
  intros Hr. apply join_ne; [by apply show_avas_ne|]. apply show_avas_Forall; [done|]. auto.
Qed.

Lemma show_rdn_trimmed r : rdn_printable r -> trimmed (show_rdn r).
Proof. intros Hr. apply join_trimmed, show_avas_Forall; auto. Qed.

Lemma show_rdn_clean r : rdn_printable r -> esc_clean [c_comma] (show_rdn r).
Proof.
  intros Hr. apply join_clean; [set_solver|done|]. apply show_avas_Forall; [done|].
  intros a Ha. eapply esc_clean_mono; [|by apply show_clean]. set_solver.
Qed.

Lemma back_sorted l : Forall ok_ava l -> sorted_by ava_key l -> sorted_by ava_key (List.map back l).
Proof.
  unfold sorted_by. intros Hok. induction 1 as [|a l Hs IH Hd]; simpl; [constructor|].
  apply Forall_cons in Hok as [Ha Hl]. constructor; [by apply IH|].
  destruct Hd as [|b l Hab]; simpl; constructor. apply Forall_cons in Hl as [Hb _].
  by rewrite !back_key.
Qed.

Lemma parse_show_rdn r full : rdn_printable r -> parse_rdn full (show_rdn r) = Ok (back_rdn r).
Proof.
  intros Hr. unfold parse_rdn. rewrite (trim_id (show_rdn r)) by (by apply show_rdn_trimmed).
  rewrite bool_decide_false by (by apply show_rdn_ne).
  unfold show_rdn. rewrite (split_unescaped_join [c_comma; c_plus]);
    [|set_solver|done|by apply show_avas_ne|by apply show_avas_Forall].
  replace (try_map _ _) with (Ok (E := PartitionError) (List.map back (avas r))).
  - cbn [mbind result_bind]. rewrite sort_by_id by (apply back_sorted; apply Hr). done.
  - symmetry. apply try_map_ok. apply Forall2_fmap_l, Forall2_fmap_r, Forall_Forall2_diag.
    eapply Forall_impl; [apply Hr|]. intros a Ha.
    change (parse_ava (trim (show a)) full = Ok (back a)). rewrite trim_id; auto.
Qed.

Lemma parse_show_dn d :
  Forall rdn_printable (rdns d) -> parse (show_dn d) = Ok (mkDn (List.map back_rdn (rdns d))).
Proof.
  intros Hd. unfold parse, show_dn.
  destruct (decide (rdns d = [])) as [Hnil|Hne]; [by rewrite Hnil|].
  assert (List.map show_rdn (rdns d) <> []) as Hsne by (by destruct (rdns d)).
  assert (forall P : rstring -> Prop, (forall r, rdn_printable r -> P (show_rdn r)) ->
    Forall P (List.map show_rdn (rdns d))) as HF.
  { intros P HP. apply Forall_fmap. eapply Forall_impl; [exact Hd|]. exact HP. }
  rewrite trim_id by (apply join_trimmed, HF; auto using show_rdn_trimmed, show_rdn_ne).
  rewrite bool_decide_false by (apply join_ne; [done|]; apply HF; auto using show_rdn_ne).
  rewrite (split_unescaped_join [c_comma]); [|set_solver|done|done|apply HF, show_rdn_clean].
  set (s := join _ _). replace (try_map _ _) with (Ok (E := PartitionError) (List.map back_rdn (rdns d)));
    [done|].
  symmetry. apply try_map_ok, Forall2_fmap_l, Forall2_fmap_r, Forall_Forall2_diag.
  eapply Forall_impl; [exact Hd|]. intros r Hr. by apply parse_show_rdn.
Qed.
End printing.

Lemma parse_print_wf d : dn_wf d -> parse (to_string d) = Ok d.
Proof.
  intros Hd. change (to_string d) with (show_dn ava_to_string d).
  rewrite (parse_show_dn ava_to_string (fun a => a) ava_wf);
    auto using ava_to_string_ne, ava_to_string_trimmed, ava_to_string_clean, parse_ava_to_string.
  - destruct d as [l]. do 2 f_equal. simpl. rewrite <- (map_id l) at 2. apply map_ext.
    intros [k]. unfold back_rdn. simpl. by rewrite map_id.
  - eapply Forall_impl; [exact Hd|]. intros r []. by constructor.
Qed.

(** ** Normalised spelling

    The text storage keys are made of: printed from the normalised values
    without escaping, it parses back to an equal DN when no separator or
    backslash occurs in it. *)

Record ava_plain (a : Ava) : Prop := {
  apl_attr_ne : attr a <> [];
  apl_attr_trimmed : trimmed (attr a);
  apl_attr_lower : to_ascii_lowercase (attr a) = attr a;
  apl_attr : Forall (fun c => c ∉ [c_bslash; c_comma; c_plus; c_eq]) (attr a);
  apl_norm_trimmed : trimmed (norm_value a);
  apl_norm_lower : to_ascii_lowercase (norm_value a) = norm_value a;
  apl_norm : Forall (fun c => c ∉ [c_bslash; c_comma; c_plus]) (norm_value a);
}.

Definition show_norm (a : Ava) : rstring := attr a ++ [c_eq] ++ norm_value a.
Definition norm_spelling (a : Ava) : Ava := mkAva (attr a) (norm_value a) (norm_value a).

Lemma no_escape_clean D s :
  Forall (fun c => c ∉ c_bslash :: D) s -> esc_clean D s.
Proof. induction 1; constructor; set_solver. Qed.

Lemma unescape_plain s : c_bslash ∉ s -> unescape s = s.
Proof.
  induction s as [|c s IH]; [done|]. intros [Hc Hs]%not_elem_of_cons. cbn [unescape].
  rewrite (proj2 (Z.eqb_neq c c_bslash)) by congruence. cbn [negb]. by rewrite IH.
Qed.

Lemma parse_show_norm a full : ava_plain a -> parse_ava (show_norm a) full = Ok (norm_spelling a).
Proof.
  intros Ha. unfold parse_ava, show_norm. cbn [app].
  rewrite (find_unescaped_first [c_eq]); [|set_solver|done|].
  2: { apply no_escape_clean. eapply Forall_impl; [apply Ha|]. set_solver. }
  rewrite take_app_length, trim_id, (apl_attr_lower _ Ha) by apply Ha.
  rewrite bool_decide_false by apply Ha.
  replace (drop (S (length (attr a))) _) with (norm_value a)
    by (rewrite <- Nat.add_1_r, <- drop_drop, drop_app_length; done).
  rewrite (trim_id (norm_value a)) by apply Ha.
  rewrite unescape_plain.
  - rewrite trim_id, (apl_norm_lower _ Ha) by apply Ha. done.
  - intros Hin. pose proof (apl_norm _ Ha) as H. rewrite Forall_forall in H.
    specialize (H _ Hin). set_solver.
Qed.

(** The normalised spelling of a DN, which is what its storage key keeps. *)
Definition norm_dn (d : Dn) : Dn := mkDn (List.map (fun r => mkRdn (List.map norm_spelling (avas r))) (rdns d)).

Definition rdn_plain (r : Rdn) : Prop := avas r <> [] /\ Forall ava_plain (avas r) /\ sorted_by ava_key (avas r).

Lemma parse_normalized d :
  Forall rdn_plain (rdns d) -> parse (join [c_comma] (List.map normalized_string (rdns d))) = Ok (norm_dn d).
Proof.
  intros Hd. apply (parse_show_dn show_norm norm_spelling ava_plain).
  - intros a. unfold show_norm. by destruct (attr a).
  - intros a Ha. apply trimmed_app; try done; apply Ha.
  - intros a Ha. apply esc_clean_app; [|apply esc_clean_app].
    + apply no_escape_clean. eapply Forall_impl; [apply Ha|]. set_solver.
    + constructor; [done|set_solver|constructor].
    + apply no_escape_clean. eapply Forall_impl; [apply Ha|]. set_solver.
  - apply parse_show_norm.
  - done.
  - eapply Forall_impl; [exact Hd|]. intros r (? & ? & ?). by constructor.
Qed.

Lemma norm_dn_equiv d : norm_dn d ≡ d.
Proof.
  unfold equiv, dn_equiv. cbn [rdns norm_dn]. induction (rdns d) as [|[l] rs IH]; simpl; constructor; [|done].
  unfold equiv, rdn_equiv. simpl. clear. induction l; simpl; constructor; done.
Qed.

Lemma norm_dn_wf d : Forall rdn_plain (rdns d) -> dn_wf (norm_dn d).
Proof.
  intros Hd. unfold dn_wf. cbn [rdns norm_dn]. apply Forall_fmap. eapply Forall_impl; [exact Hd|]. intros r (Hne & Ha & Hs). constructor; cbn [avas].
  - by destruct (avas r).
  - apply Forall_fmap. eapply Forall_impl; [exact Ha|]. intros a Hp. constructor; cbn [attr value norm_value norm_spelling]; try apply Hp.
    + apply no_escape_clean. eapply Forall_impl; [apply Hp|]. unfold delims. set_solver.
    + destruct (apl_norm_trimmed _ Hp) as [Hh Hl]. split; [|done]. unfold head_ok in Hh. destruct (head (norm_value a)) as [c|]; [|done].
      unfold other_space. by rewrite Hh.
    + by rewrite trim_id, (apl_norm_lower _ Hp) by apply Hp.
  - clear Hne Ha. unfold sorted_by in *. induction Hs as [|a l _ IH Hd']; simpl; [constructor|]. constructor; [exact IH|].
    by destruct Hd'; constructor.
Qed.

(** Two spellings of a DN have the same normalised one. *)
Lemma norm_dn_proper d e : d ≡ e -> norm_dn d = norm_dn e.
Proof.
  unfold equiv, dn_equiv, norm_dn. intros Hde. f_equal. induction Hde as [|r r' rs rs' Hr _ IH]; [done|]. cbn [List.map]. f_equal; [|exact IH].
  f_equal. unfold equiv, rdn_equiv in Hr. induction Hr as [|a a' l l' Ha _ IH']; [done|]. cbn [List.map]. f_equal; [|exact IH'].
  unfold equiv, ava_equiv in Ha. unfold norm_spelling. by destruct Ha as [-> ->].
Qed.

(** ** What every parsed DN satisfies *)

Record ava_inv (a : Ava) : Prop := {
  ai_attr_ne : attr a <> [];
  ai_attr_trimmed : trimmed (attr a);
  ai_attr_lower : to_ascii_lowercase (attr a) = attr a;
  ai_norm : norm_value a = to_ascii_lowercase (trim (value a));
}.

Record rdn_inv (r : Rdn) : Prop := {
  ri_ne : avas r <> [];
  ri_avas : Forall ava_inv (avas r);
  ri_sorted : sorted_by ava_key (avas r);
}.

Lemma parse_ava_inv s full a : parse_ava s full = Ok a -> ava_inv a.
Proof.
  unfold parse_ava. destruct (find_unescaped s c_eq); [|done].
  case_bool_decide as Hne; [done|]. intros [= <-]. constructor; simpl; [done|..|done].
  - auto with iron.
  - apply to_ascii_lowercase_idem.
Qed.

Lemma split_loop_ne d cs parts cur e : split_loop d cs parts cur e <> [].
Proof.
  revert parts cur e; induction cs as [|c cs IH]; intros parts cur e; cbn [split_loop].
  - by destruct parts.
  - repeat case_match; apply IH.
Qed.

Lemma parse_rdn_inv full s r : parse_rdn full s = Ok r -> rdn_inv r.
Proof.
  unfold parse_rdn. case_bool_decide; [done|]. rewrite bind_ok. intros (l & Hl & [= <-]).
  apply try_map_ok in Hl. constructor; simpl.
  - intros Hn. pose proof (sort_by_perm ava_key l) as Hp. rewrite Hn in Hp.
    apply Permutation_nil_l in Hp as <-. apply Forall2_length in Hl. simpl in Hl.
    apply length_zero_iff_nil in Hl. by apply split_loop_ne in Hl.
  - rewrite sort_by_perm. clear -Hl. induction Hl; constructor; eauto using parse_ava_inv.
  - apply sort_by_sorted.
Qed.

Lemma parse_inv s d : parse s = Ok d -> Forall rdn_inv (rdns d).
Proof.
  unfold parse. case_bool_decide; [intros [= <-]; constructor|].
  rewrite bind_ok. intros (l & Hl & [= <-]). apply try_map_ok in Hl. simpl.
  clear -Hl. induction Hl; constructor; eauto using parse_rdn_inv.
Qed.

Lemma parse_err_input s e : parse s = Err e -> exists reason, e = InvalidDn s reason.
Proof.
  unfold parse. case_bool_decide; [done|]. rewrite bind_err.
  intros [Hm|(? & _ & ?)]; [|done].
  apply try_map_err in Hm as (_ & r & _ & _ & Hr & _).
  revert Hr. unfold parse_rdn. case_bool_decide; [intros [= <-]; eauto|].
  rewrite bind_err. intros [Ha|(? & _ & ?)]; [|done].
  apply try_map_err in Ha as (_ & a & _ & _ & Ha & _). revert Ha. unfold parse_ava.
  repeat case_match; intros [= <-]; eauto.
Qed.

(** ** Case-insensitivity of the parser *)

Section case_insensitive.
  Local Abbreviation L := to_ascii_lowercase.

(** A character that is not a letter is recognised in either case. *)
Definition caseless (k : char) : Prop := ~ (65 <= k <= 90) /\ ~ (97 <= k <= 122).

Lemma lower_eqb c k : caseless k -> (ascii_lower c =? k) = (c =? k).
Proof.
  unfold caseless, ascii_lower. destruct ((65 <=? c) && (c <=? 90)) eqn:E; [|done].
  apply andb_true_iff in E as [E1%Z.leb_le E2%Z.leb_le]. intros.
  rewrite !(proj2 (Z.eqb_neq _ _)); lia.
Qed.

Lemma lower_app s t : L (s ++ t) = L s ++ L t.
Proof. apply map_app. Qed.

Lemma split_loop_lower d cs parts cur e :
  caseless d ->
  split_loop d (L cs) (List.map L parts) (L cur) e = List.map L (split_loop d cs parts cur e).
Proof.
  intros Hd. assert (caseless c_bslash) by (unfold caseless; lia).
  revert parts cur e. induction cs as [|c cs IH]; intros parts cur e; cbn [split_loop L List.map].
  - rewrite map_app. destruct e; simpl; [|done]. by rewrite lower_app.
  - change (List.map ascii_lower cs) with (L cs).
    rewrite !lower_eqb by done. destruct e; [|destruct (c =? c_bslash)]; [..|destruct (c =? d)].
    + rewrite <- IH, lower_app. done.
    + apply IH.
    + rewrite <- IH, map_app. done.
    + rewrite <- IH, lower_app. done.
Qed.

Lemma split_unescaped_lower s d :
  caseless d -> split_unescaped (L s) d = List.map L (split_unescaped s d).
Proof. apply (split_loop_lower d s [] []). Qed.

Lemma find_loop_lower d cs i e : caseless d -> find_loop d (L cs) i e = find_loop d cs i e.
Proof.
  intros Hd. assert (caseless c_bslash) by (unfold caseless; lia).
  revert i e. induction cs as [|c cs IH]; intros i e; cbn [find_loop L List.map]; [done|].
  change (List.map ascii_lower cs) with (L cs). by rewrite !lower_eqb, !IH.
Qed.

Lemma trim_start_lower s : trim_start (L s) = L (trim_start s).
Proof.
  induction s as [|c s IH]; [done|]. cbn [L List.map trim_start].
  rewrite ascii_lower_whitespace. by destruct (is_whitespace c).
Qed.

Lemma trim_lower s : trim (L s) = L (trim s).
Proof.
  assert (forall t, rev (L t) = L (rev t)) as Hr by (intros; symmetry; apply map_rev).
  unfold trim, trim_end. rewrite trim_start_lower, Hr, trim_start_lower. apply Hr.
Qed.

Lemma lower_hexdigit c :
  is_ascii_hexdigit (ascii_lower c) = is_ascii_hexdigit c.
Proof.
  unfold ascii_lower. destruct ((65 <=? c) && (c <=? 90)) eqn:E; [|done].
  apply andb_true_iff in E as [E1%Z.leb_le E2%Z.leb_le].
  unfold is_ascii_hexdigit, is_ascii_digit. apply eq_bool_prop_intro.
  rewrite !Is_true_true, !orb_true_iff, !andb_true_iff, !Z.leb_le. lia.
Qed.

Lemma lower_hex_value c :
  is_ascii_hexdigit c = true -> hex_value (ascii_lower c) = hex_value c.
Proof.
  unfold ascii_lower. destruct ((65 <=? c) && (c <=? 90)) eqn:E; [|done].
  apply andb_true_iff in E as [E1%Z.leb_le E2%Z.leb_le].
  unfold is_ascii_hexdigit, hex_value, is_ascii_digit.
  rewrite !orb_true_iff, !andb_true_iff, !Z.leb_le. intros Hc.
  replace (c + 32 <=? 57) with false by (symmetry; apply Z.leb_gt; lia).
  replace (c <=? 57) with false by (symmetry; apply Z.leb_gt; lia).
  replace (97 <=? c) with false by (symmetry; apply Z.leb_gt; lia).
  rewrite !andb_false_r. replace (97 <=? c + 32) with true by (symmetry; apply Z.leb_le; lia).
  replace (c + 32 <=? 102) with true by (symmetry; apply Z.leb_le; lia).
  simpl. lia.
Qed.

Lemma unescape_lower s : L (unescape (L s)) = L (unescape s).
Proof.
  assert (caseless c_bslash) as Hb by (unfold caseless; lia).
  remember (length s) as n eqn:Hn. assert (length s <= n)%nat as Hle by lia. clear Hn.
  revert s Hle. induction n as [|n IH]; intros [|c s] Hle; simpl in Hle; try (done || lia).
  cbn [L List.map unescape]. rewrite lower_eqb by done.
  destruct (c =? c_bslash); cbn [negb].
  2: { cbn [L List.map]. rewrite ascii_lower_idem. f_equal. apply IH. lia. }
  destruct s as [|h1 s]; [done|]. cbn [List.map]. rewrite lower_hexdigit. simpl in Hle.
  assert (forall t, (length t <= n)%nat ->
    L (ascii_lower h1 :: unescape (L t)) = L (h1 :: unescape t)) as Hcons.
  { intros t Ht. cbn [L List.map]. rewrite ascii_lower_idem. f_equal. by apply IH. }
  destruct (is_ascii_hexdigit h1) eqn:E1; [|apply Hcons; lia].
  destruct s as [|h2 s]; [apply (Hcons []); simpl; lia|]. cbn [List.map]. rewrite lower_hexdigit.
  destruct (is_ascii_hexdigit h2) eqn:E2.
  - rewrite !lower_hex_value by done. cbn [L List.map]. f_equal. apply IH. simpl in *. lia.
  - apply (Hcons (h2 :: s)). lia.
Qed.

(** Both runs succeed with equal DNs or both fail. *)
Definition same_outcome {A} `{Equiv A} (m m' : result PartitionError A) : Prop :=
  match m, m' with
  | Ok a, Ok a' => a ≡ a'
  | Err _, Err _ => True
  | _, _ => False
  end.

Lemma try_map_same_outcome {A B} `{Equiv B} (f g : A -> result PartitionError B) (h : A -> A) l :
  (forall a, same_outcome (f a) (g (h a))) ->
  same_outcome (try_map f l) (try_map g (List.map h l)).
Proof.
  intros Hfg. induction l as [|a l IH]; cbn [List.map try_map]; [constructor|].
  specialize (Hfg a). destruct (f a), (g (h a)); simpl in *; try done.
  destruct (try_map f l), (try_map g (List.map h l)); simpl in *; try done. by constructor.
Qed.

Lemma parse_ava_lower s full full' : same_outcome (parse_ava s full) (parse_ava (L s) full').
Proof.
  unfold parse_ava, find_unescaped. rewrite find_loop_lower by (unfold caseless; lia).
  destruct (find_loop c_eq s 0 false) as [n|]; [|done].
  assert (take n (L s) = L (take n s)) as -> by apply firstn_map.
  assert (drop (S n) (L s) = L (drop (S n) s)) as -> by apply skipn_map.
  rewrite !trim_lower, to_ascii_lowercase_idem.
  case_bool_decide; [done|]. split; simpl; [done|].
  generalize (trim (drop (S n) s)) as raw. intros raw.
  by rewrite <- !trim_lower, unescape_lower.
Qed.

Lemma ava_key_equiv a b : a ≡ b -> ava_key a = ava_key b.
Proof. intros [Ha Hb]. unfold ava_key. by rewrite Ha, Hb. Qed.

Lemma sort_insert_equiv a b (l k : list Ava) :
  a ≡ b -> l ≡ k -> sort_insert ava_key a l ≡ sort_insert ava_key b k.
Proof.
  intros Hab. induction 1 as [|x y l k Hxy Hlk IH]; cbn [sort_insert].
  { constructor; [done|constructor]. }
  rewrite (ava_key_equiv _ _ Hab), (ava_key_equiv _ _ Hxy).
  destruct (kcmp _ _); (constructor; [done|]); [by constructor..|done].
Qed.

#[local] Instance sort_by_proper : Proper ((≡) ==> (≡)) (sort_by ava_key).
Proof. intros l k. induction 1; simpl; [constructor|]. by apply sort_insert_equiv. Qed.

Lemma lower_nil s : L s = [] <-> s = [].
Proof. by destruct s. Qed.

Lemma parse_rdn_lower full full' s : same_outcome (parse_rdn full s) (parse_rdn full' (L s)).
Proof.
  unfold parse_rdn. rewrite trim_lower, (bool_decide_ext _ _ (lower_nil (trim s))).
  case_bool_decide; [done|]. rewrite split_unescaped_lower by (unfold caseless; lia).
  assert (forall a, same_outcome (parse_ava (trim a) full) (parse_ava (trim (L a)) full')) as Ha.
  { intros a. rewrite trim_lower. apply parse_ava_lower. }
  pose proof (try_map_same_outcome (fun x => parse_ava (trim x) full)
    (fun x => parse_ava (trim x) full') L (split_unescaped (trim s) c_plus) Ha) as H'.
  destruct (try_map _ _), (try_map _ _); simpl in *; try done.
  unfold equiv, rdn_equiv. simpl. by rewrite H'.
Qed.

Lemma parse_lower s : same_outcome (parse s) (parse (L s)).
Proof.
  unfold parse. rewrite trim_lower, (bool_decide_ext _ _ (lower_nil (trim s))).
  case_bool_decide; [constructor|]. rewrite split_unescaped_lower by (unfold caseless; lia).
  pose proof (try_map_same_outcome (parse_rdn s) (parse_rdn (L s)) L
    (split_unescaped (trim s) c_comma) (parse_rdn_lower s (L s))) as H'.
  by destruct (try_map _ _), (try_map _ _).
Qed.
End case_insensitive.
