(* ===== verification/Partition.v ===== *)
(** Naming contexts, [crates/partition/src/partition.rs]: identifiers, the
    partition record with its builders, and the realm derived from a base DN. *)

From S2P Require Import Prelude Str Btree Dn.

(** [PartitionId] and [ForestId] are newtypes around a string; the constructors
    [PartitionId_new] and [ForestId_new] are the only way to make one. *)
Abbreviation PartitionId := (list Z) (only parsing).
Abbreviation ForestId := (list Z) (only parsing).

Definition is_ascii_lowercase (c : char) : bool := (97 <=? c) && (c <=? 122).

Definition valid_id (s : rstring) : bool :=
  negb (bool_decide (s = []))
  && negb (bool_decide (head s = Some c_dash))
  && negb (bool_decide (last s = Some c_dash))
  && forallb (fun c => is_ascii_lowercase c || is_ascii_digit c || (c =? c_dash)) s.

Definition PartitionId_new (s : rstring) : result PartitionError PartitionId :=
  if valid_id s then Ok s else Err (InvalidId s).
Definition ForestId_new (s : rstring) : result PartitionError ForestId :=
  if valid_id s then Ok s else Err (InvalidForestId s).

Inductive PartitionKind := Domain | Schema | Configuration | Application.

Record TlsRef := mkTlsRef { tls_ca : rstring; tls_cert : rstring; tls_key : rstring }.
Record ClusterRef := mkClusterRef { endpoints : list rstring; tls : option TlsRef }.

Definition plaintext (endpoints : list rstring) : ClusterRef := mkClusterRef endpoints None.

Record Partition := mkPartition {
  p_id : PartitionId;
  forest : ForestId;
  base_dn : Dn;
  kind : PartitionKind;
  realm : option rstring;
  cluster : ClusterRef;
  superior : option PartitionId;
  subordinates : list PartitionId;
  ldap_url : option rstring;
  kdc_url : option rstring;
  domain_sid : option rstring;
  netbios_name : option rstring;
}.

#[global] Instance PartitionKind_eq_dec : EqDecision PartitionKind.
Proof. solve_decision. Defined.
#[global] Instance TlsRef_eq_dec : EqDecision TlsRef.
Proof. solve_decision. Defined.
#[global] Instance ClusterRef_eq_dec : EqDecision ClusterRef.
Proof. solve_decision. Defined.
#[global] Instance Partition_eq_dec : EqDecision Partition.
Proof. solve_decision. Defined.

(** [realm_from_dn]: the values of the single-valued [dc] RDNs, in DN order. *)
Definition dc_label (r : Rdn) : option rstring :=
  match avas r with
  | [a] => if bool_decide (attr a = str "dc") then Some (to_ascii_uppercase (value a)) else None
  | _ => None
  end.

Definition realm_from_dn (dn : Dn) : option rstring :=
  let labels := omap dc_label (rdns dn) in
  if bool_decide (labels = []) then None else Some (join [c_dot] labels).

Section builders.
  Context (id : rstring) (forest : ForestId) (base : Dn) (cluster : ClusterRef).

Definition domain : result PartitionError Partition :=
  let realm := realm_from_dn base in
  pid ← PartitionId_new id;
  Ok (mkPartition pid forest base Domain realm cluster None [] None None None None).

Definition configuration : result PartitionError Partition :=
  pid ← PartitionId_new id;
  Ok (mkPartition pid forest base Configuration None cluster None [] None None None None).

Definition schema : result PartitionError Partition :=
  pid ← PartitionId_new id;
  Ok (mkPartition pid forest base Schema None cluster None [] None None None None).
End builders.

Definition with_superior (s : PartitionId) (p : Partition) : Partition :=
  mkPartition (p_id p) (forest p) (base_dn p) (kind p) (realm p) (cluster p) (Some s)
    (subordinates p) (ldap_url p) (kdc_url p) (domain_sid p) (netbios_name p).
Definition with_realm (r : rstring) (p : Partition) : Partition :=
  mkPartition (p_id p) (forest p) (base_dn p) (kind p) (Some (to_ascii_uppercase r)) (cluster p)
    (superior p) (subordinates p) (ldap_url p) (kdc_url p) (domain_sid p) (netbios_name p).
Definition with_ldap_url (u : rstring) (p : Partition) : Partition :=
  mkPartition (p_id p) (forest p) (base_dn p) (kind p) (realm p) (cluster p) (superior p)
    (subordinates p) (Some u) (kdc_url p) (domain_sid p) (netbios_name p).
Definition with_kdc_url (u : rstring) (p : Partition) : Partition :=
  mkPartition (p_id p) (forest p) (base_dn p) (kind p) (realm p) (cluster p) (superior p)
    (subordinates p) (ldap_url p) (Some u) (domain_sid p) (netbios_name p).
Definition with_domain_sid (s : rstring) (p : Partition) : Partition :=
  mkPartition (p_id p) (forest p) (base_dn p) (kind p) (realm p) (cluster p) (superior p)
    (subordinates p) (ldap_url p) (kdc_url p) (Some s) (netbios_name p).
Definition with_netbios_name (n : rstring) (p : Partition) : Partition :=
  mkPartition (p_id p) (forest p) (base_dn p) (kind p) (realm p) (cluster p) (superior p)
    (subordinates p) (ldap_url p) (kdc_url p) (domain_sid p) (Some (to_ascii_uppercase n)).

(** An identifier holds no key separator. *)
Lemma valid_id_no_slash s : valid_id s = true -> c_slash ∉ s.
Proof.
  unfold valid_id. rewrite !andb_true_iff, forallb_forall. intros [_ H] Hin.
  apply list_elem_of_In in Hin. by specialize (H _ Hin).
Qed.

Lemma builder_id (b : result PartitionError Partition) id f base c p :
  b = domain id f base c \/ b = configuration id f base c \/ b = schema id f base c ->
  b = Ok p -> p_id p = id /\ valid_id id = true /\ base_dn p = base /\ forest p = f.
Proof.
  unfold domain, configuration, schema, PartitionId_new.
  intros [-> | [-> | ->]]; destruct (valid_id id) eqn:E; cbn; intros [= <-]; auto.
Qed.
