(* ===== verification/Key.v ===== *)
(** Storage keys, [crates/partition/src/key.rs]: the tree keys, whose prefixes
    are subtrees, and the percent-escaped index keys. *)

From S2P Require Import Prelude Str Btree Dn Partition.

Definition partition_root (pid : PartitionId) : rstring :=
  str "/iron/" ++ pid ++ str "/".

Definition tree_root (pid : PartitionId) : rstring :=
  str "/iron/" ++ pid ++ str "/tree/".

Definition entry_key (pid : PartitionId) (dn : Dn) : rstring :=
  tree_root pid ++ join [c_slash] (reversed_components dn).

Definition subtree_prefix (pid : PartitionId) (dn : Dn) : rstring :=
  entry_key pid dn ++ [c_slash].

Definition escape_segment_char (c : char) : rstring :=
  if c =? 37 then str "%25" else if c =? c_slash then str "%2F" else [c].
Definition escape_segment (s : rstring) : rstring := concat (List.map escape_segment_char s).

Definition index_prefix (pid : PartitionId) (attr value : rstring) : rstring :=
  str "/iron/" ++ pid ++ str "/idx/" ++ escape_segment (to_ascii_lowercase attr) ++ str "/"
    ++ escape_segment value ++ str "/".

Definition index_key (pid : PartitionId) (attr value : rstring) (dn : Dn) : rstring :=
  str "/iron/" ++ pid ++ str "/idx/" ++ escape_segment (to_ascii_lowercase attr) ++ str "/"
    ++ escape_segment value ++ str "/" ++ escape_segment (to_string dn).

(** ** Segments *)

Lemma escape_segment_no_slash s : c_slash ∉ escape_segment s.
Proof.
  induction s as [|c s IH]; [apply not_elem_of_nil|]. unfold escape_segment; cbn [List.map concat].
  rewrite elem_of_app. intros [H|H]; [|by apply IH]. revert H. unfold escape_segment_char.
  rewrite list_elem_of_In.
  destruct (Z.eqb_spec c 37); [vm_compute; intuition discriminate|].
  destruct (Z.eqb_spec c c_slash); [vm_compute; intuition discriminate|]. simpl. naive_solver.
Qed.

Lemma escape_segment_inj s t : escape_segment s = escape_segment t -> s = t.
Proof.
  revert t; induction s as [|c s IH]; intros [|d t]; unfold escape_segment; cbn [List.map concat];
    [done|..]; unfold escape_segment_char;
    repeat (case_match; simplify_eq/=); try discriminate; intros [=]; simplify_eq/=; try done;
    rewrite ?Z.eqb_eq in *; subst; f_equal; auto.
Qed.

(** Two strings cut at the first separator agree on both sides. *)
Lemma sep_cut (d : char) a b x y :
  d ∉ a -> d ∉ b -> a ++ d :: x = b ++ d :: y -> a = b /\ x = y.
Proof.
  revert b; induction a as [|c a IH]; intros [|c' b] Ha Hb; cbn [app]; intros [=]; subst.
  - done.
  - set_solver.
  - set_solver.
  - destruct (IH b) as [-> ->]; set_solver.
Qed.

(** ** Keys and DNs

    [normalized_string] does not escape the separators of keys and RDNs;
    [key_safe] is the class of DNs on which the encoding is exact. *)
Record ava_safe (a : Ava) : Prop := {
  as_attr_eq : c_eq ∉ attr a;
  as_attr_plus : c_plus ∉ attr a;
  as_attr_slash : c_slash ∉ attr a;
  as_norm_plus : c_plus ∉ norm_value a;
  as_norm_slash : c_slash ∉ norm_value a;
}.
Definition rdn_safe (r : Rdn) : Prop := avas r <> [] /\ Forall ava_safe (avas r).
Definition key_safe (d : Dn) : Prop := Forall rdn_safe (rdns d).

Definition norm_ava (a : Ava) : rstring := attr a ++ [c_eq] ++ norm_value a.

Lemma norm_ava_no (c : char) a :
  c <> c_eq -> c ∉ attr a -> c ∉ norm_value a -> c ∉ norm_ava a.
Proof. unfold norm_ava. rewrite !elem_of_app, list_elem_of_singleton. naive_solver. Qed.

Lemma join_no_elem c d ps : c <> d -> Forall (fun p => c ∉ p) ps -> c ∉ join [d] ps.
Proof.
  intros Hne Hps. induction Hps as [|p ps Hp Hps IH]; [apply not_elem_of_nil|].
  destruct ps; [done|]. rewrite join_cons by done. rewrite !elem_of_app, list_elem_of_singleton.
  naive_solver.
Qed.

Lemma normalized_no_slash r : rdn_safe r -> c_slash ∉ normalized_string r.
Proof.
  intros [_ Hr]. unfold normalized_string. apply join_no_elem; [done|].
  apply Forall_fmap. eapply Forall_impl; [exact Hr|]. intros a []. by apply norm_ava_no.
Qed.

Lemma normalized_ne r : rdn_safe r -> normalized_string r <> [].
Proof.
  intros [Hne _]. unfold normalized_string. apply join_ne.
  - by destruct (avas r).
  - apply Forall_fmap, Forall_true. intros a. simpl. by destruct (attr a).
Qed.

Lemma normalized_inj r s :
  rdn_safe r -> rdn_safe s -> normalized_string r = normalized_string s -> r ≡ s.
Proof.
  intros [Hr Hrs] [Hs Hss] H. unfold normalized_string in H.
  apply join_inj in H; [|apply Forall_fmap; eapply Forall_impl; [eassumption|]..| by destruct (avas r)
    | by destruct (avas s)]; [|by intros a []; apply norm_ava_no..].
  unfold equiv, rdn_equiv. clear Hr Hs. revert H.
  revert Hss. generalize (avas s) as k. induction Hrs as [|a l Ha Hl IH]; intros k Hk H.
  - by destruct k.
  - destruct Hk as [|b k Hb Hk]; [done|]. injection H as Hab Hlk.
    apply sep_cut in Hab as [? ?]; [|apply Ha|apply Hb]. constructor; [done|]. by apply IH.
Qed.

#[global] Instance normalized_proper : Proper ((≡) ==> (=)) normalized_string.
Proof.
  intros r s H. unfold normalized_string. f_equal. unfold equiv, rdn_equiv in H.
  induction H as [|a b l k [Ha Hb] _ IH]; [done|]. cbn [List.map]. by rewrite IH, Ha, Hb.
Qed.

#[global] Instance reversed_components_proper : Proper ((≡) ==> (=)) reversed_components.
Proof.
  intros d e H. unfold reversed_components, equiv, dn_equiv in *. rewrite !map_rev. f_equal.
  induction H as [|r s l k Hrs _ IH]; [done|]. cbn [List.map]. by rewrite IH, Hrs.
Qed.

#[global] Instance entry_key_proper pid : Proper ((≡) ==> (=)) (entry_key pid).
Proof. intros d e H. unfold entry_key. by rewrite H. Qed.

Lemma map_normalized_inj l k :
  Forall rdn_safe l -> Forall rdn_safe k ->
  List.map normalized_string l = List.map normalized_string k -> l ≡ k.
Proof.
  intros Hl. revert k. induction Hl as [|r l Hr Hl IH]; intros k Hk H; destruct Hk as [|s k Hs Hk];
    try done. injection H as Hrs Hlk. constructor; [by apply normalized_inj|]. by apply IH.
Qed.

(** Component lists and the reversed suffix order. *)
Lemma components_safe d :
  key_safe d -> Forall (fun p => c_slash ∉ p) (reversed_components d).
Proof.
  intros H. apply Forall_fmap, Forall_rev. eapply Forall_impl; [exact H|].
  apply normalized_no_slash.
Qed.

Lemma is_within_components d base :
  key_safe d -> key_safe base ->
  is_within d base = true <-> exists ext, reversed_components d = reversed_components base ++ ext.
Proof.
  intros Hd Hb. rewrite is_within_suffix. unfold reversed_components. split.
  - intros (pre & suf & Hps & Hs). rewrite Hps, rev_app_distr, map_app.
    eexists. f_equal. rewrite !map_rev. f_equal.
    clear -Hs. induction Hs as [|r s l k Hrs _ IH]; [done|]. cbn. by rewrite IH, Hrs.
  - intros [ext H]. apply (f_equal (@rev _)) in H. rewrite rev_app_distr, !map_rev, !rev_involutive in H.
    change (List.map ?f ?l) with (f <$> l) in H. apply fmap_app_inv in H as (pre & suf & Hpre & Hsuf & Hd').
    exists pre, suf. split; [done|]. unfold key_safe in Hd. rewrite Hd' in Hd.
    apply Forall_app in Hd as [_ Hsafe]. by apply map_normalized_inj.
Qed.

Lemma reversed_components_nil d : reversed_components d = [] <-> rdns d = [].
Proof.
  unfold reversed_components. destruct (rdns d) as [|r l]; [done|]. split; [|done].
  intros H. apply (f_equal length) in H. by rewrite length_map, length_rev in H.
Qed.

(** ** Tree keys *)

(** Distinct partitions own disjoint key ranges. *)
Lemma root_cut pid qid x y :
  valid_id pid = true -> valid_id qid = true ->
  str "/iron/" ++ pid ++ c_slash :: x = str "/iron/" ++ qid ++ c_slash :: y ->
  pid = qid /\ x = y.
Proof.
  intros Hp Hq H. apply app_inv_head in H.
  apply sep_cut in H; auto using valid_id_no_slash.
Qed.

Lemma entry_key_unfold pid d :
  entry_key pid d =
  str "/iron/" ++ pid ++ c_slash :: str "tree/" ++ join [c_slash] (reversed_components d).
Proof. unfold entry_key, tree_root. by rewrite <- !app_assoc. Qed.

Lemma join_nil_inv d ps : Forall (fun p => p <> []) ps -> join [d] ps = [] -> ps = [].
Proof.
  intros Hps H. destruct ps as [|p ps]; [done|]. exfalso.
  by apply (join_ne d (p :: ps)) in H.
Qed.

Lemma components_ne d : key_safe d -> Forall (fun p => p <> []) (reversed_components d).
Proof.
  intros H. apply Forall_fmap, Forall_rev. eapply Forall_impl; [exact H|]. apply normalized_ne.
Qed.

Lemma join_components_inj d e :
  key_safe d -> key_safe e ->
  join [c_slash] (reversed_components d) = join [c_slash] (reversed_components e) ->
  reversed_components d = reversed_components e.
Proof.
  intros Hd He H.
  destruct (decide (reversed_components d = [])) as [Hn|Hn].
  { rewrite Hn in *. symmetry. apply (join_nil_inv c_slash); auto using components_ne. }
  destruct (decide (reversed_components e = [])) as [Hm|Hm].
  { rewrite Hm in *. apply (join_nil_inv c_slash); auto using components_ne. }
  apply join_inj in H; auto using components_safe.
Qed.

Lemma components_equiv d e :
  key_safe d -> key_safe e -> reversed_components d = reversed_components e -> d ≡ e.
Proof.
  intros Hd He H. apply is_within_antisym.
  - apply is_within_components; [done..|]. exists []. by rewrite app_nil_r.
  - apply is_within_components; [done..|]. exists []. by rewrite app_nil_r.
Qed.

(** A string extends [join ps ++ "/"] iff its pieces extend [ps]. *)
Lemma join_prefix d ps qs :
  ps <> [] -> Forall (fun p => d ∉ p) ps -> Forall (fun p => d ∉ p) qs ->
  (exists r, join [d] qs = join [d] ps ++ d :: r) <-> exists ext, ext <> [] /\ qs = ps ++ ext.
Proof.
  intros Hne Hps Hqs. split.
  - intros [r Hr]. exists (split_char d r). split; [apply split_char_nonempty|].
    rewrite <- (join_split d r) in Hr.
    change (d :: join [d] (split_char d r)) with ([d] ++ join [d] (split_char d r)) in Hr.
    rewrite <- join_app in Hr by (done || apply split_char_nonempty).
    destruct (decide (qs = [])) as [->|Hq].
    + exfalso. rewrite join_app in Hr by (done || apply split_char_nonempty).
      apply (f_equal length) in Hr. rewrite !length_app in Hr. simpl in Hr. lia.
    + rewrite <- (split_join d qs), Hr by done.
      rewrite join_app by (done || apply split_char_nonempty).
      rewrite join_split. clear -Hne Hps.
      induction Hps as [|p ps Hp Hps IH]; [done|]. destruct ps as [|q ps].
      * cbn [join app]. by rewrite split_char_app.
      * rewrite join_cons by done. rewrite <- !app_assoc. cbn [app].
        rewrite split_char_app by done. f_equal. apply IH. done.
  - intros (ext & Hext & ->). rewrite join_app by done. eexists. done.
Qed.

Section tree_keys.
  Context (pid : PartitionId) (Hpid : valid_id pid = true).

Lemma subtree_prefix_components base d :
  key_safe base -> key_safe d -> rdns base <> [] ->
  starts_with (subtree_prefix pid base) (entry_key pid d) = true <->
  exists ext, ext <> [] /\ reversed_components d = reversed_components base ++ ext.
Proof.
  intros Hb Hd Hne. rewrite starts_with_spec. unfold subtree_prefix, entry_key.
  rewrite <- join_prefix by (rewrite ?reversed_components_nil; auto using components_safe).
  split; intros [r H]; exists r.
  - rewrite <- !app_assoc in H. apply app_inv_head in H. done.
  - rewrite H. by rewrite <- !app_assoc.
Qed.

Lemma strict_descendant_components base d :
  key_safe base -> key_safe d ->
  is_strict_descendant_of d base = true <->
  exists ext, ext <> [] /\ reversed_components d = reversed_components base ++ ext.
Proof.
  intros Hb Hd. unfold is_strict_descendant_of.
  rewrite andb_true_iff, is_within_components, Nat.ltb_lt by done.
  assert (forall x, length (rdns x) = length (reversed_components x)) as Hlen.
  { intros x. unfold reversed_components. by rewrite length_map, length_rev. }
  rewrite !Hlen. split.
  - intros [Hl [ext Hext]]. exists ext. split; [|done]. intros ->.
    rewrite Hext, app_nil_r in Hl. lia.
  - intros (ext & Hne & Hext). split; [|eauto]. rewrite Hext, length_app.
    destruct ext; [done|]. simpl. lia.
Qed.
End tree_keys.

Lemma entry_key_equiv pid d e :
  key_safe d -> key_safe e -> entry_key pid d = entry_key pid e -> d ≡ e.
Proof.
  intros Hd He. rewrite !entry_key_unfold. intros H. apply app_inv_head, app_inv_head in H.
  injection H as H. apply join_components_inj in H; auto using components_equiv.
Qed.

Lemma subtree_prefix_scan pid base d :
  key_safe base -> key_safe d -> rdns base <> [] ->
  starts_with (subtree_prefix pid base) (entry_key pid d) = is_strict_descendant_of d base.
Proof.
  intros Hb Hd Hne. apply eq_bool_prop_intro. rewrite !Is_true_true.
  rewrite subtree_prefix_components, strict_descendant_components by done. done.
Qed.

(** Two DNs of valid partitions are stored under the same key exactly when
    the partitions are the same and the DNs are equal as the program compares
    them, for DNs whose attribute types and values hold no key or RDN
    separator. *)
Theorem entry_key_injective pid qid d e :
  valid_id pid = true -> valid_id qid = true -> key_safe d -> key_safe e ->
  entry_key pid d = entry_key qid e <-> pid = qid /\ d ≡ e.
Proof.
  intros Hp Hq Hd He. split.
  - rewrite !entry_key_unfold. intros H. apply root_cut in H as [-> H]; [|done..].
    apply app_inv_head, join_components_inj in H; [|done..].
    auto using components_equiv.
  - intros [-> H]. by rewrite H.
Qed.

(** The range scan over [subtree_prefix base] reads exactly the entries
    strictly below [base]: an entry key has that prefix iff its DN is a strict
    descendant of the (non-root) base. *)
Theorem subtree_prefix_exact pid base d :
  key_safe base -> key_safe d -> rdns base <> [] ->
  starts_with (subtree_prefix pid base) (entry_key pid d) = is_strict_descendant_of d base.
Proof. apply subtree_prefix_scan. Qed.

(** ** Index keys *)

Lemma index_key_unfold pid a v d :
  index_key pid a v d =
  str "/iron/" ++ pid ++ c_slash :: str "idx/" ++ escape_segment (to_ascii_lowercase a)
    ++ c_slash :: escape_segment v ++ c_slash :: escape_segment (to_string d).
Proof. unfold index_key. by rewrite <- ?app_assoc. Qed.

Lemma index_prefix_unfold pid a v r :
  index_prefix pid a v ++ r =
  str "/iron/" ++ pid ++ c_slash :: str "idx/" ++ escape_segment (to_ascii_lowercase a)
    ++ c_slash :: escape_segment v ++ c_slash :: r.
Proof. unfold index_prefix. by rewrite <- ?app_assoc. Qed.

Lemma index_prefix_cut pid qid a b v w d r :
  valid_id pid = true -> valid_id qid = true ->
  index_key qid b w d = index_prefix pid a v ++ r ->
  qid = pid /\ to_ascii_lowercase b = to_ascii_lowercase a /\ w = v
  /\ escape_segment (to_string d) = r.
Proof.
  intros Hp Hq H. rewrite index_key_unfold, index_prefix_unfold in H.
  apply root_cut in H as [-> H]; [|done..]. apply app_inv_head in H.
  apply sep_cut in H as [Ha H]; [|apply escape_segment_no_slash..].
  apply sep_cut in H as [Hv H]; [|apply escape_segment_no_slash..].
  by apply escape_segment_inj in Ha, Hv.
Qed.

(** The index scan for [(attr, value)] sees exactly the keys written for
    that attribute (in any case) and that value in that partition, whatever
    characters the values and DNs hold. *)
Theorem index_prefix_exact pid qid a b v w d :
  valid_id pid = true -> valid_id qid = true ->
  starts_with (index_prefix pid a v) (index_key qid b w d) = true <->
  qid = pid /\ to_ascii_lowercase b = to_ascii_lowercase a /\ w = v.
Proof.
  intros Hp Hq. rewrite starts_with_spec. split.
  - intros [r H]. apply index_prefix_cut in H as (? & ? & ? & _); auto.
  - intros (-> & Hb & ->). exists (escape_segment (to_string d)).
    rewrite index_key_unfold, index_prefix_unfold. by rewrite Hb.
Qed.

Lemma index_key_inj pid qid a b v w d e :
  valid_id pid = true -> valid_id qid = true ->
  index_key pid a v d = index_key qid b w e ->
  pid = qid /\ to_ascii_lowercase a = to_ascii_lowercase b /\ v = w /\ to_string d = to_string e.
Proof.
  intros Hp Hq H. assert (index_key pid a v d = index_prefix qid b w ++ escape_segment (to_string e)) as H'.
  { by rewrite H, index_key_unfold, index_prefix_unfold. }
  apply index_prefix_cut in H' as (? & ? & ? & ?%escape_segment_inj); auto.
Qed.

(** Index keys never fall in a tree range and tree keys never in an index. *)
Lemma index_key_not_tree pid qid a v d e :
  valid_id pid = true -> valid_id qid = true -> index_key pid a v d <> entry_key qid e.
Proof.
  intros Hp Hq H. rewrite index_key_unfold, entry_key_unfold in H.
  apply root_cut in H as [_ H]; [|done..]. discriminate H.
Qed.

(** ** Concrete DNs *)

(** [dn_of s] is [Dn::parse(s).unwrap()]. *)
Definition dn_of (s : rstring) : Dn := match parse s with Ok d => d | Err _ => root end.

(** A decision procedure for [key_safe], for use on concrete DNs. *)
Definition key_safeb (d : Dn) : bool :=
  forallb (fun r => negb (bool_decide (avas r = []))
    && forallb (fun a => bool_decide (c_eq ∉ attr a) && bool_decide (c_plus ∉ attr a)
         && bool_decide (c_slash ∉ attr a) && bool_decide (c_plus ∉ norm_value a)
         && bool_decide (c_slash ∉ norm_value a)) (avas r)) (rdns d).

Lemma key_safeb_sound d : key_safeb d = true -> key_safe d.
Proof.
  unfold key_safeb, key_safe. rewrite forallb_forall, Forall_forall.
  intros H r Hr%list_elem_of_In. specialize (H r Hr).
  apply andb_true_iff in H as [Hne Ha]. split.
  - apply negb_true_iff, bool_decide_eq_false in Hne. done.
  - rewrite forallb_forall in Ha. apply Forall_forall. intros a Hin%list_elem_of_In.
    specialize (Ha a Hin). rewrite !andb_true_iff, !bool_decide_eq_true in Ha.
    destruct Ha as [[[[]]]]. by constructor.
Qed.

Definition alice : Dn := dn_of (str "cn=Alice,ou=users,dc=g10,dc=lo").
Definition users : Dn := dn_of (str "OU=Users,dc=G10,dc=lo").

Lemma entry_key_injective_witness :
  entry_key (str "g10") users = entry_key (str "g10") (dn_of (str "ou=USERS, DC=g10,dc=LO")).
Proof.
  apply (entry_key_injective (str "g10") (str "g10"));
    [vm_compute; reflexivity..|by apply key_safeb_sound|by apply key_safeb_sound|].
  split; [done|]. by apply dn_eq_spec.
Defined.

Lemma subtree_prefix_exact_witness :
  is_strict_descendant_of alice users = true /\
  starts_with (subtree_prefix (str "g10") users) (entry_key (str "g10") alice) = true.
Proof.
  split; [vm_compute; reflexivity|].
  rewrite (subtree_prefix_exact (str "g10") users alice);
    [by vm_compute|by apply key_safeb_sound|by apply key_safeb_sound|by vm_compute].
Defined.

Lemma index_prefix_exact_witness :
  starts_with (index_prefix (str "g10") (str "CN") (str "a/b"))
    (index_key (str "g10") (str "cn") (str "a/b") alice) = true.
Proof.
  apply (index_prefix_exact (str "g10") (str "g10") (str "CN") (str "cn") (str "a/b") (str "a/b") alice);
    [by vm_compute..|]. by vm_compute.
Defined.

(** Outside that class keys collide: the one-valued RDN [cn=a\+sn=b] and the
    two-valued RDN [cn=a+sn=b] parse to different DNs with the same storage
    key, and so do the RDN [cn=x/ou=y] and the two RDNs [ou=y,cn=x];
    writing one entry overwrites the other. *)
Theorem entry_key_collision :
  exists d1 d2 d3 d4,
    parse (str "cn=a\+sn=b,dc=lo") = Ok d1 /\ parse (str "cn=a+sn=b,dc=lo") = Ok d2 /\
    parse (str "cn=x/ou=y,dc=lo") = Ok d3 /\ parse (str "ou=y,cn=x,dc=lo") = Ok d4 /\
    dn_eq d1 d2 = false /\ dn_eq d3 d4 = false /\
    entry_key (str "g10") d1 = entry_key (str "g10") d2 /\
    entry_key (str "g10") d3 = entry_key (str "g10") d4.
Proof. repeat eexists; vm_compute; reflexivity. Qed.
