(* ===== verification/Registry.v ===== *)
(** The partition registry, [crates/partition/src/registry.rs]: naming contexts
    by id, and routing of a DN to the context whose base DN is its longest
    suffix. *)

From S2P Require Import Prelude Str Btree Dn Partition.

(** [BTreeMap<PartitionId, Partition>]. *)
Record PartitionRegistry := mkRegistry { partitions : list (PartitionId * Partition) }.

Definition new : PartitionRegistry := mkRegistry [].

Definition insert (reg : PartitionRegistry) (p : Partition) : result PartitionError PartitionRegistry :=
  if bt_contains (p_id p) (partitions reg) then Err (DuplicateId (p_id p))
  else Ok (mkRegistry (bt_insert (p_id p) p (partitions reg))).

Definition from_partitions (parts : list Partition) : result PartitionError PartitionRegistry :=
  try_fold insert new parts.

Definition len (reg : PartitionRegistry) : nat := length (partitions reg).
Definition get (reg : PartitionRegistry) (id : PartitionId) : option Partition :=
  bt_get id (partitions reg).
Definition iter (reg : PartitionRegistry) : list Partition := bt_values (partitions reg).

(** [Iterator::max_by_key]: the last of the elements of greatest key. *)
Definition max_by_key {A} (key : A -> nat) (l : list A) : option A :=
  foldl (fun acc x => match acc with
                      | None => Some x
                      | Some a => if (key x <? key a)%nat then Some a else Some x
                      end) None l.

Definition resolve (reg : PartitionRegistry) (dn : Dn) : option Partition :=
  max_by_key (fun p => depth (base_dn p)) (List.filter (fun p => is_within dn (base_dn p)) (iter reg)).

Definition resolve_or_err (reg : PartitionRegistry) (dn : Dn) : result PartitionError Partition :=
  ok_or (NoOwningPartition (to_string dn)) (resolve reg dn).

Definition superior_of (reg : PartitionRegistry) (id : PartitionId) : option Partition :=
  p ← get reg id; sid ← superior p; get reg sid.

Definition subordinates_of (reg : PartitionRegistry) (id : PartitionId) : list Partition :=
  match get reg id with
  | None => []
  | Some p => omap (get reg) (subordinates p)
  end.

Definition forest_partitions (reg : PartitionRegistry) (f : ForestId) : list Partition :=
  List.filter (fun p => bool_decide (forest p = f)) (iter reg).

(** The single element of an iterator, if it has exactly one. *)
Definition single {A} (l : list A) : option A :=
  match l with [a] => Some a | _ => None end.

Definition partition_of_kind (reg : PartitionRegistry) (f : ForestId) (k : PartitionKind) : option Partition :=
  single (List.filter (fun p => bool_decide (forest p = f) && bool_decide (kind p = k)) (iter reg)).
Definition config_partition (reg : PartitionRegistry) (f : ForestId) : option Partition :=
  partition_of_kind reg f Configuration.
Definition schema_partition (reg : PartitionRegistry) (f : ForestId) : option Partition :=
  partition_of_kind reg f Schema.
Definition root_domain_partition (reg : PartitionRegistry) (f : ForestId) : option Partition :=
  single (List.filter (fun p => bool_decide (forest p = f) && bool_decide (kind p = Domain)
    && bool_decide (superior p = None)) (iter reg)).
Definition naming_contexts (reg : PartitionRegistry) : list Dn := List.map base_dn (iter reg).

(** ** Invariant: the map is ordered and every partition is filed under its id. *)
Definition registry_wf (reg : PartitionRegistry) : Prop :=
  bt_wf (partitions reg) /\ Forall (fun kp => kp.1 = p_id kp.2) (partitions reg).

Lemma registry_new_wf : registry_wf new.
Proof. by repeat constructor. Qed.

Lemma bt_insert_Forall {V} (P : rstring * V -> Prop) k v m :
  P (k, v) -> Forall P m -> Forall P (bt_insert k v m).
Proof.
  intros Hk. induction 1 as [|[k' v'] m Hk' Hm IH]; simpl; [by constructor|].
  destruct (str_compare k k'); repeat constructor; auto.
Qed.

Lemma registry_insert_wf reg p reg' : registry_wf reg -> insert reg p = Ok reg' -> registry_wf reg'.
Proof.
  unfold insert. intros [H1 H2]. destruct (bt_contains _ _); [done|]. intros [= <-].
  split; simpl; [by apply bt_insert_wf|by apply bt_insert_Forall].
Qed.

Lemma iter_elem reg p : registry_wf reg -> p ∈ iter reg <-> get reg (p_id p) = Some p.
Proof.
  intros [H1 H2]. unfold iter, get. rewrite bt_values_elem, bt_get_In by done. split; [|eauto].
  intros [k Hk]. rewrite Forall_forall in H2. specialize (H2 _ Hk). simpl in H2. by subst.
Qed.

(** ** [max_by_key] *)

Lemma max_by_key_acc {A} (key : A -> nat) l a :
  exists m, foldl (fun acc x => match acc with
                      | None => Some x
                      | Some a => if (key x <? key a)%nat then Some a else Some x
                      end) (Some a) l = Some m
    /\ (m = a \/ m ∈ l) /\ (key a <= key m)%nat /\ (forall x, x ∈ l -> (key x <= key m)%nat).
Proof.
  revert a; induction l as [|x l IH]; intros a; cbn [foldl].
  - exists a. split; [done|]. split; [auto|]. split; [lia|]. by intros ? ?%elem_of_nil.
  - destruct (Nat.ltb_spec (key x) (key a)) as [Hlt|Hge].
    + destruct (IH a) as (m & Hm & Hin & Ha & Hl). exists m. split; [done|].
      split; [set_solver|]. split; [done|]. intros y [->|Hy]%elem_of_cons; [lia|auto].
    + destruct (IH x) as (m & Hm & Hin & Ha & Hl). exists m. split; [done|].
      split; [set_solver|]. split; [lia|]. intros y [->|Hy]%elem_of_cons; [lia|auto].
Qed.

Lemma max_by_key_Some {A} (key : A -> nat) l m :
  max_by_key key l = Some m -> m ∈ l /\ forall x, x ∈ l -> (key x <= key m)%nat.
Proof.
  destruct l as [|a l]; [done|]. unfold max_by_key; cbn [foldl].
  destruct (max_by_key_acc key l a) as (m' & Hm & Hin & Ha & Hl). rewrite Hm. intros [= <-].
  split; [set_solver|]. intros x [->|Hx]%elem_of_cons; auto.
Qed.

Lemma max_by_key_None {A} (key : A -> nat) l : max_by_key key l = None <-> l = [].
Proof.
  destruct l as [|a l]; [done|]. unfold max_by_key; cbn [foldl].
  destruct (max_by_key_acc key l a) as (m & -> & _). done.
Qed.

Lemma filter_elem {A} (f : A -> bool) l x : x ∈ List.filter f l <-> x ∈ l /\ f x = true.
Proof. rewrite !list_elem_of_In. apply filter_In. Qed.

Lemma resolve_elem reg dn p :
  resolve reg dn = Some p -> p ∈ iter reg /\ is_within dn (base_dn p) = true.
Proof. unfold resolve. intros [H _]%max_by_key_Some. by apply filter_elem in H. Qed.

Lemma resolve_None reg dn :
  resolve reg dn = None <-> forall p, p ∈ iter reg -> is_within dn (base_dn p) = false.
Proof.
  unfold resolve. rewrite max_by_key_None. split.
  - intros H p Hp. destruct (is_within dn (base_dn p)) eqn:E; [|done].
    assert (p ∈ List.filter (fun p => is_within dn (base_dn p)) (iter reg)) as Hin
      by (by apply filter_elem). rewrite H in Hin. by apply elem_of_nil in Hin.
  - intros H. destruct (List.filter _ _) as [|q l] eqn:E; [done|].
    assert (q ∈ List.filter (fun p => is_within dn (base_dn p)) (iter reg)) as Hin
      by (rewrite E; set_solver). apply filter_elem in Hin as [Hq ?]. specialize (H q Hq). congruence.
Qed.

Lemma resolve_longest reg dn p q :
  resolve reg dn = Some p -> q ∈ iter reg -> is_within dn (base_dn q) = true ->
  is_within (base_dn p) (base_dn q) = true.
Proof.
  intros Hr Hq Hw. destruct (resolve_elem _ _ _ Hr) as [_ Hp].
  unfold resolve in Hr. apply max_by_key_Some in Hr as [_ Hmax].
  apply (is_within_linear dn); [done..|]. apply Hmax. by apply filter_elem.
Qed.

(** C25: [resolve] routes a DN to a registered naming context that contains it
    and whose base lies within the base of every other context that contains
    it (the longest suffix); it fails exactly when no context contains it. *)
Theorem resolve_spec reg dn :
  match resolve reg dn with
  | Some p => p ∈ iter reg /\ is_within dn (base_dn p) = true /\
      forall q, q ∈ iter reg -> is_within dn (base_dn q) = true ->
        is_within (base_dn p) (base_dn q) = true
  | None => forall q, q ∈ iter reg -> is_within dn (base_dn q) = false
  end.
Proof.
  destruct (resolve reg dn) as [p|] eqn:E; [|by apply resolve_None].
  destruct (resolve_elem _ _ _ E). eauto using resolve_longest.
Qed.

(** When no two naming contexts share a base DN, routing is determined: the
    result is the only partition with the longest-suffix property. *)
Theorem resolve_unique reg dn p q :
  resolve reg dn = Some p ->
  (forall a b, a ∈ iter reg -> b ∈ iter reg -> base_dn a ≡ base_dn b -> a = b) ->
  q ∈ iter reg -> is_within dn (base_dn q) = true ->
  (forall r, r ∈ iter reg -> is_within dn (base_dn r) = true ->
     is_within (base_dn q) (base_dn r) = true) ->
  q = p.
Proof.
  intros Hr Hinj Hq Hw Hmax. destruct (resolve_elem _ _ _ Hr) as [Hp Hwp].
  apply Hinj; [done..|]. apply is_within_antisym; eauto using resolve_longest.
Qed.

(** ** Building a registry *)

Lemma insert_get reg p reg' id :
  insert reg p = Ok reg' -> get reg' id = if bool_decide (p_id p = id) then Some p else get reg id.
Proof.
  unfold insert, get. destruct (bt_contains _ _); [done|]. intros [= <-]; simpl.
  case_bool_decide as E; [subst; apply bt_get_insert_eq|by apply bt_get_insert_ne].
Qed.

Lemma try_fold_insert_wf ps reg reg' :
  registry_wf reg -> try_fold insert reg ps = Ok reg' -> registry_wf reg'.
Proof.
  revert reg; induction ps as [|p ps IH]; intros reg Hwf; cbn [try_fold]; [by intros [= <-]|].
  rewrite bind_ok. intros (r & Hr & H). eauto using registry_insert_wf.
Qed.

Lemma try_fold_insert_get ps reg reg' id :
  try_fold insert reg ps = Ok reg' ->
  NoDup (List.map p_id ps) /\ (forall p, p ∈ ps -> get reg (p_id p) = None) /\
  get reg' id = match List.find (fun p => bool_decide (p_id p = id)) ps with
                | Some p => Some p | None => get reg id end.
Proof.
  revert reg; induction ps as [|p ps IH]; intros reg; cbn [try_fold].
  { intros [= <-]. split; [constructor|]. split; [|done]. by intros ? ?%elem_of_nil. }
  rewrite bind_ok. intros (r & Hr & H). destruct (IH _ H) as (Hnd & Hfresh & Hget).
  assert (get reg (p_id p) = None) as Hp.
  { revert Hr. unfold insert, bt_contains, get. by destruct (bt_get (p_id p) (partitions reg)). }
  assert (forall q, q ∈ ps -> p_id q <> p_id p /\ get reg (p_id q) = None) as Hq.
  { intros q Hq. specialize (Hfresh q Hq). rewrite (insert_get _ _ _ _ Hr) in Hfresh.
    case_bool_decide; [done|]. auto. }
  split; [|split].
  - cbn [List.map]. apply NoDup_cons. split; [|done]. intros (q & Heq & Hin)%list_elem_of_fmap.
    destruct (Hq q Hin). congruence.
  - intros q [->|Hin]%elem_of_cons; [done|]. by apply Hq.
  - cbn [List.find]. rewrite Hget, (insert_get _ _ _ _ Hr). case_bool_decide as E; [|done].
    destruct (List.find _ _) as [q|] eqn:Ef; [|done]. exfalso.
    apply find_some in Ef as [Hin%list_elem_of_In Hid%bool_decide_eq_true].
    destruct (Hq q Hin). congruence.
Qed.

Lemma try_fold_insert_ok ps reg :
  NoDup (List.map p_id ps) -> (forall p, p ∈ ps -> get reg (p_id p) = None) ->
  is_ok (try_fold insert reg ps) = true.
Proof.
  revert reg; induction ps as [|p ps IH]; intros reg Hnd Hfresh; [done|]. cbn [try_fold].
  cbn [List.map] in Hnd. apply NoDup_cons in Hnd as [Hnotin Hnd].
  destruct (insert reg p) as [r|] eqn:Hr; cbn [mbind result_bind].
  - apply IH; [done|]. intros q Hq. rewrite (insert_get _ _ _ _ Hr).
    case_bool_decide as E; [|apply Hfresh; set_solver].
    exfalso. apply Hnotin. rewrite E. apply list_elem_of_fmap. eauto.
  - revert Hr. unfold insert, bt_contains. specialize (Hfresh p ltac:(set_solver)).
    unfold get in Hfresh. by rewrite Hfresh.
Qed.

(** [from_partitions] accepts a list exactly when its ids are distinct, and
    the registry it builds is well formed and maps each id to its partition. *)
Theorem from_partitions_spec ps :
  match from_partitions ps with
  | Ok reg => NoDup (List.map p_id ps) /\ registry_wf reg /\
      forall id, get reg id = List.find (fun p => bool_decide (p_id p = id)) ps
  | Err _ => ~ NoDup (List.map p_id ps)
  end.
Proof.
  unfold from_partitions. destruct (try_fold insert new ps) as [reg|e] eqn:E.
  - split; [|split].
    + by eapply (try_fold_insert_get ps new reg []).
    + eauto using try_fold_insert_wf, registry_new_wf.
    + intros id. destruct (try_fold_insert_get _ _ _ id E) as (_ & _ & ->).
      by destruct (List.find _ _).
  - intros Hnd. pose proof (try_fold_insert_ok ps new Hnd) as H. rewrite E in H.
    by specialize (H ltac:(done)).
Qed.
