(* ===== verification/Decimal.v ===== *)
(** Decimal printing and [str::parse] of integers. *)

From S2P Require Import Prelude Str.

(** Decimal digits of [z], least significant first, with the fuel given. *)
Fixpoint digits_rev (fuel : nat) (z : Z) : rstring :=
  match fuel with
  | O => []
  | S f => if z <? 10 then [48 + z] else (48 + z mod 10) :: digits_rev f (z / 10)
  end.

(** [z.to_string()] for [z >= 0]: one unit of fuel per bit covers every digit. *)
Definition to_decimal (z : Z) : rstring := rev (digits_rev (S (Z.to_nat (Z.log2 z))) z).

(** The digit loop of [from_str_radix(_, 10)], with its overflow check. *)
Fixpoint parse_digits (max acc : Z) (s : rstring) : option Z :=
  match s with
  | [] => Some acc
  | c :: s' =>
      if is_ascii_digit c then
        let acc' := 10 * acc + (c - 48) in
        if acc' <=? max then parse_digits max acc' s' else None
      else None
  end.

(** [s.parse::<uN>().ok()], where [max] is the type's maximum: an optional
    leading [+], then at least one digit. *)
Definition parse_uint (max : Z) (s : rstring) : option Z :=
  match s with
  | [] => None
  | c :: s' =>
      if c =? c_plus then (if bool_decide (s' = []) then None else parse_digits max 0 s')
      else parse_digits max 0 s
  end.

Definition u8_max : Z := 2 ^ 8 - 1.
Definition u16_max : Z := 2 ^ 16 - 1.
Definition u32_max : Z := 2 ^ 32 - 1.
Definition u64_max : Z := 2 ^ 64 - 1.

Lemma digits_rev_digits f z :
  0 <= z -> Forall (fun c => is_ascii_digit c = true) (digits_rev f z).
Proof.
  revert z; induction f as [|f IH]; intros z Hz; cbn [digits_rev]; [constructor|].
  destruct (Z.ltb_spec z 10); constructor.
  - unfold is_ascii_digit. apply andb_true_iff. rewrite !Z.leb_le. lia.
  - constructor.
  - unfold is_ascii_digit. apply andb_true_iff. rewrite !Z.leb_le. zlia.
  - apply IH. zlia.
Qed.

Lemma to_decimal_digits z : 0 <= z -> Forall (fun c => is_ascii_digit c = true) (to_decimal z).
Proof. intros. apply Forall_rev. by apply digits_rev_digits. Qed.

Lemma to_decimal_ne z : to_decimal z <> [].
Proof.
  unfold to_decimal. intros H%(f_equal length). rewrite length_rev in H. cbn [digits_rev] in H.
  by destruct (z <? 10).
Qed.

Lemma parse_digits_app max acc s t :
  parse_digits max acc (s ++ t) = parse_digits max acc s ≫= fun a => parse_digits max a t.
Proof.
  revert acc; induction s as [|c s IH]; intros acc; [done|]. cbn [app parse_digits].
  destruct (is_ascii_digit c); [|done]. destruct (_ <=? max); [apply IH|done].
Qed.

Lemma parse_digits_rev max f z :
  0 <= z <= max -> z < 10 ^ Z.of_nat f -> parse_digits max 0 (rev (digits_rev f z)) = Some z.
Proof.
  revert z; induction f as [|f IH]; intros z Hz Hf; [simpl in *; f_equal; lia|].
  assert (forall q d, 0 <= q -> 0 <= d < 10 -> 10 * q + d = z ->
            parse_digits max q [48 + d] = Some z) as Hdigit.
  { intros q d Hq Hd Hqd. cbn [parse_digits].
    replace (is_ascii_digit (48 + d)) with true
      by (symmetry; unfold is_ascii_digit; rewrite andb_true_iff, !Z.leb_le; lia).
    rewrite (proj2 (Z.leb_le _ _)) by lia. f_equal. lia. }
  cbn [digits_rev]. destruct (Z.ltb_spec z 10).
  - apply (Hdigit 0 z); lia.
  - cbn [rev]. rewrite parse_digits_app, IH.
    + cbn [mbind option_bind]. apply Hdigit; zlia.
    + zlia.
    + rewrite Nat2Z.inj_succ, Z.pow_succ_r in Hf by lia. zlia.
Qed.

Lemma parse_uint_to_decimal max z : 0 <= z <= max -> parse_uint max (to_decimal z) = Some z.
Proof.
  intros Hz. assert (parse_digits max 0 (to_decimal z) = Some z) as H.
  { apply parse_digits_rev; [done|]. rewrite Nat2Z.inj_succ, Z2Nat.id by apply Z.log2_nonneg.
    destruct (decide (z = 0)) as [->|]; [done|].
    apply Z.lt_le_trans with (2 ^ Z.succ (Z.log2 z)); [apply Z.log2_spec; lia|].
    apply Z.pow_le_mono_l. lia. }
  pose proof (to_decimal_digits z ltac:(lia)) as Hd. pose proof (to_decimal_ne z).
  unfold parse_uint. destruct (to_decimal z) as [|c s]; [done|].
  apply Forall_cons_1 in Hd as [Hc _]. destruct (Z.eqb_spec c c_plus) as [->|]; [done|done].
Qed.

Lemma parse_digits_bound max acc s n :
  0 <= acc <= max -> parse_digits max acc s = Some n -> 0 <= n <= max.
Proof.
  revert acc; induction s as [|c s IH]; intros acc Hacc; cbn [parse_digits]; [by intros [= <-]|].
  destruct (is_ascii_digit c) eqn:Hc; [|done].
  unfold is_ascii_digit in Hc. apply andb_true_iff in Hc as [?%Z.leb_le ?%Z.leb_le].
  destruct (Z.leb_spec (10 * acc + (c - 48)) max); [|done]. apply IH. lia.
Qed.

Lemma parse_uint_bound max s n : 0 <= max -> parse_uint max s = Some n -> 0 <= n <= max.
Proof.
  intros Hm. unfold parse_uint. destruct s as [|c s]; [done|].
  destruct (c =? c_plus); [case_bool_decide; [done|]|]; apply parse_digits_bound; lia.
Qed.

Lemma to_decimal_no c z : 0 <= z -> is_ascii_digit c = false -> c ∉ to_decimal z.
Proof.
  intros Hz Hc Hin. pose proof (to_decimal_digits z Hz) as H.
  rewrite Forall_forall in H. specialize (H _ Hin). congruence.
Qed.

Lemma to_decimal_inj a b : 0 <= a -> 0 <= b -> to_decimal a = to_decimal b -> a = b.
Proof.
  intros Ha Hb H. pose proof (parse_uint_to_decimal (Z.max a b) a ltac:(lia)) as H1.
  pose proof (parse_uint_to_decimal (Z.max a b) b ltac:(lia)) as H2. congruence.
Qed.

(** [s.parse::<iN>().ok()] for a type with minimum [min] and maximum [max]: the
    digits of a negative number may reach one further. *)
Definition parse_int (min max : Z) (s : rstring) : option Z :=
  match s with
  | c :: s' =>
      if c =? c_dash
      then if bool_decide (s' = []) then None else Z.opp <$> parse_digits (- min) 0 s'
      else parse_uint max s
  | [] => None
  end.

Definition i64_min : Z := - 2 ^ 63.
Definition i64_max : Z := 2 ^ 63 - 1.
Definition i128_min : Z := - 2 ^ 127.
Definition i128_max : Z := 2 ^ 127 - 1.

Lemma parse_int_bound min max s n :
  min <= 0 <= max -> parse_int min max s = Some n -> min <= n <= max.
Proof.
  intros Hm. unfold parse_int. destruct s as [|c s]; [done|]. destruct (c =? c_dash).
  - case_bool_decide; [done|]. destruct (parse_digits (- min) 0 s) as [k|] eqn:E; [|done].
    intros [= <-]. apply parse_digits_bound in E; lia.
  - intros H. apply parse_uint_bound in H; lia.
Qed.
