(* ===== verification/Sid.v ===== *)
(** Windows security identifiers, [crates/partition/src/sid.rs]: the binary and
    the string form, with their round trips and bounds. *)

From S2P Require Import Prelude Bytes Str Decimal.

Record Sid := mkSid { revision : Z; authority : Z; sub_authorities : list Z }.

#[global] Instance Sid_eq_dec : EqDecision Sid.
Proof. solve_decision. Defined.

Definition NT_AUTHORITY : Z := 5.

Definition new (authority : Z) (subs : list Z) : Sid := mkSid 1 authority subs.

Definition with_sub_authority (s : Sid) (extra : Z) : Sid :=
  mkSid (revision s) (authority s) (sub_authorities s ++ [extra]).

Definition encode (s : Sid) : bytes :=
  [revision s; as_u8 (zlen (sub_authorities s))]
  ++ ztake 6 (zdrop 2 (be_bytes 8 (authority s)))
  ++ concat (List.map (le_bytes 4) (sub_authorities s)).

(** [chunks_exact(4)]. *)
Fixpoint chunks4 (l : bytes) : list bytes :=
  match l with
  | a :: b :: c :: d :: l' => [a; b; c; d] :: chunks4 l'
  | _ => []
  end.

Definition decode (l : bytes) : option Sid :=
  match l with
  | rev :: cnt :: rest =>
      if zlen l <? 8 then None
      else
        let count := cnt in
        if negb (zlen l =? 8 + 4 * count) then None
        else
          let authority := be_val ([0; 0] ++ ztake 6 (zdrop 2 l)) in
          Some (mkSid rev authority (List.map le_val (chunks4 (zdrop 8 l))))
  | _ => None
  end.

(** [parse]: the pieces between dashes. *)
Definition parse (s : rstring) : option Sid :=
  match split_char c_dash s with
  | p0 :: parts =>
      if negb (bool_decide (p0 = str "S")) then None
      else
        match parts with
        | p1 :: p2 :: ps =>
            revision ← parse_uint u8_max p1;
            authority ← parse_uint u64_max p2;
            subs ← mapM (parse_uint u32_max) ps;
            Some (mkSid revision authority subs)
        | [p1] => _ ← parse_uint u8_max p1; None
        | [] => None
        end
  | [] => None
  end.

Definition to_string (s : Sid) : rstring :=
  str "S-" ++ to_decimal (revision s) ++ str "-" ++ to_decimal (authority s)
  ++ concat (List.map (fun sa => str "-" ++ to_decimal sa) (sub_authorities s)).

(** ** Types of the fields *)

Record sid_ok (s : Sid) : Prop := {
  so_revision : is_byte (revision s);
  so_authority : in_u64 (authority s);
  so_subs : Forall in_u32 (sub_authorities s);
}.

(** The SIDs that survive the wire: a 48-bit authority and at most 255
    sub-authorities. *)
Record sid_wire (s : Sid) : Prop := {
  sw_ok : sid_ok s;
  sw_authority : authority s < 2 ^ 48;
  sw_count : zlen (sub_authorities s) <= 255;
}.

Definition sid_wireb (s : Sid) : bool :=
  (0 <=? revision s) && (revision s <? 256) && (0 <=? authority s) && (authority s <? 2 ^ 48)
  && forallb (fun z => (0 <=? z) && (z <? 2 ^ 32)) (sub_authorities s)
  && (zlen (sub_authorities s) <=? 255).

Lemma sid_wireb_spec s : sid_wireb s = true <-> sid_wire s.
Proof.
  unfold sid_wireb. rewrite !andb_true_iff, !Z.leb_le, !Z.ltb_lt, forallb_forall.
  assert ((forall x, In x (sub_authorities s) -> (0 <=? x) && (x <? 2 ^ 32) = true)
    <-> Forall in_u32 (sub_authorities s)) as ->.
  { rewrite Forall_forall. unfold in_u32. setoid_rewrite andb_true_iff.
    setoid_rewrite Z.leb_le. setoid_rewrite Z.ltb_lt. setoid_rewrite list_elem_of_In. done. }
  split.
  - intros [[[[[]]]]]. repeat (split || constructor); unfold in_u64; try done; lia.
  - intros [[[] [] ]]. naive_solver.
Qed.

Lemma chunks4_concat (f : Z -> bytes) l :
  (forall z, length (f z) = 4%nat) -> chunks4 (concat (List.map f l)) = List.map f l.
Proof.
  intros Hf. induction l as [|z l IH]; [done|]. cbn [List.map concat].
  specialize (Hf z). destruct (f z) as [|a [|b [|c [|d [|]]]]]; try discriminate.
  cbn [app chunks4]. by rewrite IH.
Qed.

Lemma zlen_concat_le4 l : zlen (concat (List.map (le_bytes 4) l)) = 4 * zlen l.
Proof.
  induction l as [|z l IH]; [done|]. cbn [List.map concat].
  rewrite zlen_app, zlen_cons, IH, zlen_le_bytes. lia.
Qed.

Lemma authority_bytes a :
  ztake 6 (zdrop 2 (be_bytes 8 a)) = be_bytes 6 a.
Proof. done. Qed.

Lemma be_val_zeros l : be_val (0 :: 0 :: l) = be_val l.
Proof.
  unfold be_val. cbn [rev]. rewrite <- !app_assoc. cbn [app].
  induction (rev l) as [|b r IH]; cbn [app le_val]; [done|]. by rewrite IH.
Qed.

Lemma zlen_encode s : zlen (encode s) = 8 + 4 * zlen (sub_authorities s).
Proof.
  unfold encode. rewrite authority_bytes, !zlen_app, zlen_be_bytes, zlen_concat_le4.
  rewrite !zlen_cons, zlen_nil. lia.
Qed.

Lemma encode_decode_parts s :
  zdrop 8 (encode s) = concat (List.map (le_bytes 4) (sub_authorities s)) /\
  ztake 6 (zdrop 2 (encode s)) = be_bytes 6 (authority s).
Proof.
  unfold encode. rewrite authority_bytes. split.
  - rewrite app_assoc. apply zdrop_app_exact. rewrite zlen_app, zlen_be_bytes. done.
  - rewrite (zdrop_app_exact 2) by done. apply ztake_app_exact. by rewrite zlen_be_bytes.
Qed.

Lemma decode_encode_general s :
  sid_ok s ->
  decode (encode s) =
    if zlen (sub_authorities s) <=? 255
    then Some (mkSid (revision s) (authority s mod 2 ^ 48) (sub_authorities s)) else None.
Proof.
  intros Hs. pose proof (zlen_nonneg (sub_authorities s)).
  destruct (encode_decode_parts s) as [H8 H2].
  change (decode (encode s)) with
    (if zlen (encode s) <? 8 then None
     else if negb (zlen (encode s) =? 8 + 4 * as_u8 (zlen (sub_authorities s))) then None
     else Some (mkSid (revision s) (be_val ([0; 0] ++ ztake 6 (zdrop 2 (encode s))))
                 (List.map le_val (chunks4 (zdrop 8 (encode s)))))).
  rewrite H8, H2, zlen_encode. rewrite (proj2 (Z.ltb_ge _ _)) by lia.
  unfold as_u8. destruct (Z.leb_spec (zlen (sub_authorities s)) 255).
  - rewrite Z.mod_small by lia. rewrite Z.eqb_refl. cbn [negb].
    cbn [app]. rewrite be_val_zeros, chunks4_concat by apply length_le_bytes.
    unfold be_val, be_bytes. rewrite rev_involutive, le_val_le_bytes. f_equal. f_equal.
    rewrite map_map. pose proof (so_subs _ Hs) as Hsub. revert Hsub. clear.
    induction (sub_authorities s) as [|z l IH]; [done|].
    intros [Hz Hl]%Forall_cons. cbn [List.map]. rewrite le_roundtrip by (unfold in_u32 in Hz; simpl; lia).
    by rewrite IH.
  - rewrite (proj2 (Z.eqb_neq _ _)); [done|]. zlia.
Qed.

(** C40: Encoding then decoding a SID gives back the same SID with its authority
    cut to the 48 bits of the wire format, and a SID with more than 255
    sub-authorities, whose count does not fit its byte, is rejected. *)
Theorem sid_decode_encode s :
  sid_ok s ->
  decode (encode s) =
    if zlen (sub_authorities s) <=? 255
    then Some (mkSid (revision s) (authority s mod 2 ^ 48) (sub_authorities s)) else None.
Proof. apply decode_encode_general. Qed.

Lemma decode_encode s : sid_wire s -> decode (encode s) = Some s.
Proof.
  intros [Hs Ha Hc]. rewrite decode_encode_general by done.
  rewrite (proj2 (Z.leb_le _ _)) by done. pose proof (so_authority _ Hs) as Hu.
  rewrite Z.mod_small by (unfold in_u64 in Hu; lia). by destruct s.
Qed.

Lemma concat_chunks4 l n :
  length l = (4 * n)%nat -> concat (chunks4 l) = l /\ Forall (fun c => length c = 4%nat) (chunks4 l).
Proof.
  revert l; induction n as [|n IH]; intros l Hl.
  - destruct l; [|done]. split; [done|constructor].
  - destruct l as [|a [|b [|c [|d l]]]]; try (simpl in Hl; lia).
    destruct (IH l) as [H1 H2]; [simpl in Hl; lia|]. cbn [chunks4 concat app]. by rewrite H1; auto.
Qed.

Lemma le4_chunks l n :
  length l = (4 * n)%nat -> bytes_ok l ->
  concat (List.map (le_bytes 4) (List.map le_val (chunks4 l))) = l.
Proof.
  intros Hl Hb. destruct (concat_chunks4 l n Hl) as [Hc Hf].
  rewrite map_map. rewrite <- Hc at 2. rewrite <- Hc in Hb. f_equal.
  revert Hb Hf. clear. induction (chunks4 l) as [|c cs IH]; [done|]. cbn [concat List.map].
  intros [Hb1 Hb2]%bytes_ok_app [Hf1 Hf2]%Forall_cons. rewrite IH by done. f_equal.
  rewrite <- Hf1. by apply le_bytes_le_val.
Qed.

(** Decoding accepts only canonical encodings: whatever bytes [decode]
    accepts, encoding its result gives the same bytes back. *)
Theorem sid_encode_decode l s : bytes_ok l -> decode l = Some s -> encode s = l.
Proof.
  intros Hb. unfold decode. destruct l as [|r [|cnt l]]; [done..|].
  destruct (Z.ltb_spec (zlen (r :: cnt :: l)) 8); [done|].
  destruct (Z.eqb_spec (zlen (r :: cnt :: l)) (8 + 4 * cnt)) as [Hlen|]; [|done].
  cbn [negb]. intros [= <-]. cbn [app]. rewrite be_val_zeros. unfold encode. cbn [revision authority sub_authorities].
  apply Forall_cons in Hb as [Hr [Hc Hb]%Forall_cons]. unfold is_byte in Hc.
  change (zdrop 2 (r :: cnt :: l)) with l. change (zdrop 8 (r :: cnt :: l)) with (zdrop 6 l).
  rewrite !zlen_cons in *.
  assert (zlen (zdrop 6 l) = 4 * cnt) as Hz by (rewrite zlen_zdrop; lia).
  rewrite (le4_chunks _ (Z.to_nat cnt)); [|unfold zlen in Hz; lia|by apply bytes_ok_zdrop].
  rewrite authority_bytes.
  assert (zlen (ztake 6 l) = 6) as H6 by (rewrite zlen_ztake; lia).
  replace 6%nat with (length (ztake 6 l)) by (unfold zlen in H6; lia).
  rewrite be_bytes_be_val by (by apply bytes_ok_ztake).
  cbn [app]. rewrite ztake_zdrop. f_equal. f_equal.
  destruct (concat_chunks4 (zdrop 6 l) (Z.to_nat cnt)) as [Hcat Hf]; [unfold zlen in Hz; lia|].
  unfold zlen. rewrite length_map.
  assert (length (concat (chunks4 (zdrop 6 l))) = (4 * length (chunks4 (zdrop 6 l)))%nat) as Hl4.
  { clear -Hf. induction Hf as [|c cs Hc _ IH]; [done|]. cbn [concat length]. rewrite length_app, IH. lia. }
  rewrite Hcat in Hl4. unfold zlen in Hz. unfold as_u8. rewrite Z.mod_small; lia.
Qed.

Lemma parse_subs l :
  Forall in_u32 l -> mapM (parse_uint u32_max) (List.map to_decimal l) = Some l.
Proof.
  intros H. apply mapM_Some. induction H as [|z l Hz _ IH]; [constructor|]. constructor; [|done].
  apply parse_uint_to_decimal. unfold in_u32, u32_max in *. lia.
Qed.

Lemma to_string_join s :
  to_string s =
  join [c_dash] (str "S" :: to_decimal (revision s) :: to_decimal (authority s)
                 :: List.map to_decimal (sub_authorities s)).
Proof.
  rewrite join_concat. cbn [List.map concat]. rewrite map_map. unfold to_string.
  by rewrite <- !app_assoc.
Qed.

(** The string form round-trips: parsing what [Display] prints gives back
    the SID, for every SID of the field types. *)
Theorem sid_parse_to_string s : sid_ok s -> parse (to_string s) = Some s.
Proof.
  intros [Hr Ha Hs]. unfold parse. rewrite to_string_join.
  assert (forall z, 0 <= z -> c_dash ∉ to_decimal z) as Hd by (intros; by apply to_decimal_no).
  unfold is_byte, in_u64 in *.
  rewrite split_join; [|done|].
  2: { apply Forall_cons; split; [rewrite list_elem_of_In; vm_compute; intuition discriminate|].
       apply Forall_cons; split; [apply Hd; lia|]. apply Forall_cons; split; [apply Hd; lia|].
       apply Forall_fmap. eapply Forall_impl; [exact Hs|]. intros z Hz. apply Hd. unfold in_u32 in Hz. lia. }
  rewrite bool_decide_true by done. cbn [negb].
  rewrite !parse_uint_to_decimal by (unfold u8_max, u64_max; lia).
  cbn [mbind option_bind]. rewrite parse_subs by done. by destruct s.
Qed.

(** A domain SID extended by a RID: what [with_sub_authority] guarantees. *)
Lemma with_sub_authority_wire s rid :
  sid_wire s -> zlen (sub_authorities s) <= 254 -> in_u32 rid -> sid_wire (with_sub_authority s rid).
Proof.
  intros [[] ] Hc Hr. constructor; [constructor; try done|done|]; simpl.
  - apply Forall_app. split; [done|by constructor].
  - rewrite zlen_app, zlen_cons, zlen_nil. lia.
Qed.

Lemma with_sub_authority_inj s a b : with_sub_authority s a = with_sub_authority s b -> a = b.
Proof. unfold with_sub_authority. intros [= H]. apply app_inv_head in H. congruence. Qed.

Definition domain_sid_example : Sid := new NT_AUTHORITY [21; 1; 2; 4294967295].

Lemma sid_decode_encode_witness :
  decode (encode (mkSid 1 (2 ^ 50 + 5) [21; 7])) = Some (mkSid 1 5 [21; 7]).
Proof.
  rewrite (sid_decode_encode (mkSid 1 (2 ^ 50 + 5) [21; 7])); [by vm_compute|].
  constructor; [by vm_compute|by vm_compute|]. repeat constructor; by vm_compute.
Defined.

Lemma sid_encode_decode_witness :
  encode (new NT_AUTHORITY [11]) = [1; 1; 0; 0; 0; 0; 0; 5; 11; 0; 0; 0].
Proof.
  apply (sid_encode_decode [1; 1; 0; 0; 0; 0; 0; 5; 11; 0; 0; 0]); [|by vm_compute].
  repeat constructor; by vm_compute.
Defined.

Lemma sid_parse_to_string_witness :
  parse (str "S-1-5-21-1-2-4294967295") = Some domain_sid_example.
Proof.
  change (str "S-1-5-21-1-2-4294967295") with (to_string domain_sid_example).
  apply (sid_parse_to_string domain_sid_example).
  constructor; [by vm_compute|by vm_compute|]. repeat constructor; by vm_compute.
Defined.

Lemma encode_bytes_ok s : is_byte (revision s) -> bytes_ok (encode s).
Proof.
  intros Hr. unfold encode. apply bytes_ok_app. split.
  - constructor; [done|]. constructor; [|constructor]. unfold is_byte, as_u8. zlia.
  - apply bytes_ok_app. split; [auto with iron|]. induction (sub_authorities s) as [|z l IH]; [constructor|].
    cbn [List.map concat]. apply bytes_ok_app. split; [apply le_bytes_ok|done].
Qed.

Lemma parse_revision s sid : parse s = Some sid -> is_byte (revision sid).
Proof.
  unfold parse. destruct (split_char c_dash s) as [|p0 [|p1 [|p2 ps]]]; try done; [by destruct (negb _)| |].
  { destruct (negb _); [done|]. by destruct (parse_uint u8_max p1). }
  destruct (negb _); [done|]. destruct (parse_uint u8_max p1) as [r|] eqn:Hr; [|done].
  apply parse_uint_bound in Hr; [|done]. cbn [mbind option_bind].
  destruct (parse_uint u64_max p2); [|done]. cbn [mbind option_bind].
  destruct (mapM _ ps); [|done]. intros [= <-]. unfold is_byte, u8_max in *. cbn [revision]. lia.
Qed.
