(* ===== verification/SecurityDescriptor.v ===== *)
(** Self-relative security descriptors,
    [crates/partition/src/security_descriptor.rs]: the default descriptor
    stamped on security principals and the decoder that reads it back. *)

From S2P Require Import Prelude Bytes Sid.

Definition SE_DACL_PRESENT : Z := 4.
Definition SE_SELF_RELATIVE : Z := 32768.
Definition ACCESS_ALLOWED_ACE_TYPE : Z := 0.
Definition GENERIC_ALL : Z := 268435456.
Definition GENERIC_READ : Z := 2147483648.

Definition authenticated_users : Sid := Sid.new NT_AUTHORITY [11].

Definition build_ace (mask : Z) (trustee : Sid) : bytes :=
  let sid_bytes := Sid.encode trustee in
  let size := 8 + zlen sid_bytes in
  [ACCESS_ALLOWED_ACE_TYPE; 0] ++ le_bytes 2 (as_u16 size) ++ le_bytes 4 mask ++ sid_bytes.

Definition build_dacl (aces : list (Z * Sid)) : bytes :=
  let bodies := List.map (fun a => build_ace a.1 a.2) aces in
  let body_len := zlen (concat bodies) in
  let acl_size := 8 + body_len in
  [2; 0] ++ le_bytes 2 (as_u16 acl_size) ++ le_bytes 2 (as_u16 (zlen aces)) ++ le_bytes 2 0
  ++ concat bodies.

Definition HEADER_LEN : Z := 1 + 1 + 2 + 4 * 4.

Definition default_descriptor (domain_sid : Sid) : bytes :=
  let domain_admins := with_sub_authority domain_sid 512 in
  let dacl := build_dacl [(GENERIC_ALL, domain_admins); (GENERIC_READ, authenticated_users)] in
  let owner := Sid.encode domain_admins in
  let group := Sid.encode domain_admins in
  let offset_dacl := HEADER_LEN in
  let offset_owner := offset_dacl + as_u32 (zlen dacl) in
  let offset_group := offset_owner + as_u32 (zlen owner) in
  let offset_sacl := 0 in
  let control := Z.lor SE_DACL_PRESENT SE_SELF_RELATIVE in
  [1; 0] ++ le_bytes 2 control ++ le_bytes 4 offset_owner ++ le_bytes 4 offset_group
  ++ le_bytes 4 offset_sacl ++ le_bytes 4 offset_dacl ++ dacl ++ owner ++ group.

Record DecodedAce := mkAce { mask : Z; trustee : Sid }.
Record DecodedDescriptor := mkDescriptor { owner : Sid; group : Sid; dacl : list DecodedAce }.

#[global] Instance DecodedAce_eq_dec : EqDecision DecodedAce.
Proof. solve_decision. Defined.

Definition decode_sid_at (bytes : list Z) (offset : Z) : option Sid :=
  header ← slice bytes offset (offset + 2);
  count ← header !! 1%nat;
  let len := 8 + 4 * count in
  body ← slice bytes offset (offset + len);
  Sid.decode body.

(** The loop of [decode_dacl_at] over [ace_count] entries from [pos]. *)
Fixpoint decode_aces (bytes : list Z) (n : nat) (pos : Z) : option (list DecodedAce) :=
  match n with
  | O => Some []
  | S n' =>
      ace_header ← slice bytes pos (pos + 4);
      let ace_size := le_val (zdrop 2 ace_header) in
      mask ← le_val <$> slice bytes (pos + 4) (pos + 8);
      trustee ← decode_sid_at bytes (pos + 8);
      aces ← decode_aces bytes n' (pos + ace_size);
      Some (mkAce mask trustee :: aces)
  end.

Definition decode_dacl_at (bytes : list Z) (offset : Z) : option (list DecodedAce) :=
  header ← slice bytes offset (offset + 8);
  let ace_count := le_val (ztake 2 (zdrop 4 header)) in
  decode_aces bytes (Z.to_nat ace_count) (offset + 8).

(** [bytes[a..b]] for offsets inside the fixed header. *)
Definition field (bytes : list Z) (a b : Z) : list Z := ztake (b - a) (zdrop a bytes).

Definition decode (bytes : list Z) : option DecodedDescriptor :=
  if zlen bytes <? HEADER_LEN then None
  else
    let control := le_val (field bytes 2 4) in
    if Z.land control SE_SELF_RELATIVE =? 0 then None
    else
      let offset_owner := le_val (field bytes 4 8) in
      let offset_group := le_val (field bytes 8 12) in
      let offset_dacl := le_val (field bytes 16 20) in
      owner ← decode_sid_at bytes offset_owner;
      group ← decode_sid_at bytes offset_group;
      dacl ← (if negb (Z.land control SE_DACL_PRESENT =? 0) && negb (offset_dacl =? 0)
              then decode_dacl_at bytes offset_dacl else Some []);
      Some (mkDescriptor owner group dacl).

(** ** Reading back what was written *)

Lemma slice_at {A} (l1 l2 l3 : list A) b :
  b = zlen l1 + zlen l2 -> slice (l1 ++ l2 ++ l3) (zlen l1) b = Some l2.
Proof. intros ->. by apply slice_app_exact. Qed.

Lemma encode_count s :
  sid_wire s -> exists t, Sid.encode s = [revision s; zlen (sub_authorities s)] ++ t.
Proof.
  intros H. unfold Sid.encode, as_u8. rewrite Z.mod_small; [eauto|].
  pose proof (sw_count _ H). pose proof (zlen_nonneg (sub_authorities s)). lia.
Qed.

Lemma decode_sid_at_encode pre s post :
  sid_wire s -> decode_sid_at (pre ++ Sid.encode s ++ post) (zlen pre) = Some s.
Proof.
  intros Hs. destruct (encode_count s Hs) as [t Ht]. unfold decode_sid_at.
  rewrite Ht at 1. rewrite <- (app_assoc [_; _] t post). rewrite slice_at by done.
  cbn [mbind option_bind lookup list_lookup]. rewrite slice_at by (by rewrite zlen_encode).
  cbn [mbind option_bind]. by apply decode_encode.
Qed.

Lemma zlen_build_ace m s : zlen (build_ace m s) = 16 + 4 * zlen (sub_authorities s).
Proof.
  unfold build_ace. rewrite !zlen_app, !zlen_le_bytes, zlen_encode, !zlen_cons, zlen_nil. lia.
Qed.

(** An ACE this module can write: its size fits the 16-bit field. *)
Definition ace_ok (a : Z * Sid) : Prop := in_u32 a.1 /\ sid_wire a.2.

Lemma ace_size_u16 (a : Z * Sid) : ace_ok a -> 0 <= 8 + zlen (Sid.encode a.2) < 2 ^ 16.
Proof.
  intros [_ Hs]. rewrite zlen_encode. pose proof (sw_count _ Hs).
  pose proof (zlen_nonneg (sub_authorities a.2)). lia.
Qed.

Lemma decode_aces_build pre aces post :
  Forall ace_ok aces ->
  decode_aces (pre ++ concat (List.map (fun a => build_ace a.1 a.2) aces) ++ post)
    (length aces) (zlen pre)
  = Some (List.map (fun a => mkAce a.1 a.2) aces).
Proof.
  intros H. revert pre. induction H as [|[m s] aces Ha Haces IH]; intros pre; [done|].
  cbn [List.map concat length decode_aces fst snd].
  pose proof (ace_size_u16 (m, s) Ha) as Hsize. destruct Ha as [Hm Hs]. simpl in Hm, Hs, Hsize.
  set (rest := concat (List.map (fun a : Z * Sid => build_ace a.1 a.2) aces) ++ post).
  set (hdr := [ACCESS_ALLOWED_ACE_TYPE; 0] ++ le_bytes 2 (as_u16 (8 + zlen (Sid.encode s)))).
  assert (pre ++ (build_ace m s ++ concat (List.map (fun a => build_ace a.1 a.2) aces)) ++ post
    = pre ++ hdr ++ le_bytes 4 m ++ Sid.encode s ++ rest) as Hflat.
  { unfold build_ace, hdr, rest. by rewrite <- !app_assoc. }
  assert (zlen hdr = 4) as Hh by done.
  rewrite Hflat, slice_at by lia. cbn [mbind option_bind].
  replace (le_val (zdrop 2 hdr)) with (8 + zlen (Sid.encode s)).
  2: { change (zdrop 2 hdr) with (le_bytes 2 (as_u16 (8 + zlen (Sid.encode s)))).
       rewrite le_roundtrip; unfold as_u16; rewrite Z.mod_small by lia; [done|simpl; lia]. }
  rewrite (app_assoc pre hdr). replace (zlen pre + 4) with (zlen (pre ++ hdr)) by (rewrite zlen_app; lia).
  rewrite slice_at by (rewrite zlen_app, zlen_le_bytes; lia).
  cbn [fmap option_fmap option_map mbind option_bind].
  rewrite le_roundtrip by (unfold in_u32 in Hm; simpl; lia).
  rewrite (app_assoc (pre ++ hdr)).
  replace (zlen pre + 8) with (zlen ((pre ++ hdr) ++ le_bytes 4 m))
    by (rewrite !zlen_app, zlen_le_bytes; lia).
  rewrite decode_sid_at_encode by done. cbn [mbind option_bind]. rewrite app_assoc.
  replace (zlen pre + (8 + zlen (Sid.encode s)))
    with (zlen (((pre ++ hdr) ++ le_bytes 4 m) ++ Sid.encode s))
    by (rewrite !zlen_app, zlen_le_bytes; lia).
  unfold rest. rewrite IH. done.
Qed.

Lemma decode_dacl_at_build pre aces post :
  Forall ace_ok aces -> zlen aces < 2 ^ 16 ->
  decode_dacl_at (pre ++ build_dacl aces ++ post) (zlen pre)
  = Some (List.map (fun a => mkAce a.1 a.2) aces).
Proof.
  intros H Hlen. unfold decode_dacl_at, build_dacl.
  set (bodies := concat _). set (sz := le_bytes 2 (as_u16 (8 + zlen bodies))).
  set (hdr := [2; 0] ++ sz ++ le_bytes 2 (as_u16 (zlen aces)) ++ le_bytes 2 0).
  replace ([2; 0] ++ sz ++ le_bytes 2 (as_u16 (zlen aces)) ++ le_bytes 2 0 ++ bodies)
    with (hdr ++ bodies) by (unfold hdr; by rewrite <- !app_assoc).
  rewrite <- (app_assoc hdr bodies). rewrite slice_at by done. cbn [mbind option_bind].
  change (ztake 2 (zdrop 4 hdr)) with (le_bytes 2 (as_u16 (zlen aces))).
  pose proof (zlen_nonneg aces).
  rewrite le_roundtrip; unfold as_u16; rewrite Z.mod_small by lia; [|simpl; lia].
  unfold zlen at 1. rewrite Nat2Z.id.
  rewrite app_assoc. replace (zlen pre + 8) with (zlen (pre ++ hdr)) by (by rewrite zlen_app).
  by apply decode_aces_build.
Qed.

Lemma field_at l1 l2 l3 a b :
  a = zlen l1 -> b = zlen l1 + zlen l2 -> field (l1 ++ l2 ++ l3) a b = l2.
Proof.
  intros -> ->. unfold field. rewrite (zdrop_app_exact (zlen l1)) by done.
  apply ztake_app_exact. lia.
Qed.

Section default_descriptor.
  Context (sid : Sid) (Hsid : sid_wire sid) (Hlen : zlen (sub_authorities sid) <= 254).

Lemma domain_admins_wire : sid_wire (with_sub_authority sid 512).
Proof. apply with_sub_authority_wire; [done..|]. by unfold in_u32. Qed.

Lemma default_aces_ok :
  Forall ace_ok [(GENERIC_ALL, with_sub_authority sid 512); (GENERIC_READ, authenticated_users)].
Proof.
  constructor; [split; [by unfold in_u32|apply domain_admins_wire]|].
  constructor; [|constructor]. split; [by unfold in_u32|]. by apply sid_wireb_spec.
Qed.

Lemma zlen_sub_authority : zlen (sub_authorities (with_sub_authority sid 512)) <= 255.
Proof. apply domain_admins_wire. Qed.

(** The fixed header of the descriptor, then its three variable parts. *)
Lemma decode_parts (hdr dacl owner group : bytes) off_owner off_group :
  hdr = [1; 0] ++ le_bytes 2 (Z.lor SE_DACL_PRESENT SE_SELF_RELATIVE) ++ le_bytes 4 off_owner
        ++ le_bytes 4 off_group ++ le_bytes 4 0 ++ le_bytes 4 HEADER_LEN ->
  in_u32 off_owner -> in_u32 off_group ->
  decode (hdr ++ dacl ++ owner ++ group) =
    (o ← decode_sid_at (hdr ++ dacl ++ owner ++ group) off_owner;
     g ← decode_sid_at (hdr ++ dacl ++ owner ++ group) off_group;
     d ← decode_dacl_at (hdr ++ dacl ++ owner ++ group) HEADER_LEN;
     Some (mkDescriptor o g d)).
Proof.
  intros Hh Ho Hg. set (all := hdr ++ dacl ++ owner ++ group).
  assert (zlen hdr = 20) as Hz by (rewrite Hh; done).
  unfold decode. rewrite (proj2 (Z.ltb_ge _ _))
    by (unfold all, HEADER_LEN; rewrite zlen_app; pose proof (zlen_nonneg (dacl ++ owner ++ group)); lia).
  assert (forall a b, 0 <= a <= b -> b <= 20 -> field all a b = field hdr a b) as Hf.
  { intros a b Hab Hb. unfold all, field, ztake, zdrop.
    unfold zlen in Hz. rewrite drop_app_le by lia. rewrite take_app_le; [done|]. rewrite length_drop. lia. }
  rewrite !Hf by lia.
  assert (field hdr 2 4 = le_bytes 2 (Z.lor SE_DACL_PRESENT SE_SELF_RELATIVE)
    /\ field hdr 4 8 = le_bytes 4 off_owner /\ field hdr 8 12 = le_bytes 4 off_group
    /\ field hdr 16 20 = le_bytes 4 HEADER_LEN) as (-> & -> & -> & ->) by (by rewrite Hh).
  unfold in_u32 in *. rewrite (le_roundtrip 4 off_owner), (le_roundtrip 4 off_group) by (simpl; lia).
  done.
Qed.

Lemma default_descriptor_decodes :
  decode (default_descriptor sid) =
    Some (mkDescriptor (with_sub_authority sid 512) (with_sub_authority sid 512)
      [mkAce GENERIC_ALL (with_sub_authority sid 512); mkAce GENERIC_READ authenticated_users]).
Proof.
  unfold default_descriptor. set (da := with_sub_authority sid 512).
  set (aces := [(GENERIC_ALL, da); (GENERIC_READ, authenticated_users)]).
  pose proof zlen_sub_authority as Hc. fold da in Hc. pose proof (zlen_nonneg (sub_authorities da)).
  assert (zlen (build_dacl aces) = 44 + 4 * zlen (sub_authorities da)) as Hdl.
  { unfold build_dacl. cbn [List.map concat aces fst snd].
    assert (zlen (sub_authorities authenticated_users) = 1) by done.
    autorewrite with zlen. rewrite !zlen_build_ace. lia. }
  pose proof (zlen_encode da) as Hel.
  assert (as_u32 (zlen (build_dacl aces)) = zlen (build_dacl aces)) as ->
    by (unfold as_u32; apply Z.mod_small; lia).
  assert (as_u32 (zlen (Sid.encode da)) = zlen (Sid.encode da)) as ->
    by (unfold as_u32; apply Z.mod_small; lia).
  set (oo := HEADER_LEN + zlen (build_dacl aces)). set (og := oo + zlen (Sid.encode da)).
  set (hdr := [1; 0] ++ le_bytes 2 (Z.lor SE_DACL_PRESENT SE_SELF_RELATIVE) ++ le_bytes 4 oo
        ++ le_bytes 4 og ++ le_bytes 4 0 ++ le_bytes 4 HEADER_LEN).
  match goal with |- decode ?l = _ =>
    replace l with (hdr ++ build_dacl aces ++ Sid.encode da ++ Sid.encode da)
      by (unfold hdr; by rewrite <- !app_assoc) end.
  assert (zlen hdr = HEADER_LEN) as Hh by done. unfold HEADER_LEN in oo.
  rewrite (decode_parts hdr _ _ _ oo og) by (done || unfold in_u32, oo, og; lia).
  set (dl := build_dacl aces) in *. set (e := Sid.encode da) in *.
  assert (decode_sid_at (hdr ++ dl ++ e ++ e) oo = Some da) as ->.
  { replace oo with (zlen (hdr ++ dl)) by (by rewrite zlen_app). rewrite app_assoc.
    apply decode_sid_at_encode, domain_admins_wire. }
  assert (decode_sid_at (hdr ++ dl ++ e ++ e) og = Some da) as ->.
  { replace og with (zlen (hdr ++ dl ++ e)) by (rewrite !zlen_app; unfold og, oo, HEADER_LEN in *; lia).
    replace (hdr ++ dl ++ e ++ e) with ((hdr ++ dl ++ e) ++ e ++ [])
      by (by rewrite app_nil_r, <- !app_assoc).
    apply decode_sid_at_encode, domain_admins_wire. }
  cbn [mbind option_bind]. rewrite <- Hh. unfold dl.
  rewrite decode_dacl_at_build by (apply default_aces_ok || done). done.
Qed.
End default_descriptor.

(** The descriptor stamped on a new principal decodes to exactly what the
    module intends: owned by Domain Admins, granting them full control and
    Authenticated Users read access, for every domain SID. *)
Theorem default_descriptor_roundtrip sid :
  sid_wire sid -> zlen (sub_authorities sid) <= 254 ->
  decode (default_descriptor sid) =
    Some (mkDescriptor (with_sub_authority sid 512) (with_sub_authority sid 512)
      [mkAce GENERIC_ALL (with_sub_authority sid 512); mkAce GENERIC_READ authenticated_users]).
Proof. apply default_descriptor_decodes. Qed.

Lemma default_descriptor_roundtrip_witness :
  decode (default_descriptor domain_sid_example) =
    Some (mkDescriptor (Sid.new 5 [21; 1; 2; 4294967295; 512]) (Sid.new 5 [21; 1; 2; 4294967295; 512])
      [mkAce GENERIC_ALL (Sid.new 5 [21; 1; 2; 4294967295; 512]);
       mkAce GENERIC_READ (Sid.new 5 [11])]).
Proof.
  apply (default_descriptor_roundtrip domain_sid_example);
    [by apply sid_wireb_spec|by vm_compute].
Defined.

Lemma build_ace_ok m s : is_byte (revision s) -> bytes_ok (build_ace m s).
Proof.
  intros Hr. unfold build_ace. apply bytes_ok_app. split; [by repeat constructor|].
  rewrite !bytes_ok_app. auto using le_bytes_ok, encode_bytes_ok.
Qed.

Lemma default_descriptor_ok sid : is_byte (revision sid) -> bytes_ok (default_descriptor sid).
Proof.
  intros Hr. unfold default_descriptor, build_dacl. cbn [List.map concat fst snd].
  assert (bytes_ok [1; 0] /\ bytes_ok [2; 0]) as [] by (split; by repeat constructor).
  assert (bytes_ok []) by constructor.
  rewrite !bytes_ok_app. repeat split; auto using le_bytes_ok, build_ace_ok, encode_bytes_ok.
  all: apply build_ace_ok || apply encode_bytes_ok; done.
Qed.
