(* ===== verification/Utf8.v ===== *)
(** UTF-8: [String::as_bytes] and [str::from_utf8]. *)

From Stdlib Require Import Ascii String.
From S2P Require Import Prelude Bytes Str.

(** Unicode scalar values: what a Rust [char] holds. *)
Definition is_scalar (c : char) : Prop := 0 <= c < 55296 \/ 57344 <= c < 1114112.
Definition str_ok (s : rstring) : Prop := Forall is_scalar s.

Definition utf8_char (c : char) : bytes :=
  if c <? 128 then [c]
  else if c <? 2048 then [192 + c / 64; 128 + c mod 64]
  else if c <? 65536 then [224 + c / 4096; 128 + c / 64 mod 64; 128 + c mod 64]
  else [240 + c / 262144; 128 + c / 4096 mod 64; 128 + c / 64 mod 64; 128 + c mod 64].

(** [s.as_bytes()]. *)
Definition utf8_encode (s : rstring) : bytes := concat (List.map utf8_char s).

Definition is_cont (b : byte) : bool := (128 <=? b) && (b <? 192).

(** The next character and the remaining bytes; [None] on malformed input:
    stray or missing continuation bytes, overlong forms, surrogates and values
    past U+10FFFF. *)
Definition utf8_next (l : bytes) : option (char * bytes) :=
  match l with
  | [] => None
  | b0 :: l0 =>
      if b0 <? 128 then Some (b0, l0)
      else if (194 <=? b0) && (b0 <? 224) then
        match l0 with
        | b1 :: l1 => if is_cont b1 then Some ((b0 - 192) * 64 + (b1 - 128), l1) else None
        | _ => None
        end
      else if (224 <=? b0) && (b0 <? 240) then
        match l0 with
        | b1 :: b2 :: l2 =>
            let c := (b0 - 224) * 4096 + (b1 - 128) * 64 + (b2 - 128) in
            if is_cont b1 && is_cont b2 && (2048 <=? c) && ((c <? 55296) || (57344 <=? c))
            then Some (c, l2) else None
        | _ => None
        end
      else if (240 <=? b0) && (b0 <? 245) then
        match l0 with
        | b1 :: b2 :: b3 :: l3 =>
            let c := (b0 - 240) * 262144 + (b1 - 128) * 4096 + (b2 - 128) * 64 + (b3 - 128) in
            if is_cont b1 && is_cont b2 && is_cont b3 && (65536 <=? c) && (c <? 1114112)
            then Some (c, l3) else None
        | _ => None
        end
      else None
  end.

Fixpoint utf8_decode_fuel (fuel : nat) (l : bytes) : option rstring :=
  match l, fuel with
  | [], _ => Some []
  | _, O => None
  | _, S f => '(c, l') ← utf8_next l; s ← utf8_decode_fuel f l'; Some (c :: s)
  end.

(** [str::from_utf8(l).ok()]; every character consumes at least one byte, so
    the length of the input is fuel enough. *)
Definition utf8_decode (l : bytes) : option rstring := utf8_decode_fuel (length l) l.

Ltac bool_true :=
  repeat match goal with
  | |- context [?a <? ?b] =>
      first [replace (a <? b) with true by (symmetry; apply Z.ltb_lt; zlia)
            |replace (a <? b) with false by (symmetry; apply Z.ltb_ge; zlia)]
  | |- context [?a <=? ?b] =>
      first [replace (a <=? b) with true by (symmetry; apply Z.leb_le; zlia)
            |replace (a <=? b) with false by (symmetry; apply Z.leb_gt; zlia)]
  end.

Lemma utf8_next_char c l : is_scalar c -> utf8_next (utf8_char c ++ l) = Some (c, l).
Proof.
  unfold is_scalar, utf8_char. intros Hc.
  destruct (Z.ltb_spec c 128); [|destruct (Z.ltb_spec c 2048); [|destruct (Z.ltb_spec c 65536)]];
    cbn [app utf8_next]; unfold is_cont.
  - bool_true. done.
  - bool_true. cbn [andb]. do 2 f_equal. zlia.
  - replace ((224 + c / 4096 - 224) * 4096 + (128 + c / 64 mod 64 - 128) * 64
      + (128 + c mod 64 - 128)) with c by zlia.
    bool_true. cbn [andb].
    replace ((c <? 55296) || (57344 <=? c)) with true; [done|].
    symmetry. rewrite orb_true_iff, Z.ltb_lt, Z.leb_le. lia.
  - replace ((240 + c / 262144 - 240) * 262144 + (128 + c / 4096 mod 64 - 128) * 4096
      + (128 + c / 64 mod 64 - 128) * 64 + (128 + c mod 64 - 128)) with c by zlia.
    bool_true. done.
Qed.

Lemma utf8_char_ne c : utf8_char c <> [].
Proof. unfold utf8_char. by repeat case_match. Qed.

Lemma utf8_decode_fuel_encode s f :
  str_ok s -> (length (utf8_encode s) <= f)%nat -> utf8_decode_fuel f (utf8_encode s) = Some s.
Proof.
  intros Hs. revert f. induction Hs as [|c s Hc Hs IH]; intros f Hf; [by destruct f|].
  unfold utf8_encode in *. cbn [List.map concat] in *. fold (utf8_encode s) in *.
  pose proof (utf8_char_ne c). pose proof (utf8_next_char c (utf8_encode s) Hc) as Hn.
  rewrite length_app in Hf.
  destruct (utf8_char c ++ utf8_encode s) as [|b l] eqn:E; [by destruct (utf8_char c)|].
  destruct f as [|f]; [by destruct (utf8_char c); simpl in *; [|lia]|].
  cbn [utf8_decode_fuel]. rewrite Hn. cbn [mbind option_bind].
  rewrite IH; [done|]. destruct (utf8_char c); [done|]. simpl in Hf. lia.
Qed.

Lemma utf8_roundtrip s : str_ok s -> utf8_decode (utf8_encode s) = Some s.
Proof. intros. by apply utf8_decode_fuel_encode. Qed.

Lemma utf8_encode_inj s t : str_ok s -> str_ok t -> utf8_encode s = utf8_encode t -> s = t.
Proof.
  intros Hs Ht H. apply (f_equal utf8_decode) in H. rewrite !utf8_roundtrip in H by done. congruence.
Qed.

Lemma utf8_encode_app s t : utf8_encode (s ++ t) = utf8_encode s ++ utf8_encode t.
Proof. unfold utf8_encode. by rewrite map_app, concat_app. Qed.

Lemma utf8_ascii s : Forall (fun c => 0 <= c < 128) s -> utf8_encode s = s.
Proof.
  induction 1 as [|c s Hc _ IH]; [done|]. unfold utf8_encode in *. cbn [List.map concat].
  rewrite IH. unfold utf8_char. by rewrite (proj2 (Z.ltb_lt _ _)) by lia.
Qed.

Lemma utf8_char_ok c : is_scalar c -> bytes_ok (utf8_char c).
Proof.
  unfold is_scalar, utf8_char. intros Hc. unfold bytes_ok.
  repeat case_match; rewrite ?Z.ltb_lt, ?Z.ltb_ge in *; repeat constructor; zlia.
Qed.

Lemma utf8_encode_ok s : str_ok s -> bytes_ok (utf8_encode s).
Proof.
  induction 1 as [|c s Hc _ IH]; [constructor|]. unfold utf8_encode in *. cbn [List.map concat].
  apply bytes_ok_app. split; [by apply utf8_char_ok|done].
Qed.

(** ** [String::from_utf8_lossy]

    Each maximal ill-formed sequence becomes one U+FFFD.  [bad_len l] is the
    length of the one at the front of [l]: a lead byte and the continuation
    bytes that could still have completed it. *)
Definition second_ok (b0 b1 : byte) : bool :=
  if b0 =? 224 then (160 <=? b1) && (b1 <? 192)
  else if b0 =? 237 then (128 <=? b1) && (b1 <? 160)
  else if b0 =? 240 then (144 <=? b1) && (b1 <? 192)
  else if b0 =? 244 then (128 <=? b1) && (b1 <? 144)
  else is_cont b1.

Definition bad_len (l : bytes) : nat :=
  match l with
  | b0 :: b1 :: l' =>
      if (224 <=? b0) && (b0 <? 245) && second_ok b0 b1 then
        match l' with
        | b2 :: _ => if (240 <=? b0) && is_cont b2 then 3%nat else 2%nat
        | [] => 2%nat
        end
      else 1%nat
  | _ => 1%nat
  end.

Definition replacement_char : char := 65533.

Fixpoint utf8_lossy_fuel (fuel : nat) (l : bytes) : rstring :=
  match l, fuel with
  | [], _ => []
  | _, O => []
  | _, S f =>
      match utf8_next l with
      | Some (c, l') => c :: utf8_lossy_fuel f l'
      | None => replacement_char :: utf8_lossy_fuel f (drop (bad_len l) l)
      end
  end.

(** Every turn drops at least one byte, so the length is fuel enough. *)
Definition utf8_lossy (l : bytes) : rstring := utf8_lossy_fuel (length l) l.

Lemma utf8_lossy_fuel_encode s f :
  str_ok s -> (length (utf8_encode s) <= f)%nat -> utf8_lossy_fuel f (utf8_encode s) = s.
Proof.
  intros Hs. revert f. induction Hs as [|c s Hc Hs IH]; intros f Hf; [by destruct f|].
  unfold utf8_encode in *. cbn [List.map concat] in *. fold (utf8_encode s) in *.
  pose proof (utf8_char_ne c). pose proof (utf8_next_char c (utf8_encode s) Hc) as Hn.
  rewrite length_app in Hf.
  destruct (utf8_char c ++ utf8_encode s) as [|b l] eqn:E; [by destruct (utf8_char c)|].
  destruct f as [|f]; [by destruct (utf8_char c); simpl in *; [|lia]|].
  cbn [utf8_lossy_fuel]. rewrite Hn. f_equal.
  apply IH. destruct (utf8_char c); [done|]. simpl in Hf. lia.
Qed.

Lemma utf8_lossy_encode s : str_ok s -> utf8_lossy (utf8_encode s) = s.
Proof. intros. by apply utf8_lossy_fuel_encode. Qed.

Lemma utf8_next_scalar l c l' : bytes_ok l -> utf8_next l = Some (c, l') -> is_scalar c /\ bytes_ok l'.
Proof.
  unfold utf8_next, is_cont, is_scalar. cbv zeta. intros Hl.
  repeat match goal with
  | H : bytes_ok (_ :: _) |- _ => apply Forall_cons in H as [? H]; unfold is_byte in *
  | |- context [match ?l with [] => _ | _ :: _ => _ end] => destruct l
  | |- context [if ?b then _ else _] => destruct b eqn:?
  end; intros [= <- <-]; rewrite ?andb_true_iff, ?orb_true_iff, ?Z.leb_le, ?Z.ltb_lt, ?Z.ltb_ge in *; (split; [lia|]);
    unfold bytes_ok, is_byte; rewrite ?Forall_cons in *; try tauto; by constructor.
Qed.

Lemma utf8_lossy_ok l : bytes_ok l -> str_ok (utf8_lossy l).
Proof.
  unfold utf8_lossy, str_ok. generalize (length l). intros f. revert l. induction f as [|f IH]; intros l Hl.
  - destruct l; constructor.
  - destruct l as [|b l]; [constructor|]. cbn [utf8_lossy_fuel]. destruct (utf8_next (b :: l)) as [[c l']|] eqn:E.
    + apply utf8_next_scalar in E as [? ?]; [|done]. constructor; auto.
    + constructor; [right; unfold replacement_char; lia|]. apply IH. by apply Forall_drop.
Qed.

(** The literals of the source are valid strings. *)
Lemma str_ok_str s : str_ok (str s).
Proof.
  unfold str_ok, str. apply Forall_forall. intros c (a & <- & _)%list_elem_of_In%in_map_iff.
  pose proof (nat_ascii_bounded a). left. lia.
Qed.

Lemma str_ok_app s t : str_ok (s ++ t) <-> str_ok s /\ str_ok t.
Proof. apply Forall_app. Qed.

#[export] Hint Resolve str_ok_str : iron.
