(* ===== verification/Entry.v ===== *)
(** The stored entry, [crates/store/src/model.rs]: a multi-valued attribute map
    under lower-cased names, and its serialised form as an interface. *)

From S2P Require Import Prelude Bytes Str Btree Utf8.

Record Entry := mkEntry { attrs : list (rstring * list rstring) }.

#[global] Instance Entry_eq_dec : EqDecision Entry.
Proof. solve_decision. Defined.

Definition new : Entry := mkEntry [].

Definition set (e : Entry) (attr : rstring) (values : list rstring) : Entry :=
  mkEntry (bt_insert (to_ascii_lowercase attr) values (attrs e)).

Definition get (e : Entry) (attr : rstring) : option (list rstring) :=
  bt_get (to_ascii_lowercase attr) (attrs e).

(** The push loop of [add_values]. *)
Definition push_missing (have : list rstring) (v : rstring) : list rstring :=
  if bool_decide (v ∈ have) then have else have ++ [v].

Definition add_values (e : Entry) (attr : rstring) (values : list rstring) : Entry :=
  let key := to_ascii_lowercase attr in
  let entry := default [] (bt_get key (attrs e)) in
  mkEntry (bt_insert key (foldl push_missing entry values) (attrs e)).

Definition delete_values (e : Entry) (attr : rstring) (values : list rstring) : Entry :=
  let key := to_ascii_lowercase attr in
  if bool_decide (values = []) then mkEntry (bt_remove key (attrs e))
  else
    match bt_get key (attrs e) with
    | None => e
    | Some have =>
        let kept := List.filter (fun v => negb (bool_decide (v ∈ values))) have in
        if bool_decide (kept = []) then mkEntry (bt_remove key (attrs e))
        else mkEntry (bt_insert key kept (attrs e))
    end.

Definition attr_names (e : Entry) : list rstring := bt_keys (attrs e).

(** ** Serialised form

    [Entry::encode] and [Entry::decode] are [serde_json]; the program relies on
    decoding what it encoded. *)
Record entry_wf (e : Entry) : Prop := {
  ew_map : bt_wf (attrs e);
  ew_lower : Forall (fun kv => to_ascii_lowercase kv.1 = kv.1) (attrs e);
  ew_chars : Forall (fun kv => str_ok kv.1 /\ Forall str_ok kv.2) (attrs e);
}.

Class EntryCodec := {
  json_error : Type;
  encode : Entry -> bytes;
  decode : bytes -> result json_error Entry;
  decode_encode e : entry_wf e -> decode (encode e) = Ok e;
}.

(** ** The invariant is preserved *)

Lemma str_ok_lower s : str_ok s -> str_ok (to_ascii_lowercase s).
Proof.
  unfold str_ok, to_ascii_lowercase. intros H. apply Forall_fmap. eapply Forall_impl; [exact H|].
  intros c. unfold is_scalar, ascii_lower. simpl. destruct (_ && _) eqn:E; [|done].
  rewrite andb_true_iff, !Z.leb_le in E. lia.
Qed.

Lemma bt_insert_Forall2 {V} (P : rstring * V -> Prop) k v m :
  P (k, v) -> Forall P m -> Forall P (bt_insert k v m).
Proof.
  intros Hk. induction 1 as [|[k' v'] m Hk' Hm IH]; cbn [bt_insert]; [by constructor|].
  destruct (kcmp k k'); repeat constructor; auto.
Qed.

Lemma bt_remove_Forall {V} (P : rstring * V -> Prop) k m :
  Forall P m -> Forall P (bt_remove k m).
Proof. rewrite !Forall_forall. intros H p Hp%bt_remove_incl. auto. Qed.

Lemma entry_new_wf : entry_wf new.
Proof. by repeat constructor. Qed.

Lemma entry_insert_wf e k vs :
  entry_wf e -> to_ascii_lowercase k = k -> str_ok k -> Forall str_ok vs ->
  entry_wf (mkEntry (bt_insert k vs (attrs e))).
Proof.
  intros [] Hl Hk Hvs. constructor; simpl; auto using bt_insert_wf, bt_insert_Forall2.
Qed.

Lemma remove_wf e k : entry_wf e -> entry_wf (mkEntry (bt_remove k (attrs e))).
Proof. intros []. constructor; simpl; auto using bt_remove_wf, bt_remove_Forall. Qed.

Lemma entry_set_wf e a vs : entry_wf e -> str_ok a -> Forall str_ok vs -> entry_wf (set e a vs).
Proof. intros. apply entry_insert_wf; auto using to_ascii_lowercase_idem, str_ok_lower. Qed.

Lemma entry_values_ok e k vs : entry_wf e -> bt_get k (attrs e) = Some vs -> Forall str_ok vs.
Proof.
  intros [Hm _ Hc] H. apply bt_get_In in H; [|done]. rewrite Forall_forall in Hc.
  by destruct (Hc _ H).
Qed.

Lemma foldl_push_elem vs have v : v ∈ foldl push_missing have vs <-> v ∈ have \/ v ∈ vs.
Proof.
  revert have; induction vs as [|x vs IH]; intros have; simpl; [set_solver|].
  rewrite IH. unfold push_missing. case_bool_decide; set_solver.
Qed.

Lemma foldl_push_NoDup vs have : NoDup have -> NoDup (foldl push_missing have vs).
Proof.
  revert have; induction vs as [|x vs IH]; intros have Hnd; simpl; [done|]. apply IH.
  unfold push_missing. case_bool_decide; [done|]. apply NoDup_app. split; [done|].
  split; [set_solver|]. apply NoDup_singleton.
Qed.

Lemma add_values_wf e a vs : entry_wf e -> str_ok a -> Forall str_ok vs -> entry_wf (add_values e a vs).
Proof.
  intros He Ha Hvs. apply entry_insert_wf; auto using to_ascii_lowercase_idem, str_ok_lower.
  apply Forall_forall. intros v. rewrite foldl_push_elem. intros [Hv|Hv].
  - destruct (bt_get _ _) as [have|] eqn:E; simpl in Hv; [|by apply elem_of_nil in Hv].
    apply entry_values_ok in E; [|done]. rewrite Forall_forall in E. auto.
  - rewrite Forall_forall in Hvs. auto.
Qed.

Lemma delete_values_wf e a vs : entry_wf e -> str_ok a -> entry_wf (delete_values e a vs).
Proof.
  intros He Ha. unfold delete_values. case_bool_decide; [by apply remove_wf|].
  destruct (bt_get _ _) as [have|] eqn:E; [|done].
  case_bool_decide; [by apply remove_wf|].
  apply entry_insert_wf; auto using to_ascii_lowercase_idem, str_ok_lower.
  apply entry_values_ok in E; [|done]. rewrite Forall_forall in *.
  intros v [Hv _]%list_elem_of_In%filter_In. apply E. by apply list_elem_of_In.
Qed.

(** ** What the operations do *)

Lemma get_set e a b vs :
  get (set e a vs) b =
    if eq_ignore_ascii_case a b then Some vs else get e b.
Proof.
  unfold get, set, eq_ignore_ascii_case; simpl. case_bool_decide as E.
  - rewrite E. apply bt_get_insert_eq.
  - by apply bt_get_insert_ne.
Qed.

Lemma get_add_values e a b vs :
  get (add_values e a vs) b =
    if eq_ignore_ascii_case a b then Some (foldl push_missing (default [] (get e a)) vs) else get e b.
Proof.
  unfold get, add_values, eq_ignore_ascii_case; simpl. case_bool_decide as E.
  - rewrite <- E. apply bt_get_insert_eq.
  - by apply bt_get_insert_ne.
Qed.

Lemma get_delete_values e a b vs :
  entry_wf e ->
  get (delete_values e a vs) b =
    if eq_ignore_ascii_case a b then
      if bool_decide (vs = []) then None
      else match get e a with
           | None => None
           | Some have =>
               match List.filter (fun v => negb (bool_decide (v ∈ vs))) have with
               | [] => None
               | kept => Some kept
               end
           end
    else get e b.
Proof.
  intros [Hwf _ _]. unfold get, delete_values, eq_ignore_ascii_case.
  case_bool_decide as Hv; simpl.
  - case_bool_decide as E; [rewrite <- E; by apply bt_get_remove_eq|by apply bt_get_remove_ne].
  - destruct (bt_get (to_ascii_lowercase a) (attrs e)) as [have|] eqn:Eg; simpl.
    + destruct (List.filter _ have) as [|k ks] eqn:Ef; simpl;
        (case_bool_decide as E; [rewrite <- E|]).
      * by apply bt_get_remove_eq.
      * by apply bt_get_remove_ne.
      * apply bt_get_insert_eq.
      * by apply bt_get_insert_ne.
    + case_bool_decide as E; [by rewrite <- E|done].
Qed.

Lemma attr_name_get e name : entry_wf e -> name ∈ attr_names e -> exists vs, get e name = Some vs.
Proof.
  intros [Hm Hl _] Hin. unfold attr_names, bt_keys in Hin. apply list_elem_of_In, in_map_iff in Hin as ([k vs] & <- & Hin).
  exists vs. unfold get. cbn [fst]. apply list_elem_of_In in Hin. rewrite Forall_forall in Hl. specialize (Hl _ Hin).
  cbn [fst] in Hl. rewrite Hl. by apply bt_get_In.
Qed.

(** Everything the program does to an entry. *)
Inductive edit :=
| EditSet (attr : rstring) (values : list rstring)
| EditAdd (attr : rstring) (values : list rstring)
| EditDelete (attr : rstring) (values : list rstring).

Definition apply_edit (e : Entry) (ed : edit) : Entry :=
  match ed with
  | EditSet a vs => set e a vs
  | EditAdd a vs => add_values e a vs
  | EditDelete a vs => delete_values e a vs
  end.

Definition edit_ok (ed : edit) : Prop :=
  match ed with EditSet a vs | EditAdd a vs | EditDelete a vs => str_ok a /\ Forall str_ok vs end.


(** The attribute map obeys LDAP's case-insensitive, set-like semantics:
    [set] replaces, [add_values] adds exactly the missing values and never a
    duplicate, [delete_values] removes exactly the listed values (or the
    attribute), drops an attribute that becomes empty, and none of them touches
    another attribute. *)
Theorem entry_operations e a b vs :
  entry_wf e ->
  get (set e a vs) b = (if eq_ignore_ascii_case a b then Some vs else get e b) /\
  (exists all, get (add_values e a vs) b = (if eq_ignore_ascii_case a b then Some all else get e b)
     /\ (forall v, v ∈ all <-> v ∈ default [] (get e a) \/ v ∈ vs)
     /\ (NoDup (default [] (get e a)) -> NoDup all)) /\
  (eq_ignore_ascii_case a b = false -> get (delete_values e a vs) b = get e b) /\
  (forall v, v ∈ default [] (get (delete_values e a vs) a) <->
             vs <> [] /\ v ∈ default [] (get e a) /\ v ∉ vs) /\
  get (delete_values e a vs) a <> Some [].
Proof.
  intros He. split; [apply get_set|]. split; [|split; [|split]].
  - eexists. split; [apply get_add_values|]. split; [apply foldl_push_elem|].
    apply foldl_push_NoDup.
  - intros Hne. rewrite get_delete_values by done. by rewrite Hne.
  - intros v. rewrite get_delete_values by done.
    unfold eq_ignore_ascii_case. rewrite bool_decide_true by done.
    case_bool_decide as Hvs; simpl; [split; [by intros ?%elem_of_nil|naive_solver]|].
    destruct (get e a) as [have|]; simpl; [|split; [by intros ?%elem_of_nil|set_solver]].
    rewrite (list_elem_of_In have v).
    pose proof (filter_In (fun v => negb (bool_decide (v ∈ vs))) v have) as Hf.
    rewrite negb_true_iff, bool_decide_eq_false in Hf.
    destruct (List.filter _ have) as [|k ks]; simpl; rewrite list_elem_of_In; naive_solver.
  - rewrite get_delete_values by done. unfold eq_ignore_ascii_case.
    rewrite bool_decide_true by done. by repeat case_match.
Qed.

Definition entry_example : Entry :=
  set (set new (str "objectClass") [str "user"]) (str "CN") [str "Alice"; str "Al"].

Lemma entry_example_wf : entry_wf entry_example.
Proof.
  unfold entry_example. repeat apply entry_set_wf; auto using entry_new_wf, str_ok_str.
Qed.

Lemma entry_operations_witness :
  get (delete_values entry_example (str "cn") [str "Al"]) (str "cN") = Some [str "Alice"] /\
  get (delete_values entry_example (str "cn") [str "Al"]) (str "cN") <> Some [].
Proof.
  split; [by vm_compute|].
  apply (entry_operations entry_example (str "cN") (str "cN") [str "Al"] entry_example_wf).
Defined.

(** A concrete codec: the attribute map as a bit string.  It stands for no part
    of the program; it shows that [EntryCodec] can be implemented and makes
    examples executable. *)
Fixpoint pos_bits (p : positive) : bytes :=
  match p with xI p' => 1 :: pos_bits p' | xO p' => 0 :: pos_bits p' | xH => [] end.
Fixpoint bits_pos (l : bytes) : positive :=
  match l with [] => xH | b :: l' => if b =? 1 then xI (bits_pos l') else xO (bits_pos l') end.

Lemma bits_pos_bits p : bits_pos (pos_bits p) = p.
Proof. induction p; simpl; by rewrite ?IHp. Qed.

#[program] Definition bit_codec : EntryCodec := {|
  json_error := unit;
  encode e := pos_bits (countable.encode (attrs e));
  decode l := match countable.decode (bits_pos l) with Some a => Ok (mkEntry a) | None => Err tt end;
|}.
Next Obligation. intros [a] _. simpl. by rewrite bits_pos_bits, countable.decode_encode. Qed.

