(* ===== verification/Etcd.v ===== *)
(** The etcd v3 service as an interface: requests, replies and what a server
    may answer.  Code that talks to the store is a [prog], a tree of requests
    with a continuation per reply, so that one definition has a sequential
    semantics ([runs]), an executable one against a reference server ([exec])
    and an interleaved one for several processes ([step]).

    All clusters together are one finite map: every key starts with the id of
    its partition, so partitions on different clusters never share a key. *)

From Stdlib Require Import Eqdep_dec.
From S2P Require Import Prelude Bytes Str Btree.

(** ** Requests *)

Inductive EtcdError :=
| GRpcStatus (code : Z)
| InvalidUtf8
| OtherError.

(** [Compare::version(k, Equal, 0)], [Compare::create_revision(k, Equal, 0)]
    and [Compare::value(k, Equal, v)]. *)
Inductive compare :=
| VersionZero (key : rstring)
| CreateRevisionZero (key : rstring)
| ValueEqual (key : rstring) (value : bytes).

Inductive txn_op :=
| OpPut (key : rstring) (value : bytes)
| OpDelete (key : rstring).

(** [Random n] asks the DRBG for [n] random bytes, [Now] for the
    time in nanoseconds since 1970. *)
Inductive request :=
| Get (key : rstring) (prefix : bool)
| Put (key : rstring) (value : bytes)
| Txn (when : list compare) (and_then : list txn_op)
| Random (n : nat)
| Now.

Definition reply (r : request) : Type :=
  match r with
  | Get _ _ => result EtcdError (list (rstring * bytes))
  | Put _ _ => result EtcdError unit
  | Txn _ _ => result EtcdError bool
  | Random _ => option bytes
  | Now => Z
  end.

#[global] Instance EtcdError_eq_dec : EqDecision EtcdError.
Proof. solve_decision. Defined.
#[global] Instance compare_eq_dec : EqDecision compare.
Proof. solve_decision. Defined.
#[global] Instance txn_op_eq_dec : EqDecision txn_op.
Proof. solve_decision. Defined.
#[global] Instance request_eq_dec : EqDecision request.
Proof. solve_decision. Defined.

Abbreviation kvstore := (gmap (list Z) (list Z)).

(** ** What the service does *)

(** A key that does not exist has version and create revision 0. *)
Definition compare_holds (m : kvstore) (c : compare) : bool :=
  match c with
  | VersionZero k | CreateRevisionZero k => bool_decide (m !! k = None)
  | ValueEqual k v => bool_decide (m !! k = Some v)
  end.

Definition apply_op (m : kvstore) (o : txn_op) : kvstore :=
  match o with
  | OpPut k v => <[k := v]> m
  | OpDelete k => delete k m
  end.

Definition apply_ops (ops : list txn_op) (m : kvstore) : kvstore := foldl apply_op m ops.

(** A range read returns the pairs in key order. *)
Definition read (m : kvstore) (key : rstring) (prefix : bool) : list (rstring * bytes) :=
  if prefix then
    sort_by fst (List.filter (fun kv => starts_with key kv.1) (map_to_list m))
  else match m !! key with Some v => [(key, v)] | None => [] end.

(** The replies a server may give: the right one, or an error.  A failed read
    changes nothing; a failed write may or may not have been committed. *)
Definition served (m : kvstore) (r : request) : reply r -> kvstore -> Prop :=
  match r with
  | Get k p => fun rep m' => m' = m /\ (rep = Ok (read m k p) \/ exists e, rep = Err e)
  | Put k v => fun rep m' =>
      (rep = Ok tt /\ m' = <[k := v]> m) \/
      (exists e, rep = Err e /\ (m' = m \/ m' = <[k := v]> m))
  | Txn cs ops => fun rep m' =>
      let holds := forallb (compare_holds m) cs in
      let post := if holds then apply_ops ops m else m in
      (rep = Ok holds /\ m' = post) \/ (exists e, rep = Err e /\ (m' = m \/ m' = post))
  | Random n => fun rep m' => m' = m /\ (rep = None \/ exists b, rep = Some b /\ length b = n /\ bytes_ok b)
  | Now => fun _ m' => m' = m
  end.

(** ** Programs *)

Inductive prog (A : Type) : Type :=
| Ret (a : A)
| Call (r : request) (k : reply r -> prog A).
Arguments Ret {A} a.
Arguments Call {A} r k.

Fixpoint prog_bind_ {A B} (f : A -> prog B) (p : prog A) : prog B :=
  match p with
  | Ret a => f a
  | Call r k => Call r (fun rep => prog_bind_ f (k rep))
  end.

#[global] Instance prog_ret : MRet prog := fun A a => Ret a.
#[global] Instance prog_bind : MBind prog := fun A B f p => prog_bind_ f p.

(** [m.await?] followed by the rest of the function. *)
Definition try_bind {E A B} (m : prog (result E A)) (f : A -> prog (result E B)) : prog (result E B) :=
  prog_bind_ (fun r => match r with Ok a => f a | Err e => Ret (Err e) end) m.

(** [m.await.map_err(f)]. *)
Definition prog_map_err {E F A} (f : E -> F) (m : prog (result E A)) : prog (result F A) :=
  prog_bind_ (fun r => Ret (map_err f r)) m.

Declare Scope prog_scope.
Delimit Scope prog_scope with prog.
Notation "x <-? m ;; k" := (try_bind m (fun x => k))
  (at level 100, m at next level, right associativity) : prog_scope.
Notation "' pat <-? m ;; k" := (try_bind m (fun x => match x with pat => k end))
  (at level 100, pat pattern, m at next level, right associativity) : prog_scope.
Open Scope prog_scope.

(** A pure result inside a program. *)
Definition lift {E A} (m : result E A) : prog (result E A) := Ret m.

(** [runs p m a m']: run alone from store [m], the program may end with [a] in
    store [m']. *)
Fixpoint runs {A} (p : prog A) (m : kvstore) (a : A) (m' : kvstore) : Prop :=
  match p with
  | Ret x => a = x /\ m' = m
  | Call r k => exists rep m1, served m r rep m1 /\ runs (k rep) m1 a m'
  end.

(** The reference server: no failures, the random bytes of [rnd], and a clock
    that stands at 0. *)
Definition serve (rnd : nat -> bytes) (m : kvstore) (r : request) : reply r * kvstore :=
  match r return reply r * kvstore with
  | Get k p => (Ok (read m k p), m)
  | Put k v => (Ok tt, <[k := v]> m)
  | Txn cs ops =>
      let holds := forallb (compare_holds m) cs in
      (Ok holds, if holds then apply_ops ops m else m)
  | Random n => (Some (rnd n), m)
  | Now => (0, m)
  end.

Fixpoint exec {A} (rnd : nat -> bytes) (p : prog A) (m : kvstore) : A * kvstore :=
  match p with
  | Ret a => (a, m)
  | Call r k => let '(rep, m') := serve rnd m r in exec rnd (k rep) m'
  end.

Definition zeros (n : nat) : bytes := repeat 0 n.

(** ** Interleaving

    A configuration is the store and the processes; a step serves the pending
    request of one of them. *)
Record config (A : Type) := mkConfig { cfg_store : kvstore; cfg_procs : list (prog A) }.
Arguments mkConfig {A} _ _.
Arguments cfg_store {A} _.
Arguments cfg_procs {A} _.

Inductive step {A} : config A -> config A -> Prop :=
| step_call m ps i r k rep m' :
    ps !! i = Some (Call r k) -> served m r rep m' ->
    step (mkConfig m ps) (mkConfig m' (<[i := k rep]> ps)).

(** ** Laws *)

Lemma Call_inj {A} r (k k' : reply r -> prog A) : Call r k = Call r k' -> k = k'.
Proof. intros H. injection H as H. by apply (inj_pair2_eq_dec _ request_eq_dec) in H. Qed.

Lemma serve_served rnd m r :
  (forall n, length (rnd n) = n /\ bytes_ok (rnd n)) -> served m r (serve rnd m r).1 (serve rnd m r).2.
Proof. intros Hr. destruct r as [| | |n|]; simpl; eauto 6. Qed.

Lemma step_serve {A} rnd m (ps : list (prog A)) i r k :
  (forall n, length (rnd n) = n /\ bytes_ok (rnd n)) -> ps !! i = Some (Call r k) ->
  step (mkConfig m ps) (mkConfig (serve rnd m r).2 (<[i := k (serve rnd m r).1]> ps)).
Proof. intros Hr Hi. econstructor; [exact Hi|]. by apply serve_served. Qed.

Lemma rtc_step_zlen {A} (a b : config A) : rtc step a b -> zlen (cfg_procs b) = zlen (cfg_procs a).
Proof.
  induction 1 as [|x y z [] _ IH]; [done|]. rewrite IH. simpl. unfold zlen. by rewrite length_insert.
Qed.

Lemma exec_runs {A} rnd (p : prog A) m :
  (forall n, length (rnd n) = n /\ bytes_ok (rnd n)) -> runs p m (exec rnd p m).1 (exec rnd p m).2.
Proof.
  intros Hr. revert m; induction p as [a|r k IH]; intros m; simpl; [done|].
  pose proof (serve_served rnd m r Hr) as Hs. destruct (serve rnd m r) as [rep m'].
  exists rep, m'. auto.
Qed.

Lemma zeros_ok n : length (zeros n) = n /\ bytes_ok (zeros n).
Proof.
  split; [apply repeat_length|]. unfold zeros, bytes_ok. induction n; simpl; constructor; auto.
  by unfold is_byte.
Qed.

Lemma runs_bind {A B} (f : A -> prog B) p m b m' :
  runs (prog_bind_ f p) m b m' <-> exists a m1, runs p m a m1 /\ runs (f a) m1 b m'.
Proof.
  revert m; induction p as [a|r k IH]; intros m; simpl.
  - split; [eauto|]. by intros (? & ? & [-> ->] & ?).
  - split.
    + intros (rep & m1 & Hs & (a & m2 & ? & ?)%IH). eauto 10.
    + intros (a & m1 & (rep & m2 & Hs & Hr) & Hf). exists rep, m2. split; [done|]. apply IH. eauto.
Qed.

Lemma runs_try {E A B} (f : A -> prog (result E B)) (p : prog (result E A)) m b m' :
  runs (try_bind p f) m b m' <->
  (exists e, runs p m (Err e) m' /\ b = Err e) \/
  (exists a m1, runs p m (Ok a) m1 /\ runs (f a) m1 b m').
Proof.
  unfold try_bind. rewrite runs_bind. split.
  - intros ([a|e] & m1 & Hp & Hf); [eauto 10|]. simpl in Hf. destruct Hf as [-> ->]. eauto.
  - intros [(e & Hp & ->)|(a & m1 & Hp & Hf)]; [|eauto].
    exists (Err e), m'. split; [done|]. by simpl.
Qed.

Lemma runs_map_err {E F A} (f : E -> F) (p : prog (result E A)) m b m' :
  runs (prog_map_err f p) m b m' <-> exists r, runs p m r m' /\ b = map_err f r.
Proof.
  unfold prog_map_err. rewrite runs_bind. simpl. split.
  - intros (r & m1 & Hp & -> & ->). eauto.
  - intros (r & Hp & ->). eauto.
Qed.

Lemma runs_lift {E A B} (r : result E A) (f : A -> prog (result E B)) m b m' :
  runs (try_bind (lift r) f) m b m' <->
  match r with Ok a => runs (f a) m b m' | Err e => b = Err e /\ m' = m end.
Proof. by destruct r. Qed.

(** *** Readings of the clock

    A run all of whose readings of the clock satisfy [T]. *)
Definition reading (T : Z -> Prop) (r : request) : reply r -> Prop :=
  match r with Now => fun t => T t | _ => fun _ => True end.

Fixpoint runs_at {A} (T : Z -> Prop) (p : prog A) (m : kvstore) (a : A) (m' : kvstore) : Prop :=
  match p with
  | Ret x => a = x /\ m' = m
  | Call r k => exists rep m1, served m r rep m1 /\ reading T r rep /\ runs_at T (k rep) m1 a m'
  end.

Lemma runs_at_runs {A} T (p : prog A) m a m' : runs_at T p m a m' -> runs p m a m'.
Proof. revert m. induction p as [x|r k IH]; intros m; [done|]. intros (rep & m1 & Hs & _ & Hr). exists rep, m1. auto. Qed.

Lemma runs_at_bind {A B} T (f : A -> prog B) p m b m' :
  runs_at T (prog_bind_ f p) m b m' <-> exists a m1, runs_at T p m a m1 /\ runs_at T (f a) m1 b m'.
Proof.
  revert m. induction p as [x|r k IH]; intros m; cbn [prog_bind_ runs_at].
  - split; [intros Hr; by exists x, m|]. by intros (a & m1 & [-> ->] & Hr).
  - setoid_rewrite IH. naive_solver.
Qed.

Lemma exec_runs_at {A} (T : Z -> Prop) rnd (p : prog A) m :
  T 0 -> (forall n, length (rnd n) = n /\ bytes_ok (rnd n)) -> runs_at T p m (exec rnd p m).1 (exec rnd p m).2.
Proof.
  intros HT Hr. revert m. induction p as [a|r k IH]; intros m; cbn [exec runs_at]; [done|].
  destruct (serve rnd m r) as [rep m1] eqn:Hs. exists rep, m1. pose proof (serve_served rnd m r Hr) as Hsv.
  rewrite Hs in Hsv. split; [done|]. split; [|apply IH]. destruct r; try done. cbn in Hs. by injection Hs as <- <-.
Qed.

(** ** Specifications of programs that can return early

    Run from [m], every result satisfies [Q] and every early return [I]. *)
Definition wp {E A : Type} (I : E -> kvstore -> Prop) (p : prog (result E A)) (Q : A -> kvstore -> Prop) (m : kvstore) : Prop :=
  forall r m', runs p m r m' -> match r with Ok a => Q a m' | Err e => I e m' end.

Section wp.
  Context {E : Type} (I : E -> kvstore -> Prop).
  Implicit Types (m : kvstore).

Lemma wp_ret {A : Type} (a : A) Q m : Q a m -> wp I (Ret (Ok a)) Q m.
Proof. by intros HQ r m' [-> ->]. Qed.

Lemma wp_err {A : Type} (e : E) (Q : A -> kvstore -> Prop) m : I e m -> wp I (Ret (Err e)) Q m.
Proof. by intros HI r m' [-> ->]. Qed.

Lemma wp_lift {A : Type} (x : result E A) Q m :
  match x with Ok a => Q a m | Err e => I e m end -> wp I (lift x) Q m.
Proof. by intros HQ r m' [-> ->]. Qed.

Lemma wp_try {A B : Type} (p : prog (result E A)) (f : A -> prog (result E B)) Q R m :
  wp I p Q m -> (forall a m1, Q a m1 -> wp I (f a) R m1) -> wp I (try_bind p f) R m.
Proof.
  intros Hp Hf r m' [(e & Hr & ->)|(a & m1 & Hr & Hr')]%runs_try; apply Hp in Hr; [done|]. by eapply Hf.
Qed.

Lemma wp_try_ok {A B : Type} (x : result E A) a (f : A -> prog (result E B)) R m :
  x = Ok a -> wp I (f a) R m -> wp I (try_bind (lift x) f) R m.
Proof. by intros ->. Qed.

Lemma wp_map_err {E' A : Type} (g : E' -> E) (p : prog (result E' A)) Q m :
  wp (fun e => I (g e)) p Q m -> wp I (prog_map_err g p) Q m.
Proof. intros Hp r m' (x & Hx & ->)%runs_map_err. apply Hp in Hx. by destruct x. Qed.

Lemma wp_mono {A : Type} (p : prog (result E A)) (Q R : A -> kvstore -> Prop) m :
  wp I p Q m -> (forall a m', Q a m' -> R a m') -> wp I p R m.
Proof. intros Hp HQ r m' Hr. specialize (Hp r m' Hr). destruct r; auto. Qed.
End wp.

Lemma read_prefix_elem m p k v :
  (k, v) ∈ read m p true <-> m !! k = Some v /\ starts_with p k = true.
Proof.
  unfold read. rewrite sort_by_perm, list_elem_of_In, filter_In, <- list_elem_of_In.
  by rewrite elem_of_map_to_list.
Qed.

Lemma read_prefix_sorted m p : sorted_by fst (read m p true).
Proof. apply sort_by_sorted. Qed.

Lemma filter_keys {A B : Type} (f : A * B -> bool) (l : list (A * B)) : NoDup l.*1 -> NoDup (List.filter f l).*1.
Proof.
  induction l as [|x l IH]; cbn; [done|]. intros [Hx Hl]%NoDup_cons. destruct (f x); [|auto]. cbn. apply NoDup_cons. split; [|auto].
  intros (y & Hy & Hin)%list_elem_of_fmap. apply Hx, list_elem_of_fmap. exists y. split; [done|].
  apply list_elem_of_In, filter_In in Hin as [Hin _]. by apply list_elem_of_In.
Qed.

Lemma read_prefix_keys m p : NoDup (read m p true).*1.
Proof. unfold read. rewrite sort_by_perm. apply filter_keys, NoDup_fst_map_to_list. Qed.

Lemma read_prefix_NoDup m p : NoDup (read m p true).
Proof.
  unfold read. rewrite sort_by_perm. apply NoDup_ListNoDup, List.NoDup_filter, NoDup_ListNoDup.
  apply NoDup_map_to_list.
Qed.

Lemma apply_ops_app a b m : apply_ops (a ++ b) m = apply_ops b (apply_ops a m).
Proof. apply foldl_app. Qed.

(** Writing the same value under each of a list of keys, and deleting them. *)
Lemma lookup_puts (ks : list rstring) v m k :
  apply_ops (List.map (fun k => OpPut k v) ks) m !! k =
  if bool_decide (k ∈ ks) then Some v else m !! k.
Proof.
  revert m; induction ks as [|k' ks IH]; intros m; cbn [List.map apply_ops foldl].
  - rewrite bool_decide_false by apply not_elem_of_nil. done.
  - change (foldl apply_op ?x ?l) with (apply_ops l x). rewrite IH. cbn [apply_op].
    destruct (decide (k = k')) as [->|Hne].
    + rewrite lookup_insert_eq. rewrite (bool_decide_true (k' ∈ k' :: ks)) by set_solver.
      by case_bool_decide.
    + rewrite lookup_insert_ne by done. repeat case_bool_decide; set_solver.
Qed.

Lemma lookup_deletes (ks : list rstring) m k :
  apply_ops (List.map OpDelete ks) m !! k = if bool_decide (k ∈ ks) then None else m !! k.
Proof.
  revert m; induction ks as [|k' ks IH]; intros m; cbn [List.map apply_ops foldl].
  - rewrite bool_decide_false by apply not_elem_of_nil. done.
  - change (foldl apply_op ?x ?l) with (apply_ops l x). rewrite IH. cbn [apply_op].
    destruct (decide (k = k')) as [->|Hne].
    + rewrite lookup_delete_eq. rewrite (bool_decide_true (k' ∈ k' :: ks)) by set_solver.
      by case_bool_decide.
    + rewrite lookup_delete_ne by done. repeat case_bool_decide; set_solver.
Qed.

(** ** Reads with retries, [crates/store/src/lib.rs] *)

Definition GRPC_UNAVAILABLE : Z := 14.

(** [n] more attempts after the first while the service is unavailable; the
    sleeps between them are not observable here. *)
Fixpoint get_attempts (n : nat) (key : rstring) (prefix : bool)
    : prog (result EtcdError (list (rstring * bytes))) :=
  match n with
  | O => Call (Get key prefix) Ret
  | S n' =>
      Call (Get key prefix) (fun rep =>
        match rep with
        | Err (GRpcStatus code) =>
            if code =? GRPC_UNAVAILABLE then get_attempts n' key prefix else Ret (Err (GRpcStatus code))
        | other => Ret other
        end)
  end.

Definition get (key : rstring) (prefix : bool) : prog (result EtcdError (list (rstring * bytes))) :=
  get_attempts 5 key prefix.

Lemma get_attempts_runs n key prefix m rep m' :
  runs (get_attempts n key prefix) m rep m' ->
  m' = m /\ (rep = Ok (read m key prefix) \/ exists e, rep = Err e).
Proof.
  revert m; induction n as [|n IH]; intros m; simpl.
  - intros (r & m1 & [-> Hr] & -> & ->). auto.
  - intros (r & m1 & [-> Hr] & Hk). destruct Hr as [->|[e ->]].
    + destruct Hk as [-> ->]. auto.
    + destruct e; simpl in Hk; [destruct (code =? GRPC_UNAVAILABLE); [by apply IH|]|..];
        destruct Hk as [-> ->]; eauto.
Qed.

Lemma get_runs key prefix m rep m' :
  runs (get key prefix) m rep m' ->
  m' = m /\ (rep = Ok (read m key prefix) \/ exists e, rep = Err e).
Proof. apply get_attempts_runs. Qed.

(** ** Running against the reference server *)

Lemma exec_bind {A B} rnd (f : A -> prog B) p m :
  exec rnd (prog_bind_ f p) m = let '(a, m1) := exec rnd p m in exec rnd (f a) m1.
Proof.
  revert m; induction p as [a|r k IH]; intros m; simpl; [done|].
  destruct (serve rnd m r). apply IH.
Qed.

Lemma exec_try {E A B} rnd (f : A -> prog (result E B)) (p : prog (result E A)) m :
  exec rnd (try_bind p f) m =
    let '(r, m1) := exec rnd p m in
    match r with Ok a => exec rnd (f a) m1 | Err e => (Err e, m1) end.
Proof.
  unfold try_bind. rewrite exec_bind. destruct (exec rnd p m) as [[a|e] m1]; done.
Qed.

Lemma exec_map_err {E F A} rnd (f : E -> F) (p : prog (result E A)) m :
  exec rnd (prog_map_err f p) m = let '(r, m1) := exec rnd p m in (map_err f r, m1).
Proof. unfold prog_map_err. rewrite exec_bind. by destruct (exec rnd p m). Qed.

Lemma exec_get rnd k p m : exec rnd (get k p) m = (Ok (read m k p), m).
Proof. done. Qed.
