(* ===== verification/Index.v ===== *)
(** Entries and their secondary indexes in the store, [crates/store/src/index.rs]
    and [crates/store/src/entry.rs], and the refinement of the two key ranges of
    a partition to one abstract directory. *)

From S2P Require Import Prelude Bytes Str Btree Utf8 Dn Partition Key Entry Etcd.

(** [StoreError]; [J] is the error type of the JSON decoder. *)
Inductive StoreError (J : Type) :=
| EtcdErr (e : EtcdError)
| TlsFile (path : rstring)
| EntryDecode (e : J)
| PartitionErr (e : PartitionError)
| NoPartitionFor (dn : rstring)
| NotConnected (pid : rstring)
| RidPoolCorrupt (pid : rstring) (value : rstring).
Arguments EtcdErr {J} e.
Arguments TlsFile {J} path.
Arguments EntryDecode {J} e.
Arguments PartitionErr {J} e.
Arguments NoPartitionFor {J} dn.
Arguments NotConnected {J} pid.
Arguments RidPoolCorrupt {J} pid value.

(** [IndexSpec]: the indexed attributes, lower-cased. *)
Abbreviation IndexSpec := (list (list Z)) (only parsing).
Definition IndexSpec_new (attrs : list rstring) : IndexSpec := List.map to_ascii_lowercase attrs.

Section operations.
  Context `{EntryCodec}.
  Local Abbreviation sres A := (result (StoreError json_error) A).

Definition index_keys_for (pid : PartitionId) (dn : Dn) (entry : Entry) (spec : IndexSpec) : list rstring :=
  concat (List.map (fun attr =>
    match Entry.get entry attr with
    | Some values => List.map (fun v => index_key pid attr v dn) values
    | None => []
    end) spec).

(** [kv.value_str()]. *)
Definition value_str (v : bytes) : sres rstring := ok_or (EtcdErr InvalidUtf8) (utf8_decode v).

Definition read_entry (pid : PartitionId) (dn : Dn) : prog (sres (option Entry)) :=
  resp <-? prog_map_err EtcdErr (get (entry_key pid dn) false) ;;
  Ret (match resp with
       | kv :: _ => Some <$> map_err EntryDecode (decode kv.2)
       | [] => Ok None
       end).

Definition etcd_txn (cs : list compare) (ops : list txn_op) : prog (sres bool) :=
  Call (Txn cs ops) (fun rep => Ret (map_err EtcdErr rep)).

Definition put_entry_indexed (pid : PartitionId) (dn : Dn) (entry : Entry) (spec : IndexSpec) : prog (sres unit) :=
  old <-? read_entry pid dn ;;
  let new_keys := index_keys_for pid dn entry spec in
  let old_keys := match old with Some e => index_keys_for pid dn e spec | None => [] end in
  let ops :=
    List.map OpDelete (List.filter (fun k => negb (bool_decide (k ∈ new_keys))) old_keys)
    ++ [OpPut (entry_key pid dn) (encode entry)]
    ++ List.map (fun k => OpPut k (utf8_encode (to_string dn))) new_keys in
  _ <-? etcd_txn [] ops ;;
  Ret (Ok tt).

Definition create_entry_indexed (pid : PartitionId) (dn : Dn) (entry : Entry) (spec : IndexSpec) : prog (sres bool) :=
  let ops := OpPut (entry_key pid dn) (encode entry)
    :: List.map (fun k => OpPut k (utf8_encode (to_string dn))) (index_keys_for pid dn entry spec) in
  etcd_txn [VersionZero (entry_key pid dn)] ops.

Definition delete_entry_indexed (pid : PartitionId) (dn : Dn) (spec : IndexSpec) : prog (sres unit) :=
  old <-? read_entry pid dn ;;
  match old with
  | None => Ret (Ok tt)
  | Some old =>
      let old_keys := index_keys_for pid dn old spec in
      _ <-? etcd_txn [] (OpDelete (entry_key pid dn) :: List.map OpDelete old_keys) ;;
      Ret (Ok tt)
  end.

Definition lookup_by_index (pid : PartitionId) (attr value : rstring) : prog (sres (list Dn)) :=
  let prefix := index_prefix pid attr value in
  resp <-? prog_map_err EtcdErr (get prefix true) ;;
  Ret (try_map (fun kv => s ← value_str kv.2; map_err PartitionErr (parse s)) resp).

(** The raw operations of [entry.rs]. *)
Definition dn_from_tree_key (pid : PartitionId) (raw_key : rstring) : sres Dn :=
  suffix ← ok_or (PartitionErr (InvalidDn raw_key NotUnderTree)) (strip_prefix (tree_root pid) raw_key);
  let comma_form := join [c_comma] (rev (split_char c_slash suffix)) in
  map_err PartitionErr (parse comma_form).

Definition put_entry (pid : PartitionId) (dn : Dn) (value : bytes) : prog (sres unit) :=
  Call (Put (entry_key pid dn) value) (fun rep => Ret (map_err EtcdErr rep)).

Definition get_entry (pid : PartitionId) (dn : Dn) : prog (sres (option bytes)) :=
  resp <-? prog_map_err EtcdErr (get (entry_key pid dn) false) ;;
  Ret (Ok (snd <$> head resp)).

Definition scan_subtree (pid : PartitionId) (dn : Dn) : prog (sres (list (rstring * bytes))) :=
  let base := entry_key pid dn in
  let prefix := subtree_prefix pid dn in
  out <-? prog_map_err EtcdErr (get prefix true) ;;
  base_value <-? get_entry pid dn ;;
  Ret (Ok (match base_value with Some v => (base, v) :: out | None => out end)).
End operations.

(** ** The abstract directory

    [D] maps each storage key to the DN it was last written under and the
    entry.  [repr] says that the tree range of the partition holds exactly the
    encoded entries of [D] and its index range exactly their index keys. *)

(** A DN the store can print and read back. *)
Record dn_ok (d : Dn) : Prop := { do_wf : dn_wf d; do_chars : str_ok (to_string d) }.

Lemma to_string_inj d e : dn_ok d -> dn_ok e -> to_string d = to_string e -> d = e.
Proof.
  intros [Hd _] [He _] H. apply parse_print_wf in Hd, He. rewrite H in Hd. congruence.
Qed.

Section refinement.
  Context `{EntryCodec} (pid : PartitionId) (Hpid : valid_id pid = true) (spec : IndexSpec).
  Local Abbreviation dir := (gmap (list Z) (Dn * Entry)).
  Implicit Types (D : dir) (m : kvstore).

Definition idx_root : rstring := str "/iron/" ++ pid ++ str "/idx/".

Definition keys_of (dn : Dn) (e : Entry) : list rstring := index_keys_for pid dn e spec.

(** The index pairs of a directory. *)
Definition indexed D (k : rstring) (v : bytes) : Prop :=
  exists key dn e, D !! key = Some (dn, e) /\ k ∈ keys_of dn e /\ v = utf8_encode (to_string dn).

Record repr D m : Prop := {
  r_keys : forall k dn e, D !! k = Some (dn, e) -> k = entry_key pid dn /\ dn_ok dn /\ entry_wf e;
  r_tree : forall k, starts_with (tree_root pid) k = true -> m !! k = (fun de => encode de.2) <$> D !! k;
  r_index : forall k v, starts_with idx_root k = true -> m !! k = Some v <-> indexed D k v;
}.

(** Only the tree and index ranges matter. *)
Lemma repr_frame D m m' :
  repr D m ->
  (forall k, starts_with (tree_root pid) k = true \/ starts_with idx_root k = true -> m' !! k = m !! k) ->
  repr D m'.
Proof.
  intros [Hk Ht Hi] Hf. constructor; [done|..].
  - intros k Hr. rewrite Hf by auto. auto.
  - intros k v Hr. rewrite Hf by auto. auto.
Qed.

Lemma entry_key_in_tree dn : starts_with (tree_root pid) (entry_key pid dn) = true.
Proof. apply starts_with_spec. unfold entry_key. eauto. Qed.

Lemma index_key_in_idx a v dn : starts_with idx_root (index_key pid a v dn) = true.
Proof.
  apply starts_with_spec. unfold idx_root, index_key. eexists.
  rewrite <- !app_assoc. reflexivity.
Qed.

Lemma tree_not_idx k : starts_with (tree_root pid) k = true -> starts_with idx_root k = false.
Proof.
  intros [r ->]%starts_with_spec. apply not_true_iff_false. intros [r' H']%starts_with_spec.
  unfold tree_root, idx_root in H'. rewrite <- !app_assoc in H'.
  apply app_inv_head, app_inv_head in H'. discriminate H'.
Qed.

Lemma keys_of_elem k dn e :
  k ∈ keys_of dn e <->
  exists a v, a ∈ spec /\ v ∈ default [] (Entry.get e a) /\ k = index_key pid a v dn.
Proof.
  unfold keys_of, index_keys_for. rewrite list_elem_of_In, in_concat. split.
  - intros (l & (a & <- & Ha)%in_map_iff & Hk).
    destruct (Entry.get e a) as [vs|] eqn:E; [|done]. apply in_map_iff in Hk as (v & <- & Hv).
    exists a, v. rewrite E. rewrite !list_elem_of_In. done.
  - intros (a & v & Ha & Hv & ->). eexists. split.
    + apply in_map_iff. exists a. split; [reflexivity|]. by apply list_elem_of_In.
    + destruct (Entry.get e a); [|by apply elem_of_nil in Hv].
      apply in_map_iff. exists v. split; [done|]. by apply list_elem_of_In.
Qed.

Lemma keys_of_idx k dn e : k ∈ keys_of dn e -> starts_with idx_root k = true.
Proof. intros (a & v & _ & _ & ->)%keys_of_elem. apply index_key_in_idx. Qed.

Lemma keys_of_disjoint k dn dn' e e' :
  dn_ok dn -> dn_ok dn' -> k ∈ keys_of dn e -> k ∈ keys_of dn' e' -> dn = dn'.
Proof.
  intros Hd Hd' (a & v & _ & _ & ->)%keys_of_elem (b & w & _ & _ & Hk)%keys_of_elem.
  apply index_key_inj in Hk as (_ & _ & _ & Hk); auto using to_string_inj.
Qed.

(** The store after the transaction of a write, and of a delete. *)
Definition write_ops (dels : list rstring) (dn : Dn) (e : Entry) : list txn_op :=
  List.map OpDelete dels ++ [OpPut (entry_key pid dn) (encode e)]
  ++ List.map (fun k => OpPut k (utf8_encode (to_string dn))) (keys_of dn e).

Lemma lookup_write_ops dels dn e m k :
  apply_ops (write_ops dels dn e) m !! k =
    if bool_decide (k ∈ keys_of dn e) then Some (utf8_encode (to_string dn))
    else if bool_decide (k = entry_key pid dn) then Some (encode e)
    else if bool_decide (k ∈ dels) then None else m !! k.
Proof.
  unfold write_ops. rewrite !apply_ops_app, lookup_puts. case_bool_decide; [done|].
  cbn [apply_ops foldl apply_op]. case_bool_decide as E.
  - subst. by rewrite lookup_insert_eq.
  - rewrite lookup_insert_ne by congruence. apply lookup_deletes.
Qed.

(** Writing under the spelling the entry already has, with the old index keys
    deleted or rewritten, moves [repr D] to [repr] of the updated directory. *)
Lemma write_ops_repr D m dn e dels :
  repr D m -> dn_ok dn -> entry_wf e ->
  (forall dn' e', D !! entry_key pid dn = Some (dn', e') -> dn' = dn) ->
  (forall k, k ∈ dels <-> k ∉ keys_of dn e /\
     exists e', D !! entry_key pid dn = Some (dn, e') /\ k ∈ keys_of dn e') ->
  repr (<[entry_key pid dn := (dn, e)]> D) (apply_ops (write_ops dels dn e) m).
Proof.
  intros [Hk Ht Hi] Hdn He Hsp Hdels. set (ek := entry_key pid dn).
  assert (forall k, k ∈ dels -> starts_with idx_root k = true) as Hdi.
  { intros k (_ & e' & _ & Hin)%Hdels. by eapply keys_of_idx. }
  constructor.
  - intros k dn' e' [[<- [= <- <-]]|[_ H']]%lookup_insert_Some; [auto|]. by apply Hk.
  - intros k Hk'. pose proof (tree_not_idx k Hk') as Hni. rewrite lookup_write_ops.
    rewrite bool_decide_false by (intros ?%keys_of_idx; congruence).
    case_bool_decide as E; [subst; by rewrite lookup_insert_eq|].
    rewrite bool_decide_false by (intros ?%Hdi; congruence).
    rewrite lookup_insert_ne by done. by apply Ht.
  - intros k v Hk'. rewrite lookup_write_ops. case_bool_decide as E1.
    + split.
      * intros [= <-]. exists ek, dn, e. by rewrite lookup_insert_eq.
      * intros (key & dn' & e' & [[<- [= <- <-]]|[_ H']]%lookup_insert_Some & Hin & ->); [done|].
        destruct (Hk _ _ _ H') as (_ & Hok & _). by rewrite (keys_of_disjoint k dn' dn e' e).
    + rewrite bool_decide_false.
      2: { intros ->. pose proof (tree_not_idx _ (entry_key_in_tree dn)). congruence. }
      case_bool_decide as E2; [|rewrite Hi by done]; split.
      * done.
      * intros (key & dn' & e' & [[<- [= <- <-]]|[Hne H']]%lookup_insert_Some & Hin & ->); [done|].
        apply Hdels in E2 as (_ & e'' & _ & Hin'). destruct (Hk _ _ _ H') as (-> & Hok & _).
        by rewrite (keys_of_disjoint k dn' dn e' e'') in Hne.
      * intros (key & dn' & e' & H' & Hin & ->). destruct (decide (key = ek)) as [->|Hne].
        { pose proof (Hsp _ _ H') as ->. exfalso. apply E2, Hdels. eauto. }
        exists key, dn', e'. by rewrite lookup_insert_ne.
      * intros (key & dn' & e' & [[<- [= <- <-]]|[Hne H']]%lookup_insert_Some & Hin & ->); [done|].
        by exists key, dn', e'.
Qed.

Lemma lookup_delete_ops dels dn m k :
  apply_ops (OpDelete (entry_key pid dn) :: List.map OpDelete dels) m !! k =
    if bool_decide (k = entry_key pid dn \/ k ∈ dels) then None else m !! k.
Proof.
  change (OpDelete ?x :: List.map OpDelete dels) with (List.map OpDelete (x :: dels)).
  rewrite lookup_deletes. repeat case_bool_decide; set_solver.
Qed.

Lemma delete_ops_repr D m dn e :
  repr D m -> D !! entry_key pid dn = Some (dn, e) ->
  repr (delete (entry_key pid dn) D)
    (apply_ops (OpDelete (entry_key pid dn) :: List.map OpDelete (keys_of dn e)) m).
Proof.
  intros [Hk Ht Hi] HD. destruct (Hk _ _ _ HD) as (_ & Hdn & _). constructor.
  - intros k dn' e' [_ H']%lookup_delete_Some. by apply Hk.
  - intros k Hk'. pose proof (tree_not_idx k Hk'). rewrite lookup_delete_ops.
    destruct (decide (k = entry_key pid dn)) as [->|Hne].
    + rewrite lookup_delete_eq, bool_decide_true by auto. done.
    + rewrite bool_decide_false by (intros [|?%keys_of_idx]; congruence).
      rewrite lookup_delete_ne by done. by apply Ht.
  - intros k v Hk'. rewrite lookup_delete_ops.
    assert (k <> entry_key pid dn) as Hne.
    { intros ->. pose proof (tree_not_idx _ (entry_key_in_tree dn)). congruence. }
    destruct (decide (k ∈ keys_of dn e)) as [Hin|Hin].
    + rewrite bool_decide_true by auto. split; [done|].
      intros (key & dn' & e' & [Hkey H']%lookup_delete_Some & Hin' & _). exfalso.
      destruct (Hk _ _ _ H') as (-> & Hok & _).
      by rewrite (keys_of_disjoint k dn' dn e' e) in Hkey.
    + rewrite bool_decide_false by naive_solver. rewrite Hi by done. split.
      * intros (key & dn' & e' & H' & Hin' & ->). exists key, dn', e'.
        rewrite lookup_delete_ne; [done|]. intros <-. rewrite HD in H'. by simplify_eq.
      * intros (key & dn' & e' & [_ H']%lookup_delete_Some & Hin' & ->). by exists key, dn', e'.
Qed.

Lemma read_entry_runs D m dn res m' :
  repr D m -> runs (read_entry pid dn) m res m' ->
  m' = m /\ (res = Ok (snd <$> D !! entry_key pid dn) \/ exists e, res = Err e).
Proof.
  intros HR. unfold read_entry. rewrite runs_try. setoid_rewrite runs_map_err.
  intros [(e & (r & [-> _]%get_runs & _) & ->)|(resp & m1 & (r & Hget & Hr) & Hret)]; [eauto|].
  apply get_runs in Hget as [-> Hrep]. destruct Hret as [-> ->]. split; [done|].
  destruct Hrep as [->|[e ->]]; [|by simpl in Hr]. simpl in Hr. injection Hr as ->.
  unfold read. rewrite (r_tree _ _ HR) by apply entry_key_in_tree.
  destruct (D !! entry_key pid dn) as [[dn' e]|] eqn:E; simpl; [|auto].
  destruct (r_keys _ _ HR _ _ _ E) as (_ & _ & He). rewrite decode_encode by done. auto.
Qed.

(** The outcome of one transaction. *)
Lemma etcd_txn_runs cs ops m res m' :
  runs (etcd_txn cs ops) m res m' ->
  let holds := forallb (compare_holds m) cs in
  let post := if holds then apply_ops ops m else m in
  (res = Ok holds /\ m' = post) \/ ((exists e, res = Err e) /\ (m' = m \/ m' = post)).
Proof.
  intros (rep & m1 & Hs & -> & ->). simpl in Hs.
  destruct Hs as [[-> ->]|(e & -> & Hm)]; simpl; eauto 10.
Qed.

(** What a write may leave behind: the new directory on success; on an error
    the old one or the new one, never a mixture. *)
Definition write_outcome {A : Type} (D D' : dir) (res : result (StoreError json_error) A) (m' : kvstore) : Prop :=
  match res with
  | Ok _ => repr D' m'
  | Err _ => repr D m' \/ repr D' m'
  end.

Lemma put_refines D m dn e res m' :
  repr D m -> dn_ok dn -> entry_wf e ->
  (forall dn' e', D !! entry_key pid dn = Some (dn', e') -> dn' = dn) ->
  runs (put_entry_indexed pid dn e spec) m res m' ->
  write_outcome D (<[entry_key pid dn := (dn, e)]> D) res m'.
Proof.
  intros HR Hdn He Hsp. unfold put_entry_indexed. rewrite runs_try.
  intros [(er & [-> _]%(read_entry_runs D) & ->)|(old & m1 & Hr & H1)]; [by left|done|].
  apply (read_entry_runs D) in Hr as [-> Hold]; [|done].
  destruct Hold as [[= ->]|[? ?]]; [|done].
  rewrite runs_try in H1. fold (keys_of dn e) in H1.
  set (dels := List.filter _ _) in H1.
  assert (repr (<[entry_key pid dn := (dn, e)]> D) (apply_ops (write_ops dels dn e) m)) as Hpost.
  { apply write_ops_repr; try done. intros k. unfold dels.
    rewrite list_elem_of_In, filter_In, <- list_elem_of_In, negb_true_iff, bool_decide_eq_false.
    destruct (D !! entry_key pid dn) as [[dn' e']|] eqn:E; simpl.
    - pose proof (Hsp _ _ eq_refl) as ->. fold (keys_of dn e'). naive_solver.
    - split; [by intros [?%elem_of_nil _]|naive_solver]. }
  change (List.map OpDelete dels ++ _) with (write_ops dels dn e) in H1.
  destruct H1 as [(er & Ht & ->)|(b & m2 & Ht & [-> ->])];
    apply etcd_txn_runs in Ht; simpl in Ht; simpl; naive_solver.
Qed.

Lemma create_refines D m dn e res m' :
  repr D m -> dn_ok dn -> entry_wf e ->
  runs (create_entry_indexed pid dn e spec) m res m' ->
  let fresh := bool_decide (D !! entry_key pid dn = None) in
  (forall b, res = Ok b -> b = fresh) /\
  write_outcome D (if fresh then <[entry_key pid dn := (dn, e)]> D else D) res m'.
Proof.
  intros HR Hdn He Ht fresh. apply etcd_txn_runs in Ht. simpl in Ht.
  rewrite (r_tree _ _ HR) in Ht by apply entry_key_in_tree.
  assert (bool_decide ((fun de => encode de.2) <$> D !! entry_key pid dn = None) = fresh) as Hf.
  { unfold fresh. apply bool_decide_ext. apply fmap_None. }
  rewrite Hf, andb_true_r in Ht. clear Hf.
  assert (fresh = true -> repr (<[entry_key pid dn := (dn, e)]> D) (apply_ops (write_ops [] dn e) m)) as Hpost.
  { unfold fresh. rewrite bool_decide_eq_true. intros HN. apply write_ops_repr; try done.
    - rewrite HN. done.
    - intros k. split; [by intros ?%elem_of_nil|]. rewrite HN. naive_solver. }
  change (OpPut _ _ :: _) with (write_ops [] dn e) in Ht.
  unfold write_outcome. destruct fresh; [specialize (Hpost eq_refl)|clear Hpost];
    (destruct Ht as [[-> ->]|[[er ->] [->| ->]]]; split; naive_solver).
Qed.

Lemma delete_refines D m dn res m' :
  repr D m ->
  (forall dn' e', D !! entry_key pid dn = Some (dn', e') -> dn' = dn) ->
  runs (delete_entry_indexed pid dn spec) m res m' ->
  write_outcome D (delete (entry_key pid dn) D) res m'.
Proof.
  intros HR Hsp. unfold delete_entry_indexed. rewrite runs_try.
  intros [(er & [-> _]%(read_entry_runs D) & ->)|(old & m1 & Hr & H1)]; [by left|done|].
  apply (read_entry_runs D) in Hr as [-> Hold]; [|done].
  destruct Hold as [[= ->]|[? ?]]; [|done].
  destruct (D !! entry_key pid dn) as [[dn' e]|] eqn:E; cbn [fmap option_fmap option_map snd] in H1.
  - pose proof (Hsp _ _ eq_refl) as ->. rewrite runs_try in H1. fold (keys_of dn e) in H1.
    pose proof (delete_ops_repr D m dn e HR E) as Hpost.
    destruct H1 as [(er & Ht & ->)|(b & m2 & Ht & [-> ->])];
      apply etcd_txn_runs in Ht; simpl in Ht; simpl; naive_solver.
  - destruct H1 as [-> ->]. simpl. by rewrite delete_id.
Qed.

Lemma get_refines D m dn res m' :
  repr D m -> runs (get_entry pid dn) m res m' ->
  m' = m /\ (res = Ok ((fun de => encode de.2) <$> D !! entry_key pid dn) \/ exists e, res = Err e).
Proof.
  intros HR. unfold get_entry. rewrite runs_try. setoid_rewrite runs_map_err.
  intros [(e & (r & [-> _]%get_runs & _) & ->)|(resp & m1 & (r & Hget & Hr) & Hret)]; [eauto|].
  apply get_runs in Hget as [-> Hrep]. destruct Hret as [-> ->]. split; [done|].
  destruct Hrep as [->|[e ->]]; [|by simpl in Hr]. simpl in Hr. injection Hr as ->.
  unfold read. rewrite (r_tree _ _ HR) by apply entry_key_in_tree.
  destruct (D !! entry_key pid dn); simpl; auto.
Qed.

(** One row of an index scan. *)
Definition index_row D (attr value : rstring) (kv : rstring * bytes) (dn : Dn) : Prop :=
  kv.1 = index_key pid attr value dn /\ kv.2 = utf8_encode (to_string dn) /\ dn_ok dn /\
  exists e, D !! entry_key pid dn = Some (dn, e) /\ value ∈ default [] (Entry.get e attr).

Lemma index_key_lower a b v dn :
  to_ascii_lowercase a = to_ascii_lowercase b -> index_key pid a v dn = index_key pid b v dn.
Proof. intros Hab. unfold index_key. by rewrite Hab. Qed.

Lemma scan_rows D m attr value k v :
  repr D m -> (k, v) ∈ read m (index_prefix pid attr value) true ->
  exists dn, index_row D attr value (k, v) dn.
Proof.
  intros HR [Hm [r ->]%starts_with_spec]%read_prefix_elem.
  assert (starts_with idx_root (index_prefix pid attr value ++ r) = true) as Hidx.
  { apply starts_with_spec. unfold idx_root, index_prefix. eexists. by rewrite <- !app_assoc. }
  apply (r_index _ _ HR) in Hm as (key & dn & e & HD & (a & w & Ha & Hw & Hk)%keys_of_elem & ->); [|done].
  destruct (r_keys _ _ HR _ _ _ HD) as (-> & Hdn & _). exists dn.
  symmetry in Hk. pose proof Hk as Hcut.
  apply index_prefix_cut in Hcut as (_ & Hal & -> & _); [|done..].
  split; [|split; [done|split; [done|exists e; split; [done|]]]].
  - cbn [fst]. rewrite <- Hk. by apply index_key_lower.
  - unfold Entry.get in *. by rewrite <- Hal.
Qed.

Lemma index_row_decode D attr value kv dn :
  index_row D attr value kv dn ->
  (s ← value_str kv.2; map_err PartitionErr (parse s)) = Ok (A := Dn) (E := StoreError json_error) dn.
Proof.
  intros (_ & -> & [Hwf Hchars] & _). unfold value_str. rewrite utf8_roundtrip by done.
  cbn [ok_or mbind result_bind]. by rewrite parse_print_wf.
Qed.

Lemma rows_decode D attr value kvs :
  (forall kv, kv ∈ kvs -> exists dn, index_row D attr value kv dn) ->
  exists l, Forall2 (index_row D attr value) kvs l /\
    try_map (fun kv => s ← value_str kv.2; map_err PartitionErr (parse s)) kvs
      = Ok (E := StoreError json_error) l.
Proof.
  intros Hrows. assert (exists l, Forall2 (index_row D attr value) kvs l) as [l Hl].
  { induction kvs as [|kv kvs IH]; [exists []; constructor|].
    destruct (Hrows kv ltac:(set_solver)) as [dn Hdn].
    destruct IH as [l Hl]; [intros; apply Hrows; set_solver|]. exists (dn :: l). by constructor. }
  exists l. split; [done|]. apply try_map_ok.
  eapply Forall2_impl; [exact Hl|]. intros kv dn. apply index_row_decode.
Qed.

Lemma rows_NoDup D attr value kvs l :
  NoDup kvs -> Forall2 (index_row D attr value) kvs l -> NoDup l.
Proof.
  intros Hnd Hl. induction Hl as [|kv dn kvs l Hrow Hl IH]; [constructor|].
  apply NoDup_cons in Hnd as [Hni Hnd]. apply NoDup_cons. split; [|by apply IH].
  intros Hin. apply Hni. apply Forall2_flip in Hl. apply list_elem_of_lookup in Hin as [i Hi].
  eapply Forall2_lookup_l in Hl as (kv' & Hi' & Hrow'); [|exact Hi]. apply list_elem_of_lookup. exists i.
  rewrite Hi'. destruct kv, kv', Hrow as (? & ? & _), Hrow' as (? & ? & _). simpl in *. by subst.
Qed.

Lemma rows_complete D m attr value l dn e :
  repr D m -> to_ascii_lowercase attr ∈ spec ->
  Forall2 (index_row D attr value) (read m (index_prefix pid attr value) true) l ->
  D !! entry_key pid dn = Some (dn, e) -> value ∈ default [] (Entry.get e attr) -> dn ∈ l.
Proof.
  intros HR Hspec Hl HD Hv. destruct (r_keys _ _ HR _ _ _ HD) as (_ & Hdn & _).
  assert ((index_key pid attr value dn, utf8_encode (to_string dn))
    ∈ read m (index_prefix pid attr value) true) as Hin.
  { apply read_prefix_elem. split.
    - apply (r_index _ _ HR); [apply index_key_in_idx|]. exists (entry_key pid dn), dn, e.
      split; [done|]. split; [|done]. apply keys_of_elem. exists (to_ascii_lowercase attr), value.
      split; [done|]. split; [by unfold Entry.get in *; rewrite to_ascii_lowercase_idem|].
      apply index_key_lower. by rewrite to_ascii_lowercase_idem.
    - apply starts_with_spec. exists (escape_segment (to_string dn)).
      by rewrite index_key_unfold, index_prefix_unfold. }
  apply list_elem_of_lookup in Hin as [i Hi].
  eapply Forall2_lookup_l in Hl as (dn' & Hi' & (Hk & _ & Hok & _)); [|exact Hi].
  simpl in Hk. apply index_key_inj in Hk as (_ & _ & _ & Heq); [|done..].
  apply to_string_inj in Heq as ->; [|done..]. apply list_elem_of_lookup. eauto.
Qed.

Lemma lookup_refines D m attr value res m' :
  repr D m -> to_ascii_lowercase attr ∈ spec ->
  runs (lookup_by_index pid attr value) m res m' ->
  m' = m /\
  ((exists e, res = Err (EtcdErr e)) \/
   exists l, res = Ok l /\ NoDup l /\
     forall dn, dn ∈ l <-> exists e, D !! entry_key pid dn = Some (dn, e)
                                /\ value ∈ default [] (Entry.get e attr)).
Proof.
  intros HR Hspec. unfold lookup_by_index. rewrite runs_try. setoid_rewrite runs_map_err.
  intros [(e & (r & [-> [->|[e' ->]]]%get_runs & He) & ->)|(resp & m1 & (r & Hget & Hr) & Hret)];
    [done|simpl in He; injection He as ->; eauto|].
  apply get_runs in Hget as [-> Hrep]. destruct Hret as [-> ->]. split; [done|]. right.
  destruct Hrep as [->|[e ->]]; [|by simpl in Hr]. cbn [map_err] in Hr. injection Hr as ->.
  destruct (rows_decode D attr value (read m (index_prefix pid attr value) true)) as (l & Hl & Hok).
  { intros [k v]. by apply scan_rows. }
  exists l. split; [exact Hok|]. clear Hok. split.
  - eapply rows_NoDup; [apply read_prefix_NoDup|exact Hl].
  - intros dn. split.
    + intros Hin. apply Forall2_flip in Hl. apply list_elem_of_lookup in Hin as [i Hi].
      eapply Forall2_lookup_l in Hl as (kv & _ & (_ & _ & _ & Hrow)); [|exact Hi]. exact Hrow.
    + intros (e & HD & Hv). by eapply rows_complete.
Qed.

(** ** Subtree scans *)

Lemma subtree_in_tree base k :
  starts_with (subtree_prefix pid base) k = true -> starts_with (tree_root pid) k = true.
Proof.
  rewrite !starts_with_spec. unfold subtree_prefix, entry_key. intros [r ->].
  eexists. by rewrite <- !app_assoc.
Qed.

Lemma is_within_strict_or_equiv d base :
  is_within d base = true <-> is_strict_descendant_of d base = true \/ d ≡ base.
Proof.
  unfold is_strict_descendant_of. rewrite andb_true_iff, Nat.ltb_lt. split.
  - intros Hw. destruct (decide (length (rdns base) < length (rdns d))%nat); [auto|]. right.
    apply is_within_suffix in Hw as (pre & suf & Hd & Hs). unfold equiv, dn_equiv.
    pose proof (length_proper _ _ Hs) as Hl. rewrite Hd, length_app in *. destruct pre; [done|]. simpl in *. lia.
  - intros [[_ Hw]|He]; [done|]. rewrite He. apply is_within_refl.
Qed.

Lemma scan_subtree_refines D m base res m' :
  repr D m -> (forall k dn e, D !! k = Some (dn, e) -> key_safe dn) ->
  key_safe base -> rdns base <> [] ->
  runs (scan_subtree pid base) m res m' ->
  m' = m /\
  ((exists e, res = Err e) \/
   exists rows, res = Ok rows /\ forall k v, (k, v) ∈ rows <->
     exists dn e, D !! k = Some (dn, e) /\ v = encode e /\ is_within dn base = true).
Proof.
  intros HR Hsafe Hb Hne. unfold scan_subtree. rewrite runs_try. setoid_rewrite runs_map_err.
  intros [(e & (r & [-> _]%get_runs & _) & ->)|(resp & m1 & (r & Hget & Hr) & Hk)]; [eauto|].
  apply get_runs in Hget as [-> Hrep]. rewrite runs_try in Hk.
  destruct Hrep as [->|[e ->]]; [|by simpl in Hr].
  assert (resp = read m (subtree_prefix pid base) true) as -> by (injection Hr; auto). clear Hr.
  destruct Hk as [(e & [-> _]%(get_refines D) & ->)|(bv & m2 & Hg & [-> ->])]; [eauto|done|].
  apply (get_refines D) in Hg as [-> [Hbv|[? ?]]]; [|done|done]. injection Hbv as ->.
  split; [done|]. right. eexists. split; [done|]. intros k v.
  assert ((k, v) ∈ read m (subtree_prefix pid base) true <->
    exists dn e, D !! k = Some (dn, e) /\ v = encode e /\ is_strict_descendant_of dn base = true) as Hbelow.
  { rewrite read_prefix_elem. split.
    - intros [Hm Hp]. rewrite (r_tree _ _ HR) in Hm by (by eapply subtree_in_tree).
      destruct (D !! k) as [[dn e]|] eqn:E; [|done]. simpl in Hm. injection Hm as <-.
      destruct (r_keys _ _ HR _ _ _ E) as (-> & _ & _). exists dn, e. split; [done|]. split; [done|].
      rewrite <- Hp. symmetry. apply subtree_prefix_scan; eauto.
    - intros (dn & e & HD & -> & Hs). destruct (r_keys _ _ HR _ _ _ HD) as (-> & _ & _). split.
      + rewrite (r_tree _ _ HR) by apply entry_key_in_tree. by rewrite HD.
      + rewrite <- Hs. apply subtree_prefix_scan; eauto. }
  assert (forall dn e, D !! k = Some (dn, e) -> dn ≡ base <-> k = entry_key pid base) as Hbase.
  { intros dn e HD. destruct (r_keys _ _ HR _ _ _ HD) as (-> & _ & _).
    split; [by intros ->|]. intros Heq. apply entry_key_equiv in Heq; eauto. }
  destruct (D !! entry_key pid base) as [[dnb eb]|] eqn:Eb; simpl; rewrite ?elem_of_cons, Hbelow.
  - split.
    + intros [[= -> ->]|(dn & e & HD & -> & Hs)].
      * exists dnb, eb. split; [done|]. split; [done|]. apply is_within_strict_or_equiv.
        right. by eapply Hbase.
      * exists dn, e. rewrite is_within_strict_or_equiv. auto.
    + intros (dn & e & HD & -> & [Hs|He]%is_within_strict_or_equiv); [right; eauto|left].
      eapply Hbase in He as ->; [|done]. by simplify_eq.
  - split; intros (dn & e & HD & -> & Hs); exists dn, e; (split; [done|]); (split; [done|]).
    + apply is_within_strict_or_equiv. auto.
    + apply is_within_strict_or_equiv in Hs as [Hs|He]; [done|].
      eapply Hbase in He as ->; [|done]. congruence.
Qed.
End refinement.

(** The rows of a scan have different keys. *)
Lemma scan_subtree_keys `{EntryCodec} pid base m rows m' : runs (scan_subtree pid base) m (Ok rows) m' -> NoDup rows.*1.
Proof.
  unfold scan_subtree. rewrite runs_try. intros [(e & _ & [=])|(resp & m1 & Hg & Hk)]. setoid_rewrite runs_map_err in Hg.
  destruct Hg as (r & [-> Hr]%get_runs & Hresp). destruct Hr as [->|[x ->]]; [|by cbn in Hresp].
  assert (resp = read m (subtree_prefix pid base) true) as -> by (injection Hresp; auto).
  rewrite runs_try in Hk. destruct Hk as [(e & _ & [=])|(bv & m2 & _ & Hrows & _)]. injection Hrows as ->.
  pose proof (read_prefix_keys m (subtree_prefix pid base)) as Hnd.
  destruct bv as [v|]; [|done]. cbn [fmap list_fmap]. apply NoDup_cons. split; [|done].
  intros ([k v'] & Hk & Hin)%list_elem_of_fmap. cbn [fst] in Hk. subst k. apply read_prefix_elem in Hin as [_ (x & Hx)%starts_with_spec].
  unfold subtree_prefix in Hx. apply (f_equal length) in Hx. rewrite !length_app in Hx. cbn in Hx. lia.
Qed.

(** ** From storage keys back to DNs *)

Definition dn_plain (d : Dn) : Prop := Forall rdn_plain (rdns d).

Lemma split_components d :
  key_safe d ->
  join [c_comma] (rev (split_char c_slash (join [c_slash] (reversed_components d)))) =
  join [c_comma] (List.map normalized_string (rdns d)).
Proof.
  intros Hd. destruct (decide (reversed_components d = [])) as [Hn|Hn].
  - rewrite Hn. apply reversed_components_nil in Hn. by rewrite Hn.
  - rewrite split_join by (done || by apply components_safe).
    unfold reversed_components. by rewrite map_rev, rev_involutive.
Qed.

Section tree_keys.
  Context `{EntryCodec}.

Lemma dn_from_tree_key_norm pid d :
  key_safe d -> dn_plain d -> dn_from_tree_key pid (entry_key pid d) = Ok (norm_dn d).
Proof.
  intros Hs Hp. unfold dn_from_tree_key, entry_key. rewrite (proj2 (strip_prefix_Some (tree_root pid) _ _) eq_refl).
  cbn [ok_or mbind result_bind]. rewrite split_components by done. by rewrite parse_normalized.
Qed.

Lemma dn_from_tree_key_entry_key pid d :
  key_safe d -> dn_plain d -> exists d', dn_from_tree_key pid (entry_key pid d) = Ok d' /\ d' ≡ d.
Proof. intros Hs Hp. exists (norm_dn d). split; [by apply dn_from_tree_key_norm|apply norm_dn_equiv]. Qed.

(** A storage key determines its DN: for DNs free of separators and
    escapes, [dn_from_tree_key] recovers from the entry key a DN equal to the
    one the entry was written under (in normalised spelling). *)
Theorem tree_key_roundtrip pid d :
  key_safe d -> dn_plain d -> exists d', dn_from_tree_key pid (entry_key pid d) = Ok d' /\ d' ≡ d.
Proof. apply dn_from_tree_key_entry_key. Qed.
End tree_keys.

(** ** Racing creators

    [is_win]: the process has returned that its call created the entry. *)
Definition is_win {E} (p : prog (result E bool)) : bool :=
  match p with Ret (Ok true) => true | _ => false end.

Section create_race.
  Context `{EntryCodec} (pid : PartitionId) (spec : IndexSpec) (key : rstring).
  Local Abbreviation proc := (prog (result (StoreError json_error) bool)).

(** A call of [create_entry_indexed] for a DN stored under [key]. *)
Definition is_creator (p : proc) : Prop :=
  exists dn e, entry_key pid dn = key /\ p = create_entry_indexed pid dn e spec.

Definition finished (p : proc) : Prop := exists r, p = Ret r.

Record race_inv (c : config (result (StoreError json_error) bool)) : Prop := {
  ri_shape : forall i p, cfg_procs c !! i = Some p -> is_creator p \/ finished p;
  ri_once : forall i j p q, cfg_procs c !! i = Some p -> cfg_procs c !! j = Some q ->
              is_win p = true -> is_win q = true -> i = j;
  ri_present : forall i p, cfg_procs c !! i = Some p -> is_win p = true -> is_Some (cfg_store c !! key);
}.

Lemma apply_puts_present (ops : list txn_op) (m : kvstore) k :
  Forall (fun o => exists k v, o = OpPut k v) ops -> is_Some (m !! k) -> is_Some (apply_ops ops m !! k).
Proof.
  intros Hops. revert m. induction Hops as [|o ops (k' & v & ->) _ IH]; intros m Hm; [done|].
  apply (IH (<[k' := v]> m)). apply lookup_insert_is_Some. destruct (decide (k' = k)); auto.
Qed.

Lemma create_ops_puts dn e :
  Forall (fun o => exists k v, o = OpPut k v)
    (OpPut (entry_key pid dn) (encode e)
     :: List.map (fun k => OpPut k (utf8_encode (to_string dn))) (index_keys_for pid dn e spec)).
Proof. constructor; [eauto|]. apply Forall_fmap, Forall_true. intros k. simpl. eauto. Qed.

Lemma race_step c c' : race_inv c -> step c c' -> race_inv c'.
Proof.
  intros [Hsh Honce Hpres] Hstep. destruct Hstep as [m ps i r k rep m' Hi Hs]; simpl in *.
  destruct (Hsh _ _ Hi) as [(dn & e & Hkey & Hp)|[? ?]]; [|done].
  unfold create_entry_indexed, etcd_txn in Hp.
  pose proof (create_ops_puts dn e) as Hputs. rewrite Hkey in Hp, Hputs.
  set (ops := OpPut key _ :: _) in Hp, Hputs. assert (r = Txn [VersionZero key] ops) as -> by congruence.
  apply Call_inj in Hp as ->. simpl in Hs. rewrite andb_true_r in Hs.
  assert (forall j q, <[i := Ret (map_err EtcdErr rep)]> ps !! j = Some q -> is_win q = true ->
    (j = i /\ rep = Ok true) \/ (j <> i /\ ps !! j = Some q)) as Hwin.
  { intros j q. rewrite list_lookup_insert_Some. intros [(-> & <- & _)|[Hne Hj]] Hw; [left|right; auto].
    split; [done|]. destruct rep as [[]|]; by simpl in Hw. }
  assert (is_Some (m !! key) -> is_Some (m' !! key)) as Hmono.
  { intros Hm. destruct Hs as [[_ ->]|(? & _ & [->| ->])]; try done;
      (destruct (bool_decide _); [by apply (apply_puts_present ops)|done]). }
  assert (rep = Ok true -> m !! key = None /\ is_Some (m' !! key)) as Htrue.
  { intros ->. destruct Hs as [[[= Hh] ->]|(? & ? & _)]; [|done].
    rewrite <- Hh. symmetry in Hh. apply bool_decide_eq_true in Hh. split; [done|].
    apply (apply_puts_present (List.tl ops) (<[key := encode e]> m)).
    - by apply Forall_cons in Hputs as [_ ?].
    - rewrite lookup_insert_eq. eauto. }
  constructor; simpl.
  - intros j q. rewrite list_lookup_insert_Some. intros [(-> & <- & _)|[Hne Hj]]; [right; by eexists|eauto].
  - intros j1 j2 q1 q2 Hj1 Hj2 Hw1 Hw2.
    destruct (Hwin _ _ Hj1 Hw1) as [[-> Hr1]|[Hn1 H1]], (Hwin _ _ Hj2 Hw2) as [[-> Hr2]|[Hn2 H2]];
      [done| | |by eapply Honce]; exfalso.
    + destruct (Htrue Hr1) as [HN _]. destruct (Hpres _ _ H2 Hw2). congruence.
    + destruct (Htrue Hr2) as [HN _]. destruct (Hpres _ _ H1 Hw1). congruence.
  - intros j q Hj Hw. destruct (Hwin _ _ Hj Hw) as [[_ Hr]|[_ Hj']]; [by apply Htrue|].
    apply Hmono. by eapply Hpres.
Qed.
End create_race.

(** C26: Creation is atomic: however many calls of [create_entry_indexed] for
    one storage key interleave, and whichever of their requests fail, at most
    one returns that it created the entry, and then the entry is there. *)
Theorem create_race_single_winner `{EntryCodec} pid spec key m ps c :
  Forall (is_creator pid spec key) ps -> rtc step (mkConfig m ps) c ->
  (forall i j p q, cfg_procs c !! i = Some p -> cfg_procs c !! j = Some q ->
     is_win p = true -> is_win q = true -> i = j) /\
  (forall i p, cfg_procs c !! i = Some p -> is_win p = true -> is_Some (cfg_store c !! key)).
Proof.
  intros Hps Hrtc. assert (race_inv pid spec key c) as []; [|done].
  assert (race_inv pid spec key (mkConfig m ps)) as Hinit.
  { assert (forall i p, ps !! i = Some p -> is_creator pid spec key p) as Hcr
      by (intros i p Hi; by eapply Forall_lookup_1).
    constructor; simpl; [eauto|..].
    - intros i j p q Hi Hj Hp Hq. destruct (Hcr _ _ Hi) as (? & ? & _ & ->). done.
    - intros i p Hi Hp. destruct (Hcr _ _ Hi) as (? & ? & _ & ->). done. }
  revert Hinit. generalize (mkConfig m ps), Hrtc. clear. intros c0 Hrtc.
  induction Hrtc; eauto using race_step.
Qed.

(** C1: The store implements the abstract directory: whatever the service
    answers, a write of an entry under the spelling it already has leaves the
    partition representing the updated directory when it reports success, and
    either the old or the updated one when it reports an error; indexes and
    entries never disagree, and [create] reports exactly whether the DN was
    free. *)
Theorem writes_refine_directory `{EntryCodec} pid spec D m dn e :
  valid_id pid = true -> repr pid spec D m -> dn_ok dn -> entry_wf e ->
  (forall dn' e', D !! entry_key pid dn = Some (dn', e') -> dn' = dn) ->
  (forall res m', runs (put_entry_indexed pid dn e spec) m res m' ->
     write_outcome pid spec D (<[entry_key pid dn := (dn, e)]> D) res m') /\
  (forall res m', runs (create_entry_indexed pid dn e spec) m res m' ->
     let fresh := bool_decide (D !! entry_key pid dn = None) in
     (forall b, res = Ok b -> b = fresh) /\
     write_outcome pid spec D (if fresh then <[entry_key pid dn := (dn, e)]> D else D) res m') /\
  (forall res m', runs (delete_entry_indexed pid dn spec) m res m' ->
     write_outcome pid spec D (delete (entry_key pid dn) D) res m').
Proof. eauto 10 using put_refines, create_refines, delete_refines. Qed.

(** An index lookup is exact: unless the service fails, it returns, once
    each, precisely the DNs whose entries hold the value in the indexed
    attribute. *)
Theorem lookup_by_index_exact `{EntryCodec} pid spec D m attr value res m' :
  valid_id pid = true -> repr pid spec D m -> to_ascii_lowercase attr ∈ spec ->
  runs (lookup_by_index pid attr value) m res m' ->
  m' = m /\
  ((exists e, res = Err (EtcdErr e)) \/
   exists l, res = Ok l /\ NoDup l /\
     forall dn, dn ∈ l <-> exists e, D !! entry_key pid dn = Some (dn, e)
                                /\ value ∈ default [] (Entry.get e attr)).
Proof. intros. by eapply lookup_refines. Qed.

(** A subtree scan is exact: unless the service fails, its rows are
    precisely the encoded entries at and below the base DN. *)
Theorem scan_subtree_exact `{EntryCodec} pid spec D m base res m' :
  repr pid spec D m -> (forall k dn e, D !! k = Some (dn, e) -> key_safe dn) ->
  key_safe base -> rdns base <> [] ->
  runs (scan_subtree pid base) m res m' ->
  m' = m /\
  ((exists e, res = Err e) \/
   exists rows, res = Ok rows /\ forall k v, (k, v) ∈ rows <->
     exists dn e, D !! k = Some (dn, e) /\ v = encode e /\ is_within dn base = true).
Proof. apply scan_subtree_refines. Qed.

(** ** Executions on a concrete directory *)

Definition ex_pid : PartitionId := str "g10".
Definition ex_spec : IndexSpec := IndexSpec_new [str "cn"; str "sAMAccountName"].

Lemma repr_empty `{EntryCodec} pid spec : repr pid spec ∅ ∅.
Proof.
  constructor.
  - intros k dn e Hk. by rewrite lookup_empty in Hk.
  - intros k _. by rewrite !lookup_empty.
  - intros k v _. rewrite lookup_empty. split; [done|]. intros (? & ? & ? & Hl & _).
    by rewrite lookup_empty in Hl.
Qed.

(** A decision procedure for [dn_wf] on DNs with attribute types made of
    letters, for concrete DNs. *)
Definition dn_wfb (d : Dn) : bool :=
  forallb (fun r =>
    negb (bool_decide (avas r = []))
    && forallb (fun a =>
         negb (bool_decide (attr a = []))
         && forallb is_ascii_lowercase (attr a)
         && match head (value a) with Some c => negb (other_space c) | None => true end
         && match last (value a) with Some c => negb (is_whitespace c) | None => true end
         && bool_decide (norm_value a = to_ascii_lowercase (trim (value a)))) (avas r)
    && bool_decide (sort_by ava_key (avas r) = avas r)) (rdns d).

Lemma lowercase_facts s :
  forallb is_ascii_lowercase s = true ->
  Forall (fun c => is_whitespace c = false /\ ascii_lower c = c /\ c ∉ c_bslash :: delims) s.
Proof.
  rewrite forallb_forall, Forall_forall. intros Hs c Hc%list_elem_of_In.
  specialize (Hs c Hc). unfold is_ascii_lowercase in Hs.
  apply andb_true_iff in Hs as [?%Z.leb_le ?%Z.leb_le]. split; [|split].
  - unfold is_whitespace. rewrite !orb_false_iff, !andb_false_iff, !Z.leb_gt, !Z.eqb_neq. lia.
  - unfold ascii_lower. rewrite (proj2 (Z.leb_gt c 90)) by lia. by rewrite andb_false_r.
  - unfold delims. rewrite !elem_of_cons. intros [?|[?|[?|[?|?%elem_of_nil]]]]; lia.
Qed.

Lemma dn_wfb_sound d : dn_wfb d = true -> dn_wf d.
Proof.
  unfold dn_wfb, dn_wf. rewrite forallb_forall, Forall_forall. intros Hall r Hr%list_elem_of_In.
  specialize (Hall r Hr). rewrite !andb_true_iff, negb_true_iff, bool_decide_eq_false,
    bool_decide_eq_true in Hall. destruct Hall as [[Hne Ha] Hs].
  constructor; [done| |rewrite <- Hs; apply sort_by_sorted].
  rewrite forallb_forall in Ha. apply Forall_forall. intros a Hin%list_elem_of_In. specialize (Ha a Hin).
  rewrite !andb_true_iff, negb_true_iff, bool_decide_eq_false, bool_decide_eq_true in Ha.
  destruct Ha as [[[[Hane Hlow] Hh] Hl] Hn]. apply lowercase_facts in Hlow as Hf.
  constructor; try done.
  - split; unfold head_ok, last_ok.
    + destruct (attr a); [done|]. apply Forall_cons in Hf. apply Hf.
    + destruct (last (attr a)) as [c|] eqn:E; [|done]. apply last_Some_elem_of in E.
      rewrite Forall_forall in Hf. by apply Hf.
  - clear -Hf. induction Hf as [|c s (_ & Hc & _) _ IH]; [done|]. cbn. by rewrite Hc; f_equal.
  - apply no_escape_clean. eapply Forall_impl; [exact Hf|]. naive_solver.
  - split; [destruct (head (value a)) as [c|]; [by apply negb_true_iff|done]|].
    unfold last_ok. destruct (last (value a)) as [c|]; [by apply negb_true_iff|done].
Qed.

Lemma alice_ok : dn_ok alice.
Proof.
  constructor; [by apply dn_wfb_sound|].
  change (to_string alice) with (str "cn=Alice,ou=users,dc=g10,dc=lo"). apply str_ok_str.
Qed.

(** The directory with one entry, and a store that represents it. *)
Definition ex_dir : gmap (list Z) (Dn * Entry) := {[ entry_key ex_pid alice := (alice, entry_example) ]}.
Definition ex_store : kvstore :=
  (exec zeros (@put_entry_indexed bit_codec ex_pid alice entry_example ex_spec) ∅).2.

Lemma ex_store_repr : @repr bit_codec ex_pid ex_spec ex_dir ex_store.
Proof.
  apply (@put_refines bit_codec ex_pid eq_refl ex_spec ∅ ∅ alice entry_example (Ok tt) ex_store);
    [apply repr_empty|apply alice_ok|apply entry_example_wf|by intros ??; rewrite lookup_empty|].
  assert (Ok tt = (exec zeros (@put_entry_indexed bit_codec ex_pid alice entry_example ex_spec) ∅).1) as ->
    by (vm_compute; reflexivity).
  apply exec_runs, zeros_ok.
Qed.

Definition norm_plainb (d : Dn) : bool :=
  forallb (fun r => forallb (fun a => forallb is_ascii_lowercase (attr a) &&
    forallb (fun c => bool_decide (c ∉ [c_bslash; c_comma; c_plus])) (norm_value a)) (avas r)) (rdns d).

Lemma norm_plainb_sound d : dn_wf d -> norm_plainb d = true -> dn_plain d.
Proof.
  unfold norm_plainb, dn_wf, dn_plain. rewrite forallb_forall, !Forall_forall.
  intros Hwf Hall r Hr. destruct (Hwf r Hr) as [Hne Ha Hs]. split; [done|]. split; [|done].
  apply list_elem_of_In in Hr. specialize (Hall r Hr). rewrite forallb_forall in Hall.
  rewrite Forall_forall in *. intros a Hin. destruct (Ha a Hin) as [? ? ? _ _ Hn].
  apply list_elem_of_In in Hin. specialize (Hall a Hin). apply andb_true_iff in Hall as [Hl%lowercase_facts Hv].
  constructor; try done.
  - eapply Forall_impl; [exact Hl|]. naive_solver.
  - rewrite Hn. auto with iron.
  - rewrite Hn. apply to_ascii_lowercase_idem.
  - rewrite forallb_forall in Hv. apply Forall_forall. intros c Hc%list_elem_of_In.
    by apply Hv, bool_decide_eq_true in Hc.
Qed.

Lemma tree_key_roundtrip_witness :
  exists d', @dn_from_tree_key bit_codec ex_pid (entry_key ex_pid alice) = Ok d' /\ d' ≡ alice.
Proof.
  apply (@tree_key_roundtrip bit_codec ex_pid alice); [by apply key_safeb_sound|].
  apply norm_plainb_sound; [apply alice_ok|by vm_compute].
Defined.

Lemma writes_refine_directory_witness :
  @repr bit_codec ex_pid ex_spec (delete (entry_key ex_pid alice) ex_dir)
    (exec zeros (@delete_entry_indexed bit_codec ex_pid alice ex_spec) ex_store).2.
Proof.
  assert (forall dn' e', ex_dir !! entry_key ex_pid alice = Some (dn', e') -> dn' = alice) as Hsp.
  { intros dn' e'. unfold ex_dir. rewrite lookup_singleton_eq. congruence. }
  apply (@writes_refine_directory bit_codec ex_pid ex_spec ex_dir ex_store alice entry_example
    eq_refl ex_store_repr alice_ok entry_example_wf Hsp) with (res := Ok tt).
  assert (Ok tt = (exec zeros (@delete_entry_indexed bit_codec ex_pid alice ex_spec) ex_store).1) as ->
    by (vm_compute; reflexivity).
  apply exec_runs, zeros_ok.
Defined.

Lemma lookup_by_index_exact_witness :
  exists l, (exec zeros (@lookup_by_index bit_codec ex_pid (str "CN") (str "Alice")) ex_store).1 = Ok l
    /\ alice ∈ l.
Proof.
  destruct (@lookup_by_index_exact bit_codec ex_pid ex_spec ex_dir ex_store (str "CN") (str "Alice")
    (exec zeros (@lookup_by_index bit_codec ex_pid (str "CN") (str "Alice")) ex_store).1
    (exec zeros (@lookup_by_index bit_codec ex_pid (str "CN") (str "Alice")) ex_store).2
    eq_refl ex_store_repr) as [_ [[e He]|(l & Hl & _ & Hin)]].
  - by_decide.
  - apply exec_runs, zeros_ok.
  - vm_compute in He. discriminate He.
  - exists l. split; [exact Hl|]. apply Hin. exists entry_example. unfold ex_dir.
    rewrite lookup_singleton_eq. split; [done|]. by_decide.
Defined.

Lemma scan_subtree_exact_witness :
  exists rows, (exec zeros (@scan_subtree bit_codec ex_pid users) ex_store).1 = Ok rows /\
    (entry_key ex_pid alice, @encode bit_codec entry_example) ∈ rows.
Proof.
  destruct (@scan_subtree_exact bit_codec ex_pid ex_spec ex_dir ex_store users
    (exec zeros (@scan_subtree bit_codec ex_pid users) ex_store).1
    (exec zeros (@scan_subtree bit_codec ex_pid users) ex_store).2
    ex_store_repr) as [_ [[e He]|(rows & Hrows & Hin)]].
  - intros k dn e. unfold ex_dir. intros [<- [= <- <-]]%lookup_singleton_Some. by apply key_safeb_sound.
  - by apply key_safeb_sound.
  - by vm_compute.
  - apply exec_runs, zeros_ok.
  - vm_compute in He. discriminate He.
  - exists rows. split; [exact Hrows|]. apply Hin. exists alice, entry_example. unfold ex_dir.
    rewrite lookup_singleton_eq. split; [done|]. split; [done|]. by vm_compute.
Defined.

Definition ex_creator (e : Entry) : prog (result (StoreError (@json_error bit_codec)) bool) :=
  @create_entry_indexed bit_codec ex_pid alice e ex_spec.

Lemma create_race_single_winner_witness :
  exists c, rtc step (mkConfig ∅ [ex_creator entry_example; ex_creator Entry.new]) c /\
    is_win <$> (cfg_procs c !! 1%nat) = Some true /\ is_Some (cfg_store c !! entry_key ex_pid alice).
Proof.
  pose proof (rtc_once _ _ (step_serve zeros ∅ [ex_creator entry_example; ex_creator Entry.new]
    1%nat _ _ zeros_ok eq_refl)) as Hr.
  eexists. split; [exact Hr|]. split; [vm_compute; reflexivity|].
  apply (@create_race_single_winner bit_codec ex_pid ex_spec (entry_key ex_pid alice) ∅ _ _) in Hr as [_ Hp].
  - eapply (Hp 1%nat); [reflexivity|vm_compute; reflexivity].
  - repeat constructor; by repeat eexists.
Defined.

(** The spelling hypothesis is needed.  Index keys carry the DN as spelled
    by the writer while tree keys are case-folded: deleting [cn=Alice] through
    the equal DN [cn=alice] removes the entry but leaves its index key, so a
    lookup still returns a DN that has no entry. *)
Theorem respelled_delete_leaves_index :
  let d := @delete_entry_indexed bit_codec ex_pid (dn_of (str "cn=alice,ou=users,dc=g10,dc=lo")) ex_spec in
  let m' := (exec zeros d ex_store).2 in
  dn_eq alice (dn_of (str "cn=alice,ou=users,dc=g10,dc=lo")) = true /\
  (exec zeros d ex_store).1 = Ok tt /\
  (exec zeros (@get_entry bit_codec ex_pid alice) m').1 = Ok None /\
  (exec zeros (@lookup_by_index bit_codec ex_pid (str "cn") (str "Alice")) m').1 = Ok [alice].
Proof. repeat split; vm_compute; reflexivity. Qed.
