(* ===== verification/Ridpool.v ===== *)
(** RID allocation, [crates/store/src/ridpool.rs]: a compare-and-swap loop on a
    counter key, correct for any number of interleaved processes. *)

From S2P Require Import Prelude Bytes Str Btree Utf8 Decimal Dn Partition Key Entry Etcd Index.

Definition FIRST_ALLOCATABLE_RID : Z := 1000.

Definition pool_key (pid : PartitionId) : rstring := str "/iron/" ++ pid ++ str "/ridpool/next".

Section allocation.
  Context `{EntryCodec}.
  Local Abbreviation sres A := (result (StoreError json_error) A).

(** The counter and the guard read in one turn of the loop. *)
Definition pool_read (pid : PartitionId) (resp : list (rstring * bytes)) : sres (Z * compare) :=
  let key := pool_key pid in
  match resp with
  | kv :: _ =>
      s ← value_str kv.2;
      n ← ok_or (RidPoolCorrupt pid s) (parse_uint u32_max s);
      Ok (n, ValueEqual key kv.2)
  | [] => Ok (FIRST_ALLOCATABLE_RID, CreateRevisionZero key)
  end.

(** The loop of [allocate_rid], at most [fuel] turns; [None] when every turn
    lost its race.  [current + 1] wraps as release builds do. *)
Fixpoint allocate_rid (fuel : nat) (pid : PartitionId) : prog (sres (option Z)) :=
  match fuel with
  | O => Ret (Ok None)
  | S fuel' =>
      let key := pool_key pid in
      resp <-? prog_map_err EtcdErr (get key false) ;;
      '(current, compare) <-? lift (pool_read pid resp) ;;
      let next := as_u32 (current + 1) in
      won <-? etcd_txn [compare] [OpPut key (utf8_encode (to_decimal next))] ;;
      if won : bool then Ret (Ok (Some current)) else allocate_rid fuel' pid
  end.
End allocation.

(** The counter a store holds. *)
Definition pool_value (pid : PartitionId) (m : kvstore) : option Z :=
  match m !! pool_key pid with
  | None => Some FIRST_ALLOCATABLE_RID
  | Some v => s ← utf8_decode v; parse_uint u32_max s
  end.

Lemma pool_value_insert pid m n :
  0 <= n <= u32_max -> pool_value pid (<[pool_key pid := utf8_encode (to_decimal n)]> m) = Some n.
Proof.
  intros Hn. unfold pool_value. rewrite lookup_insert_eq, utf8_roundtrip.
  - by apply parse_uint_to_decimal.
  - pose proof (to_decimal_digits n ltac:(lia)) as Hd. eapply Forall_impl; [exact Hd|].
    intros c Hc. unfold is_ascii_digit in Hc. apply andb_true_iff in Hc as [?%Z.leb_le ?%Z.leb_le].
    left. lia.
Qed.

Section interleaving.
  Context `{EntryCodec} (pid : PartitionId).
  Local Abbreviation outcome := (result (StoreError json_error) (option Z)).

(** The part of a turn after the read, and after the transaction. *)
Definition after_txn (fuel : nat) (current : Z) (won : bool) : prog outcome :=
  if won then Ret (Ok (Some current)) else allocate_rid fuel pid.
Definition cas (fuel : nat) (current : Z) (compare : compare) : prog outcome :=
  won <-? etcd_txn [compare] [OpPut (pool_key pid) (utf8_encode (to_decimal (as_u32 (current + 1))))] ;;
  after_txn fuel current won.
Definition after_read (fuel : nat) (resp : list (rstring * bytes)) : prog outcome :=
  '(current, compare) <-? lift (pool_read pid resp) ;; cas fuel current compare.

(** A guard that holds only in stores whose counter is [current]. *)
Definition guards (current : Z) (c : compare) : Prop :=
  forall m, compare_holds m c = true -> pool_value pid m = Some current.

(** The states an allocating process goes through. *)
Inductive rid_state : prog outcome -> Prop :=
| rs_read attempts fuel :
    rid_state (try_bind (prog_map_err EtcdErr (get_attempts attempts (pool_key pid) false)) (after_read fuel))
| rs_cas fuel current c : guards current c -> 0 <= current <= u32_max -> rid_state (cas fuel current c)
| rs_done r : rid_state (Ret r).

Lemma allocate_rid_state fuel : rid_state (allocate_rid fuel pid).
Proof. destruct fuel; [apply rs_done|]. apply (rs_read 5 fuel). Qed.

Lemma pool_read_guards resp current c :
  pool_read pid resp = Ok (current, c) -> guards current c /\ 0 <= current <= u32_max.
Proof.
  unfold pool_read. destruct resp as [|[k v] resp].
  - intros [= <- <-]. split; [|done]. intros m. simpl. rewrite bool_decide_eq_true.
    unfold pool_value. by intros ->.
  - rewrite bind_ok. intros (s & Hs & (n & Hn & [= <- <-])%bind_ok). split.
    + intros m. simpl. rewrite bool_decide_eq_true. unfold pool_value. intros ->.
      unfold value_str in Hs. simpl in Hs. destruct (utf8_decode v); [|done]. injection Hs as ->. simpl.
      by destruct (parse_uint u32_max s); [injection Hn as ->|].
    + destruct (parse_uint u32_max s) eqn:E; [|done]. injection Hn as ->.
      apply parse_uint_bound in E; [done|]. by unfold u32_max.
Qed.

Lemma after_read_state fuel resp : rid_state (after_read fuel resp).
Proof.
  unfold after_read, try_bind, lift. simpl. destruct (pool_read pid resp) as [[current c]|e] eqn:E;
    [|apply rs_done]. apply pool_read_guards in E as [? ?]. by apply rs_cas.
Qed.

Lemma after_txn_state fuel current won : rid_state (after_txn fuel current won).
Proof. destruct won; [apply rs_done|apply allocate_rid_state]. Qed.

Definition is_done (p : prog outcome) : bool := match p with Ret _ => true | _ => false end.
Definition returned (p : prog outcome) (rid : Z) : Prop := p = Ret (Ok (Some rid)).

(** One served request of a process: either the store keeps its counter and
    the process returns no RID, or the counter [current] is incremented, the
    process is done, and returns at most [current]. *)
Lemma rid_call_step (p : prog outcome) r (k : reply r -> prog outcome) (m m' : kvstore) (rep : reply r) (c : Z) :
  rid_state p -> p = Call r k -> served m r rep m' -> pool_value pid m = Some c -> c < u32_max ->
  rid_state (k rep) /\
  ((pool_value pid m' = Some c /\ forall rid, ~ returned (k rep) rid) \/
   (pool_value pid m' = Some (c + 1) /\ is_done (k rep) = true /\
    forall rid, returned (k rep) rid -> rid = c)).
Proof.
  intros Hst Hp Hs Hc Hmax. destruct Hst as [attempts fuel|fuel current cmp Hg Hb|x]; [| |done].
  - assert (exists k0, Call r k = Call (Get (pool_key pid) false) k0 /\
      forall x, (exists a, k0 x = try_bind (prog_map_err EtcdErr (get_attempts a (pool_key pid) false)) (after_read fuel))
                \/ (exists resp, x = Ok resp /\ k0 x = after_read fuel resp)
                \/ exists e, k0 x = Ret (Err e)) as (k0 & Hk0 & Hcases).
    { rewrite <- Hp. destruct attempts; (eexists; split; [reflexivity|]); intros [resp|e]; simpl; eauto.
      destruct e as [code| |]; simpl; eauto. destruct (code =? GRPC_UNAVAILABLE); simpl; eauto. }
    assert (r = Get (pool_key pid) false) as -> by congruence. apply Call_inj in Hk0 as ->.
    destruct Hs as [-> _]. destruct (Hcases rep) as [[a ->]|[(resp & _ & ->)|[e ->]]].
    + split; [apply rs_read|]. left. split; [done|]. intros rid. unfold returned.
      destruct a; simpl; discriminate.
    + split; [apply after_read_state|]. left. split; [done|]. intros rid. unfold returned, after_read, try_bind.
      simpl. destruct (pool_read pid resp) as [[]|]; simpl; discriminate.
    + split; [apply rs_done|]. left. split; [done|]. intros rid. unfold returned. discriminate.
  - unfold cas, try_bind, etcd_txn in Hp. simpl in Hp. assert (r = Txn [cmp]
      [OpPut (pool_key pid) (utf8_encode (to_decimal (as_u32 (current + 1))))]) as -> by congruence.
    apply Call_inj in Hp as <-. simpl in Hs. rewrite andb_true_r in Hs.
    assert (forall m1, m1 = (if compare_holds m cmp then
        <[pool_key pid := utf8_encode (to_decimal (as_u32 (current + 1)))]> m else m) ->
      (compare_holds m cmp = true /\ current = c /\ pool_value pid m1 = Some (c + 1)) \/
      (compare_holds m cmp = false /\ m1 = m)) as Hpost.
    { intros m1 ->. destruct (compare_holds m cmp) eqn:E; [left|right; auto]. apply Hg in E.
      assert (current = c) as -> by congruence. split; [done|]. split; [done|].
      unfold as_u32, u32_max in *. rewrite Z.mod_small by lia. apply pool_value_insert. unfold u32_max. lia. }
    destruct Hs as [[-> Hm]|(e & -> & [->|Hm])]; simpl.
    + destruct (Hpost _ Hm) as [(-> & -> & Hv)|(-> & ->)]; (split; [apply after_txn_state|]).
      * right. split; [done|]. split; [done|]. intros rid [= <-]. done.
      * left. split; [done|]. intros rid. unfold returned, after_txn. destruct fuel; discriminate.
    + split; [apply rs_done|]. left. split; [done|]. intros rid. discriminate.
    + split; [apply rs_done|]. destruct (Hpost _ Hm) as [(_ & _ & Hv)|(_ & ->)].
      * right. split; [done|]. split; [done|]. intros rid. discriminate.
      * left. split; [done|]. intros rid. discriminate.
Qed.

(** ** The pool invariant *)

Definition done_count (ps : list (prog outcome)) : Z := zlen (List.filter is_done ps).

Lemma done_count_insert ps i p q :
  ps !! i = Some p -> is_done p = false ->
  done_count (<[i := q]> ps) = done_count ps + (if is_done q then 1 else 0).
Proof.
  unfold done_count. revert i; induction ps as [|x ps IH]; intros [|i] Hi Hp; try done; simpl in *.
  - injection Hi as ->. rewrite Hp. destruct (is_done q); rewrite ?zlen_cons; lia.
  - destruct (is_done x); rewrite ?zlen_cons, (IH i Hi Hp); lia.
Qed.

Lemma done_count_le ps : done_count ps <= zlen ps.
Proof.
  unfold done_count, zlen. pose proof (filter_length_le is_done ps). lia.
Qed.

(** [c0] is the initial counter; the current one is ahead of it by at most the
    number of finished processes, and every returned RID lies between. *)
Record pool_inv (c0 : Z) (cfg : config outcome) : Prop := {
  pi_state : forall i p, cfg_procs cfg !! i = Some p -> rid_state p;
  pi_counter : exists c, pool_value pid (cfg_store cfg) = Some c /\
                 c0 <= c <= c0 + done_count (cfg_procs cfg) /\
                 forall i p rid, cfg_procs cfg !! i = Some p -> returned p rid -> c0 <= rid < c;
  pi_unique : forall i j p q rid, cfg_procs cfg !! i = Some p -> cfg_procs cfg !! j = Some q ->
                returned p rid -> returned q rid -> i = j;
}.

Lemma pool_step c0 (cfg cfg' : config outcome) :
  c0 + zlen (cfg_procs cfg) <= u32_max -> pool_inv c0 cfg -> step cfg cfg' ->
  pool_inv c0 cfg' /\ zlen (cfg_procs cfg') = zlen (cfg_procs cfg).
Proof.
  intros Hmax [Hst (c & Hc & Hrange & Hret) Huniq] Hstep.
  destruct Hstep as [m ps i r k rep m' Hi Hs]; simpl in *.
  split; [|unfold zlen; by rewrite length_insert].
  pose proof (done_count_insert ps i _ (k rep) Hi eq_refl) as Hcount.
  assert (done_count (<[i := k rep]> ps) <= zlen ps) as Hle.
  { pose proof (done_count_le (<[i := k rep]> ps)) as Hl. unfold zlen in *. by rewrite length_insert in Hl. }
  assert (c < u32_max) as Hlt.
  { assert (done_count ps < zlen ps); [|lia].
    pose proof (done_count_insert ps i _ (Ret (Ok None)) Hi eq_refl) as Hc1. simpl in Hc1.
    pose proof (done_count_le (<[i := Ret (Ok None)]> ps)) as Hl. unfold zlen in *.
    rewrite length_insert in Hl. lia. }
  destruct (rid_call_step _ r k m m' rep c (Hst _ _ Hi) eq_refl Hs Hc Hlt) as [Hst' Hcase].
  assert (forall j q rid, <[i := k rep]> ps !! j = Some q -> returned q rid ->
    (j = i /\ returned (k rep) rid) \/ (j <> i /\ ps !! j = Some q)) as Hsplit.
  { intros j q rid. rewrite list_lookup_insert_Some. intros [(-> & <- & _)|[? ?]]; auto. }
  assert (forall rid, returned (k rep) rid -> rid = c /\ pool_value pid m' = Some (c + 1)) as Hnew.
  { intros rid Hr. destruct Hcase as [[_ Hn]|(Hv & _ & Hn)]; [by apply Hn in Hr|]. auto. }
  constructor; simpl.
  - intros j q. rewrite list_lookup_insert_Some. intros [(-> & <- & _)|[_ ?]]; eauto.
  - destruct Hcase as [[Hv Hn]|(Hv & Hd & Hn)].
    + exists c. split; [done|]. split; [destruct (is_done (k rep)); lia|].
      intros j q rid Hj Hr. destruct (Hsplit _ _ _ Hj Hr) as [[_ Hr']|[_ Hj']]; [by apply Hn in Hr'|eauto].
    + exists (c + 1). split; [done|]. rewrite Hd in Hcount. split; [lia|].
      intros j q rid Hj Hr. destruct (Hsplit _ _ _ Hj Hr) as [[_ ->%Hn]|[_ Hj']]; [lia|].
      specialize (Hret _ _ _ Hj' Hr). lia.
  - intros j1 j2 q1 q2 rid Hj1 Hj2 Hr1 Hr2.
    destruct (Hsplit _ _ _ Hj1 Hr1) as [[-> Hn1]|[_ H1]], (Hsplit _ _ _ Hj2 Hr2) as [[-> Hn2]|[_ H2]];
      [done| | |by eapply Huniq]; exfalso.
    + destruct (Hnew _ Hn1) as [-> _]. specialize (Hret _ _ _ H2 Hr2). lia.
    + destruct (Hnew _ Hn2) as [-> _]. specialize (Hret _ _ _ H1 Hr1). lia.
Qed.

Lemma pool_reachable c0 cfg cfg' :
  c0 + zlen (cfg_procs cfg) <= u32_max -> pool_inv c0 cfg -> rtc step cfg cfg' -> pool_inv c0 cfg'.
Proof.
  intros Hmax Hinv Hr. revert Hmax Hinv. induction Hr as [|x y z Hxy _ IH]; [done|].
  intros Hmax Hinv. destruct (pool_step c0 x y Hmax Hinv Hxy) as [? Heq]. apply IH; [by rewrite Heq|done].
Qed.

Lemma pool_initial c0 m fuels :
  pool_value pid m = Some c0 ->
  pool_inv c0 (mkConfig m (List.map (fun f => allocate_rid f pid) fuels)).
Proof.
  intros Hm.
  assert (forall i p, List.map (fun f => allocate_rid f pid) fuels !! i = Some p ->
    rid_state p /\ forall rid, ~ returned p rid) as Hp.
  { intros i p Hi. change (List.map ?f ?l) with (f <$> l) in Hi.
    apply list_lookup_fmap_Some in Hi as (f & -> & _). split; [apply allocate_rid_state|].
    intros rid. unfold returned. destruct f; discriminate. }
  constructor; simpl.
  - intros i p Hi. by apply Hp in Hi as [? _].
  - exists c0. split; [done|]. split; [unfold done_count; pose proof (zlen_nonneg
      (List.filter is_done (List.map (fun f => allocate_rid f pid) fuels))); lia|].
    intros i p rid Hi Hr. by apply Hp in Hi as [_ ?%(fun h => h rid)].
  - intros i j p q rid Hi _ Hr. by apply Hp in Hi as [_ ?%(fun h => h rid)].
Qed.
End interleaving.

(** C2: RIDs are unique: any number of allocating processes, interleaved in any
    way and with any of their requests failing (committed or not), return
    pairwise different RIDs, all at or above the counter the pool held and
    below its 32-bit limit. *)
Theorem allocate_rid_unique `{EntryCodec} pid m c0 fuels cfg :
  pool_value pid m = Some c0 -> c0 + zlen fuels <= u32_max ->
  rtc step (mkConfig m (List.map (fun f => allocate_rid f pid) fuels)) cfg ->
  (forall (i : nat) rid, cfg_procs cfg !! i = Some (Ret (Ok (Some rid))) -> c0 <= rid < c0 + zlen fuels) /\
  (forall (i j : nat) rid, cfg_procs cfg !! i = Some (Ret (Ok (Some rid))) ->
     cfg_procs cfg !! j = Some (Ret (Ok (Some rid))) -> i = j).
Proof.
  intros Hm Hmax Hr.
  assert (zlen (List.map (fun f => allocate_rid f pid) fuels) = zlen fuels) as Hz
    by (unfold zlen; by rewrite length_map).
  apply rtc_step_zlen in Hr as Hl. simpl in Hl. rewrite Hz in Hl.
  apply (pool_reachable pid c0) in Hr as [_ (c & _ & Hrange & Hret) Huniq]; [|by simpl; rewrite Hz|
    by apply pool_initial].
  split; [|intros; by eapply Huniq]. intros i rid Hi. specialize (Hret _ _ _ Hi eq_refl).
  pose proof (done_count_le (cfg_procs cfg)). lia.
Qed.

(** ** A process alone *)

(** What one turn of the loop reads. *)
Lemma pool_read_value `{EntryCodec} pid m c0 :
  pool_value pid m = Some c0 ->
  pool_read pid (read m (pool_key pid) false) =
    Ok (c0, match m !! pool_key pid with Some v => ValueEqual (pool_key pid) v
            | None => CreateRevisionZero (pool_key pid) end) /\ 0 <= c0 <= u32_max.
Proof.
  unfold pool_value, read, pool_read, value_str. intros Hm. destruct (m !! pool_key pid) as [v|].
  - simpl. destruct (utf8_decode v) as [s|]; [|done]. simpl in *. rewrite Hm.
    split; [done|]. by apply parse_uint_bound in Hm.
  - injection Hm as <-. done.
Qed.

(** A process alone, on a service that may fail: either nothing changed or
    the counter advanced by one, and a RID handed out was the counter. *)
Lemma pool_value_u32 pid m n : pool_value pid m = Some n -> in_u32 n.
Proof.
  unfold pool_value. destruct (m !! pool_key pid) as [v|]; [|by intros [= <-]].
  destruct (utf8_decode v) as [s|]; [|done]. cbn [mbind option_bind]. intros Hn%parse_uint_bound; [|by vm_compute].
  unfold in_u32, u32_max in *. lia.
Qed.

(** Allocation does not touch the entries and their indexes. *)
Lemma repr_pool `{EntryCodec} pid spec D m v :
  repr pid spec D m -> repr pid spec D (<[pool_key pid := v]> m).
Proof.
  intros HR. eapply repr_frame; [exact HR|]. intros k Hk. apply lookup_insert_ne. intros <-.
  destruct Hk as [Hk|Hk]; apply starts_with_spec in Hk as [r Hr]; unfold pool_key, tree_root, idx_root in Hr;
    rewrite <- ?app_assoc in Hr; apply app_inv_head, app_inv_head in Hr; discriminate Hr.
Qed.

Lemma allocate_rid_runs `{EntryCodec} pid m c0 fuel r m' :
  pool_value pid m = Some c0 -> runs (allocate_rid fuel pid) m r m' ->
  let post := <[pool_key pid := utf8_encode (to_decimal (as_u32 (c0 + 1)))]> m in
  (m' = m \/ m' = post) /\ (forall rid, r = Ok (Some rid) -> rid = c0 /\ m' = post).
Proof.
  intros Hm. destruct (pool_read_value pid m c0 Hm) as [Hread _]. destruct fuel as [|fuel].
  { intros [-> ->]. split; [by left|done]. }
  cbn [allocate_rid]. rewrite runs_try. setoid_rewrite runs_map_err.
  intros [(e & (x & [-> _]%get_runs & _) & ->)|(resp & m1 & (x & Hget & Hx) & Hr)]; [by split; [left|]|].
  apply get_runs in Hget as [-> Hrep]. destruct Hrep as [->|[e ->]]; [|by simpl in Hx].
  cbn [map_err] in Hx. assert (resp = read m (pool_key pid) false) as -> by congruence.
  rewrite runs_try in Hr. cbn [lift runs] in Hr.
  destruct Hr as [(e & [He _] & _)|([c cmp] & m1 & [Hc ->] & Hr)]; [by rewrite Hread in He|].
  rewrite Hread in Hc. injection Hc as -> ->. set (cmp := match m !! pool_key pid with Some _ => _ | None => _ end) in *.
  assert (forallb (compare_holds m) [cmp] = true) as Hcmp.
  { unfold cmp. destruct (m !! pool_key pid) as [v|] eqn:E; cbn [forallb compare_holds]; by rewrite E, bool_decide_true. }
  rewrite runs_try in Hr.
  destruct Hr as [(e & Ht & ->)|(b & m1 & Ht & Hr)]; apply etcd_txn_runs in Ht; rewrite Hcmp in Ht; simpl in Ht.
  - destruct Ht as [[? _]|[_ [->| ->]]]; [done|..]; (split; [auto|done]).
  - destruct Ht as [[[= ->] ->]|[[? ?] _]]; [|done]. destruct Hr as [-> ->].
    split; [by right|]. by intros rid [= <-].
Qed.



(** A process alone succeeds in its first turn: with the service answering,
    [allocate_rid] returns the counter and stores its successor, starting from
    1000 in a fresh partition. *)
Theorem allocate_rid_alone `{EntryCodec} pid m c0 fuel :
  pool_value pid m = Some c0 -> c0 < u32_max -> (1 <= fuel)%nat ->
  exec zeros (allocate_rid fuel pid) m =
    (Ok (Some c0), <[pool_key pid := utf8_encode (to_decimal (c0 + 1))]> m).
Proof.
  intros Hm Hmax Hf. destruct fuel as [|fuel]; [lia|].
  destruct (pool_read_value pid m c0 Hm) as [Hread H0].
  cbn [allocate_rid]. rewrite exec_try, exec_map_err, exec_get. cbn [map_err].
  rewrite exec_try. cbn [lift exec]. rewrite Hread, exec_try. cbn [etcd_txn exec serve].
  assert (as_u32 (c0 + 1) = c0 + 1) as -> by (unfold as_u32, u32_max in *; apply Z.mod_small; lia).
  destruct (m !! pool_key pid) as [v|] eqn:E; cbn [forallb compare_holds]; by rewrite E, bool_decide_true.
Qed.

(** At the end of the range the counter wraps: from 4294967295 a release
    build hands out 4294967295 and then 0, inside the reserved range and on the
    way to RIDs already in use. *)
Theorem allocate_rid_wraps :
  let m := {[ pool_key (str "g10") := utf8_encode (to_decimal u32_max) ]} in
  let '(r1, m1) := exec zeros (@allocate_rid bit_codec 1 (str "g10")) m in
  let '(r2, m2) := exec zeros (@allocate_rid bit_codec 1 (str "g10")) m1 in
  r1 = Ok (Some u32_max) /\ r2 = Ok (Some 0).
Proof. vm_compute. split; reflexivity. Qed.

Lemma allocate_rid_alone_witness :
  (exec zeros (@allocate_rid bit_codec 3 (str "g10")) ∅).1 = Ok (Some 1000).
Proof.
  rewrite (@allocate_rid_alone bit_codec (str "g10") ∅ 1000 3); [done|by vm_compute|by vm_compute|lia].
Defined.

Lemma allocate_rid_unique_witness :
  exists cfg, rtc step (mkConfig ∅ (List.map (fun f => @allocate_rid bit_codec f (str "g10")) [1%nat; 2%nat])) cfg /\
    (forall (i j : nat) rid, cfg_procs cfg !! i = Some (Ret (Ok (Some rid))) ->
       cfg_procs cfg !! j = Some (Ret (Ok (Some rid))) -> i = j).
Proof.
  pose proof (rtc_once _ _ (step_serve zeros ∅ (List.map (fun f => @allocate_rid bit_codec f (str "g10"))
    [1%nat; 2%nat]) 1%nat _ _ zeros_ok eq_refl)) as Hr.
  revert Hr. match goal with |- rtc step _ ?c -> _ => generalize c end. intros cfg Hr.
  exists cfg. split; [exact Hr|].
  refine (proj2 (@allocate_rid_unique bit_codec (str "g10") ∅ 1000 [1%nat; 2%nat] cfg _ _ Hr)); by vm_compute.
Defined.
