(* ===== verification/Store.v ===== *)
(** The multi-cluster store, [crates/store/src/store.rs]: each operation is
    routed to the partition that owns its DN and stays inside that partition's
    key range. *)

From S2P Require Import Prelude Bytes Str Btree Utf8 Decimal Dn Partition Key Registry Entry Etcd Index Ridpool.

(** [clients] is the set of partitions with a connection. *)
Record Store := mkStore { registry : PartitionRegistry; clients : list PartitionId }.

Section store.
  Context `{EntryCodec}.
  Local Abbreviation sres A := (result (StoreError json_error) A).

(** [Store::connect], over what connecting to one cluster gives. *)
Definition connect (connect_cluster : ClusterRef -> sres unit) (reg : PartitionRegistry) : sres Store :=
  clients ← try_map (fun p => _ ← connect_cluster (cluster p); Ok (p_id p)) (iter reg);
  Ok (mkStore reg clients).

Definition resolve (st : Store) (dn : Dn) : sres Partition :=
  ok_or (NoPartitionFor (Dn.to_string dn)) (Registry.resolve (registry st) dn).

Definition client_mut (st : Store) (pid : PartitionId) : sres unit :=
  if bool_decide (pid ∈ clients st) then Ok tt else Err (NotConnected pid).

(** The first two lines of every operation. *)
Definition in_partition {A} (st : Store) (dn : Dn) (op : PartitionId -> prog (sres A)) : prog (sres A) :=
  p <-? lift (resolve st dn) ;;
  let pid := p_id p in
  _ <-? lift (client_mut st pid) ;;
  op pid.

Definition put_entry (st : Store) (dn : Dn) (entry : Entry) (spec : IndexSpec) : prog (sres unit) :=
  in_partition st dn (fun pid => put_entry_indexed pid dn entry spec).

Definition create_entry (st : Store) (dn : Dn) (entry : Entry) (spec : IndexSpec) : prog (sres bool) :=
  in_partition st dn (fun pid => create_entry_indexed pid dn entry spec).

Definition get_entry (st : Store) (dn : Dn) : prog (sres (option Entry)) :=
  in_partition st dn (fun pid =>
    bytes <-? Index.get_entry pid dn ;;
    Ret (match bytes with
         | Some b => Some <$> map_err EntryDecode (decode b)
         | None => Ok None
         end)).

Definition delete_entry (st : Store) (dn : Dn) (spec : IndexSpec) : prog (sres unit) :=
  in_partition st dn (fun pid => delete_entry_indexed pid dn spec).

Definition lookup_by_index (st : Store) (dn_in_partition : Dn) (attr value : rstring) : prog (sres (list Dn)) :=
  in_partition st dn_in_partition (fun pid => Index.lookup_by_index pid attr value).

(** One row of a scan, decoded. *)
Definition decode_row (pid : PartitionId) (kv : rstring * bytes) : sres (Dn * Entry) :=
  dn ← dn_from_tree_key pid kv.1;
  entry ← map_err EntryDecode (decode kv.2);
  Ok (dn, entry).

Definition scan_subtree (st : Store) (dn : Dn) : prog (sres (list (Dn * Entry))) :=
  in_partition st dn (fun pid =>
    rows <-? Index.scan_subtree pid dn ;;
    Ret (try_map (decode_row pid) rows)).

Definition allocate_rid (st : Store) (dn_in_partition : Dn) (fuel : nat) : prog (sres (option Z)) :=
  in_partition st dn_in_partition (fun pid => Ridpool.allocate_rid fuel pid).

(** ** Routing *)

(** What [in_partition] does once the registry has answered. *)
Lemma in_partition_connected {A} st dn (op : PartitionId -> prog (sres A)) p :
  Registry.resolve (registry st) dn = Some p -> p_id p ∈ clients st -> in_partition st dn op = op (p_id p).
Proof.
  intros Hr Hc. unfold in_partition, resolve, client_mut, lift, try_bind. rewrite Hr. simpl.
  by rewrite bool_decide_true.
Qed.

Lemma in_partition_unowned {A} st dn (op : PartitionId -> prog (sres A)) :
  Registry.resolve (registry st) dn = None ->
  in_partition st dn op = Ret (Err (NoPartitionFor (Dn.to_string dn))).
Proof. intros Hr. unfold in_partition, resolve, lift, try_bind. by rewrite Hr. Qed.

Lemma connect_all f reg st :
  connect f reg = Ok st -> registry st = reg /\ forall p, p ∈ iter reg -> p_id p ∈ clients st.
Proof.
  unfold connect. intros (cs & Hcs & [= <-])%bind_ok. simpl. split; [done|].
  apply try_map_ok in Hcs. intros p Hp. apply list_elem_of_lookup in Hp as [i Hi].
  eapply Forall2_lookup_l in Hcs as (pid & Hpid & Hok); [|exact Hi].
  apply bind_ok in Hok as (_ & _ & [= <-]). apply list_elem_of_lookup. eauto.
Qed.

(** ** Isolation

    [touches P p]: every key the program can send, whatever the replies, is in
    [P]. *)
Definition request_keys (r : request) : list rstring :=
  match r with
  | Get k _ => [k]
  | Put k _ => [k]
  | Txn cs ops =>
      List.map (fun c => match c with VersionZero k | CreateRevisionZero k | ValueEqual k _ => k end) cs
      ++ List.map (fun o => match o with OpPut k _ | OpDelete k => k end) ops
  | Random _ | Now => []
  end.

Fixpoint touches {A} (P : rstring -> Prop) (p : prog A) : Prop :=
  match p with
  | Ret _ => True
  | Call r k => Forall P (request_keys r) /\ forall rep, touches P (k rep)
  end.

Lemma touches_bind {A B} P (f : A -> prog B) p :
  touches P p -> (forall a, touches P (f a)) -> touches P (prog_bind_ f p).
Proof. induction p as [a|r k IH]; simpl; [auto|]. intros [Hr Hk] Hf. auto. Qed.

Lemma touches_try {E A B} P (f : A -> prog (result E B)) (p : prog (result E A)) :
  touches P p -> (forall a, touches P (f a)) -> touches P (try_bind p f).
Proof. intros Hp Hf. apply touches_bind; [done|]. intros []; [apply Hf|done]. Qed.

Lemma touches_map_err {E F A} P (f : E -> F) (p : prog (result E A)) :
  touches P p -> touches P (prog_map_err f p).
Proof. intros Hp. by apply touches_bind. Qed.

Lemma touches_get P key prefix : P key -> touches P (get key prefix).
Proof.
  intros Hk. unfold get. generalize 5%nat. intros n. induction n as [|n IH]; simpl.
  - split; [by constructor|done].
  - split; [by constructor|]. intros [r|[code| |]]; simpl; try done. by destruct (code =? GRPC_UNAVAILABLE).
Qed.

Lemma touches_txn P cs ops : Forall P (request_keys (Txn cs ops)) -> touches P (etcd_txn cs ops).
Proof. intros HP. simpl. auto. Qed.

Section partition_range.
  Context (pid : PartitionId).

(** Under the root of the partition. *)
Definition in_range (k : rstring) : Prop := starts_with (partition_root pid) k = true.

Lemma in_range_app s : in_range (str "/iron/" ++ pid ++ c_slash :: s).
Proof.
  unfold in_range. apply starts_with_spec. exists s. unfold partition_root. by rewrite <- !app_assoc.
Qed.

Lemma entry_key_range dn : in_range (entry_key pid dn).
Proof. rewrite entry_key_unfold. apply in_range_app. Qed.
Lemma subtree_prefix_range dn : in_range (subtree_prefix pid dn).
Proof. unfold subtree_prefix. rewrite entry_key_unfold, <- !app_assoc. apply in_range_app. Qed.
Lemma index_key_range a v dn : in_range (index_key pid a v dn).
Proof. rewrite index_key_unfold. apply in_range_app. Qed.
Lemma index_prefix_range a v : in_range (index_prefix pid a v).
Proof. rewrite <- (app_nil_r (index_prefix _ _ _)), index_prefix_unfold. apply in_range_app. Qed.
Lemma pool_key_range : in_range (pool_key pid).
Proof. apply (in_range_app (str "ridpool/next")). Qed.

Hint Resolve entry_key_range subtree_prefix_range index_key_range index_prefix_range pool_key_range : iron.

Lemma index_keys_range dn e spec : Forall in_range (index_keys_for pid dn e spec).
Proof.
  apply Forall_forall. intros k Hk. apply (keys_of_elem pid spec) in Hk as (a & v & _ & _ & ->).
  apply index_key_range.
Qed.

Lemma index_ops_range (f : rstring -> txn_op) ks :
  (forall k, request_keys (Txn [] [f k]) = [k]) -> Forall in_range ks ->
  Forall in_range (List.map (fun o => match o with OpPut k _ | OpDelete k => k end) (List.map f ks)).
Proof.
  intros Hf Hks. rewrite map_map. apply Forall_fmap. eapply Forall_impl; [exact Hks|].
  intros k Hk. specialize (Hf k). simpl in Hf. simpl. injection Hf as ->. done.
Qed.

Lemma read_entry_touches dn : touches in_range (read_entry pid dn).
Proof.
  apply touches_try; [apply touches_map_err, touches_get, entry_key_range|]. by intros [|].
Qed.

Lemma put_touches dn e spec : touches in_range (put_entry_indexed pid dn e spec).
Proof.
  apply touches_try; [apply read_entry_touches|]. intros old.
  apply touches_try; [|done]. apply touches_txn. simpl. rewrite !map_app. simpl.
  apply Forall_app. split; [|constructor; [apply entry_key_range|]];
    (apply index_ops_range; [done|]); [|apply index_keys_range].
  destruct old as [old|]; [|constructor]. apply Forall_forall.
  intros k [Hk _]%list_elem_of_In%filter_In. pose proof (index_keys_range dn old spec) as Hr.
  rewrite Forall_forall in Hr. apply Hr. by apply list_elem_of_In.
Qed.

Lemma create_touches dn e spec : touches in_range (create_entry_indexed pid dn e spec).
Proof.
  apply touches_txn. simpl. constructor; [apply entry_key_range|]. constructor; [apply entry_key_range|].
  apply index_ops_range; [done|]. apply index_keys_range.
Qed.

Lemma delete_touches dn spec : touches in_range (delete_entry_indexed pid dn spec).
Proof.
  apply touches_try; [apply read_entry_touches|]. intros [old|]; [|done].
  apply touches_try; [|done]. apply touches_txn. simpl. constructor; [apply entry_key_range|].
  apply index_ops_range; [done|]. apply index_keys_range.
Qed.

Lemma lookup_touches a v : touches in_range (Index.lookup_by_index pid a v).
Proof. apply touches_try; [apply touches_map_err, touches_get, index_prefix_range|done]. Qed.

Lemma raw_get_touches dn : touches in_range (Index.get_entry pid dn).
Proof. apply touches_try; [apply touches_map_err, touches_get, entry_key_range|done]. Qed.

Lemma raw_scan_touches dn : touches in_range (Index.scan_subtree pid dn).
Proof.
  apply touches_try; [apply touches_map_err, touches_get, subtree_prefix_range|]. intros out.
  apply touches_try; [apply raw_get_touches|done].
Qed.

Lemma allocate_touches fuel : touches in_range (Ridpool.allocate_rid fuel pid).
Proof.
  induction fuel as [|fuel IH]; [done|]. cbn [Ridpool.allocate_rid].
  apply touches_try; [apply touches_map_err, touches_get, pool_key_range|]. intros resp.
  unfold lift, try_bind at 1. simpl. destruct (pool_read pid resp) as [[cur c]|e] eqn:E; [|done].
  apply touches_try; [|by intros []]. apply touches_txn. simpl.
  assert (match c with VersionZero k | CreateRevisionZero k | ValueEqual k _ => k end = pool_key pid) as ->.
  { revert E. unfold pool_read. destruct resp as [|kv resp]; [by intros [= _ <-]|].
    intros (s & _ & (n & _ & [= _ <-])%bind_ok)%bind_ok. done. }
  repeat constructor; apply pool_key_range.
Qed.
End partition_range.
End store.

(** ** Frame

    Keys a program does not touch keep their value. *)
Lemma apply_ops_frame (P : rstring -> Prop) (ops : list txn_op) (m : kvstore) k :
  Forall P (List.map (fun o => match o with OpPut k _ | OpDelete k => k end) ops) -> ~ P k ->
  apply_ops ops m !! k = m !! k.
Proof.
  intros Hops Hk. revert m. induction ops as [|o ops IH]; intros m; [done|].
  cbn [List.map] in Hops. apply Forall_cons in Hops as [Ho Hops]. unfold apply_ops. cbn [foldl].
  change (apply_ops ops (apply_op m o) !! k = m !! k). rewrite IH by done.
  destruct o; simpl; [rewrite lookup_insert_ne|rewrite lookup_delete_ne]; congruence.
Qed.

Lemma served_frame (P : rstring -> Prop) m r rep m' k :
  served m r rep m' -> Forall P (request_keys r) -> ~ P k -> m' !! k = m !! k.
Proof.
  destruct r as [key pre|key v|cs ops|n|]; simpl; intros Hs HP Hk.
  - destruct Hs as [-> _]. done.
  - apply Forall_cons in HP as [HP _]. assert (<[key := v]> m !! k = m !! k)
      by (apply lookup_insert_ne; congruence).
    destruct Hs as [[_ ->]|(? & _ & [->| ->])]; done.
  - apply Forall_app in HP as [_ HP]. pose proof (apply_ops_frame P ops m k HP Hk) as Hf.
    destruct Hs as [[_ ->]|(? & _ & [->| ->])]; try done; by destruct (forallb _ cs).
  - by destruct Hs as [-> _].
  - by rewrite Hs.
Qed.

Lemma runs_frame {A} (P : rstring -> Prop) (p : prog A) m a m' k :
  touches P p -> runs p m a m' -> ~ P k -> m' !! k = m !! k.
Proof.
  revert m. induction p as [x|r f IH]; intros m; simpl; [by intros _ [_ ->]|].
  intros [Hr Hf] (rep & m1 & Hs & Hrun) Hk. rewrite (IH rep m1) by auto. by eapply served_frame.
Qed.

Section isolation.
  Context `{EntryCodec}.
  Local Abbreviation sres A := (result (StoreError json_error) A).

Lemma in_partition_touches {A} st dn (op : PartitionId -> prog (sres A)) p :
  Registry.resolve (registry st) dn = Some p -> touches (in_range (p_id p)) (op (p_id p)) ->
  touches (in_range (p_id p)) (in_partition st dn op).
Proof.
  intros Hr Hop. unfold in_partition, resolve, lift, try_bind, client_mut. rewrite Hr. simpl.
  by destruct (bool_decide _).
Qed.

Lemma in_range_disjoint pid qid k :
  valid_id pid = true -> valid_id qid = true -> in_range pid k -> in_range qid k -> pid = qid.
Proof.
  unfold in_range. rewrite !starts_with_spec. unfold partition_root.
  intros Hp Hq [r ->] [r' Hr']. rewrite <- !app_assoc in Hr'. by apply root_cut in Hr' as [? _].
Qed.

(** The operations of the store on [dn], with their results forgotten. *)
Inductive store_op (st : Store) (dn : Dn) : prog unit -> Prop :=
| so_put e spec : store_op st dn (prog_bind_ (fun _ => Ret tt) (put_entry st dn e spec))
| so_create e spec : store_op st dn (prog_bind_ (fun _ => Ret tt) (create_entry st dn e spec))
| so_get : store_op st dn (prog_bind_ (fun _ => Ret tt) (get_entry st dn))
| so_delete spec : store_op st dn (prog_bind_ (fun _ => Ret tt) (delete_entry st dn spec))
| so_lookup a v : store_op st dn (prog_bind_ (fun _ => Ret tt) (lookup_by_index st dn a v))
| so_scan : store_op st dn (prog_bind_ (fun _ => Ret tt) (scan_subtree st dn))
| so_rid fuel : store_op st dn (prog_bind_ (fun _ => Ret tt) (allocate_rid st dn fuel)).

Lemma store_op_touches st dn p op :
  Registry.resolve (registry st) dn = Some p -> store_op st dn op -> touches (in_range (p_id p)) op.
Proof.
  intros Hr Hop. destruct Hop; (apply touches_bind; [|done]); apply in_partition_touches; try done.
  - apply put_touches.
  - apply create_touches.
  - apply touches_try; [apply raw_get_touches|by intros []].
  - apply delete_touches.
  - apply lookup_touches.
  - apply touches_try; [apply raw_scan_touches|done].
  - apply allocate_touches.
Qed.
End isolation.

(** Partitions are isolated: an operation on a DN, whatever the service
    answers, never changes a key of a partition other than the one the DN is
    routed to, and does nothing at all when no partition owns the DN. *)
Theorem store_op_isolated `{EntryCodec} st dn op m m' :
  store_op st dn op -> runs op m tt m' ->
  match Registry.resolve (registry st) dn with
  | Some p => forall qid k, valid_id (p_id p) = true -> valid_id qid = true -> qid <> p_id p ->
                in_range qid k -> m' !! k = m !! k
  | None => m' = m
  end.
Proof.
  intros Hop Hrun. destruct (Registry.resolve (registry st) dn) as [p|] eqn:E.
  - intros qid k Hp Hq Hne Hk. eapply runs_frame; [by eapply store_op_touches|exact Hrun|].
    intros Hk'. apply Hne. by eapply in_range_disjoint.
  - destruct Hop; unfold put_entry, create_entry, get_entry, delete_entry, lookup_by_index,
      scan_subtree, allocate_rid in Hrun; rewrite in_partition_unowned in Hrun by done; simpl in Hrun; naive_solver.
Qed.

(** ** Decoded scans *)
Section decoded_scan.
  Context `{EntryCodec} (st : Store) (p : Partition) (spec : IndexSpec).
  Context (D : gmap (list Z) (Dn * Entry)) (m : kvstore).
  Context (HR : repr (p_id p) spec D m).
  Context (Hplain : forall k dn e, D !! k = Some (dn, e) -> key_safe dn /\ dn_plain dn).

Lemma decode_row_entry k dn e :
  D !! k = Some (dn, e) -> exists dn', decode_row (p_id p) (k, encode e) = Ok (dn', e) /\ dn' ≡ dn.
Proof.
  intros HD. destruct (r_keys _ _ _ _ HR _ _ _ HD) as (-> & _ & He).
  destruct (Hplain _ _ _ HD) as [Hs Hp].
  destruct (dn_from_tree_key_entry_key (p_id p) dn Hs Hp) as (dn' & Hdn' & Heq).
  exists dn'. split; [|done]. unfold decode_row. cbn [fst snd]. rewrite Hdn'. cbn [mbind result_bind].
  by rewrite decode_encode.
Qed.

Lemma scan_decoded_rows base res m' :
  key_safe base -> rdns base <> [] -> Registry.resolve (registry st) base = Some p -> p_id p ∈ clients st ->
  runs (scan_subtree st base) m res m' ->
  m' = m /\
  ((exists e, res = Err e) \/
   exists rows l, res = Ok l /\ NoDup rows.*1 /\
     Forall2 (fun kv de => exists dn, D !! kv.1 = Some (dn, de.2) /\ is_within dn base = true /\ de.1 ≡ dn) rows l /\
     forall k dn e, D !! k = Some (dn, e) -> is_within dn base = true -> (k, encode e) ∈ rows).
Proof.
  intros Hb Hne Hr Hc. unfold scan_subtree. rewrite (in_partition_connected _ _ _ p) by done.
  rewrite runs_try. intros [(e & Hs & ->)|(rows & m1 & Hs & [-> ->])].
  { apply (scan_subtree_refines _ spec D) in Hs as [-> _]; [|done|intros; by eapply Hplain|done..]. eauto. }
  pose proof (scan_subtree_keys _ _ _ _ _ Hs) as Hnd.
  apply (scan_subtree_refines _ spec D) in Hs as [-> Hs]; [|done|intros; by eapply Hplain|done..].
  split; [done|]. destruct Hs as [[? ?]|(rows' & [= <-] & Hrows)]; [done|].
  assert (exists l, Forall2 (fun kv de => exists dn, D !! kv.1 = Some (dn, de.2) /\
      is_within dn base = true /\ de.1 ≡ dn) rows l /\ try_map (decode_row (p_id p)) rows = Ok l) as (l & Hl & Hok).
  { assert (forall kv, kv ∈ rows -> exists de, decode_row (p_id p) kv = Ok de /\
      exists dn, D !! kv.1 = Some (dn, de.2) /\ is_within dn base = true /\ de.1 ≡ dn) as Hrow.
    { intros [k v] (dn & e & HD & -> & Hw)%Hrows. destruct (decode_row_entry k dn e HD) as (dn' & Hd & Heq).
      exists (dn', e). split; [done|]. by exists dn. }
    clear -Hrow. induction rows as [|kv rows IH]; [exists []; by split; [constructor|]|].
    destruct (Hrow kv ltac:(set_solver)) as (de & Hde & Hx).
    destruct IH as (l & Hl & Hok); [intros; apply Hrow; set_solver|].
    exists (de :: l). split; [by constructor|]. cbn [try_map]. rewrite Hde. cbn [mbind result_bind].
    by rewrite Hok. }
  right. exists rows, l. split; [done|]. split; [done|]. split; [done|]. intros k dn e HD Hw. apply Hrows. eauto.
Qed.

Lemma scan_decoded base res m' :
  key_safe base -> rdns base <> [] -> Registry.resolve (registry st) base = Some p -> p_id p ∈ clients st ->
  runs (scan_subtree st base) m res m' ->
  m' = m /\
  ((exists e, res = Err e) \/
   exists l, res = Ok l /\
     (forall k dn e, D !! k = Some (dn, e) -> is_within dn base = true -> exists dn', (dn', e) ∈ l /\ dn' ≡ dn) /\
     (forall dn' e, (dn', e) ∈ l -> exists k dn, D !! k = Some (dn, e) /\ is_within dn base = true /\ dn' ≡ dn)).
Proof.
  intros Hb Hne Hr Hc Hs. apply scan_decoded_rows in Hs as [-> Hs]; [|done..]. split; [done|].
  destruct Hs as [?|(rows & l & -> & _ & Hl & Hrows)]; [by left|]. right. exists l. split; [done|]. split.
  - intros k dn e HD Hw. pose proof (Hrows k dn e HD Hw) as Hin. apply list_elem_of_lookup in Hin as [i Hi].
    eapply Forall2_lookup_l in Hl as ([dn' e'] & Hi' & (dn2 & HD2 & _ & Heq)); [|exact Hi].
    simpl in *. rewrite HD in HD2. injection HD2 as <- <-. exists dn'.
    split; [|done]. apply list_elem_of_lookup. eauto.
  - intros dn' e Hin. apply list_elem_of_lookup in Hin as [i Hi].
    eapply Forall2_lookup_r in Hl as ([k v] & _ & (dn & HD & Hw & Heq)); [|exact Hi]. eauto.
Qed.
End decoded_scan.

(** A decoded subtree scan returns the directory: for DNs free of
    separators and escapes, unless the service fails, every entry at or below
    the base is returned under an equal DN, and nothing else is. *)
Theorem store_scan_exact `{EntryCodec} st p spec D m base res m' :
  repr (p_id p) spec D m ->
  (forall k dn e, D !! k = Some (dn, e) -> key_safe dn /\ dn_plain dn) ->
  key_safe base -> rdns base <> [] -> Registry.resolve (registry st) base = Some p -> p_id p ∈ clients st ->
  runs (scan_subtree st base) m res m' ->
  m' = m /\
  ((exists e, res = Err e) \/
   exists l, res = Ok l /\
     (forall k dn e, D !! k = Some (dn, e) -> is_within dn base = true -> exists dn', (dn', e) ∈ l /\ dn' ≡ dn) /\
     (forall dn' e, (dn', e) ∈ l -> exists k dn, D !! k = Some (dn, e) /\ is_within dn base = true /\ dn' ≡ dn)).
Proof. intros. by eapply scan_decoded. Qed.

(** ** A two-domain forest *)

Definition ok_partition (r : result PartitionError Partition) : list Partition :=
  match r with Ok p => [p] | Err _ => [] end.

Definition ex_domain : list Partition :=
  ok_partition (domain (str "g10") (str "lab") (dn_of (str "dc=g10,dc=lo")) (plaintext [str "http://a:2379"])).
Definition ex_child : list Partition :=
  ok_partition (domain (str "sub") (str "lab") (dn_of (str "dc=sub,dc=g10,dc=lo")) (plaintext [str "http://b:2379"])).
Definition ex_registry : PartitionRegistry :=
  match from_partitions (ex_domain ++ ex_child) with Ok r => r | Err _ => Registry.new end.
Definition ex_st : Store := mkStore ex_registry [str "g10"; str "sub"].

Lemma ex_alice_pid p : Registry.resolve (registry ex_st) alice = Some p -> p_id p = str "g10".
Proof.
  assert (p_id <$> Registry.resolve (registry ex_st) alice = Some (str "g10")) as Hr by (vm_compute; reflexivity).
  intros E. rewrite E in Hr. cbn [fmap option_fmap option_map] in Hr. congruence.
Qed.

Lemma ex_users_pid p : Registry.resolve (registry ex_st) users = Some p -> p_id p = str "g10".
Proof.
  assert (p_id <$> Registry.resolve (registry ex_st) users = Some (str "g10")) as Hr by (vm_compute; reflexivity).
  intros E. rewrite E in Hr. cbn [fmap option_fmap option_map] in Hr. congruence.
Qed.

Lemma store_op_isolated_witness :
  let m := {[ entry_key (str "sub") alice := [1] ]} in
  (exec zeros (prog_bind_ (fun _ => Ret tt) (@put_entry bit_codec ex_st alice entry_example ex_spec)) m).2
    !! entry_key (str "sub") alice = Some [1].
Proof.
  intros m.
  pose proof (exec_runs zeros (prog_bind_ (fun _ => Ret tt) (@put_entry bit_codec ex_st alice entry_example ex_spec)) m zeros_ok) as Hrun.
  revert Hrun. generalize (exec zeros (prog_bind_ (fun _ => Ret tt) (@put_entry bit_codec ex_st alice entry_example ex_spec)) m).
  intros [[] m']. cbn [fst snd]. intros Hrun.
  pose proof (@store_op_isolated bit_codec ex_st alice _ m m'
    (@so_put bit_codec ex_st alice entry_example ex_spec) Hrun) as Hiso.
  destruct (Registry.resolve (registry ex_st) alice) as [p|] eqn:E; [|vm_compute in E; discriminate E].
  pose proof (ex_alice_pid p E) as Hid.
  rewrite Hid in Hiso. clear Hrun E Hid.
  rewrite (Hiso (str "sub") (entry_key (str "sub") alice));
    [apply lookup_insert_eq|reflexivity|reflexivity|discriminate|apply entry_key_range].
Defined.

Lemma store_scan_exact_witness :
  exists l, (exec zeros (@scan_subtree bit_codec ex_st users) ex_store).1 = Ok l /\
    exists dn', (dn', entry_example) ∈ l /\ dn' ≡ alice.
Proof.
  destruct (Registry.resolve (registry ex_st) users) as [p|] eqn:E; [|vm_compute in E; discriminate E].
  pose proof (ex_users_pid p E) as Hid.
  destruct (@store_scan_exact bit_codec ex_st p ex_spec ex_dir ex_store users
    (exec zeros (@scan_subtree bit_codec ex_st users) ex_store).1
    (exec zeros (@scan_subtree bit_codec ex_st users) ex_store).2) as [_ [[e He]|(l & Hl & Hin & _)]].
  - rewrite Hid. apply ex_store_repr.
  - intros k dn e. unfold ex_dir. intros [<- [= <- <-]]%lookup_singleton_Some.
    split; [by apply key_safeb_sound|]. apply norm_plainb_sound; [apply alice_ok|by vm_compute].
  - by apply key_safeb_sound.
  - by vm_compute.
  - exact E.
  - rewrite Hid. by_decide.
  - apply exec_runs, zeros_ok.
  - vm_compute in He. discriminate He.
  - exists l. split; [exact Hl|]. apply (Hin (entry_key ex_pid alice)).
    + unfold ex_dir. by rewrite lookup_singleton_eq.
    + by vm_compute.
Defined.

(** One entry whose value needs escaping makes its whole subtree
    unreadable: after writing [cn=Doe\, John], reading that entry still works
    while every scan above it fails, because tree keys are re-parsed without
    re-escaping. *)
Theorem escaped_value_breaks_scan :
  let doe := dn_of (str "cn=Doe\, John,ou=users,dc=g10,dc=lo") in
  let m := (exec zeros (@put_entry bit_codec ex_st doe entry_example ex_spec) ex_store).2 in
  (exec zeros (@get_entry bit_codec ex_st doe) m).1 = Ok (Some entry_example) /\
  is_ok (exec zeros (@scan_subtree bit_codec ex_st users) m).1 = false.
Proof. split; vm_compute; reflexivity. Qed.
