(* ===== verification/Directory.v ===== *)
(** The store as a directory: what each operation of
    [crates/store/src/store.rs] reads and writes, stated on an abstract forest
    of directories.  The handlers of the protocol front ends are proved against
    these lemmas, not against the key layout. *)

From S2P Require Import Prelude Bytes Str Btree Utf8 Decimal Dn Partition Key Registry Entry Etcd Index Ridpool Store.

(** One directory per partition. *)
Abbreviation dir := (gmap (list Z) (Dn * Entry)).
Abbreviation forest := (gmap (list Z) dir).

(** Every naming context of the registry is valid and has a connection, as
    [Store::connect] leaves it. *)
Record connected (st : Store) : Prop := {
  c_valid : forall p, p ∈ iter (registry st) -> valid_id (p_id p) = true;
  c_clients : forall p, p ∈ iter (registry st) -> p_id p ∈ clients st;
}.

Definition find_entry (st : Store) (F : forest) (dn : Dn) : option (Dn * Entry) :=
  p ← Registry.resolve (registry st) dn;
  (F !!! p_id p) !! entry_key (p_id p) dn.

(** The forest with the partition of [dn] changed by [f]. *)
Definition alter_dir (st : Store) (F : forest) (dn : Dn) (f : list Z -> dir -> dir) : forest :=
  match Registry.resolve (registry st) dn with
  | Some p => <[p_id p := f (entry_key (p_id p) dn) (F !!! p_id p)]> F
  | None => F
  end.

Definition set_entry (st : Store) (F : forest) (dn : Dn) (e : Entry) : forest :=
  alter_dir st F dn (fun k D => <[k := (dn, e)]> D).
Definition remove_entry (st : Store) (F : forest) (dn : Dn) : forest :=
  alter_dir st F dn (fun k D => delete k D).

(** [dn] is written the way the entry it names was. *)
Definition spelled (st : Store) (F : forest) (dn : Dn) : Prop :=
  forall dn' e, find_entry st F dn = Some (dn', e) -> dn' = dn.

Lemma range_of_tree pid k : starts_with (tree_root pid) k = true -> in_range pid k.
Proof.
  intros [r ->]%starts_with_spec. unfold tree_root, in_range, partition_root. apply starts_with_spec.
  eexists. rewrite <- !app_assoc. reflexivity.
Qed.

Lemma range_of_idx pid k : starts_with (idx_root pid) k = true -> in_range pid k.
Proof.
  intros [r ->]%starts_with_spec. unfold idx_root, in_range, partition_root. apply starts_with_spec.
  exists (str "idx/" ++ r). rewrite <- !app_assoc. reflexivity.
Qed.

Section directory.
  Context `{EntryCodec} (st : Store) (Hst : connected st) (spec : IndexSpec).
  Local Abbreviation sres A := (result (StoreError json_error) A).
  Implicit Types (F : forest) (m : kvstore) (dn : Dn).

(** The store represents the forest. *)
Definition holds F m : Prop :=
  forall p, p ∈ iter (registry st) -> repr (p_id p) spec (F !!! p_id p) m.

(** A write that reports success has happened; one that reports an error has
    happened as a whole or not at all. *)
Definition outcome {A} F F' (r : sres A) m' : Prop :=
  match r with Ok _ => holds F' m' | Err _ => holds F m' \/ holds F' m' end.

Lemma owner dn p :
  Registry.resolve (registry st) dn = Some p ->
  p ∈ iter (registry st) /\ valid_id (p_id p) = true /\ p_id p ∈ clients st.
Proof.
  intros Hp. destruct (resolve_elem _ _ _ Hp) as [Hin _]. split; [done|]. split; by apply Hst.
Qed.

Lemma holds_frame F m m' p D' :
  holds F m -> p ∈ iter (registry st) -> repr (p_id p) spec D' m' ->
  (forall k, ~ in_range (p_id p) k -> m' !! k = m !! k) ->
  holds (<[p_id p := D']> F) m'.
Proof.
  intros HF Hp HR Hf q Hq. destruct (decide (p_id q = p_id p)) as [->|Hne]; [by rewrite lookup_total_insert_eq|].
  rewrite lookup_total_insert_ne by done. eapply repr_frame; [by apply HF|]. intros k Hk. apply Hf. intros Hk'.
  apply Hne. eapply in_range_disjoint; [by apply Hst..| |exact Hk'].
  destruct Hk; [by apply range_of_tree|by apply range_of_idx].
Qed.

Lemma holds_same F m p D' :
  holds F m -> p ∈ iter (registry st) -> D' = F !!! p_id p -> holds (<[p_id p := D']> F) m.
Proof.
  intros HF Hp ->. eapply holds_frame; [done..|by apply HF|done].
Qed.

(** A write routed to the partition of [dn]. *)
Lemma write_outcome_holds {A} F m dn (p : Partition) (op : prog (sres A)) (f : list Z -> dir -> dir) (r : sres A) m' :
  holds F m -> Registry.resolve (registry st) dn = Some p ->
  touches (in_range (p_id p)) op -> runs op m r m' ->
  write_outcome (p_id p) spec (F !!! p_id p) (f (entry_key (p_id p) dn) (F !!! p_id p)) r m' ->
  outcome F (alter_dir st F dn f) r m'.
Proof.
  intros HF Hp Ht Hr Ho. destruct (owner dn p Hp) as (Hin & _ & _). unfold alter_dir. rewrite Hp.
  assert (forall k, ~ in_range (p_id p) k -> m' !! k = m !! k) as Hf by (intros; by eapply runs_frame).
  destruct r as [a|e]; cbn [outcome write_outcome] in *.
  - by eapply holds_frame.
  - destruct Ho as [HR|HR]; [left|right; by eapply holds_frame].
    pose proof (holds_frame F m m' p _ HF Hin HR Hf) as HF'.
    intros q Hq. specialize (HF' q Hq). destruct (decide (p_id q = p_id p)) as [He|Hne].
    + rewrite He, lookup_total_insert_eq in HF'. by rewrite He.
    + by rewrite lookup_total_insert_ne in HF' by done.
Qed.

(** *** Reads *)

Definition no_owner {A} (r : sres A) dn : Prop := r = Err (NoPartitionFor (Dn.to_string dn)).

Lemma find_entry_wf F m dn dn' e :
  holds F m -> find_entry st F dn = Some (dn', e) -> dn_ok dn' /\ entry_wf e.
Proof.
  intros HF. unfold find_entry. destruct (Registry.resolve _ dn) as [p|] eqn:Hp; [|done]. cbn [mbind option_bind].
  intros Hk. destruct (owner dn p Hp) as (Hin & _). by destruct (r_keys _ _ _ _ (HF p Hin) _ _ _ Hk) as (_ & ? & ?).
Qed.

Lemma get_entry_runs F m dn r m' :
  holds F m -> runs (Store.get_entry st dn) m r m' ->
  m' = m /\ (r = Ok (snd <$> find_entry st F dn) \/ exists e, r = Err e).
Proof.
  intros HF. unfold Store.get_entry, find_entry. destruct (Registry.resolve (registry st) dn) as [p|] eqn:Hp.
  - destruct (owner dn p Hp) as (Hin & _ & Hc). rewrite (in_partition_connected _ _ _ p) by done.
    rewrite runs_try. intros [(e & Hg & ->)|(b & m1 & Hg & Hret)];
      apply (get_refines _ spec (F !!! p_id p)) in Hg as [-> Hg]; [|by apply HF| |by apply HF].
    + split; [done|]. right. eauto.
    + destruct Hret as [-> ->]. split; [done|]. destruct Hg as [[= ->]|[? ?]]; [|done]. cbn [mbind option_bind].
      destruct ((F !!! p_id p) !! entry_key (p_id p) dn) as [[dn' e]|] eqn:Hk; cbn [fmap option_fmap option_map snd]; [|auto].
      destruct (r_keys _ _ _ _ (HF p Hin) _ _ _ Hk) as (_ & _ & Hwf). rewrite decode_encode by done. auto.
  - rewrite in_partition_unowned by done. intros [-> ->]. split; [done|]. right. eauto.
Qed.

Lemma get_entry_exec F m dn p :
  holds F m -> Registry.resolve (registry st) dn = Some p ->
  exec zeros (Store.get_entry st dn) m = (Ok (snd <$> find_entry st F dn), m).
Proof.
  intros HF Hp. destruct (owner dn p Hp) as (Hin & _ & Hc). unfold Store.get_entry, find_entry.
  rewrite (in_partition_connected _ _ _ p) by done. rewrite Hp. cbn [mbind option_bind].
  unfold Index.get_entry. rewrite exec_try, exec_try, exec_map_err, exec_get. cbn [map_err].
  unfold read. rewrite (r_tree _ _ _ _ (HF p Hin)) by apply entry_key_in_tree.
  destruct ((F !!! p_id p) !! entry_key (p_id p) dn) as [[dn' e]|] eqn:Hk; cbn; [|done].
  destruct (r_keys _ _ _ _ (HF p Hin) _ _ _ Hk) as (_ & _ & Hwf). by rewrite decode_encode.
Qed.

(** The DNs of the partition of [base] whose entries hold the value. *)
Definition indexed_dn F (base : Dn) (attr value : rstring) (dn : Dn) : Prop :=
  exists p e, Registry.resolve (registry st) base = Some p /\
    (F !!! p_id p) !! entry_key (p_id p) dn = Some (dn, e) /\ value ∈ default [] (Entry.get e attr).

Definition lookup_answer F (base : Dn) (attr value : rstring) (l : list Dn) : Prop :=
  NoDup l /\ forall dn, dn ∈ l <-> indexed_dn F base attr value dn.

Lemma lookup_runs F m base attr value r m' :
  holds F m -> to_ascii_lowercase attr ∈ spec ->
  runs (Store.lookup_by_index st base attr value) m r m' ->
  m' = m /\ ((exists e, r = Err e) \/ exists l, r = Ok l /\ lookup_answer F base attr value l).
Proof.
  intros HF Ha. unfold Store.lookup_by_index, lookup_answer, indexed_dn.
  destruct (Registry.resolve (registry st) base) as [p|] eqn:Hp.
  - destruct (owner base p Hp) as (Hin & Hv & Hc). rewrite (in_partition_connected _ _ _ p) by done.
    intros Hr. apply (lookup_refines _ Hv spec (F !!! p_id p)) in Hr as [-> Hr]; [|by apply HF|done].
    split; [done|]. destruct Hr as [[e ->]|(l & -> & Hnd & Hl)]; [eauto|]. right. exists l. split; [done|].
    split; [done|]. intros dn. rewrite Hl. naive_solver.
  - rewrite in_partition_unowned by done. intros [-> ->]. eauto.
Qed.

Lemma lookup_exec F m base attr value p :
  holds F m -> to_ascii_lowercase attr ∈ spec -> Registry.resolve (registry st) base = Some p ->
  exists l, exec zeros (Store.lookup_by_index st base attr value) m = (Ok l, m) /\ lookup_answer F base attr value l.
Proof.
  intros HF Ha Hp. destruct (owner base p Hp) as (Hin & Hv & Hc).
  pose proof (exec_runs zeros (Store.lookup_by_index st base attr value) m zeros_ok) as Hr.
  apply (lookup_runs F) in Hr as [Hm Hr]; [|done..].
  assert (exists l, (exec zeros (Store.lookup_by_index st base attr value) m).1 = Ok l) as [l Hl].
  { unfold Store.lookup_by_index. rewrite (in_partition_connected _ _ _ p) by done. unfold Index.lookup_by_index.
    rewrite exec_try, exec_map_err, exec_get. cbn [map_err exec fst].
    destruct (rows_decode (p_id p) Hv (F !!! p_id p) attr value (read m (index_prefix (p_id p) attr value) true)) as (l & _ & Hok).
    { intros [k v]. apply (scan_rows _ Hv spec (F !!! p_id p) m attr value k v). by apply HF. }
    by exists l. }
  exists l. destruct (exec zeros _ m) as [r m']. cbn [fst snd] in *. subst r m'. split; [done|].
  by destruct Hr as [[? ?]|(? & [= <-] & ?)].
Qed.

(** The entries of the partition of [base] in the subtree of [base]. *)
Definition under F (base dn : Dn) (e : Entry) : Prop :=
  exists p k, Registry.resolve (registry st) base = Some p /\
    (F !!! p_id p) !! k = Some (dn, e) /\ is_within dn base = true.

(** What a scan gives, up to the spelling of the DNs. *)
Definition scan_answer F (base : Dn) (l : list (Dn * Entry)) : Prop :=
  (forall dn e, under F base dn e -> exists dn', (dn', e) ∈ l /\ dn' ≡ dn) /\
  (forall dn' e, (dn', e) ∈ l -> exists dn, under F base dn e /\ dn' ≡ dn).

(** Every entry has a DN on which the key encoding is exact. *)
Definition plain_forest F : Prop :=
  forall pid k dn e, (F !!! pid) !! k = Some (dn, e) -> key_safe dn /\ dn_plain dn.

Lemma scan_runs F m base r m' :
  holds F m -> plain_forest F -> key_safe base -> rdns base <> [] ->
  runs (Store.scan_subtree st base) m r m' ->
  m' = m /\ ((exists e, r = Err e) \/ exists l, r = Ok l /\ scan_answer F base l).
Proof.
  intros HF Hpl Hb Hne. unfold scan_answer, under. destruct (Registry.resolve (registry st) base) as [p|] eqn:Hp.
  - destruct (owner base p Hp) as (Hin & Hv & Hc). intros Hr.
    apply (scan_decoded st p spec (F !!! p_id p)) in Hr as [-> Hr]; [|by apply HF|apply Hpl|done..].
    split; [done|]. destruct Hr as [?|(l & -> & H1 & H2)]; [by left|]. right. exists l. split; [done|]. split.
    + intros dn e (q & k & [= <-] & HD & Hw). by eapply H1.
    + intros dn' e Hin'. destruct (H2 dn' e Hin') as (k & dn & HD & Hw & Heq). exists dn. split; [|done]. by exists p, k.
  - unfold Store.scan_subtree. rewrite in_partition_unowned by done. intros [-> ->]. eauto.
Qed.

(** *** RIDs *)

(** The counter of the partition of [dn]. *)
Definition pool_of dn m : option Z :=
  p ← Registry.resolve (registry st) dn; pool_value (p_id p) m.

Lemma pool_range pid : in_range pid (pool_key pid).
Proof.
  unfold pool_key, in_range, partition_root. apply starts_with_spec. eexists. rewrite <- !app_assoc. reflexivity.
Qed.

(** Allocation leaves the entries alone, whatever it answers. *)
Lemma holds_pool F m dn p v :
  holds F m -> Registry.resolve (registry st) dn = Some p -> holds F (<[pool_key (p_id p) := v]> m).
Proof.
  intros HF Hp q Hq. destruct (owner dn p Hp) as (Hin & Hv & _).
  destruct (decide (p_id q = p_id p)) as [->|Hne]; [by apply repr_pool, HF|].
  eapply repr_frame; [by apply HF|]. intros k Hk. apply lookup_insert_ne. intros <-. apply Hne.
  eapply in_range_disjoint; [by apply Hst|done| |apply pool_range].
  destruct Hk; [by apply range_of_tree|by apply range_of_idx].
Qed.

Lemma allocate_rid_holds F m dn n fuel r m' :
  holds F m -> pool_of dn m = Some n -> runs (Store.allocate_rid st dn fuel) m r m' ->
  holds F m' /\ forall rid, r = Ok (Some rid) -> rid = n.
Proof.
  unfold pool_of. intros HF. destruct (Registry.resolve (registry st) dn) as [p|] eqn:Hp; [|done].
  cbn [mbind option_bind]. intros Hn. destruct (owner dn p Hp) as (Hin & Hv & Hc).
  unfold Store.allocate_rid. rewrite (in_partition_connected _ _ _ p) by done. intros Hr.
  apply (allocate_rid_runs _ _ n) in Hr as [Hm Hrid]; [|done]. split; [|intros rid Hx; by apply Hrid].
  destruct Hm as [->| ->]; [done|by eapply holds_pool].
Qed.

(** *** Writes *)

Lemma put_entry_runs F m dn e r m' :
  holds F m -> dn_ok dn -> entry_wf e -> spelled st F dn ->
  runs (Store.put_entry st dn e spec) m r m' -> outcome F (set_entry st F dn e) r m'.
Proof.
  intros HF Hdn He Hs. unfold Store.put_entry. destruct (Registry.resolve (registry st) dn) as [p|] eqn:Hp.
  - destruct (owner dn p Hp) as (Hin & Hv & Hc). rewrite (in_partition_connected _ _ _ p) by done. intros Hr.
    eapply write_outcome_holds; [done|done|apply put_touches|exact Hr|].
    eapply put_refines; [done|by apply HF|done|done| |exact Hr].
    intros dn' e' Hk. apply (Hs dn' e'). unfold find_entry. by rewrite Hp.
  - rewrite in_partition_unowned by done. intros [-> ->]. by left.
Qed.

Lemma create_entry_runs F m dn e r m' :
  holds F m -> dn_ok dn -> entry_wf e -> runs (Store.create_entry st dn e spec) m r m' ->
  let fresh := bool_decide (find_entry st F dn = None) in
  (forall b, r = Ok b -> b = fresh) /\ outcome F (if fresh then set_entry st F dn e else F) r m'.
Proof.
  intros HF Hdn He. unfold Store.create_entry. destruct (Registry.resolve (registry st) dn) as [p|] eqn:Hp.
  - destruct (owner dn p Hp) as (Hin & Hv & Hc). rewrite (in_partition_connected _ _ _ p) by done. intros Hr.
    pose proof Hr as Hc'. apply (create_refines _ Hv spec (F !!! p_id p)) in Hc' as [Hb Ho]; [|by apply HF|done|done].
    replace (find_entry st F dn) with ((F !!! p_id p) !! entry_key (p_id p) dn) by (unfold find_entry; by rewrite Hp).
    split; [done|]. case_bool_decide as Hn.
    + eapply write_outcome_holds; [done|done|apply create_touches|exact Hr|exact Ho].
    + pose proof (write_outcome_holds F m dn p _ (fun _ D => D) r m' HF Hp (create_touches _ _ _ _) Hr Ho) as Hx.
      assert (forall m0, holds (alter_dir st F dn (fun _ D => D)) m0 -> holds F m0) as Hsame.
      { unfold alter_dir. rewrite Hp. intros m0 Hm q Hq. specialize (Hm q Hq).
        destruct (decide (p_id q = p_id p)) as [E|Hne]; [rewrite E, lookup_total_insert_eq in Hm; by rewrite E|].
        by rewrite lookup_total_insert_ne in Hm by done. }
      destruct r; cbn [outcome] in *; naive_solver.
  - rewrite in_partition_unowned by done. intros [-> ->]. split; [done|]. by left.
Qed.

Lemma delete_entry_runs F m dn r m' :
  holds F m -> spelled st F dn ->
  runs (Store.delete_entry st dn spec) m r m' -> outcome F (remove_entry st F dn) r m'.
Proof.
  intros HF Hs. unfold Store.delete_entry. destruct (Registry.resolve (registry st) dn) as [p|] eqn:Hp.
  - destruct (owner dn p Hp) as (Hin & Hv & Hc). rewrite (in_partition_connected _ _ _ p) by done. intros Hr.
    eapply write_outcome_holds; [done|done|apply delete_touches|exact Hr|].
    eapply delete_refines; [done|by apply HF| |exact Hr].
    intros dn' e' Hk. apply (Hs dn' e'). unfold find_entry. by rewrite Hp.
  - rewrite in_partition_unowned by done. intros [-> ->]. by left.
Qed.

(** A write that the reference server answers. *)
Lemma put_entry_exec F m dn e :
  holds F m -> dn_ok dn -> entry_wf e -> spelled st F dn ->
  is_ok (exec zeros (Store.put_entry st dn e spec) m).1 = true ->
  holds (set_entry st F dn e) (exec zeros (Store.put_entry st dn e spec) m).2.
Proof.
  intros HF Hdn He Hs Hok.
  pose proof (exec_runs zeros (Store.put_entry st dn e spec) m zeros_ok) as Hr.
  apply (put_entry_runs F) in Hr; [|done..]. by destruct (exec zeros _ m) as [[]].
Qed.
End directory.

Lemma holds_empty `{EntryCodec} st spec : holds st spec ∅ ∅.
Proof. intros p _. rewrite lookup_total_empty. apply repr_empty. Qed.

Lemma spelled_empty st dn : spelled st ∅ dn.
Proof.
  intros dn' e. unfold find_entry. destruct (Registry.resolve _ dn) as [p|]; [|done]. cbn [mbind option_bind].
  rewrite lookup_total_empty. intros Hk. by change ((∅ : dir) !! entry_key (p_id p) dn = Some (dn', e)) in Hk.
Qed.

(** What is found after a write was written or was there before. *)
Lemma find_entry_set (st : Store) (F : forest) (dn : Dn) (e : Entry) (d d' : Dn) (e' : Entry) :
  find_entry st (set_entry st F dn e) d = Some (d', e') -> (d' = dn /\ e' = e) \/ find_entry st F d = Some (d', e').
Proof.
  unfold set_entry, alter_dir, find_entry. destruct (Registry.resolve (registry st) dn) as [p|] eqn:Hp; [|auto].
  destruct (Registry.resolve (registry st) d) as [q|] eqn:Hq; [|done]. cbn [mbind option_bind].
  destruct (decide (p_id q = p_id p)) as [He|Hne]; [|rewrite lookup_total_insert_ne by done; auto].
  rewrite He, lookup_total_insert_eq. destruct (decide (entry_key (p_id p) d = entry_key (p_id p) dn)) as [->|Hk].
  - rewrite lookup_insert_eq. intros [= <- <-]. auto.
  - rewrite lookup_insert_ne by done. auto.
Qed.

Lemma set_entry_elem (st : Store) (F : forest) (dn : Dn) (e : Entry) (pid k : list Z) (d : Dn) (e' : Entry) :
  (set_entry st F dn e !!! pid) !! k = Some (d, e') -> (d = dn /\ e' = e) \/ (F !!! pid) !! k = Some (d, e').
Proof.
  unfold set_entry, alter_dir. destruct (Registry.resolve (registry st) dn) as [p|]; [|auto].
  destruct (decide (pid = p_id p)) as [->|Hne]; [|rewrite lookup_total_insert_ne by done; auto].
  rewrite lookup_total_insert_eq. destruct (decide (k = entry_key (p_id p) dn)) as [->|Hk].
  - rewrite lookup_insert_eq. intros [= <- <-]. auto.
  - rewrite lookup_insert_ne by done. auto.
Qed.

(** ** A forest after a write *)

Section written.
  Context (st : Store) (F : forest) (dn : Dn) (p : Partition) (Hp : Registry.resolve (registry st) dn = Some p).
  Implicit Types (e : Entry) (d : Dn) (base : Dn) (attr v : rstring).

Lemma set_entry_here e : set_entry st F dn e = <[p_id p := <[entry_key (p_id p) dn := (dn, e)]> (F !!! p_id p)]> F.
Proof. unfold set_entry, alter_dir. by rewrite Hp. Qed.

Lemma set_entry_twice e e' : set_entry st (set_entry st F dn e) dn e' = set_entry st F dn e'.
Proof.
  rewrite !set_entry_here. unfold set_entry, alter_dir. rewrite Hp, lookup_total_insert_eq, !insert_insert_eq. done.
Qed.

Lemma find_entry_new e : find_entry st (set_entry st F dn e) dn = Some (dn, e).
Proof.
  unfold find_entry. rewrite Hp, set_entry_here. cbn [mbind option_bind]. by rewrite lookup_total_insert_eq, lookup_insert_eq.
Qed.

Lemma spelled_key d e : spelled st F dn -> (F !!! p_id p) !! entry_key (p_id p) dn = Some (d, e) -> d = dn.
Proof. intros Hs Hl. apply (Hs d e). unfold find_entry. by rewrite Hp. Qed.

(** What has another key stays. *)
Lemma find_entry_kept e d :
  entry_key (p_id p) d <> entry_key (p_id p) dn -> find_entry st (set_entry st F dn e) d = find_entry st F d.
Proof.
  intros Hd. unfold find_entry. destruct (Registry.resolve (registry st) d) as [q|] eqn:Hq; [|done]. cbn [mbind option_bind]. rewrite set_entry_here.
  destruct (decide (p_id q = p_id p)) as [Heq|Hne]; [|by rewrite lookup_total_insert_ne].
  by rewrite Heq, lookup_total_insert_eq, lookup_insert_ne.
Qed.

Lemma indexed_set e base attr v d :
  spelled st F dn -> Registry.resolve (registry st) base = Some p ->
  indexed_dn st (set_entry st F dn e) base attr v d <->
  (d = dn /\ v ∈ default [] (Entry.get e attr)) \/ (d <> dn /\ indexed_dn st F base attr v d).
Proof.
  intros Hs Hb. unfold indexed_dn. rewrite Hb, set_entry_here. split.
  - intros (q & e' & [= <-] & Hl & Hv). rewrite lookup_total_insert_eq in Hl. apply lookup_insert_Some in Hl as [[_ [= -> ->]]|[Hk Hl]]; [by left|].
    right. split; [by intros ->|]. by exists p, e'.
  - intros [[-> Hv]|(Hd & q & e' & [= <-] & Hl & Hv)]; exists p.
    + exists e. split; [done|]. split; [|done]. by rewrite lookup_total_insert_eq, lookup_insert_eq.
    + exists e'. split; [done|]. split; [|done]. rewrite lookup_total_insert_eq, lookup_insert_ne; [done|].
      intros Hk. rewrite <- Hk in Hl. by apply spelled_key in Hl.
Qed.

(** A new entry. *)
Lemma find_entry_old e d d' e' :
  find_entry st F dn = None -> find_entry st F d = Some (d', e') -> find_entry st (set_entry st F dn e) d = Some (d', e').
Proof.
  unfold find_entry. rewrite Hp. cbn [mbind option_bind]. intros Hnew.
  destruct (Registry.resolve (registry st) d) as [q|] eqn:Hq; [|done]. cbn [mbind option_bind]. rewrite set_entry_here.
  intros Hf. destruct (decide (p_id q = p_id p)) as [Heq|Hne]; [|by rewrite lookup_total_insert_ne].
  rewrite Heq in *. rewrite lookup_total_insert_eq, lookup_insert_ne; [done|]. intros Hk. rewrite <- Hk in Hf. by rewrite Hnew in Hf.
Qed.

Lemma indexed_new e base attr v d :
  find_entry st F dn = None -> Registry.resolve (registry st) base = Some p ->
  indexed_dn st (set_entry st F dn e) base attr v d <-> (d = dn /\ v ∈ default [] (Entry.get e attr)) \/ indexed_dn st F base attr v d.
Proof.
  intros Hn Hb. rewrite indexed_set; [|intros ? ?; by rewrite Hn|done]. split; [naive_solver|].
  intros [?|Hi]; [by left|right]. split; [|done]. intros ->. destruct Hi as (q & e' & Hq & Hl & _). rewrite Hb in Hq. injection Hq as <-.
  unfold find_entry in Hn. rewrite Hp in Hn. cbn [mbind option_bind] in Hn. by rewrite Hn in Hl.
Qed.
End written.

Lemma find_entry_empty (st : Store) (d : Dn) : find_entry st ∅ d = None.
Proof.
  unfold find_entry. destruct (Registry.resolve _ d) as [p|]; [|done]. cbn [mbind option_bind].
  by rewrite lookup_total_empty.
Qed.

Lemma spelled_absent (st : Store) (F : forest) (dn : Dn) : find_entry st F dn = None -> spelled st F dn.
Proof. intros Hn dn' e. by rewrite Hn. Qed.

Lemma ex_st_connected : connected ex_st.
Proof.
  assert (forallb (fun p => valid_id (p_id p) && bool_decide (p_id p ∈ clients ex_st)) (iter (registry ex_st)) = true)
    as Hall by (vm_compute; reflexivity).
  rewrite forallb_forall in Hall.
  split; intros p Hp%list_elem_of_In%Hall; apply andb_true_iff in Hp as [? ?%bool_decide_eq_true]; done.
Qed.
