(* ===== verification/Filter.v ===== *)
(** Search filters, [crates/ldap/src/filter.rs]: three-valued evaluation of a
    filter against an entry, the substring matcher and the matching rules. *)

From S2P Require Import Prelude Bytes Str Btree Utf8 Decimal Entry.

(** ** Filters, as [rasn_ldap] decodes them *)

Record AttributeValueAssertion := mkAssertion { attribute_desc : rstring; assertion_value : bytes }.

Inductive SubstringChoice :=
| Initial (v : bytes)
| Any (v : bytes)
| Final (v : bytes).

Record SubstringFilter := mkSubstringFilter { sf_type : rstring; substrings_of : list SubstringChoice }.

Record MatchingRuleAssertion := mkMatchingRule {
  matching_rule : option rstring;
  mra_type : option rstring;
  match_value : bytes;
}.

Inductive Filter :=
| And (fs : list Filter)
| Or (fs : list Filter)
| Not (f : Filter)
| Present (attr : rstring)
| EqualityMatch (ava : AttributeValueAssertion)
| ApproxMatch (ava : AttributeValueAssertion)
| Substrings (sf : SubstringFilter)
| GreaterOrEqual (ava : AttributeValueAssertion)
| LessOrEqual (ava : AttributeValueAssertion)
| ExtensibleMatch (mra : MatchingRuleAssertion).

Inductive Tri := TTrue | TFalse | TUndefined.

#[global] Instance Tri_eq_dec : EqDecision Tri.
Proof. solve_decision. Defined.

Definition tri_of_bool (b : bool) : Tri := if b then TTrue else TFalse.

(** ** Unicode case folding

    [char::to_lowercase] and [str::to_lowercase] read the Unicode tables.  On
    ASCII they are the ASCII mapping, and a string is lowered character by
    character unless it holds a capital sigma, whose image depends on its
    position. *)
Class UnicodeLower := {
  char_to_lowercase : char -> rstring;
  str_to_lowercase : rstring -> rstring;
  char_to_lowercase_ascii c : 0 <= c < 128 -> char_to_lowercase c = [ascii_lower c];
  str_to_lowercase_chars s : 931 ∉ s -> str_to_lowercase s = concat (List.map char_to_lowercase s);
}.

(** The ASCII tables alone, for concrete executions. *)
#[program] Definition ascii_unicode : UnicodeLower := {|
  char_to_lowercase c := [ascii_lower c];
  str_to_lowercase s := concat (List.map (fun c => [ascii_lower c]) s);
|}.
Next Obligation. done. Qed.
Next Obligation. done. Qed.

(** [split_whitespace]. *)
Fixpoint split_words (cur s : rstring) : list rstring :=
  match s with
  | [] => if bool_decide (cur = []) then [] else [cur]
  | c :: s' =>
      if is_whitespace c
      then if bool_decide (cur = []) then split_words [] s' else cur :: split_words [] s'
      else split_words (cur ++ [c]) s'
  end.
Definition split_whitespace (s : rstring) : list rstring := split_words [] s.

(** [s.find(a)]: the position of the first occurrence. *)
Fixpoint find_sub (a s : rstring) : option nat :=
  if starts_with a s then Some 0%nat
  else match s with [] => None | _ :: s' => S <$> find_sub a s' end.

Definition ends_with (f s : rstring) : bool := starts_with (rev f) (rev s).

Section filter.
  Context `{UnicodeLower}.

Definition fold (s : rstring) : rstring := str_to_lowercase (join [c_space] (split_whitespace s)).

(** The loop of [fold_component] with its two locals. *)
Fixpoint fold_component_loop (s out : rstring) (in_space : bool) : rstring :=
  match s with
  | [] => out
  | c :: s' =>
      if is_whitespace c
      then fold_component_loop s' (if in_space then out else out ++ [c_space]) true
      else fold_component_loop s' (out ++ char_to_lowercase c) false
  end.
Definition fold_component (s : rstring) : rstring := fold_component_loop s [] false.

Definition any_value (entry : Entry) (attr : rstring) (test : rstring -> bool) : Tri :=
  tri_of_bool (match Entry.get entry attr with Some vals => existsb test vals | None => false end).

(** The [for] loop of [substring_match] over the middle components. *)
Fixpoint match_any (any : list rstring) (rest : rstring) : option rstring :=
  match any with
  | [] => Some rest
  | a :: any' =>
      match find_sub a rest with
      | None => None
      | Some pos => match_any any' (drop (pos + length a) rest)
      end
  end.

Definition substring_match (value : rstring) (initial : option rstring) (any : list rstring)
    (final : option rstring) : bool :=
  match (match initial with Some i => strip_prefix i value | None => Some value end) with
  | None => false
  | Some rest =>
      match match_any any rest with
      | None => false
      | Some rest => match final with Some f => ends_with f rest | None => true end
      end
  end.

(** The loop of [substrings] over the choices; [i] is the index and [n] the
    number of choices. *)
Fixpoint collect_choices (choices : list SubstringChoice) (i n : nat) (initial : option rstring)
    (any : list rstring) (final : option rstring)
    : option (option rstring * list rstring * option rstring) :=
  match choices with
  | [] => Some (initial, any, final)
  | Initial v :: cs =>
      if (i =? 0)%nat then collect_choices cs (S i) n (Some (fold_component (utf8_lossy v))) any final
      else None
  | Any v :: cs => collect_choices cs (S i) n initial (any ++ [fold_component (utf8_lossy v)]) final
  | Final v :: cs =>
      if (i =? n - 1)%nat then collect_choices cs (S i) n initial any (Some (fold_component (utf8_lossy v)))
      else None
  end.

Definition substrings (entry : Entry) (sf : SubstringFilter) : Tri :=
  match collect_choices (substrings_of sf) 0 (length (substrings_of sf)) None [] None with
  | None => TUndefined
  | Some (initial, any, final) =>
      any_value entry (sf_type sf) (fun v => substring_match (fold v) initial any final)
  end.

Definition order (value assertion : rstring) : comparison :=
  match parse_int i128_min i128_max (trim value), parse_int i128_min i128_max (trim assertion) with
  | Some a, Some b => Z.compare a b
  | _, _ => str_compare (fold value) (fold assertion)
  end.

Definition int (s : rstring) : option Z := parse_int i64_min i64_max (trim s).

Definition rule_bit_and (v a : rstring) : option bool :=
  v ← int v; a ← int a; Some (Z.land v a =? a).
Definition rule_bit_or (v a : rstring) : option bool :=
  v ← int v; a ← int a; Some (negb (Z.land v a =? 0)).
Definition rule_case_ignore (v a : rstring) : option bool := Some (bool_decide (fold v = fold a)).
Definition rule_integer (v a : rstring) : option bool :=
  v ← int v; a ← int a; Some (v =? a).

Definition rule (name : option rstring) : option (rstring -> rstring -> option bool) :=
  match name with
  | None => Some rule_case_ignore
  | Some name =>
      let eqs s := bool_decide (to_ascii_lowercase name = s) in
      if eqs (str "1.2.840.113556.1.4.803") || eqs (str "ldap_matching_rule_bit_and") then Some rule_bit_and
      else if eqs (str "1.2.840.113556.1.4.804") || eqs (str "ldap_matching_rule_bit_or") then Some rule_bit_or
      else if eqs (str "2.5.13.2") || eqs (str "caseignorematch") then Some rule_case_ignore
      else if eqs (str "2.5.13.5") || eqs (str "caseexactmatch") then Some (fun v a => Some (bool_decide (v = a)))
      else if eqs (str "2.5.13.14") || eqs (str "integermatch") then Some rule_integer
      else if eqs (str "2.5.13.0") || eqs (str "objectidentifiermatch")
      then Some (fun v a => Some (eq_ignore_ascii_case (trim v) (trim a)))
      else None
  end.

(** The two nested loops of [extensible]; [named] is [mra.type.is_some()]. *)
Fixpoint extensible_values (r : rstring -> rstring -> option bool) (named : bool) (assertion : rstring)
    (vals : list rstring) (result : Tri) : Tri + Tri :=
  match vals with
  | [] => inr result
  | v :: vals' =>
      match r v assertion with
      | Some true => inl TTrue
      | None => extensible_values r named assertion vals' (if named then TUndefined else result)
      | Some false => extensible_values r named assertion vals' result
      end
  end.

Fixpoint extensible_attrs (entry : Entry) (r : rstring -> rstring -> option bool) (named : bool)
    (assertion : rstring) (attrs : list rstring) (result : Tri) : Tri :=
  match attrs with
  | [] => result
  | attr :: attrs' =>
      match extensible_values r named assertion (default [] (Entry.get entry attr)) result with
      | inl t => t
      | inr result' => extensible_attrs entry r named assertion attrs' result'
      end
  end.

Definition extensible (entry : Entry) (mra : MatchingRuleAssertion) : Tri :=
  match rule (matching_rule mra) with
  | None => TUndefined
  | Some r =>
      let assertion := utf8_lossy (match_value mra) in
      match mra_type mra, matching_rule mra with
      | Some t, _ => extensible_attrs entry r true assertion [t] TFalse
      | None, Some _ => extensible_attrs entry r false assertion (attr_names entry) TFalse
      | None, None => TUndefined
      end
  end.

(** The loops of [evaluate] over the items of a conjunction and a disjunction. *)
Definition and_loop (ev : Filter -> Tri) : list Filter -> Tri -> Tri :=
  fix loop fs result :=
    match fs with
    | [] => result
    | f :: fs' =>
        match ev f with
        | TFalse => TFalse
        | TUndefined => loop fs' TUndefined
        | TTrue => loop fs' result
        end
    end.
Definition or_loop (ev : Filter -> Tri) : list Filter -> Tri -> Tri :=
  fix loop fs result :=
    match fs with
    | [] => result
    | f :: fs' =>
        match ev f with
        | TTrue => TTrue
        | TUndefined => loop fs' TUndefined
        | TFalse => loop fs' result
        end
    end.

Fixpoint evaluate (entry : Entry) (filter : Filter) : Tri :=
  match filter with
  | And filters => and_loop (evaluate entry) filters TTrue
  | Or filters => or_loop (evaluate entry) filters TFalse
  | Not inner =>
      match evaluate entry inner with
      | TTrue => TFalse
      | TFalse => TTrue
      | TUndefined => TUndefined
      end
  | Present attr =>
      tri_of_bool (match Entry.get entry attr with Some v => negb (bool_decide (v = [])) | None => false end)
  | EqualityMatch ava | ApproxMatch ava =>
      let want := fold (utf8_lossy (assertion_value ava)) in
      any_value entry (attribute_desc ava) (fun v => bool_decide (fold v = want))
  | Substrings sf => substrings entry sf
  | GreaterOrEqual ava =>
      let want := utf8_lossy (assertion_value ava) in
      any_value entry (attribute_desc ava) (fun v => match order v want with Lt => false | _ => true end)
  | LessOrEqual ava =>
      let want := utf8_lossy (assertion_value ava) in
      any_value entry (attribute_desc ava) (fun v => match order v want with Gt => false | _ => true end)
  | ExtensibleMatch mra => extensible entry mra
  end.

Definition matches (entry : Entry) (filter : Filter) : bool :=
  bool_decide (evaluate entry filter = TTrue).
End filter.

(** ** Kleene logic *)

Definition tri_and (a b : Tri) : Tri :=
  match a, b with
  | TFalse, _ | _, TFalse => TFalse
  | TTrue, TTrue => TTrue
  | _, _ => TUndefined
  end.
Definition tri_or (a b : Tri) : Tri :=
  match a, b with
  | TTrue, _ | _, TTrue => TTrue
  | TFalse, TFalse => TFalse
  | _, _ => TUndefined
  end.
Definition tri_not (a : Tri) : Tri :=
  match a with TTrue => TFalse | TFalse => TTrue | TUndefined => TUndefined end.

#[global] Instance tri_and_comm : Comm (=) tri_and.
Proof. by intros [] []. Qed.
#[global] Instance tri_and_assoc : Assoc (=) tri_and.
Proof. by intros [] [] []. Qed.
#[global] Instance tri_or_comm : Comm (=) tri_or.
Proof. by intros [] []. Qed.
#[global] Instance tri_or_assoc : Assoc (=) tri_or.
Proof. by intros [] [] []. Qed.

Definition tri_all (l : list Tri) : Tri := foldr tri_and TTrue l.
Definition tri_any (l : list Tri) : Tri := foldr tri_or TFalse l.

#[global] Instance tri_all_perm : Proper ((≡ₚ) ==> (=)) tri_all.
Proof.
  apply (foldr_permutation_proper (=) tri_and TTrue). intros x y z. rewrite !(assoc tri_and), (comm tri_and x y). done.
Qed.
#[global] Instance tri_any_perm : Proper ((≡ₚ) ==> (=)) tri_any.
Proof.
  apply (foldr_permutation_proper (=) tri_or TFalse). intros x y z. rewrite !(assoc tri_or), (comm tri_or x y). done.
Qed.

Lemma tri_all_spec l :
  tri_all l = (if bool_decide (TFalse ∈ l) then TFalse else if bool_decide (TUndefined ∈ l) then TUndefined else TTrue).
Proof.
  induction l as [|a l IH]; [done|]. unfold tri_all in *. cbn [foldr]. rewrite IH.
  destruct a; repeat case_bool_decide; set_solver.
Qed.
Lemma tri_any_spec l :
  tri_any l = (if bool_decide (TTrue ∈ l) then TTrue else if bool_decide (TUndefined ∈ l) then TUndefined else TFalse).
Proof.
  induction l as [|a l IH]; [done|]. unfold tri_any in *. cbn [foldr]. rewrite IH.
  destruct a; repeat case_bool_decide; set_solver.
Qed.

Lemma and_loop_spec ev fs r :
  r <> TFalse -> and_loop ev fs r = tri_and r (tri_all (List.map ev fs)).
Proof.
  revert r; induction fs as [|f fs IH]; intros r Hr; [by destruct r|].
  cbn [and_loop List.map]. change (tri_all (ev f :: ?l)) with (tri_and (ev f) (tri_all l)).
  destruct (ev f); [rewrite IH by done|by destruct r|rewrite IH by done];
    destruct r, (tri_all (List.map ev fs)); done.
Qed.

Lemma or_loop_spec ev fs r :
  r <> TTrue -> or_loop ev fs r = tri_or r (tri_any (List.map ev fs)).
Proof.
  revert r; induction fs as [|f fs IH]; intros r Hr; [by destruct r|].
  cbn [or_loop List.map]. change (tri_any (ev f :: ?l)) with (tri_or (ev f) (tri_any l)).
  destruct (ev f); [by destruct r|rewrite IH by done|rewrite IH by done];
    destruct r, (tri_any (List.map ev fs)); done.
Qed.

Lemma tri_all_not l : tri_not (tri_all l) = tri_any (List.map tri_not l).
Proof.
  induction l as [|a l IH]; [done|]. cbn. fold (tri_all l) (tri_any (List.map tri_not l)).
  rewrite <- IH. by destruct a, (tri_all l).
Qed.

Section boolean_items.
  Context `{UnicodeLower} (e : Entry).

Lemma evaluate_and fs : evaluate e (And fs) = tri_all (List.map (evaluate e) fs).
Proof. cbn [evaluate]. rewrite and_loop_spec by done. by destruct (tri_all _). Qed.
Lemma evaluate_or fs : evaluate e (Or fs) = tri_any (List.map (evaluate e) fs).
Proof. cbn [evaluate]. rewrite or_loop_spec by done. by destruct (tri_any _). Qed.
Lemma evaluate_not f : evaluate e (Not f) = tri_not (evaluate e f).
Proof. done. Qed.
End boolean_items.

(** The boolean items follow RFC 4511's three-valued logic: a conjunction is
    FALSE if any item is, else Undefined if any is, else TRUE, a disjunction is
    the mirror, negation keeps Undefined; item order is irrelevant and De
    Morgan's laws hold. *)
Theorem evaluate_kleene `{UnicodeLower} e fs gs f :
  evaluate e (And fs) = (if bool_decide (TFalse ∈ List.map (evaluate e) fs) then TFalse
                         else if bool_decide (TUndefined ∈ List.map (evaluate e) fs) then TUndefined
                         else TTrue) /\
  evaluate e (Or fs) = (if bool_decide (TTrue ∈ List.map (evaluate e) fs) then TTrue
                        else if bool_decide (TUndefined ∈ List.map (evaluate e) fs) then TUndefined
                        else TFalse) /\
  (matches e (Not f) = true <-> evaluate e f = TFalse) /\
  evaluate e (Not (And fs)) = evaluate e (Or (List.map Not fs)) /\
  (fs ≡ₚ gs -> evaluate e (And fs) = evaluate e (And gs) /\ evaluate e (Or fs) = evaluate e (Or gs)).
Proof.
  split; [by rewrite evaluate_and, tri_all_spec|]. split; [by rewrite evaluate_or, tri_any_spec|].
  split; [|split].
  - unfold matches. rewrite evaluate_not, bool_decide_eq_true. by destruct (evaluate e f).
  - rewrite evaluate_not, evaluate_and, evaluate_or, tri_all_not, !map_map. done.
  - intros Hp. rewrite !evaluate_and, !evaluate_or.
    assert (List.map (evaluate e) fs ≡ₚ List.map (evaluate e) gs) as Hpm by (by apply Permutation_map).
    by rewrite Hpm.
Qed.

(** ** Substrings *)

(** What a substring assertion means: the components occur in order, without
    overlap, with arbitrary text between them. *)
Fixpoint components_in (any : list rstring) (final : option rstring) (s : rstring) : Prop :=
  match any with
  | [] => match final with Some f => exists g, s = g ++ f | None => True end
  | a :: any' => exists g s', s = g ++ a ++ s' /\ components_in any' final s'
  end.

Definition substring_spec (value : rstring) (initial : option rstring) (any : list rstring)
    (final : option rstring) : Prop :=
  exists rest, value = default [] initial ++ rest /\ components_in any final rest.

Lemma components_in_extend any final g s : components_in any final s -> components_in any final (g ++ s).
Proof.
  destruct any as [|a any]; simpl.
  - destruct final; [|done]. intros [g' ->]. exists (g ++ g'). by rewrite app_assoc.
  - intros (g' & s' & -> & Hs). exists (g ++ g'), s'. by rewrite <- !app_assoc.
Qed.

Lemma find_sub_Some a s n :
  find_sub a s = Some n ->
  exists g, s = g ++ a ++ drop (n + length a) s /\ length g = n /\
    forall g' s', s = g' ++ a ++ s' -> (n <= length g')%nat.
Proof.
  revert n; induction s as [|c s IH]; intros n; cbn [find_sub].
  - destruct (starts_with a []) eqn:E; [|done]. intros [= <-].
    apply starts_with_spec in E as [r Hr]. exists []. rewrite Nat.add_0_l.
    destruct a; [|done]. split; [done|]. split; [done|]. intros; lia.
  - destruct (starts_with a (c :: s)) eqn:E.
    + intros [= <-]. apply starts_with_spec in E as [r Hr]. exists []. rewrite Hr, Nat.add_0_l.
      rewrite drop_app_length. split; [done|]. split; [done|]. intros; lia.
    + destruct (find_sub a s) as [k|]; [|done]. intros [= <-].
      destruct (IH k eq_refl) as (g & Hs & Hl & Hmin). exists (c :: g).
      split; [simpl; by rewrite <- Hs|]. split; [simpl; lia|].
      intros [|c' g'] s' Hg'.
      * exfalso. assert (starts_with a (c :: s) = true); [|congruence]. apply starts_with_spec. eauto.
      * simpl in Hg'. injection Hg' as _ Hg'. apply Hmin in Hg'. simpl. lia.
Qed.

Lemma find_sub_None a s : find_sub a s = None -> forall g s', s <> g ++ a ++ s'.
Proof.
  induction s as [|c s IH]; cbn [find_sub].
  - destruct (starts_with a []) eqn:E; [done|]. intros _ g s' Hg. symmetry in Hg.
    apply app_eq_nil in Hg as [_ Hg]. assert (starts_with a [] = true); [|congruence].
    apply starts_with_spec. eauto.
  - destruct (starts_with a (c :: s)) eqn:E; [done|]. destruct (find_sub a s); [done|].
    intros _ [|c' g] s' Hg.
    + assert (starts_with a (c :: s) = true); [|congruence]. apply starts_with_spec. eauto.
    + injection Hg as _ Hg. by apply IH in Hg.
Qed.

Lemma ends_with_spec f s : ends_with f s = true <-> exists g, s = g ++ f.
Proof.
  unfold ends_with. rewrite starts_with_spec. split; intros [r Hr].
  - exists (rev r). rewrite <- (rev_involutive s), Hr, rev_app_distr, rev_involutive. done.
  - exists (rev r). by rewrite Hr, rev_app_distr.
Qed.

(** Taking the first occurrence of each component loses no match. *)
Lemma match_any_spec any final s :
  match match_any any s with
  | Some rest => match final with Some f => ends_with f rest = true | None => True end
  | None => False
  end <-> components_in any final s.
Proof.
  revert s; induction any as [|a any IH]; intros s; cbn [match_any components_in].
  - destruct final; [apply ends_with_spec|done].
  - destruct (find_sub a s) as [n|] eqn:E.
    + destruct (find_sub_Some _ _ _ E) as (g & Hs & Hl & Hmin). rewrite IH. split.
      * intros Hc. exists g, (drop (n + length a) s). auto.
      * intros (g' & s' & Hs' & Hc). apply Hmin in Hs' as Hle.
        assert (s' = drop (length g' + length a) s) as Hd.
        { rewrite Hs', app_assoc, <- length_app. symmetry. apply drop_app_length. }
        assert (drop (n + length a) s = take (length g' - n) (drop (n + length a) s) ++ s') as ->.
        { rewrite Hd. replace (length g' + length a)%nat
            with ((n + length a) + (length g' - n))%nat by lia.
          rewrite <- (drop_drop s (length g' - n) (n + length a)). symmetry. apply take_drop. }
        by apply components_in_extend.
    + split; [done|]. intros (g & s' & Hs & _). by apply (find_sub_None _ _ E) in Hs.
Qed.

Lemma substring_match_correct value initial any final :
  substring_match value initial any final = true <-> substring_spec value initial any final.
Proof.
  unfold substring_match, substring_spec.
  assert (forall s, (match match_any any s with
     | None => false
     | Some rest => match final with Some f => ends_with f rest | None => true end
     end) = true <-> components_in any final s) as Hm.
  { intros s. rewrite <- match_any_spec. destruct (match_any any s); [destruct final; done|done]. }
  destruct initial as [i|]; simpl.
  - destruct (strip_prefix i value) as [r|] eqn:E.
    + apply strip_prefix_Some in E as ->. rewrite Hm. split; [eauto|].
      intros (r' & Hr' & Hc). apply app_inv_head in Hr' as ->. done.
    + split; [done|]. intros (r & -> & _).
      rewrite (proj2 (strip_prefix_Some i _ r)) in E; done.
  - rewrite Hm. split; [eauto|]. by intros (r & -> & Hc).
Qed.

(** C37: The greedy substring matcher is exact: it accepts a value iff the
    initial, middle and final components occur in it in this order without
    overlapping, for every choice of components (empty ones included). *)
Theorem substring_match_exact value initial any final :
  substring_match value initial any final = true <-> substring_spec value initial any final.
Proof. apply substring_match_correct. Qed.

(** ** Case-ignore matching on ASCII *)

Definition ascii_str (s : rstring) : Prop := Forall (fun c => 0 <= c < 128) s.

(** The words a value is compared by. *)
Definition match_words (s : rstring) : list rstring :=
  List.map to_ascii_lowercase (split_whitespace s).

Lemma split_words_spec cur s :
  Forall (fun c => is_whitespace c = false) cur ->
  Forall (fun w => w <> [] /\ Forall (fun c => is_whitespace c = false) w) (split_words cur s).
Proof.
  revert cur; induction s as [|c s IH]; intros cur Hcur; cbn [split_words].
  - case_bool_decide; by repeat constructor.
  - destruct (is_whitespace c) eqn:E; [case_bool_decide|].
    + by apply IH.
    + constructor; [done|by apply IH].
    + apply IH. apply Forall_app. split; [done|by constructor].
Qed.

Lemma split_words_chars (P : char -> Prop) cur s :
  Forall P cur -> Forall P s -> Forall (Forall P) (split_words cur s).
Proof.
  revert cur; induction s as [|c s IH]; intros cur Hcur Hs; cbn [split_words].
  - case_bool_decide; by repeat constructor.
  - apply Forall_cons in Hs as [Hc Hs]. destruct (is_whitespace c); [case_bool_decide|].
    + by apply IH.
    + constructor; [done|by apply IH].
    + apply IH; [|done]. apply Forall_app. split; [done|by constructor].
Qed.

Lemma to_lowercase_join ws :
  to_ascii_lowercase (join [c_space] ws) = join [c_space] (List.map to_ascii_lowercase ws).
Proof.
  induction ws as [|w ws IH]; [done|]. destruct ws as [|w' ws]; [done|].
  rewrite (join_cons _ w) by done. rewrite !to_ascii_lowercase_app, IH. cbn [List.map].
  by rewrite (join_cons _ (to_ascii_lowercase w)).
Qed.

Lemma join_Forall (P : char -> Prop) d ws : P d -> Forall (Forall P) ws -> Forall P (join [d] ws).
Proof.
  intros Hd Hws. induction Hws as [|w ws Hw Hws IH]; [constructor|]. destruct ws; [done|].
  rewrite join_cons by done. apply Forall_app. split; [done|]. apply Forall_app. split; [by constructor|done].
Qed.

Section case_ignore.
  Context `{UnicodeLower}.

Lemma str_to_lowercase_ascii s : ascii_str s -> str_to_lowercase s = to_ascii_lowercase s.
Proof.
  intros Hs. rewrite str_to_lowercase_chars.
  - induction Hs as [|c s Hc _ IH]; [done|]. cbn [List.map concat].
    rewrite char_to_lowercase_ascii by done. cbn [app to_ascii_lowercase List.map]. f_equal. exact IH.
  - intros Hin. unfold ascii_str in Hs. rewrite Forall_forall in Hs. specialize (Hs _ Hin). lia.
Qed.

Lemma fold_ascii s : ascii_str s -> fold s = join [c_space] (match_words s).
Proof.
  intros Hs. unfold fold, match_words. rewrite str_to_lowercase_ascii.
  - apply to_lowercase_join.
  - apply join_Forall; [lia|]. by apply split_words_chars.
Qed.

Lemma match_words_inj s t :
  join [c_space] (match_words s) = join [c_space] (match_words t) -> match_words s = match_words t.
Proof.
  assert (forall u, Forall (fun w => w <> [] /\ c_space ∉ w) (match_words u)) as Hw.
  { intros u. unfold match_words. apply Forall_fmap. eapply Forall_impl; [by apply split_words_spec|].
    intros w [Hne Hw]. cbn. split; [by destruct w|]. intros (c & Hc & Hin)%list_elem_of_fmap.
    rewrite Forall_forall in Hw. specialize (Hw c Hin).
    rewrite <- ascii_lower_whitespace, <- Hc in Hw. done. }
  pose proof (Hw s) as Hs. pose proof (Hw t) as Ht. intros Hj.
  assert (forall l, Forall (fun w => w <> [] /\ c_space ∉ w) l -> l <> [] -> join [c_space] l <> []) as Hne.
  { intros l Hl Hn Hnil. destruct Hl as [|w l [Hw1 _] Hl]; [done|]. destruct l; [done|].
    rewrite join_cons in Hnil by done. by destruct w. }
  destruct (decide (match_words s = [])) as [Es|Es], (decide (match_words t = [])) as [Et|Et].
  - congruence.
  - rewrite Es in Hj. symmetry in Hj. by apply Hne in Hj.
  - rewrite Et in Hj. by apply Hne in Hj.
  - apply join_inj in Hj; auto; (eapply Forall_impl; [eassumption|]); naive_solver.
Qed.
End case_ignore.

(** On ASCII text an equality item is LDAP's caseIgnoreMatch: it is TRUE iff
    some value of the attribute has the same words as the assertion, ignoring
    case and the amount of white space between and around them. *)
Theorem equality_match_words `{UnicodeLower} e ava vals :
  Entry.get e (attribute_desc ava) = Some vals -> Forall ascii_str vals ->
  ascii_str (assertion_value ava) ->
  matches e (EqualityMatch ava) = true <->
  exists v, v ∈ vals /\ match_words v = match_words (assertion_value ava).
Proof.
  intros Hget Hvals Hav. unfold matches. cbn [evaluate]. unfold any_value. rewrite Hget.
  assert (utf8_lossy (assertion_value ava) = assertion_value ava) as ->.
  { rewrite <- (utf8_ascii (assertion_value ava)) at 1 by done. apply utf8_lossy_encode.
    eapply Forall_impl; [exact Hav|]. intros c Hc. left. cbn in Hc. lia. }
  rewrite bool_decide_eq_true. rewrite fold_ascii by done.
  assert (forall b, tri_of_bool b = TTrue <-> b = true) as -> by (by intros []).
  rewrite existsb_exists. split.
  - intros (v & Hv%list_elem_of_In & Hf%bool_decide_eq_true). exists v. split; [done|].
    rewrite Forall_forall in Hvals. rewrite fold_ascii in Hf by auto. by apply match_words_inj.
  - intros (v & Hv & Hw). exists v. split; [by apply list_elem_of_In|]. apply bool_decide_eq_true.
    rewrite Forall_forall in Hvals. rewrite fold_ascii by auto. by rewrite Hw.
Qed.

(** ** Matching rules on integers *)

(** All bits of a 64-bit integer from the 63rd on are its sign. *)
Lemma i64_sign_bits z i : - 2 ^ 63 <= z < 2 ^ 63 -> 63 <= i -> Z.testbit z i = Z.testbit z 63.
Proof.
  assert (forall w j, 0 <= w < 2 ^ 63 -> 63 <= j -> Z.testbit w j = false) as Hpos.
  { intros w j Hw Hj. apply Z.bits_above_log2; [lia|].
    destruct (decide (w = 0)) as [->|]; [change (0 < j); lia|]. apply Z.lt_le_trans with 63; [|lia].
    apply Z.log2_lt_pow2; lia. }
  intros Hz Hi. destruct (Z.leb_spec 0 z); [by rewrite !Hpos by lia|].
  rewrite <- (negb_involutive (Z.testbit z i)), <- (negb_involutive (Z.testbit z 63)).
  rewrite <- (Z.lnot_spec z i), <- (Z.lnot_spec z 63) by lia. by rewrite !Hpos by (unfold Z.lnot; lia).
Qed.

(** Active Directory's bit rules: the AND rule holds iff every bit of the
    assertion is set in the value, the OR rule iff some bit is, in 64-bit two's
    complement (negative flag words included); a side that is not an integer
    makes the rule inapplicable. *)
Theorem bit_rules_spec v a :
  match int v, int a with
  | Some x, Some y =>
      exists b1 b2, rule_bit_and v a = Some b1 /\ rule_bit_or v a = Some b2 /\
      (b1 = true <-> forall i, 0 <= i < 64 -> Z.testbit y i = true -> Z.testbit x i = true) /\
      (b2 = true <-> exists i, 0 <= i < 64 /\ Z.testbit y i = true /\ Z.testbit x i = true)
  | _, _ => rule_bit_and v a = None /\ rule_bit_or v a = None
  end.
Proof.
  unfold rule_bit_and, rule_bit_or. destruct (int v) as [x|] eqn:Ev; [|done].
  destruct (int a) as [y|] eqn:Ea; [|done]. cbn [mbind option_bind].
  assert (forall s z, int s = Some z -> - 2 ^ 63 <= z < 2 ^ 63) as Hb.
  { intros s z Hz. apply parse_int_bound in Hz; unfold i64_min, i64_max in *; lia. }
  apply Hb in Ev, Ea.
  pose proof i64_sign_bits as Hhigh.
  exists (Z.land x y =? y), (negb (Z.land x y =? 0)). split; [done|]. split; [done|]. split.
  - rewrite Z.eqb_eq. split.
    + intros Heq i Hi Hy. rewrite <- Heq, Z.land_spec in Hy. by apply andb_true_iff in Hy as [? _].
    + intros Hall. apply Z.bits_inj'. intros i Hi. rewrite Z.land_spec.
      destruct (Z.testbit y i) eqn:Ey; [|by rewrite andb_false_r]. rewrite andb_true_r.
      destruct (Z.lt_ge_cases i 64); [by apply Hall|].
      rewrite (Hhigh x) by (done || lia). rewrite (Hhigh y) in Ey by (done || lia). apply Hall; [lia|done].
  - rewrite negb_true_iff, Z.eqb_neq. split.
    + intros Hne. destruct (existsb (fun i => Z.testbit x i && Z.testbit y i) (seqZ 0 64)) eqn:E.
      * apply existsb_exists in E as (i & Hi%list_elem_of_In%elem_of_seqZ & [? ?]%andb_true_iff).
        exists i. split; [lia|done].
      * exfalso. apply Hne. apply Z.bits_inj'. intros i Hi. rewrite Z.land_spec, Z.bits_0.
        assert (forall j, 0 <= j < 64 -> Z.testbit x j && Z.testbit y j = false) as Hj.
        { intros j Hj. destruct (Z.testbit x j && Z.testbit y j) eqn:Ej; [|done]. exfalso.
          assert (existsb (fun i => Z.testbit x i && Z.testbit y i) (seqZ 0 64) = true); [|congruence].
          apply existsb_exists. exists j. split; [apply list_elem_of_In, elem_of_seqZ; lia|done]. }
        destruct (Z.lt_ge_cases i 64); [by apply Hj|].
        rewrite (Hhigh x), (Hhigh y) by (done || lia). apply Hj. lia.
    + intros (i & Hi & Hy & Hx) H0. assert (Z.testbit (Z.land x y) i = true) as Ht
        by (by rewrite Z.land_spec, Hx, Hy).
      by rewrite H0, Z.bits_0 in Ht.
Qed.

(** ** Concrete filters *)

Definition ex_equality (v : rstring) : Filter := EqualityMatch (mkAssertion (str "CN") v).

Lemma equality_match_words_witness :
  @matches ascii_unicode entry_example (ex_equality (str "  aLICE ")) = true.
Proof.
  apply (@equality_match_words ascii_unicode entry_example (mkAssertion (str "CN") (str "  aLICE "))
    [str "Alice"; str "Al"]); [by vm_compute|by_decide|by_decide|].
  exists (str "Alice"). split; [by_decide|by vm_compute].
Defined.

Lemma evaluate_kleene_witness :
  @evaluate ascii_unicode entry_example (And [ex_equality (str "al"); Present (str "mail")]) =
  @evaluate ascii_unicode entry_example (And [Present (str "mail"); ex_equality (str "al")]).
Proof.
  apply (@evaluate_kleene ascii_unicode entry_example [ex_equality (str "al"); Present (str "mail")]
    [Present (str "mail"); ex_equality (str "al")] (Present (str "mail"))). apply Permutation_swap.
Defined.
