(* ===== verification/Schema.v ===== *)
(** Schema validation, [crates/ldap/src/schema.rs]: every declared object class
    that is known has all its mandatory attributes. *)

From S2P Require Import Prelude Str Btree Utf8 Entry.

Record ObjectClass := mkClass { name : rstring; must : list rstring }.

Definition CLASSES : list ObjectClass := [
  mkClass (str "top") [];
  mkClass (str "person") [str "cn"];
  mkClass (str "organizationalPerson") [str "cn"];
  mkClass (str "inetOrgPerson") [str "cn"];
  mkClass (str "organizationalUnit") [str "ou"];
  mkClass (str "groupOfNames") [str "cn"; str "member"];
  mkClass (str "user") [str "cn"];
  mkClass (str "computer") [str "cn"];
  mkClass (str "group") [str "cn"];
  mkClass (str "posixAccount") [str "cn"; str "uid"; str "uidNumber"; str "gidNumber"; str "homeDirectory"];
  mkClass (str "posixGroup") [str "cn"; str "gidNumber"]
].

(** The error names the class as declared and the missing attribute. *)
Record SchemaError := mkSchemaError { se_class : rstring; se_missing : rstring }.

Definition present (entry : Entry) (attr : rstring) : bool :=
  match Entry.get entry attr with Some v => negb (bool_decide (v = [])) | None => false end.

Definition find_class (oc : rstring) : option ObjectClass :=
  List.find (fun c => eq_ignore_ascii_case (name c) oc) CLASSES.

(** One turn of the loop over the declared classes. *)
Definition check_class (entry : Entry) (oc : rstring) : result SchemaError unit :=
  match find_class oc with
  | None => Ok tt
  | Some def =>
      match List.find (fun m => negb (present entry m)) (must def) with
      | Some m => Err (mkSchemaError oc m)
      | None => Ok tt
      end
  end.

Definition validate (entry : Entry) : result SchemaError unit :=
  match Entry.get entry (str "objectclass") with
  | None => Ok tt
  | Some classes => try_fold (fun _ oc => check_class entry oc) tt classes
  end.

(** What a complete entry is. *)
Definition complete (entry : Entry) : Prop :=
  forall oc def m,
    oc ∈ default [] (Entry.get entry (str "objectclass")) ->
    find_class oc = Some def -> m ∈ must def -> present entry m = true.

Lemma check_class_ok entry oc :
  check_class entry oc = Ok tt <->
  forall def m, find_class oc = Some def -> m ∈ must def -> present entry m = true.
Proof.
  unfold check_class. destruct (find_class oc) as [def|]; [|naive_solver].
  destruct (List.find _ (must def)) as [m|] eqn:E.
  - apply find_some in E as [Hin%list_elem_of_In Hp%negb_true_iff]. split; [done|].
    intros H. specialize (H def m eq_refl Hin). congruence.
  - split; [|done]. intros _ def' m [= <-] Hm%list_elem_of_In.
    apply (find_none _ _ E) in Hm. by apply negb_false_iff in Hm.
Qed.

Lemma try_fold_unit_ok {E A} (f : A -> result E unit) l :
  try_fold (fun _ a => f a) tt l = Ok tt <-> forall a, a ∈ l -> f a = Ok tt.
Proof.
  induction l as [|a l IH]; cbn [try_fold]; [split; [by intros _ ? ?%elem_of_nil|done]|].
  rewrite bind_ok. split.
  - intros ([] & Ha & Hl) b [->|Hb]%elem_of_cons; [done|]. by apply IH.
  - intros H. exists tt. split; [apply H; set_solver|]. apply IH. intros b Hb. apply H. set_solver.
Qed.

Lemma try_fold_unit_err {E A} (f : A -> result E unit) l e :
  try_fold (fun _ a => f a) tt l = Err e <->
  exists l1 a l2, l = l1 ++ a :: l2 /\ f a = Err e /\ forall b, b ∈ l1 -> f b = Ok tt.
Proof.
  induction l as [|a l IH]; cbn [try_fold].
  - split; [done|]. intros ([|] & ? & ? & ? & _); done.
  - rewrite bind_err. split.
    + intros [Ha|([] & Ha & Hl)].
      * exists [], a, l. split; [done|]. split; [done|]. by intros ? ?%elem_of_nil.
      * apply IH in Hl as (l1 & x & l2 & -> & Hx & Hl1). exists (a :: l1), x, l2.
        split; [done|]. split; [done|]. intros b [->|Hb]%elem_of_cons; auto.
    + intros ([|b l1] & x & l2 & Hl & Hx & Hl1); simpl in Hl; injection Hl as -> ->; [by left|right].
      exists tt. split; [apply Hl1; set_solver|]. apply IH. exists l1, x, l2.
      split; [done|]. split; [done|]. intros c Hc. apply Hl1. set_solver.
Qed.

Lemma validate_complete entry : validate entry = Ok tt <-> complete entry.
Proof.
  unfold validate, complete. destruct (Entry.get entry (str "objectclass")) as [classes|]; simpl.
  - rewrite try_fold_unit_ok. setoid_rewrite check_class_ok. naive_solver.
  - split; [|done]. by intros _ ? ? ? ?%elem_of_nil.
Qed.

