(* ===== verification/Token.v ===== *)
(** GSS-API token framing, [crates/ldap/src/gssapi/token.rs]: BER lengths and
    the initial context token of the Kerberos mechanism. *)

From S2P Require Import Prelude Bytes.

Definition KRB5_MECH_OID_DER : bytes := [6; 9; 42; 134; 72; 134; 247; 18; 1; 2; 2].
Definition TOK_ID_AP_REQ : bytes := [1; 0].
Definition TOK_ID_AP_REP : bytes := [2; 0].
Definition TOK_ID_WRAP : bytes := [5; 4].

Inductive Error :=
| Empty
| NotInitialToken
| Truncated
| UnknownMechanism
| WrongTokId (found expected : bytes).

(** [fold(0, |acc, b| (acc << 8) | b)] on a [usize]. *)
Definition shift_in (acc b : Z) : Z := Z.lor (as_u64 (Z.shiftl acc 8)) b.

(** [read_ber_length(buf, &mut pos)]: the length and the position after it. *)
Definition read_ber_length (buf : bytes) (pos : Z) : result Error (Z * Z) :=
  match slice buf pos (pos + 1) with
  | Some [first] =>
      let pos := pos + 1 in
      if Z.land first 128 =? 0 then Ok (first, pos)
      else
        let n := Z.land first 127 in
        if (n =? 0) || (8 <? n) then Err Truncated
        else
          match slice buf pos (pos + n) with
          | None => Err Truncated
          | Some l => Ok (foldl shift_in 0 l, pos + n)
          end
  | _ => Err Truncated
  end.

Fixpoint skip_zeros (l : bytes) : bytes :=
  match l with
  | [] => []
  | [b] => [b]
  | b :: l' => if b =? 0 then skip_zeros l' else l
  end.

Definition write_ber_length (len : Z) : bytes :=
  if len <? 128 then [len]
  else
    let content := skip_zeros (be_bytes 8 len) in
    Z.lor 128 (as_u8 (zlen content)) :: content.

Definition parse_initial_context_token (buf : bytes) : result Error bytes :=
  match buf with
  | [] => Err Empty
  | b0 :: _ =>
      if negb (b0 =? 96) then Err NotInitialToken
      else
        '(len, pos) ← read_ber_length buf 1;
        body ← ok_or Truncated (slice buf pos (pos + len));
        if negb (bool_decide (ztake (zlen KRB5_MECH_OID_DER) body = KRB5_MECH_OID_DER)) then Err UnknownMechanism
        else Ok (zdrop (zlen KRB5_MECH_OID_DER) body)
  end.

Definition build_initial_context_token (inner : bytes) : bytes :=
  let body_len := zlen KRB5_MECH_OID_DER + zlen inner in
  [96] ++ write_ber_length body_len ++ KRB5_MECH_OID_DER ++ inner.

Definition split_tok_id (buf : bytes) (expected : bytes) : result Error bytes :=
  tok_id ← ok_or Truncated (slice buf 0 2);
  if negb (bool_decide (tok_id = expected)) then Err (WrongTokId tok_id expected)
  else Ok (zdrop 2 buf).

(** ** Lengths *)

Lemma lor_shift acc b : 0 <= acc -> is_byte b -> Z.lor (Z.shiftl acc 8) b = 256 * acc + b.
Proof.
  intros Ha Hb. unfold is_byte in Hb. rewrite Z.shiftl_mul_pow2 by lia. change (2 ^ 8) with 256.
  pose proof (Z.add_lor_land (acc * 256) b) as Hl.
  enough (Z.land (acc * 256) b = 0) by lia. apply Z.bits_inj'. intros i Hi.
  rewrite Z.land_spec, Z.bits_0. destruct (Z.ltb_spec i 8).
  - change 256 with (2 ^ 8). rewrite Z.mul_pow2_bits_low by lia. done.
  - rewrite (Z.bits_above_log2 b i), andb_false_r; [done|lia|].
    destruct (decide (b = 0)) as [->|]; [change (0 < i); lia|].
    apply Z.lt_le_trans with 8; [apply Z.log2_lt_pow2; lia|lia].
Qed.

Lemma shift_in_small acc b : 0 <= acc < 2 ^ 56 -> is_byte b -> shift_in acc b = 256 * acc + b.
Proof.
  intros Ha Hb. unfold shift_in, as_u64. rewrite Z.mod_small.
  - apply lor_shift; [lia|done].
  - rewrite Z.shiftl_mul_pow2 by lia. lia.
Qed.

Lemma be_val_app l b : be_val (l ++ [b]) = 256 * be_val l + b.
Proof. unfold be_val. rewrite rev_app_distr. cbn [rev app le_val]. lia. Qed.

Lemma foldl_shift_in l : bytes_ok l -> zlen l <= 8 -> foldl shift_in 0 l = be_val l.
Proof.
  induction l as [|b l IH] using rev_ind; [done|]. intros [Hl Hb]%bytes_ok_app Hlen.
  rewrite zlen_app, zlen_cons, zlen_nil in Hlen.
  rewrite foldl_app, IH, be_val_app by (done || lia). cbn [foldl].
  apply Forall_cons in Hb as [Hb _]. apply shift_in_small; [|done].
  pose proof (be_val_bound l Hl) as Hv. split; [lia|]. apply Z.lt_le_trans with (256 ^ zlen l); [lia|].
  change (2 ^ 56) with (256 ^ 7). apply Z.pow_le_mono_r; lia.
Qed.

Lemma skip_zeros_cons b c l :
  skip_zeros (b :: c :: l) = if b =? 0 then skip_zeros (c :: l) else b :: c :: l.
Proof. done. Qed.

Lemma skip_zeros_val l : be_val (skip_zeros l) = be_val l.
Proof.
  assert (forall b l, be_val (b :: l) = b * 256 ^ zlen l + be_val l) as Hcons.
  { intros b k. induction k as [|c k IH] using rev_ind; [unfold be_val, zlen; simpl; lia|].
    change (b :: k ++ [c]) with ((b :: k) ++ [c]).
    rewrite !be_val_app, IH, zlen_app, zlen_cons, zlen_nil, Z.add_0_r, Z.pow_add_r by (pose proof (zlen_nonneg k); lia).
    lia. }
  induction l as [|b l IH]; [done|]. destruct l as [|c l]; [done|].
  rewrite skip_zeros_cons. destruct (Z.eqb_spec b 0) as [->|]; [|done]. rewrite IH.
  rewrite (Hcons 0). lia.
Qed.

Lemma skip_zeros_suffix l : exists z, l = z ++ skip_zeros l.
Proof.
  induction l as [|b l [z Hz]]; [by exists []|]. destruct l as [|c l]; [by exists []|].
  rewrite skip_zeros_cons. destruct (b =? 0); [|by exists []]. exists (b :: z). cbn [app]. by rewrite <- Hz.
Qed.

Lemma skip_zeros_ne l : l <> [] -> skip_zeros l <> [].
Proof.
  induction l as [|b l IH]; [done|]. intros _. destruct l as [|c l]; [done|].
  rewrite skip_zeros_cons. destruct (b =? 0); [by apply IH|done].
Qed.

(** The content octets of a long-form length. *)
Lemma long_form len :
  128 <= len < 2 ^ 64 ->
  exists content, write_ber_length len = (128 + zlen content) :: content /\
    1 <= zlen content <= 8 /\ bytes_ok content /\ be_val content = len.
Proof.
  intros Hlen. exists (skip_zeros (be_bytes 8 len)). unfold write_ber_length.
  rewrite (proj2 (Z.ltb_ge _ _)) by lia.
  destruct (skip_zeros_suffix (be_bytes 8 len)) as [z Hz].
  assert (zlen (be_bytes 8 len) = 8) as H8 by apply zlen_be_bytes.
  rewrite Hz, zlen_app in H8. pose proof (zlen_nonneg z).
  assert (skip_zeros (be_bytes 8 len) <> []) as Hne
    by (apply skip_zeros_ne; intros Hn; apply (f_equal length) in Hn; by rewrite length_be_bytes in Hn).
  assert (1 <= zlen (skip_zeros (be_bytes 8 len))) as H1.
  { destruct (skip_zeros (be_bytes 8 len)) as [|b k]; [done|].
    rewrite zlen_cons. pose proof (zlen_nonneg k). lia. }
  split; [|split; [lia|split]].
  - unfold as_u8. rewrite Z.mod_small by lia. f_equal.
    set (n := zlen (skip_zeros _)) in *. clearbody n.
    assert (n = 1 \/ n = 2 \/ n = 3 \/ n = 4 \/ n = 5 \/ n = 6 \/ n = 7 \/ n = 8) as Hn by lia.
    naive_solver.
  - pose proof (be_bytes_ok 8 len) as Hok. rewrite Hz in Hok. by apply bytes_ok_app in Hok as [_ ?].
  - rewrite skip_zeros_val. apply be_roundtrip. simpl. lia.
Qed.

Lemma land_long n : 1 <= n <= 127 -> Z.land (128 + n) 128 <> 0 /\ Z.land (128 + n) 127 = n.
Proof.
  intros Hn. replace (128 + n) with (Z.lor 128 n).
  2: { pose proof (Z.add_lor_land 128 n) as Hl. enough (Z.land 128 n = 0) by lia.
       apply Z.bits_inj'. intros i Hi. rewrite Z.land_spec, Z.bits_0. change 128 with (2 ^ 7).
       rewrite Z.pow2_bits_eqb by lia. destruct (Z.eqb_spec 7 i) as [<-|]; [|done].
       rewrite Z.bits_above_log2; [done|lia|]. apply Z.log2_lt_pow2; lia. }
  assert (Z.land n 127 = n) as Hn127.
  { change 127 with (Z.ones 7). rewrite Z.land_ones by lia. apply Z.mod_small. lia. }
  split.
  - intros H. assert (Z.testbit (Z.land (Z.lor 128 n) 128) 7 = true) as Ht
      by (rewrite Z.land_spec, Z.lor_spec; done). by rewrite H in Ht.
  - rewrite Z.land_lor_distr_l, Hn127. done.
Qed.

Lemma land_short b : 0 <= b < 128 -> Z.land b 128 = 0.
Proof.
  intros Hb. apply Z.bits_inj'. intros i Hi. rewrite Z.land_spec, Z.bits_0. change 128 with (2 ^ 7).
  rewrite Z.pow2_bits_eqb by lia. destruct (Z.eqb_spec 7 i) as [<-|]; [|by rewrite andb_false_r].
  destruct (decide (b = 0)) as [->|]; [done|].
  rewrite Z.bits_above_log2; [done|lia|]. apply Z.log2_lt_pow2; lia.
Qed.

Lemma read_write_ber_length pre len rest :
  0 <= len < 2 ^ 64 ->
  read_ber_length (pre ++ write_ber_length len ++ rest) (zlen pre)
  = Ok (len, zlen pre + zlen (write_ber_length len)).
Proof.
  intros Hlen. unfold read_ber_length. destruct (Z.ltb_spec len 128) as [Hs|Hl].
  - unfold write_ber_length. rewrite (proj2 (Z.ltb_lt _ _)) by done.
    rewrite (slice_app_exact pre [len] rest) by done. by rewrite land_short by lia.
  - destruct (long_form len) as (c & -> & Hc & Hok & Hv); [lia|]. cbn [app].
    rewrite (slice_app_exact pre [128 + zlen c] (c ++ rest)) by done.
    destruct (land_long (zlen c)) as [H1 H2]; [lia|]. rewrite (proj2 (Z.eqb_neq _ _)) by done.
    rewrite H2. rewrite (proj2 (Z.eqb_neq _ _)), (proj2 (Z.ltb_ge _ _)) by lia. cbn [orb].
    replace (pre ++ (128 + zlen c) :: c ++ rest) with ((pre ++ [128 + zlen c]) ++ c ++ rest)
      by (by rewrite <- app_assoc).
    rewrite (slice_app_exact (pre ++ [128 + zlen c]) c rest) by (rewrite zlen_app; done).
    rewrite foldl_shift_in, Hv by (done || lia). rewrite zlen_cons. f_equal. f_equal. lia.
Qed.

Lemma parse_build_token inner :
  zlen inner < 2 ^ 63 -> parse_initial_context_token (build_initial_context_token inner) = Ok inner.
Proof.
  intros Hlen. unfold parse_initial_context_token, build_initial_context_token.
  set (bl := zlen KRB5_MECH_OID_DER + zlen inner). pose proof (zlen_nonneg inner).
  assert (bl = 11 + zlen inner) as Hbl by done. cbn [app]. cbn [negb Z.eqb].
  pose proof (read_write_ber_length [96] bl (KRB5_MECH_OID_DER ++ inner) ltac:(lia)) as Hr.
  cbn [app] in Hr. change (zlen [96]) with 1 in Hr. rewrite Hr. cbn [mbind result_bind].
  replace (slice _ _ _) with (Some (KRB5_MECH_OID_DER ++ inner)).
  - cbn [ok_or mbind result_bind]. rewrite (ztake_app_exact (zlen KRB5_MECH_OID_DER)) by done.
    rewrite bool_decide_true by done. cbn [negb]. by rewrite zdrop_app_exact.
  - symmetry. rewrite <- (app_nil_r (KRB5_MECH_OID_DER ++ inner)) at 1.
    change (96 :: write_ber_length bl ++ (KRB5_MECH_OID_DER ++ inner) ++ [])
      with ((96 :: write_ber_length bl) ++ (KRB5_MECH_OID_DER ++ inner) ++ []).
    apply slice_app_exact; rewrite zlen_cons; [done|]. rewrite zlen_app. lia.
Qed.

(** Building then parsing an initial context token gives back the inner
    token, at every length; only tokens of the Kerberos mechanism are accepted. *)
Theorem initial_context_token_roundtrip inner :
  zlen inner < 2 ^ 63 ->
  parse_initial_context_token (build_initial_context_token inner) = Ok inner.
Proof. apply parse_build_token. Qed.

Lemma initial_context_token_roundtrip_witness :
  parse_initial_context_token (build_initial_context_token (repeat 7 300)) = Ok (repeat 7 300).
Proof. apply (initial_context_token_roundtrip (repeat 7 300)). by vm_compute. Defined.
