(* ===== verification/Framing.v ===== *)
(** Message framing of the LDAP listener, [crates/ldap/src/framing.rs]: the
    read loops over a buffered stream, for plain BER messages and for the
    sized buffers of the SASL security layer. *)

From S2P Require Import Prelude Bytes Token.

Inductive FramingError :=
| Io
| UnexpectedTag (b : Z)
| IndefiniteLength
| LengthOverflow
| UnexpectedEof
| Decode
| Encode.

(** [usize::checked_shl]: [None] only for a shift of at least the width; the
    bits shifted out are dropped. *)
Definition checked_shl (x n : Z) : option Z :=
  if n <? 64 then Some (as_u64 (Z.shiftl x n)) else None.

Definition length_octet (length b : Z) : result FramingError Z :=
  length ← ok_or LengthOverflow (checked_shl length 8);
  Ok (Z.lor length b).

(** The final sum is a [usize] sum; it wraps in a release build. *)
Definition ber_message_len (buf : bytes) : result FramingError (option Z) :=
  match buf with
  | [] => Ok None
  | b0 :: rest =>
      if negb (b0 =? 48) then Err (UnexpectedTag b0)
      else
        match rest with
        | [] => Ok None
        | first_len_byte :: _ =>
            if Z.land first_len_byte 128 =? 0 then Ok (Some (2 + first_len_byte))
            else
              let num_octets := Z.land first_len_byte 127 in
              if num_octets =? 0 then Err IndefiniteLength
              else
                match slice buf 2 (2 + num_octets) with
                | None => Ok None
                | Some octets =>
                    length ← try_fold length_octet 0 octets;
                    Ok (Some (as_u64 (2 + num_octets + length)))
                end
        end
  end.

(** What one [read] of the stream gives: bytes, or an I/O error. A read past
    the last event, or of no bytes, is the end of the stream. *)
Inductive event := Data (chunk : bytes) | Broken.

Definition eof {A} (buf : bytes) : result FramingError (option A) :=
  match buf with [] => Ok None | _ => Err UnexpectedEof end.

Section read_loop.
  Context {A : Type} (next : bytes -> result FramingError (option (A * bytes))).

(** The loop both readers share: hand out what the buffer holds, else read
    more. The buffer and the unread events are returned with every result. *)
Fixpoint read_loop (reader : list event) (buf : bytes) :
    result FramingError (option A) * (list event * bytes) :=
  match next buf with
  | Err e => (Err e, (reader, buf))
  | Ok (Some (a, buf')) => (Ok (Some a), (reader, buf'))
  | Ok None =>
      match reader with
      | [] => (eof buf, ([], buf))
      | Broken :: reader' => (Err Io, (reader', buf))
      | Data [] :: reader' => (eof buf, (reader', buf))
      | Data chunk :: reader' => read_loop reader' (buf ++ chunk)
      end
  end.

(** [n] reads in a row on the same stream. *)
Fixpoint read_many (n : nat) (st : list event * bytes) : list (result FramingError (option A)) :=
  match n with
  | O => []
  | S n' => let '(r, st') := read_loop st.1 st.2 in r :: read_many n' st'
  end.
End read_loop.

Section messages.
  Context {LdapMessage : Type}.
  Context (ber_decode : bytes -> option LdapMessage) (ber_encode : LdapMessage -> option bytes).

Definition next_message (buf : bytes) : result FramingError (option (LdapMessage * bytes)) :=
  len ← ber_message_len buf;
  match len with
  | Some total =>
      if total <=? zlen buf then
        msg ← ok_or Decode (ber_decode (ztake total buf));
        Ok (Some (msg, zdrop total buf))
      else Ok None
  | None => Ok None
  end.

Definition read_message := read_loop next_message.

(** The bytes [write_message] sends. *)
Definition write_message (msg : LdapMessage) : result FramingError bytes :=
  ok_or Encode (ber_encode msg).
End messages.

Definition next_sized_buffer (buf : bytes) : result FramingError (option (bytes * bytes)) :=
  match slice buf 0 4 with
  | Some hd =>
      let len := be_val hd in
      if 4 + len <=? zlen buf then Ok (Some (ztake len (zdrop 4 buf), zdrop (4 + len) buf))
      else Ok None
  | None => Ok None
  end.

Definition read_sized_buffer := read_loop next_sized_buffer.

Definition write_sized_buffer (payload : bytes) : bytes :=
  be_bytes 4 (as_u32 (zlen payload)) ++ payload.

(** ** What is left to read *)

Definition event_bytes (e : event) : bytes := match e with Data c => c | Broken => [] end.
Definition pending (reader : list event) (buf : bytes) : bytes := buf ++ concat (map event_bytes reader).

Section shrinks.
  Context {A : Type} (next : bytes -> result FramingError (option (A * bytes))).
  (** A frame handed out leaves less of the buffer. *)
  Hypothesis next_shrinks : forall buf a buf', bytes_ok buf -> next buf = Ok (Some (a, buf')) ->
    (length buf' < length buf)%nat /\ bytes_ok buf'.

Lemma read_loop_shrinks reader buf a reader' buf' :
  bytes_ok (pending reader buf) -> read_loop next reader buf = (Ok (Some a), (reader', buf')) ->
  (length (pending reader' buf') < length (pending reader buf))%nat /\ bytes_ok (pending reader' buf').
Proof.
  revert buf. induction reader as [|ev reader IH]; intros buf Hok; cbn [read_loop]; unfold pending in *;
    apply bytes_ok_app in Hok as [Hb Hr]; destruct (next buf) as [[[a' b']|]|] eqn:Hn; try done;
    try (intros [= <- <- <-]; destruct (next_shrinks _ _ _ Hb Hn) as [? ?]; rewrite !length_app;
         split; [lia|by apply bytes_ok_app]).
  - unfold eof. by destruct buf.
  - destruct ev as [[|c chunk]|]; [unfold eof; by destruct buf| |done]. intros Hl. cbn [map concat event_bytes] in *.
    rewrite app_assoc. apply IH; [|done]. rewrite <- app_assoc. by apply bytes_ok_app.
Qed.
End shrinks.

Lemma next_message_shrinks {M : Type} (ber_decode : bytes -> option M) :
  ber_decode [] = None ->
  forall buf a buf', bytes_ok buf -> next_message ber_decode buf = Ok (Some (a, buf')) ->
    (length buf' < length buf)%nat /\ bytes_ok buf'.
Proof.
  intros Hempty buf a buf' Hok. unfold next_message. destruct (ber_message_len buf) as [[total|]|]; cbn; try done.
  destruct (Z.leb_spec total (zlen buf)) as [Hle|]; [|done].
  destruct (ber_decode (ztake total buf)) as [m|] eqn:Hd; cbn; [|done]. intros [= <- <-].
  split; [|by apply bytes_ok_zdrop].
  destruct (Z.le_gt_cases total 0) as [Hneg|Hpos].
  - unfold ztake in Hd. rewrite (Z2Nat.nonpos total Hneg), take_0 in Hd. congruence.
  - unfold zdrop, zlen in *. rewrite length_drop. lia.
Qed.

Lemma next_sized_shrinks buf a buf' :
  bytes_ok buf -> next_sized_buffer buf = Ok (Some (a, buf')) -> (length buf' < length buf)%nat /\ bytes_ok buf'.
Proof.
  intros Hok. unfold next_sized_buffer. destruct (slice buf 0 4) as [hd|] eqn:Hs; [|done].
  destruct (slice_Some _ _ _ _ Hs) as (_ & Hle & _).
  assert (bytes_ok hd) as Hhd.
  { unfold slice in Hs. destruct (_ && _); [|done]. injection Hs as <-. by apply bytes_ok_ztake, bytes_ok_zdrop. }
  pose proof (be_val_bound hd Hhd) as [Hpos _].
  destruct (Z.leb_spec (4 + be_val hd) (zlen buf)); [|done]. intros [= <- <-]. split; [|by apply bytes_ok_zdrop].
  unfold zdrop, zlen in *. rewrite length_drop. lia.
Qed.

(** ** What a framing promises the read loop *)

Class Framed {A : Type} (next : bytes -> result FramingError (option (A * bytes)))
    (frame : A -> bytes -> Prop) := {
  (** A complete frame is handed out whatever follows it. *)
  next_frame a f rest : frame a f -> next (f ++ rest) = Ok (Some (a, rest));
  (** A proper prefix of a frame asks for more. *)
  next_prefix a buf c : frame a (buf ++ c) -> c <> [] -> next buf = Ok None;
}.

Definition stream (l : list bytes) : list event := map Data l.

Section framed.
  Context {A : Type} {next : bytes -> result FramingError (option (A * bytes))}.
  Context {frame : A -> bytes -> Prop} `{!Framed next frame}.

(** A buffer that shares the stream with a frame holds it or is a proper
    prefix of it. *)
Lemma app_split (buf k f rest : bytes) :
  buf ++ k = f ++ rest -> (exists s, buf = f ++ s) \/ (exists c, f = buf ++ c /\ c <> []).
Proof.
  intros Heq. apply app_eq_app in Heq as [s [[-> ->]|[-> ->]]]; [left; by exists s|].
  destruct s as [|x s]; [left; exists []; by rewrite !app_nil_r|right; by exists (x :: s)].
Qed.

Lemma read_loop_frame a f rest chunks buf :
  frame a f -> Forall (fun c => c <> []) chunks -> buf ++ concat chunks = f ++ rest ->
  exists chunks' buf', read_loop next (stream chunks) buf = (Ok (Some a), (stream chunks', buf')) /\
    Forall (fun c => c <> []) chunks' /\ buf' ++ concat chunks' = rest.
Proof.
  intros Hf. revert buf. induction chunks as [|c chunks IH]; intros buf Hne Heq.
  - rewrite app_nil_r in Heq. subst buf. exists [], rest. cbn [stream map read_loop].
    rewrite (next_frame a f rest Hf). split; [done|]. by rewrite app_nil_r.
  - destruct (app_split _ _ _ _ Heq) as [[s ->]|(d & -> & Hd)].
    + exists (c :: chunks), s. cbn [stream map read_loop]. rewrite (next_frame a f s Hf).
      split; [done|]. split; [done|]. rewrite <- app_assoc in Heq. by apply app_inv_head in Heq.
    + apply Forall_cons in Hne as [Hc Hne]. cbn [stream map read_loop].
      rewrite (next_prefix a buf d Hf Hd). destruct c as [|x c]; [done|].
      apply (IH (buf ++ x :: c)); [done|]. rewrite <- Heq. cbn [concat]. by rewrite <- app_assoc.
Qed.

Lemma read_loop_end chunks : next [] = Ok None -> concat chunks = [] -> Forall (fun c => c <> []) chunks ->
  read_loop next (stream chunks) [] = (Ok None, ([], [])).
Proof.
  intros Hnil Heq Hne. destruct chunks as [|c chunks]; [cbn; by rewrite Hnil|].
  apply Forall_cons in Hne as [Hc _]. cbn [concat] in Heq. by apply app_nil in Heq as [-> _].
Qed.

(** Any sequence of frames, cut into chunks anywhere, is read back whole and
    in order, then the end of the stream. *)
Lemma read_many_frames l fs chunks buf :
  next [] = Ok None -> Forall2 frame l fs -> Forall (fun c => c <> []) chunks ->
  buf ++ concat chunks = concat fs ->
  read_many next (S (length l)) (stream chunks, buf) = map (fun a => Ok (Some a)) l ++ [Ok None].
Proof.
  intros Hnil Hfs. revert chunks buf. induction Hfs as [|a f l fs Hf _ IH]; intros chunks buf Hne Heq.
  - cbn [concat] in Heq. apply app_nil in Heq as [-> Heq]. cbn [length read_many fst snd].
    by rewrite (read_loop_end _ Hnil Heq Hne).
  - cbn [concat] in Heq. destruct (read_loop_frame a f _ chunks buf Hf Hne Heq) as (c' & b' & Hr & Hne' & Heq').
    cbn [length]. remember (S (length l)) as n. cbn [read_many fst snd]. rewrite Hr. subst n.
    rewrite (IH c' b' Hne' Heq'). done.
Qed.
End framed.

(** ** Sized buffers *)

Definition sized_frame (payload f : bytes) : Prop :=
  zlen payload < 2 ^ 32 /\ f = write_sized_buffer payload.

Lemma slice_prefix {A} (l k : list A) a b :
  b <= zlen l -> slice (l ++ k) a b = slice l a b.
Proof.
  intros Hb. unfold slice. rewrite zlen_app. pose proof (zlen_nonneg k).
  rewrite (proj2 (Z.leb_le b (zlen l + zlen k))), (proj2 (Z.leb_le b (zlen l))) by lia.
  destruct (Z.leb_spec 0 a); [|done]. destruct (Z.leb_spec a b); [|done]. cbn [andb]. f_equal.
  unfold ztake, zdrop, zlen in *. rewrite drop_app_le by lia. apply take_app_le.
  rewrite length_drop. lia.
Qed.

Lemma sized_header payload rest :
  zlen payload < 2 ^ 32 ->
  slice (write_sized_buffer payload ++ rest) 0 4 = Some (be_bytes 4 (zlen payload)) /\
  be_val (be_bytes 4 (zlen payload)) = zlen payload.
Proof.
  intros Hp. pose proof (zlen_nonneg payload). unfold write_sized_buffer, as_u32.
  rewrite Z.mod_small by lia. split; [|apply be_roundtrip; simpl; lia].
  rewrite <- app_assoc. apply (slice_app_exact [] _ (payload ++ rest)); [done|].
  by rewrite zlen_be_bytes.
Qed.

#[global] Instance sized_framed : Framed next_sized_buffer sized_frame.
Proof.
  split.
  - intros p f rest [Hp ->]. destruct (sized_header p rest Hp) as [Hs Hv].
    unfold next_sized_buffer. rewrite Hs, Hv.
    assert (zlen (be_bytes 4 (as_u32 (zlen p))) = 4) as H4 by apply zlen_be_bytes.
    assert (zlen (write_sized_buffer p) = 4 + zlen p) as Hl
      by (unfold write_sized_buffer; rewrite zlen_app; lia).
    pose proof (zlen_nonneg rest). rewrite (proj2 (Z.leb_le _ _)) by (rewrite zlen_app; lia).
    rewrite (zdrop_app_exact (4 + zlen p)) by lia.
    unfold write_sized_buffer. rewrite <- app_assoc, (zdrop_app_exact 4) by lia.
    by rewrite (ztake_app_exact (zlen p)).
  - intros p buf c [Hp Heq] Hc. destruct (sized_header p [] Hp) as [Hs Hv].
    rewrite app_nil_r, <- Heq in Hs. unfold next_sized_buffer.
    destruct (Z.leb_spec 4 (zlen buf)) as [Hb|Hb].
    + rewrite slice_prefix in Hs by done. rewrite Hs, Hv.
      rewrite (proj2 (Z.leb_gt _ _)); [done|]. apply (f_equal zlen) in Heq. revert Heq.
      unfold write_sized_buffer. rewrite !zlen_app, zlen_be_bytes. destruct c; [done|].
      rewrite zlen_cons. pose proof (zlen_nonneg c). lia.
    + destruct (slice buf 0 4) as [k|] eqn:E; [|done]. apply slice_Some in E. lia.
Qed.

(** ** LDAP messages *)

Lemma try_fold_octets octets acc :
  try_fold length_octet acc octets = Ok (foldl shift_in acc octets).
Proof. revert acc. induction octets as [|b l IH]; intros acc; [done|]. apply IH. Qed.

(** The definite-length SEQUENCE encoding of a body. *)
Definition sequence (body : bytes) : bytes := [48] ++ write_ber_length (zlen body) ++ body.

Lemma ber_message_len_prefix body buf c :
  zlen (sequence body) < 2 ^ 63 -> buf ++ c = sequence body ->
  ber_message_len buf = Ok None /\ zlen buf < zlen (sequence body) \/
  ber_message_len buf = Ok (Some (zlen (sequence body))).
Proof.
  unfold sequence. intros Hlen Heq. pose proof (zlen_nonneg body).
  assert (zlen body < 2 ^ 63) as Hb.
  { rewrite !zlen_app, zlen_cons, zlen_nil in Hlen. pose proof (zlen_nonneg (write_ber_length (zlen body))). lia. }
  assert (0 < zlen (write_ber_length (zlen body))) as Hw.
  { unfold write_ber_length. destruct (_ <? _); rewrite zlen_cons; [done|].
    pose proof (zlen_nonneg (skip_zeros (be_bytes 8 (zlen body)))). lia. }
  destruct buf as [|b0 buf]; [left; split; [done|]; rewrite ?zlen_app, ?zlen_cons, ?zlen_nil; lia|].
  injection Heq as -> Heq. destruct buf as [|b1 buf]; [left; split; [done|]; rewrite ?zlen_app, ?zlen_cons, ?zlen_nil; lia|].
  unfold ber_message_len. cbn [Z.eqb negb Pos.eqb].
  destruct (Z.ltb_spec (zlen body) 128) as [Hs|Hl].
  - unfold write_ber_length in *. rewrite (proj2 (Z.ltb_lt _ _)) in * by done.
    injection Heq as -> Heq. right. rewrite land_short by lia. cbn [Z.eqb].
    f_equal. f_equal. rewrite ?zlen_app, ?zlen_cons, ?zlen_nil. lia.
  - destruct (long_form (zlen body)) as (k & Hk & Hkl & Hok & Hv); [lia|]. rewrite Hk in Heq, Hlen |- *.
    injection Heq as -> Heq. destruct (land_long (zlen k)) as [H1 H2]; [lia|].
    rewrite (proj2 (Z.eqb_neq (Z.land (128 + zlen k) 128) 0)) by done.
    rewrite H2, (proj2 (Z.eqb_neq _ _)) by lia.
    destruct (slice _ 2 (2 + zlen k)) as [oct|] eqn:E.
    + right. assert (oct = k) as ->.
      { destruct (slice_Some _ _ _ _ E) as (_ & Hle & _). rewrite <- (slice_prefix _ c) in E by done.
        cbn [app] in E. rewrite Heq in E.
        pose proof (slice_app_exact [48; 128 + zlen k] k body 2 (2 + zlen k) eq_refl eq_refl) as E'.
        cbn [app] in E'. congruence. }
      rewrite try_fold_octets, foldl_shift_in, Hv by (done || lia). cbn [mbind result_bind].
      rewrite ?zlen_app, ?zlen_cons, ?zlen_nil in Hlen |- *. unfold as_u64.
      rewrite Z.mod_small by lia. f_equal. f_equal. lia.
    + left. split; [done|]. unfold slice in E.
      destruct (Z.leb_spec (2 + zlen k) (zlen (48 :: 128 + zlen k :: buf))) as [Hle|Hgt].
      * rewrite (proj2 (Z.leb_le 2 (2 + zlen k))) in E by lia. done.
      * rewrite !zlen_cons in Hgt |- *. rewrite ?zlen_app, ?zlen_cons, ?zlen_app. change (zlen (@nil Z)) with 0. lia.
Qed.

Lemma ber_message_len_extend buf rest total :
  ber_message_len buf = Ok (Some total) -> ber_message_len (buf ++ rest) = Ok (Some total).
Proof.
  unfold ber_message_len. destruct buf as [|b0 [|b1 buf]]; [done| |].
  - by destruct (negb _).
  - cbn [app]. destruct (negb _); [done|]. destruct (_ =? 0); [done|]. destruct (_ =? 0); [done|].
    destruct (slice (b0 :: b1 :: buf) _ _) as [oct|] eqn:E; [|done].
    destruct (slice_Some _ _ _ _ E) as (_ & Hle & _).
    change (b0 :: b1 :: buf ++ rest) with ((b0 :: b1 :: buf) ++ rest). by rewrite slice_prefix, E by done.
Qed.

Section ldap_messages.
  Context {LdapMessage : Type}.
  Context (ber_decode : bytes -> option LdapMessage) (ber_encode : LdapMessage -> option bytes).
  (** BER as [rasn] documents it: a message is encoded as a definite-length
      SEQUENCE and decodes to itself. *)
  Hypothesis encode_sequence : forall m b, ber_encode m = Some b ->
    exists body, b = sequence body /\ zlen b < 2 ^ 63.
  Hypothesis decode_encode : forall m b, ber_encode m = Some b -> ber_decode b = Some m.

Definition message_frame (m : LdapMessage) (f : bytes) : Prop := ber_encode m = Some f.

#[local] Instance message_framed : Framed (next_message ber_decode) message_frame.
Proof.
  split.
  - intros m f rest Hf. destruct (encode_sequence m f Hf) as (body & -> & Hlen).
    unfold next_message.
    destruct (ber_message_len_prefix body (sequence body) [] Hlen (app_nil_r _)) as [[_ ?]|Hl]; [lia|].
    assert (ber_message_len (sequence body ++ rest) = Ok (Some (zlen (sequence body)))) as ->
      by (by apply ber_message_len_extend).
    cbn [mbind result_bind]. pose proof (zlen_nonneg rest).
    rewrite (proj2 (Z.leb_le _ _)) by (rewrite zlen_app; lia).
    rewrite ztake_app_exact, zdrop_app_exact, (decode_encode m) by done. done.
  - intros m buf c Hf Hc. destruct (encode_sequence m _ Hf) as (body & Heq & Hlen).
    rewrite Heq in Hlen. unfold next_message.
    destruct (ber_message_len_prefix body buf c Hlen Heq) as [[-> _]| ->]; [done|].
    cbn [mbind result_bind]. rewrite (proj2 (Z.leb_gt _ _)); [done|]. rewrite <- Heq, zlen_app.
    destruct c; [done|]. rewrite zlen_cons. pose proof (zlen_nonneg c). lia.
Qed.

(** However the network cuts the byte stream, reading a stream of
    written LDAP messages gives those messages, whole and in order, and then
    the clean end of the connection. *)
Theorem messages_read_back ms fs chunks :
  Forall2 (fun m f => write_message ber_encode m = Ok f) ms fs ->
  Forall (fun c => c <> []) chunks ->
  concat chunks = concat fs ->
  read_many (next_message ber_decode) (S (length ms)) (stream chunks, [])
  = map (fun m => Ok (Some m)) ms ++ [Ok None].
Proof.
  intros Hms Hne Heq. apply (read_many_frames (frame := message_frame) ms fs chunks []); try done.
  eapply Forall2_impl; [exact Hms|]. intros m f. unfold write_message, message_frame.
  by destruct (ber_encode m); [intros [= ->]|].
Qed.
End ldap_messages.

(** A concrete encoding that meets the hypotheses: bodies as SEQUENCEs. *)
Definition demo_encode (body : bytes) : option bytes :=
  if zlen body <? 2 ^ 62 then Some (sequence body) else None.
Definition demo_decode (b : bytes) : option bytes :=
  match read_ber_length b 1 with
  | Ok (len, pos) => slice b pos (pos + len)
  | Err _ => None
  end.

Lemma zlen_write_ber_length n : zlen (write_ber_length n) <= 9.
Proof.
  unfold write_ber_length. destruct (_ <? _); [done|]. rewrite zlen_cons.
  destruct (skip_zeros_suffix (be_bytes 8 n)) as [z Hz]. apply (f_equal zlen) in Hz.
  rewrite zlen_app, zlen_be_bytes in Hz. pose proof (zlen_nonneg z). lia.
Qed.

Lemma demo_sequence m b : demo_encode m = Some b -> exists body, b = sequence body /\ zlen b < 2 ^ 63.
Proof.
  unfold demo_encode. destruct (Z.ltb_spec (zlen m) (2 ^ 62)) as [Hlt|]; [|done]. intros [= <-]. exists m.
  split; [done|]. unfold sequence. rewrite !zlen_app. pose proof (zlen_write_ber_length (zlen m)).
  change (zlen [48]) with 1. lia.
Qed.

Lemma demo_decode_encode m b : demo_encode m = Some b -> demo_decode b = Some m.
Proof.
  unfold demo_encode, demo_decode. destruct (Z.ltb_spec (zlen m) (2 ^ 62)) as [Hlt|]; [|done].
  intros [= <-]. unfold sequence. pose proof (zlen_nonneg m).
  pose proof (read_write_ber_length [48] (zlen m) m ltac:(lia)) as Hr. change (zlen [48]) with 1 in Hr.
  rewrite Hr. pose proof (slice_app_exact ([48] ++ write_ber_length (zlen m)) m []) as Hs.
  rewrite app_nil_r, <- app_assoc in Hs. apply Hs; by rewrite zlen_app.
Qed.

Lemma messages_read_back_witness :
  read_many (next_message demo_decode) 3
    (stream [[48]; [3; 2; 1]; [0; 48; 0]], []) = [Ok (Some [2; 1; 0]); Ok (Some []); Ok None].
Proof.
  apply (messages_read_back demo_decode demo_encode demo_sequence demo_decode_encode
           [[2; 1; 0]; []] [[48; 3; 2; 1; 0]; [48; 0]]).
  - repeat constructor.
  - repeat constructor; done.
  - reflexivity.
Defined.

(** The buffers of the security layer survive any cutting of the stream
    the same way, up to the 32-bit length of their prefix. *)
Theorem sized_buffers_read_back ps chunks :
  Forall (fun p => zlen p < 2 ^ 32) ps ->
  Forall (fun c => c <> []) chunks ->
  concat chunks = concat (map write_sized_buffer ps) ->
  read_many next_sized_buffer (S (length ps)) (stream chunks, [])
  = map (fun p => Ok (Some p)) ps ++ [Ok None].
Proof.
  intros Hps Hne Heq.
  apply (read_many_frames (frame := sized_frame) ps (map write_sized_buffer ps) chunks []); try done.
  clear -Hps. induction Hps; constructor; [by split|done].
Qed.

Lemma sized_buffers_read_back_witness :
  read_many next_sized_buffer 3 (stream [[0; 0]; [0; 2; 9]; [8; 0; 0; 0; 0]], [])
  = [Ok (Some [9; 8]); Ok (Some []); Ok None].
Proof.
  apply (sized_buffers_read_back [[9; 8]; []]); [repeat constructor|repeat constructor; done|reflexivity].
Defined.

(** The overflow check of the length octets never fires: the high octets
    of a length of more than eight are dropped, so a header announcing
    2^64 bytes of content is taken for an empty message. *)
Theorem length_overflow_unreachable :
  (forall buf, ber_message_len buf <> Err LengthOverflow) /\
  ber_message_len ([48; 137; 1] ++ repeat 0 8) = Ok (Some 11).
Proof.
  split; [|reflexivity]. intros buf. unfold ber_message_len.
  destruct buf as [|b0 [|b1 buf]]; [done|by destruct (negb _)|].
  destruct (negb _); [done|]. destruct (_ =? 0); [done|]. destruct (_ =? 0); [done|].
  destruct (slice _ _ _); [|done]. by rewrite try_fold_octets.
Qed.
