(* ===== verification/Nfold.v ===== *)
(** The n-fold operation of Kerberos key derivation, and the bit and
    ones'-complement arithmetic under it ([crates/crypto/src/kerberos.rs]). *)

From S2P Require Import Prelude Bytes Token.
From Stdlib Require Import Zpow_facts.

Fixpoint gcd_fuel (fuel a b : nat) : nat :=
  match fuel with
  | O => a
  | S fuel' => if Nat.eqb b 0 then a else gcd_fuel fuel' b (a mod b)
  end.

(** [b] calls at most: the second argument decreases. *)
Definition gcd (a b : nat) : nat := gcd_fuel (S b) a b.

Definition lcm (a b : nat) : nat := a / gcd a b * b.

(** [buf[i]], for an index in range. *)
Definition byte_at (buf : bytes) (i : nat) : Z := default 0 (buf !! i).

(** One round of the loop of [extract_bits]: bit [start_bit + i] of [buf] is
    or-ed into bit [i] of [out], both counted from the top of byte 0. *)
Definition copy_bit (buf : bytes) (start_bit : nat) (out : bytes) (i : nat) : bytes :=
  let src_bit := (start_bit + i)%nat in
  let src_byte := (src_bit / 8)%nat in
  let src_shift := Z.of_nat (7 - src_bit mod 8) in
  let bit := Z.land (Z.shiftr (byte_at buf src_byte) src_shift) 1 in
  let dst_byte := (i / 8)%nat in
  let dst_shift := Z.of_nat (7 - i mod 8) in
  alter (fun b => Z.lor b (Z.shiftl bit dst_shift)) dst_byte out.

Definition extract_bits (buf : bytes) (start_bit nbits : nat) : bytes :=
  let nbytes := ((nbits + 7) / 8)%nat in
  foldl (copy_bit buf start_bit) (replicate nbytes 0) (seq 0 nbits).

Definition rotate_right (buf : bytes) (k : nat) : bytes :=
  let total_bits := (length buf * 8)%nat in
  let k := (k mod total_bits)%nat in
  if Nat.eqb k 0 then buf else extract_bits (buf ++ buf) (total_bits - k) total_bits.

(** The two loops of [ones_complement_add], on the bytes from the last to the
    first: the addition, and one pass of the end-around carry. *)
Fixpoint add_bytes (a b : bytes) (carry : Z) : bytes * Z :=
  match a, b with
  | x :: a', y :: b' =>
      let sum := as_u16 (x + y + carry) in
      let '(r, c) := add_bytes a' b' (Z.shiftr sum 8) in
      (Z.land sum 255 :: r, c)
  | _, _ => ([], carry)
  end.

Fixpoint carry_pass (result : bytes) (carry : Z) : bytes * Z :=
  match result with
  | [] => ([], carry)
  | x :: result' =>
      if 0 <? carry then
        let sum := as_u16 (x + carry) in
        let '(r, c) := carry_pass result' (Z.shiftr sum 8) in
        (Z.land sum 255 :: r, c)
      else (result, carry)
  end.

Fixpoint end_around (fuel : nat) (result : bytes) (carry : Z) : bytes :=
  match fuel with
  | O => result
  | S fuel' =>
      if 0 <? carry then let '(r, c) := carry_pass result carry in end_around fuel' r c
      else result
  end.

Definition ones_complement_add (a b : bytes) : bytes :=
  let '(result, carry) := add_bytes (rev a) (rev b) 0 in
  rev (end_around 2 result carry).

(** The copies of the input, each rotated 13 bits further, laid end to end. *)
Fixpoint replicas (n : nat) (current : bytes) : bytes :=
  match n with
  | O => []
  | S n' => current ++ replicas n' (rotate_right current 13)
  end.

Definition n_fold (input : bytes) (out_bytes : nat) : bytes :=
  let in_bits := (length input * 8)%nat in
  let out_bits := (out_bytes * 8)%nat in
  let lcm_bits := lcm in_bits out_bits in
  let num_reps := (lcm_bits / in_bits)%nat in
  let big := replicas num_reps input in
  let num_chunks := (lcm_bits / out_bits)%nat in
  foldl (fun acc c => ones_complement_add acc (take out_bytes (drop (c * out_bytes) big)))
    (replicate out_bytes 0) (seq 0 num_chunks).

(** ** Greatest common divisor *)

Lemma gcd_fuel_spec fuel a b : (b < fuel)%nat -> gcd_fuel fuel a b = Nat.gcd a b.
Proof.
  revert a b. induction fuel as [|fuel IH]; intros a b Hb; [lia|]. cbn [gcd_fuel].
  destruct (Nat.eqb_spec b 0) as [->|Hb0]; [by rewrite Nat.gcd_0_r|].
  pose proof (Nat.mod_upper_bound a b Hb0).
  rewrite IH by lia. rewrite Nat.gcd_comm, Nat.Lcm0.gcd_mod || rewrite Nat.gcd_comm, Nat.gcd_mod by done.
  apply Nat.gcd_comm.
Qed.

Lemma lcm_spec a b : (0 < a)%nat -> lcm a b = Nat.lcm a b.
Proof.
  intros Ha. unfold lcm, gcd. rewrite gcd_fuel_spec by lia. unfold Nat.lcm.
  pose proof (Nat.gcd_divide_l a b) as [q Hq]. pose proof (Nat.gcd_divide_r a b) as [r Hr].
  assert (Nat.gcd a b <> 0)%nat as Hg by (intros H; rewrite H in Hq; lia).
  set (g := Nat.gcd a b) in *. clearbody g. subst a b. rewrite !Nat.div_mul by done. nia.
Qed.

(** ** Bits *)

(** Bit [i] of a byte string, from the top of its first byte. *)
Definition bit_at (buf : bytes) (i : nat) : bool :=
  Z.testbit (byte_at buf (i / 8)) (Z.of_nat (7 - i mod 8)).

Lemma testbit_bit b s k : 0 <= s -> 0 <= k ->
  Z.testbit (Z.shiftl (Z.land (Z.shiftr b s) 1) k) k = Z.testbit b s.
Proof.
  intros Hs Hk. rewrite Z.shiftl_spec by done. rewrite Z.sub_diag, Z.land_spec, Z.shiftr_spec by lia.
  by rewrite Z.add_0_l, andb_true_r.
Qed.

Lemma testbit_bit_other b s k j : 0 <= k -> 0 <= j -> j <> k ->
  Z.testbit (Z.shiftl (Z.land (Z.shiftr b s) 1) k) j = false.
Proof.
  intros Hk Hj Hne. rewrite Z.shiftl_spec by done. destruct (Z.ltb_spec j k).
  - by rewrite Z.testbit_neg_r by lia.
  - rewrite Z.land_spec. change 1 with (2 ^ 0). rewrite Z.pow2_bits_eqb by lia.
    rewrite (proj2 (Z.eqb_neq _ _)) by lia. apply andb_false_r.
Qed.

Lemma length_copy_bit buf s out i : length (copy_bit buf s out i) = length out.
Proof. apply length_alter. Qed.

Lemma copy_bit_same buf s out i :
  (i / 8 < length out)%nat -> bit_at out i = false ->
  bit_at (copy_bit buf s out i) i = bit_at buf (s + i).
Proof.
  intros Hi Hf. unfold bit_at, copy_bit. destruct (lookup_lt_is_Some_2 out (i / 8) Hi) as [b Hb].
  unfold byte_at at 1. rewrite list_lookup_alter_eq, Hb. cbn [fmap option_fmap option_map from_option id].
  rewrite Z.lor_spec, testbit_bit by lia. unfold bit_at, byte_at in Hf. rewrite Hb in Hf. cbn [from_option id] in Hf.
  by rewrite Hf.
Qed.

Lemma copy_bit_other buf s out i j :
  i <> j -> bit_at (copy_bit buf s out i) j = bit_at out j.
Proof.
  intros Hne. unfold bit_at, copy_bit. destruct (decide (i / 8 = j / 8)%nat) as [He|He].
  - unfold byte_at at 1 3. rewrite <- He, list_lookup_alter_eq.
    destruct (out !! (i / 8)%nat) as [b|]; [|done]. cbn [fmap option_fmap option_map from_option id].
    rewrite Z.lor_spec, testbit_bit_other by (pose proof (Nat.div_mod_eq i 8); pose proof (Nat.div_mod_eq j 8);
      pose proof (Nat.mod_upper_bound i 8); pose proof (Nat.mod_upper_bound j 8); lia).
    apply orb_false_r.
  - unfold byte_at at 1 3. by rewrite list_lookup_alter_ne.
Qed.

Lemma bit_at_zeros n i : bit_at (replicate n 0) i = false.
Proof.
  unfold bit_at, byte_at. destruct (replicate n 0 !! (i / 8)%nat) as [b|] eqn:E.
  - apply lookup_replicate in E as [-> _]. apply Z.bits_0.
  - apply Z.bits_0.
Qed.

Lemma extract_bits_spec buf s n i :
  (i < n)%nat -> bit_at (extract_bits buf s n) i = bit_at buf (s + i).
Proof.
  unfold extract_bits. set (nb := ((n + 7) / 8)%nat).
  assert (forall m, (m <= n)%nat ->
    let out := foldl (copy_bit buf s) (replicate nb 0) (seq 0 m) in
    length out = nb /\ (forall j, (j < m)%nat -> bit_at out j = bit_at buf (s + j)) /\
    (forall j, (m <= j)%nat -> bit_at out j = false)) as H.
  { induction m as [|m IH]; intros Hm; cbn zeta.
    - cbn [seq foldl]. rewrite length_replicate. split; [done|]. split; [lia|]. intros; apply bit_at_zeros.
    - destruct IH as (Hl & Hlt & Hge); [lia|]. rewrite seq_S, foldl_app. cbn [foldl plus].
      split; [by rewrite length_copy_bit|]. split; intros j Hj.
      + destruct (decide (j = m)) as [->|]; [|rewrite copy_bit_other by lia; apply Hlt; lia].
        apply copy_bit_same; [|by apply Hge]. rewrite Hl. unfold nb.
        pose proof (Nat.div_mod_eq m 8); pose proof (Nat.mod_upper_bound m 8).
        pose proof (Nat.div_mod_eq (n + 7) 8); pose proof (Nat.mod_upper_bound (n + 7) 8). lia.
      + rewrite copy_bit_other by lia. apply Hge. lia. }
  intros Hi. by apply (H n).
Qed.

(** ** Ones'-complement addition *)

Lemma split_sum s : 0 <= s < 2 ^ 16 ->
  Z.land (as_u16 s) 255 = s mod 256 /\ Z.shiftr (as_u16 s) 8 = s / 256.
Proof.
  intros Hs. unfold as_u16. rewrite Z.mod_small by done.
  change 255 with (Z.ones 8). rewrite Z.land_ones, Z.shiftr_div_pow2 by lia. done.
Qed.

Lemma add_bytes_spec a b carry :
  bytes_ok a -> bytes_ok b -> length a = length b -> 0 <= carry <= 1 ->
  let '(r, c) := add_bytes a b carry in
  bytes_ok r /\ length r = length a /\ 0 <= c <= 1 /\
  le_val r + 256 ^ zlen a * c = le_val a + le_val b + carry.
Proof.
  intros Ha. revert b carry. induction Ha as [|x a Hx Ha IH]; intros [|y b] carry Hb Hl Hc; try done.
  - cbn [add_bytes]. split; [constructor|]. split; [done|]. split; [done|]. change (zlen (@nil Z)) with 0. cbn; lia.
  - apply Forall_cons in Hb as [Hy Hb]. injection Hl as Hl. cbn [add_bytes]. unfold is_byte in *.
    destruct (split_sum (x + y + carry)) as [-> ->]; [lia|].
    specialize (IH b ((x + y + carry) / 256) Hb Hl ltac:(zlia)).
    destruct (add_bytes a b _) as [r c]. destruct IH as (Hr & Hlr & Hc' & Hv).
    split; [constructor; [unfold is_byte; zlia|done]|]. split; [by cbn; rewrite Hlr|]. split; [done|].
    cbn [le_val]. rewrite zlen_cons, Z.pow_add_r by (pose proof (zlen_nonneg a); lia).
    pose proof (Z.div_mod (x + y + carry) 256). nia.
Qed.

Lemma carry_pass_spec l carry :
  bytes_ok l -> 0 <= carry <= 1 ->
  let '(r, c) := carry_pass l carry in
  bytes_ok r /\ length r = length l /\ 0 <= c <= 1 /\ le_val r + 256 ^ zlen l * c = le_val l + carry.
Proof.
  intros Hl. revert carry. induction Hl as [|x l Hx Hl IH]; intros carry Hc; cbn [carry_pass].
  - split; [constructor|]. split; [done|]. split; [done|]. change (zlen (@nil Z)) with 0. cbn; lia.
  - destruct (Z.ltb_spec 0 carry).
    + unfold is_byte in Hx. destruct (split_sum (x + carry)) as [-> ->]; [lia|].
      specialize (IH ((x + carry) / 256) ltac:(zlia)).
      destruct (carry_pass l _) as [r c]. destruct IH as (Hr & Hlr & Hc' & Hv).
      split; [constructor; [unfold is_byte; zlia|done]|]. split; [by cbn; rewrite Hlr|]. split; [done|].
      cbn [le_val]. rewrite zlen_cons, Z.pow_add_r by (pose proof (zlen_nonneg l); lia).
      pose proof (Z.div_mod (x + carry) 256). nia.
    + split; [by constructor|]. split; [done|]. split; [done|]. assert (carry = 0) as -> by lia. lia.
Qed.

(** The sum with its end-around carry; one pass absorbs it. *)
Lemma ones_complement_add_spec a b :
  bytes_ok a -> bytes_ok b -> length a = length b ->
  let r := ones_complement_add a b in
  bytes_ok r /\ length r = length a /\
  be_val r = (let s := be_val a + be_val b in
              if s <? 256 ^ zlen a then s else s - 256 ^ zlen a + 1).
Proof.
  intros Ha Hb Hl. unfold ones_complement_add, be_val.
  pose proof (add_bytes_spec (rev a) (rev b) 0 (Forall_rev Ha) (Forall_rev Hb)) as H.
  rewrite !length_rev in H. specialize (H Hl ltac:(lia)).
  pose proof (le_val_bound _ (Forall_rev Ha)) as HA. pose proof (le_val_bound _ (Forall_rev Hb)) as HB.
  assert (zlen (rev a) = zlen a) as Hza by (unfold zlen; by rewrite length_rev).
  assert (zlen (rev b) = zlen a) as Hzb by (unfold zlen; by rewrite length_rev, Hl).
  rewrite ?Hza, ?Hzb in *. destruct (add_bytes _ _ 0) as [r c]. destruct H as (Hr & Hlr & Hc & Hv).
  assert (zlen r = zlen a) as Hzr by (unfold zlen; by rewrite Hlr).
  pose proof (le_val_bound r Hr) as HR. rewrite Hzr in HR. cbn [end_around].
  set (M := 256 ^ zlen a) in *. destruct (Z.ltb_spec 0 c) as [Hc1|Hc0].
  - pose proof (carry_pass_spec r c Hr Hc) as H. destruct (carry_pass r c) as [r' c'].
    destruct H as (Hr' & Hlr' & Hc' & Hv'). rewrite Hzr in Hv'. fold M in Hv'.
    assert (zlen r' = zlen a) as Hzr' by (unfold zlen; by rewrite Hlr', Hlr).
    pose proof (le_val_bound r' Hr') as HR'. rewrite Hzr' in HR'. fold M in HR'.
    assert (c = 1) as -> by lia. assert (c' = 0) as -> by nia. cbn [Z.ltb Z.compare].
    rewrite rev_involutive, length_rev. split; [by apply Forall_rev|]. split; [by rewrite Hlr', Hlr|].
    cbn zeta. rewrite (proj2 (Z.ltb_ge _ _)) by lia. lia.
  - assert (c = 0) as -> by lia.
    rewrite rev_involutive, length_rev. split; [by apply Forall_rev|]. split; [done|].
    cbn zeta. rewrite (proj2 (Z.ltb_lt _ _)) by lia. lia.
Qed.

Lemma ones_complement_add_mod a b :
  bytes_ok a -> bytes_ok b -> length a = length b ->
  be_val (ones_complement_add a b) mod (256 ^ zlen a - 1)
  = (be_val a + be_val b) mod (256 ^ zlen a - 1).
Proof.
  intros Ha Hb Hl. destruct (ones_complement_add_spec a b Ha Hb Hl) as (_ & _ & ->). cbn zeta.
  destruct (_ <? _); [done|].
  replace (be_val a + be_val b - 256 ^ zlen a + 1)
    with (be_val a + be_val b + (-1) * (256 ^ zlen a - 1)) by lia.
  apply Z_mod_plus_full.
Qed.

(** ** The fold *)

Lemma lor_byte a b : is_byte a -> is_byte b -> is_byte (Z.lor a b).
Proof.
  unfold is_byte. intros Ha Hb. split; [apply Z.lor_nonneg; lia|].
  destruct (decide (Z.lor a b = 0)) as [->|Hn]; [lia|]. change 256 with (2 ^ 8).
  assert (0 <= Z.lor a b) by (apply Z.lor_nonneg; lia).
  apply Z.log2_lt_pow2; [lia|]. rewrite Z.log2_lor by lia.
  apply Z.max_lub_lt; [destruct (decide (a = 0)) as [->|]|destruct (decide (b = 0)) as [->|]];
    try done; apply Z.log2_lt_pow2; lia.
Qed.

Lemma copy_bit_ok buf s out i : bytes_ok out -> bytes_ok (copy_bit buf s out i).
Proof.
  intros Ho. unfold copy_bit. apply Forall_alter; [done|]. intros x _ Hx. apply lor_byte; [done|].
  change 1 with (Z.ones 1). rewrite Z.land_ones by lia.
  set (k := Z.of_nat (7 - i mod 8)). assert (0 <= k <= 7) as Hk by lia.
  rewrite Z.shiftl_mul_pow2 by lia. unfold is_byte.
  pose proof (Z.mod_pos_bound (Z.shiftr (byte_at buf ((s + i) / 8)) (Z.of_nat (7 - (s + i) mod 8))) (2 ^ 1)).
  assert (2 ^ k <= 2 ^ 7) by (apply Z.pow_le_mono_r; lia). assert (0 < 2 ^ k) by (apply Z.pow_pos_nonneg; lia).
  change (2 ^ 7) with 128 in *. change (2 ^ 1) with 2 in *. nia.
Qed.

Lemma extract_bits_shape buf s n :
  bytes_ok (extract_bits buf s n) /\ length (extract_bits buf s n) = ((n + 7) / 8)%nat.
Proof.
  unfold extract_bits. set (nb := ((n + 7) / 8)%nat).
  assert (forall l out, bytes_ok out /\ length out = nb ->
    bytes_ok (foldl (copy_bit buf s) out l) /\ length (foldl (copy_bit buf s) out l) = nb) as H.
  { induction l as [|i l IH]; intros out [Ho Hl]; [done|]. cbn [foldl]. apply IH.
    split; [by apply copy_bit_ok|by rewrite length_copy_bit]. }
  apply H. rewrite length_replicate. split; [|done]. apply Forall_replicate. unfold is_byte. lia.
Qed.

Lemma rotate_right_shape buf k :
  bytes_ok buf -> bytes_ok (rotate_right buf k) /\ length (rotate_right buf k) = length buf.
Proof.
  intros Hb. unfold rotate_right. destruct (Nat.eqb _ _); [done|].
  destruct (extract_bits_shape (buf ++ buf) (length buf * 8 - k mod (length buf * 8)) (length buf * 8)) as [H ->].
  split; [done|]. rewrite (Nat.add_comm _ 7), Nat.div_add by lia. done.
Qed.

(** Bit [i] of a rotated string is the bit [k] places to its left, around
    the end. *)
Lemma rotate_right_spec buf k i :
  (i < length buf * 8)%nat ->
  bit_at (rotate_right buf k) i
  = bit_at buf ((i + length buf * 8 - k mod (length buf * 8)) mod (length buf * 8)).
Proof.
  intros Hi. unfold rotate_right. set (t := (length buf * 8)%nat) in *.
  pose proof (Nat.mod_upper_bound k t ltac:(lia)) as Hk. set (r := (k mod t)%nat) in *. clearbody r.
  destruct (Nat.eqb_spec r 0) as [->|Hr].
  - rewrite Nat.sub_0_r, <- (Nat.mul_1_l t) at 1. rewrite Nat.Div0.mod_add, Nat.mod_small by lia. done.
  - rewrite extract_bits_spec by done. unfold bit_at.
    assert (forall j, (j < 2 * t)%nat -> byte_at (buf ++ buf) (j / 8) = byte_at buf ((j mod t) / 8) /\
      (j mod 8 = (j mod t) mod 8)%nat) as H.
    { intros j Hj. unfold byte_at. destruct (decide (j < t)%nat) as [Hlt|Hge].
      - rewrite (Nat.mod_small j t) by done. split; [|done].
        rewrite lookup_app_l; [done|]. apply Nat.Div0.div_lt_upper_bound. unfold t in Hlt. lia.
      - assert (j mod t = j - t)%nat as ->.
        { symmetry. apply (Nat.mod_unique j t 1); lia. }
        assert (j = (j - t) + length buf * 8)%nat as Hj' by (unfold t in *; lia).
        split; [|rewrite Hj' at 1; apply Nat.Div0.mod_add].
        rewrite Hj' at 1. rewrite Nat.div_add by lia. rewrite lookup_app_r by lia. f_equal. f_equal. lia. }
    destruct (H (t - r + i)%nat) as [H1 H2]; [lia|]. rewrite H1, H2.
    replace (i + t - r)%nat with (t - r + i)%nat by lia. done.
Qed.

Lemma replicas_shape n cur :
  bytes_ok cur -> bytes_ok (replicas n cur) /\ length (replicas n cur) = (n * length cur)%nat.
Proof.
  revert cur. induction n as [|n IH]; intros cur Hc; [split; [constructor|done]|].
  cbn [replicas]. destruct (rotate_right_shape cur 13 Hc) as [Hr Hl].
  destruct (IH _ Hr) as [Ho Hn]. rewrite length_app, Hn, Hl. split; [by apply bytes_ok_app|lia].
Qed.

Lemma be_val_concat x y : be_val (x ++ y) = be_val x * 256 ^ zlen y + be_val y.
Proof.
  revert x. induction y as [|b y IH]; intros x.
  - rewrite app_nil_r. change (be_val []) with 0. change (zlen (@nil Z)) with 0. lia.
  - change (x ++ b :: y) with (x ++ [b] ++ y).
    rewrite app_assoc, IH. change (b :: y) with ([b] ++ y) at 2. rewrite (IH [b]), be_val_app, zlen_cons, Z.pow_add_r
      by (pose proof (zlen_nonneg y); lia). change (be_val [b]) with (b + 256 * 0). lia.
Qed.

Lemma foldl_ext_seq {A} (f g : A -> nat -> A) a m :
  (forall a c, (c < m)%nat -> f a c = g a c) -> foldl f a (seq 0 m) = foldl g a (seq 0 m).
Proof.
  intros H. assert (forall k s a, (s + k <= m)%nat -> foldl f a (seq s k) = foldl g a (seq s k)) as Hk.
  { induction k as [|k IH]; intros s x Hs; [done|]. cbn [seq foldl]. rewrite H by lia. apply IH. lia. }
  apply Hk. lia.
Qed.

(** Summing the chunks of a string and reading it as one number agree modulo
    [256^n - 1]. *)
Lemma fold_chunks n m big acc :
  (0 < n)%nat -> bytes_ok big -> length big = (m * n)%nat -> bytes_ok acc -> length acc = n ->
  let r := foldl (fun acc c => ones_complement_add acc (take n (drop (c * n) big))) acc (seq 0 m) in
  bytes_ok r /\ length r = n /\
  be_val r mod (256 ^ Z.of_nat n - 1) = (be_val acc + be_val big) mod (256 ^ Z.of_nat n - 1).
Proof.
  intros Hn. revert big acc. induction m as [|m IH]; intros big acc Hb Hlb Ha Hla.
  - destruct big; [|done]. cbn. by rewrite Z.add_0_r.
  - rewrite seq_S, foldl_app. cbn [foldl plus]. cbn zeta.
    rewrite <- (take_drop (m * n) big) in Hb. apply bytes_ok_app in Hb as [Hb1 Hb2].
    destruct (IH (take (m * n) big) acc Hb1) as (Ho & Hlo & Hv); [rewrite length_take; lia|done|done|].
    assert (foldl (fun acc c => ones_complement_add acc (take n (drop (c * n) (take (m * n) big)))) acc (seq 0 m)
      = foldl (fun acc c => ones_complement_add acc (take n (drop (c * n) big))) acc (seq 0 m)) as Heq.
    { apply foldl_ext_seq. intros a c Hc. f_equal. rewrite skipn_firstn_comm, take_take. f_equal. nia. }
    cbn zeta in *. rewrite Heq in Ho, Hlo, Hv. set (r := foldl _ acc (seq 0 m)) in *.
    assert (take n (drop (m * n) big) = drop (m * n) big) as -> by (apply take_ge; rewrite length_drop; lia).
    destruct (ones_complement_add_spec r (drop (m * n) big) Ho Hb2) as (H1 & H2 & _);
      [rewrite length_drop; lia|].
    split; [done|]. split; [lia|].
    pose proof (ones_complement_add_mod r (drop (m * n) big) Ho Hb2 ltac:(rewrite length_drop; lia)) as Hm.
    unfold zlen in Hm. rewrite Hlo in Hm. rewrite Hm.
    rewrite <- Zplus_mod_idemp_l, Hv, Zplus_mod_idemp_l.
    rewrite <- (take_drop (m * n) big) at 3. rewrite be_val_concat.
    assert (zlen (drop (m * n) big) = Z.of_nat n) as -> by (unfold zlen; rewrite length_drop; lia).
    set (x := be_val (take _ _)). set (M := 256 ^ Z.of_nat n - 1).
    replace (256 ^ Z.of_nat n) with (M + 1) by (unfold M; lia).
    replace (be_val acc + (x * (M + 1) + be_val (drop (m * n) big)))
      with (be_val acc + x + be_val (drop (m * n) big) + x * M) by lia.
    by rewrite Z_mod_plus_full.
Qed.

Lemma lcm_counts l n : (0 < l)%nat -> (0 < n)%nat ->
  lcm (l * 8) (n * 8) = (Nat.lcm l n * 8)%nat /\
  (Nat.lcm l n * 8 / (l * 8) * l = Nat.lcm l n)%nat /\ (Nat.lcm l n * 8 / (n * 8) * n = Nat.lcm l n)%nat.
Proof.
  intros Hl Hn. split.
  - rewrite lcm_spec by lia. apply Nat.lcm_mul_mono_r.
  - destruct (Nat.divide_lcm_l l n) as [q Hq]. destruct (Nat.divide_lcm_r l n) as [r Hr].
    rewrite !Nat.Div0.div_mul_cancel_r by lia. split.
    + rewrite Hq at 1. rewrite Nat.div_mul by lia. lia.
    + rewrite Hr at 1. rewrite Nat.div_mul by lia. lia.
Qed.

Lemma n_fold_shape input out_bytes :
  bytes_ok input -> input <> [] -> (0 < out_bytes)%nat ->
  let r := n_fold input out_bytes in
  bytes_ok r /\ length r = out_bytes /\
  be_val r mod (256 ^ Z.of_nat out_bytes - 1)
  = be_val (replicas (Nat.lcm (length input) out_bytes / length input) input) mod (256 ^ Z.of_nat out_bytes - 1).
Proof.
  intros Hi Hne Hn. assert (0 < length input)%nat as Hl by (destruct input; [done|cbn; lia]).
  destruct (lcm_counts (length input) out_bytes Hl Hn) as (HL & Hr & Hc).
  cbn zeta. unfold n_fold. rewrite HL.
  replace (Nat.lcm (length input) out_bytes / length input)%nat
    with (Nat.lcm (length input) out_bytes * 8 / (length input * 8))%nat
    by (apply Nat.Div0.div_mul_cancel_r; lia).
  set (reps := (_ / (length input * 8))%nat) in *. set (m := (_ / (out_bytes * 8))%nat) in *.
  destruct (replicas_shape reps input Hi) as [Hb Hlb].
  destruct (fold_chunks out_bytes m (replicas reps input) (replicate out_bytes 0) Hn Hb) as (H1 & H2 & H3).
  - lia.
  - apply Forall_replicate. unfold is_byte. lia.
  - apply length_replicate.
  - split; [done|]. split; [done|]. rewrite H3. f_equal. enough (be_val (replicate out_bytes 0) = 0) as -> by lia.
    clear. induction out_bytes as [|n IH]; [done|].
    change (replicate (S n) 0) with ([0] ++ replicate n 0). rewrite be_val_concat, IH. done.
Qed.

Lemma n_fold_length input out_bytes :
  bytes_ok input -> input <> [] -> (0 < out_bytes)%nat -> length (n_fold input out_bytes) = out_bytes.
Proof. intros Hi Hne Hn. apply (n_fold_shape input out_bytes Hi Hne Hn). Qed.

(** n-fold gives exactly [out_bytes] bytes, whose big-endian value is
    that of the input's rotated copies, laid end to end up to the least
    common multiple of the lengths, modulo [2^(8*out_bytes) - 1]; each copy
    is the one before it turned right by 13 bits. *)
Theorem n_fold_spec input out_bytes :
  bytes_ok input -> input <> [] -> (0 < out_bytes)%nat ->
  let r := n_fold input out_bytes in
  let reps := (Nat.lcm (length input) out_bytes / length input)%nat in
  bytes_ok r /\ length r = out_bytes /\
  be_val r mod (256 ^ Z.of_nat out_bytes - 1)
  = be_val (replicas reps input) mod (256 ^ Z.of_nat out_bytes - 1) /\
  (forall i, (i < length input * 8)%nat ->
    bit_at (rotate_right input 13) i
    = bit_at input ((i + length input * 8 - 13 mod (length input * 8)) mod (length input * 8))).
Proof.
  intros Hi Hne Hn. cbn zeta. destruct (n_fold_shape input out_bytes Hi Hne Hn) as (H1 & H2 & H3).
  split; [done|]. split; [done|]. split; [done|]. intros i Hi'. by apply rotate_right_spec.
Qed.

Lemma n_fold_spec_witness :
  n_fold [112; 97; 115; 115; 119; 111; 114; 100] 7 = [120; 160; 123; 108; 175; 133; 250] /\
  length (n_fold [112; 97; 115; 115; 119; 111; 114; 100] 7) = 7%nat.
Proof.
  split; [by vm_compute|].
  apply (n_fold_spec [112; 97; 115; 115; 119; 111; 114; 100] 7); [|done|lia].
  repeat (constructor; [unfold is_byte; lia|]). constructor.
Defined.
