(* ===== verification/Kerberos.v ===== *)
(** Kerberos key derivation, encryption and checksums
    ([crates/crypto/src/kerberos.rs], error type of [crates/crypto/src/lib.rs]),
    over the OpenSSL primitives the crate calls. *)

From S2P Require Import Prelude Bytes Str Token Nfold.

Inductive Error :=
| Ossl
| BufferSize
| FipsProviderNotActive
| PasswordTooShort (min actual : Z)
| IntegrityCheckFailed.

Inductive AesSize := Aes128 | Aes256.
Inductive DigestAlg := Sha1 | Sha2_256 | Sha2_384.
Inductive MacAlg := HmacSha1 | HmacSha2_256 | HmacSha2_384.

Inductive Enctype :=
| Aes128CtsHmacSha1_96
| Aes256CtsHmacSha1_96
| Aes128CtsHmacSha256_128
| Aes256CtsHmacSha384_192.

#[global] Instance Enctype_eq_dec : EqDecision Enctype.
Proof. solve_decision. Defined.

Definition etype_number (e : Enctype) : Z :=
  match e with
  | Aes128CtsHmacSha1_96 => 17
  | Aes256CtsHmacSha1_96 => 18
  | Aes128CtsHmacSha256_128 => 19
  | Aes256CtsHmacSha384_192 => 20
  end.

Definition aes_size (e : Enctype) : AesSize :=
  match e with
  | Aes128CtsHmacSha1_96 | Aes128CtsHmacSha256_128 => Aes128
  | Aes256CtsHmacSha1_96 | Aes256CtsHmacSha384_192 => Aes256
  end.

Definition key_len (e : Enctype) : Z := match aes_size e with Aes128 => 16 | Aes256 => 32 end.

Definition hmac_len (e : Enctype) : Z :=
  match e with
  | Aes128CtsHmacSha1_96 | Aes256CtsHmacSha1_96 => 12
  | Aes128CtsHmacSha256_128 => 16
  | Aes256CtsHmacSha384_192 => 24
  end.

Definition is_rfc8009 (e : Enctype) : bool :=
  match e with Aes128CtsHmacSha256_128 | Aes256CtsHmacSha384_192 => true | _ => false end.

(** Reached for the two RFC 8009 enctypes only. *)
Definition rfc8009_name (e : Enctype) : rstring :=
  match e with
  | Aes128CtsHmacSha256_128 => str "aes128-cts-hmac-sha256-128"
  | Aes256CtsHmacSha384_192 => str "aes256-cts-hmac-sha384-192"
  | _ => []
  end.

Definition digest (e : Enctype) : DigestAlg :=
  match e with
  | Aes128CtsHmacSha1_96 | Aes256CtsHmacSha1_96 => Sha1
  | Aes128CtsHmacSha256_128 => Sha2_256
  | Aes256CtsHmacSha384_192 => Sha2_384
  end.

Definition mac_alg (e : Enctype) : MacAlg :=
  match e with
  | Aes128CtsHmacSha1_96 | Aes256CtsHmacSha1_96 => HmacSha1
  | Aes128CtsHmacSha256_128 => HmacSha2_256
  | Aes256CtsHmacSha384_192 => HmacSha2_384
  end.

Definition default_iterations (e : Enctype) : Z := if is_rfc8009 e then 32768 else 4096.

Definition try_from (v : Z) : option Enctype :=
  if v =? 17 then Some Aes128CtsHmacSha1_96
  else if v =? 18 then Some Aes256CtsHmacSha1_96
  else if v =? 19 then Some Aes128CtsHmacSha256_128
  else if v =? 20 then Some Aes256CtsHmacSha384_192
  else None.

(** [constant_time_eq]: every byte is compared, whatever the earlier ones. *)
Definition constant_time_eq (a b : bytes) : bool :=
  if negb (zlen a =? zlen b) then false else xor_acc 0 a b =? 0.

(** The OpenSSL operations, through the [ossl] crate; [None] is its error. *)
Class OpenSsl := {
  aes_cts_enc : bytes -> bytes -> bytes -> option bytes;
  aes_cts_dec : bytes -> bytes -> bytes -> option bytes;
  aes_cbc_enc : bytes -> bytes -> bytes -> option bytes;
  mac : MacAlg -> bytes -> bytes -> option bytes;
  pbkdf2_derive : DigestAlg -> bytes -> bytes -> Z -> Z -> option bytes;
}.

Definition zero_iv : bytes := replicate 16 0.

Section kerberos.
  Context `{!OpenSsl}.

(** [match key.len()] of the cipher helpers. *)
Definition cipher_size (key : bytes) : result Error AesSize :=
  if zlen key =? 16 then Ok Aes128 else if zlen key =? 32 then Ok Aes256 else Err BufferSize.

Definition aes_cbc_encrypt_block (key block : bytes) : result Error bytes :=
  _ ← cipher_size key;
  ok_or Ossl (aes_cbc_enc key (replicate 16 0) block).

(** The [while out.len() < key_len] loop of [dr]; each round adds a block. *)
Fixpoint dr_loop (fuel : nat) (key block out : bytes) (key_len : Z) : result Error bytes :=
  match fuel with
  | O => Ok out
  | S fuel' =>
      if zlen out <? key_len then
        block ← aes_cbc_encrypt_block key block;
        dr_loop fuel' key block (out ++ block) key_len
      else Ok out
  end.

Definition dr (key constant : bytes) (key_len : Z) : result Error bytes :=
  let folded := n_fold constant 16 in
  block ← aes_cbc_encrypt_block key folded;
  out ← dr_loop (Z.to_nat key_len) key block block key_len;
  Ok (ztake key_len out).

Definition dk := dr.

Definition kdf_hmac_sha2 (key label : bytes) (k_bits : Z) (d : DigestAlg) : result Error bytes :=
  alg ← match d with
        | Sha2_256 => Ok HmacSha2_256
        | Sha2_384 => Ok HmacSha2_384
        | _ => Err BufferSize
        end;
  let input := be_bytes 4 1 ++ label ++ [0] ++ be_bytes 4 k_bits in
  out ← ok_or Ossl (mac alg key input);
  Ok (ztake ((k_bits + 7) / 8) out).

Definition pbkdf2 (passphrase saltp : bytes) (iterations key_len : Z) (d : DigestAlg) : result Error bytes :=
  ok_or Ossl (pbkdf2_derive d passphrase saltp iterations key_len).

Definition string_to_key (e : Enctype) (passphrase salt : bytes) (iterations : option Z) : result Error bytes :=
  let iterations := default (default_iterations e) iterations in
  let key_len := key_len e in
  if is_rfc8009 e then
    let saltp := rfc8009_name e ++ [0] ++ salt in
    tkey ← pbkdf2 passphrase saltp iterations key_len (digest e);
    kdf_hmac_sha2 tkey (str "kerberos") (as_u32 (key_len * 8)) (digest e)
  else
    tkey ← pbkdf2 passphrase salt iterations key_len (digest e);
    dk tkey (str "kerberos") key_len.

Record DerivedKeys := { ke : bytes; ki : bytes }.

(** The RFC 8009 key sizes in bits; reached for those two enctypes only. *)
Definition ke_ki_bits (e : Enctype) : Z * Z :=
  match e with Aes256CtsHmacSha384_192 => (256, 192) | _ => (128, 128) end.
Definition kc_bits (e : Enctype) : Z :=
  match e with Aes256CtsHmacSha384_192 => 192 | _ => 128 end.

Definition derive_ke_ki (e : Enctype) (base_key : bytes) (key_usage : Z) : result Error DerivedKeys :=
  let usage := be_bytes 4 key_usage in
  if is_rfc8009 e then
    let '(ke_bits, ki_bits) := ke_ki_bits e in
    ke ← kdf_hmac_sha2 base_key (usage ++ [170]) ke_bits (digest e);
    ki ← kdf_hmac_sha2 base_key (usage ++ [85]) ki_bits (digest e);
    Ok {| ke := ke; ki := ki |}
  else
    ke ← dk base_key (usage ++ [170]) (key_len e);
    ki ← dk base_key (usage ++ [85]) (key_len e);
    Ok {| ke := ke; ki := ki |}.

Definition derive_kc (e : Enctype) (base_key : bytes) (key_usage : Z) : result Error bytes :=
  let label := be_bytes 4 key_usage ++ [153] in
  if is_rfc8009 e then kdf_hmac_sha2 base_key label (kc_bits e) (digest e)
  else dk base_key label (key_len e).

Definition aes_cts_encrypt (key iv plaintext : bytes) : result Error (bytes * bytes) :=
  _ ← cipher_size key;
  out ← ok_or Ossl (aes_cts_enc key iv plaintext);
  Ok (out, zdrop (zlen out - 16) out).

Definition aes_cts_decrypt (key iv ciphertext : bytes) : result Error bytes :=
  _ ← cipher_size key;
  ok_or Ossl (aes_cts_dec key iv ciphertext).

Definition hmac_full (alg : MacAlg) (key data : bytes) : result Error bytes :=
  ok_or Ossl (mac alg key data).

(** The [confounder] is what the DRBG generates, [None] if it fails. *)
Definition encrypt (confounder : option bytes) (e : Enctype) (base_key : bytes) (key_usage : Z)
    (plaintext : bytes) : result Error bytes :=
  keys ← derive_ke_ki e base_key key_usage;
  confounder ← ok_or Ossl confounder;
  let conf_pt := confounder ++ plaintext in
  if is_rfc8009 e then
    '(c, _) ← aes_cts_encrypt (ke keys) zero_iv conf_pt;
    h ← hmac_full (mac_alg e) (ki keys) (zero_iv ++ c);
    Ok (c ++ ztake (hmac_len e) h)
  else
    '(c, _) ← aes_cts_encrypt (ke keys) zero_iv conf_pt;
    h ← hmac_full (mac_alg e) (ki keys) conf_pt;
    Ok (c ++ ztake (hmac_len e) h).

Definition decrypt (e : Enctype) (base_key : bytes) (key_usage : Z) (ciphertext : bytes) : result Error bytes :=
  let hlen := hmac_len e in
  if zlen ciphertext <? hlen + 16 then Err BufferSize
  else
    let c := ztake (zlen ciphertext - hlen) ciphertext in
    let h := zdrop (zlen ciphertext - hlen) ciphertext in
    keys ← derive_ke_ki e base_key key_usage;
    if is_rfc8009 e then
      expected ← hmac_full (mac_alg e) (ki keys) (zero_iv ++ c);
      if negb (constant_time_eq (ztake hlen expected) h) then Err IntegrityCheckFailed
      else
        conf_pt ← aes_cts_decrypt (ke keys) zero_iv c;
        Ok (zdrop 16 conf_pt)
    else
      conf_pt ← aes_cts_decrypt (ke keys) zero_iv c;
      expected ← hmac_full (mac_alg e) (ki keys) conf_pt;
      if negb (constant_time_eq (ztake hlen expected) h) then Err IntegrityCheckFailed
      else Ok (zdrop 16 conf_pt).

Definition checksum (e : Enctype) (base_key : bytes) (key_usage : Z) (message : bytes) : result Error bytes :=
  kc ← derive_kc e base_key key_usage;
  h ← hmac_full (mac_alg e) kc message;
  Ok (ztake (hmac_len e) h).
End kerberos.

(** ** What OpenSSL documents of these operations *)

Definition mac_size (alg : MacAlg) : Z :=
  match alg with HmacSha1 => 20 | HmacSha2_256 => 32 | HmacSha2_384 => 48 end.

Definition aes_key (key : bytes) : Prop := zlen key = 16 \/ zlen key = 32.

Class OpenSslLaws `{!OpenSsl} := {
  (** AES-CTS needs one block, keeps the length, and is inverted by its
      decryption. *)
  cts_roundtrip key iv pt : aes_key key -> zlen iv = 16 -> 16 <= zlen pt ->
    exists c, aes_cts_enc key iv pt = Some c /\ zlen c = zlen pt /\ aes_cts_dec key iv c = Some pt;
  cbc_block key iv b : aes_key key -> zlen iv = 16 -> zlen b = 16 ->
    exists c, aes_cbc_enc key iv b = Some c /\ zlen c = 16;
  mac_total alg key data :
    exists t, mac alg key data = Some t /\ zlen t = mac_size alg /\ bytes_ok t;
  (** The FIPS provider's floors on password, salt and iterations. *)
  pbkdf2_total d pass salt iters n : 8 <= zlen pass -> 16 <= zlen salt -> 1000 <= iters -> 0 < n ->
    exists k, pbkdf2_derive d pass salt iters n = Some k /\ zlen k = n;
  (** Bytes in, bytes out. *)
  cts_enc_bytes key iv pt c : bytes_ok key -> bytes_ok pt -> aes_cts_enc key iv pt = Some c -> bytes_ok c;
  cts_dec_bytes key iv ct p : bytes_ok key -> bytes_ok ct -> aes_cts_dec key iv ct = Some p -> bytes_ok p;
  cbc_bytes key iv b c : bytes_ok key -> bytes_ok b -> aes_cbc_enc key iv b = Some c -> bytes_ok c;
  pbkdf2_bytes d pass salt iters n k : pbkdf2_derive d pass salt iters n = Some k -> bytes_ok k;
}.

Lemma xor_acc_refl l : xor_acc 0 l l = 0.
Proof. induction l as [|x l IH]; [done|]. cbn [xor_acc]. by rewrite Z.lxor_nilpotent. Qed.

Lemma constant_time_eq_refl l : constant_time_eq l l = true.
Proof. unfold constant_time_eq. by rewrite Z.eqb_refl, xor_acc_refl. Qed.

Lemma constant_time_eq_spec a b : bytes_ok a -> bytes_ok b -> constant_time_eq a b = true <-> a = b.
Proof.
  intros Ha Hb. split; [|intros ->; apply constant_time_eq_refl]. unfold constant_time_eq, zlen.
  destruct (Z.eqb_spec (Z.of_nat (length a)) (Z.of_nat (length b))) as [Hl|]; [|done]. cbn [negb].
  intros H%Z.eqb_eq. apply (xor_acc_zero 0 a b) in H as [_ ?]; [done|lia|done|done|lia].
Qed.

Section laws.
  Context `{!OpenSsl, !OpenSslLaws}.

Lemma cipher_size_ok key : aes_key key -> exists s, cipher_size key = Ok s.
Proof. unfold cipher_size. intros [-> | ->]; by eexists. Qed.

Lemma encrypt_block_ok key b :
  aes_key key -> zlen b = 16 -> exists c, aes_cbc_encrypt_block key b = Ok c /\ zlen c = 16.
Proof.
  intros Hk Hb. unfold aes_cbc_encrypt_block. destruct (cipher_size_ok key Hk) as [s ->]. cbn [mbind result_bind].
  destruct (cbc_block key (replicate 16 0) b Hk eq_refl Hb) as (c & -> & Hc). by exists c.
Qed.

Lemma dr_loop_ok fuel key block out n :
  aes_key key -> zlen block = 16 -> 16 <= zlen out -> n <= zlen out + Z.of_nat fuel ->
  exists o, dr_loop fuel key block out n = Ok o /\ n <= zlen o.
Proof.
  intros Hk. revert block out. induction fuel as [|fuel IH]; intros block out Hb Ho Hn; cbn [dr_loop];
    [exists out; split; [done|lia]|].
  destruct (Z.ltb_spec (zlen out) n) as [Hlt|]; [|by exists out].
  destruct (encrypt_block_ok key block Hk Hb) as (c & -> & Hc). cbn [mbind result_bind].
  apply IH; [done|rewrite zlen_app; lia..].
Qed.

Lemma dk_ok key constant n :
  aes_key key -> bytes_ok constant -> constant <> [] -> 0 <= n ->
  exists o, dk key constant n = Ok o /\ zlen o = n.
Proof.
  intros Hk Hc Hne Hn. unfold dk, dr.
  assert (zlen (n_fold constant 16) = 16) as Hf.
  { unfold zlen. rewrite (n_fold_length constant 16) by (done || lia). done. }
  destruct (encrypt_block_ok key _ Hk Hf) as (b & -> & Hb). cbn [mbind result_bind].
  destruct (dr_loop_ok (Z.to_nat n) key b b n Hk Hb) as (o & -> & Ho); [lia|lia|].
  cbn [mbind result_bind]. eexists. split; [done|]. apply zlen_ztake. lia.
Qed.

Lemma kdf_ok key label k_bits d :
  d <> Sha1 -> 0 <= k_bits <= 256 ->
  exists o, kdf_hmac_sha2 key label k_bits d = Ok o /\ zlen o = (k_bits + 7) / 8.
Proof.
  intros Hd Hk. unfold kdf_hmac_sha2.
  assert ((k_bits + 7) / 8 <= 32 /\ 0 <= (k_bits + 7) / 8) as [] by zlia.
  destruct d; [done| |]; cbn [mbind result_bind].
  - destruct (mac_total HmacSha2_256 key (be_bytes 4 1 ++ label ++ [0] ++ be_bytes 4 k_bits)) as (t & -> & Ht & _).
    cbn [ok_or mbind result_bind]. eexists. split; [done|]. apply zlen_ztake. rewrite Ht. cbn. lia.
  - destruct (mac_total HmacSha2_384 key (be_bytes 4 1 ++ label ++ [0] ++ be_bytes 4 k_bits)) as (t & -> & Ht & _).
    cbn [ok_or mbind result_bind]. eexists. split; [done|]. apply zlen_ztake. rewrite Ht. cbn. lia.
Qed.

Lemma usage_ok u b : is_byte b -> bytes_ok (be_bytes 4 u ++ [b]) /\ be_bytes 4 u ++ [b] <> [].
Proof.
  intros Hb. split; [apply bytes_ok_app; split; [apply be_bytes_ok|by constructor]|].
  intros Hn. by apply app_nil in Hn as [_ ?].
Qed.

Lemma key_len_aes e k : zlen k = key_len e -> aes_key k.
Proof. intros Hk. destruct e; [left|right|left|right]; exact Hk. Qed.

Lemma derive_ke_ki_ok e key u :
  zlen key = key_len e -> exists k, derive_ke_ki e key u = Ok k /\ aes_key (ke k).
Proof.
  intros Hk. unfold derive_ke_ki. destruct (is_rfc8009 e) eqn:E.
  - assert (exists b b', ke_ki_bits e = (b, b') /\ (b = 128 \/ b = 256) /\ 0 <= b' <= 256 /\ digest e <> Sha1)
      as (b & b' & -> & Hb & Hb' & Hd) by (destruct e; try done; eexists _, _; repeat split; (by left) || (by right) || done || lia).
    destruct (kdf_ok key (be_bytes 4 u ++ [170]) b (digest e) Hd ltac:(lia)) as (k & -> & Hk1).
    cbn [mbind result_bind].
    destruct (kdf_ok key (be_bytes 4 u ++ [85]) b' (digest e) Hd Hb') as (k' & -> & _).
    cbn [mbind result_bind]. eexists. split; [done|]. cbn [ke].
    destruct Hb as [-> | ->]; [left|right]; rewrite Hk1; done.
  - pose proof (key_len_aes e key Hk) as Ha.
    assert (0 <= key_len e) as Hkl by (by destruct e).
    destruct (usage_ok u 170) as [H1 H2]; [unfold is_byte; lia|].
    destruct (dk_ok key _ (key_len e) Ha H1 H2) as (k & -> & Hl); [done|]. cbn [mbind result_bind].
    destruct (usage_ok u 85) as [H3 H4]; [unfold is_byte; lia|].
    destruct (dk_ok key _ (key_len e) Ha H3 H4) as (k' & -> & _); [done|]. cbn [mbind result_bind].
    eexists. split; [done|]. by apply (key_len_aes e).
Qed.

Lemma derive_kc_ok e key u : zlen key = key_len e -> exists k, derive_kc e key u = Ok k.
Proof.
  intros Hk. unfold derive_kc. destruct (is_rfc8009 e) eqn:E.
  - destruct (kdf_ok key (be_bytes 4 u ++ [153]) (kc_bits e) (digest e)) as (k & Hk' & _);
      [by destruct e|destruct e; cbn; lia|by exists k].
  - destruct (usage_ok u 153) as [H1 H2]; [unfold is_byte; lia|].
    destruct (dk_ok key _ (key_len e) (key_len_aes e key Hk) H1 H2) as (k & Hk' & _);
      [by destruct e|by exists k].
Qed.

Lemma hmac_ok e key data :
  exists h, hmac_full (mac_alg e) key data = Ok h /\ zlen (ztake (hmac_len e) h) = hmac_len e /\
    bytes_ok (ztake (hmac_len e) h).
Proof.
  unfold hmac_full. destruct (mac_total (mac_alg e) key data) as (t & -> & Ht & Hok).
  exists t. split; [done|]. split; [apply zlen_ztake; rewrite Ht; destruct e; cbn; lia|by apply bytes_ok_ztake].
Qed.

Lemma checksum_ok e key u m :
  zlen key = key_len e -> exists c, checksum e key u m = Ok c /\ zlen c = hmac_len e /\ bytes_ok c.
Proof.
  intros Hk. unfold checksum. destruct (derive_kc_ok e key u Hk) as [k ->]. cbn [mbind result_bind].
  destruct (hmac_ok e k m) as (h & -> & Hl & Hb). cbn [mbind result_bind]. by eexists.
Qed.

Lemma checksum_len e key u m c : checksum e key u m = Ok c -> zlen c = hmac_len e /\ bytes_ok c.
Proof.
  unfold checksum. intros (k & _ & (h & Hh & [= <-])%bind_ok)%bind_ok.
  destruct (hmac_ok e k m) as (h' & Hh' & ? & ?). rewrite Hh in Hh'. by injection Hh' as <-.
Qed.

Lemma decrypt_split e (c h : bytes) :
  zlen h = hmac_len e -> 16 <= zlen c ->
  (zlen (c ++ h) <? hmac_len e + 16) = false /\
  ztake (zlen (c ++ h) - hmac_len e) (c ++ h) = c /\ zdrop (zlen (c ++ h) - hmac_len e) (c ++ h) = h.
Proof.
  intros Hh Hc. rewrite zlen_app. split; [apply Z.ltb_ge; lia|].
  split; [apply ztake_app_exact|apply zdrop_app_exact]; lia.
Qed.

Lemma encrypt_decrypt e key u conf pt :
  zlen key = key_len e -> zlen conf = 16 ->
  exists c, encrypt (Some conf) e key u pt = Ok c /\ decrypt e key u c = Ok pt /\
    zlen c = 16 + zlen pt + hmac_len e.
Proof.
  intros Hk Hconf. destruct (derive_ke_ki_ok e key u Hk) as (keys & Hkeys & Hke).
  pose proof (zlen_nonneg pt).
  destruct (cts_roundtrip (ke keys) zero_iv (conf ++ pt) Hke eq_refl) as (c & Henc & Hlc & Hdec);
    [rewrite zlen_app; lia|]. rewrite zlen_app in Hlc.
  destruct (cipher_size_ok (ke keys) Hke) as [sz Hsz].
  set (signed := if is_rfc8009 e then zero_iv ++ c else conf ++ pt).
  destruct (hmac_ok e (ki keys) signed) as (h & Hh & Hlh & _).
  exists (c ++ ztake (hmac_len e) h).
  destruct (decrypt_split e c (ztake (hmac_len e) h) Hlh) as (Hlt & Hc & Htag); [lia|].
  unfold encrypt, decrypt, aes_cts_encrypt, aes_cts_decrypt.
  rewrite Hlt, Hc, Htag, Hkeys. cbn [ok_or mbind result_bind].
  rewrite Hsz, Henc, Hdec. cbn [ok_or mbind result_bind]. unfold signed in Hh.
  rewrite zlen_app, Hlc, Hlh.
  destruct (is_rfc8009 e); rewrite Hh; cbn [mbind result_bind]; rewrite constant_time_eq_refl; cbn [negb];
    (rewrite (zdrop_app_exact 16) by done); repeat split; lia.
Qed.

(** C36: For every enctype, a key of its length and any 16-byte confounder,
    encryption succeeds, decryption under the same key and usage gives the
    plaintext back, and the ciphertext has the confounder's and the
    checksum's length on top of the plaintext's. *)
Theorem kerberos_encrypt_decrypt e key u conf pt :
  zlen key = key_len e -> zlen conf = 16 ->
  exists c, encrypt (Some conf) e key u pt = Ok c /\ decrypt e key u c = Ok pt /\
    zlen c = 16 + zlen pt + hmac_len e.
Proof. apply encrypt_decrypt. Qed.

(** A ciphertext is only accepted with the right tag: what [decrypt]
    returns is the tail of the CTS decryption of a body whose truncated HMAC,
    under the integrity key of this usage, is the tag at the ciphertext's
    end (over the ciphertext for RFC 8009, over the plaintext for RFC 3962). *)
Theorem kerberos_decrypt_authentic e key u ct pt :
  bytes_ok ct -> decrypt e key u ct = Ok pt ->
  exists keys body tag conf_pt h,
    derive_ke_ki e key u = Ok keys /\ ct = body ++ tag /\ zlen tag = hmac_len e /\
    aes_cts_decrypt (ke keys) zero_iv body = Ok conf_pt /\ pt = zdrop 16 conf_pt /\
    hmac_full (mac_alg e) (ki keys) (if is_rfc8009 e then zero_iv ++ body else conf_pt) = Ok h /\
    tag = ztake (hmac_len e) h.
Proof.
  intros Hct. unfold decrypt. destruct (Z.ltb_spec (zlen ct) (hmac_len e + 16)) as [|Hlen]; [done|].
  set (body := ztake _ ct). set (tag := zdrop _ ct). intros Hd.
  assert (ct = body ++ tag) as Hsplit by (symmetry; apply ztake_zdrop).
  assert (zlen tag = hmac_len e) as Htag
    by (unfold tag; rewrite zlen_zdrop; [lia|destruct e; cbn in *; lia]).
  assert (bytes_ok tag) as Hok by (by apply bytes_ok_zdrop).
  destruct (derive_ke_ki e key u) as [keys|] eqn:Hkeys; [|done]. cbn [mbind result_bind] in Hd.
  exists keys, body, tag. clearbody body tag.
  destruct (is_rfc8009 e).
  - destruct (hmac_ok e (ki keys) (zero_iv ++ body)) as (h & Hh & _ & Hhok).
    rewrite Hh in Hd |- *. cbn [mbind result_bind] in Hd. destruct (constant_time_eq _ _) eqn:Hc; [|done].
    cbn [negb] in Hd. destruct (aes_cts_decrypt _ _ _) as [cp|] eqn:Hcp; [|done]. cbn [mbind result_bind] in Hd.
    injection Hd as <-. apply constant_time_eq_spec in Hc; [|done..]. by exists cp, h.
  - destruct (aes_cts_decrypt _ _ _) as [cp|] eqn:Hcp; [|done]. cbn [mbind result_bind] in Hd.
    destruct (hmac_ok e (ki keys) cp) as (h & Hh & _ & Hhok). rewrite Hh in Hd.
    cbn [mbind result_bind] in Hd. destruct (constant_time_eq _ _) eqn:Hc; [|done].
    injection Hd as <-. apply constant_time_eq_spec in Hc; [|done..]. by exists cp, h.
Qed.

Lemma encrypt_block_bytes key b c :
  bytes_ok key -> bytes_ok b -> aes_cbc_encrypt_block key b = Ok c -> bytes_ok c.
Proof.
  intros Hk Hb. unfold aes_cbc_encrypt_block. intros (x & _ & Hc)%bind_ok.
  destruct (aes_cbc_enc key (replicate 16 0) b) as [y|] eqn:E; [|done]. injection Hc as ->. eapply cbc_bytes; [exact Hk|exact Hb|exact E].
Qed.

Lemma dr_loop_bytes fuel key block out n o :
  bytes_ok key -> bytes_ok block -> bytes_ok out -> dr_loop fuel key block out n = Ok o -> bytes_ok o.
Proof.
  intros Hk. revert block out. induction fuel as [|fuel IH]; intros block out Hb Ho; cbn [dr_loop]; [intros Ho'; by injection Ho' as <-|].
  destruct (zlen out <? n); [|intros Ho'; by injection Ho' as <-]. intros (b & Hx & Hl)%bind_ok.
  pose proof (encrypt_block_bytes _ _ _ Hk Hb Hx) as Hb'. apply (IH b (out ++ b)); [done|apply bytes_ok_app; by split|done].
Qed.

Lemma dk_bytes key constant n o :
  bytes_ok key -> bytes_ok constant -> constant <> [] -> dk key constant n = Ok o -> bytes_ok o.
Proof.
  intros Hk Hc Hne. unfold dk, dr. intros (b & Hx & (l & Hl & [= <-])%bind_ok)%bind_ok.
  assert (bytes_ok (n_fold constant 16)) as Hf by (apply (n_fold_shape constant 16 Hc Hne); lia).
  pose proof (encrypt_block_bytes _ _ _ Hk Hf Hx) as Hb. apply bytes_ok_ztake. eapply dr_loop_bytes; [exact Hk|exact Hb|exact Hb|exact Hl].
Qed.

Lemma kdf_bytes key label k_bits d o : kdf_hmac_sha2 key label k_bits d = Ok o -> bytes_ok o.
Proof.
  unfold kdf_hmac_sha2. intros (alg & _ & Hr)%bind_ok. cbn zeta in Hr. apply bind_ok in Hr as (t & Ht & [= <-]).
  destruct (mac_total alg key (be_bytes 4 1 ++ label ++ [0] ++ be_bytes 4 k_bits)) as (t' & Hm & _ & Hb).
  rewrite Hm in Ht. injection Ht as <-. by apply bytes_ok_ztake.
Qed.

Lemma string_to_key_bytes e pass salt it k : string_to_key e pass salt it = Ok k -> bytes_ok k.
Proof.
  assert (bytes_ok (str "kerberos") /\ str "kerberos" <> []) as [Hb Hne] by (split; [by_decide|done]).
  unfold string_to_key, pbkdf2. destruct (is_rfc8009 e); intros (t & Ht & Hk)%bind_ok; [by eapply kdf_bytes|].
  destruct (pbkdf2_derive _ _ _ _ _) as [t'|] eqn:Hd; [|done]. injection Ht as <-.
  eapply dk_bytes; [by eapply pbkdf2_bytes|done..].
Qed.

(** The derived key and its shape. *)
Lemma string_to_key_ok e pass salt :
  8 <= zlen pass -> 16 <= zlen salt ->
  exists k, string_to_key e pass salt None = Ok k /\ zlen k = key_len e /\ bytes_ok k.
Proof.
  intros Hp Hs.
  assert (bytes_ok (str "kerberos") /\ str "kerberos" <> []) as [Hb Hne] by (split; [by_decide|done]).
  unfold string_to_key, pbkdf2. cbn [default from_option id]. destruct (is_rfc8009 e) eqn:E.
  - destruct (pbkdf2_total (digest e) pass (rfc8009_name e ++ [0] ++ salt) (default_iterations e) (key_len e))
      as (t & -> & Ht); [done|rewrite !zlen_app; pose proof (zlen_nonneg (rfc8009_name e)); change (zlen [0]) with 1; lia
      |by destruct e|by destruct e|]. cbn [ok_or mbind result_bind].
    destruct (kdf_ok t (str "kerberos") (as_u32 (key_len e * 8)) (digest e)) as (k & Hk & Hkl);
      [by destruct e|by destruct e|]. exists k. split; [done|]. split; [rewrite Hkl; by destruct e|by eapply kdf_bytes].
  - destruct (pbkdf2_total (digest e) pass salt (default_iterations e) (key_len e)) as (t & Hd & Ht);
      [done|done|by destruct e|by destruct e|]. pose proof (pbkdf2_bytes _ _ _ _ _ _ Hd) as Htb.
    rewrite Hd. cbn [ok_or mbind result_bind].
    destruct (dk_ok t (str "kerberos") (key_len e)) as (k & Hk & Hkl); [by apply (key_len_aes e)|done|done|by destruct e|].
    exists k. split; [done|]. split; [done|]. eapply dk_bytes; [exact Htb|exact Hb|exact Hne|exact Hk].
Qed.

(** With a password and salt above the FIPS provider's floors, the
    default iteration counts derive a key of the enctype's length for every
    enctype, and every enctype survives its wire number. *)
Theorem string_to_key_total e pass salt :
  8 <= zlen pass -> 16 <= zlen salt ->
  (exists k, string_to_key e pass salt None = Ok k /\ zlen k = key_len e) /\
  try_from (etype_number e) = Some e.
Proof.
  intros Hp Hs. split; [|by destruct e]. destruct (string_to_key_ok e pass salt Hp Hs) as (k & Hk & Hl & _). eauto.
Qed.
End laws.

(** ** A concrete provider *)

(** A stand-in that meets the laws: a cipher that masks every byte with the
    key's first byte, and a tag of one repeated checksum byte. *)
Definition mask_bytes (k : Z) (l : bytes) : bytes := map (Z.lxor k) l.
Definition key_byte (key : bytes) : Z := default 0 (head key).

#[local] Instance demo_ssl : OpenSsl := {|
  aes_cts_enc key _ pt := Some (mask_bytes (key_byte key) pt);
  aes_cts_dec key _ ct := Some (mask_bytes (key_byte key) ct);
  aes_cbc_enc key _ b := Some (mask_bytes (key_byte key) b);
  mac alg key data := Some (replicate (Z.to_nat (mac_size alg)) (foldl Z.add 0 (key ++ data) mod 256));
  pbkdf2_derive _ pass salt _ n := Some (replicate (Z.to_nat n) (foldl Z.add 0 (pass ++ salt) mod 256));
|}.

Lemma zlen_mask k l : zlen (mask_bytes k l) = zlen l.
Proof. unfold zlen, mask_bytes. by rewrite length_map. Qed.

Lemma mask_involutive k l : mask_bytes k (mask_bytes k l) = l.
Proof.
  unfold mask_bytes. rewrite map_map. rewrite <- (map_id l) at 2. apply map_ext. intros x.
  by rewrite <- Z.lxor_assoc, Z.lxor_nilpotent, Z.lxor_0_l.
Qed.

Lemma lxor_byte a b : is_byte a -> is_byte b -> is_byte (Z.lxor a b).
Proof.
  unfold is_byte. intros Ha Hb. split; [apply Z.lxor_nonneg; lia|].
  destruct (Z.eq_dec (Z.lxor a b) 0) as [->|Hne]; [lia|]. apply (Z.log2_lt_pow2 _ 8).
  { assert (0 <= Z.lxor a b) by (apply Z.lxor_nonneg; lia). lia. }
  pose proof (Z.log2_lxor a b ltac:(lia) ltac:(lia)).
  assert (forall x, 0 <= x < 256 -> Z.log2 x < 8) as Hlog.
  { intros x Hx. destruct (Z.eq_dec x 0) as [->|]; [done|]. apply (Z.log2_lt_pow2 x 8); lia. }
  pose proof (Hlog a Ha). pose proof (Hlog b Hb). lia.
Qed.

Lemma key_byte_ok key : bytes_ok key -> is_byte (key_byte key).
Proof. destruct key; [by intros _|]. by intros [? _]%Forall_cons. Qed.

Lemma mask_ok key l : bytes_ok key -> bytes_ok l -> bytes_ok (mask_bytes (key_byte key) l).
Proof.
  intros Hk Hl. unfold mask_bytes, bytes_ok. apply Forall_map. eapply Forall_impl; [exact Hl|]. intros x Hx.
  apply lxor_byte; [by apply key_byte_ok|done].
Qed.

#[local] Instance demo_ssl_laws : OpenSslLaws.
Proof.
  assert (forall n x, bytes_ok (replicate n (x mod 256))) as Hrep.
  { intros n x. apply Forall_replicate. unfold is_byte. zlia. }
  split.
  - intros key iv pt _ _ _. eexists. split; [done|]. split; [apply zlen_mask|]. cbn. by rewrite mask_involutive.
  - intros key iv b _ _ Hb. eexists. split; [done|]. by rewrite zlen_mask.
  - intros alg key data. eexists. split; [done|]. split; [|apply Hrep].
    unfold zlen. rewrite length_replicate. by destruct alg.
  - intros d pass salt it n _ _ _ Hn. eexists. split; [done|]. unfold zlen. rewrite length_replicate. lia.
  - intros key iv pt c Hk Hp [= <-]. by apply mask_ok.
  - intros key iv ct p Hk Hp [= <-]. by apply mask_ok.
  - intros key iv b c Hk Hp [= <-]. by apply mask_ok.
  - intros d pass salt it n k [= <-]. apply Hrep.
Qed.

Lemma kerberos_encrypt_decrypt_witness :
  exists c, encrypt (Some (replicate 16 9)) Aes256CtsHmacSha384_192 (replicate 32 7) 3 [1; 2; 3] = Ok c /\
    decrypt Aes256CtsHmacSha384_192 (replicate 32 7) 3 c = Ok [1; 2; 3] /\ zlen c = 43.
Proof.
  apply (kerberos_encrypt_decrypt Aes256CtsHmacSha384_192 (replicate 32 7) 3 (replicate 16 9) [1; 2; 3]);
    reflexivity.
Defined.

Definition demo_ciphertext : bytes :=
  match encrypt (Some (replicate 16 9)) Aes128CtsHmacSha1_96 (replicate 16 0) 3 [1; 2; 3] with
  | Ok c => c
  | Err _ => []
  end.

Lemma kerberos_decrypt_authentic_witness :
  exists keys body tag conf_pt h,
    derive_ke_ki Aes128CtsHmacSha1_96 (replicate 16 0) 3 = Ok keys /\ demo_ciphertext = body ++ tag /\
    zlen tag = 12 /\ aes_cts_decrypt (ke keys) zero_iv body = Ok conf_pt /\ [1; 2; 3] = zdrop 16 conf_pt /\
    hmac_full HmacSha1 (ki keys) conf_pt = Ok h /\ tag = ztake 12 h.
Proof.
  apply (kerberos_decrypt_authentic Aes128CtsHmacSha1_96 (replicate 16 0) 3 demo_ciphertext [1; 2; 3]).
  - apply (bool_decide_unpack (Forall is_byte demo_ciphertext)). by vm_compute.
  - by vm_compute.
Defined.

Lemma string_to_key_total_witness :
  (exists k, string_to_key Aes128CtsHmacSha1_96 (str "password") (str "ATHENA.MIT.EDUraeburn") None = Ok k /\
    zlen k = 16) /\ try_from 17 = Some Aes128CtsHmacSha1_96.
Proof.
  apply (string_to_key_total Aes128CtsHmacSha1_96 (str "password") (str "ATHENA.MIT.EDUraeburn")); by vm_compute.
Defined.
