(* ===== verification/Wrap.v ===== *)
(** GSS-API Wrap tokens, [crates/ldap/src/gssapi/wrap.rs]: the per-message
    protection of the SASL security layer, sealed or integrity-only. *)

From S2P Require Import Prelude Bytes Str Token Nfold Kerberos.

Inductive WrapError :=
| WTruncated
| WWrongTokId
| WBadChecksum
| WHeaderMismatch
| WCrypto (e : Kerberos.Error).

Definition SENT_BY_ACCEPTOR : Z := 1.
Definition SEALED : Z := 2.

(** The 16-octet header, from its flags, EC, RRC and SND_SEQ fields. *)
Definition header (flags : Z) (ec rrc seq : bytes) : bytes :=
  TOK_ID_WRAP ++ [flags] ++ [255] ++ ec ++ rrc ++ seq.

(** [header[a..b].copy_from_slice(&[0, 0])] on a 16-octet header. *)
Definition zero_ec (h : bytes) : bytes := ztake 4 h ++ [0; 0] ++ zdrop 6 h.
Definition zero_rrc (h : bytes) : bytes := ztake 6 h ++ [0; 0] ++ zdrop 8 h.

Definition sign_input (plaintext header : bytes) : bytes := plaintext ++ header.

Definition constant_time_eq (a b : bytes) : bool :=
  if negb (zlen a =? zlen b) then false else xor_acc 0 a b =? 0.

Section wrap.
  Context `{!OpenSsl}.

Definition wrap (confounder : option bytes) (e : Enctype) (session_key : bytes) (key_usage : Z)
    (sealed : bool) (seq : Z) (plaintext : bytes) : result WrapError bytes :=
  let header0 := header (Z.lor SENT_BY_ACCEPTOR (if sealed then SEALED else 0)) [0; 0] [0; 0] (be_bytes 8 seq) in
  if sealed then
    body ← map_err WCrypto (encrypt confounder e session_key key_usage (sign_input plaintext header0));
    Ok (header0 ++ body)
  else
    let checksum_len := hmac_len e in
    let header1 := header (Z.lor SENT_BY_ACCEPTOR 0) (be_bytes 2 (as_u16 checksum_len)) [0; 0] (be_bytes 8 seq) in
    mic ← map_err WCrypto (checksum e session_key key_usage (sign_input plaintext (zero_ec header1)));
    Ok (header1 ++ plaintext ++ mic).

(** Undoes the right rotation of the octets after the header. *)
Definition unrotate (rrc : Z) (rest : bytes) : bytes :=
  let n := zlen rest in
  let rrc := if n =? 0 then 0 else rrc mod n in
  zdrop rrc rest ++ ztake rrc rest.

Definition unwrap (e : Enctype) (session_key : bytes) (key_usage : Z) (token : bytes) : result WrapError bytes :=
  if zlen token <? 16 then Err WTruncated
  else if negb (bool_decide (ztake 2 token = TOK_ID_WRAP)) then Err WWrongTokId
  else
    let sealed := negb (Z.land (byte_at token 2) SEALED =? 0) in
    let rrc := be_val [byte_at token 6; byte_at token 7] in
    let unrotated := unrotate rrc (zdrop 16 token) in
    let outer := ztake 16 token in
    if sealed then
      decrypted ← map_err WCrypto (decrypt e session_key key_usage unrotated);
      if zlen decrypted <? 16 then Err WTruncated
      else
        let plaintext := ztake (zlen decrypted - 16) decrypted in
        let header_copy := zdrop (zlen decrypted - 16) decrypted in
        if negb (bool_decide (header_copy = zero_rrc outer)) then Err WHeaderMismatch
        else Ok plaintext
    else
      let checksum_len := hmac_len e in
      if zlen unrotated <? checksum_len then Err WTruncated
      else
        let plaintext := ztake (zlen unrotated - checksum_len) unrotated in
        let mic := zdrop (zlen unrotated - checksum_len) unrotated in
        let header_for_checksum := zero_rrc (zero_ec outer) in
        expected_mic ← map_err WCrypto (checksum e session_key key_usage (sign_input plaintext header_for_checksum));
        if negb (constant_time_eq expected_mic mic) then Err WBadChecksum
        else Ok plaintext.
End wrap.

(** What a sender that rotates does to a token: the octets after the header
    turned right by [rrc], and the RRC field set. *)
Definition rotate_token (rrc : Z) (token : bytes) : bytes :=
  let rest := zdrop 16 token in
  let k := rrc mod zlen rest in
  ztake 6 token ++ be_bytes 2 rrc ++ zdrop 8 (ztake 16 token)
  ++ zdrop (zlen rest - k) rest ++ ztake (zlen rest - k) rest.

(** ** Tokens as header and body *)

Section tokens.
  Context (f : Z) (ec rrc sq body : bytes).
  Hypothesis Hec : zlen ec = 2.
  Hypothesis Hrrc : zlen rrc = 2.
  Hypothesis Hseq : zlen sq = 8.

Lemma zlen_header : zlen (header f ec rrc sq) = 16.
Proof. unfold header. rewrite !zlen_app, Hec, Hrrc, Hseq. done. Qed.

Lemma header_take16 : ztake 16 (header f ec rrc sq ++ body) = header f ec rrc sq.
Proof. apply ztake_app_exact. by rewrite zlen_header. Qed.
Lemma header_drop16 : zdrop 16 (header f ec rrc sq ++ body) = body.
Proof. apply zdrop_app_exact. by rewrite zlen_header. Qed.
Lemma header_not_short : (zlen (header f ec rrc sq ++ body) <? 16) = false.
Proof. rewrite zlen_app, zlen_header. apply Z.ltb_ge. pose proof (zlen_nonneg body). lia. Qed.
Lemma header_tok_id : ztake 2 (header f ec rrc sq ++ body) = TOK_ID_WRAP.
Proof. done. Qed.
Lemma header_flags : byte_at (header f ec rrc sq ++ body) 2 = f.
Proof. done. Qed.
Lemma header_take6 : ztake 6 (header f ec rrc sq) = TOK_ID_WRAP ++ [f] ++ [255] ++ ec.
Proof.
  unfold header. pose proof (ztake_app_exact 6 (TOK_ID_WRAP ++ [f] ++ [255] ++ ec) (rrc ++ sq)) as H.
  rewrite <- !app_assoc in H. apply H. rewrite !zlen_app, Hec. done.
Qed.
Lemma header_drop6 : zdrop 6 (header f ec rrc sq) = rrc ++ sq.
Proof.
  unfold header. pose proof (zdrop_app_exact 6 (TOK_ID_WRAP ++ [f] ++ [255] ++ ec) (rrc ++ sq)) as H.
  rewrite <- !app_assoc in H. apply H. rewrite !zlen_app, Hec. done.
Qed.
Lemma header_drop8 : zdrop 8 (header f ec rrc sq) = sq.
Proof.
  unfold header. pose proof (zdrop_app_exact 8 (TOK_ID_WRAP ++ [f] ++ [255] ++ ec ++ rrc) sq) as H.
  rewrite <- !app_assoc in H. apply H. rewrite !zlen_app, Hec, Hrrc. done.
Qed.
Lemma header_rrc :
  be_val [byte_at (header f ec rrc sq ++ body) 6; byte_at (header f ec rrc sq ++ body) 7] = be_val rrc.
Proof.
  unfold zlen in *. destruct ec as [|e1 [|e2 [|]]]; try (cbn in Hec; lia).
  destruct rrc as [|r1 [|r2 [|]]]; try (cbn in Hrrc; lia). done.
Qed.
Lemma header_zero_ec : zero_ec (header f ec rrc sq) = header f [0; 0] rrc sq.
Proof. unfold zero_ec. rewrite header_drop6. done. Qed.
Lemma header_zero_rrc : zero_rrc (header f ec rrc sq) = header f ec [0; 0] sq.
Proof. unfold zero_rrc. rewrite header_take6, header_drop8. unfold header. by rewrite <- !app_assoc. Qed.
End tokens.

Lemma rotate_token_header f ec rrc sq body n :
  zlen ec = 2 -> zlen rrc = 2 -> zlen sq = 8 ->
  rotate_token n (header f ec rrc sq ++ body)
  = header f ec (be_bytes 2 n) sq ++ zdrop (zlen body - n mod zlen body) body ++ ztake (zlen body - n mod zlen body) body.
Proof.
  intros He Hr Hs. unfold rotate_token. rewrite header_drop16, header_take16 by done.
  replace (ztake 6 (header f ec rrc sq ++ body)) with (TOK_ID_WRAP ++ [f] ++ [255] ++ ec).
  - rewrite header_drop8 by done. unfold header. by rewrite <- !app_assoc.
  - symmetry. pose proof (ztake_app_exact 6 (TOK_ID_WRAP ++ [f] ++ [255] ++ ec) (rrc ++ sq ++ body)) as H.
    unfold header. rewrite <- !app_assoc in *. apply H. rewrite !zlen_app, He. done.
Qed.

Lemma unrotate_rotated n (body : bytes) :
  0 < zlen body ->
  unrotate n (zdrop (zlen body - n mod zlen body) body ++ ztake (zlen body - n mod zlen body) body) = body.
Proof.
  intros Hb. pose proof (Z.mod_pos_bound n (zlen body) Hb) as Hk. set (k := n mod zlen body) in *.
  unfold unrotate. rewrite zlen_app, zlen_zdrop, zlen_ztake by lia.
  replace (zlen body - (zlen body - k) + (zlen body - k)) with (zlen body) by lia.
  rewrite (proj2 (Z.eqb_neq _ _)) by lia. fold k.
  assert (zlen (zdrop (zlen body - k) body) = k) as Hd by (rewrite zlen_zdrop; lia).
  rewrite zdrop_app_exact, ztake_app_exact by (symmetry; done). apply ztake_zdrop.
Qed.

Lemma unrotate_0 body : unrotate 0 body = body.
Proof.
  unfold unrotate. replace (if zlen body =? 0 then 0 else 0 mod zlen body) with 0.
  - unfold zdrop, ztake. cbn. apply app_nil_r.
  - by destruct (zlen body =? 0); rewrite ?Zmod_0_l.
Qed.

Lemma constant_time_eq_same l : constant_time_eq l l = true.
Proof. apply constant_time_eq_refl. Qed.

Section roundtrip.
  Context `{!OpenSsl, !OpenSslLaws}.
  Context (e : Enctype) (key conf : bytes) (u sq : Z) (pt : bytes).
  Hypothesis Hkey : zlen key = key_len e.
  Hypothesis Hconf : zlen conf = 16.

(** A token whose rotated body unrotates to what [wrap] made. *)
Lemma unwrap_wrapped sealed :
  exists f ec body,
    zlen ec = 2 /\ 0 < zlen body /\
    wrap (Some conf) e key u sealed sq pt = Ok (header f ec [0; 0] (be_bytes 8 sq) ++ body) /\
    forall rrc r, zlen rrc = 2 -> unrotate (be_val rrc) r = body ->
      unwrap e key u (header f ec rrc (be_bytes 8 sq) ++ r) = Ok pt.
Proof.
  assert (zlen (be_bytes 8 sq) = 8) as Hs by apply zlen_be_bytes. pose proof (zlen_nonneg pt).
  destruct sealed.
  - set (h0 := header 3 [0; 0] [0; 0] (be_bytes 8 sq)).
    assert (zlen h0 = 16) as Hh0 by (by apply zlen_header).
    destruct (encrypt_decrypt e key u conf (sign_input pt h0) Hkey Hconf) as (c & Henc & Hdec & Hlc).
    exists 3, [0; 0], c. split; [done|].
    split; [rewrite Hlc; unfold sign_input; rewrite zlen_app; destruct e; cbn [hmac_len]; lia|].
    unfold wrap. change (Z.lor SENT_BY_ACCEPTOR SEALED) with 3. fold h0. rewrite Henc.
    split; [done|]. intros rrc r Hr Hun. unfold unwrap.
    rewrite header_not_short, header_tok_id, header_flags, header_rrc, header_drop16, header_take16, Hun by done.
    rewrite bool_decide_true by done. cbn [negb]. change (Z.land 3 SEALED =? 0) with false. cbn [negb].
    rewrite Hdec. cbn [map_err mbind result_bind]. unfold sign_input. rewrite zlen_app, Hh0.
    rewrite (proj2 (Z.ltb_ge _ _)) by lia. rewrite ztake_app_exact, zdrop_app_exact by lia.
    rewrite header_zero_rrc by done. by rewrite bool_decide_true.
  - set (h0 := header 1 [0; 0] [0; 0] (be_bytes 8 sq)).
    destruct (checksum_ok e key u (sign_input pt h0) Hkey) as (mic & Hmic & Hlm & _).
    assert (0 < hmac_len e) as Hpos by (by destruct e).
    exists 1, (be_bytes 2 (as_u16 (hmac_len e))), (pt ++ mic). split; [apply zlen_be_bytes|].
    split; [rewrite zlen_app; lia|].
    unfold wrap. change (Z.lor SENT_BY_ACCEPTOR 0) with 1.
    rewrite header_zero_ec by apply zlen_be_bytes. fold h0. rewrite Hmic.
    split; [done|]. intros rrc r Hr Hun.
    assert (zlen (be_bytes 2 (as_u16 (hmac_len e))) = 2) as Hec by apply zlen_be_bytes. unfold unwrap.
    rewrite header_not_short, header_tok_id, header_flags, header_rrc, header_drop16, header_take16, Hun by done.
    rewrite bool_decide_true by done. cbn [negb]. change (Z.land 1 SEALED =? 0) with true. cbn [negb].
    rewrite zlen_app. rewrite (proj2 (Z.ltb_ge _ _)) by lia.
    rewrite ztake_app_exact, zdrop_app_exact by lia.
    rewrite header_zero_ec, header_zero_rrc by done. fold h0. rewrite Hmic. cbn [map_err mbind result_bind].
    by rewrite constant_time_eq_same.
Qed.

(** Whatever is wrapped, sealed or integrity-only, with any sequence
    number, unwraps to the same bytes under the same key and usage, also
    when the token's octets after the header were rotated by any 16-bit
    count and the count recorded in the header. *)
Theorem wrap_unwrap sealed :
  exists token, wrap (Some conf) e key u sealed sq pt = Ok token /\
    unwrap e key u token = Ok pt /\
    forall n, in_u16 n -> unwrap e key u (rotate_token n token) = Ok pt.
Proof.
  destruct (unwrap_wrapped sealed) as (f & ec & body & Hec & Hb & Hw & Hu).
  eexists. split; [exact Hw|]. split; [apply Hu; [done|apply unrotate_0]|].
  intros n Hn. rewrite rotate_token_header by (done || apply zlen_be_bytes).
  apply Hu; [apply zlen_be_bytes|]. rewrite be_roundtrip by (unfold in_u16 in Hn; cbn; lia).
  by apply unrotate_rotated.
Qed.
End roundtrip.

#[local] Existing Instance demo_ssl.
#[local] Existing Instance demo_ssl_laws.

Lemma wrap_unwrap_witness :
  exists token, wrap (Some (replicate 16 9)) Aes256CtsHmacSha1_96 (replicate 32 7) 22 true 5 [1; 2; 3] = Ok token /\
    unwrap Aes256CtsHmacSha1_96 (replicate 32 7) 22 token = Ok [1; 2; 3] /\
    forall n, in_u16 n -> unwrap Aes256CtsHmacSha1_96 (replicate 32 7) 22 (rotate_token n token) = Ok [1; 2; 3].
Proof.
  apply (wrap_unwrap Aes256CtsHmacSha1_96 (replicate 32 7) (replicate 16 9) 22 5 [1; 2; 3]); reflexivity.
Defined.

(** A token is only accepted as authentic: an integrity-only token
    carries the checksum of the plaintext and its own header (EC and RRC
    zeroed), and a sealed one decrypts to the plaintext followed by its own
    header (RRC zeroed); a changed flag, sequence number or body is refused. *)
Theorem unwrap_authentic `{!OpenSsl, !OpenSslLaws} e key u token pt :
  zlen key = key_len e -> bytes_ok token -> unwrap e key u token = Ok pt ->
  let outer := ztake 16 token in
  let body := unrotate (be_val [byte_at token 6; byte_at token 7]) (zdrop 16 token) in
  16 <= zlen token /\ ztake 2 token = TOK_ID_WRAP /\
  if Z.land (byte_at token 2) SEALED =? 0
  then exists mic, body = pt ++ mic /\ checksum e key u (sign_input pt (zero_rrc (zero_ec outer))) = Ok mic
  else decrypt e key u body = Ok (sign_input pt (zero_rrc outer)).
Proof.
  intros Hk Hok. unfold unwrap. destruct (Z.ltb_spec (zlen token) 16) as [|H16]; [done|].
  case_bool_decide as Htok; [|done]. cbn [negb]. cbn zeta.
  set (body := unrotate _ _). set (outer := ztake 16 token). intros Hu. split; [done|]. split; [done|].
  destruct (Z.land _ _ =? 0); cbn [negb] in Hu.
  - destruct (Z.ltb_spec (zlen body) (hmac_len e)) as [|Hl]; [done|].
    destruct (checksum_ok e key u (sign_input (ztake (zlen body - hmac_len e) body) (zero_rrc (zero_ec outer))) Hk)
      as (mic & Hmic & _ & Hmok). rewrite Hmic in Hu. cbn [map_err mbind result_bind] in Hu.
    destruct (constant_time_eq mic _) eqn:Hc; [|done]. cbn [negb] in Hu. injection Hu as Hpt.
    apply constant_time_eq_spec in Hc; [|done|].
    + exists mic. split; [rewrite <- Hpt, Hc; symmetry; apply ztake_zdrop|by rewrite <- Hpt].
    + apply bytes_ok_zdrop. unfold body, unrotate. apply bytes_ok_app.
      split; [apply bytes_ok_zdrop|apply bytes_ok_ztake]; by apply bytes_ok_zdrop.
  - destruct (decrypt e key u body) as [d|]; [|done]. cbn [map_err mbind result_bind] in Hu.
    destruct (_ <? 16); [done|]. case_bool_decide as Hh; [|done]. cbn [negb] in Hu. injection Hu as <-.
    unfold sign_input. rewrite <- Hh, ztake_zdrop. done.
Qed.

Definition demo_token : bytes := Eval vm_compute in
  match wrap None Aes128CtsHmacSha1_96 (replicate 16 7) 22 false 5 [1; 2; 3] with Ok t => t | Err _ => [] end.

Lemma unwrap_authentic_witness :
  exists mic, unrotate 0 (zdrop 16 demo_token) = [1; 2; 3] ++ mic /\
    checksum Aes128CtsHmacSha1_96 (replicate 16 7) 22
      (sign_input [1; 2; 3] (zero_rrc (zero_ec (ztake 16 demo_token)))) = Ok mic.
Proof.
  refine (proj2 (proj2 (unwrap_authentic Aes128CtsHmacSha1_96 (replicate 16 7) 22 demo_token [1; 2; 3] _ _ _))).
  - reflexivity.
  - apply (bool_decide_unpack (Forall is_byte demo_token)). by vm_compute.
  - vm_compute. reflexivity.
Defined.
