(* ===== verification/Md4.v ===== *)
(** MD4 and the NT hash, [crates/crypto/src/md4.rs]. *)

From S2P Require Import Prelude Bytes Str.

Definition wrapping_add (a b : Z) : Z := as_u32 (a + b).
Definition rotate_left (x s : Z) : Z := Z.lor (as_u32 (Z.shiftl x s)) (Z.shiftr x (32 - s)).
Definition not_u32 (x : Z) : Z := Z.lxor x (2 ^ 32 - 1).

Definition f (x y z : Z) : Z := Z.lor (Z.land x y) (Z.land (not_u32 x) z).
Definition g (x y z : Z) : Z := Z.lor (Z.lor (Z.land x y) (Z.land x z)) (Z.land y z).
Definition h (x y z : Z) : Z := Z.lxor (Z.lxor x y) z.

Record regs := { ra : Z; rb : Z; rc : Z; rd : Z }.

(** One step of a round: the mixed register is rotated and the four turn. *)
Definition md4_step (fn : Z -> Z -> Z -> Z) (const : Z) (x : list Z) (r : regs) (ks : nat * Z) : regs :=
  let '(k, s) := ks in
  let t := wrapping_add (wrapping_add (wrapping_add (ra r) (fn (rb r) (rc r) (rd r))) (default 0 (x !! k))) const in
  {| ra := rd r; rd := rc r; rc := rb r; rb := rotate_left t s |}.

Definition ROUND1_ORDER : list nat := seq 0 16.
Definition ROUND2_ORDER : list nat := [0; 4; 8; 12; 1; 5; 9; 13; 2; 6; 10; 14; 3; 7; 11; 15]%nat.
Definition ROUND3_ORDER : list nat := [0; 8; 4; 12; 2; 10; 6; 14; 1; 9; 5; 13; 3; 11; 7; 15]%nat.

(** [[s0, s1, s2, s3][i % 4]] for [i] from 0 to 15. *)
Definition shifts (l : list Z) : list Z := l ++ l ++ l ++ l.

Definition round (fn : Z -> Z -> Z -> Z) (const : Z) (order : list nat) (s : list Z) (x : list Z) (r : regs) : regs :=
  foldl (md4_step fn const x) r (zip order (shifts s)).

(** [chunks_exact(n)]: a short last chunk is left out. *)
Fixpoint chunks_fuel (fuel : nat) (n : nat) (l : bytes) : list bytes :=
  match fuel with
  | O => []
  | S fuel' => if Nat.leb n (length l) then take n l :: chunks_fuel fuel' n (drop n l) else []
  end.
Definition chunks_exact (n : nat) (l : bytes) : list bytes := chunks_fuel (length l) n l.

Definition md4_block (r0 : regs) (block : bytes) : regs :=
  let x := map le_val (chunks_exact 4 block) in
  let r := round f 0 ROUND1_ORDER [3; 7; 11; 19] x r0 in
  let r := round g 1518500249 ROUND2_ORDER [3; 5; 9; 13] x r in
  let r := round h 1859775393 ROUND3_ORDER [3; 9; 11; 15] x r in
  {| ra := wrapping_add (ra r0) (ra r); rb := wrapping_add (rb r0) (rb r);
     rc := wrapping_add (rc r0) (rc r); rd := wrapping_add (rd r0) (rd r) |}.

(** [while padded.len() % 64 != 56 { padded.push(0) }]; at most 63 zeros. *)
Fixpoint pad_zeros (fuel : nat) (padded : bytes) : bytes :=
  match fuel with
  | O => padded
  | S fuel' => if Nat.eqb (length padded mod 64) 56 then padded else pad_zeros fuel' (padded ++ [0])
  end.

Definition md4_pad (message : bytes) : bytes :=
  let bit_len := as_u64 (zlen message * 8) in
  pad_zeros 64 (message ++ [128]) ++ le_bytes 8 bit_len.

Definition md4_init : regs :=
  {| ra := 1732584193; rb := 4023233417; rc := 2562383102; rd := 271733878 |}.

Definition md4 (message : bytes) : bytes :=
  let r := foldl md4_block md4_init (chunks_exact 64 (md4_pad message)) in
  le_bytes 4 (ra r) ++ le_bytes 4 (rb r) ++ le_bytes 4 (rc r) ++ le_bytes 4 (rd r).

(** [str::encode_utf16]: surrogate pairs above the basic plane. *)
Definition encode_utf16 (s : rstring) : list Z :=
  concat (map (fun c => if c <? 65536 then [c]
                        else [55296 + (c - 65536) / 1024; 56320 + (c - 65536) mod 1024]) s).

Definition utf16le (s : rstring) : bytes := concat (map (le_bytes 2) (encode_utf16 s)).

Definition ntowf (password : rstring) : bytes := md4 (utf16le password).

(** ** Padding *)

Lemma pad_zeros_spec fuel p :
  (64 <= fuel + (length p + 7) mod 64)%nat ->
  exists k, pad_zeros fuel p = p ++ replicate k 0 /\ (k < 64)%nat /\ ((length p + k) mod 64 = 56)%nat.
Proof.
  revert p. induction fuel as [|fuel IH]; intros p Hf.
  - pose proof (Nat.mod_upper_bound (length p + 7) 64). lia.
  - cbn [pad_zeros]. destruct (Nat.eqb_spec (length p mod 64) 56) as [He|Hne].
    + exists 0%nat. by rewrite app_nil_r, Nat.add_0_r; repeat split; try lia.
    + assert (((length p + 1) + 7) mod 64 = (length p + 7) mod 64 + 1)%nat as Hs.
      { pose proof (Nat.div_mod_eq (length p) 64). pose proof (Nat.mod_upper_bound (length p) 64).
        pose proof (Nat.div_mod_eq (length p + 7) 64). pose proof (Nat.mod_upper_bound (length p + 7) 64).
        pose proof (Nat.div_mod_eq (length p + 1 + 7) 64). pose proof (Nat.mod_upper_bound (length p + 1 + 7) 64). nia. }
      destruct (IH (p ++ [0])) as (k & Hk & Hlt & Hm).
      { rewrite length_app. cbn [length]. lia. }
      rewrite length_app in Hm. cbn [length] in Hm. exists (S k).
      rewrite Hk, <- app_assoc. split; [done|]. split; [|by replace (length p + S k)%nat with (length p + 1 + k)%nat by lia].
      destruct (decide (k = 63)%nat) as [->|]; [|lia]. exfalso. apply Hne.
      pose proof (Nat.div_mod_eq (length p) 64). pose proof (Nat.mod_upper_bound (length p) 64).
      pose proof (Nat.div_mod_eq (length p + 1 + 63) 64). lia.
Qed.

(** The padded message is whole blocks: the message, a one bit, fewer
    than 64 zero bytes and the 64-bit little-endian bit count; the digest is
    16 bytes, and RFC 1320's own test suite is met. *)
Theorem md4_spec :
  (forall m, exists k, (k < 64)%nat /\
    md4_pad m = m ++ [128] ++ replicate k 0 ++ le_bytes 8 (as_u64 (zlen m * 8)) /\
    (length (md4_pad m) mod 64 = 0)%nat /\ length (md4 m) = 16%nat) /\
  be_val (md4 []) = 0x31d6cfe0d16ae931b73c59d7e0c089c0 /\
  be_val (md4 (str "a")) = 0xbde52cb31de33e46245e05fbdbd6fb24 /\
  be_val (md4 (str "abc")) = 0xa448017aaf21d8525fc10ae87aa6729d /\
  be_val (md4 (str "message digest")) = 0xd9130a8164549fe818874806e1c7014b /\
  be_val (md4 (str "12345678901234567890123456789012345678901234567890123456789012345678901234567890"))
  = 0xe33b4ddc9c38f2199c3e7b164fcc0536.
Proof.
  split; [|repeat split; by vm_compute]. intros m. unfold md4_pad.
  destruct (pad_zeros_spec 64 (m ++ [128])) as (k & -> & Hk & Hm); [lia|]. exists k.
  split; [done|]. split; [by rewrite <- !app_assoc|].
  split; [|by unfold md4; rewrite !length_app, !length_le_bytes].
  rewrite length_app, length_le_bytes, (length_app _ (replicate _ _)), length_replicate.
  set (n := (length (m ++ [128%Z]) + k)%nat) in *. pose proof (Nat.div_mod_eq n 64).
  replace (n + 8)%nat with (0 + (n / 64 + 1) * 64)%nat by lia. by rewrite Nat.Div0.mod_add.
Qed.
