(* ===== verification/Sign.v ===== *)
(** ES256 signature encodings, [crates/crypto/src/sign.rs]: conversion between
    OpenSSL's DER form and the fixed-size form of JSON web signatures. *)

From S2P Require Import Prelude Bytes Token Kerberos.

Definition P256_COMPONENT_LEN : Z := 32.

(** [next(&mut pos, n)]: the slice and the position after it. *)
Definition next (der : bytes) (pos n : Z) : result Error (bytes * Z) :=
  s ← ok_or Ossl (slice der pos (pos + n));
  Ok (s, pos + n).

Definition read_integer (der : bytes) (component_len pos : Z) : result Error (bytes * Z) :=
  '(tag, pos) ← next der pos 1;
  if negb (bool_decide (tag = [2])) then Err Ossl
  else
    '(l, pos) ← next der pos 1;
    let len := default 0 (head l) in
    '(b, pos) ← next der pos len;
    let b := if (component_len <? zlen b) && bool_decide (head b = Some 0) then zdrop 1 b else b in
    if component_len <? zlen b then Err Ossl
    else Ok (replicate (Z.to_nat (component_len - zlen b)) 0 ++ b, pos).

Definition der_to_jose (der : bytes) (component_len : Z) : result Error bytes :=
  '(tag, pos) ← next der 0 1;
  if negb (bool_decide (tag = [48])) then Err Ossl
  else
    '(_, pos) ← next der pos 1;
    '(r, pos) ← read_integer der component_len pos;
    '(s, _) ← read_integer der component_len pos;
    Ok (r ++ s).

(** [trimmed] drops leading zeros but keeps one byte, as [skip_zeros] does. *)
Definition encode_integer (component : bytes) : bytes :=
  let trimmed := skip_zeros component in
  let value := (if negb (Z.land (default 0 (head trimmed)) 128 =? 0) then [0] else []) ++ trimmed in
  [2; as_u8 (zlen value)] ++ value.

Definition jose_to_der (raw : bytes) (component_len : Z) : bytes :=
  let r_der := encode_integer (ztake component_len raw) in
  let s_der := encode_integer (zdrop component_len raw) in
  [48; as_u8 (zlen r_der + zlen s_der)] ++ r_der ++ s_der.

(** The public point as OpenSSL exports it, [0x04 || X || Y]. *)
Definition public_xy (pubkey_uncompressed : bytes) : result Error (bytes * bytes) :=
  let want := 1 + 2 * P256_COMPONENT_LEN in
  if negb (zlen pubkey_uncompressed =? want) || negb (bool_decide (head pubkey_uncompressed = Some 4)) then Err Ossl
  else
    let xy := zdrop 1 pubkey_uncompressed in
    Ok (ztake P256_COMPONENT_LEN xy, zdrop P256_COMPONENT_LEN xy).

Section es256.
  (** The signer and verifier of [ossl], holding the key pair. *)
  Context (ecdsa_sign : bytes -> option bytes) (ecdsa_verify : bytes -> bytes -> bool).

Definition sign_es256 (message : bytes) : result Error bytes :=
  der ← ok_or Ossl (ecdsa_sign message);
  der_to_jose der P256_COMPONENT_LEN.

Definition verify_es256 (message jose_signature : bytes) : result Error bool :=
  if negb (zlen jose_signature =? 2 * P256_COMPONENT_LEN) then Ok false
  else Ok (ecdsa_verify message (jose_to_der jose_signature P256_COMPONENT_LEN)).
End es256.

(** ** Round trip *)

Lemma skip_zeros_replicate l :
  exists k, l = replicate k 0 ++ skip_zeros l.
Proof.
  induction l as [|b l [k Hk]]; [by exists 0%nat|]. destruct l as [|c l]; [by exists 0%nat|].
  rewrite skip_zeros_cons. destruct (Z.eqb_spec b 0) as [->|]; [|by exists 0%nat].
  exists (S k). cbn [replicate app]. by rewrite <- Hk.
Qed.

Lemma next_app pre s rest n : n = zlen s -> next (pre ++ s ++ rest) (zlen pre) n = Ok (s, zlen (pre ++ s)).
Proof. intros ->. unfold next. rewrite (slice_app_exact pre s rest) by done. by rewrite zlen_app. Qed.

Lemma encode_integer_shape c :
  0 < zlen c < 255 ->
  exists v, encode_integer c = [2; zlen v] ++ v /\ zlen v <= zlen c + 1 /\
    (forall n, zlen c = n ->
       let b := if (n <? zlen v) && bool_decide (head v = Some 0) then zdrop 1 v else v in
       (n <? zlen b) = false /\ replicate (Z.to_nat (n - zlen b)) 0 ++ b = c).
Proof.
  intros Hc. unfold encode_integer. destruct (skip_zeros_replicate c) as [k Hk].
  assert (skip_zeros c <> []) as Hne by (apply skip_zeros_ne; destruct c; [by destruct Hc|done]).
  set (t := skip_zeros c) in *. clearbody t.
  assert (zlen c = Z.of_nat k + zlen t) as Hl.
  { rewrite Hk, zlen_app. unfold zlen at 1. by rewrite length_replicate. }
  assert (0 < zlen t) as Ht by (destruct t; [done|]; rewrite zlen_cons; pose proof (zlen_nonneg t); lia).
  set (v := (if negb _ then [0] else []) ++ t).
  assert (zlen v = zlen t \/ zlen v = zlen t + 1 /\ v = 0 :: t) as Hv.
  { unfold v. destruct (negb _); [right|by left]. cbn [app]. rewrite zlen_cons. split; [lia|done]. }
  assert (zlen v = zlen t -> v = t) as Hvt.
  { unfold v. destruct (negb _); [|done]. cbn [app]. rewrite zlen_cons. lia. }
  exists v. split; [unfold as_u8; rewrite Z.mod_small by lia; done|]. split; [lia|].
  intros n <-. cbn zeta. clearbody v. destruct Hv as [Hv|[Hv ->]].
  - specialize (Hvt Hv). subst v. rewrite (proj2 (Z.ltb_ge (zlen c) (zlen t))) by lia. cbn [andb].
    rewrite (proj2 (Z.ltb_ge (zlen c) (zlen t))) by lia. split; [done|]. rewrite Hk at 2. f_equal. f_equal. lia.
  - destruct (Z.ltb_spec (zlen c) (zlen (0 :: t))) as [Hlt|Hge].
    + rewrite bool_decide_true by done. cbn [andb]. change (zdrop 1 (0 :: t)) with t.
      rewrite (proj2 (Z.ltb_ge (zlen c) (zlen t))) by lia. split; [done|]. rewrite Hk at 2. f_equal. f_equal. lia.
    + cbn [andb]. rewrite (proj2 (Z.ltb_ge _ _)) by lia. split; [done|]. rewrite Hv. rewrite Hk at 2.
      replace k with (Z.to_nat (zlen c - (zlen t + 1)) + 1)%nat by lia.
      rewrite replicate_add, <- app_assoc. done.
Qed.

Lemma read_integer_encode pre c rest n :
  zlen c = n -> 0 < n < 255 ->
  read_integer (pre ++ encode_integer c ++ rest) n (zlen pre) = Ok (c, zlen (pre ++ encode_integer c)).
Proof.
  intros Hn Hb. destruct (encode_integer_shape c) as (v & -> & _ & Hv); [lia|].
  specialize (Hv n Hn). cbn zeta in Hv. destruct Hv as [Hlt Hpad]. unfold read_integer.
  replace (pre ++ ([2; zlen v] ++ v) ++ rest) with (pre ++ [2] ++ [zlen v] ++ v ++ rest) by (by rewrite <- !app_assoc).
  rewrite next_app by done. cbn [mbind result_bind]. rewrite bool_decide_true by done. cbn [negb].
  rewrite (app_assoc pre [2]), next_app by done. cbn [mbind result_bind head default from_option id].
  rewrite (app_assoc (pre ++ [2])), next_app by done. cbn [mbind result_bind].
  rewrite Hlt, Hpad. f_equal. f_equal. f_equal. by rewrite <- !app_assoc.
Qed.

(** Every fixed-size signature survives the conversion to DER and back,
    whatever leading zeros or high bits its components have, so a valid
    signature is never lost or altered between its two encodings. *)
Theorem jose_der_roundtrip raw n :
  zlen raw = 2 * n -> 0 < n < 255 -> der_to_jose (jose_to_der raw n) n = Ok raw.
Proof.
  intros Hlen Hn. unfold der_to_jose, jose_to_der.
  assert (zlen (ztake n raw) = n) as Hr by (apply zlen_ztake; lia).
  assert (zlen (zdrop n raw) = n) as Hs by (rewrite zlen_zdrop; lia).
  set (r := encode_integer (ztake n raw)). set (s := encode_integer (zdrop n raw)).
  set (l := as_u8 _). change (next ([48; l] ++ r ++ s) 0 1) with (next ([] ++ [48] ++ [l] ++ r ++ s) (zlen (@nil Z)) 1).
  rewrite (next_app [] [48]) by done. cbn [mbind result_bind]. rewrite bool_decide_true by done. cbn [negb app].
  change (48 :: l :: r ++ s) with ([48] ++ [l] ++ r ++ s). rewrite (next_app [48] [l]) by done.
  cbn [mbind result_bind].
  pose proof (read_integer_encode ([48] ++ [l]) (ztake n raw) s n Hr Hn) as E1. fold r in E1.
  pose proof (read_integer_encode ([48] ++ [l] ++ r) (zdrop n raw) [] n Hs Hn) as E2. fold s in E2.
  rewrite app_nil_r in E2. cbn [app] in *. rewrite E1. cbn [mbind result_bind].
  rewrite E2. cbn [mbind result_bind]. by rewrite ztake_zdrop.
Qed.

Lemma jose_der_roundtrip_witness :
  der_to_jose (jose_to_der (replicate 32 255 ++ replicate 31 0 ++ [7]) 32) 32
  = Ok (replicate 32 255 ++ replicate 31 0 ++ [7]).
Proof. apply (jose_der_roundtrip (replicate 32 255 ++ replicate 31 0 ++ [7]) 32); [reflexivity|lia]. Defined.
