(* ===== verification/Password.v ===== *)
(** Stored password hashes, [crates/crypto/src/pbkdf2.rs]. *)

From S2P Require Import Prelude Bytes Str Decimal Utf8 Kerberos.

Definition DEFAULT_ITERATIONS : Z := 210000.
Definition MIN_PASSWORD_LEN : Z := 8.
Definition SALT_LEN : Z := 16.
Definition HASH_LEN : Z := 32.
Definition SCHEME : rstring := str "pbkdf2-sha256".

Definition hex_char (d : Z) : char := if d <? 10 then 48 + d else 87 + d.

Definition to_hex (b : bytes) : rstring := concat (map (fun b => [hex_char (b / 16); hex_char (b mod 16)]) b).

(** [u8::from_str_radix(s, 16).ok()] of a two-byte string; a plus sign is
    allowed in front of one digit. *)
Definition parse_hex_pair (a b : Z) : option Z :=
  if a =? c_plus then (if is_ascii_hexdigit b then Some (hex_value b) else None)
  else if is_ascii_hexdigit a && is_ascii_hexdigit b then Some (16 * hex_value a + hex_value b)
  else None.

(** The loop of [from_hex] over the string's bytes, from a character boundary.
    The outer [None] is a panic: slicing a string inside a character. *)
Fixpoint from_hex_loop (s : bytes) : option (option bytes) :=
  match s with
  | a :: b :: s' =>
      if match s' with c :: _ => is_cont c | [] => false end then None
      else
        match parse_hex_pair a b with
        | None => Some None
        | Some v => option_map (option_map (cons v)) (from_hex_loop s')
        end
  | _ => Some (Some [])
  end.

Definition from_hex (s : rstring) : option (option bytes) :=
  let b := utf8_encode s in
  if negb (zlen b mod 2 =? 0) then Some None else from_hex_loop b.

Section password.
  Context `{!OpenSsl}.

Definition derive (password salt : bytes) (iterations : Z) : result Error bytes :=
  ok_or Ossl (pbkdf2_derive Sha2_256 password salt iterations HASH_LEN).

Definition format_hash (salt hash : bytes) : rstring :=
  str "$" ++ SCHEME ++ str "$" ++ to_decimal DEFAULT_ITERATIONS ++ str "$" ++ to_hex salt ++ str "$" ++ to_hex hash.

(** [salt] is what the DRBG generates, [None] if it fails. *)
Definition hash_password (salt : option bytes) (password : bytes) : result Error rstring :=
  if zlen password <? MIN_PASSWORD_LEN then Err (PasswordTooShort MIN_PASSWORD_LEN (zlen password))
  else
    salt ← ok_or Ossl salt;
    hash ← derive password salt DEFAULT_ITERATIONS;
    Ok (format_hash salt hash).

(** The outer [None] is a panic in [from_hex]. *)
Definition verify_password (password : bytes) (stored : rstring) : option (result Error bool) :=
  match split_char (ch "$") stored with
  | [empty; scheme; iter_str; salt_hex; hash_hex] =>
      if negb (bool_decide (empty = [])) then Some (Ok false)
      else if negb (bool_decide (scheme = SCHEME)) then Some (Ok false)
      else
        match parse_uint u64_max iter_str with
        | None => Some (Ok false)
        | Some iterations =>
            match from_hex salt_hex, from_hex hash_hex with
            | Some salt, Some expected =>
                match salt, expected with
                | Some salt, Some expected =>
                    if negb (zlen expected =? HASH_LEN) then Some (Ok false)
                    else Some (computed ← derive password salt iterations; Ok (xor_acc 0 computed expected =? 0))
                | _, _ => Some (Ok false)
                end
            | _, _ => None
            end
        end
  | _ => Some (Ok false)
  end.
End password.

(** ** Hexadecimal *)

Lemma hex_char_digit d : 0 <= d < 16 ->
  is_ascii_hexdigit (hex_char d) = true /\ hex_value (hex_char d) = d /\ 48 <= hex_char d < 128.
Proof.
  intros Hd. unfold hex_char, hex_value, is_ascii_hexdigit, is_ascii_digit.
  destruct (Z.ltb_spec d 10).
  - rewrite (proj2 (Z.leb_le 48 _)), (proj2 (Z.leb_le _ 57)) by lia. cbn [andb orb]. repeat split; lia.
  - rewrite (proj2 (Z.leb_gt _ 57)), (proj2 (Z.leb_le 97 _)), (proj2 (Z.leb_le _ 102)) by lia.
    rewrite andb_false_r. cbn [andb orb]. repeat split; lia.
Qed.

Lemma parse_hex_pair_to_hex b : is_byte b ->
  parse_hex_pair (hex_char (b / 16)) (hex_char (b mod 16)) = Some b.
Proof.
  intros Hb. unfold is_byte in Hb. unfold parse_hex_pair.
  destruct (hex_char_digit (b / 16)) as (H1 & H2 & H3); [zlia|].
  destruct (hex_char_digit (b mod 16)) as (H4 & H5 & H6); [zlia|].
  rewrite (proj2 (Z.eqb_neq _ _)) by lia. rewrite H1, H2, H4, H5. cbn [andb]. f_equal. zlia.
Qed.

Lemma to_hex_ascii l : bytes_ok l -> Forall (fun c => 48 <= c < 128) (to_hex l).
Proof.
  intros Hl. induction Hl as [|b l Hb _ IH]; [constructor|]. unfold to_hex, is_byte in *. cbn [map concat app].
  constructor; [apply hex_char_digit; zlia|]. constructor; [apply hex_char_digit; zlia|done].
Qed.

Lemma from_hex_to_hex l : bytes_ok l -> from_hex (to_hex l) = Some (Some l).
Proof.
  intros Hl. unfold from_hex. rewrite utf8_ascii.
  2: { eapply Forall_impl; [by apply to_hex_ascii|]. cbn. lia. }
  assert (zlen (to_hex l) mod 2 = 0) as ->.
  { assert (exists k, zlen (to_hex l) = k * 2) as [k ->]; [|apply Z_mod_mult].
    clear. induction l as [|b l [k IH]]; [by exists 0|]. exists (k + 1).
    change (to_hex (b :: l)) with (hex_char (b / 16) :: hex_char (b mod 16) :: to_hex l).
    rewrite !zlen_cons. lia. }
  cbn [Z.eqb negb]. induction Hl as [|b l Hb Hl IH]; [done|].
  change (to_hex (b :: l)) with (hex_char (b / 16) :: hex_char (b mod 16) :: to_hex l).
  cbn [from_hex_loop].
  replace (match to_hex l with c :: _ => is_cont c | [] => false end) with false.
  - by rewrite parse_hex_pair_to_hex, IH.
  - pose proof (to_hex_ascii l Hl) as Ha. destruct (to_hex l) as [|c r]; [done|].
    apply Forall_cons in Ha as [Hc _]. unfold is_cont. symmetry. apply andb_false_iff. left. apply Z.leb_gt. lia.
Qed.

(** ** Storing and checking *)

Section checking.
  Context `{!OpenSsl, !OpenSslLaws}.

Lemma dollar_free l : bytes_ok l -> ch "$" ∉ to_hex l.
Proof.
  intros Hl Hin. pose proof (to_hex_ascii l Hl) as Ha.
  rewrite Forall_forall in Ha. apply Ha in Hin. change (ch "$") with 36 in Hin. lia.
Qed.

Lemma split_format salt hash :
  bytes_ok salt -> bytes_ok hash ->
  split_char (ch "$") (format_hash salt hash) = [[]; SCHEME; to_decimal DEFAULT_ITERATIONS; to_hex salt; to_hex hash].
Proof.
  intros Hs Hh. unfold format_hash.
  apply (split_join (ch "$") [[]; SCHEME; to_decimal DEFAULT_ITERATIONS; to_hex salt; to_hex hash]); [done|].
  repeat (apply Forall_cons; split); try by apply dollar_free.
  - apply not_elem_of_nil.
  - by_decide.
  - by apply to_decimal_no.
  - by apply Forall_nil.
Qed.

Lemma verify_format pw salt hash :
  bytes_ok salt -> bytes_ok hash -> zlen hash = HASH_LEN ->
  verify_password pw (format_hash salt hash)
  = Some (computed ← derive pw salt DEFAULT_ITERATIONS; Ok (xor_acc 0 computed hash =? 0)).
Proof.
  intros Hs Hh Hl. unfold verify_password. rewrite split_format by done.
  rewrite !bool_decide_true by done. cbn [negb]. rewrite parse_uint_to_decimal by (by vm_compute).
  rewrite !from_hex_to_hex by done. rewrite Hl. done.
Qed.

Lemma format_hash_ascii salt hash : bytes_ok salt -> bytes_ok hash -> Forall (fun c => 0 <= c < 128) (format_hash salt hash).
Proof.
  intros Hs Hh. unfold format_hash. rewrite !Forall_app.
  assert (forall l, bytes_ok l -> Forall (fun c => 0 <= c < 128) (to_hex l)) as Hx.
  { intros l Hl. eapply Forall_impl; [by apply to_hex_ascii|]. cbn. lia. }
  repeat split; try by apply Hx.
  all: by_decide.
Qed.

(** A hash that was made verifies. *)
Lemma hash_password_inv salt pw h :
  bytes_ok salt -> zlen salt = SALT_LEN -> hash_password (Some salt) pw = Ok h ->
  exists hash, h = format_hash salt hash /\ bytes_ok hash /\ verify_password pw h = Some (Ok true).
Proof.
  intros Hs Hsl. unfold hash_password. destruct (Z.ltb_spec (zlen pw) MIN_PASSWORD_LEN) as [|Hpw]; [done|].
  cbn [ok_or mbind result_bind]. intros (k & Hd & [= <-])%bind_ok. exists k. split; [done|].
  assert (pbkdf2_derive Sha2_256 pw salt DEFAULT_ITERATIONS HASH_LEN = Some k) as Hk.
  { unfold derive in Hd. destruct pbkdf2_derive; [by injection Hd as ->|done]. }
  pose proof (pbkdf2_bytes _ _ _ _ _ _ Hk) as Hkb.
  destruct (pbkdf2_total Sha2_256 pw salt DEFAULT_ITERATIONS HASH_LEN Hpw) as (k' & Hk' & Hkl);
    [rewrite Hsl; done|done|done|]. rewrite Hk in Hk'. injection Hk' as <-. split; [done|].
  rewrite verify_format by done. rewrite Hd. cbn [mbind result_bind]. by rewrite xor_acc_refl.
Qed.

(** A stored hash verifies against exactly the passwords that derive the
    stored key: the hashed password always does, another one does if and only
    if its derived key is the same; passwords below the provider's minimum
    are refused with both lengths. *)
Theorem password_roundtrip salt pw :
  bytes_ok salt -> zlen salt = SALT_LEN -> 8 <= zlen pw ->
  (exists stored, hash_password (Some salt) pw = Ok stored /\
    verify_password pw stored = Some (Ok true) /\
    forall pw', 8 <= zlen pw' ->
      exists b, verify_password pw' stored = Some (Ok b) /\
        (b = true <-> derive pw' salt DEFAULT_ITERATIONS = derive pw salt DEFAULT_ITERATIONS)) /\
  (forall short, zlen short < 8 -> hash_password (Some salt) short = Err (PasswordTooShort 8 (zlen short))).
Proof.
  intros Hs Hsl Hpw. split.
  2: { intros short Hsh. unfold hash_password. by rewrite (proj2 (Z.ltb_lt _ _)). }
  destruct (pbkdf2_total Sha2_256 pw salt DEFAULT_ITERATIONS HASH_LEN Hpw) as (k & Hk & Hkl);
    [rewrite Hsl; done|done|done|].
  pose proof (pbkdf2_bytes _ _ _ _ _ _ Hk) as Hkb.
  assert (derive pw salt DEFAULT_ITERATIONS = Ok k) as Hd by (unfold derive; by rewrite Hk).
  exists (format_hash salt k). split; [|split].
  - unfold hash_password. rewrite (proj2 (Z.ltb_ge _ _)) by done. cbn [ok_or mbind result_bind].
    rewrite Hd. done.
  - rewrite verify_format by done. rewrite Hd. cbn [mbind result_bind]. by rewrite xor_acc_refl.
  - intros pw' Hpw'.
    destruct (pbkdf2_total Sha2_256 pw' salt DEFAULT_ITERATIONS HASH_LEN Hpw') as (k' & Hk' & Hkl');
      [rewrite Hsl; done|done|done|].
    pose proof (pbkdf2_bytes _ _ _ _ _ _ Hk') as Hkb'.
    rewrite verify_format by done. unfold derive. rewrite Hk, Hk'. cbn [ok_or mbind result_bind].
    eexists. split; [done|]. rewrite Z.eqb_eq, xor_acc_zero; [|lia|done|done|unfold zlen in *; lia].
    split; [by intros [_ ->]|intros [= ->]; done].
Qed.
End checking.

#[local] Existing Instance demo_ssl.
#[local] Existing Instance demo_ssl_laws.

Lemma password_roundtrip_witness :
  exists stored, hash_password (Some (replicate 16 3)) (str "correct horse") = Ok stored /\
    verify_password (str "correct horse") stored = Some (Ok true).
Proof.
  destruct (password_roundtrip (replicate 16 3) (str "correct horse")) as [(s & H1 & H2 & _) _];
    [by apply Forall_replicate|reflexivity|by vm_compute|by exists s].
Defined.

(** The hexadecimal reader is laxer than the stored format: a plus sign
    counts as a digit's prefix, and a stored value with a character of more
    than one byte across a pair boundary panics instead of being rejected. *)
Theorem from_hex_divergence `{!OpenSsl} :
  from_hex (str "+f") = Some (Some [15]) /\
  (forall pw, verify_password pw (str "$pbkdf2-sha256$1$a" ++ [233] ++ str "1$00") = None).
Proof. split; [by vm_compute|]. intros pw. by vm_compute. Qed.
