(* ===== verification/Principal.v ===== *)
(** Kerberos material on directory entries,
    [crates/kdc/src/principal.rs]. *)

From S2P Require Import Prelude Bytes Str Btree Utf8 Decimal Entry Nfold Kerberos Password.

Definition ATTR_PRINCIPAL_NAME : rstring := str "krbprincipalname".
Definition ATTR_SALT : rstring := str "krbsalt".
Definition ATTR_KEY : rstring := str "krbkey".

Definition MIN_SALT_LEN : Z := 16.
Definition DEFAULT_ENCTYPES : list Enctype := [Aes256CtsHmacSha384_192; Aes256CtsHmacSha1_96].

Inductive PrincipalError :=
| CryptoErr (e : Error)
| MissingAttr (attr : rstring)
| MalformedAttr (attr value : rstring)
| NoKeyForEtype (etype : Z).

Record PrincipalKey := mkPrincipalKey { pk_enctype : Enctype; pk_kvno : Z; pk_key : bytes }.

Definition i32_min : Z := - 2 ^ 31.
Definition i32_max : Z := 2 ^ 31 - 1.

(** [splitn(3, ':')] with all three parts. *)
Definition split_once (d : char) (s : rstring) : option (rstring * rstring) :=
  match split_char d s with
  | a :: b :: rest => Some (a, join [d] (b :: rest))
  | _ => None
  end.

Definition splitn3 (d : char) (s : rstring) : option (rstring * rstring * rstring) :=
  '(a, rest) ← split_once d s;
  '(b, c) ← split_once d rest;
  Some (a, b, c).

Definition key_value (e : Enctype) (key : bytes) : rstring :=
  to_decimal (etype_number e) ++ str ":1:" ++ to_hex key.

Section keys.
  Context `{!OpenSsl}.

(** The loop over [DEFAULT_ENCTYPES] of both setters. *)
Definition derive_key_values (secret salt : bytes) : result Error (list rstring) :=
  try_map (fun e => key ← string_to_key e secret salt None; Ok (key_value e key)) DEFAULT_ENCTYPES.

Definition store_keys (entry : Entry) (principal_name salt : rstring) (key_values : list rstring) : Entry :=
  let entry := Entry.set entry ATTR_PRINCIPAL_NAME [principal_name] in
  let entry := Entry.set entry ATTR_SALT [salt] in
  Entry.set entry ATTR_KEY key_values.

(** [random] is what the DRBG gives, [None] if it fails. *)
Definition set_password (random : option bytes) (entry : Entry) (principal_name : rstring) (password : bytes)
    : result PrincipalError Entry :=
  bytes ← map_err CryptoErr (ok_or Ossl random);
  let salt := to_hex bytes in
  key_values ← map_err CryptoErr (derive_key_values password (utf8_encode salt));
  Ok (store_keys entry principal_name salt key_values).

Definition set_shared_key (entry : Entry) (principal_name : rstring) (secret : bytes) : result PrincipalError Entry :=
  let salt := to_hex (utf8_encode principal_name) in
  key_values ← map_err CryptoErr (derive_key_values secret (utf8_encode salt));
  Ok (store_keys entry principal_name salt key_values).
End keys.

Definition principal_name (entry : Entry) : result PrincipalError rstring :=
  ok_or (MissingAttr ATTR_PRINCIPAL_NAME) (Entry.get entry ATTR_PRINCIPAL_NAME ≫= head).

(** One stored key.  The outer [None] is a panic in [from_hex]. *)
Definition parse_key (v : rstring) : option (result PrincipalError PrincipalKey) :=
  let malformed := Err (MalformedAttr ATTR_KEY v) in
  match splitn3 (ch ":") v with
  | None => Some malformed
  | Some (etype_str, kvno_str, hex_key) =>
      match parse_int i32_min i32_max etype_str ≫= try_from, parse_uint u32_max kvno_str with
      | Some enctype, Some kvno =>
          match from_hex hex_key with
          | None => None
          | Some None => Some malformed
          | Some (Some key) => Some (Ok (mkPrincipalKey enctype kvno key))
          end
      | _, _ => Some malformed
      end
  end.

(** [collect]: the first error, or panic, ends it. *)
Fixpoint parse_keys (vs : list rstring) : option (result PrincipalError (list PrincipalKey)) :=
  match vs with
  | [] => Some (Ok [])
  | v :: vs' =>
      match parse_key v with
      | None => None
      | Some (Err e) => Some (Err e)
      | Some (Ok k) => option_map (fmap (cons k)) (parse_keys vs')
      end
  end.

Definition keys (entry : Entry) : option (result PrincipalError (list PrincipalKey)) :=
  match Entry.get entry ATTR_KEY with
  | None => Some (Err (MissingAttr ATTR_KEY))
  | Some values => parse_keys values
  end.

Definition find_key (e : Enctype) (ks : list PrincipalKey) : option PrincipalKey :=
  List.find (fun k => bool_decide (pk_enctype k = e)) ks.

Definition key_for_enctype (entry : Entry) (e : Enctype) : option (result PrincipalError PrincipalKey) :=
  option_map (fun r => ks ← r; ok_or (NoKeyForEtype (etype_number e)) (find_key e ks)) (keys entry).

Definition salt (entry : Entry) : result PrincipalError bytes :=
  s ← ok_or (MissingAttr ATTR_SALT) (Entry.get entry ATTR_SALT ≫= head);
  Ok (utf8_encode s).

(** ** What is stored is what was derived *)

Lemma to_hex_no_colon l : bytes_ok l -> (ch ":") ∉ to_hex l.
Proof.
  intros Hl. induction Hl as [|b l Hb _ IH]; [by apply not_elem_of_nil|].
  unfold to_hex, is_byte in *. cbn [map concat app]. rewrite !not_elem_of_cons.
  assert (forall d, 0 <= d < 16 -> ch ":" <> hex_char d) as Hd.
  { intros d Hd. unfold hex_char. change (ch ":") with 58. destruct (Z.ltb_spec d 10); lia. }
  split; [apply Hd; zlia|]. split; [apply Hd; zlia|exact IH].
Qed.

Lemma parse_key_value e key :
  bytes_ok key -> parse_key (key_value e key) = Some (Ok (mkPrincipalKey e 1 key)).
Proof.
  intros Hk. unfold parse_key.
  assert (splitn3 (ch ":") (key_value e key) = Some (to_decimal (etype_number e), str "1", to_hex key)) as ->.
  { assert (ch ":" ∉ to_decimal (etype_number e)) as H1 by (destruct e; by_decide).
    assert (ch ":" ∉ str "1") as H2 by by_decide. pose proof (to_hex_no_colon key Hk) as H3.
    change (key_value e key) with (to_decimal (etype_number e) ++ [ch ":"] ++ str "1" ++ [ch ":"] ++ to_hex key).
    unfold splitn3, split_once. cbn [app]. rewrite !split_char_app, split_char_nosep by done.
    cbn [mbind option_bind join]. cbn [app]. by rewrite split_char_app, split_char_nosep. }
  assert (parse_int i32_min i32_max (to_decimal (etype_number e)) ≫= try_from = Some e) as -> by (by destruct e).
  change (parse_uint u32_max (str "1")) with (Some 1). cbn iota. by rewrite from_hex_to_hex.
Qed.

Lemma parse_keys_values l :
  Forall (fun ek => bytes_ok ek.2) l ->
  parse_keys (map (fun ek => key_value ek.1 ek.2) l) = Some (Ok (map (fun ek => mkPrincipalKey ek.1 1 ek.2) l)).
Proof.
  induction 1 as [|[e k] l Hk _ IH]; [done|]. cbn [map parse_keys fst snd] in *. by rewrite parse_key_value, IH.
Qed.

Section derived.
  Context `{!OpenSsl, !OpenSslLaws}.

(** The key of an enctype, as stored. *)
Definition derived_keys (secret salt : bytes) (l : list (Enctype * bytes)) : Prop :=
  map fst l = DEFAULT_ENCTYPES /\
  Forall (fun ek => string_to_key ek.1 secret salt None = Ok ek.2 /\ zlen ek.2 = key_len ek.1 /\ bytes_ok ek.2) l.

Lemma derive_key_values_ok secret salt :
  8 <= zlen secret -> 16 <= zlen salt ->
  exists l, derived_keys secret salt l /\
    derive_key_values secret salt = Ok (map (fun ek => key_value ek.1 ek.2) l).
Proof.
  intros Hs Hl. unfold derive_key_values, DEFAULT_ENCTYPES.
  destruct (string_to_key_ok Aes256CtsHmacSha384_192 secret salt Hs Hl) as (k1 & H1 & L1 & B1).
  destruct (string_to_key_ok Aes256CtsHmacSha1_96 secret salt Hs Hl) as (k2 & H2 & L2 & B2).
  exists [(Aes256CtsHmacSha384_192, k1); (Aes256CtsHmacSha1_96, k2)]. split.
  - split; [done|]. by repeat constructor.
  - cbn [try_map]. rewrite H1. cbn [mbind result_bind]. rewrite H2. done.
Qed.

Lemma stored_keys_read entry name salt_str secret l :
  derived_keys secret (utf8_encode salt_str) l ->
  let e' := store_keys entry name salt_str (map (fun ek => key_value ek.1 ek.2) l) in
  principal_name e' = Ok name /\ salt e' = Ok (utf8_encode salt_str) /\
  keys e' = Some (Ok (map (fun ek => mkPrincipalKey ek.1 1 ek.2) l)) /\
  (forall a, eq_ignore_ascii_case ATTR_KEY a = false -> eq_ignore_ascii_case ATTR_SALT a = false ->
     eq_ignore_ascii_case ATTR_PRINCIPAL_NAME a = false -> Entry.get e' a = Entry.get entry a).
Proof.
  intros [_ Hl] e'. unfold e', store_keys, principal_name, salt, keys.
  split; [by rewrite !get_set|]. split; [by rewrite !get_set|]. split.
  - rewrite get_set. change (eq_ignore_ascii_case ATTR_KEY ATTR_KEY) with true. cbn iota. apply parse_keys_values.
    eapply Forall_impl; [exact Hl|]. naive_solver.
  - intros a H1 H2 H3. by rewrite !get_set, H1, H2, H3.
Qed.

Lemma find_derived_key secret salt l e :
  derived_keys secret salt l -> e ∈ DEFAULT_ENCTYPES ->
  exists k, string_to_key e secret salt None = Ok k /\
    find_key e (map (fun ek => mkPrincipalKey ek.1 1 ek.2) l) = Some (mkPrincipalKey e 1 k).
Proof.
  intros [Hm Hl] He. rewrite <- Hm in He. clear Hm. induction Hl as [|[e' k] l (Hk & _) _ IH]; [by apply elem_of_nil in He|].
  unfold find_key in *. cbn [map List.find pk_enctype fst snd] in *. case_bool_decide as Hee.
  - subst e'. by exists k.
  - apply elem_of_cons in He as [->|He]; [done|]. by apply IH.
Qed.
End derived.

Lemma zlen_to_hex l : zlen (to_hex l) = 2 * zlen l.
Proof.
  induction l as [|b l IH]; [done|]. unfold to_hex in *. cbn [map concat app]. rewrite !zlen_cons. lia.
Qed.

Lemma utf8_to_hex l : bytes_ok l -> utf8_encode (to_hex l) = to_hex l.
Proof.
  intros Hl. apply utf8_ascii. eapply Forall_impl; [by apply to_hex_ascii|]. intros c Hc. simpl in Hc. lia.
Qed.

Lemma key_value_str_ok e key : bytes_ok key -> str_ok (key_value e key).
Proof.
  intros Hk. unfold key_value. rewrite !str_ok_app. split; [by destruct e; by_decide|]. split; [apply str_ok_str|].
  eapply Forall_impl; [by apply to_hex_ascii|]. intros c Hc. left. simpl in Hc. lia.
Qed.

Lemma derived_values_ok `{!OpenSsl, !OpenSslLaws} secret salt kv : derive_key_values secret salt = Ok kv -> Forall str_ok kv.
Proof.
  unfold derive_key_values. intros Hd%try_map_ok. induction Hd as [|e v es vs (k & Hk & [= <-])%bind_ok _ IH]; constructor; [|done].
  apply key_value_str_ok. by eapply string_to_key_bytes.
Qed.

Lemma store_keys_wf entry name salt kv :
  entry_wf entry -> str_ok name -> bytes_ok salt -> Forall str_ok kv -> entry_wf (store_keys entry name (to_hex salt) kv).
Proof.
  intros He Hn Hs Hk. unfold store_keys.
  apply entry_set_wf; [|apply str_ok_str|done].
  apply entry_set_wf; [|apply str_ok_str|apply Forall_singleton].
  - apply entry_set_wf; [done|apply str_ok_str|by apply Forall_singleton].
  - eapply Forall_impl; [by apply to_hex_ascii|]. intros c Hc. left. simpl in Hc. lia.
Qed.

Lemma set_password_wf `{!OpenSsl, !OpenSslLaws} salt entry name password e' :
  zlen salt = MIN_SALT_LEN -> bytes_ok salt -> str_ok name -> entry_wf entry ->
  set_password (Some salt) entry name password = Ok e' -> entry_wf e'.
Proof.
  intros Hl Hs Hn He. unfold set_password. cbn [ok_or map_err mbind result_bind].
  destruct (derive_key_values _ _) as [kv|] eqn:Hd; [|done]. cbn [map_err mbind result_bind]. intros [= <-].
  apply store_keys_wf; [done..|by eapply derived_values_ok].
Qed.

(** The shared key depends on the name and the secret alone. *)
Lemma set_shared_key_keys `{!OpenSsl, !OpenSslLaws} name secret :
  8 <= zlen secret -> 8 <= zlen (utf8_encode name) -> str_ok name ->
  exists ks, map pk_enctype ks = DEFAULT_ENCTYPES /\ Forall (fun k => zlen (pk_key k) = key_len (pk_enctype k)) ks /\
    forall entry, exists e, set_shared_key entry name secret = Ok e /\ keys e = Some (Ok ks) /\
      Entry.get e ATTR_PRINCIPAL_NAME = Some [name] /\ (entry_wf entry -> entry_wf e).
Proof.
  intros Hsh Hn Hs. assert (bytes_ok (utf8_encode name)) as Hnb by (by apply utf8_encode_ok).
  destruct (derive_key_values_ok secret (to_hex (utf8_encode name))) as (l & Hl & Hd); [done|rewrite zlen_to_hex; lia|].
  assert (derived_keys secret (utf8_encode (to_hex (utf8_encode name))) l) as Hl' by (by rewrite utf8_to_hex).
  exists (map (fun ek => mkPrincipalKey ek.1 1 ek.2) l). split; [rewrite map_map; by apply Hl|].
  split; [apply Forall_map; eapply Forall_impl; [apply Hl|]; naive_solver|].
  intros entry. unfold set_shared_key. rewrite utf8_to_hex by done. rewrite Hd. cbn [map_err mbind result_bind]. eexists. split; [done|].
  destruct (stored_keys_read entry name (to_hex (utf8_encode name)) secret l Hl') as (_ & _ & H3 & _).
  split; [exact H3|]. split; [unfold store_keys; by rewrite !get_set|]. intros He.
  apply store_keys_wf; [done..|by eapply derived_values_ok].
Qed.

Lemma set_password_keys `{!OpenSsl, !OpenSslLaws} random entry name password :
  zlen random = MIN_SALT_LEN -> bytes_ok random -> 8 <= zlen password ->
  exists e', set_password (Some random) entry name password = Ok e' /\
    Entry.get e' ATTR_PRINCIPAL_NAME = Some [name] /\ principal_name e' = Ok name /\ salt e' = Ok (to_hex random) /\
    (forall enc, enc ∈ DEFAULT_ENCTYPES -> exists k, string_to_key enc password (to_hex random) None = Ok k /\
       key_for_enctype e' enc = Some (Ok (mkPrincipalKey enc 1 k))) /\
    (forall a, eq_ignore_ascii_case ATTR_KEY a = false -> eq_ignore_ascii_case ATTR_SALT a = false ->
       eq_ignore_ascii_case ATTR_PRINCIPAL_NAME a = false -> Entry.get e' a = Entry.get entry a).
Proof.
  intros Hr Hb Hp. destruct (derive_key_values_ok password (to_hex random)) as (l & Hl & Hd);
    [done|rewrite zlen_to_hex, Hr; by vm_compute|].
  unfold set_password. cbn [ok_or map_err mbind result_bind]. rewrite utf8_to_hex by done. rewrite Hd.
  cbn [map_err mbind result_bind]. eexists. split; [done|].
  destruct (stored_keys_read entry name (to_hex random) password l) as (H1 & H2 & H3 & H4);
    [by rewrite utf8_to_hex|]. rewrite utf8_to_hex in H2 by done.
  split; [unfold store_keys; by rewrite !get_set|]. split; [done|]. split; [done|]. split; [|done].
  intros enc He. unfold key_for_enctype. rewrite H3.
  destruct (find_derived_key password (to_hex random) l enc Hl He) as (k & Hk & Hf). exists k.
  split; [done|]. cbn [option_map mbind result_bind]. by rewrite Hf.
Qed.

(** Setting a password stores keys the KDC will find again: the principal
    name, the salt a client is told, and for each default enctype exactly the
    key that the password and that salt derive, with key version 1; nothing
    else of the entry changes.  Two realms that share a secret and a name
    store identical keys. *)
Theorem set_password_stores_keys `{!OpenSsl, !OpenSslLaws} random entry entry2 name password shared :
  zlen random = MIN_SALT_LEN -> bytes_ok random -> 8 <= zlen password ->
  8 <= zlen shared -> 8 <= zlen (utf8_encode name) -> str_ok name ->
  (exists e', set_password (Some random) entry name password = Ok e' /\
    principal_name e' = Ok name /\ salt e' = Ok (to_hex random) /\
    (forall enc, enc ∈ DEFAULT_ENCTYPES -> exists k, string_to_key enc password (to_hex random) None = Ok k /\
       key_for_enctype e' enc = Some (Ok (mkPrincipalKey enc 1 k))) /\
    (forall a, eq_ignore_ascii_case ATTR_KEY a = false -> eq_ignore_ascii_case ATTR_SALT a = false ->
       eq_ignore_ascii_case ATTR_PRINCIPAL_NAME a = false -> Entry.get e' a = Entry.get entry a)) /\
  (exists here there ks, set_shared_key entry name shared = Ok here /\ set_shared_key entry2 name shared = Ok there /\
    keys here = Some (Ok ks) /\ keys there = Some (Ok ks) /\ map pk_enctype ks = DEFAULT_ENCTYPES).
Proof.
  intros Hr Hb Hp Hsh Hn Hs. split.
  - destruct (set_password_keys random entry name password Hr Hb Hp) as (e' & He & _ & Hrest). by exists e'.
  - destruct (set_shared_key_keys name shared Hsh Hn Hs) as (ks & Hks & _ & Hall).
    destruct (Hall entry) as (here & H1 & H2 & _). destruct (Hall entry2) as (there & H3 & H4 & _). by exists here, there, ks.
Qed.

#[local] Existing Instance demo_ssl.
#[local] Existing Instance demo_ssl_laws.

Lemma set_password_stores_keys_witness :
  exists e', set_password (Some (replicate 16 3)) Entry.new (str "alice@IRON.LO") (str "correcthorse") = Ok e' /\
    principal_name e' = Ok (str "alice@IRON.LO") /\
    exists k, string_to_key Aes256CtsHmacSha1_96 (str "correcthorse") (to_hex (replicate 16 3)) None = Ok k /\
      key_for_enctype e' Aes256CtsHmacSha1_96 = Some (Ok (mkPrincipalKey Aes256CtsHmacSha1_96 1 k)).
Proof.
  destruct (set_password_stores_keys (replicate 16 3) Entry.new Entry.new (str "alice@IRON.LO") (str "correcthorse")
    (str "shared-secret") eq_refl ltac:(by repeat constructor) ltac:(vm_compute; discriminate) ltac:(vm_compute; discriminate)
    ltac:(vm_compute; discriminate) (str_ok_str _)) as [(e' & He & Hn & _ & Hk & _) _].
  exists e'. split; [exact He|]. split; [exact Hn|]. apply Hk. by_decide.
Defined.
