(* ===== verification/Keytab.v ===== *)
(** Keytab files, [crates/kdc/src/keytab.rs]: the MIT format, version 2. *)

From S2P Require Import Prelude Bytes Str Utf8 Nfold Kerberos.

Inductive KeytabError :=
| KeytabIo
| BadMagic
| UnsupportedVersion (v : Z)
| UnsupportedEnctype (e : Z).

Record KeytabEntry := mkKeytabEntry {
  kt_realm : rstring;
  kt_components : list rstring;
  kt_name_type : Z;
  kt_timestamp : Z;
  kt_kvno : Z;
  kt_enctype : Enctype;
  kt_key : bytes;
}.

(** ** Writing *)

Definition write_counted_string (s : bytes) : bytes := be_bytes 2 (as_u16 (zlen s)) ++ s.

(** [name_type] is an [i32] in two's complement. *)
Definition encode_entry_body (entry : KeytabEntry) : bytes :=
  be_bytes 2 (as_u16 (zlen (kt_components entry)))
  ++ write_counted_string (utf8_encode (kt_realm entry))
  ++ concat (List.map (fun c => write_counted_string (utf8_encode c)) (kt_components entry))
  ++ be_bytes 4 (as_u32 (kt_name_type entry))
  ++ be_bytes 4 (kt_timestamp entry)
  ++ [Z.land (kt_kvno entry) 0xFF]
  ++ be_bytes 2 (as_u16 (etype_number (kt_enctype entry)))
  ++ write_counted_string (kt_key entry)
  ++ be_bytes 4 (kt_kvno entry).

Definition write (entries : list KeytabEntry) : bytes :=
  [0x05; 0x02] ++ concat (List.map (fun e =>
    let body := encode_entry_body e in be_bytes 4 (as_u32 (zlen body)) ++ body) entries).

(** ** Reading *)

Definition as_i32 (v : Z) : Z := if v <? 2 ^ 31 then v else v - 2 ^ 32.

(** A read of the slice: the value and the bytes left. *)
Definition take_bytes (n : Z) (r : bytes) : result KeytabError (bytes * bytes) := ok_or KeytabIo (read_exact n r).

Definition read_counted_string (r : bytes) : result KeytabError (bytes * bytes) :=
  hd ← take_bytes 2 r;
  take_bytes (be_val hd.1) hd.2.

Fixpoint read_components (n : nat) (r : bytes) : result KeytabError (list rstring * bytes) :=
  match n with
  | O => Ok ([], r)
  | S n' =>
      c ← read_counted_string r;
      cs ← read_components n' c.2;
      Ok (utf8_lossy c.1 :: cs.1, cs.2)
  end.

Definition decode_entry_body (body : bytes) : result KeytabError KeytabEntry :=
  num ← take_bytes 2 body;
  realm ← read_counted_string num.2;
  components ← read_components (Z.to_nat (be_val num.1)) realm.2;
  name_type ← take_bytes 4 components.2;
  timestamp ← take_bytes 4 name_type.2;
  vno8 ← take_bytes 1 timestamp.2;
  etype ← take_bytes 2 vno8.2;
  enctype ← ok_or (UnsupportedEnctype (be_val etype.1)) (try_from (be_val etype.1));
  key ← read_counted_string etype.2;
  kvno ← (if 4 <=? zlen key.2 then b ← take_bytes 4 key.2; Ok (be_val b.1) else Ok (be_val vno8.1));
  Ok (mkKeytabEntry (utf8_lossy realm.1) components.1 (as_i32 (be_val name_type.1)) (be_val timestamp.1) kvno enctype key.1).

(** The loop of [read], at most [n] turns.  [-len] of the least [i32] wraps, so
    that hole asks for a vector of [2^64 - 2^31] bytes, which panics: the outer
    [None]. *)
Fixpoint read_entries (n : nat) (r : bytes) : option (result KeytabError (list KeytabEntry)) :=
  match n with
  | O => Some (Ok [])
  | S n' =>
      match read_exact 4 r with
      | None => Some (Ok [])
      | Some (len_buf, r) =>
          let len := as_i32 (be_val len_buf) in
          if len =? - 2 ^ 31 then None
          else if len <? 0 then
            match read_exact (- len) r with None => Some (Err KeytabIo) | Some (_, r) => read_entries n' r end
          else
            match read_exact len r with
            | None => Some (Err KeytabIo)
            | Some (body, r) =>
                match decode_entry_body body with
                | Err e => Some (Err e)
                | Ok entry => option_map (fmap (cons entry)) (read_entries n' r)
                end
            end
      end
  end.

Definition read (r : bytes) : option (result KeytabError (list KeytabEntry)) :=
  match read_exact 2 r with
  | None => Some (Err KeytabIo)
  | Some (magic, rest) =>
      match magic with
      | [m0; m1] =>
          if negb (m0 =? 0x05) then Some (Err BadMagic)
          else if negb (m1 =? 0x02) then Some (Err (UnsupportedVersion m1))
          else read_entries (S (length rest)) rest
      | _ => Some (Err KeytabIo)
      end
  end.

(** ** Round trip *)

Record entry_ok (e : KeytabEntry) : Prop := {
  ok_realm : str_ok (kt_realm e) /\ zlen (utf8_encode (kt_realm e)) < 2 ^ 16;
  ok_components : Forall (fun c => str_ok c /\ zlen (utf8_encode c) < 2 ^ 16) (kt_components e);
  ok_count : zlen (kt_components e) < 2 ^ 16;
  ok_name_type : - 2 ^ 31 <= kt_name_type e < 2 ^ 31;
  ok_timestamp : in_u32 (kt_timestamp e);
  ok_kvno : in_u32 (kt_kvno e);
  ok_key : zlen (kt_key e) < 2 ^ 16;
  ok_len : zlen (encode_entry_body e) < 2 ^ 31;
}.

Lemma take_bytes_app n (a b : bytes) : n = zlen a -> take_bytes n (a ++ b) = Ok (a, b).
Proof. intros ->. unfold take_bytes. by rewrite read_exact_app. Qed.

Lemma read_counted_app s rest : zlen s < 2 ^ 16 -> read_counted_string (write_counted_string s ++ rest) = Ok (s, rest).
Proof.
  intros Hs. pose proof (zlen_nonneg s). unfold read_counted_string, write_counted_string, as_u16.
  rewrite Z.mod_small by lia. rewrite <- app_assoc, take_bytes_app by (by rewrite zlen_be_bytes).
  cbn [mbind result_bind fst snd]. rewrite be_roundtrip by (change (256 ^ Z.of_nat 2) with (2 ^ 16); lia).
  by rewrite take_bytes_app.
Qed.

Lemma read_components_app cs rest :
  Forall (fun c => str_ok c /\ zlen (utf8_encode c) < 2 ^ 16) cs ->
  read_components (length cs) (concat (List.map (fun c => write_counted_string (utf8_encode c)) cs) ++ rest) = Ok (cs, rest).
Proof.
  induction 1 as [|c cs [Hc Hl] _ IH]; [done|]. cbn [length read_components List.map concat].
  rewrite <- app_assoc, read_counted_app by done. cbn [mbind result_bind fst snd]. rewrite IH. cbn [mbind result_bind fst snd].
  by rewrite utf8_lossy_encode.
Qed.

Lemma as_i32_as_u32 z : - 2 ^ 31 <= z < 2 ^ 31 -> as_i32 (as_u32 z) = z.
Proof.
  intros Hz. unfold as_i32, as_u32. destruct (Z.ltb_spec (z mod 2 ^ 32) (2 ^ 31)); zlia.
Qed.

Lemma decode_encode_entry e : entry_ok e -> decode_entry_body (encode_entry_body e) = Ok e.
Proof.
  intros [[Hr Hrl] Hcs Hcn Hnt Hts Hkv Hk _]. unfold decode_entry_body, encode_entry_body.
  pose proof (zlen_nonneg (kt_components e)). unfold in_u32 in *.
  assert (forall z, as_u32 z = z mod 2 ^ 32) as Hu by done.
  rewrite take_bytes_app by (by rewrite zlen_be_bytes). cbn [mbind result_bind fst snd].
  rewrite read_counted_app by done. cbn [mbind result_bind fst snd].
  unfold as_u16 at 1. rewrite (Z.mod_small (zlen _)) by lia.
  rewrite be_roundtrip by (change (256 ^ Z.of_nat 2) with (2 ^ 16); lia).
  assert (Z.to_nat (zlen (kt_components e)) = length (kt_components e)) as -> by (unfold zlen; lia).
  rewrite read_components_app by done. cbn [mbind result_bind fst snd].
  do 2 (rewrite take_bytes_app by (by rewrite zlen_be_bytes); cbn [mbind result_bind fst snd]).
  rewrite take_bytes_app by done. cbn [mbind result_bind fst snd].
  rewrite take_bytes_app by (by rewrite zlen_be_bytes). cbn [mbind result_bind fst snd].
  assert (be_val (be_bytes 2 (as_u16 (etype_number (kt_enctype e)))) = etype_number (kt_enctype e)) as -> by (by destruct (kt_enctype e)).
  assert (try_from (etype_number (kt_enctype e)) = Some (kt_enctype e)) as -> by (by destruct (kt_enctype e)).
  cbn [ok_or mbind result_bind]. rewrite read_counted_app by done. cbn [mbind result_bind fst snd].
  rewrite zlen_be_bytes. change (4 <=? Z.of_nat 4) with true. cbn iota.
  rewrite <- (app_nil_r (be_bytes 4 (kt_kvno e))), take_bytes_app by (by rewrite zlen_be_bytes).
  cbn [mbind result_bind fst snd].
  rewrite !be_roundtrip by (try (rewrite Hu); change (256 ^ Z.of_nat 4) with (2 ^ 32); zlia).
  rewrite as_i32_as_u32, utf8_lossy_encode by done. by destruct e.
Qed.

Lemma read_entries_write entries n :
  Forall entry_ok entries -> (length entries < n)%nat ->
  read_entries n (concat (List.map (fun e =>
    let body := encode_entry_body e in be_bytes 4 (as_u32 (zlen body)) ++ body) entries)) = Some (Ok entries).
Proof.
  intros Hok. revert n. induction Hok as [|e entries He Hok IH]; intros [|n] Hn; cbn [length] in Hn; [lia|done|lia|].
  cbn [List.map concat read_entries]. pose proof (ok_len e He) as Hl. pose proof (zlen_nonneg (encode_entry_body e)).
  rewrite <- !app_assoc, read_exact_app by (by rewrite zlen_be_bytes).
  unfold as_u32. rewrite Z.mod_small by lia. rewrite be_roundtrip by (change (256 ^ Z.of_nat 4) with (2 ^ 32); lia).
  unfold as_i32. rewrite (proj2 (Z.ltb_lt _ _)) by lia. rewrite (proj2 (Z.eqb_neq _ _)) by lia.
  rewrite (proj2 (Z.ltb_ge _ _)) by lia. rewrite read_exact_app by done. rewrite decode_encode_entry by done.
  rewrite IH by lia. done.
Qed.

(** Reading a keytab that was written gives back its entries, whatever
    principals, enctypes and key versions they have. *)
Theorem keytab_roundtrip entries : Forall entry_ok entries -> read (write entries) = Some (Ok entries).
Proof.
  intros Hok. unfold read, write. rewrite read_exact_app by done. cbn [Z.eqb Pos.eqb negb].
  apply read_entries_write; [done|]. rewrite Nat.lt_succ_r. clear Hok. induction entries as [|e entries IH]; [done|].
  cbn [List.map concat length]. rewrite !length_app.
  pose proof (zlen_be_bytes 4 (as_u32 (zlen (encode_entry_body e)))) as H4. unfold zlen at 1 in H4. lia.
Qed.

Definition ex_keytab : list KeytabEntry :=
  [mkKeytabEntry (str "IRON.LO") [str "host"; str "il1.g8.lo"] 2 1700000000 1 Aes256CtsHmacSha384_192 (replicate 32 66);
   mkKeytabEntry (str "IRON.LO") [str "ldap"; str "il2.g8.lo"] (-2) 1700000000 300 Aes128CtsHmacSha1_96 (replicate 16 7)].

Lemma keytab_roundtrip_witness : read (write ex_keytab) = Some (Ok ex_keytab).
Proof.
  apply keytab_roundtrip. repeat constructor; try apply str_ok_str; vm_compute; try reflexivity; discriminate.
Defined.

(** The hole of the least length cannot be skipped. *)
Lemma keytab_hole_panics : read ([0x05; 0x02] ++ [0x80; 0; 0; 0]) = None.
Proof. reflexivity. Qed.
