(* ===== verification/Krb.v ===== *)
(** Kerberos messages and the helpers of [crates/kdc/src/lib.rs], [time.rs] and
    [krberror.rs].  The message types are those of the [rasn-kerberos] crate,
    with the fields the program uses; their DER encoding is the class
    [KrbCodec]. *)

From S2P Require Import Prelude Bytes Str Btree Utf8 Decimal Dn Partition Key Registry Entry Etcd Index Ridpool Store.
From S2P Require Import Nfold Kerberos Password Principal.

(** ** Messages *)

(** [GeneralString], [KerberosString] and [Realm]: bytes of a permitted set. *)
Abbreviation GeneralString := (list Z) (only parsing).
Abbreviation Realm := (list Z) (only parsing).

(** [KerberosTime]: nanoseconds since 1970. *)
Abbreviation KerberosTime := Z (only parsing).

Record PrincipalName := mkPrincipalName { pn_type : Z; pn_string : list GeneralString }.
Record EncryptedData := mkEncryptedData { ed_etype : Z; ed_kvno : option Z; ed_cipher : bytes }.
Record EncryptionKey := mkEncryptionKey { ek_type : Z; ek_value : bytes }.
Record AuthorizationDataValue := mkAuthData { ad_type : Z; ad_data : bytes }.
Record Checksum := mkChecksum { cksum_type : Z; cksum_bytes : bytes }.
Record PaData := mkPaData { pa_type : Z; pa_value : bytes }.

Record Ticket := mkTicket {
  tkt_realm : Realm;
  tkt_sname : PrincipalName;
  tkt_enc_part : EncryptedData;
}.

(** [transited] is always of type 0 and empty; start and renewal times and
    addresses are never set. *)
Record EncTicketPart := mkEncTicketPart {
  etp_flags : list bool;
  etp_key : EncryptionKey;
  etp_crealm : Realm;
  etp_cname : PrincipalName;
  etp_auth_time : KerberosTime;
  etp_end_time : KerberosTime;
  etp_authorization_data : option (list AuthorizationDataValue);
}.

Record ApReq := mkApReq { ap_ticket : Ticket; ap_authenticator : EncryptedData }.

Record Authenticator := mkAuthenticator {
  auth_crealm : Realm;
  auth_cname : PrincipalName;
  auth_cksum : option Checksum;
  auth_cusec : Z;
  auth_ctime : KerberosTime;
  auth_subkey : option EncryptionKey;
}.

Record EncApRepPart := mkEncApRepPart { earp_ctime : KerberosTime; earp_cusec : Z; earp_seq_number : option Z }.
Record ApRep := mkApRep { ap_rep_enc_part : EncryptedData }.
Record PaEncTsEnc := mkPaEncTsEnc { patimestamp : KerberosTime }.
Record EtypeInfo2Entry := mkEtypeInfo2 { ei_etype : Z; ei_salt : option GeneralString }.

Record KdcReqBody := mkReqBody {
  rb_cname : option PrincipalName;
  rb_realm : Realm;
  rb_sname : option PrincipalName;
  rb_nonce : Z;
  rb_etype : list Z;
}.
Record KdcReq := mkKdcReq { padata : option (list PaData); req_body : KdcReqBody }.

(** The encrypted part of a reply; what is never set is left out. *)
Record EncKdcRepPart := mkEncKdcRepPart {
  erp_key : EncryptionKey;
  erp_nonce : Z;
  erp_flags : list bool;
  erp_auth_time : KerberosTime;
  erp_end_time : KerberosTime;
  erp_srealm : Realm;
  erp_sname : PrincipalName;
}.
Record EncAsRepPart := mkEncAsRepPart { as_rep_part : EncKdcRepPart }.
Record EncTgsRepPart := mkEncTgsRepPart { tgs_rep_part : EncKdcRepPart }.

Record KdcRep := mkKdcRep {
  rep_crealm : Realm;
  rep_cname : PrincipalName;
  rep_ticket : Ticket;
  rep_enc_part : EncryptedData;
}.

Record KrbError := mkKrbError {
  ke_stime : KerberosTime;
  ke_susec : Z;
  ke_code : Z;
  ke_realm : GeneralString;
  ke_sname : PrincipalName;
  ke_text : option GeneralString;
  ke_data : option bytes;
}.

#[global] Instance PrincipalName_eq_dec : EqDecision PrincipalName.
Proof. solve_decision. Defined.

(** DER as [rasn] implements it for one type. *)
Class Der (A : Type) := { der_encode : A -> option bytes; der_decode : bytes -> option A }.

Class KrbCodec := {
  #[global] der_ap_req :: Der ApReq;
  #[global] der_enc_ticket :: Der EncTicketPart;
  #[global] der_authenticator :: Der Authenticator;
  #[global] der_enc_ap_rep :: Der EncApRepPart;
  #[global] der_ap_rep :: Der ApRep;
  #[global] der_pa_enc_ts :: Der PaEncTsEnc;
  #[global] der_encrypted_data :: Der EncryptedData;
  #[global] der_etype_info2 :: Der (list EtypeInfo2Entry);
  #[global] der_method_data :: Der (list PaData);
  #[global] der_auth_data :: Der (list AuthorizationDataValue);
  #[global] der_as_rep_part :: Der EncAsRepPart;
  #[global] der_tgs_rep_part :: Der EncTgsRepPart;
  (** [TicketFlags::reserved()]. *)
  reserved_flags : list bool;
}.

(** What was encoded decodes to itself. *)
Class DerLaw (A : Type) `{!Der A} := {
  der_roundtrip (a : A) b : der_encode a = Some b -> der_decode b = Some a;
}.

(** Names in a decoded ticket are strings of bytes. *)
Definition name_bytes (n : PrincipalName) : bool := forallb (fun s => bool_decide (bytes_ok s)) (pn_string n).
Class TicketNames `{!KrbCodec} := {
  ticket_names b t : der_decode b = Some t -> name_bytes (etp_cname t) = true /\ bytes_ok (etp_crealm t);
}.

(** ** Time *)

Definition NANOS : Z := 1000000000.

(** [now()] from a reading of the clock: whole seconds, and microseconds. *)
Definition whole_seconds (t : Z) : KerberosTime := t / NANOS * NANOS.
Definition now_of (t : Z) : KerberosTime * Z := (whole_seconds t, t mod NANOS / 1000).

(** [plus_seconds], from a reading of the clock. *)
Definition plus_seconds_of (t seconds : Z) : KerberosTime := whole_seconds (t + seconds * NANOS).

(** [(b - a).num_seconds()], which rounds towards zero. *)
Definition diff_seconds (a b : KerberosTime) : Z := Z.quot (b - a) NANOS.

Definition CLOCK_SKEW_SECS : Z := 300.
Definition TICKET_LIFETIME_SECS : Z := 10 * 3600.

(** ** Names *)

Definition gstring_to_string (gs : GeneralString) : rstring := utf8_lossy gs.
Definition realm_to_string (r : Realm) : rstring := gstring_to_string r.

(** The character set of [GeneralString]. *)
Definition permitted (b : byte) : bool := ((0 <=? b) && (b <=? 127)) || ((160 <=? b) && (b <=? 255)).

Definition string_to_gstring (s : rstring) : GeneralString :=
  List.map (fun b => if permitted b then b else ch "?") (utf8_encode s).

(** [GeneralString::from_bytes(..).ok()]. *)
Definition gstring_from_bytes (b : bytes) : option GeneralString := if forallb permitted b then Some b else None.

Definition string_to_principal_name (name : rstring) : PrincipalName :=
  let parts := List.map string_to_gstring (split_char c_slash name) in
  mkPrincipalName (if (1 <? length parts)%nat then 2 else 1) parts.

Definition principal_name_to_string (pn : PrincipalName) : rstring :=
  join [c_slash] (List.map gstring_to_string (pn_string pn)).

Definition krbtgt_principal_name (realm : rstring) : PrincipalName :=
  string_to_principal_name (str "krbtgt/" ++ realm).

Definition is_changepw (pn : PrincipalName) : bool :=
  eq_ignore_ascii_case (principal_name_to_string pn) (str "kadmin/changepw").

(** [format!("{}@{}", name, realm)]. *)
Definition fqn (name realm : rstring) : rstring := name ++ str "@" ++ realm.

(** [replace('/', ".")]. *)
Definition dotted (s : rstring) : rstring := List.map (fun c => if c =? c_slash then ch "." else c) s.

(** ** Flags and authorization data *)

Definition flag_INITIAL : nat := 9.
Definition flag_PRE_AUTHENT : nat := 10.

Definition ticket_flags (bits : list nat) : list bool :=
  foldl (fun b i => <[i := true]> b) (replicate 32 false) bits.

Definition has_flag (flags : list bool) (bit : nat) : bool := default false (flags !! bit).

Definition AD_WIN2K_PAC : Z := 128.
Definition IF_RELEVANT : Z := 1.

Definition wrap_pac_authorization_data `{!KrbCodec} (pac_bytes : bytes) : option (list AuthorizationDataValue) :=
  inner_encoded ← der_encode [mkAuthData AD_WIN2K_PAC pac_bytes];
  Some [mkAuthData IF_RELEVANT inner_encoded].

(** ** Errors *)

Definition KDC_ERR_C_PRINCIPAL_UNKNOWN : Z := 6.
Definition KDC_ERR_S_PRINCIPAL_UNKNOWN : Z := 7.
Definition KDC_ERR_ETYPE_NOSUPP : Z := 14.
Definition KDC_ERR_PREAUTH_FAILED : Z := 24.
Definition KDC_ERR_PREAUTH_REQUIRED : Z := 25.
Definition KRB_AP_ERR_BAD_INTEGRITY : Z := 31.
Definition KRB_AP_ERR_TKT_EXPIRED : Z := 32.
Definition KRB_AP_ERR_BADMATCH : Z := 36.
Definition KRB_AP_ERR_SKEW : Z := 37.
Definition KRB_ERR_GENERIC : Z := 60.

(** [krberror::build] at the time [t]. *)
Definition krberror_build (t code : Z) (realm : rstring) (sname : PrincipalName) (e_text : option rstring)
    (e_data : option bytes) : KrbError :=
  let '(stime, susec) := now_of t in
  mkKrbError stime susec code (string_to_gstring realm) sname (string_to_gstring <$> e_text) e_data.

Definition encode_method_data `{!KrbCodec} (method_data : list PaData) : option bytes := der_encode method_data.

Inductive KdcResponse :=
| AsRep (r : KdcRep)
| TgsRep (r : KdcRep)
| KdcError (e : KrbError).

(** How a handler stops before its end: with a response, or with a panic. *)
Inductive stop (R : Type) := Panic | Return (r : R).
Arguments Panic {R}.
Arguments Return {R} r.

(** [return krberror::build(..).into()]. *)
Definition fail {A} (code : Z) (realm : rstring) (sname : PrincipalName) (text : rstring) : prog (result (stop KdcResponse) A) :=
  Call Now (fun t => Ret (Err (Return (KdcError (krberror_build t code realm sname (Some text) None))))).

(** The value or an early return. *)
Definition or_fail {A} (o : option A) (f : prog (result (stop KdcResponse) A)) : prog (result (stop KdcResponse) A) :=
  match o with Some a => Ret (Ok a) | None => f end.

(** A reading of the clock. *)
Definition read_clock {E} : prog (result E Z) := Call Now (fun t => Ret (Ok t)).

(** [kerberos::random_bytes]. *)
Definition random_bytes (n : Z) : prog (result Error bytes) :=
  Call (Random (Z.to_nat n)) (fun b : option bytes => Ret (ok_or Ossl b)).

(** Reading the keys of an entry, which can panic. *)
Definition entry_keys {R} (entry : Entry) (f : PrincipalError -> prog (result (stop R) (list PrincipalKey)))
    : prog (result (stop R) (list PrincipalKey)) :=
  match Principal.keys entry with
  | None => Ret (Err Panic)
  | Some (Err e) => f e
  | Some (Ok ks) => Ret (Ok ks)
  end.

(** ** A concrete codec

    A plain serialisation of the message types.  It stands for no part of the
    program; it shows that the laws asked of the DER codec can be met and makes
    examples executable. *)
Class Ser (A : Type) := {
  ser : A -> list Z;
  unser : list Z -> option (A * list Z);
  unser_ser a rest : unser (ser a ++ rest) = Some (a, rest);
}.

#[program] Definition ser_Z : Ser Z := {|
  ser z := [z];
  unser l := match l with z :: rest => Some (z, rest) | [] => None end;
|}.
Next Obligation. done. Qed.

#[program] Definition ser_iso {A B} `{!Ser B} (f : A -> B) (g : B -> A) (Hg : forall a, g (f a) = a) : Ser A := {|
  ser a := ser (f a);
  unser l := r ← unser l; Some (g r.1, r.2);
|}.
Next Obligation. intros A B s f g Hg a rest. cbn zeta beta. rewrite (@unser_ser _ s). cbn. by rewrite Hg. Qed.

#[program] Definition ser_pair {A B} `{!Ser A, !Ser B} : Ser (A * B) := {|
  ser p := ser p.1 ++ ser p.2;
  unser l := a ← unser l; b ← unser a.2; Some ((a.1, b.1), b.2);
|}.
Next Obligation. intros A B ? ? [a b] rest. cbn. rewrite <- app_assoc, unser_ser. cbn. by rewrite unser_ser. Qed.

Fixpoint unser_n {A} `{!Ser A} (n : nat) (l : list Z) : option (list A * list Z) :=
  match n with
  | O => Some ([], l)
  | S n' => a ← unser l; xs ← unser_n n' a.2; Some (a.1 :: xs.1, xs.2)
  end.

#[program] Definition ser_list {A} `{!Ser A} : Ser (list A) := {|
  ser xs := Z.of_nat (length xs) :: concat (List.map ser xs);
  unser l := match l with n :: rest => unser_n (Z.to_nat n) rest | [] => None end;
|}.
Next Obligation.
  intros A ? xs rest. cbn [app]. rewrite Nat2Z.id. induction xs as [|x xs IH]; [done|].
  cbn [length unser_n List.map concat]. rewrite <- app_assoc, unser_ser. cbn. by rewrite IH.
Qed.

Definition ser_option {A} `{!Ser A} : Ser (option A) :=
  @ser_iso _ _ ser_list (fun o => match o with Some a => [a] | None => [] end) head ltac:(by intros []).
Definition ser_bool : Ser bool := @ser_iso _ _ ser_Z (fun b : bool => if b then 1 else 0) (Z.eqb 1) ltac:(by intros []).

Definition plain_der {A} (s : Ser A) : Der A := {|
  der_encode a := Some (ser a);
  der_decode b := match unser b with Some (a, []) => Some a | _ => None end;
|}.

Lemma plain_der_law {A} (s : Ser A) : @DerLaw A (plain_der s).
Proof. split. intros a b [= <-]. cbn. by rewrite <- (app_nil_r (ser a)), unser_ser. Qed.

(** The same for the values with a property. *)
Definition checked_der {A} (ok : A -> bool) (s : Ser A) : Der A := {|
  der_encode a := if ok a then Some (ser a) else None;
  der_decode b := match unser b with Some (a, []) => if ok a then Some a else None | _ => None end;
|}.

Lemma checked_der_law {A} ok (s : Ser A) : @DerLaw A (checked_der ok s).
Proof.
  split. intros a b. cbn. destruct (ok a) eqn:Hok; [|done]. intros [= <-].
  by rewrite <- (app_nil_r (ser a)), unser_ser, Hok.
Qed.

Lemma checked_der_ok {A} ok (s : Ser A) b a : @der_decode A (checked_der ok s) b = Some a -> ok a = true.
Proof. cbn. destruct (unser b) as [[x [|? ?]]|]; [|done..]. destruct (ok x) eqn:Hx; [|done]. by intros [= <-]. Qed.

Module PlainCodec.
#[local] Existing Instance ser_Z.
#[local] Existing Instance ser_pair.
#[local] Existing Instance ser_list.
#[local] Existing Instance ser_option.
#[local] Existing Instance ser_bool.

#[local] Instance ser_name : Ser PrincipalName :=
  ser_iso (fun p => (pn_type p, pn_string p)) (fun x => mkPrincipalName x.1 x.2) ltac:(by intros []).
#[local] Instance ser_ed : Ser EncryptedData :=
  ser_iso (fun p => (ed_etype p, ed_kvno p, ed_cipher p)) (fun x => mkEncryptedData x.1.1 x.1.2 x.2) ltac:(by intros []).
#[local] Instance ser_key : Ser EncryptionKey :=
  ser_iso (fun p => (ek_type p, ek_value p)) (fun x => mkEncryptionKey x.1 x.2) ltac:(by intros []).
#[local] Instance ser_ad : Ser AuthorizationDataValue :=
  ser_iso (fun p => (ad_type p, ad_data p)) (fun x => mkAuthData x.1 x.2) ltac:(by intros []).
#[local] Instance ser_cksum : Ser Checksum :=
  ser_iso (fun p => (cksum_type p, cksum_bytes p)) (fun x => mkChecksum x.1 x.2) ltac:(by intros []).
#[local] Instance ser_pa : Ser PaData :=
  ser_iso (fun p => (pa_type p, pa_value p)) (fun x => mkPaData x.1 x.2) ltac:(by intros []).
#[local] Instance ser_ticket : Ser Ticket :=
  ser_iso (fun p => (tkt_realm p, tkt_sname p, tkt_enc_part p)) (fun x => mkTicket x.1.1 x.1.2 x.2) ltac:(by intros []).
#[local] Instance ser_etp : Ser EncTicketPart :=
  ser_iso (fun p => (etp_flags p, etp_key p, etp_crealm p, etp_cname p, etp_auth_time p, etp_end_time p, etp_authorization_data p))
    (fun x => let '(a, b, c, d, e, f, g) := x in mkEncTicketPart a b c d e f g) ltac:(by intros []).
#[local] Instance ser_ap_req : Ser ApReq :=
  ser_iso (fun p => (ap_ticket p, ap_authenticator p)) (fun x => mkApReq x.1 x.2) ltac:(by intros []).
#[local] Instance ser_auth : Ser Authenticator :=
  ser_iso (fun p => (auth_crealm p, auth_cname p, auth_cksum p, auth_cusec p, auth_ctime p, auth_subkey p))
    (fun x => let '(a, b, c, d, e, f) := x in mkAuthenticator a b c d e f) ltac:(by intros []).
#[local] Instance ser_earp : Ser EncApRepPart :=
  ser_iso (fun p => (earp_ctime p, earp_cusec p, earp_seq_number p)) (fun x => mkEncApRepPart x.1.1 x.1.2 x.2) ltac:(by intros []).
#[local] Instance ser_ap_rep : Ser ApRep := ser_iso ap_rep_enc_part mkApRep ltac:(by intros []).
#[local] Instance ser_ts : Ser PaEncTsEnc := ser_iso patimestamp mkPaEncTsEnc ltac:(by intros []).
#[local] Instance ser_ei : Ser EtypeInfo2Entry :=
  ser_iso (fun p => (ei_etype p, ei_salt p)) (fun x => mkEtypeInfo2 x.1 x.2) ltac:(by intros []).
#[local] Instance ser_erp : Ser EncKdcRepPart :=
  ser_iso (fun p => (erp_key p, erp_nonce p, erp_flags p, erp_auth_time p, erp_end_time p, erp_srealm p, erp_sname p))
    (fun x => let '(a, b, c, d, e, f, g) := x in mkEncKdcRepPart a b c d e f g) ltac:(by intros []).
#[local] Instance ser_as : Ser EncAsRepPart := ser_iso as_rep_part mkEncAsRepPart ltac:(by intros []).
#[local] Instance ser_tgs : Ser EncTgsRepPart := ser_iso tgs_rep_part mkEncTgsRepPart ltac:(by intros []).

#[local] Instance ser_body : Ser KdcReqBody :=
  ser_iso (fun p => (rb_cname p, rb_realm p, rb_sname p, rb_nonce p, rb_etype p))
    (fun x => let '(a, b, c, d, e) := x in mkReqBody a b c d e) ltac:(by intros []).
Definition ser_req : Ser KdcReq :=
  ser_iso (fun p => (padata p, req_body p)) (fun x => mkKdcReq x.1 x.2) ltac:(by intros []).
Definition ser_rep : Ser KdcRep :=
  ser_iso (fun p => (rep_crealm p, rep_cname p, rep_ticket p, rep_enc_part p))
    (fun x => let '(a, b, c, d) := x in mkKdcRep a b c d) ltac:(by intros []).
Definition ser_error : Ser KrbError :=
  ser_iso (fun p => (ke_stime p, ke_susec p, ke_code p, ke_realm p, ke_sname p, ke_text p, ke_data p))
    (fun x => let '(a, b, c, d, e, f, g) := x in mkKrbError a b c d e f g) ltac:(by intros []).

Definition plain_codec : KrbCodec := {|
  der_ap_req := plain_der ser_ap_req;
  der_enc_ticket := checked_der (fun t => name_bytes (etp_cname t) && bool_decide (bytes_ok (etp_crealm t))) ser_etp;
  der_authenticator := plain_der ser_auth;
  der_enc_ap_rep := plain_der ser_earp;
  der_ap_rep := plain_der ser_ap_rep;
  der_pa_enc_ts := plain_der ser_ts;
  der_encrypted_data := plain_der ser_ed;
  der_etype_info2 := plain_der ser_list;
  der_method_data := plain_der ser_list;
  der_auth_data := plain_der ser_list;
  der_as_rep_part := plain_der ser_as;
  der_tgs_rep_part := plain_der ser_tgs;
  reserved_flags := replicate 32 false;
|}.

#[local] Existing Instance plain_codec.

Lemma plain_enc_ticket_law : DerLaw EncTicketPart.
Proof. apply checked_der_law. Qed.
Lemma plain_ticket_names : TicketNames.
Proof. split. intros b t [? ?%bool_decide_eq_true]%checked_der_ok%andb_true_iff. done. Qed.
Lemma plain_as_rep_law : DerLaw EncAsRepPart.
Proof. apply plain_der_law. Qed.
Lemma plain_tgs_rep_law : DerLaw EncTgsRepPart.
Proof. apply plain_der_law. Qed.
End PlainCodec.
