(* ===== verification/Ndr.v ===== *)
(** NDR reading and writing, [crates/rpc/src/ndr.rs], and the syntax
    identifiers of [crates/rpc/src/uuid.rs]. *)

From S2P Require Import Prelude Bytes Str Utf8 Sid Md4.

(** ** Writer *)

Record NdrWriter := mkWriter { buf : bytes; next_referent_id : Z }.

Definition FIRST_REFERENT_ID : Z := 131072.

Definition w_new : NdrWriter := mkWriter [] FIRST_REFERENT_ID.

Definition w_bytes (b : bytes) (w : NdrWriter) : NdrWriter := mkWriter (buf w ++ b) (next_referent_id w).
Definition w_u8 (v : Z) (w : NdrWriter) : NdrWriter := w_bytes [v] w.
Definition w_u16 (v : Z) (w : NdrWriter) : NdrWriter := w_bytes (le_bytes 2 v) w.
Definition w_u32 (v : Z) (w : NdrWriter) : NdrWriter := w_bytes (le_bytes 4 v) w.
Definition w_u64 (v : Z) (w : NdrWriter) : NdrWriter := w_bytes (le_bytes 8 v) w.

(** At most three zeros are needed. *)
Fixpoint w_pad_loop (fuel : nat) (w : NdrWriter) : NdrWriter :=
  match fuel with
  | O => w
  | S fuel' => if zlen (buf w) mod 4 =? 0 then w else w_pad_loop fuel' (w_bytes [0] w)
  end.
Definition w_pad_to_4 : NdrWriter -> NdrWriter := w_pad_loop 3.

Definition w_referent_id (w : NdrWriter) : NdrWriter :=
  let id := next_referent_id w in
  w_u32 id (mkWriter (buf w) (as_u32 (id + 4))).

Definition w_null_ptr : NdrWriter -> NdrWriter := w_u32 0.

(** The writer, and the string to defer if the pointer is not null. *)
Definition w_unicode_string_header (s : option rstring) (w : NdrWriter) : option rstring * NdrWriter :=
  match s with
  | Some ((_ :: _) as s) =>
      let len := as_u16 (zlen (encode_utf16 s) * 2) in
      (Some s, w_referent_id (w_u16 len (w_u16 len w)))
  | _ => (None, w_null_ptr (w_u16 0 (w_u16 0 w)))
  end.

Definition w_embedded_wstr (s : rstring) (w : NdrWriter) : NdrWriter :=
  let units := encode_utf16 s in
  let w := w_u32 (as_u32 (zlen units)) w in
  let w := w_u32 0 w in
  let w := w_u32 (as_u32 (zlen units)) w in
  foldl (fun w u => w_u16 u w) w units.

Definition w_unicode_string_deferred (s : rstring) (w : NdrWriter) : NdrWriter :=
  w_pad_to_4 (w_embedded_wstr s w).

Definition w_sid_deferred (sid : Sid) (w : NdrWriter) : NdrWriter :=
  w_bytes (Sid.encode sid) (w_u32 (as_u32 (zlen (sub_authorities sid))) w).

Definition w_handle (h : bytes) : NdrWriter -> NdrWriter := w_bytes h.

(** ** Reader *)

Inductive NdrError :=
| NdrTruncated (need have : Z)
| BadSid
| BadString.

Record NdrReader := mkReader { rbuf : bytes; rpos : Z }.

Definition r_new (b : bytes) : NdrReader := mkReader b 0.

(** A read: its value and the advanced reader, or an error. *)
Definition rd (A : Type) : Type := NdrReader -> result NdrError (A * NdrReader).

Definition rd_ret {A} (a : A) : rd A := fun r => Ok (a, r).
Definition rd_bind {A B} (m : rd A) (f : A -> rd B) : rd B := fun r => '(a, r') ← m r; f a r'.

Declare Scope rd_scope.
Delimit Scope rd_scope with rd.
Notation "x <-r m ;; k" := (rd_bind m (fun x => k))
  (at level 100, m at next level, right associativity) : rd_scope.
Open Scope rd_scope.

Definition remaining (r : NdrReader) : Z := Z.max 0 (zlen (rbuf r) - rpos r).

(** [need(n)?] and the advance over [n] bytes. *)
Definition r_bytes (n : Z) : rd bytes := fun r =>
  if zlen (rbuf r) <? rpos r + n then Err (NdrTruncated n (remaining r))
  else Ok (ztake n (zdrop (rpos r) (rbuf r)), mkReader (rbuf r) (rpos r + n)).

Definition r_u8 : rd Z := b <-r r_bytes 1 ;; rd_ret (le_val b).
Definition r_u16 : rd Z := b <-r r_bytes 2 ;; rd_ret (le_val b).
Definition r_u32 : rd Z := b <-r r_bytes 4 ;; rd_ret (le_val b).
Definition r_u64 : rd Z := b <-r r_bytes 8 ;; rd_ret (le_val b).

Fixpoint r_pad_loop (fuel : nat) (r : NdrReader) : NdrReader :=
  match fuel with
  | O => r
  | S fuel' =>
      if negb (rpos r mod 4 =? 0) && (rpos r <? zlen (rbuf r)) then r_pad_loop fuel' (mkReader (rbuf r) (rpos r + 1))
      else r
  end.
Definition r_pad_to_4 : rd unit := fun r => Ok (tt, r_pad_loop 3 r).

Definition r_unicode_string_header : rd (Z * Z) :=
  length <-r r_u16 ;;
  _ <-r r_u16 ;;
  referent <-r r_u32 ;;
  rd_ret (length, referent).

Fixpoint r_repeat {A} (n : nat) (m : rd A) : rd (list A) :=
  match n with
  | O => rd_ret []
  | S n' => a <-r m ;; l <-r r_repeat n' m ;; rd_ret (a :: l)
  end.

(** [String::from_utf16]: unpaired surrogates are refused. *)
Fixpoint from_utf16 (l : list Z) : option rstring :=
  match l with
  | [] => Some []
  | u :: l' =>
      if (u <? 55296) || (57344 <=? u) then cons u <$> from_utf16 l'
      else if 56320 <=? u then None
      else
        match l' with
        | v :: l'' =>
            if (56320 <=? v) && (v <? 57344)
            then cons (65536 + (u - 55296) * 1024 + (v - 56320)) <$> from_utf16 l''
            else None
        | [] => None
        end
  end.

Definition r_unicode_string_deferred : rd rstring :=
  max_count <-r r_u32 ;;
  _ <-r r_u32 ;;
  actual_count <-r r_u32 ;;
  units <-r r_repeat (Z.to_nat actual_count) r_u16 ;;
  _ <-r (if actual_count <? max_count then r_bytes ((max_count - actual_count) * 2) else rd_ret []) ;;
  fun r => match from_utf16 units with Some s => Ok (s, r) | None => Err BadString end.

Definition r_embedded_wstr : rd rstring := r_unicode_string_deferred.

Definition r_sid_deferred : rd Sid :=
  count <-r r_u32 ;;
  flat <-r r_bytes (8 + 4 * count) ;;
  fun r => match Sid.decode flat with Some s => Ok (s, r) | None => Err BadSid end.

Definition r_handle : rd bytes := r_bytes 20.

(** ** Syntax identifiers *)

Definition hex_nibble (c : Z) : Z :=
  if (48 <=? c) && (c <=? 57) then c - 48
  else if (97 <=? c) && (c <=? 102) then c - 97 + 10
  else if (65 <=? c) && (c <=? 70) then c - 65 + 10
  else 0.

Definition hex_byte (b : bytes) (hi : nat) : Z :=
  Z.lor (as_u8 (Z.shiftl (hex_nibble (default 0 (b !! hi))) 4)) (hex_nibble (default 0 (b !! S hi))).

Definition uuid_wire (b : bytes) : bytes :=
  let d1 := map (hex_byte b) [0; 2; 4; 6]%nat in
  let d2 := map (hex_byte b) [9; 11]%nat in
  let d3 := map (hex_byte b) [14; 16]%nat in
  let d4 := map (hex_byte b) [19; 21; 24; 26; 28; 30; 32; 34]%nat in
  rev d1 ++ rev d2 ++ rev d3 ++ d4.

Definition syntax_id (uuid : rstring) (major minor : Z) : bytes :=
  uuid_wire uuid ++ le_bytes 2 major ++ le_bytes 2 minor.

Definition ndr_transfer_syntax : bytes := syntax_id (str "8a885d04-1ceb-11c9-9fe8-08002b104860") 2 0.
Definition lsarpc_syntax : bytes := syntax_id (str "12345778-1234-abcd-ef00-0123456789ab") 0 0.
Definition samr_syntax : bytes := syntax_id (str "12345778-1234-abcd-ef00-0123456789ac") 1 0.
Definition netlogon_syntax : bytes := syntax_id (str "12345678-1234-abcd-ef00-01234567cffb") 1 0.

(** ** UTF-16 *)

Lemma from_utf16_encode s : str_ok s -> from_utf16 (encode_utf16 s) = Some s.
Proof.
  induction 1 as [|c s Hc _ IH]; [done|]. unfold encode_utf16 in *. cbn [map concat].
  unfold is_scalar in Hc. destruct (Z.ltb_spec c 65536) as [Hlt|Hge].
  - cbn [app from_utf16].
    replace ((c <? 55296) || (57344 <=? c)) with true by (symmetry; rewrite orb_true_iff, Z.ltb_lt, Z.leb_le; lia).
    by rewrite IH.
  - cbn [app from_utf16].
    assert (c = 65536 + (c - 65536) / 1024 * 1024 + (c - 65536) mod 1024) as Heq by zlia.
    assert (0 <= (c - 65536) / 1024 < 1024) as Hq by zlia. assert (0 <= (c - 65536) mod 1024 < 1024) as Hr by zlia.
    set (q := (c - 65536) / 1024) in *. set (r := (c - 65536) mod 1024) in *. clearbody q r.
    rewrite (proj2 (Z.ltb_ge (55296 + q) 55296)), (proj2 (Z.leb_gt 57344 (55296 + q))),
      (proj2 (Z.leb_gt 56320 (55296 + q))), (proj2 (Z.leb_le 56320 (56320 + r))),
      (proj2 (Z.ltb_lt (56320 + r) 57344)) by lia.
    cbn [orb andb]. rewrite IH. cbn [fmap option_fmap option_map]. f_equal. f_equal. lia.
Qed.

Lemma encode_utf16_units s : str_ok s -> Forall in_u16 (encode_utf16 s).
Proof.
  induction 1 as [|c s Hc _ IH]; [constructor|]. unfold encode_utf16 in *. cbn [map concat].
  apply Forall_app. split; [|done]. unfold is_scalar, in_u16 in *.
  destruct (Z.ltb_spec c 65536); repeat constructor; zlia.
Qed.

(** ** Reading back what was written *)

(** After [pre], the read [m] consumes exactly [enc] and gives [a], whatever
    follows. *)
Definition reads_at {A} (pre : bytes) (m : rd A) (enc : bytes) (a : A) : Prop :=
  forall rest, m (mkReader (pre ++ enc ++ rest) (zlen pre))
    = Ok (a, mkReader (pre ++ enc ++ rest) (zlen (pre ++ enc))).

Lemma reads_ret {A} pre (a : A) : reads_at pre (rd_ret a) [] a.
Proof. intros rest. unfold rd_ret. by rewrite app_nil_r. Qed.

Lemma reads_bind {A B} pre (m : rd A) (f : A -> rd B) e1 e2 a b :
  reads_at pre m e1 a -> reads_at (pre ++ e1) (f a) e2 b -> reads_at pre (rd_bind m f) (e1 ++ e2) b.
Proof.
  intros H1 H2 rest. unfold rd_bind. rewrite <- app_assoc. rewrite H1. cbn [mbind result_bind].
  specialize (H2 rest). rewrite <- !app_assoc in H2. exact H2.
Qed.

Lemma reads_bytes pre b n : n = zlen b -> reads_at pre (r_bytes n) b b.
Proof.
  intros -> rest. unfold r_bytes. cbn [rbuf rpos]. rewrite !zlen_app.
  pose proof (zlen_nonneg rest). rewrite (proj2 (Z.ltb_ge _ _)) by lia.
  rewrite zdrop_app_exact, ztake_app_exact by done. done.
Qed.

Lemma reads_int pre k v (m : rd Z) :
  m = (b <-r r_bytes (Z.of_nat k) ;; rd_ret (le_val b)) -> 0 <= v < 256 ^ Z.of_nat k ->
  reads_at pre m (le_bytes k v) v.
Proof.
  intros -> Hv. rewrite <- (app_nil_r (le_bytes k v)). eapply reads_bind.
  - apply reads_bytes. by rewrite zlen_le_bytes.
  - rewrite le_roundtrip by done. apply reads_ret.
Qed.

Lemma reads_u16 pre v : in_u16 v -> reads_at pre r_u16 (le_bytes 2 v) v.
Proof. intros Hv. by apply (reads_int pre 2). Qed.
Lemma reads_u32 pre v : in_u32 v -> reads_at pre r_u32 (le_bytes 4 v) v.
Proof. intros Hv. by apply (reads_int pre 4). Qed.

Lemma reads_units pre l :
  Forall in_u16 l -> reads_at pre (r_repeat (length l) r_u16) (concat (map (le_bytes 2) l)) l.
Proof.
  intros Hl. revert pre. induction Hl as [|u l Hu _ IH]; intros pre; [apply reads_ret|].
  cbn [length r_repeat map concat]. eapply reads_bind; [by apply reads_u16|].
  rewrite <- (app_nil_r (concat _)). eapply reads_bind; [apply IH|apply reads_ret].
Qed.

(** The octets of a conformant-and-varying string. *)
Definition wstr_enc (s : rstring) : bytes :=
  le_bytes 4 (zlen (encode_utf16 s)) ++ le_bytes 4 0 ++ le_bytes 4 (zlen (encode_utf16 s)) ++ utf16le s.

Lemma foldl_units l w :
  foldl (fun w u => w_u16 u w) w l = mkWriter (buf w ++ concat (map (le_bytes 2) l)) (next_referent_id w).
Proof.
  revert w. induction l as [|u l IH]; intros w; cbn [foldl map concat].
  - rewrite app_nil_r. by destruct w.
  - rewrite IH. unfold w_u16, w_bytes. cbn [buf next_referent_id]. by rewrite <- app_assoc.
Qed.

Lemma w_embedded_wstr_enc s w :
  zlen (encode_utf16 s) < 2 ^ 32 ->
  w_embedded_wstr s w = mkWriter (buf w ++ wstr_enc s) (next_referent_id w).
Proof.
  intros Hs. pose proof (zlen_nonneg (encode_utf16 s)). unfold w_embedded_wstr. rewrite foldl_units.
  unfold w_u32, w_bytes, wstr_enc, utf16le, as_u32. rewrite Z.mod_small by lia.
  cbn [buf next_referent_id]. by rewrite <- !app_assoc.
Qed.

Lemma reads_wstr pre s :
  str_ok s -> zlen (encode_utf16 s) < 2 ^ 32 -> reads_at pre r_unicode_string_deferred (wstr_enc s) s.
Proof.
  intros Hs Hl. pose proof (zlen_nonneg (encode_utf16 s)). unfold wstr_enc, r_unicode_string_deferred.
  set (n := zlen (encode_utf16 s)) in *. rewrite <- (app_nil_r (utf16le s)).
  do 3 (eapply reads_bind; [apply reads_u32; unfold in_u32; lia|]). eapply reads_bind.
  - unfold n, zlen. rewrite Nat2Z.id. by apply reads_units, encode_utf16_units.
  - rewrite <- (app_nil_r []). eapply reads_bind; [rewrite Z.ltb_irrefl; apply reads_ret|].
    intros rest. rewrite from_utf16_encode by done. by rewrite !app_nil_r.
Qed.

(** The octets of an [RPC_SID]. *)
Definition sid_enc (sid : Sid) : bytes := le_bytes 4 (zlen (sub_authorities sid)) ++ Sid.encode sid.

Lemma w_sid_deferred_enc sid w :
  zlen (sub_authorities sid) <= 255 ->
  w_sid_deferred sid w = mkWriter (buf w ++ sid_enc sid) (next_referent_id w).
Proof.
  intros Hs. pose proof (zlen_nonneg (sub_authorities sid)). unfold w_sid_deferred, w_u32, w_bytes, sid_enc, as_u32.
  rewrite Z.mod_small by lia. cbn [buf next_referent_id]. by rewrite <- app_assoc.
Qed.

Lemma reads_sid pre sid : sid_wire sid -> reads_at pre r_sid_deferred (sid_enc sid) sid.
Proof.
  intros Hs. pose proof (zlen_nonneg (sub_authorities sid)). destruct Hs as [Hok Ha Hc].
  unfold sid_enc, r_sid_deferred. eapply reads_bind; [apply reads_u32; unfold in_u32; lia|].
  rewrite <- (app_nil_r (Sid.encode sid)). eapply reads_bind; [apply reads_bytes; by rewrite Sid.zlen_encode|].
  intros rest. rewrite Sid.decode_encode by (by constructor). by rewrite app_nil_r.
Qed.

(** Padding: the writer's zeros are what the reader at the same offset skips. *)
Definition pad_enc (pre : bytes) : bytes := replicate (Z.to_nat ((- zlen pre) mod 4)) 0.

Lemma w_pad_loop_enc fuel w :
  (- zlen (buf w)) mod 4 <= Z.of_nat fuel ->
  w_pad_loop fuel w = mkWriter (buf w ++ pad_enc (buf w)) (next_referent_id w).
Proof.
  unfold pad_enc. revert w. induction fuel as [|fuel IH]; intros [b id] Hf; cbn [buf next_referent_id w_pad_loop] in *.
  - replace ((- zlen b) mod 4) with 0 by zlia. cbn. by rewrite app_nil_r.
  - destruct (Z.eqb_spec (zlen b mod 4) 0) as [He|Hne].
    + replace ((- zlen b) mod 4) with 0 by zlia. cbn. by rewrite app_nil_r.
    + unfold w_bytes. cbn [buf next_referent_id].
      assert ((- zlen (b ++ [0])) mod 4 = (- zlen b) mod 4 - 1) as Hs
        by (rewrite zlen_app; change (zlen [0]) with 1; zlia).
      rewrite IH by (cbn [buf]; rewrite Hs; lia). cbn [buf next_referent_id]. rewrite Hs, <- app_assoc.
      assert (0 < (- zlen b) mod 4) as Hp by zlia.
      replace (Z.to_nat ((- zlen b) mod 4)) with (S (Z.to_nat ((- zlen b) mod 4 - 1))) by lia. done.
Qed.

Lemma w_pad_enc w : w_pad_to_4 w = mkWriter (buf w ++ pad_enc (buf w)) (next_referent_id w).
Proof. apply w_pad_loop_enc. zlia. Qed.

Lemma r_pad_loop_enc fuel b p :
  (- p) mod 4 <= Z.of_nat fuel -> p + (- p) mod 4 <= zlen b ->
  r_pad_loop fuel (mkReader b p) = mkReader b (p + (- p) mod 4).
Proof.
  revert p. induction fuel as [|fuel IH]; intros p Hf Hb; cbn [r_pad_loop rpos rbuf].
  - f_equal. zlia.
  - destruct (Z.eqb_spec (p mod 4) 0) as [He|Hne]; cbn [negb andb]; [f_equal; zlia|].
    assert ((- (p + 1)) mod 4 = (- p) mod 4 - 1) as Hs by zlia. assert (0 < (- p) mod 4) by zlia.
    rewrite (proj2 (Z.ltb_lt _ _)) by lia. rewrite IH by lia. f_equal. lia.
Qed.

Lemma zlen_pad_enc pre : zlen (pad_enc pre) = (- zlen pre) mod 4.
Proof. unfold pad_enc, zlen at 1. rewrite length_replicate. zlia. Qed.

Lemma reads_pad pre : reads_at pre r_pad_to_4 (pad_enc pre) tt.
Proof.
  intros rest. unfold r_pad_to_4. pose proof (zlen_nonneg rest).
  rewrite r_pad_loop_enc; rewrite ?zlen_app, ?zlen_pad_enc; [done|zlia|lia].
Qed.

(** What the writer encodes the reader decodes, at any offset and
    whatever follows: strings of any characters (through UTF-16, surrogate
    pairs included) with their padding, and security identifiers. *)
Theorem ndr_roundtrip w s sid rest :
  str_ok s -> zlen (encode_utf16 s) < 2 ^ 32 -> sid_wire sid ->
  let w' := w_sid_deferred sid (w_unicode_string_deferred s w) in
  (s' <-r r_unicode_string_deferred ;; _ <-r r_pad_to_4 ;; sid' <-r r_sid_deferred ;; rd_ret (s', sid'))
    (mkReader (buf w' ++ rest) (zlen (buf w)))
  = Ok ((s, sid), mkReader (buf w' ++ rest) (zlen (buf w'))).
Proof.
  intros Hs Hl Hsid. cbn zeta. unfold w_unicode_string_deferred.
  rewrite w_embedded_wstr_enc by done. rewrite w_pad_enc, w_sid_deferred_enc by apply Hsid.
  cbn [buf next_referent_id].
  assert (reads_at (buf w) (s' <-r r_unicode_string_deferred ;; _ <-r r_pad_to_4 ;; sid' <-r r_sid_deferred ;;
    rd_ret (s', sid')) (wstr_enc s ++ pad_enc (buf w ++ wstr_enc s) ++ sid_enc sid ++ []) (s, sid)) as Hr.
  { eapply reads_bind; [by apply reads_wstr|]. eapply reads_bind; [apply reads_pad|].
    eapply reads_bind; [by apply reads_sid|apply reads_ret]. }
  specialize (Hr rest). rewrite app_nil_r in Hr. rewrite <- !app_assoc in *. exact Hr.
Qed.

Lemma ndr_roundtrip_witness :
  let w' := w_sid_deferred domain_sid_example (w_unicode_string_deferred [97; 128512; 99] (w_u16 7 w_new)) in
  (s' <-r r_unicode_string_deferred ;; _ <-r r_pad_to_4 ;; sid' <-r r_sid_deferred ;; rd_ret (s', sid'))
    (mkReader (buf w' ++ [9]) 2)
  = Ok (([97; 128512; 99], domain_sid_example), mkReader (buf w' ++ [9]) (zlen (buf w'))).
Proof.
  apply (ndr_roundtrip (w_u16 7 w_new) [97; 128512; 99] domain_sid_example [9]).
  - repeat (constructor; [unfold is_scalar; lia|]). constructor.
  - by vm_compute.
  - by apply sid_wireb_spec.
Defined.
