(* ===== verification/Pdu.v ===== *)
(** RPC PDU framing, [crates/rpc/src/pdu.rs]: the server's and the client's
    halves. *)

From S2P Require Import Prelude Bytes Str Nfold Ndr.

Definition PTYPE_REQUEST : Z := 0.
Definition PTYPE_RESPONSE : Z := 2.
Definition PTYPE_FAULT : Z := 3.
Definition PTYPE_BIND : Z := 11.
Definition PTYPE_BIND_ACK : Z := 12.

Definition PFC_FIRST_FRAG : Z := 1.
Definition PFC_LAST_FRAG : Z := 2.

Definition FAULT_NDR : Z := 0x6F7.
Definition FAULT_UNK_IF : Z := 0x1C010003.
Definition FAULT_OP_RNG_ERROR : Z := 0x1C010002.

Inductive PduError :=
| TooShort (len : Z)
| UnsupportedVersion (major minor : Z).

Record PduHeader := mkHeader { ptype : Z; flags : Z; call_id : Z }.

(** The header and the declared fragment length. *)
Definition parse_header (b : bytes) : result PduError (PduHeader * Z) :=
  if zlen b <? 16 then Err (TooShort (zlen b))
  else
    let ver_major := byte_at b 0 in
    let ver_minor := byte_at b 1 in
    if negb (ver_major =? 5) then Err (UnsupportedVersion ver_major ver_minor)
    else
      let frag_len := le_val [byte_at b 8; byte_at b 9] in
      let call_id := le_val [byte_at b 12; byte_at b 13; byte_at b 14; byte_at b 15] in
      Ok (mkHeader (byte_at b 2) (byte_at b 3) call_id, frag_len).

Definition common_header (ptype frag_len call_id : Z) : bytes :=
  [5; 0; ptype; Z.lor PFC_FIRST_FRAG PFC_LAST_FRAG] ++ le_bytes 4 16 ++ le_bytes 2 frag_len
  ++ le_bytes 2 0 ++ le_bytes 4 call_id.

(** A PDU from its type, call and body; the length field is 16 bits. *)
Definition build_pdu (ptype call_id : Z) (body : bytes) : bytes :=
  common_header ptype (as_u16 (16 + zlen body)) call_id ++ body.

Record CtxResult := mkCtxResult { ctx_result : Z; ctx_reason : Z }.
Definition accept : CtxResult := mkCtxResult 0 0.
Definition reject_abstract_syntax_not_supported : CtxResult := mkCtxResult 2 2.

Definition ctx_result_bytes (r : CtxResult) : bytes :=
  le_bytes 2 (ctx_result r) ++ le_bytes 2 (ctx_reason r) ++ ndr_transfer_syntax.

Definition build_bind_ack (call_id max_frag assoc_group : Z) (results : list CtxResult) : bytes :=
  let body := le_bytes 2 max_frag ++ le_bytes 2 max_frag ++ le_bytes 4 assoc_group ++ le_bytes 2 0 in
  let pad := (4 - zlen body mod 4) mod 4 in
  let body := body ++ replicate (Z.to_nat pad) 0 in
  let body := body ++ [as_u8 (zlen results); 0] ++ le_bytes 2 0 ++ concat (map ctx_result_bytes results) in
  build_pdu PTYPE_BIND_ACK call_id body.

Definition build_response (call_id ctx_id : Z) (stub_data : bytes) : bytes :=
  build_pdu PTYPE_RESPONSE call_id
    (le_bytes 4 (as_u32 (zlen stub_data)) ++ le_bytes 2 ctx_id ++ [0; 0] ++ stub_data).

Definition build_fault (call_id ctx_id status : Z) : bytes :=
  build_pdu PTYPE_FAULT call_id (le_bytes 4 4 ++ le_bytes 2 ctx_id ++ [0; 0] ++ le_bytes 4 status).

Record BindCtxItem := mkItem { item_ctx_id : Z; abstract_syntax : bytes }.

(** The loop over the context items, from position [pos]. *)
Fixpoint parse_items (n : nat) (body : bytes) (pos : nat) : option (list BindCtxItem) :=
  match n with
  | O => Some []
  | S n' =>
      if Nat.ltb (length body) (pos + 4) then None
      else
        let ctx_id := le_val [byte_at body pos; byte_at body (pos + 1)] in
        let trans_items := byte_at body (pos + 2) in
        let pos := (pos + 4)%nat in
        if negb (trans_items =? 1) || Nat.ltb (length body) (pos + 40) then None
        else
          let abstract_syntax := take 20 (drop pos body) in
          items ← parse_items n' body (pos + 40);
          Some (mkItem ctx_id abstract_syntax :: items)
  end.

Definition parse_bind_body (body : bytes) : option (list BindCtxItem) :=
  if zlen body <? 12 then None
  else parse_items (Z.to_nat (byte_at body 8)) body 12.

Record RequestBody := mkRequest { req_ctx_id : Z; opnum : Z; stub_data : bytes }.

Definition parse_request_body (body : bytes) : option RequestBody :=
  if zlen body <? 8 then None
  else
    let ctx_id := le_val [byte_at body 4; byte_at body 5] in
    let opnum := le_val [byte_at body 6; byte_at body 7] in
    Some (mkRequest ctx_id opnum (zdrop 8 body)).

Definition bind_item_bytes (it : BindCtxItem) : bytes :=
  le_bytes 2 (item_ctx_id it) ++ [1; 0] ++ abstract_syntax it ++ ndr_transfer_syntax.

Definition build_bind (call_id max_frag : Z) (ctx_items : list BindCtxItem) : bytes :=
  build_pdu PTYPE_BIND call_id
    (le_bytes 2 max_frag ++ le_bytes 2 max_frag ++ le_bytes 4 0
     ++ [as_u8 (zlen ctx_items); 0] ++ le_bytes 2 0 ++ concat (map bind_item_bytes ctx_items)).

Fixpoint results_accepted (n : nat) (body : bytes) (pos : nat) : option bool :=
  match n with
  | O => Some true
  | S n' =>
      if Nat.ltb (length body) (pos + 2) then None
      else if negb (le_val [byte_at body pos; byte_at body (pos + 1)] =? 0) then Some false
      else results_accepted n' body (pos + 24)
  end.

Definition parse_bind_ack_all_accepted (body : bytes) : option bool :=
  if zlen body <? 10 then None
  else
    let secondary_addr_len := le_val [byte_at body 8; byte_at body 9] in
    let pos := (10 + Z.to_nat secondary_addr_len)%nat in
    let pos := (pos + (4 - pos mod 4) mod 4)%nat in
    if Nat.ltb (length body) (pos + 4) then None
    else
      let ctx_num := Z.to_nat (byte_at body pos) in
      let pos := (pos + 4)%nat in
      if Nat.eqb ctx_num 0 then Some false else results_accepted ctx_num body pos.

Definition build_request (call_id ctx_id opnum : Z) (stub_data : bytes) : bytes :=
  build_pdu PTYPE_REQUEST call_id
    (le_bytes 4 (as_u32 (zlen stub_data)) ++ le_bytes 2 ctx_id ++ le_bytes 2 opnum ++ stub_data).

(** A response's stub, or a fault's status. *)
Definition parse_response_body (ptype : Z) (body : bytes) : option (result Z bytes) :=
  if zlen body <? 8 then None
  else if ptype =? PTYPE_RESPONSE then Some (Ok (zdrop 8 body))
  else if (ptype =? PTYPE_FAULT) && (12 <=? zlen body) then Some (Err (le_val (ztake 4 (zdrop 8 body))))
  else None.

(** ** Lemmas *)

Lemma byte_at_app_r (a b : bytes) i : byte_at (a ++ b) (length a + i) = byte_at b i.
Proof. unfold byte_at. by rewrite lookup_app_r, Nat.add_sub' by lia. Qed.

Lemma le2 (a b : Z) v : in_u16 v -> le_bytes 2 v = [a; b] -> le_val [a; b] = v.
Proof. intros Hv <-. by apply le_roundtrip. Qed.

(** Two bytes at a known place are the 16-bit value written there. *)
Lemma le2_at (pre : bytes) v (post : bytes) i :
  in_u16 v -> length pre = i ->
  le_val [byte_at (pre ++ le_bytes 2 v ++ post) i; byte_at (pre ++ le_bytes 2 v ++ post) (i + 1)] = v.
Proof.
  intros Hv <-. rewrite <- (Nat.add_0_r (length pre)) at 1. rewrite !byte_at_app_r.
  pose proof (length_le_bytes 2 v) as Hl. destruct (le_bytes 2 v) as [|a [|b [|]]] eqn:E; try done.
  by apply (le2 a b).
Qed.

Lemma zlen_build_pdu t c body : zlen (build_pdu t c body) = 16 + zlen body.
Proof. unfold build_pdu, common_header. by rewrite !zlen_app, !zlen_le_bytes. Qed.

Lemma build_pdu_body t c body : zdrop 16 (build_pdu t c body) = body.
Proof. unfold build_pdu. apply zdrop_app_exact. unfold common_header. by rewrite !zlen_app, !zlen_le_bytes. Qed.

Lemma parse_build_header t c body :
  in_u32 c -> 16 + zlen body < 2 ^ 16 ->
  parse_header (build_pdu t c body) = Ok (mkHeader t 3 c, zlen (build_pdu t c body)).
Proof.
  intros Hc Hl. pose proof (zlen_nonneg body). unfold parse_header.
  rewrite zlen_build_pdu. rewrite (proj2 (Z.ltb_ge _ _)) by lia.
  unfold build_pdu, common_header, as_u16. rewrite (Z.mod_small (16 + zlen body)) by lia.
  set (f := 16 + zlen body).
  pose proof (length_le_bytes 2 f) as Hf. destruct (le_bytes 2 f) as [|f0 [|f1 [|]]] eqn:Ef; try done.
  pose proof (length_le_bytes 4 c) as Hcl. destruct (le_bytes 4 c) as [|c0 [|c1 [|c2 [|c3 [|]]]]] eqn:Ec; try done.
  transitivity (Ok (E := PduError) (mkHeader t 3 (le_val [c0; c1; c2; c3]), le_val [f0; f1])); [reflexivity|].
  rewrite <- Ef, <- Ec, !le_roundtrip by (unfold in_u32, f in *; cbn; lia). done.
Qed.

Lemma parse_build_request call ctx op stub :
  in_u32 call -> in_u16 ctx -> in_u16 op -> 24 + zlen stub < 2 ^ 16 ->
  let req := build_request call ctx op stub in
  parse_header req = Ok (mkHeader PTYPE_REQUEST 3 call, zlen req) /\
  parse_request_body (zdrop 16 req) = Some (mkRequest ctx op stub).
Proof.
  intros Hcall Hctx Hop Hl. pose proof (zlen_nonneg stub). cbn zeta. unfold build_request. rewrite build_pdu_body.
  split; [apply parse_build_header; [done|]; rewrite !zlen_app, !zlen_le_bytes; lia|].
  unfold parse_request_body. rewrite !zlen_app, !zlen_le_bytes, (proj2 (Z.ltb_ge _ _)) by lia.
  rewrite (le2_at (le_bytes 4 _) ctx (le_bytes 2 op ++ stub)) by (done || apply length_le_bytes).
  rewrite (app_assoc (le_bytes 4 _)).
  rewrite (le2_at (le_bytes 4 _ ++ le_bytes 2 _) op stub) by (done || (by rewrite length_app, !length_le_bytes)).
  rewrite app_assoc, zdrop_app_exact; [done|]. by rewrite !zlen_app, !zlen_le_bytes.
Qed.

Lemma parse_build_response call ctx stub :
  in_u32 call -> 24 + zlen stub < 2 ^ 16 ->
  let resp := build_response call ctx stub in
  parse_header resp = Ok (mkHeader PTYPE_RESPONSE 3 call, zlen resp) /\
  parse_response_body PTYPE_RESPONSE (zdrop 16 resp) = Some (Ok stub).
Proof.
  intros Hcall Hl. pose proof (zlen_nonneg stub). cbn zeta. unfold build_response. rewrite build_pdu_body.
  split; [apply parse_build_header; [done|]; rewrite !zlen_app, !zlen_le_bytes; change (zlen [0; 0]) with 2; lia|].
  unfold parse_response_body. rewrite !zlen_app, !zlen_le_bytes. change (zlen [0; 0]) with 2.
  rewrite (proj2 (Z.ltb_ge _ _)) by lia. cbn [Z.eqb PTYPE_RESPONSE Pos.eqb]. rewrite !app_assoc.
  rewrite zdrop_app_exact; [done|]. by rewrite !zlen_app, !zlen_le_bytes.
Qed.

Lemma parse_build_fault call ctx status :
  in_u32 call -> in_u32 status ->
  let fault := build_fault call ctx status in
  parse_header fault = Ok (mkHeader PTYPE_FAULT 3 call, zlen fault) /\
  parse_response_body PTYPE_FAULT (zdrop 16 fault) = Some (Err status).
Proof.
  intros Hcall Hst. cbn zeta. unfold build_fault. rewrite build_pdu_body.
  split; [apply parse_build_header; [done|]; rewrite !zlen_app, !zlen_le_bytes; done|].
  unfold parse_response_body. rewrite !zlen_app, !zlen_le_bytes. change (zlen [0; 0]) with 2.
  change (PTYPE_FAULT =? PTYPE_RESPONSE) with false. change (PTYPE_FAULT =? PTYPE_FAULT) with true.
  cbn [andb Z.ltb Z.leb Z.compare Z.add Z.of_nat]. rewrite !app_assoc.
  rewrite zdrop_app_exact by (by rewrite !zlen_app, !zlen_le_bytes).
  rewrite <- (app_nil_r (le_bytes 4 status)), ztake_app_exact by (by rewrite zlen_le_bytes).
  by rewrite le_roundtrip.
Qed.

(** A request, response or fault PDU of up to 65535 octets is read back
    with the values it was built from; the declared fragment length is the
    PDU's own. *)
Theorem pdu_roundtrip call ctx op status stub :
  in_u32 call -> in_u16 ctx -> in_u16 op -> in_u32 status -> 24 + zlen stub < 2 ^ 16 ->
  let req := build_request call ctx op stub in
  let resp := build_response call ctx stub in
  let fault := build_fault call ctx status in
  parse_header req = Ok (mkHeader PTYPE_REQUEST 3 call, zlen req) /\
  parse_request_body (zdrop 16 req) = Some (mkRequest ctx op stub) /\
  parse_header resp = Ok (mkHeader PTYPE_RESPONSE 3 call, zlen resp) /\
  parse_response_body PTYPE_RESPONSE (zdrop 16 resp) = Some (Ok stub) /\
  parse_header fault = Ok (mkHeader PTYPE_FAULT 3 call, zlen fault) /\
  parse_response_body PTYPE_FAULT (zdrop 16 fault) = Some (Err status).
Proof.
  intros Hcall Hctx Hop Hst Hl req resp fault.
  destruct (parse_build_request call ctx op stub); [done..|].
  destruct (parse_build_response call ctx stub); [done..|].
  by destruct (parse_build_fault call ctx status).
Qed.

Lemma pdu_roundtrip_witness :
  parse_request_body (zdrop 16 (build_request 7 1 64 [1; 2; 3])) = Some (mkRequest 1 64 [1; 2; 3]).
Proof. apply (pdu_roundtrip 7 1 64 0 [1; 2; 3]); by vm_compute. Defined.

(** ** Binding *)

Definition item_ok (it : BindCtxItem) : Prop :=
  in_u16 (item_ctx_id it) /\ length (abstract_syntax it) = 20%nat.

Lemma length_transfer : length ndr_transfer_syntax = 20%nat.
Proof. by vm_compute. Qed.

Lemma parse_items_build items pre post :
  Forall item_ok items ->
  parse_items (length items) (pre ++ concat (map bind_item_bytes items) ++ post) (length pre) = Some items.
Proof.
  intros Hit. revert pre. induction Hit as [|[id syn] items [Hid Hsyn] _ IH]; intros pre; [done|].
  cbn [length map concat parse_items item_ctx_id abstract_syntax] in *.
  set (rest := concat (map bind_item_bytes items)) in *.
  assert (bind_item_bytes (mkItem id syn) = le_bytes 2 id ++ [1; 0] ++ syn ++ ndr_transfer_syntax) as Hb by done.
  assert (length (bind_item_bytes (mkItem id syn)) = 44%nat) as Hlen
    by (rewrite Hb, !length_app, length_le_bytes, Hsyn, length_transfer; done).
  rewrite <- (app_assoc (bind_item_bytes _)). rewrite length_app, (length_app (bind_item_bytes _)), Hlen.
  rewrite (proj2 (Nat.ltb_ge _ _)) by lia.
  replace (pre ++ bind_item_bytes (mkItem id syn) ++ rest ++ post)
    with (pre ++ le_bytes 2 id ++ ([1; 0] ++ syn ++ ndr_transfer_syntax ++ rest ++ post))
    by (rewrite Hb; by rewrite <- !app_assoc).
  rewrite le2_at by done.
  assert (byte_at (pre ++ le_bytes 2 id ++ [1; 0] ++ syn ++ ndr_transfer_syntax ++ rest ++ post) (length pre + 2) = 1) as ->.
  { rewrite byte_at_app_r. pose proof (length_le_bytes 2 id). by destruct (le_bytes 2 id) as [|a [|b [|]]]. }
  rewrite (proj2 (Nat.ltb_ge _ _)) by lia. cbn [Z.eqb Pos.eqb negb orb].
  assert (take 20 (drop (length pre + 4) (pre ++ le_bytes 2 id ++ [1; 0] ++ syn ++ ndr_transfer_syntax ++ rest ++ post)) = syn) as ->.
  { rewrite <- drop_drop, drop_app_length. rewrite (app_assoc (le_bytes 2 id)), drop_app_length'.
    - by apply take_app_length'.
    - by rewrite length_app, length_le_bytes. }
  specialize (IH (pre ++ bind_item_bytes (mkItem id syn))). rewrite length_app, Hlen in IH.
  replace (length pre + 4 + 40)%nat with (length pre + 44)%nat by lia.
  replace (pre ++ le_bytes 2 id ++ [1; 0] ++ syn ++ ndr_transfer_syntax ++ rest ++ post)
    with ((pre ++ bind_item_bytes (mkItem id syn)) ++ rest ++ post)
    by (rewrite Hb; by rewrite <- !app_assoc).
  rewrite IH. done.
Qed.

Lemma results_accepted_build rs pre :
  Forall (fun r => in_u16 (ctx_result r)) rs ->
  results_accepted (length rs) (pre ++ concat (map ctx_result_bytes rs)) (length pre)
  = Some (forallb (fun r => ctx_result r =? 0) rs).
Proof.
  intros Hrs. revert pre. induction Hrs as [|r rs Hr _ IH]; intros pre; [done|].
  cbn [length map concat results_accepted forallb].
  assert (length (ctx_result_bytes r) = 24%nat) as Hlen
    by (unfold ctx_result_bytes; rewrite !length_app, !length_le_bytes, length_transfer; done).
  rewrite length_app, (length_app (ctx_result_bytes r)), Hlen. rewrite (proj2 (Nat.ltb_ge _ _)) by lia.
  specialize (IH (pre ++ ctx_result_bytes r)). rewrite length_app, Hlen, <- app_assoc in IH.
  assert (le_val [byte_at (pre ++ ctx_result_bytes r ++ concat (map ctx_result_bytes rs)) (length pre);
                  byte_at (pre ++ ctx_result_bytes r ++ concat (map ctx_result_bytes rs)) (length pre + 1)]
          = ctx_result r) as ->.
  { unfold ctx_result_bytes at 1 3. rewrite <- !(app_assoc (le_bytes 2 (ctx_result r))). by apply le2_at. }
  destruct (ctx_result r =? 0); [|done]. cbn [negb andb]. exact IH.
Qed.

Lemma parse_build_bind call max items :
  zlen items <= 255 -> Forall item_ok items ->
  parse_bind_body (zdrop 16 (build_bind call max items)) = Some items.
Proof.
  intros Hn Hit. pose proof (zlen_nonneg items). unfold build_bind. rewrite build_pdu_body.
  unfold parse_bind_body, as_u8. rewrite Z.mod_small by lia.
  set (rest := concat _). pose proof (zlen_nonneg rest).
  rewrite !zlen_app, !zlen_le_bytes. change (zlen [zlen items; 0]) with 2.
  rewrite (proj2 (Z.ltb_ge _ _)) by lia.
  set (pre := le_bytes 2 max ++ le_bytes 2 max ++ le_bytes 4 0 ++ [zlen items; 0] ++ le_bytes 2 0).
  assert (length pre = 12%nat) as Hpre by (unfold pre; by rewrite !length_app, !length_le_bytes).
  replace (le_bytes 2 max ++ _) with (pre ++ rest ++ []) by (unfold pre; rewrite app_nil_r; by rewrite <- !app_assoc).
  assert (byte_at (pre ++ rest ++ []) 8 = zlen items) as -> by reflexivity.
  unfold zlen. rewrite Nat2Z.id, <- Hpre. by apply parse_items_build.
Qed.

Lemma parse_build_bind_ack call max group results :
  zlen results <= 255 -> Forall (fun r => in_u16 (ctx_result r)) results ->
  parse_bind_ack_all_accepted (zdrop 16 (build_bind_ack call max group results))
  = Some (negb (bool_decide (results = [])) && forallb (fun r => ctx_result r =? 0) results).
Proof.
  intros Hr Hrs.
  unfold build_bind_ack. rewrite build_pdu_body. pose proof (zlen_nonneg results).
  unfold parse_bind_ack_all_accepted, as_u8. rewrite (Z.mod_small (zlen results)) by lia.
  set (rest := concat _).
  set (pre := le_bytes 2 max ++ le_bytes 2 max ++ le_bytes 4 group ++ le_bytes 2 0 ++ [0; 0] ++ [zlen results; 0] ++ le_bytes 2 0).
  replace (_ ++ [zlen results; 0] ++ le_bytes 2 0 ++ rest) with (pre ++ rest) by (unfold pre; by rewrite <- !app_assoc).
  assert (length pre = 16%nat) as Hpre by (unfold pre; by rewrite !length_app, !length_le_bytes).
  rewrite zlen_app. change (zlen pre) with 16. pose proof (zlen_nonneg rest).
  rewrite (proj2 (Z.ltb_ge _ _)) by lia.
  assert (le_val [byte_at (pre ++ rest) 8; byte_at (pre ++ rest) 9] = 0) as -> by reflexivity.
  change (10 + Z.to_nat 0 + (4 - (10 + Z.to_nat 0) mod 4) mod 4)%nat with 12%nat.
  rewrite length_app, Hpre. rewrite (proj2 (Nat.ltb_ge _ _)) by lia.
  assert (byte_at (pre ++ rest) 12 = zlen results) as -> by reflexivity.
  unfold zlen. rewrite Nat2Z.id. destruct results as [|r rs]; [done|].
  rewrite bool_decide_false by done. cbn [length Nat.eqb negb andb].
  change (12 + 4)%nat with 16%nat. rewrite <- Hpre. by apply (results_accepted_build (r :: rs)).
Qed.

(** A bind offering up to 255 contexts is read back context by context,
    and its acknowledgement is read as accepted exactly when there is a
    context and every one of them was. *)
Theorem bind_roundtrip call max group items results :
  zlen items <= 255 -> Forall item_ok items ->
  zlen results <= 255 -> Forall (fun r => in_u16 (ctx_result r)) results ->
  parse_bind_body (zdrop 16 (build_bind call max items)) = Some items /\
  parse_bind_ack_all_accepted (zdrop 16 (build_bind_ack call max group results))
  = Some (negb (bool_decide (results = [])) && forallb (fun r => ctx_result r =? 0) results).
Proof. intros Hn Hit Hr Hrs. split; [by apply parse_build_bind|by apply parse_build_bind_ack]. Qed.

Lemma bind_roundtrip_witness :
  parse_bind_body (zdrop 16 (build_bind 1 4280 [mkItem 0 samr_syntax])) = Some [mkItem 0 samr_syntax] /\
  parse_bind_ack_all_accepted (zdrop 16 (build_bind_ack 1 4280 1 [accept; reject_abstract_syntax_not_supported])) = Some false.
Proof.
  apply (bind_roundtrip 1 4280 1 [mkItem 0 samr_syntax] [accept; reject_abstract_syntax_not_supported]).
  - by vm_compute.
  - repeat constructor; by vm_compute.
  - by vm_compute.
  - repeat constructor; by vm_compute.
Defined.
