(* ===== verification/BinaryAttrs.v ===== *)
(** Binary attribute values stored as base64 text,
    [crates/store/src/binary_attrs.rs]. *)

From S2P Require Import Prelude Bytes Str Utf8 Password.

Definition OBJECT_SID_ATTR : rstring := str "objectsid".
Definition NT_SECURITY_DESCRIPTOR_ATTR : rstring := str "ntsecuritydescriptor".

Definition is_binary_attr (name : rstring) : bool :=
  eq_ignore_ascii_case name OBJECT_SID_ATTR || eq_ignore_ascii_case name NT_SECURITY_DESCRIPTOR_ATTR.

(** The standard engine of the [base64] crate: it decodes what it encoded,
    and encodes into ASCII. *)
Class Base64 := {
  b64_encode : bytes -> rstring;
  b64_decode : rstring -> option bytes;
  b64_roundtrip b : bytes_ok b -> b64_decode (b64_encode b) = Some b;
  b64_ascii b : bytes_ok b -> Forall (fun c => 0 <= c < 128) (b64_encode b);
}.

Section binary.
  Context `{Base64}.

Definition decode_binary_attr (value : rstring) : bytes :=
  match b64_decode value with Some b => b | None => utf8_encode value end.

Definition encode_binary_attr (b : bytes) : rstring := b64_encode b.

Lemma decode_encode_binary b : bytes_ok b -> decode_binary_attr (encode_binary_attr b) = b.
Proof. intros Hb. unfold decode_binary_attr, encode_binary_attr. by rewrite b64_roundtrip. Qed.

Lemma encode_binary_str_ok b : bytes_ok b -> str_ok (encode_binary_attr b).
Proof.
  intros Hb. eapply Forall_impl; [by apply b64_ascii|]. intros c Hc. left. simpl in Hc. lia.
Qed.
End binary.

(** A concrete text encoding with these properties: hexadecimal. *)
Definition hex_decode_opt (s : rstring) : option bytes :=
  match from_hex s with Some r => r | None => None end.

Lemma hex_roundtrip b : bytes_ok b -> hex_decode_opt (to_hex b) = Some b.
Proof. intros Hb. unfold hex_decode_opt. by rewrite from_hex_to_hex. Qed.

Lemma hex_ascii b : bytes_ok b -> Forall (fun c => 0 <= c < 128) (to_hex b).
Proof. intros Hb. eapply Forall_impl; [by apply to_hex_ascii|]. simpl. lia. Qed.

Definition hex_base64 : Base64 :=
  {| b64_encode := to_hex; b64_decode := hex_decode_opt; b64_roundtrip := hex_roundtrip; b64_ascii := hex_ascii |}.
