(* ===== verification/Pac.v ===== *)
(** Kerberos PAC generation, [crates/kdc/src/pac.rs]: the NDR logon
    information, the client information, the two chained signatures and the
    PACTYPE container, and what of the directory goes into them. *)

From S2P Require Import Prelude Bytes Str Btree Utf8 Decimal Dn Partition Key Registry Entry Etcd Index Ridpool Store.
From S2P Require Import Directory Sid Nfold Kerberos Md4 Password Principal BinaryAttrs Ndr Krb.

Definition FILETIME_UNIX_EPOCH_OFFSET_SECS : Z := 11644473600.
Definition FILETIME_NEVER : Z := 0x7FFFFFFFFFFFFFFF.

Definition PAC_LOGON_INFO : Z := 1.
Definition PAC_SERVER_CHECKSUM : Z := 6.
Definition PAC_PRIVSVR_CHECKSUM : Z := 7.
Definition PAC_CLIENT_INFO_TYPE : Z := 10.
Definition PAC_SIGNATURE_KEY_USAGE : Z := 17.
Definition GROUP_ATTRS_DEFAULT : Z := 7.
Definition DEFAULT_PRIMARY_GROUP_RID : Z := 513.

Record PacInput := mkPacInput {
  client_sid : Sid;
  pac_domain_sid : Sid;
  group_rids_of : list Z;
  account_name : rstring;
  domain_netbios_name : rstring;
  auth_time_unix_secs : Z;
}.

Definition filetime_from_unix_secs (secs : Z) : Z :=
  Z.min u64_max (as_u64 (secs + FILETIME_UNIX_EPOCH_OFFSET_SECS) * 10000000).

(** [NdrBuf] is the same builder as [NdrWriter]; this is the one write it has
    of its own. *)
Definition w_filetime (ticks : Z) (w : NdrWriter) : NdrWriter :=
  w_u32 (as_u32 (Z.shiftr ticks 32)) (w_u32 (as_u32 ticks) w).

Definition w_deferred (s : option rstring) (w : NdrWriter) : NdrWriter :=
  match s with Some s => w_unicode_string_deferred s w | None => w end.

Definition w_group (rid : Z) (w : NdrWriter) : NdrWriter := w_u32 GROUP_ATTRS_DEFAULT (w_u32 rid w).

(** The fixed part, with the strings to defer. *)
Definition validation_info_fixed (input : PacInput)
    : NdrWriter * option rstring * option rstring * option rstring * option rstring :=
  let logon_time := filetime_from_unix_secs (auth_time_unix_secs input) in
  let w := w_filetime logon_time w_new in
  let w := w_filetime FILETIME_NEVER w in
  let w := w_filetime FILETIME_NEVER w in
  let w := w_filetime logon_time w in
  let w := w_filetime logon_time w in
  let w := w_filetime FILETIME_NEVER w in
  let '(effective_name, w) := w_unicode_string_header (Some (account_name input)) w in
  let '(full_name, w) := w_unicode_string_header (Some (account_name input)) w in
  let '(_, w) := w_unicode_string_header None w in
  let '(_, w) := w_unicode_string_header None w in
  let '(_, w) := w_unicode_string_header None w in
  let '(_, w) := w_unicode_string_header None w in
  let w := w_u16 0 (w_u16 0 w) in
  let w := w_u32 (default 0 (last (sub_authorities (client_sid input)))) w in
  let w := w_u32 DEFAULT_PRIMARY_GROUP_RID w in
  let w := w_u32 (as_u32 (zlen (group_rids_of input))) w in
  let w := w_referent_id w in
  let w := w_u32 0 w in
  let w := w_bytes (repeat 0 16) w in
  let '(logon_server, w) := w_unicode_string_header (Some (domain_netbios_name input)) w in
  let '(logon_domain_name, w) := w_unicode_string_header (Some (domain_netbios_name input)) w in
  let w := w_referent_id w in
  let w := w_bytes (repeat 0 8) w in
  let w := w_u32 0x200 w in
  let w := w_u32 0 w in
  let w := w_filetime 0 (w_filetime 0 w) in
  let w := w_u32 0 (w_u32 0 w) in
  let w := w_null_ptr (w_u32 0 w) in
  let w := w_null_ptr w in
  let w := w_null_ptr (w_u32 0 w) in
  (w, effective_name, full_name, logon_server, logon_domain_name).

Definition kerb_validation_info (input : PacInput) : bytes :=
  let '(w, effective_name, full_name, logon_server, logon_domain_name) := validation_info_fixed input in
  let w := w_deferred full_name (w_deferred effective_name w) in
  let w := w_u32 (as_u32 (zlen (group_rids_of input))) w in
  let w := foldl (fun w rid => w_group rid w) w (group_rids_of input) in
  let w := w_deferred logon_domain_name (w_deferred logon_server w) in
  buf (w_sid_deferred (pac_domain_sid input) w).

Definition wrap_type_serialization1 (inner_bytes : bytes) : bytes :=
  let referent_and_struct := buf (w_bytes inner_bytes (w_referent_id w_new)) in
  [1; 0x10] ++ le_bytes 2 8 ++ le_bytes 4 0xCCCCCCCC
  ++ le_bytes 4 (as_u32 (zlen referent_and_struct)) ++ le_bytes 4 0xCCCCCCCC
  ++ referent_and_struct.

Definition pac_client_info (auth_time_unix_secs : Z) (name : rstring) : bytes :=
  le_bytes 8 (filetime_from_unix_secs auth_time_unix_secs)
  ++ le_bytes 2 (as_u16 (zlen (encode_utf16 name) * 2)) ++ utf16le name.

Definition pac_signature_data (signature_type : Z) (signature : bytes) : bytes :=
  le_bytes 4 signature_type ++ signature.

Definition block_len (n : Z) : Z := (n + 7) / 8 * 8.

(** The loop of [build_pac_type]: the table and the data, from [offset] on. *)
Fixpoint pac_layout (offset : Z) (buffers : list (Z * bytes)) : bytes * bytes :=
  match buffers with
  | [] => ([], [])
  | (ul_type, data) :: rest =>
      let pad := block_len (zlen data) - zlen data in
      let '(infos, blobs) := pac_layout (block_len (offset + zlen data)) rest in
      (le_bytes 4 ul_type ++ le_bytes 4 (as_u32 (zlen data)) ++ le_bytes 8 (as_u64 offset) ++ infos,
       data ++ repeat 0 (Z.to_nat pad) ++ blobs)
  end.

Definition build_pac_type (buffers : list (Z * bytes)) : bytes :=
  let header_len := 8 + 16 * zlen buffers in
  let '(infos, blobs) := pac_layout header_len buffers in
  le_bytes 4 (as_u32 (zlen buffers)) ++ le_bytes 4 0 ++ infos ++ blobs.

Definition pac_checksum_type (e : Enctype) : Z :=
  match e with
  | Aes128CtsHmacSha1_96 => 15
  | Aes256CtsHmacSha1_96 => 16
  | Aes128CtsHmacSha256_128 => 19
  | Aes256CtsHmacSha384_192 => 20
  end.

Record PacContext := mkPacContext {
  ctx_client_sid : Sid;
  ctx_domain_sid : Sid;
  ctx_group_rids : list Z;
  ctx_account_name : rstring;
  ctx_domain_netbios_name : rstring;
}.

Definition as_input (c : PacContext) (auth_time_unix_secs : Z) : PacInput :=
  mkPacInput (ctx_client_sid c) (ctx_domain_sid c) (ctx_group_rids c) (ctx_account_name c)
    (ctx_domain_netbios_name c) auth_time_unix_secs.

Section pac.
  Context `{EntryCodec} `{Base64} `{!OpenSsl}.

(** The buffers with the given signatures. *)
Definition pac_buffers (input : PacInput) (server_enctype kdc_enctype : Enctype) (server_sig kdc_sig : bytes)
    : list (Z * bytes) :=
  [(PAC_LOGON_INFO, wrap_type_serialization1 (kerb_validation_info input));
   (PAC_CLIENT_INFO_TYPE, pac_client_info (auth_time_unix_secs input) (account_name input));
   (PAC_SERVER_CHECKSUM, pac_signature_data (pac_checksum_type server_enctype) server_sig);
   (PAC_PRIVSVR_CHECKSUM, pac_signature_data (pac_checksum_type kdc_enctype) kdc_sig)].

Definition zero_sig (e : Enctype) : bytes := repeat 0 (Z.to_nat (hmac_len e)).

Definition generate (input : PacInput) (server_key : bytes) (server_enctype : Enctype) (kdc_key : bytes)
    (kdc_enctype : Enctype) : result Error bytes :=
  let blob_to_checksum :=
    build_pac_type (pac_buffers input server_enctype kdc_enctype (zero_sig server_enctype) (zero_sig kdc_enctype)) in
  server_signature ← checksum server_enctype server_key PAC_SIGNATURE_KEY_USAGE blob_to_checksum;
  kdc_signature ← checksum kdc_enctype kdc_key PAC_SIGNATURE_KEY_USAGE server_signature;
  Ok (build_pac_type (pac_buffers input server_enctype kdc_enctype server_signature kdc_signature)).

(** The SID stored on an entry. *)
Definition entry_sid (e : Entry) : option Sid :=
  v ← Entry.get e OBJECT_SID_ATTR ≫= head;
  Sid.decode (decode_binary_attr v).

(** The loop of [group_rids]: what cannot be read is skipped. *)
Fixpoint collect_rids (st : Store) (dns : list Dn) : prog (list Z) :=
  match dns with
  | [] => Ret []
  | dn :: rest =>
      prog_bind_ (fun found =>
          let rid := match found with Ok (Some e) => entry_sid e ≫= fun sid => last (sub_authorities sid) | _ => None end in
          prog_bind_ (fun rids => Ret (match rid with Some r => r :: rids | None => rids end)) (collect_rids st rest))
        (Store.get_entry st dn)
  end.

Definition group_rids (st : Store) (base_dn client_dn : Dn) : prog (list Z) :=
  prog_bind_ (fun dns => match dns with Ok group_dns => collect_rids st group_dns | Err _ => Ret [] end)
    (Store.lookup_by_index st base_dn (str "member") (Dn.to_string client_dn)).

Definition netbios_of_realm (realm : rstring) : rstring :=
  to_ascii_uppercase (default realm (head (split_char (ch ".") realm))).

(** What [gather_context] reads before its lookup of groups. *)
Definition pac_identity (topology : option PartitionRegistry) (base_dn : Dn) (client_entry : Entry)
    : option (Sid * Sid * rstring) :=
  t ← topology;
  p ← Registry.resolve t base_dn;
  s ← Partition.domain_sid p;
  domain_sid ← Sid.parse s;
  client_sid ← entry_sid client_entry;
  account_name ← Entry.get client_entry (str "cn") ≫= head;
  Some (domain_sid, client_sid, account_name).

Definition gather_context (st : Store) (base_dn : Dn) (topology : option PartitionRegistry) (realm : rstring)
    (client_dn : Dn) (client_entry : Entry) : prog (option PacContext) :=
  match pac_identity topology base_dn client_entry with
  | None => Ret None
  | Some (domain_sid, client_sid, account_name) =>
      prog_bind_ (fun rids => Ret (Some (mkPacContext client_sid domain_sid rids account_name (netbios_of_realm realm))))
        (group_rids st base_dn client_dn)
  end.
End pac.

(** ** The container *)

(** Row [i] of the table: type, size and offset. *)
Definition pac_row (blob : bytes) (i : Z) : option (Z * Z * Z) :=
  t ← slice blob (8 + 16 * i) (12 + 16 * i);
  s ← slice blob (12 + 16 * i) (16 + 16 * i);
  o ← slice blob (16 + 16 * i) (24 + 16 * i);
  Some (le_val t, le_val s, le_val o).

Fixpoint pac_search (rows : nat) (i ty : Z) (blob : bytes) : option (Z * Z) :=
  match rows with
  | O => None
  | S rows' =>
      row ← pac_row blob i;
      let '(t, s, o) := row in
      if t =? ty then Some (o, s) else pac_search rows' (i + 1) ty blob
  end.

(** Offset and size of the buffer of type [ty]. *)
Definition pac_find (ty : Z) (blob : bytes) : option (Z * Z) :=
  n ← slice blob 0 4;
  pac_search (Z.to_nat (le_val n)) 0 ty blob.

Definition overwrite (b : bytes) (pos : Z) (new : bytes) : bytes :=
  ztake pos b ++ new ++ zdrop (pos + zlen new) b.

Definition zero_bytes (n : Z) : bytes := repeat 0 (Z.to_nat n).

Definition signed `{!OpenSsl} (e : Enctype) (key data signature : bytes) : bool :=
  match checksum e key PAC_SIGNATURE_KEY_USAGE data with Ok s => bool_decide (s = signature) | Err _ => false end.

(** What a resource server checks (MS-PAC 2.8): the server signature over the
    blob with both signatures zeroed, and the KDC signature over it. *)
Definition pac_verify `{!OpenSsl} (server_key : bytes) (se : Enctype) (kdc_key : bytes) (ke : Enctype) (blob : bytes)
    : option bool :=
  server ← pac_find PAC_SERVER_CHECKSUM blob;
  kdc ← pac_find PAC_PRIVSVR_CHECKSUM blob;
  let '(os, ss) := server in
  let '(ok, sk) := kdc in
  server_sig ← slice blob (os + 4) (os + ss);
  kdc_sig ← slice blob (ok + 4) (ok + sk);
  let zeroed := overwrite (overwrite blob (os + 4) (zero_bytes (ss - 4))) (ok + 4) (zero_bytes (sk - 4)) in
  Some (signed se server_key zeroed server_sig && signed ke kdc_key server_sig kdc_sig).

Definition padded (d : bytes) : bytes := d ++ zero_bytes (block_len (zlen d) - zlen d).
Definition blobs_of (bs : list (Z * bytes)) : bytes := concat (List.map (fun b => padded b.2) bs).
Definition row_of (off : Z) (b : Z * bytes) : bytes :=
  le_bytes 4 b.1 ++ le_bytes 4 (as_u32 (zlen b.2)) ++ le_bytes 8 (as_u64 off).

Fixpoint rows_of (off : Z) (bs : list (Z * bytes)) : bytes :=
  match bs with [] => [] | b :: rest => row_of off b ++ rows_of (off + zlen (padded b.2)) rest end.

Lemma block_len_bounds n : 0 <= n -> n <= block_len n < n + 8 /\ block_len n mod 8 = 0.
Proof. unfold block_len. intros. split; [zlia|]. apply Z_mod_mult. Qed.

Lemma zlen_padded d : zlen (padded d) = block_len (zlen d).
Proof.
  unfold padded, zero_bytes. pose proof (zlen_nonneg d). pose proof (block_len_bounds (zlen d)).
  rewrite zlen_app. unfold zlen at 2. rewrite repeat_length. lia.
Qed.

Lemma block_len_add off n : off mod 8 = 0 -> block_len (off + n) = off + block_len n.
Proof. unfold block_len. intros. zlia. Qed.

Lemma pac_layout_eq off bs : off mod 8 = 0 -> pac_layout off bs = (rows_of off bs, blobs_of bs).
Proof.
  revert off. induction bs as [|[ty d] bs IH]; intros off Hoff; cbn [pac_layout rows_of]; [done|].
  rewrite block_len_add by done.
  replace (off + block_len (zlen d)) with (off + zlen (padded d)) by (by rewrite zlen_padded). rewrite IH.
  - unfold row_of, blobs_of, padded. cbn [fst snd List.map concat]. by rewrite <- !app_assoc.
  - rewrite zlen_padded. pose proof (block_len_bounds (zlen d) (zlen_nonneg d)). zlia.
Qed.

Lemma zlen_row off b : zlen (row_of off b) = 16.
Proof. unfold row_of. by rewrite !zlen_app, !zlen_le_bytes. Qed.

Lemma zlen_rows off bs : zlen (rows_of off bs) = 16 * zlen bs.
Proof.
  revert off. induction bs as [|b bs IH]; intros off; cbn [rows_of]; [done|].
  rewrite zlen_app, zlen_row, IH, zlen_cons. lia.
Qed.

Lemma rows_of_app off bs cs : rows_of off (bs ++ cs) = rows_of off bs ++ rows_of (off + zlen (blobs_of bs)) cs.
Proof.
  revert off. induction bs as [|b bs IH]; intros off; cbn [rows_of app]; [unfold blobs_of; cbn; by rewrite Z.add_0_r|].
  rewrite IH, <- app_assoc. unfold blobs_of. cbn [List.map concat]. rewrite zlen_app. do 3 f_equal. lia.
Qed.

Definition header_len (bs : list (Z * bytes)) : Z := 8 + 16 * zlen bs.

Lemma build_pac_type_eq bs :
  build_pac_type bs =
    le_bytes 4 (as_u32 (zlen bs)) ++ le_bytes 4 0 ++ rows_of (header_len bs) bs ++ blobs_of bs.
Proof.
  unfold build_pac_type. fold (header_len bs). rewrite pac_layout_eq; [done|]. unfold header_len. zlia.
Qed.

Lemma pac_row_at pre ty d post :
  in_u32 ty ->
  let bs := pre ++ (ty, d) :: post in
  pac_row (build_pac_type bs) (zlen pre) = Some (ty, as_u32 (zlen d), as_u64 (header_len bs + zlen (blobs_of pre))).
Proof.
  intros Hty bs. rewrite build_pac_type_eq.
  set (off := header_len bs + zlen (blobs_of pre)). set (h := le_bytes 4 (as_u32 (zlen bs)) ++ le_bytes 4 0 ++ rows_of (header_len bs) pre).
  assert (zlen h = 8 + 16 * zlen pre) as Hh by (unfold h; rewrite !zlen_app, zlen_rows, !zlen_le_bytes; lia).
  set (A := le_bytes 4 ty). set (B := le_bytes 4 (as_u32 (zlen d))). set (C := le_bytes 8 (as_u64 off)).
  assert (zlen A = 4 /\ zlen B = 4 /\ zlen C = 8) as (HA & HB & HC) by (unfold A, B, C; by rewrite !zlen_le_bytes).
  set (rest := rows_of (off + zlen (padded d)) post ++ blobs_of bs).
  assert (le_bytes 4 (as_u32 (zlen bs)) ++ le_bytes 4 0 ++ rows_of (header_len bs) bs ++ blobs_of bs
    = h ++ A ++ B ++ C ++ rest) as ->.
  { unfold h, rest. rewrite <- !app_assoc. do 2 f_equal. unfold bs at 2. rewrite rows_of_app. cbn [rows_of].
    unfold row_of. cbn [fst snd]. by rewrite <- !app_assoc. }
  unfold pac_row.
  assert (slice (h ++ A ++ B ++ C ++ rest) (8 + 16 * zlen pre) (12 + 16 * zlen pre) = Some A) as ->
    by (apply slice_app_exact; lia).
  assert (slice (h ++ A ++ B ++ C ++ rest) (12 + 16 * zlen pre) (16 + 16 * zlen pre) = Some B) as ->
    by (rewrite app_assoc; apply slice_app_exact; rewrite zlen_app; lia).
  assert (slice (h ++ A ++ B ++ C ++ rest) (16 + 16 * zlen pre) (24 + 16 * zlen pre) = Some C) as ->
    by (rewrite (app_assoc h), (app_assoc (h ++ A)); apply slice_app_exact; rewrite !zlen_app; lia).
  cbn [mbind option_bind]. unfold A, B, C. rewrite !le_val_le_bytes. unfold as_u32, as_u64, in_u32 in *.
  rewrite (Z.mod_small ty), !Z.mod_mod by (try done; exact Hty). done.
Qed.

Lemma build_at pre ty d post :
  exists A B, zlen A = header_len (pre ++ (ty, d) :: post) + zlen (blobs_of pre) /\
    forall d', zlen d' = zlen d -> build_pac_type (pre ++ (ty, d') :: post) = A ++ d' ++ B.
Proof.
  set (hl := header_len (pre ++ (ty, d) :: post)). set (o := hl + zlen (blobs_of pre)).
  exists (le_bytes 4 (as_u32 (zlen (pre ++ (ty, d) :: post))) ++ le_bytes 4 0 ++
     (rows_of hl pre ++ row_of o (ty, d) ++ rows_of (o + block_len (zlen d)) post) ++ blobs_of pre),
    (zero_bytes (block_len (zlen d) - zlen d) ++ blobs_of post). split.
  - assert (hl = 8 + 16 * (zlen pre + (1 + zlen post))) as -> by (unfold hl, header_len; by rewrite zlen_app, zlen_cons).
    rewrite !zlen_app, !zlen_rows, zlen_row, !zlen_le_bytes. lia.
  - intros d' Hd. rewrite build_pac_type_eq, rows_of_app. cbn [rows_of]. rewrite zlen_padded. cbn [snd].
    assert (header_len (pre ++ (ty, d') :: post) = hl) as -> by (unfold hl, header_len; by rewrite !zlen_app, !zlen_cons).
    assert (row_of (hl + zlen (blobs_of pre)) (ty, d') = row_of o (ty, d)) as ->
      by (unfold row_of, o; cbn [fst snd]; by rewrite Hd).
    assert (zlen (pre ++ (ty, d') :: post) = zlen (pre ++ (ty, d) :: post)) as -> by (by rewrite !zlen_app, !zlen_cons).
    unfold blobs_of at 2. rewrite List.map_app, concat_app. cbn [List.map concat]. unfold padded at 2. cbn [snd].
    rewrite Hd. unfold o, blobs_of. by rewrite <- !app_assoc.
Qed.

Lemma overwrite_at (A t s B z : bytes) pos :
  zlen z = zlen s -> pos = zlen A + zlen t -> overwrite (A ++ (t ++ s) ++ B) pos z = A ++ (t ++ z) ++ B.
Proof.
  intros Hz ->. unfold overwrite. rewrite <- !app_assoc, (app_assoc A t).
  rewrite (ztake_app_exact (zlen A + zlen t)) by (by rewrite zlen_app).
  rewrite (app_assoc (A ++ t) s), (zdrop_app_exact (zlen A + zlen t + zlen z)) by (rewrite !zlen_app; lia).
  by rewrite <- !app_assoc.
Qed.

Lemma pac_slice_at (A t s B : bytes) a b :
  a = zlen A + zlen t -> b = a + zlen s -> slice (A ++ (t ++ s) ++ B) a b = Some s.
Proof.
  intros -> ->. rewrite <- !app_assoc, (app_assoc A t). apply slice_app_exact; by rewrite zlen_app.
Qed.

Lemma pac_search_at rows pre1 pre2 ty (d : bytes) post :
  let bs := pre1 ++ pre2 ++ (ty, d) :: post in
  Forall (fun b => in_u32 b.1 /\ b.1 <> ty) pre2 -> in_u32 ty -> (length pre2 < rows)%nat ->
  pac_search rows (zlen pre1) ty (build_pac_type bs) =
    Some (as_u64 (header_len bs + zlen (blobs_of (pre1 ++ pre2))), as_u32 (zlen d)).
Proof.
  intros bs Hpre Hty. revert rows pre1 bs. induction Hpre as [|[t b] pre2 [Ht Hne] _ IH]; intros rows pre1 bs Hrows.
  - destruct rows as [|rows]; [lia|]. cbn [pac_search]. unfold bs. cbn [app]. rewrite pac_row_at by done.
    cbn [mbind option_bind]. by rewrite Z.eqb_refl, app_nil_r.
  - destruct rows as [|rows]; [cbn in Hrows; lia|]. cbn [length] in Hrows. cbn [pac_search]. unfold bs.
    change (((t, b) :: pre2) ++ (ty, d) :: post) with ((t, b) :: (pre2 ++ (ty, d) :: post)). rewrite pac_row_at by done.
    cbn [mbind option_bind]. rewrite (proj2 (Z.eqb_neq t ty)) by done.
    replace (zlen pre1 + 1) with (zlen (pre1 ++ [(t, b)])) by (rewrite zlen_app; done).
    replace (pre1 ++ (t, b) :: pre2 ++ (ty, d) :: post) with ((pre1 ++ [(t, b)]) ++ pre2 ++ (ty, d) :: post)
      by (by rewrite <- app_assoc).
    rewrite IH by lia. by rewrite <- !(app_assoc pre1).
Qed.

(** A buffer is found by its type, at its offset and with its size. *)
Lemma pac_find_at pre ty (d : bytes) post :
  let bs := pre ++ (ty, d) :: post in
  let off := header_len bs + zlen (blobs_of pre) in
  Forall (fun b => in_u32 b.1 /\ b.1 <> ty) pre -> in_u32 ty -> zlen bs < 2 ^ 32 -> off < 2 ^ 64 -> zlen d < 2 ^ 32 ->
  pac_find ty (build_pac_type bs) = Some (off, zlen d).
Proof.
  intros bs off Hpre Hty Hn Hoff Hd. unfold pac_find.
  assert (slice (build_pac_type bs) 0 4 = Some (le_bytes 4 (as_u32 (zlen bs)))) as ->.
  { rewrite build_pac_type_eq. apply (slice_app_exact []); by rewrite ?zlen_le_bytes. }
  cbn [mbind option_bind]. rewrite le_val_le_bytes. pose proof (zlen_nonneg bs). pose proof (zlen_nonneg d).
  pose proof (zlen_nonneg (blobs_of pre)). unfold as_u32. change (256 ^ Z.of_nat 4) with (2 ^ 32).
  rewrite Z.mod_mod, Z.mod_small by lia.
  assert (length pre < Z.to_nat (zlen bs))%nat as Hr
    by (unfold bs, zlen; rewrite length_app; cbn [length]; lia).
  etransitivity; [exact (pac_search_at (Z.to_nat (zlen bs)) [] pre ty d post Hpre Hty Hr)|]. cbn [app]. fold bs.
  unfold as_u32, as_u64. rewrite !Z.mod_small; [done|lia|]. unfold off, header_len in *. lia.
Qed.

(** ** The signatures *)

Lemma hmac_len_small e : 0 <= hmac_len e <= 24.
Proof. by destruct e. Qed.

Lemma zlen_zero_bytes n : 0 <= n -> zlen (zero_bytes n) = n.
Proof. intros. unfold zero_bytes, zlen. rewrite repeat_length. lia. Qed.

Lemma zlen_sig ty s : zlen (pac_signature_data ty s) = 4 + zlen s.
Proof. unfold pac_signature_data. by rewrite zlen_app, zlen_le_bytes. Qed.

Section signatures.
  Context `{!OpenSsl, !OpenSslLaws} (input : PacInput) (se ke : Enctype).

Definition signed_pac (ssig ksig : bytes) : bytes := build_pac_type (pac_buffers input se ke ssig ksig).

Definition first_two : list (Z * bytes) :=
  [(PAC_LOGON_INFO, wrap_type_serialization1 (kerb_validation_info input));
   (PAC_CLIENT_INFO_TYPE, pac_client_info (auth_time_unix_secs input) (account_name input))].

(** Offsets of the two signature buffers. *)
Definition server_off : Z := 72 + zlen (blobs_of first_two).
Definition kdc_off : Z := server_off + block_len (4 + hmac_len se).

Lemma signed_pac_find (ssig ksig : bytes) :
  zlen ssig = hmac_len se -> zlen ksig = hmac_len ke -> kdc_off < 2 ^ 64 ->
  pac_find PAC_SERVER_CHECKSUM (signed_pac ssig ksig) = Some (server_off, 4 + hmac_len se) /\
  pac_find PAC_PRIVSVR_CHECKSUM (signed_pac ssig ksig) = Some (kdc_off, 4 + hmac_len ke).
Proof.
  intros Hs Hk Hoff. pose proof (hmac_len_small se). pose proof (hmac_len_small ke).
  pose proof (block_len_bounds (4 + hmac_len se)) as Hb.
  unfold kdc_off in *. unfold server_off in *.
  assert (4 + hmac_len se = zlen (pac_signature_data (pac_checksum_type se) ssig)) as Es by (rewrite zlen_sig; lia).
  assert (4 + hmac_len ke = zlen (pac_signature_data (pac_checksum_type ke) ksig)) as Ek by (rewrite zlen_sig; lia).
  rewrite Es in *. rewrite Ek. split.
  - apply (pac_find_at first_two PAC_SERVER_CHECKSUM
      (pac_signature_data (pac_checksum_type se) ssig) [(PAC_PRIVSVR_CHECKSUM, pac_signature_data (pac_checksum_type ke) ksig)]);
      [by repeat constructor|done|done| |rewrite zlen_sig; lia].
    change (header_len _) with 72. lia.
  - pose proof (pac_find_at (first_two ++ [(PAC_SERVER_CHECKSUM, pac_signature_data (pac_checksum_type se) ssig)])
      PAC_PRIVSVR_CHECKSUM (pac_signature_data (pac_checksum_type ke) ksig) []) as Hf. cbn zeta in Hf.
    change (header_len _) with 72 in Hf.
    assert (zlen (blobs_of (first_two ++ [(PAC_SERVER_CHECKSUM, pac_signature_data (pac_checksum_type se) ssig)]))
      = zlen (blobs_of first_two) + block_len (zlen (pac_signature_data (pac_checksum_type se) ssig))) as E.
    { unfold blobs_of. rewrite List.map_app, concat_app, zlen_app. cbn [List.map concat]. by rewrite app_nil_r, zlen_padded. }
    rewrite E in Hf. rewrite <- Z.add_assoc. apply Hf; [by repeat constructor|done|done|lia|rewrite zlen_sig; lia].
Qed.

(** The blob around each signature. *)
Lemma signed_pac_server (ssig ksig : bytes) :
  zlen ssig = hmac_len se ->
  exists A t B : bytes, zlen A = server_off /\ zlen t = 4 /\
    forall s, zlen s = hmac_len se -> signed_pac s ksig = A ++ (t ++ s) ++ B.
Proof.
  intros Hs. destruct (build_at first_two PAC_SERVER_CHECKSUM (pac_signature_data (pac_checksum_type se) ssig)
    [(PAC_PRIVSVR_CHECKSUM, pac_signature_data (pac_checksum_type ke) ksig)]) as (A & B & HA & Hb).
  exists A, (le_bytes 4 (pac_checksum_type se)), B. split; [exact HA|]. split; [by rewrite zlen_le_bytes|].
  intros s Hl. apply (Hb (pac_signature_data (pac_checksum_type se) s)). rewrite !zlen_sig. lia.
Qed.

Lemma signed_pac_kdc (ssig ksig : bytes) :
  zlen ssig = hmac_len se -> zlen ksig = hmac_len ke ->
  exists A t B : bytes, zlen A = kdc_off /\ zlen t = 4 /\
    forall s, zlen s = hmac_len ke -> signed_pac ssig s = A ++ (t ++ s) ++ B.
Proof.
  intros Hs Hk. destruct (build_at (first_two ++ [(PAC_SERVER_CHECKSUM, pac_signature_data (pac_checksum_type se) ssig)])
    PAC_PRIVSVR_CHECKSUM (pac_signature_data (pac_checksum_type ke) ksig) []) as (A & B & HA & Hb).
  exists A, (le_bytes 4 (pac_checksum_type ke)), B. split; [|split; [by rewrite zlen_le_bytes|]].
  - rewrite HA. unfold kdc_off, server_off, blobs_of. rewrite List.map_app, concat_app, zlen_app. cbn [List.map concat snd].
    rewrite app_nil_r, zlen_padded, zlen_sig, Hs. change (header_len _) with 72. lia.
  - intros s Hl. apply (Hb (pac_signature_data (pac_checksum_type ke) s)). rewrite !zlen_sig. lia.
Qed.

Lemma zero_signatures (ssig ksig : bytes) :
  zlen ssig = hmac_len se -> zlen ksig = hmac_len ke ->
  slice (signed_pac ssig ksig) (server_off + 4) (server_off + (4 + hmac_len se)) = Some ssig /\
  slice (signed_pac ssig ksig) (kdc_off + 4) (kdc_off + (4 + hmac_len ke)) = Some ksig /\
  overwrite (overwrite (signed_pac ssig ksig) (server_off + 4) (zero_bytes (hmac_len se))) (kdc_off + 4)
    (zero_bytes (hmac_len ke)) = signed_pac (zero_bytes (hmac_len se)) (zero_bytes (hmac_len ke)).
Proof.
  intros Hs Hk. pose proof (hmac_len_small se). pose proof (hmac_len_small ke).
  pose proof (zlen_zero_bytes (hmac_len se) ltac:(lia)) as Zs. pose proof (zlen_zero_bytes (hmac_len ke) ltac:(lia)) as Zk.
  destruct (signed_pac_server ssig ksig Hs) as (A & t & B & HA & Ht & Hb).
  destruct (signed_pac_kdc ssig ksig Hs Hk) as (A1 & t1 & B1 & HA1 & Ht1 & Hb1).
  destruct (signed_pac_kdc (zero_bytes (hmac_len se)) ksig Zs Hk) as (A2 & t2 & B2 & HA2 & Ht2 & Hb2).
  split; [rewrite (Hb ssig Hs); apply pac_slice_at; lia|]. split; [rewrite (Hb1 ksig Hk); apply pac_slice_at; lia|].
  rewrite (Hb ssig Hs), overwrite_at, <- (Hb (zero_bytes (hmac_len se))) by lia.
  rewrite (Hb2 ksig Hk), overwrite_at, <- (Hb2 (zero_bytes (hmac_len ke))) by lia. done.
Qed.
End signatures.

(** C24: A generated PAC verifies: a resource server that looks the signature
    buffers up in the table, zeroes both signatures and recomputes them finds
    the server signature over the whole blob and the KDC signature over the
    server signature, for every client, key and enctype. *)
Theorem pac_generated_verifies `{!OpenSsl, !OpenSslLaws} input server_key se kdc_key ke pac :
  generate input server_key se kdc_key ke = Ok pac -> zlen pac < 2 ^ 63 ->
  pac_verify server_key se kdc_key ke pac = Some true.
Proof.
  unfold generate. intros (ssig & Hs & (ksig & Hk & [= <-])%bind_ok)%bind_ok Hlen.
  destruct (checksum_len _ _ _ _ _ Hs) as [Ls _]. destruct (checksum_len _ _ _ _ _ Hk) as [Lk _].
  fold (signed_pac input se ke ssig ksig) in *.
  assert (kdc_off input se < 2 ^ 64) as Hoff.
  { destruct (signed_pac_kdc input se ke ssig ksig Ls Lk) as (A & t & B & HA & _ & Hb).
    rewrite (Hb ksig Lk), zlen_app in Hlen. pose proof (zlen_nonneg ((t ++ ksig) ++ B)). lia. }
  destruct (signed_pac_find input se ke ssig ksig Ls Lk Hoff) as [F1 F2].
  destruct (zero_signatures input se ke ssig ksig Ls Lk) as (S1 & S2 & Hz).
  unfold pac_verify. rewrite F1, F2. cbn [mbind option_bind]. rewrite S1, S2. cbn [mbind option_bind].
  replace (4 + hmac_len se - 4) with (hmac_len se) by lia. replace (4 + hmac_len ke - 4) with (hmac_len ke) by lia.
  rewrite Hz. unfold signed, signed_pac. change (zero_bytes (hmac_len se)) with (zero_sig se).
  change (zero_bytes (hmac_len ke)) with (zero_sig ke). rewrite Hs, Hk. by rewrite !bool_decide_true.
Qed.

(** ** What goes into a PAC *)

Section context.
  Context `{EntryCodec} `{Base64} (st : Store) (Hst : connected st) (spec : IndexSpec).
  Implicit Types (F : forest) (m : kvstore) (dn base : Dn).

(** [rid] is the RID of a group of the partition that lists the client. *)
Definition member_rid F base client (rid : Z) : Prop :=
  exists dn dn' e sid, indexed_dn st F base (str "member") (Dn.to_string client) dn /\
    find_entry st F dn = Some (dn', e) /\ entry_sid e = Some sid /\ last (sub_authorities sid) = Some rid.

Lemma collect_rids_runs F m dns rids m' :
  holds st spec F m -> runs (collect_rids st dns) m rids m' ->
  m' = m /\ forall rid, rid ∈ rids -> exists dn dn' e sid, dn ∈ dns /\
    find_entry st F dn = Some (dn', e) /\ entry_sid e = Some sid /\ last (sub_authorities sid) = Some rid.
Proof.
  intros HF. revert rids. induction dns as [|dn dns IH]; intros rids; cbn [collect_rids].
  { intros [-> ->]. split; [done|]. by intros rid ?%elem_of_nil. }
  rewrite runs_bind. intros (found & m1 & Hg & Hr). apply (get_entry_runs st Hst spec F) in Hg as [-> Hg]; [|done].
  rewrite runs_bind in Hr. destruct Hr as (rest & m2 & Hrest & [-> ->]). apply IH in Hrest as [-> Hrest].
  split; [done|]. intros rid Hin.
  assert (rid ∈ rest -> exists dn0 dn' e sid, dn0 ∈ dn :: dns /\ find_entry st F dn0 = Some (dn', e) /\
    entry_sid e = Some sid /\ last (sub_authorities sid) = Some rid) as Hr.
  { intros Hr. destruct (Hrest rid Hr) as (dn0 & dn' & e & sid & ? & ?). exists dn0, dn', e, sid. set_solver. }
  destruct found as [[e|]|er]; [|by apply Hr..].
  destruct (entry_sid e) as [sid|] eqn:Hsid; cbn [mbind option_bind] in Hin; [|by apply Hr].
  destruct (last (sub_authorities sid)) as [r|] eqn:Hl; [|by apply Hr].
  apply elem_of_cons in Hin as [->|Hin]; [|by apply Hr].
  destruct Hg as [[= Hg]|[? ?]]; [|done]. destruct (find_entry st F dn) as [[dn' e']|] eqn:Hf; [|done].
  injection Hg as ->. exists dn, dn', e', sid. set_solver.
Qed.

Lemma group_rids_runs F m base client rids m' :
  holds st spec F m -> str "member" ∈ spec -> runs (group_rids st base client) m rids m' ->
  m' = m /\ forall rid, rid ∈ rids -> member_rid F base client rid.
Proof.
  intros HF Hspec (dns & m2 & Hl & Hr)%runs_bind. apply (lookup_runs st Hst spec F) in Hl as [-> Hl]; [|done..].
  destruct Hl as [[er ->]|(l & -> & _ & Hl)].
  { destruct Hr as [-> ->]. split; [done|]. by intros rid ?%elem_of_nil. }
  apply (collect_rids_runs F) in Hr as [-> Hr]; [|done]. split; [done|]. intros rid Hin.
  destruct (Hr rid Hin) as (dn & dn' & e' & sid & Hdn & ?). exists dn, dn', e', sid. split; [by apply Hl|done].
Qed.

(** Every group in the context of a PAC lists the client in the directory, and
    its SID is the one stored on the client's entry. *)
Lemma gather_context_runs F m base topology realm client e c m' :
  holds st spec F m -> str "member" ∈ spec ->
  runs (gather_context st base topology realm client e) m (Some c) m' ->
  m' = m /\ entry_sid e = Some (ctx_client_sid c) /\ forall rid, rid ∈ ctx_group_rids c -> member_rid F base client rid.
Proof.
  intros HF Hspec. unfold gather_context.
  destruct (pac_identity topology base e) as [[[dsid csid] name]|] eqn:Hid; [|by intros [? _]].
  assert (entry_sid e = Some csid) as Hsid.
  { unfold pac_identity in Hid. destruct topology as [t|]; [|done]. cbn [mbind option_bind] in Hid.
    destruct (Registry.resolve t base) as [p|]; [|done]. cbn [mbind option_bind] in Hid.
    destruct (Partition.domain_sid p) as [s|]; [|done]. cbn [mbind option_bind] in Hid.
    destruct (Sid.parse s); [|done]. cbn [mbind option_bind] in Hid. destruct (entry_sid e); [|done].
    cbn [mbind option_bind] in Hid. destruct (Entry.get e (str "cn") ≫= head); [|done]. cbn in Hid. congruence. }
  rewrite runs_bind. intros (rids & m1 & Hg & [[= ->] ->]). cbn [ctx_client_sid ctx_group_rids].
  by apply (group_rids_runs F) in Hg as [-> Hg].
Qed.
End context.

#[local] Existing Instance demo_ssl.
#[local] Existing Instance demo_ssl_laws.

Definition ex_pac_input : PacInput :=
  let domain := Sid.new NT_AUTHORITY [21; 1; 2; 3] in
  mkPacInput (with_sub_authority domain 1105) domain [1108; 1109] (str "alice") (str "IRONLO") 1700000000.

Lemma pac_generated_verifies_witness :
  exists pac, generate ex_pac_input (replicate 32 5) Aes256CtsHmacSha1_96 (replicate 32 6) Aes256CtsHmacSha384_192 = Ok pac /\
    pac_verify (replicate 32 5) Aes256CtsHmacSha1_96 (replicate 32 6) Aes256CtsHmacSha384_192 pac = Some true.
Proof.
  destruct (generate ex_pac_input (replicate 32 5) Aes256CtsHmacSha1_96 (replicate 32 6) Aes256CtsHmacSha384_192)
    as [pac|e] eqn:E; [|vm_compute in E; discriminate E].
  exists pac. split; [reflexivity|].
  apply (pac_generated_verifies ex_pac_input _ _ _ _ pac E). vm_compute in E. injection E as <-. vm_compute. reflexivity.
Defined.
