(* ===== verification/Kdc.v ===== *)
(** What the exchanges of the KDC share ([crates/kdc/src/lib.rs] and the
    handlers of [as_exchange.rs], [tgs_exchange.rs]): the server's state,
    reading principals from the directory, sealing messages; and the
    specifications of these steps against an abstract directory. *)

From S2P Require Import Prelude Bytes Str Btree Utf8 Decimal Dn Partition Key Registry Entry Etcd Index Ridpool Store.
From S2P Require Import Directory Sid Nfold Kerberos Md4 Password Principal BinaryAttrs Ndr Krb Pac.

(** The attributes this daemon and [iron-ldapd] index. *)
Definition index_spec : IndexSpec := IndexSpec_new
  [str "cn"; str "mail"; str "uid"; str "member"; str "samaccountname"; ATTR_PRINCIPAL_NAME].

Record AppState := mkAppState {
  app_store : Store;
  app_base_dn : Dn;
  app_realm : rstring;
  app_topology : option PartitionRegistry;
  app_own_partition_id : option PartitionId;
}.

(** The [Display] texts of errors, which only go into diagnostics. *)
Class ErrorText `{EntryCodec} := {
  store_text : StoreError json_error -> rstring;
  principal_text : PrincipalError -> rstring;
  crypto_text : Error -> rstring;
  decode_text : bytes -> rstring;
  encode_text : rstring;
}.

(** [match p { Ok(v) => v, Err(e) => return f(e) }]. *)
Definition catch {E R A} (p : prog (result E A)) (f : E -> prog (result (stop R) A)) : prog (result (stop R) A) :=
  prog_bind_ (fun r => match r with Ok a => Ret (Ok a) | Err e => f e end) p.

(** The response of a handler; [None] if it panics. *)
Definition settle {R} (p : prog (result (stop R) R)) : prog (option R) :=
  prog_bind_ (fun r => Ret (match r with Ok a => Some a | Err (Return a) => Some a | Err Panic => None end)) p.

Section kdc.
  Context `{EntryCodec} `{Base64} `{!OpenSsl} `{!KrbCodec}.

(** [lookup_by_index] with exactly one answer; the error is [None] if there
    are none or several. *)
Definition lookup_one (app : AppState) (name : rstring) : prog (result (option (StoreError json_error)) Dn) :=
  prog_bind_ (fun r => Ret (match r with Ok [dn] => Ok dn | Ok _ => Err None | Err e => Err (Some e) end))
    (Store.lookup_by_index (app_store app) (app_base_dn app) ATTR_PRINCIPAL_NAME name).

(** [get_entry] with an entry. *)
Definition fetch (app : AppState) (dn : Dn) : prog (result (option (StoreError json_error)) Entry) :=
  prog_bind_ (fun r => Ret (match r with Ok (Some e) => Ok e | Ok None => Err None | Err e => Err (Some e) end))
    (Store.get_entry (app_store app) dn).

(** [kerberos::encrypt] with its confounder from the DRBG. *)
Definition encrypt_with (e : Enctype) (key : bytes) (usage : Z) (plaintext : bytes) : prog (result Error bytes) :=
  Call (Random 16) (fun confounder : option bytes => Ret (encrypt confounder e key usage plaintext)).

(** Embedding the PAC: nothing where it cannot be built. *)
Definition pac_authorization_data (ctx : option PacContext) (auth_time : KerberosTime) (server_key kdc_key : PrincipalKey)
    : option (list AuthorizationDataValue) :=
  ctx ← ctx;
  match generate (as_input ctx (auth_time / NANOS)) (pk_key server_key) (pk_enctype server_key)
          (pk_key kdc_key) (pk_enctype kdc_key) with
  | Ok pac => wrap_pac_authorization_data pac
  | Err _ => None
  end.

(** [keys.iter().find(..).or_else(|| keys.first())]. *)
Definition preferred_key (wanted : PrincipalKey -> bool) (ks : list PrincipalKey) : option PrincipalKey :=
  match List.find wanted ks with Some k => Some k | None => head ks end.
End kdc.

(** ** Programs that only read

    Run from [m] with readings of the clock in [T], the store stays [m]; every
    result satisfies [Q], every early return [I]. *)
Definition ro {E A : Type} (T : Z -> Prop) (m : kvstore) (I : E -> Prop) (p : prog (result E A)) (Q : A -> Prop) : Prop :=
  forall r m', runs_at T p m r m' -> m' = m /\ match r with Ok a => Q a | Err e => I e end.

Section ro.
  Context {E : Type} (T : Z -> Prop) (m : kvstore) (I : E -> Prop).

Lemma ro_ret {A : Type} (a : A) (Q : A -> Prop) : Q a -> ro T m I (Ret (Ok a)) Q.
Proof. by intros HQ r m' [-> ->]. Qed.

Lemma ro_err {A : Type} (e : E) (Q : A -> Prop) : I e -> ro T m I (Ret (Err e)) Q.
Proof. by intros HI r m' [-> ->]. Qed.

Lemma ro_try {A B : Type} (p : prog (result E A)) (f : A -> prog (result E B)) Q R :
  ro T m I p Q -> (forall a, Q a -> ro T m I (f a) R) -> ro T m I (try_bind p f) R.
Proof.
  intros Hp Hf r m' (x & m1 & Hx & Hr)%runs_at_bind. apply Hp in Hx as [-> Hx].
  destruct x as [a|e]; [by apply (Hf a)|]. by destruct Hr as [-> ->].
Qed.

Lemma ro_clock {B : Type} (f : Z -> prog (result E B)) R :
  (forall t, T t -> ro T m I (f t) R) -> ro T m I (try_bind read_clock f) R.
Proof.
  intros Hf. eapply (ro_try _ _ T); [|exact Hf].
  intros r m' (t & m1 & Hm & Ht & -> & ->). cbn [served] in Hm. by subst.
Qed.

(** From a specification of all runs. *)
Lemma ro_runs {A : Type} (p : prog (result E A)) (Q : A -> Prop) :
  (forall r m', runs p m r m' -> m' = m /\ match r with Ok a => Q a | Err e => I e end) -> ro T m I p Q.
Proof. intros Hp r m' Hr%runs_at_runs. auto. Qed.
End ro.

Lemma ro_mono {E A : Type} (T : Z -> Prop) (m : kvstore) (I J : E -> Prop) (p : prog (result E A)) (Q R : A -> Prop) :
  ro T m I p Q -> (forall e, I e -> J e) -> (forall a, Q a -> R a) -> ro T m J p R.
Proof. intros Hp HI HQ r m' Hr. specialize (Hp r m' Hr) as [-> Hp]. split; [done|]. destruct r; auto. Qed.

Lemma ro_catch {E R A : Type} (T : Z -> Prop) (m : kvstore) (I : stop R -> Prop) (p : prog (result E A)) f (Q : A -> Prop) :
  ro T m (fun _ => True) p Q -> (forall e, ro T m I (f e) Q) -> ro T m I (catch p f) Q.
Proof.
  intros Hp Hf r m' (x & m1 & Hx & Hr)%runs_at_bind. apply Hp in Hx as [-> Hx]. destruct x as [a|e].
  - by destruct Hr as [-> ->].
  - by apply (Hf e).
Qed.

Lemma ro_lift {E A : Type} (T : Z -> Prop) (m : kvstore) (x : result E A) (Q : A -> Prop) :
  (forall a, x = Ok a -> Q a) -> ro T m (fun _ => True) (lift x) Q.
Proof. intros HQ r m' [-> ->]. destruct x; auto. Qed.

Lemma settle_runs {R : Type} (T : Z -> Prop) (p : prog (result (stop R) R)) m (I : stop R -> Prop) (Q : R -> Prop) r m' :
  ro T m I p Q -> runs_at T (settle p) m r m' ->
  m' = m /\ forall a, r = Some a -> Q a \/ I (Return a).
Proof.
  intros Hp (x & m1 & Hx & -> & ->)%runs_at_bind. apply Hp in Hx as [-> Hx]. split; [done|].
  destruct x as [a|[|a]]; intros b [= <-]; auto.
Qed.

(** Programs that write: every result satisfies [Q], every early return [I],
    of the store they leave. *)
Definition wpt {E A : Type} (T : Z -> Prop) (I : E -> kvstore -> Prop) (p : prog (result E A)) (Q : A -> kvstore -> Prop)
    (m : kvstore) : Prop :=
  forall r m', runs_at T p m r m' -> match r with Ok a => Q a m' | Err e => I e m' end.

Lemma wpt_ro {E A B : Type} (T : Z -> Prop) (m : kvstore) (I : E -> kvstore -> Prop) (J : E -> Prop) (p : prog (result E A))
    (f : A -> prog (result E B)) (Q : A -> Prop) (R : B -> kvstore -> Prop) :
  ro T m J p Q -> (forall e, J e -> I e m) -> (forall a, Q a -> wpt T I (f a) R m) -> wpt T I (try_bind p f) R m.
Proof.
  intros Hp HI Hf r m' (x & m1 & Hx & Hr)%runs_at_bind. apply Hp in Hx as [-> Hx].
  destruct x as [a|e]; [by apply (Hf a)|]. destruct Hr as [-> ->]. auto.
Qed.

(** Rules for them. *)
Section wpt.
  Context {E : Type} (T : Z -> Prop) (I : E -> kvstore -> Prop).

Lemma wpt_try {A B : Type} (p : prog (result E A)) (f : A -> prog (result E B)) Q R m :
  wpt T I p Q m -> (forall a m1, Q a m1 -> wpt T I (f a) R m1) -> wpt T I (try_bind p f) R m.
Proof.
  intros Hp Hf r m' (x & m1 & Hx & Hr)%runs_at_bind. apply Hp in Hx. destruct x as [a|e]; [by eapply Hf|]. by destruct Hr as [-> ->].
Qed.

Lemma wpt_ret {A : Type} (a : A) (Q : A -> kvstore -> Prop) m : Q a m -> wpt T I (Ret (Ok a)) Q m.
Proof. by intros HQ r m' [-> ->]. Qed.

Lemma wpt_err {A : Type} (e : E) (Q : A -> kvstore -> Prop) m : I e m -> wpt T I (Ret (Err e)) Q m.
Proof. by intros HI r m' [-> ->]. Qed.

Lemma wpt_ok {A B : Type} (a : A) (f : A -> prog (result E B)) R m : wpt T I (f a) R m -> wpt T I (try_bind (Ret (Ok a)) f) R m.
Proof. intros Hf. eapply (wpt_try _ _ (fun x m1 => x = a /\ m1 = m)); [by apply wpt_ret|]. by intros ? ? [-> ->]. Qed.

Lemma wpt_of_ro {A : Type} (p : prog (result E A)) (J : E -> Prop) (Q : A -> Prop) m :
  ro T m J p Q -> (forall e, J e -> I e m) -> wpt T I p (fun a m' => m' = m /\ Q a) m.
Proof. intros Hp HI r m' [-> Hr]%Hp. destruct r; auto. Qed.

Lemma wpt_mono {A : Type} (p : prog (result E A)) (Q R : A -> kvstore -> Prop) m :
  wpt T I p Q m -> (forall a m', Q a m' -> R a m') -> wpt T I p R m.
Proof. intros Hp HR r m' Hr. specialize (Hp r m' Hr). destruct r; auto. Qed.
End wpt.

Lemma wpt_map_err {E E' A : Type} (T : Z -> Prop) (I : E -> kvstore -> Prop) (J : E' -> kvstore -> Prop) (g : E -> E')
    (p : prog (result E A)) Q m :
  wpt T I p Q m -> (forall e m', I e m' -> J (g e) m') -> wpt T J (prog_map_err g p) Q m.
Proof. intros Hp HJ r m' (x & m1 & Hx & -> & ->)%runs_at_bind. specialize (Hp x m1 Hx). destruct x; cbn; auto. Qed.

(** Refusals: every early return is an error message. *)
Definition refused (s : stop KdcResponse) : Prop :=
  match s with Panic => True | Return r => exists e, r = KdcError e end.

Lemma ro_fail {A : Type} (T : Z -> Prop) m code realm sname text (Q : A -> Prop) : ro T m refused (fail code realm sname text) Q.
Proof.
  intros r m' (t & m1 & Hm & _ & -> & ->). cbn [served] in Hm. subst. split; [done|]. by eexists.
Qed.

Lemma ro_or_fail {A : Type} (T : Z -> Prop) m (o : option A) f (Q : A -> Prop) :
  (forall a, o = Some a -> Q a) -> ro T m refused f Q -> ro T m refused (or_fail o f) Q.
Proof. intros HQ Hf. destruct o as [a|]; [|done]. apply ro_ret. auto. Qed.

(** ** Keys *)

Lemma find_key_in (e : Enctype) ks k : find_key e ks = Some k -> k ∈ ks /\ pk_enctype k = e.
Proof. intros [Hin Hb]%find_some. apply list_elem_of_In in Hin. by apply bool_decide_eq_true in Hb. Qed.

Lemma preferred_key_in wanted ks k : preferred_key wanted ks = Some k -> k ∈ ks.
Proof.
  unfold preferred_key. destruct (List.find wanted ks) as [k'|] eqn:Hf.
  - intros [= <-]. apply find_some in Hf as [Hin _]. by apply list_elem_of_In.
  - destruct ks; [done|]. cbn. intros [= <-]. set_solver.
Qed.

(** A preference by enctype takes the first key of the enctype it settles on. *)
Lemma preferred_key_first (wanted : Enctype -> bool) ks k :
  preferred_key (fun k => wanted (pk_enctype k)) ks = Some k -> find_key (pk_enctype k) ks = Some k.
Proof.
  unfold preferred_key, find_key. destruct (List.find _ ks) as [k'|] eqn:Hf.
  - intros [= <-]. induction ks as [|x ks IH]; cbn [List.find] in *; [done|].
    destruct (wanted (pk_enctype x)) eqn:Hw; [injection Hf as <-; by rewrite bool_decide_true|].
    rewrite bool_decide_false; [auto|]. intros Hx. apply find_some in Hf as [_ Hk]. congruence.
  - destruct ks as [|x ks]; [done|]. intros [= <-]. cbn [List.find]. by rewrite bool_decide_true.
Qed.

Lemma key_len_nonneg e : 0 <= key_len e.
Proof. by destruct e. Qed.

Lemma try_from_etype e : try_from (etype_number e) = Some e.
Proof. by destruct e. Qed.

(** ** What is read of the directory *)

Section spec.
  Context `{EntryCodec} `{Base64} `{!OpenSsl, !OpenSslLaws} `{!KrbCodec}.
  Context (T : Z -> Prop) (app : AppState) (Hst : connected (app_store app)) (F : forest) (m : kvstore)
    (HF : holds (app_store app) index_spec F m).

(** The one entry of the served partition with this principal name. *)
Definition principal_at (name : rstring) (dn : Dn) (e : Entry) : Prop :=
  (forall d, indexed_dn (app_store app) F (app_base_dn app) ATTR_PRINCIPAL_NAME name d <-> d = dn) /\
  exists dn', find_entry (app_store app) F dn = Some (dn', e).

(** The keys stored on an entry. *)
Definition has_keys (e : Entry) (ks : list PrincipalKey) : Prop := Principal.keys e = Some (Ok ks).

(** A ciphertext of the message [a]. *)
Definition seals {A : Type} `{!Der A} (e : Enctype) (key : bytes) (usage : Z) (cipher : bytes) (a : A) : Prop :=
  exists b, decrypt e key usage cipher = Ok b /\ der_decode b = Some a.

Lemma ro_lookup_one name :
  ro T m (fun _ => True) (lookup_one app name)
    (fun dn => forall d, indexed_dn (app_store app) F (app_base_dn app) ATTR_PRINCIPAL_NAME name d <-> d = dn).
Proof.
  apply ro_runs. intros r m' (x & m1 & Hx & -> & ->)%runs_bind. apply (lookup_runs _ Hst index_spec F) in Hx as [-> Hx]; [|done|by_decide].
  destruct Hx as [[e ->]|(l & -> & _ & Hl)]; [done|]. destruct l as [|dn [|? ?]]; [done| |done]. split; [done|].
  intros d. rewrite <- Hl. apply list_elem_of_singleton.
Qed.

Lemma ro_fetch dn :
  ro T m (fun _ => True) (fetch app dn) (fun e => exists dn', find_entry (app_store app) F dn = Some (dn', e)).
Proof.
  apply ro_runs. intros r m' (x & m1 & Hx & -> & ->)%runs_bind. apply (get_entry_runs _ Hst index_spec F) in Hx as [-> Hx]; [|done].
  destruct Hx as [->|[e ->]]; [|done]. destruct (find_entry _ F dn) as [[dn' e]|]; [|done]. split; [done|]. by exists dn'.
Qed.

Lemma ro_keys {R : Type} (I : stop R -> Prop) e (f : PrincipalError -> prog (result (stop R) (list PrincipalKey))) :
  I Panic -> (forall x, ro T m I (f x) (has_keys e)) -> ro T m I (entry_keys e f) (has_keys e).
Proof.
  intros HI Hf. unfold entry_keys. destruct (Principal.keys e) as [[ks|x]|] eqn:Hk.
  - by apply ro_ret.
  - apply Hf.
  - by apply ro_err.
Qed.

Lemma ro_random n : 0 <= n -> ro T m (fun _ => True) (random_bytes n) (fun b => zlen b = n /\ bytes_ok b).
Proof.
  intros Hn. apply ro_runs. intros r m' (rep & m1 & (-> & Hrep) & -> & ->). destruct Hrep as [->|(b & -> & Hl & Hb)]; [done|].
  split; [done|]. split; [|done]. unfold zlen. rewrite Hl. lia.
Qed.

(** What was sealed can be opened with the same key. *)
Lemma ro_encrypt {A : Type} `{!Der A, !DerLaw A} e key usage (a : A) b :
  zlen key = key_len e -> der_encode a = Some b ->
  ro T m (fun _ => True) (encrypt_with e key usage b) (fun c => seals e key usage c a).
Proof.
  intros Hk Ha. apply ro_runs. intros r m' (rep & m1 & (-> & Hrep) & -> & ->). destruct Hrep as [->|(conf & -> & Hl & Hb)].
  { unfold encrypt. by destruct (derive_ke_ki e key usage). }
  destruct (encrypt_decrypt e key usage conf b Hk) as (c & -> & Hd & _); [unfold zlen; by rewrite Hl|].
  split; [done|]. exists b. split; [done|by apply der_roundtrip].
Qed.

Lemma ro_encrypt_if {A : Type} `{!Der A, !DerLaw A} e key usage (a : A) b :
  der_encode a = Some b ->
  ro T m (fun _ => True) (encrypt_with e key usage b) (fun c => zlen key = key_len e -> seals e key usage c a).
Proof.
  intros Ha. destruct (decide (zlen key = key_len e)) as [Hk|Hk].
  - eapply ro_mono; [by apply (ro_encrypt e key usage a)|done|auto].
  - apply ro_runs. intros r m' (rep & m1 & (-> & _) & -> & ->). split; [done|]. by destruct (encrypt _ _ _ _ _).
Qed.

(** Keys of the lengths of their enctypes. *)
Definition keys_wf (ks : list PrincipalKey) : Prop :=
  Forall (fun k => zlen (pk_key k) = key_len (pk_enctype k)) ks.

(** Every key stored in the directory has the length of its enctype. *)
Definition forest_keys_wf : Prop :=
  forall dn dn' e ks, find_entry (app_store app) F dn = Some (dn', e) -> has_keys e ks -> keys_wf ks.

(** The authorization data of a ticket is that of its client: a PAC with the
    SID and groups the directory has for it, signed with the two keys. *)
Definition pac_for (client_dn : Dn) (client : Entry) (auth_time : KerberosTime) (server_key kdc_key : PrincipalKey)
    (ad : list AuthorizationDataValue) : Prop :=
  exists c pac, entry_sid client = Some (ctx_client_sid c) /\
    (forall rid, rid ∈ ctx_group_rids c -> member_rid (app_store app) F (app_base_dn app) client_dn rid) /\
    generate (as_input c (auth_time / NANOS)) (pk_key server_key) (pk_enctype server_key)
      (pk_key kdc_key) (pk_enctype kdc_key) = Ok pac /\
    wrap_pac_authorization_data pac = Some ad.

Definition context_for (client_dn : Dn) (client : Entry) (ctx : option PacContext) : Prop :=
  forall c, ctx = Some c -> entry_sid client = Some (ctx_client_sid c) /\
    forall rid, rid ∈ ctx_group_rids c -> member_rid (app_store app) F (app_base_dn app) client_dn rid.

Lemma pac_authorization_data_for client_dn client ctx t sk kk ad :
  context_for client_dn client ctx -> pac_authorization_data ctx t sk kk = Some ad -> pac_for client_dn client t sk kk ad.
Proof.
  intros Hc. unfold pac_authorization_data. destruct ctx as [c|]; [|done]. cbn [mbind option_bind].
  destruct (Hc c eq_refl) as [Hs Hg]. destruct (generate _ _ _ _ _) as [pac|] eqn:Hgen; [|done]. intros Hw.
  by exists c, pac.
Qed.

(** Gathering the context. *)
Lemma gather_runs realm client_dn client c m' :
  runs (gather_context (app_store app) (app_base_dn app) (app_topology app) realm client_dn client) m c m' ->
  m' = m /\ context_for client_dn client c.
Proof.
  destruct c as [c|]; intros Hr.
  - apply (gather_context_runs _ Hst index_spec F) in Hr as (-> & Hs & Hg); [|done|by_decide]. split; [done|].
    by intros ? [= <-].
  - split; [|done]. revert Hr. unfold gather_context. destruct (pac_identity _ _ _) as [[[? ?] ?]|]; [|by intros [_ ->]].
    rewrite runs_bind. intros (rids & m1 & _ & [? _]). done.
Qed.
End spec.

(** ** Passwords *)

Section password.
  Context `{EntryCodec} `{!OpenSsl, !OpenSslLaws}.

(** The keys [set_password] stores, the first of them for the stronger
    enctype. *)
Lemma set_password_first random entry name password :
  zlen random = MIN_SALT_LEN -> bytes_ok random -> 8 <= zlen password ->
  exists e k1 k2, set_password (Some random) entry name password = Ok e /\
    has_keys e [mkPrincipalKey Aes256CtsHmacSha384_192 1 k1; mkPrincipalKey Aes256CtsHmacSha1_96 1 k2] /\
    Principal.salt e = Ok (to_hex random) /\ string_to_key Aes256CtsHmacSha384_192 password (to_hex random) None = Ok k1 /\
    keys_wf [mkPrincipalKey Aes256CtsHmacSha384_192 1 k1; mkPrincipalKey Aes256CtsHmacSha1_96 1 k2].
Proof.
  intros Hr Hb Hp. destruct (derive_key_values_ok password (to_hex random)) as (l & Hl & Hd);
    [done|rewrite zlen_to_hex, Hr; by vm_compute|].
  unfold set_password. cbn [ok_or map_err mbind result_bind]. rewrite utf8_to_hex by done. rewrite Hd. cbn [map_err mbind result_bind].
  destruct (stored_keys_read entry name (to_hex random) password l) as (_ & Hs & Hk & _); [by rewrite utf8_to_hex|].
  rewrite utf8_to_hex in Hs by done. destruct Hl as [Hm Hall]. destruct l as [|[e1 k1] [|[e2 k2] [|? ?]]]; try done.
  cbn [map fst] in Hm. injection Hm as -> ->. exists (store_keys entry name (to_hex random)
    (map (fun ek => key_value ek.1 ek.2) [(Aes256CtsHmacSha384_192, k1); (Aes256CtsHmacSha1_96, k2)])), k1, k2.
  split; [done|]. split; [exact Hk|]. split; [exact Hs|].
  apply Forall_cons in Hall as [(? & ? & _) Hall]. apply Forall_cons in Hall as [(_ & ? & _) _]. split; [done|]. by repeat constructor.
Qed.

Lemma hex_permitted l : bytes_ok l -> forallb permitted (to_hex l) = true.
Proof.
  intros Hl. apply forallb_forall. intros c Hc%list_elem_of_In. pose proof (to_hex_ascii l Hl) as Ha. rewrite Forall_forall in Ha.
  specialize (Ha c Hc). simpl in Ha. unfold permitted. rewrite (proj2 (Z.leb_le 0 c)), (proj2 (Z.leb_le c 127)) by lia. done.
Qed.
End password.
