(* ===== verification/KdcAs.v ===== *)
(** The authentication service, [crates/kdc/src/as_exchange.rs]: a ticket for a
    client that proved knowledge of its key with an encrypted timestamp. *)

From S2P Require Import Prelude Bytes Str Btree Utf8 Decimal Dn Partition Key Registry Entry Etcd Index Ridpool Store.
From S2P Require Import Directory Sid Nfold Kerberos Md4 Password Principal BinaryAttrs Ndr Krb Pac Kdc.

Definition PA_ENC_TIMESTAMP : Z := 2.
Definition PA_ETYPE_INFO2 : Z := 19.

Section as_exchange.
  Context `{EntryCodec} `{Base64} `{!OpenSsl} `{!KrbCodec} `{!ErrorText}.

(** [fresh_fips]: whether a second FIPS context can be made. *)
  Context (fresh_fips : result Error unit).

Definition realm_str (req : KdcReq) : rstring := realm_to_string (rb_realm (req_body req)).
Definition kdc_sname (req : KdcReq) : PrincipalName := krbtgt_principal_name (realm_str req).

Definition ticket_sname (req : KdcReq) : PrincipalName :=
  match rb_sname (req_body req) with
  | Some s => if is_changepw s then s else kdc_sname req
  | None => kdc_sname req
  end.

(** An error response that names the ticket-granting service. *)
Definition req_fail {A} (req : KdcReq) (code : Z) (text : rstring) : prog (result (stop KdcResponse) A) :=
  fail code (realm_str req) (kdc_sname req) text.

(** Reading the client: its DN, entry, keys and salt. *)
Definition as_client (app : AppState) (req : KdcReq) (cname : PrincipalName)
    : prog (result (stop KdcResponse) (Dn * Entry * list PrincipalKey * bytes)) :=
  let client_principal := fqn (principal_name_to_string cname) (realm_str req) in
  let unknown {A} (e : option (StoreError json_error)) : prog (result (stop KdcResponse) A) :=
    match e with
    | None => req_fail req KDC_ERR_C_PRINCIPAL_UNKNOWN (str "no such principal " ++ client_principal)
    | Some e => req_fail req KRB_ERR_GENERIC (store_text e)
    end in
  client_dn <-? catch (lookup_one app client_principal) unknown ;;
  client_entry <-? catch (fetch app client_dn) unknown ;;
  client_keys <-? entry_keys client_entry (fun e => req_fail req KDC_ERR_C_PRINCIPAL_UNKNOWN (principal_text e)) ;;
  client_salt <-? catch (lift (Principal.salt client_entry))
    (fun e => req_fail req KDC_ERR_C_PRINCIPAL_UNKNOWN (principal_text e)) ;;
  Ret (Ok (client_dn, client_entry, client_keys, client_salt)).

Definition etype_info2 (client_keys : list PrincipalKey) (client_salt : bytes) : list EtypeInfo2Entry :=
  omap (fun k => salt ← gstring_from_bytes client_salt; Some (mkEtypeInfo2 (etype_number (pk_enctype k)) (Some salt)))
    client_keys.

Definition preauth_data (client_keys : list PrincipalKey) (client_salt : bytes) : option bytes :=
  encoded ← der_encode (etype_info2 client_keys client_salt);
  encode_method_data [mkPaData PA_ENC_TIMESTAMP []; mkPaData PA_ETYPE_INFO2 encoded].

Definition preauth_required {A} (req : KdcReq) (client_keys : list PrincipalKey) (client_salt : bytes)
    : prog (result (stop KdcResponse) A) :=
  Call Now (fun t => Ret (Err (Return (KdcError (krberror_build t KDC_ERR_PREAUTH_REQUIRED (realm_str req) (kdc_sname req)
    (Some (str "additional pre-authentication required")) (preauth_data client_keys client_salt)))))).

Definition find_padata (ty : Z) (req : KdcReq) : option PaData :=
  l ← padata req; List.find (fun p => pa_type p =? ty) l.

(** Pre-authentication: the key the timestamp was encrypted with. *)
Definition as_preauth (req : KdcReq) (client_keys : list PrincipalKey) (client_salt : bytes)
    : prog (result (stop KdcResponse) PrincipalKey) :=
  pa <-? or_fail (find_padata PA_ENC_TIMESTAMP req) (preauth_required req client_keys client_salt) ;;
  enc_data <-? or_fail (der_decode (pa_value pa))
    (req_fail req KDC_ERR_PREAUTH_FAILED (str "malformed PA-ENC-TIMESTAMP: " ++ decode_text (pa_value pa))) ;;
  enctype <-? or_fail (try_from (ed_etype enc_data))
    (req_fail req KDC_ERR_ETYPE_NOSUPP (str "unsupported PA-ENC-TIMESTAMP etype")) ;;
  client_key <-? or_fail (find_key enctype client_keys)
    (req_fail req KDC_ERR_PREAUTH_FAILED (str "no key for the etype used in PA-ENC-TIMESTAMP")) ;;
  ts_plain <-? catch (lift (decrypt enctype (pk_key client_key) 1 (ed_cipher enc_data)))
    (fun _ => req_fail req KDC_ERR_PREAUTH_FAILED (str "PA-ENC-TIMESTAMP decryption failed (wrong password)")) ;;
  pa_enc_ts_enc <-? or_fail (der_decode ts_plain)
    (req_fail req KDC_ERR_PREAUTH_FAILED (str "malformed PA-ENC-TS-ENC: " ++ decode_text ts_plain)) ;;
  t <-? read_clock ;;
  let server_now := (now_of t).1 in
  if CLOCK_SKEW_SECS <? Z.abs (diff_seconds server_now (patimestamp pa_enc_ts_enc))
  then req_fail req KRB_AP_ERR_SKEW (str "clock skew too great")
  else Ret (Ok client_key).

(** The entry whose key seals the ticket. *)
Definition as_krbtgt (app : AppState) (req : KdcReq) : prog (result (stop KdcResponse) Entry) :=
  krbtgt_dn <-? catch (lookup_one app (fqn (principal_name_to_string (kdc_sname req)) (realm_str req)))
    (fun _ => req_fail req KRB_ERR_GENERIC (str "krbtgt principal not provisioned for this realm")) ;;
  catch (fetch app krbtgt_dn) (fun _ => req_fail req KRB_ERR_GENERIC (str "krbtgt principal entry missing")).

(** The ticket and the reply. *)
Definition as_issue (req : KdcReq) (cname : PrincipalName) (client_key krbtgt_key : PrincipalKey)
    (pac_context : option PacContext) : prog (result (stop KdcResponse) KdcResponse) :=
  let realm := rb_realm (req_body req) in
  let enctype := pk_enctype client_key in
  let crypto {A} (e : Error) : prog (result (stop KdcResponse) A) := req_fail req KRB_ERR_GENERIC (crypto_text e) in
  session_key_bytes <-? catch (random_bytes (key_len enctype)) crypto ;;
  let session_key := mkEncryptionKey (etype_number enctype) session_key_bytes in
  t1 <-? read_clock ;;
  let auth_time := (now_of t1).1 in
  t2 <-? read_clock ;;
  let end_time := plus_seconds_of t2 (if is_changepw (ticket_sname req) then 300 else TICKET_LIFETIME_SECS) in
  let flags := ticket_flags [flag_INITIAL; flag_PRE_AUTHENT] in
  let enc_ticket_part := mkEncTicketPart flags session_key realm cname auth_time end_time
    (pac_authorization_data pac_context auth_time krbtgt_key krbtgt_key) in
  enc_ticket_bytes <-? or_fail (der_encode enc_ticket_part) (req_fail req KRB_ERR_GENERIC encode_text) ;;
  _ <-? catch (lift fresh_fips) crypto ;;
  ticket_cipher <-? catch (encrypt_with (pk_enctype krbtgt_key) (pk_key krbtgt_key) 2 enc_ticket_bytes) crypto ;;
  let ticket := mkTicket realm (ticket_sname req)
    (mkEncryptedData (etype_number (pk_enctype krbtgt_key)) (Some (pk_kvno krbtgt_key)) ticket_cipher) in
  let enc_kdc_rep_part := mkEncKdcRepPart session_key (rb_nonce (req_body req)) flags auth_time end_time realm (ticket_sname req) in
  enc_as_rep_bytes <-? or_fail (der_encode (mkEncAsRepPart enc_kdc_rep_part)) (req_fail req KRB_ERR_GENERIC encode_text) ;;
  enc_part_cipher <-? catch (encrypt_with enctype (pk_key client_key) 3 enc_as_rep_bytes) crypto ;;
  Ret (Ok (AsRep (mkKdcRep realm cname ticket
    (mkEncryptedData (etype_number enctype) (Some (pk_kvno client_key)) enc_part_cipher)))).

Definition as_handle (app : AppState) (req : KdcReq) : prog (option KdcResponse) :=
  settle (
    cname <-? or_fail (rb_cname (req_body req)) (req_fail req KDC_ERR_C_PRINCIPAL_UNKNOWN (str "no client name in request")) ;;
    client <-? as_client app req cname ;;
    let '(client_dn, client_entry, client_keys, client_salt) := client in
    client_key <-? as_preauth req client_keys client_salt ;;
    krbtgt_entry <-? as_krbtgt app req ;;
    prog_bind_ (fun pac_context =>
        krbtgt_keys <-? entry_keys krbtgt_entry (fun e => req_fail req KRB_ERR_GENERIC (principal_text e)) ;;
        krbtgt_key <-? or_fail (preferred_key (fun k => bool_decide (pk_enctype k = pk_enctype client_key)) krbtgt_keys)
          (req_fail req KRB_ERR_GENERIC (str "krbtgt has no keys")) ;;
        as_issue req cname client_key krbtgt_key pac_context)
      (gather_context (app_store app) (app_base_dn app) (app_topology app) (realm_str req) client_dn client_entry)).
End as_exchange.

(** ** What an answer means *)

Section as_spec.
  Context `{EntryCodec} `{Base64} `{!OpenSsl, !OpenSslLaws} `{!KrbCodec} `{!ErrorText}.
  Context `{!DerLaw EncTicketPart, !DerLaw EncAsRepPart}.
  Context (fresh_fips : result Error unit) (T : Z -> Prop) (app : AppState) (Hst : connected (app_store app))
    (F : forest) (m : kvstore) (HF : holds (app_store app) index_spec F m) (Hwf : forest_keys_wf app F).
  Implicit Types (req : KdcReq) (k ck kk : PrincipalKey).

(** The request carries a timestamp sealed with [k], within the allowed skew of
    a reading of the server's clock. *)
Definition proves_key req k : Prop :=
  exists pa enc ts now, find_padata PA_ENC_TIMESTAMP req = Some pa /\ der_decode (pa_value pa) = Some enc /\
    try_from (ed_etype enc) = Some (pk_enctype k) /\ seals (pk_enctype k) (pk_key k) 1 (ed_cipher enc) ts /\
    T now /\ Z.abs (diff_seconds (whole_seconds now) (patimestamp ts)) <= CLOCK_SKEW_SECS.

(** The parts of a ticket and reply under one session key: the ticket opens
    with the service's key, the reply with the client's, and both name the
    client, the times and the session key. *)
Definition as_reply_for req cname ck kk client_dn client (rep : KdcRep) : Prop :=
  exists session_key t1 t2 ad, zlen session_key = key_len (pk_enctype ck) /\ bytes_ok session_key /\ T t1 /\ T t2 /\
    let key := mkEncryptionKey (etype_number (pk_enctype ck)) session_key in
    let flags := ticket_flags [flag_INITIAL; flag_PRE_AUTHENT] in
    let realm := rb_realm (req_body req) in
    let end_time := plus_seconds_of t2 (if is_changepw (ticket_sname req) then 300 else TICKET_LIFETIME_SECS) in
    rep_crealm rep = realm /\ rep_cname rep = cname /\
    tkt_realm (rep_ticket rep) = realm /\ tkt_sname (rep_ticket rep) = ticket_sname req /\
    try_from (ed_etype (tkt_enc_part (rep_ticket rep))) = Some (pk_enctype kk) /\
    seals (pk_enctype kk) (pk_key kk) 2 (ed_cipher (tkt_enc_part (rep_ticket rep)))
      (mkEncTicketPart flags key realm cname (whole_seconds t1) end_time ad) /\
    (forall a, ad = Some a -> pac_for app F client_dn client (whole_seconds t1) kk kk a) /\
    ed_etype (rep_enc_part rep) = etype_number (pk_enctype ck) /\
    seals (pk_enctype ck) (pk_key ck) 3 (ed_cipher (rep_enc_part rep))
      (mkEncAsRepPart (mkEncKdcRepPart key (rb_nonce (req_body req)) flags (whole_seconds t1) end_time realm (ticket_sname req))).

(** An answer to the request that the directory justifies. *)
Definition as_justified req (rep : KdcRep) : Prop :=
  exists cname client_dn client ck ks krbtgt_dn krbtgt kk kks,
    rb_cname (req_body req) = Some cname /\
    principal_at app F (fqn (principal_name_to_string cname) (realm_str req)) client_dn client /\
    has_keys client ks /\ ck ∈ ks /\ proves_key req ck /\
    principal_at app F (fqn (principal_name_to_string (kdc_sname req)) (realm_str req)) krbtgt_dn krbtgt /\
    has_keys krbtgt kks /\ kk ∈ kks /\
    as_reply_for req cname ck kk client_dn client rep.

Lemma ro_req_fail {A : Type} req code text (Q : A -> Prop) : ro T m refused (req_fail req code text) Q.
Proof. apply ro_fail. Qed.

Lemma ro_client req cname :
  ro T m refused (as_client app req cname) (fun c => let '(dn, e, ks, _) := c in
    principal_at app F (fqn (principal_name_to_string cname) (realm_str req)) dn e /\ has_keys e ks).
Proof.
  unfold as_client. eapply ro_try.
  { apply ro_catch; [by apply (ro_lookup_one T app Hst F m HF)|]. intros [e|]; apply ro_req_fail. }
  intros dn Hdn. eapply ro_try.
  { apply ro_catch; [by apply (ro_fetch T app Hst F m HF)|]. intros [e|]; apply ro_req_fail. }
  intros e He. eapply ro_try; [apply ro_keys; [done|intros; apply ro_req_fail]|]. intros ks Hks.
  eapply (ro_try _ _ _ _ _ (fun _ => True)).
  { apply ro_catch; [by apply ro_lift|]. intros; apply ro_req_fail. }
  intros salt _. apply ro_ret. by repeat split; try done; apply Hdn.
Qed.

Lemma ro_preauth req ks salt :
  ro T m refused (as_preauth req ks salt) (fun k => k ∈ ks /\ proves_key req k).
Proof.
  unfold as_preauth. eapply ro_try.
  { apply (ro_or_fail _ _ _ _ (fun pa => find_padata PA_ENC_TIMESTAMP req = Some pa)); [done|].
    intros r m' (t & m1 & Hm & _ & -> & ->). cbn [served] in Hm. subst. split; [done|]. by eexists. }
  intros pa Hpa. eapply ro_try; [apply (ro_or_fail _ _ _ _ (fun enc => der_decode (pa_value pa) = Some enc)); [done|apply ro_req_fail]|].
  intros enc Henc. eapply ro_try; [apply (ro_or_fail _ _ _ _ (fun e => try_from (ed_etype enc) = Some e)); [done|apply ro_req_fail]|].
  intros e He. eapply ro_try; [apply (ro_or_fail _ _ _ _ (fun k => k ∈ ks /\ pk_enctype k = e)); [apply find_key_in|apply ro_req_fail]|].
  intros k [Hin <-]. eapply ro_try.
  { apply (ro_catch _ _ _ _ _ (fun b => decrypt (pk_enctype k) (pk_key k) 1 (ed_cipher enc) = Ok b)); [by apply ro_lift|intros; apply ro_req_fail]. }
  intros b Hb. eapply ro_try; [apply (ro_or_fail _ _ _ _ (fun ts => der_decode b = Some ts)); [done|apply ro_req_fail]|].
  intros ts Hts. apply ro_clock. intros now Hnow. cbn zeta.
  destruct (Z.ltb_spec CLOCK_SKEW_SECS (Z.abs (diff_seconds (now_of now).1 (patimestamp ts)))) as [|Hle]; [apply ro_req_fail|].
  apply ro_ret. split; [done|]. exists pa, enc, ts, now. repeat split; try done. by exists b.
Qed.

Lemma ro_krbtgt req :
  ro T m refused (as_krbtgt app req)
    (fun e => exists dn, principal_at app F (fqn (principal_name_to_string (kdc_sname req)) (realm_str req)) dn e).
Proof.
  unfold as_krbtgt. eapply ro_try.
  { apply ro_catch; [by apply (ro_lookup_one T app Hst F m HF)|]. intros; apply ro_req_fail. }
  intros dn Hdn. eapply ro_mono; [apply ro_catch; [by apply (ro_fetch T app Hst F m HF)|intros; apply ro_req_fail]|done|].
  intros e He. by exists dn.
Qed.

Lemma ro_issue req cname ck kk client_dn client ctx :
  zlen (pk_key ck) = key_len (pk_enctype ck) -> zlen (pk_key kk) = key_len (pk_enctype kk) ->
  context_for app F client_dn client ctx ->
  ro T m refused (as_issue fresh_fips req cname ck kk ctx)
    (fun r => exists rep, r = AsRep rep /\ as_reply_for req cname ck kk client_dn client rep).
Proof.
  intros Hck Hkk Hctx. unfold as_issue. eapply ro_try.
  { apply ro_catch; [apply ro_random, key_len_nonneg|intros; apply ro_req_fail]. }
  intros sk [Hsk Hskb]. apply ro_clock. intros t1 Ht1. apply ro_clock. intros t2 Ht2. cbn zeta.
  set (part := mkEncTicketPart _ _ _ _ _ _ _). eapply ro_try.
  { apply (ro_or_fail _ _ _ _ (fun b => der_encode part = Some b)); [done|apply ro_req_fail]. }
  intros b Hb. eapply (ro_try _ _ _ _ _ (fun _ => True)).
  { apply ro_catch; [by apply ro_lift|intros; apply ro_req_fail]. }
  intros _ _. eapply ro_try; [apply ro_catch; [by apply (ro_encrypt T m _ _ _ part)|intros; apply ro_req_fail]|].
  intros cipher Hcipher. set (rp := mkEncAsRepPart _). eapply ro_try.
  { apply (ro_or_fail _ _ _ _ (fun b => der_encode rp = Some b)); [done|apply ro_req_fail]. }
  intros b' Hb'. eapply ro_try; [apply ro_catch; [by apply (ro_encrypt T m _ _ _ rp)|intros; apply ro_req_fail]|].
  intros cipher' Hcipher'. apply ro_ret. eexists. split; [done|].
  exists sk, t1, t2, (pac_authorization_data ctx (whole_seconds t1) kk kk). cbn [rep_crealm rep_cname rep_ticket rep_enc_part
    tkt_realm tkt_sname tkt_enc_part ed_etype ed_cipher]. rewrite try_from_etype. repeat split; try done.
  intros a Ha. by eapply pac_authorization_data_for.
Qed.

Lemma as_handle_spec req r m' :
  runs_at T (as_handle fresh_fips app req) m r m' ->
  m' = m /\ forall resp, r = Some resp ->
    (exists rep, resp = AsRep rep /\ as_justified req rep) \/ (exists e, resp = KdcError e).
Proof.
  intros Hr. eapply (settle_runs _ _ _ refused (fun resp => exists rep, resp = AsRep rep /\ as_justified req rep)) in Hr;
    [exact Hr|]. clear Hr r m'.
  eapply ro_try; [apply (ro_or_fail _ _ _ _ (fun c => rb_cname (req_body req) = Some c)); [done|apply ro_req_fail]|].
  intros cname Hcname. eapply ro_try; [apply ro_client|]. intros [[[dn e] ks] salt] [Hat Hks].
  eapply ro_try; [apply ro_preauth|]. intros ck [Hck Hproof].
  eapply ro_try; [apply ro_krbtgt|]. intros krbtgt [kdn Hkat].
  intros r m' (ctx & m1 & Hctx & Hr)%runs_at_bind. apply runs_at_runs, (gather_runs app Hst F m HF) in Hctx as [-> Hctx].
  revert r m' Hr. eapply ro_try; [apply ro_keys; [done|intros; apply ro_req_fail]|]. intros kks Hkks.
  eapply ro_try; [apply (ro_or_fail _ _ _ _ (fun k => k ∈ kks)); [intros k; apply preferred_key_in|apply ro_req_fail]|].
  intros kk Hkk. destruct (Hat) as [_ [dn' Hfind]]. destruct Hkat as [Hku [kdn' Hkfind]].
  pose proof (proj1 (Forall_forall _ _) (Hwf _ _ _ _ Hfind Hks) ck Hck) as Hlen.
  pose proof (proj1 (Forall_forall _ _) (Hwf _ _ _ _ Hkfind Hkks) kk Hkk) as Hklen.
  eapply ro_mono; [by apply (ro_issue _ _ _ _ dn e)|done|]. intros resp (rep & -> & Hrep). exists rep. split; [done|].
  exists cname, dn, e, ck, ks, kdn, krbtgt, kk, kks. repeat split; try done; [apply Hat..|apply Hku|by apply Hku|by exists kdn'].
Qed.
(** C7: The authentication service gives a ticket only to a request that
    proves, with a fresh timestamp, knowledge of a key the directory stores for
    the named client.  The ticket opens with a key of the realm's
    ticket-granting service and the reply with the proved key; both carry the
    same fresh session key and the client's name, and a PAC, if there is one,
    has the SID and groups of this client.  Any other answer is an error
    message, and nothing is written. *)
Theorem as_exchange_correct req r m' :
  runs_at T (as_handle fresh_fips app req) m r m' ->
  m' = m /\ forall resp, r = Some resp ->
    (exists rep, resp = AsRep rep /\ as_justified req rep) \/ (exists e, resp = KdcError e).
Proof. apply as_handle_spec. Qed.
End as_spec.

(** ** An example realm

    A client, the ticket-granting service and an LDAP service, with keys
    derived from passwords. *)

#[local] Existing Instance bit_codec.
#[local] Existing Instance hex_base64.
#[local] Existing Instance demo_ssl.
#[local] Existing Instance demo_ssl_laws.
#[local] Existing Instance PlainCodec.plain_codec.
#[local] Existing Instance PlainCodec.plain_enc_ticket_law.
#[local] Existing Instance PlainCodec.plain_as_rep_law.

Definition plain_text : @ErrorText bit_codec := {|
  store_text _ := []; principal_text _ := []; crypto_text _ := []; decode_text _ := []; encode_text := [] |}.
#[local] Existing Instance plain_text.

Definition ex_realm : rstring := str "G10.LO".
Definition with_key (cn name : rstring) (password : bytes) : Entry :=
  match set_password (Some (replicate 16 3)) (Entry.set Entry.new (str "cn") [cn]) name password with
  | Ok e => e
  | Err _ => Entry.new
  end.

Definition krbtgt_dn : Dn := dn_of (str "cn=krbtgt,ou=users,dc=g10,dc=lo").
Definition service_dn : Dn := dn_of (str "cn=dc,ou=users,dc=g10,dc=lo").
Definition alice_entry : Entry := Eval vm_compute in with_key (str "Alice") (str "alice@G10.LO") (str "correcthorse").
Definition krbtgt_entry : Entry := Eval vm_compute in with_key (str "krbtgt") (str "krbtgt/G10.LO@G10.LO") (str "ticket-granting").
Definition service_entry : Entry := Eval vm_compute in with_key (str "dc") (str "ldap/dc.g10.lo@G10.LO") (str "directory").

Definition ex_app : AppState := mkAppState ex_st alice ex_realm None None.

Definition kdc_forest : forest :=
  set_entry ex_st (set_entry ex_st (set_entry ex_st ∅ alice alice_entry) krbtgt_dn krbtgt_entry) service_dn service_entry.
Definition put_all (l : list (Dn * Entry)) (m : kvstore) : kvstore :=
  foldl (fun m de => (exec zeros (Store.put_entry ex_st de.1 de.2 index_spec) m).2) m l.
Definition kdc_store : kvstore := put_all [(alice, alice_entry); (krbtgt_dn, krbtgt_entry); (service_dn, service_entry)] ∅.

Lemma with_key_wf cn name password : str_ok cn -> str_ok name -> entry_wf (with_key cn name password).
Proof.
  intros Hc Hn. unfold with_key. destruct (set_password _ _ _ _) as [e|] eqn:He; [|apply entry_new_wf].
  eapply (set_password_wf (replicate 16 3)); [reflexivity|by repeat constructor|exact Hn| |exact He].
  apply entry_set_wf; [apply entry_new_wf|apply str_ok_str|by repeat constructor].
Qed.

Lemma kdc_dn_ok s : dn_wfb (dn_of (str s)) = true -> Dn.to_string (dn_of (str s)) = str s -> dn_ok (dn_of (str s)).
Proof. intros Hw Hs. constructor; [by apply dn_wfb_sound|]. rewrite Hs. apply str_ok_str. Qed.

Lemma kdc_holds : holds ex_st index_spec kdc_forest kdc_store.
Proof.
  unfold kdc_forest, kdc_store, put_all. cbn [foldl fst snd].
  repeat (apply (put_entry_exec ex_st ex_st_connected index_spec); [..|vm_compute; reflexivity]);
    try (apply spelled_absent; vm_compute; reflexivity).
  - apply holds_empty.
  - apply alice_ok.
  - apply (with_key_wf (str "Alice") (str "alice@G10.LO") (str "correcthorse")); apply str_ok_str.
  - apply kdc_dn_ok; vm_compute; reflexivity.
  - apply (with_key_wf (str "krbtgt") (str "krbtgt/G10.LO@G10.LO") (str "ticket-granting")); apply str_ok_str.
  - apply kdc_dn_ok; vm_compute; reflexivity.
  - apply (with_key_wf (str "dc") (str "ldap/dc.g10.lo@G10.LO") (str "directory")); apply str_ok_str.
Qed.

(** The keys of an entry, for the examples. *)
Definition keys_of (e : Entry) : list PrincipalKey :=
  match Principal.keys e with Some (Ok ks) => ks | _ => [] end.
Definition keys_wfb (e : Entry) : bool := forallb (fun k => zlen (pk_key k) =? key_len (pk_enctype k)) (keys_of e).

Lemma keys_wfb_sound e ks : keys_wfb e = true -> has_keys e ks -> keys_wf ks.
Proof.
  unfold keys_wfb, keys_of, has_keys, keys_wf. intros Hb Hk. rewrite Hk in Hb. rewrite forallb_forall in Hb.
  apply Forall_forall. intros k Hin. apply Z.eqb_eq, Hb. by apply list_elem_of_In.
Qed.

Lemma kdc_keys_wf : forest_keys_wf ex_app kdc_forest.
Proof.
  intros dn dn' e ks Hf. apply keys_wfb_sound. unfold kdc_forest in Hf.
  apply find_entry_set in Hf as [[_ ->]|Hf]; [vm_compute; reflexivity|].
  apply find_entry_set in Hf as [[_ ->]|Hf]; [vm_compute; reflexivity|].
  apply find_entry_set in Hf as [[_ ->]|Hf]; [vm_compute; reflexivity|].
  by rewrite find_entry_empty in Hf.
Qed.

Lemma kdc_spelled dn : dn ∈ [alice; krbtgt_dn; service_dn] -> spelled ex_st kdc_forest dn.
Proof.
  assert (forall e, find_entry ex_st kdc_forest dn = Some (dn, e) -> spelled ex_st kdc_forest dn) as Hs.
  { intros e He dn' e'. rewrite He. by intros [= <- _]. }
  rewrite !elem_of_cons. intros [->|[->|[->|[]%elem_of_nil]]].
  - apply (Hs alice_entry). vm_compute. reflexivity.
  - apply (Hs krbtgt_entry). vm_compute. reflexivity.
  - apply (Hs service_entry). vm_compute. reflexivity.
Qed.

Lemma kdc_forest_elem pid k dn e : (kdc_forest !!! pid) !! k = Some (dn, e) -> dn ∈ [alice; krbtgt_dn; service_dn].
Proof.
  unfold kdc_forest. intros [[-> _]|[[-> _]|[[-> _]|He]%set_entry_elem]%set_entry_elem]%set_entry_elem; [set_solver..|].
  rewrite lookup_total_empty in He. by change ((∅ : dir) !! k = Some (dn, e)) in He.
Qed.

(** Sealing a message on the client's side. *)
Definition client_seal {A} `{!Der A} (k : PrincipalKey) (usage : Z) (a : A) : EncryptedData :=
  mkEncryptedData (etype_number (pk_enctype k)) (Some (pk_kvno k))
    match der_encode a with
    | Some b => match encrypt (Some (replicate 16 7)) (pk_enctype k) (pk_key k) usage b with Ok c => c | Err _ => [] end
    | None => []
    end.
Definition der_bytes {A} `{!Der A} (a : A) : bytes := default [] (der_encode a).

Definition first_key (e : Entry) : PrincipalKey :=
  default (mkPrincipalKey Aes256CtsHmacSha1_96 0 []) (head (keys_of e)).

(** A request of the client at the time of the reference server. *)
Definition ex_as_req : KdcReq :=
  mkKdcReq (Some [mkPaData PA_ENC_TIMESTAMP (der_bytes (client_seal (first_key alice_entry) 1 (mkPaEncTsEnc (250 * NANOS))))])
    (mkReqBody (Some (string_to_principal_name (str "alice"))) (string_to_gstring ex_realm)
       (Some (krbtgt_principal_name ex_realm)) 77 [20; 18]).

Definition ex_as_answer : option KdcResponse := (exec zeros (as_handle (Ok tt) ex_app ex_as_req) kdc_store).1.

Lemma ex_as_runs :
  runs_at (fun t => t = 0) (as_handle (Ok tt) ex_app ex_as_req) kdc_store ex_as_answer
    (exec zeros (as_handle (Ok tt) ex_app ex_as_req) kdc_store).2.
Proof. apply exec_runs_at; [done|apply zeros_ok]. Qed.

Lemma as_exchange_correct_witness :
  exists rep, ex_as_answer = Some (AsRep rep) /\ as_justified (fun t => t = 0) ex_app kdc_forest ex_as_req rep.
Proof.
  destruct (as_exchange_correct (Ok tt) (fun t => t = 0) ex_app ex_st_connected kdc_forest kdc_store kdc_holds kdc_keys_wf
    ex_as_req ex_as_answer _ ex_as_runs) as [_ Hr].
  destruct ex_as_answer as [resp|] eqn:E; [|vm_compute in E; discriminate E].
  destruct (Hr resp eq_refl) as [(rep & -> & Hrep)|[e ->]]; [|vm_compute in E; discriminate E].
  exists rep. split; [reflexivity|exact Hrep].
Defined.
