(* ===== verification/KdcTgs.v ===== *)
(** The ticket-granting service, [crates/kdc/src/tgs_exchange.rs]: a service
    ticket, or a referral to a neighbouring realm, for the holder of a ticket
    and its session key. *)

From S2P Require Import Prelude Bytes Str Btree Utf8 Decimal Dn Partition Key Registry Entry Etcd Index Ridpool Store.
From S2P Require Import Directory Sid Nfold Kerberos Md4 Password Principal BinaryAttrs Ndr Krb Pac Kdc KdcAs.

Definition PA_TGS_REQ : Z := 1.

Section tgs_exchange.
  Context `{EntryCodec} `{Base64} `{!OpenSsl} `{!KrbCodec} `{!ErrorText}.
  Context (fresh_fips : result Error unit).

(** The AP-REQ of the request. *)
Definition tgs_ap_req (req : KdcReq) : prog (result (stop KdcResponse) ApReq) :=
  padata <-? or_fail (padata req) (req_fail req KRB_ERR_GENERIC (str "TGS-REQ missing padata")) ;;
  pa_tgs <-? or_fail (List.find (fun p => pa_type p =? PA_TGS_REQ) padata)
    (req_fail req KRB_ERR_GENERIC (str "TGS-REQ missing PA-TGS-REQ")) ;;
  or_fail (der_decode (pa_value pa_tgs))
    (req_fail req KRB_ERR_GENERIC (str "malformed AP-REQ: " ++ decode_text (pa_value pa_tgs))).

Definition issuer_principal (ticket : Ticket) : rstring :=
  fqn (principal_name_to_string (tkt_sname ticket)) (realm_to_string (tkt_realm ticket)).

(** The key the ticket is sealed with, looked up by the ticket's own name. *)
Definition tgs_issuer_key (app : AppState) (req : KdcReq) (ticket : Ticket) : prog (result (stop KdcResponse) PrincipalKey) :=
  issuer_dn <-? catch (lookup_one app (issuer_principal ticket))
    (fun _ => req_fail req KRB_ERR_GENERIC (str "no key for ticket issuer " ++ issuer_principal ticket)) ;;
  issuer_entry <-? catch (fetch app issuer_dn)
    (fun _ => req_fail req KRB_ERR_GENERIC (str "ticket issuer principal entry missing")) ;;
  issuer_keys <-? entry_keys issuer_entry (fun e => req_fail req KRB_ERR_GENERIC (principal_text e)) ;;
  tkt_enctype <-? or_fail (try_from (ed_etype (tkt_enc_part ticket)))
    (req_fail req KRB_ERR_GENERIC (str "unsupported ticket etype")) ;;
  or_fail (find_key tkt_enctype issuer_keys)
    (req_fail req KRB_ERR_GENERIC (str "ticket issuer has no matching key for this ticket's etype")).

(** The ticket and authenticator, checked. *)
Definition tgs_authenticate (req : KdcReq) (ap_req : ApReq) (issuer_key : PrincipalKey)
    : prog (result (stop KdcResponse) (EncTicketPart * Authenticator)) :=
  let tkt_enctype := pk_enctype issuer_key in
  enc_ticket_bytes <-? catch (lift (decrypt tkt_enctype (pk_key issuer_key) 2 (ed_cipher (tkt_enc_part (ap_ticket ap_req)))))
    (fun _ => req_fail req KRB_AP_ERR_BAD_INTEGRITY (str "failed to decrypt ticket")) ;;
  tgt <-? or_fail (der_decode enc_ticket_bytes)
    (req_fail req KRB_ERR_GENERIC (str "malformed EncTicketPart: " ++ decode_text enc_ticket_bytes)) ;;
  t <-? read_clock ;;
  let server_now := (now_of t).1 in
  if 0 <? diff_seconds (etp_end_time tgt) server_now then req_fail req KRB_AP_ERR_TKT_EXPIRED (str "ticket expired") else
  auth_bytes <-? catch (lift (decrypt tkt_enctype (ek_value (etp_key tgt)) 7 (ed_cipher (ap_authenticator ap_req))))
    (fun _ => req_fail req KRB_AP_ERR_BAD_INTEGRITY (str "failed to decrypt authenticator")) ;;
  authenticator <-? or_fail (der_decode auth_bytes)
    (req_fail req KRB_ERR_GENERIC (str "malformed Authenticator: " ++ decode_text auth_bytes)) ;;
  if negb (bool_decide (auth_crealm authenticator = etp_crealm tgt)) || negb (bool_decide (auth_cname authenticator = etp_cname tgt))
  then req_fail req KRB_AP_ERR_BADMATCH (str "authenticator does not match ticket")
  else if CLOCK_SKEW_SECS <? Z.abs (diff_seconds (auth_ctime authenticator) server_now)
  then req_fail req KRB_AP_ERR_SKEW (str "clock skew too great")
  else Ret (Ok (tgt, authenticator)).

(** The key, enctype and usage of the reply. *)
Definition reply_key_for (subkey : option EncryptionKey) (session_key : bytes) (tkt_enctype : Enctype) : bytes * Enctype * Z :=
  match subkey with
  | Some sk =>
      match try_from (ek_type sk) with
      | Some enctype => (ek_value sk, enctype, 9)
      | None => (session_key, tkt_enctype, 8)
      end
  | None => (session_key, tkt_enctype, 8)
  end.

(** How long a ticket issued on the strength of [tgt] may last. *)
Definition remaining_life (auth_time : KerberosTime) (tgt : EncTicketPart) : Z :=
  Z.min TICKET_LIFETIME_SECS (diff_seconds auth_time (etp_end_time tgt)).

Definition is_one_hop_neighbor (topology : PartitionRegistry) (own_id : PartitionId) (target_upper : rstring) : bool :=
  match superior_of topology own_id with
  | Some p => bool_decide (Partition.realm p = Some target_upper)
  | None => false
  end || existsb (fun p => bool_decide (Partition.realm p = Some target_upper)) (subordinates_of topology own_id).

(** [return None] of [referral_tgs_rep]. *)
Definition no_referral {A} : prog (result (stop unit) A) := Ret (Err (Return tt)).
Definition or_none {A} (o : option A) : prog (result (stop unit) A) :=
  match o with Some a => Ret (Ok a) | None => no_referral end.

Definition referral_tgs_rep (app : AppState) (target_realm : rstring) (tgt : EncTicketPart) (tkt_enctype : Enctype)
    (session_key : bytes) (subkey : option EncryptionKey) (body : KdcReqBody) : prog (result (stop unit) KdcResponse) :=
  topology <-? or_none (app_topology app) ;;
  own_id <-? or_none (app_own_partition_id app) ;;
  let target_upper := to_ascii_uppercase target_realm in
  if negb (is_one_hop_neighbor topology own_id target_upper) then no_referral else
  let referral_sname := krbtgt_principal_name target_upper in
  let key_principal := str "krbtgt/" ++ target_upper ++ str "@" ++ app_realm app in
  key_dn <-? catch (lookup_one app key_principal) (fun _ => no_referral) ;;
  key_entry <-? catch (fetch app key_dn) (fun _ => no_referral) ;;
  keys <-? entry_keys key_entry (fun _ => no_referral) ;;
  referral_key <-? or_none (preferred_key (fun k => bool_decide (pk_enctype k = tkt_enctype)) keys) ;;
  new_session_key_bytes <-? catch (random_bytes (key_len (pk_enctype referral_key))) (fun _ => no_referral) ;;
  let new_session_key := mkEncryptionKey (etype_number (pk_enctype referral_key)) new_session_key_bytes in
  t1 <-? read_clock ;;
  let auth_time := (now_of t1).1 in
  t2 <-? read_clock ;;
  let end_time := plus_seconds_of t2 (remaining_life auth_time tgt) in
  let own_realm := string_to_gstring (app_realm app) in
  enc_ticket_bytes <-? or_none (der_encode (mkEncTicketPart reserved_flags new_session_key (etp_crealm tgt) (etp_cname tgt)
    (etp_auth_time tgt) end_time None)) ;;
  _ <-? catch (lift fresh_fips) (fun _ => no_referral) ;;
  ticket_cipher <-? catch (encrypt_with (pk_enctype referral_key) (pk_key referral_key) 2 enc_ticket_bytes) (fun _ => no_referral) ;;
  let ticket := mkTicket own_realm referral_sname
    (mkEncryptedData (etype_number (pk_enctype referral_key)) (Some (pk_kvno referral_key)) ticket_cipher) in
  enc_tgs_rep_bytes <-? or_none (der_encode (mkEncTgsRepPart (mkEncKdcRepPart new_session_key (rb_nonce body) reserved_flags
    (etp_auth_time tgt) end_time own_realm referral_sname))) ;;
  let '(reply_key, reply_enctype, reply_usage) := reply_key_for subkey session_key tkt_enctype in
  enc_part_cipher <-? catch (encrypt_with reply_enctype reply_key reply_usage enc_tgs_rep_bytes) (fun _ => no_referral) ;;
  Ret (Ok (TgsRep (mkKdcRep (etp_crealm tgt) (etp_cname tgt) ticket
    (mkEncryptedData (etype_number reply_enctype) None enc_part_cipher)))).

(** The service's entry. *)
Definition tgs_service (app : AppState) (req : KdcReq) (sname : PrincipalName) : prog (result (stop KdcResponse) Entry) :=
  let service_principal := fqn (principal_name_to_string sname) (realm_str req) in
  let key_principal := if is_changepw sname then str "krbtgt/" ++ realm_str req ++ str "@" ++ realm_str req else service_principal in
  let unknown {A} (_ : option (StoreError json_error)) : prog (result (stop KdcResponse) A) :=
    req_fail req KDC_ERR_S_PRINCIPAL_UNKNOWN (str "no such principal " ++ service_principal) in
  service_dn <-? catch (lookup_one app key_principal) unknown ;;
  catch (fetch app service_dn) unknown.

(** The PAC context of the ticket's client, as the directory has it now. *)
Definition tgs_pac_context (app : AppState) (req : KdcReq) (tgt : EncTicketPart) : prog (option PacContext) :=
  prog_bind_ (fun r =>
      match r with
      | Ok client_dn =>
          prog_bind_ (fun e =>
              match e with
              | Ok client_entry =>
                  gather_context (app_store app) (app_base_dn app) (app_topology app) (realm_str req) client_dn client_entry
              | Err _ => Ret None
              end) (fetch app client_dn)
      | Err _ => Ret None
      end)
    (lookup_one app (fqn (principal_name_to_string (etp_cname tgt)) (realm_to_string (etp_crealm tgt)))).

(** The service ticket and the reply. *)
Definition tgs_issue (req : KdcReq) (sname : PrincipalName) (tgt : EncTicketPart) (authenticator : Authenticator)
    (issuer_key service_key : PrincipalKey) (pac_context : option PacContext) : prog (result (stop KdcResponse) KdcResponse) :=
  let realm := rb_realm (req_body req) in
  let crypto {A} (e : Error) : prog (result (stop KdcResponse) A) := req_fail req KRB_ERR_GENERIC (crypto_text e) in
  new_session_key_bytes <-? catch (random_bytes (key_len (pk_enctype service_key))) crypto ;;
  let new_session_key := mkEncryptionKey (etype_number (pk_enctype service_key)) new_session_key_bytes in
  t1 <-? read_clock ;;
  let auth_time := (now_of t1).1 in
  t2 <-? read_clock ;;
  let end_time := plus_seconds_of t2 (remaining_life auth_time tgt) in
  let enc_ticket_part := mkEncTicketPart reserved_flags new_session_key (etp_crealm tgt) (etp_cname tgt) (etp_auth_time tgt) end_time
    (pac_authorization_data pac_context (etp_auth_time tgt) service_key issuer_key) in
  enc_ticket_bytes <-? or_fail (der_encode enc_ticket_part) (req_fail req KRB_ERR_GENERIC encode_text) ;;
  _ <-? catch (lift fresh_fips) crypto ;;
  ticket_cipher <-? catch (encrypt_with (pk_enctype service_key) (pk_key service_key) 2 enc_ticket_bytes) crypto ;;
  let ticket := mkTicket realm sname
    (mkEncryptedData (etype_number (pk_enctype service_key)) (Some (pk_kvno service_key)) ticket_cipher) in
  enc_tgs_rep_bytes <-? or_fail (der_encode (mkEncTgsRepPart (mkEncKdcRepPart new_session_key (rb_nonce (req_body req)) reserved_flags
    (etp_auth_time tgt) end_time realm sname))) (req_fail req KRB_ERR_GENERIC encode_text) ;;
  let '(reply_key, reply_enctype, reply_usage) :=
    reply_key_for (auth_subkey authenticator) (ek_value (etp_key tgt)) (pk_enctype issuer_key) in
  enc_part_cipher <-? catch (encrypt_with reply_enctype reply_key reply_usage enc_tgs_rep_bytes) crypto ;;
  Ret (Ok (TgsRep (mkKdcRep (etp_crealm tgt) (etp_cname tgt) ticket
    (mkEncryptedData (etype_number reply_enctype) None enc_part_cipher)))).

(** The local answer, where no referral applies. *)
Definition tgs_local (app : AppState) (req : KdcReq) (tgt : EncTicketPart) (authenticator : Authenticator)
    (issuer_key : PrincipalKey) : prog (result (stop KdcResponse) KdcResponse) :=
  sname <-? or_fail (rb_sname (req_body req)) (req_fail req KDC_ERR_S_PRINCIPAL_UNKNOWN (str "no server name in request")) ;;
  service_entry <-? tgs_service app req sname ;;
  prog_bind_ (fun pac_context =>
      service_keys <-? entry_keys service_entry (fun e => req_fail req KRB_ERR_GENERIC (principal_text e)) ;;
      service_key <-? or_fail
        (preferred_key (fun k => existsb (Z.eqb (etype_number (pk_enctype k))) (rb_etype (req_body req))) service_keys)
        (req_fail req KRB_ERR_GENERIC (str "service principal has no keys")) ;;
      tgs_issue req sname tgt authenticator issuer_key service_key pac_context)
    (tgs_pac_context app req tgt).

Definition tgs_handle (app : AppState) (req : KdcReq) : prog (option KdcResponse) :=
  settle (
    ap_req <-? tgs_ap_req req ;;
    issuer_key <-? tgs_issuer_key app req (ap_ticket ap_req) ;;
    checked <-? tgs_authenticate req ap_req issuer_key ;;
    let '(tgt, authenticator) := checked in
    if negb (bool_decide (to_ascii_uppercase (realm_str req) = to_ascii_uppercase (app_realm app))) then
      prog_bind_ (fun r =>
          match r with
          | Ok rep => Ret (Ok rep)
          | Err (Return _) => tgs_local app req tgt authenticator issuer_key
          | Err Panic => Ret (Err Panic)
          end)
        (referral_tgs_rep app (realm_str req) tgt (pk_enctype issuer_key) (ek_value (etp_key tgt)) (auth_subkey authenticator) (req_body req))
    else tgs_local app req tgt authenticator issuer_key).
End tgs_exchange.

(** ** What an answer means *)

Section tgs_spec.
  Context `{EntryCodec} `{Base64} `{!OpenSsl, !OpenSslLaws} `{!KrbCodec} `{!ErrorText}.
  Context `{!DerLaw EncTicketPart, !DerLaw EncTgsRepPart}.
  Context (fresh_fips : result Error unit) (T : Z -> Prop) (app : AppState) (Hst : connected (app_store app))
    (F : forest) (m : kvstore) (HF : holds (app_store app) index_spec F m) (Hwf : forest_keys_wf app F).
  Implicit Types (req : KdcReq) (ik sk : PrincipalKey) (tgt : EncTicketPart) (a : Authenticator).

(** The request presents an unexpired ticket sealed with [ik], a key of the
    principal the ticket names, and a matching fresh authenticator sealed with
    the session key inside it. *)
Definition presents req ik tgt a : Prop :=
  exists pas pa ap dn e ks now,
    padata req = Some pas /\ List.find (fun p => pa_type p =? PA_TGS_REQ) pas = Some pa /\ der_decode (pa_value pa) = Some ap /\
    principal_at app F (issuer_principal (ap_ticket ap)) dn e /\ has_keys e ks /\ ik ∈ ks /\
    try_from (ed_etype (tkt_enc_part (ap_ticket ap))) = Some (pk_enctype ik) /\
    seals (pk_enctype ik) (pk_key ik) 2 (ed_cipher (tkt_enc_part (ap_ticket ap))) tgt /\
    seals (pk_enctype ik) (ek_value (etp_key tgt)) 7 (ed_cipher (ap_authenticator ap)) a /\
    auth_crealm a = etp_crealm tgt /\ auth_cname a = etp_cname tgt /\
    T now /\ diff_seconds (etp_end_time tgt) (whole_seconds now) <= 0 /\
    Z.abs (diff_seconds (auth_ctime a) (whole_seconds now)) <= CLOCK_SKEW_SECS.

(** A ticket for the client of [tgt] sealed with [sk], and a reply the holder
    of the reply key can open. *)
Definition tgs_reply_for req ik sk tgt a realm sname (good_ad : option (list AuthorizationDataValue) -> Prop) (rep : KdcRep) : Prop :=
  exists session_key t1 t2 ad, zlen session_key = key_len (pk_enctype sk) /\ bytes_ok session_key /\ T t1 /\ T t2 /\ good_ad ad /\
    let key := mkEncryptionKey (etype_number (pk_enctype sk)) session_key in
    let end_time := plus_seconds_of t2 (remaining_life (whole_seconds t1) tgt) in
    rep_crealm rep = etp_crealm tgt /\ rep_cname rep = etp_cname tgt /\
    tkt_realm (rep_ticket rep) = realm /\ tkt_sname (rep_ticket rep) = sname /\
    try_from (ed_etype (tkt_enc_part (rep_ticket rep))) = Some (pk_enctype sk) /\
    seals (pk_enctype sk) (pk_key sk) 2 (ed_cipher (tkt_enc_part (rep_ticket rep)))
      (mkEncTicketPart reserved_flags key (etp_crealm tgt) (etp_cname tgt) (etp_auth_time tgt) end_time ad) /\
    let '(reply_key, reply_enctype, usage) := reply_key_for (auth_subkey a) (ek_value (etp_key tgt)) (pk_enctype ik) in
    (zlen reply_key = key_len reply_enctype ->
     seals reply_enctype reply_key usage (ed_cipher (rep_enc_part rep))
       (mkEncTgsRepPart (mkEncKdcRepPart key (rb_nonce (req_body req)) reserved_flags (etp_auth_time tgt) end_time realm sname))).

(** The name under which the key of a service is stored. *)
Definition service_key_name req (sname : PrincipalName) : rstring :=
  if is_changepw sname then str "krbtgt/" ++ realm_str req ++ str "@" ++ realm_str req
  else fqn (principal_name_to_string sname) (realm_str req).

(** A ticket for the named service of this realm. *)
Definition local_answer req ik tgt a (rep : KdcRep) : Prop :=
  exists sname dn e ks sk, rb_sname (req_body req) = Some sname /\
    principal_at app F (service_key_name req sname) dn e /\ has_keys e ks /\ find_key (pk_enctype sk) ks = Some sk /\
    tgs_reply_for req ik sk tgt a (rb_realm (req_body req)) sname
      (fun ad => forall x, ad = Some x -> exists cdn client,
        principal_at app F (fqn (principal_name_to_string (etp_cname tgt)) (realm_to_string (etp_crealm tgt))) cdn client /\
        pac_for app F cdn client (etp_auth_time tgt) sk ik x) rep.

(** A ticket for a neighbouring realm, under the key shared with it. *)
Definition referral_answer req ik tgt a (rep : KdcRep) : Prop :=
  let target := to_ascii_uppercase (realm_str req) in
  to_ascii_uppercase (app_realm app) <> target /\
  (exists topology own_id, app_topology app = Some topology /\ app_own_partition_id app = Some own_id /\
     is_one_hop_neighbor topology own_id target = true) /\
  exists dn e ks sk, principal_at app F (str "krbtgt/" ++ target ++ str "@" ++ app_realm app) dn e /\ has_keys e ks /\ sk ∈ ks /\
    tgs_reply_for req ik sk tgt a (string_to_gstring (app_realm app)) (krbtgt_principal_name target) (fun ad => ad = None) rep.

Lemma ro_ap_req req :
  ro T m refused (tgs_ap_req req) (fun ap => exists pas pa,
    padata req = Some pas /\ List.find (fun p => pa_type p =? PA_TGS_REQ) pas = Some pa /\ der_decode (pa_value pa) = Some ap).
Proof.
  unfold tgs_ap_req. eapply ro_try; [apply (ro_or_fail _ _ _ _ (fun l => padata req = Some l)); [done|apply ro_req_fail]|].
  intros pas Hpas. eapply ro_try; [apply (ro_or_fail _ _ _ _ (fun pa => List.find (fun p => pa_type p =? PA_TGS_REQ) pas = Some pa));
    [done|apply ro_req_fail]|].
  intros pa Hpa. apply ro_or_fail; [|apply ro_req_fail]. intros ap Hap. by exists pas, pa.
Qed.

Lemma ro_issuer_key req ticket :
  ro T m refused (tgs_issuer_key app req ticket) (fun k => try_from (ed_etype (tkt_enc_part ticket)) = Some (pk_enctype k) /\
    exists dn e ks, principal_at app F (issuer_principal ticket) dn e /\ has_keys e ks /\ k ∈ ks).
Proof.
  unfold tgs_issuer_key.
  eapply ro_try; [apply ro_catch; [by apply (ro_lookup_one T app Hst F m HF)|intros; apply ro_req_fail]|].
  intros dn Hdn. eapply ro_try; [apply ro_catch; [by apply (ro_fetch T app Hst F m HF)|intros; apply ro_req_fail]|].
  intros e He. eapply ro_try; [apply ro_keys; [done|intros; apply ro_req_fail]|].
  intros ks Hks. eapply ro_try; [apply (ro_or_fail _ _ _ _ (fun en => try_from (ed_etype (tkt_enc_part ticket)) = Some en));
    [done|apply ro_req_fail]|].
  intros en Hen. apply ro_or_fail; [|apply ro_req_fail]. intros k [Hin <-]%find_key_in. split; [done|].
  exists dn, e, ks. by repeat split; try done; apply Hdn.
Qed.

Lemma ro_authenticate req ap ik :
  ro T m refused (tgs_authenticate req ap ik) (fun ta => let '(tgt, a) := ta in
    seals (pk_enctype ik) (pk_key ik) 2 (ed_cipher (tkt_enc_part (ap_ticket ap))) tgt /\
    seals (pk_enctype ik) (ek_value (etp_key tgt)) 7 (ed_cipher (ap_authenticator ap)) a /\
    auth_crealm a = etp_crealm tgt /\ auth_cname a = etp_cname tgt /\
    exists now, T now /\ diff_seconds (etp_end_time tgt) (whole_seconds now) <= 0 /\
      Z.abs (diff_seconds (auth_ctime a) (whole_seconds now)) <= CLOCK_SKEW_SECS).
Proof.
  unfold tgs_authenticate. eapply ro_try.
  { apply (ro_catch _ _ _ _ _ (fun b => decrypt (pk_enctype ik) (pk_key ik) 2 (ed_cipher (tkt_enc_part (ap_ticket ap))) = Ok b));
      [by apply ro_lift|intros; apply ro_req_fail]. }
  intros b Hb. eapply ro_try; [apply (ro_or_fail _ _ _ _ (fun t => der_decode b = Some t)); [done|apply ro_req_fail]|].
  intros tgt Htgt. apply ro_clock. intros now Hnow. cbn zeta. change (now_of now).1 with (whole_seconds now).
  destruct (Z.ltb_spec 0 (diff_seconds (etp_end_time tgt) (whole_seconds now))) as [|Hexp]; [apply ro_req_fail|].
  eapply ro_try.
  { apply (ro_catch _ _ _ _ _ (fun b' => decrypt (pk_enctype ik) (ek_value (etp_key tgt)) 7 (ed_cipher (ap_authenticator ap)) = Ok b'));
      [by apply ro_lift|intros; apply ro_req_fail]. }
  intros b' Hb'. eapply ro_try; [apply (ro_or_fail _ _ _ _ (fun a => der_decode b' = Some a)); [done|apply ro_req_fail]|].
  intros a Ha. destruct (bool_decide_reflect (auth_crealm a = etp_crealm tgt)) as [Hr|]; [|apply ro_req_fail].
  destruct (bool_decide_reflect (auth_cname a = etp_cname tgt)) as [Hn|]; [|apply ro_req_fail]. cbn [negb orb].
  destruct (Z.ltb_spec CLOCK_SKEW_SECS (Z.abs (diff_seconds (auth_ctime a) (whole_seconds now)))) as [|Hskew]; [apply ro_req_fail|].
  apply ro_ret. split; [by exists b|]. split; [by exists b'|]. do 2 (split; [done|]). by exists now.
Qed.

(** A PAC context of the ticket's client. *)
Definition client_context tgt (ctx : option PacContext) : Prop :=
  ctx <> None -> exists cdn client,
    principal_at app F (fqn (principal_name_to_string (etp_cname tgt)) (realm_to_string (etp_crealm tgt))) cdn client /\
    context_for app F cdn client ctx.

(** Authorization data, if any, of the ticket's client. *)
Definition client_pac tgt ik sk (ad : option (list AuthorizationDataValue)) : Prop :=
  forall x, ad = Some x -> exists cdn client,
    principal_at app F (fqn (principal_name_to_string (etp_cname tgt)) (realm_to_string (etp_crealm tgt))) cdn client /\
    pac_for app F cdn client (etp_auth_time tgt) sk ik x.

Lemma ro_tgs_issue req sname tgt a ik sk ctx :
  zlen (pk_key sk) = key_len (pk_enctype sk) -> client_context tgt ctx ->
  ro T m refused (tgs_issue fresh_fips req sname tgt a ik sk ctx)
    (fun r => exists rep, r = TgsRep rep /\
      tgs_reply_for req ik sk tgt a (rb_realm (req_body req)) sname (client_pac tgt ik sk) rep).
Proof.
  intros Hsk Hctx. unfold tgs_issue. eapply ro_try.
  { apply ro_catch; [apply ro_random, key_len_nonneg|intros; apply ro_req_fail]. }
  intros key [Hkey Hkeyb]. apply ro_clock. intros t1 Ht1. apply ro_clock. intros t2 Ht2. cbn zeta.
  set (part := mkEncTicketPart _ _ _ _ _ _ _). eapply ro_try.
  { apply (ro_or_fail _ _ _ _ (fun b => der_encode part = Some b)); [done|apply ro_req_fail]. }
  intros b Hb. eapply (ro_try _ _ _ _ _ (fun _ => True)).
  { apply ro_catch; [by apply ro_lift|intros; apply ro_req_fail]. }
  intros _ _. eapply ro_try; [apply ro_catch; [by apply (ro_encrypt T m _ _ _ part)|intros; apply ro_req_fail]|].
  intros cipher Hcipher. set (rp := mkEncTgsRepPart _). eapply ro_try.
  { apply (ro_or_fail _ _ _ _ (fun b => der_encode rp = Some b)); [done|apply ro_req_fail]. }
  intros b' Hb'. destruct (reply_key_for _ _ _) as [[rk re] ru] eqn:Hrk.
  eapply ro_try; [apply ro_catch; [by apply (ro_encrypt_if T m _ _ _ rp)|intros; apply ro_req_fail]|].
  intros cipher' Hcipher'. apply ro_ret. eexists. split; [done|].
  exists key, t1, t2, (pac_authorization_data ctx (etp_auth_time tgt) sk ik). cbn [rep_crealm rep_cname rep_ticket rep_enc_part
    tkt_realm tkt_sname tkt_enc_part ed_etype ed_cipher]. rewrite try_from_etype, Hrk. repeat split; try done.
  intros x Hx. destruct Hctx as (cdn & client & Hat & Hctx); [by destruct ctx|]. exists cdn, client. split; [done|].
  by eapply pac_authorization_data_for.
Qed.

Lemma pac_context_runs req tgt ctx m' :
  runs_at T (tgs_pac_context app req tgt) m ctx m' -> m' = m /\ client_context tgt ctx.
Proof.
  unfold tgs_pac_context. intros (r & m1 & Hl & Hr)%runs_at_bind.
  apply (ro_lookup_one T app Hst F m HF) in Hl as [-> Hl]. 
  destruct r as [dn|]; [|destruct Hr as [-> ->]; split; [done|by intros []]].
  apply runs_at_bind in Hr as (e & m1 & He & Hr). apply (ro_fetch T app Hst F m HF) in He as [-> He].
  destruct e as [e|]; [|destruct Hr as [-> ->]; split; [done|by intros []]].
  apply runs_at_runs, (gather_runs app Hst F m HF) in Hr as [-> Hr]. split; [done|]. intros _. by exists dn, e.
Qed.

Lemma ro_service req sname :
  ro T m refused (tgs_service app req sname) (fun e => exists dn, principal_at app F (service_key_name req sname) dn e).
Proof.
  unfold tgs_service. cbn zeta. eapply ro_try; [apply ro_catch; [by apply (ro_lookup_one T app Hst F m HF)|intros; apply ro_req_fail]|].
  intros dn Hdn. eapply ro_mono; [apply ro_catch; [by apply (ro_fetch T app Hst F m HF)|intros; apply ro_req_fail]|done|].
  intros e He. by exists dn.
Qed.

Lemma ro_local req tgt a ik :
  ro T m refused (tgs_local fresh_fips app req tgt a ik) (fun r => exists rep, r = TgsRep rep /\ local_answer req ik tgt a rep).
Proof.
  unfold tgs_local. eapply ro_try; [apply (ro_or_fail _ _ _ _ (fun s => rb_sname (req_body req) = Some s)); [done|apply ro_req_fail]|].
  intros sname Hs. eapply ro_try; [apply ro_service|]. intros e [dn [Hu [dn' Hfind]]].
  intros r m' (ctx & m1 & Hctx & Hr)%runs_at_bind. apply pac_context_runs in Hctx as [-> Hctx].
  revert r m' Hr. eapply ro_try; [apply ro_keys; [done|intros; apply ro_req_fail]|]. intros ks Hks.
  eapply ro_try; [apply (ro_or_fail _ _ _ _ (fun k => find_key (pk_enctype k) ks = Some k));
    [intros k; apply (preferred_key_first (fun en => existsb (Z.eqb (etype_number en)) (rb_etype (req_body req))))|apply ro_req_fail]|].
  intros sk Hsk. pose proof (proj1 (Forall_forall _ _) (Hwf _ _ _ _ Hfind Hks) sk (proj1 (find_key_in _ _ _ Hsk))) as Hlen.
  eapply ro_mono; [by apply ro_tgs_issue|done|]. intros resp (rep & -> & Hrep). exists rep. split; [done|].
  exists sname, dn, e, ks, sk. repeat split; try done; [apply Hu|by apply Hu|by exists dn'].
Qed.

Lemma ro_none {A : Type} (o : option A) (Q : A -> Prop) :
  (forall x : A, o = Some x -> Q x) -> ro T m (fun _ => True) (or_none o) Q.
Proof. intros HQ. destruct o; [apply ro_ret; auto|by apply ro_err]. Qed.

Lemma ro_no_referral {A : Type} (Q : A -> Prop) : ro T m (fun _ => True) no_referral Q.
Proof. by apply ro_err. Qed.

Lemma ro_referral req tgt a ik :
  to_ascii_uppercase (app_realm app) <> to_ascii_uppercase (realm_str req) ->
  ro T m (fun _ => True)
    (referral_tgs_rep fresh_fips app (realm_str req) tgt (pk_enctype ik) (ek_value (etp_key tgt)) (auth_subkey a) (req_body req))
    (fun r => exists rep, r = TgsRep rep /\ referral_answer req ik tgt a rep).
Proof.
  intros Hne. unfold referral_tgs_rep.
  eapply ro_try; [apply (ro_none _ (fun t => app_topology app = Some t)); done|]. intros topo Htopo.
  eapply ro_try; [apply (ro_none _ (fun t => app_own_partition_id app = Some t)); done|]. intros own Hown. cbn zeta.
  destruct (is_one_hop_neighbor _ _ _) eqn:Hhop; cbn [negb]; [|apply ro_no_referral].
  eapply ro_try; [apply ro_catch; [by apply (ro_lookup_one T app Hst F m HF)|intros; apply ro_no_referral]|]. intros dn Hdn.
  eapply ro_try; [apply ro_catch; [by apply (ro_fetch T app Hst F m HF)|intros; apply ro_no_referral]|]. intros e [dn' Hfind].
  eapply ro_try; [apply ro_keys; [done|intros; apply ro_no_referral]|]. intros ks Hks.
  eapply ro_try; [apply (ro_none _ (fun k => k ∈ ks)); intros k; apply preferred_key_in|]. intros sk Hsk.
  pose proof (proj1 (Forall_forall _ _) (Hwf _ _ _ _ Hfind Hks) sk Hsk) as Hlen.
  eapply ro_try; [apply ro_catch; [apply ro_random, key_len_nonneg|intros; apply ro_no_referral]|]. intros key [Hkey Hkeyb].
  apply ro_clock. intros t1 Ht1. apply ro_clock. intros t2 Ht2. set (part := mkEncTicketPart _ _ _ _ _ _ _).
  eapply ro_try; [apply (ro_none _ (fun b => der_encode part = Some b)); done|]. intros b Hb.
  eapply (ro_try _ _ _ _ _ (fun _ => True)); [apply ro_catch; [by apply ro_lift|intros; apply ro_no_referral]|]. intros _ _.
  eapply ro_try; [apply ro_catch; [by apply (ro_encrypt T m _ _ _ part)|intros; apply ro_no_referral]|]. intros cipher Hcipher.
  set (rp := mkEncTgsRepPart _).
  eapply ro_try; [apply (ro_none _ (fun b => der_encode rp = Some b)); done|]. intros b' Hb'.
  destruct (reply_key_for _ _ _) as [[rk re] ru] eqn:Hrk.
  eapply ro_try; [apply ro_catch; [by apply (ro_encrypt_if T m _ _ _ rp)|intros; apply ro_no_referral]|].
  intros cipher' Hcipher'. apply ro_ret. eexists. split; [done|]. split; [done|]. split; [by exists topo, own|].
  exists dn, e, ks, sk. split; [split; [done|by exists dn']|]. do 2 (split; [done|]). exists key, t1, t2, None.
  cbn [rep_crealm rep_cname rep_ticket rep_enc_part tkt_realm tkt_sname tkt_enc_part ed_etype ed_cipher].
  rewrite try_from_etype, Hrk. by repeat split.
Qed.

Lemma tgs_handle_spec req r m' :
  runs_at T (tgs_handle fresh_fips app req) m r m' ->
  m' = m /\ forall resp, r = Some resp ->
    (exists rep ik tgt a, resp = TgsRep rep /\ presents req ik tgt a /\
       (local_answer req ik tgt a rep \/ referral_answer req ik tgt a rep)) \/
    (exists e, resp = KdcError e).
Proof.
  intros Hr. eapply (settle_runs _ _ _ refused (fun resp => exists rep ik tgt a, resp = TgsRep rep /\ presents req ik tgt a /\
       (local_answer req ik tgt a rep \/ referral_answer req ik tgt a rep))) in Hr; [exact Hr|]. clear Hr r m'.
  eapply ro_try; [apply ro_ap_req|]. intros ap (pas & pa & Hpas & Hpa & Hap).
  eapply ro_try; [apply ro_issuer_key|]. intros ik [Het (dn & e & ks & Hat & Hks & Hik)].
  eapply ro_try; [apply ro_authenticate|]. intros [tgt a] (Ht & Ha & Hcr & Hcn & now & Hnow & Hexp & Hskew).
  assert (presents req ik tgt a) as Hpres by (exists pas, pa, ap, dn, e, ks, now; repeat split; try done; apply Hat).
  assert (ro T m refused (tgs_local fresh_fips app req tgt a ik) (fun resp => exists rep ik tgt a, resp = TgsRep rep /\
    presents req ik tgt a /\ (local_answer req ik tgt a rep \/ referral_answer req ik tgt a rep))) as Hlocal.
  { eapply ro_mono; [apply ro_local|done|]. intros resp (rep & -> & Hrep). exists rep, ik, tgt, a. auto. }
  destruct (bool_decide_reflect (to_ascii_uppercase (realm_str req) = to_ascii_uppercase (app_realm app))) as [_|Hne];
    cbn [negb]; [exact Hlocal|].
  intros r m' (x & m1 & Hx & Hr)%runs_at_bind. apply ro_referral in Hx as [-> Hx]; [|congruence].
  destruct x as [resp|[|u]]; [|by destruct Hr as [-> ->]|by apply Hlocal].
  destruct Hr as [-> ->]. split; [done|]. destruct Hx as (rep & -> & Hrep). exists rep, ik, tgt, a. auto.
Qed.

End tgs_spec.

(** ** Examples *)

#[local] Existing Instance bit_codec.
#[local] Existing Instance hex_base64.
#[local] Existing Instance demo_ssl.
#[local] Existing Instance demo_ssl_laws.
#[local] Existing Instance PlainCodec.plain_codec.
#[local] Existing Instance PlainCodec.plain_enc_ticket_law.
#[local] Existing Instance PlainCodec.plain_tgs_rep_law.
#[local] Existing Instance plain_text.

Definition alice_name : PrincipalName := string_to_principal_name (str "alice").
Definition service_name : PrincipalName := string_to_principal_name (str "ldap/dc.g10.lo").

(** What the client makes of an answer of the authentication service: the
    ticket, and the session key from the sealed part. *)
Definition open_as_reply (k : PrincipalKey) (r : option KdcResponse) : option (Ticket * EncryptionKey) :=
  match r with
  | Some (AsRep rep) =>
      match decrypt (pk_enctype k) (pk_key k) 3 (ed_cipher (rep_enc_part rep)) with
      | Ok b => p ← der_decode b; Some (rep_ticket rep, erp_key (as_rep_part p))
      | Err _ => None
      end
  | _ => None
  end.

(** A request with a ticket and an authenticator for its client. *)
Definition tgs_request (ticket : Ticket) (session : EncryptionKey) (cname sname : PrincipalName) : KdcReq :=
  let key := mkPrincipalKey (default Aes256CtsHmacSha1_96 (try_from (ek_type session))) 1 (ek_value session) in
  let a := mkAuthenticator (string_to_gstring ex_realm) cname None 0 (100 * NANOS) None in
  mkKdcReq (Some [mkPaData PA_TGS_REQ (der_bytes (mkApReq ticket (client_seal key 7 a)))])
    (mkReqBody None (string_to_gstring ex_realm) (Some sname) 78 [20; 18]).

Definition no_ticket : Ticket := mkTicket [] alice_name (mkEncryptedData 0 None []).
Definition ex_tgs_req : KdcReq :=
  let '(ticket, session) := default (no_ticket, mkEncryptionKey 0 []) (open_as_reply (first_key alice_entry) ex_as_answer) in
  tgs_request ticket session alice_name service_name.

Definition ex_tgs_answer : option KdcResponse := (exec zeros (tgs_handle (Ok tt) ex_app ex_tgs_req) kdc_store).1.

Lemma ex_tgs_runs :
  runs_at (fun t => t = 0) (tgs_handle (Ok tt) ex_app ex_tgs_req) kdc_store ex_tgs_answer
    (exec zeros (tgs_handle (Ok tt) ex_app ex_tgs_req) kdc_store).2.
Proof. apply exec_runs_at; [done|apply zeros_ok]. Qed.


(** The issuer of a ticket is any principal of the directory, so whoever holds
    the key of one service can make a ticket that names any client, and the
    ticket-granting service exchanges it for that client's own ticket-granting
    ticket, sealed with the realm's key. *)
Definition forged_ticket : Ticket :=
  let session := mkEncryptionKey (etype_number (pk_enctype (first_key service_entry))) (replicate 32 9) in
  mkTicket (string_to_gstring ex_realm) service_name
    (client_seal (first_key service_entry) 2
       (mkEncTicketPart [] session (string_to_gstring ex_realm) alice_name 0 (36000 * NANOS) None)).
Definition forged_request : KdcReq :=
  tgs_request forged_ticket (mkEncryptionKey (etype_number (pk_enctype (first_key service_entry))) (replicate 32 9))
    alice_name (krbtgt_principal_name ex_realm).

Lemma forged_ticket_accepted :
  exists rep part, (exec zeros (tgs_handle (Ok tt) ex_app forged_request) kdc_store).1 = Some (TgsRep rep) /\
    tkt_sname (rep_ticket rep) = krbtgt_principal_name ex_realm /\
    seals (pk_enctype (first_key krbtgt_entry)) (pk_key (first_key krbtgt_entry)) 2 (ed_cipher (tkt_enc_part (rep_ticket rep))) part /\
    etp_cname part = alice_name.
Proof.
  destruct ((exec zeros (tgs_handle (Ok tt) ex_app forged_request) kdc_store).1) as [[r|rep|e]|] eqn:E;
    vm_compute in E; try discriminate E.
  injection E as <-. eexists _, _. split; [reflexivity|]. split; [reflexivity|].
  split; [eexists; split; vm_compute; reflexivity|]. reflexivity.
Qed.
