(* ===== verification/KdcServer.v ===== *)
(** The KDC's transport, [crates/kdc/src/wire.rs] and [server.rs]: decoding and
    dispatch of one request, the size limit of UDP, and the connection loop of
    TCP with its length-prefixed messages. *)

From S2P Require Import Prelude Bytes Str Btree Utf8 Decimal Dn Partition Key Registry Entry Etcd Index Ridpool Store.
From S2P Require Import Directory Sid Nfold Kerberos Md4 Password Principal BinaryAttrs Ndr Krb Pac Kdc KdcAs KdcTgs.

Inductive WireError :=
| Empty
| UnknownMessageType (tag : Z)
| WireDecode
| WireEncode
| WireIo
| TooLarge (len max : Z).

Inductive KdcRequest := AsRequest (req : KdcReq) | TgsRequest (req : KdcReq).

(** DER of the top-level messages. *)
Class WireCodec := {
  decode_as_req : bytes -> option KdcReq;
  decode_tgs_req : bytes -> option KdcReq;
  encode_as_rep : KdcRep -> option bytes;
  encode_tgs_rep : KdcRep -> option bytes;
  encode_krb_error : KrbError -> option bytes;
}.

Definition MAX_TCP_MESSAGE_LEN : Z := Z.shiftl 1 20.
Definition UDP_SAFE_REPLY_LEN : Z := 1400.
Definition KRB_ERR_RESPONSE_TOO_BIG : Z := 52.

(** ** Messages on a TCP stream *)

(** A message and the bytes after it, or the end of the stream. *)
Definition read_tcp_message (input : bytes) : result WireError (option (bytes * bytes)) :=
  match read_exact 4 input with
  | None => Ok None
  | Some (len_buf, input) =>
      let len := Z.land (be_val len_buf) 0x7FFFFFFF in
      if MAX_TCP_MESSAGE_LEN <? len then Err (TooLarge len MAX_TCP_MESSAGE_LEN)
      else match read_exact len input with None => Err WireIo | Some r => Ok (Some r) end
  end.

(** The bytes that are sent. *)
Definition write_tcp_message (message : bytes) : result WireError bytes :=
  if u32_max <? zlen message then Err (TooLarge u32_max MAX_TCP_MESSAGE_LEN)
  else Ok (be_bytes 4 (zlen message) ++ message).

Section server.
  Context `{!WireCodec}.

Definition response_encode (r : KdcResponse) : result WireError bytes :=
  ok_or WireEncode match r with
  | AsRep rep => encode_as_rep rep
  | TgsRep rep => encode_tgs_rep rep
  | KdcError e => encode_krb_error e
  end.

Definition decode_request (b : bytes) : result WireError KdcRequest :=
  match b with
  | [] => Err Empty
  | first :: _ =>
      let tag := Z.land first 0x1F in
      if tag =? 10 then AsRequest <$> ok_or WireDecode (decode_as_req b)
      else if tag =? 12 then TgsRequest <$> ok_or WireDecode (decode_tgs_req b)
      else Err (UnknownMessageType tag)
  end.

  Context `{EntryCodec} `{Base64} `{!OpenSsl} `{!KrbCodec} `{!ErrorText}.
  Context (fresh_fips : result Error unit).

(** [Display] of the errors of [decode_request]. *)
Definition wire_text (b : bytes) (e : WireError) : rstring :=
  match e with
  | Empty => str "empty message"
  | UnknownMessageType tag => str "unrecognized message type (tag " ++ to_decimal tag ++ str ")"
  | _ => str "DER decode failed: " ++ decode_text b
  end.

(** An error message of this realm's ticket-granting service at the time [t]. *)
Definition realm_error (app : AppState) (t code : Z) (text : rstring) : KrbError :=
  krberror_build t code (app_realm app) (krbtgt_principal_name (app_realm app)) (Some text) None.

Definition malformed_request_error (app : AppState) (t : Z) (b : bytes) (e : WireError) : KrbError :=
  realm_error app t KRB_ERR_GENERIC (str "malformed request: " ++ wire_text b e).

(** The response to one request; [None] if a handler panics. *)
Definition respond_to (app : AppState) (b : bytes) : prog (option KdcResponse) :=
  match decode_request b with
  | Ok (AsRequest req) => as_handle fresh_fips app req
  | Ok (TgsRequest req) => tgs_handle fresh_fips app req
  | Err e => Call Now (fun t => Ret (Some (KdcError (malformed_request_error app t b e))))
  end.

(** The bytes of a response, or of an error where it cannot be encoded. *)
Definition encode_reply (app : AppState) (response : KdcResponse) : prog bytes :=
  match response_encode response with
  | Ok b => Ret b
  | Err _ => Call Now (fun t => Ret (default [] (encode_krb_error (realm_error app t KRB_ERR_GENERIC (str "internal error")))))
  end.

Definition kdc_dispatch (app : AppState) (b : bytes) : prog (option bytes) :=
  prog_bind_ (fun r =>
      match r with
      | Some response => prog_bind_ (fun reply => Ret (Some reply)) (encode_reply app response)
      | None => Ret None
      end) (respond_to app b).

(** The task of one datagram: what is sent back. *)
Definition udp_reply (app : AppState) (request : bytes) : prog (option bytes) :=
  prog_bind_ (fun r =>
      match r with
      | Some reply =>
          if UDP_SAFE_REPLY_LEN <? zlen reply then
            Call Now (fun t => Ret (Some (default [] (encode_krb_error
              (realm_error app t KRB_ERR_RESPONSE_TOO_BIG (str "response too large for UDP; retry with TCP"))))))
          else Ret (Some reply)
      | None => Ret None
      end) (kdc_dispatch app request).

(** How a connection ends. *)
Inductive KdcEnding := KdcEof | KdcWire (e : WireError) | KdcPanic | KdcFuel.

(** The loop of a connection: at most [n] requests; what was sent. *)
Fixpoint handle_tcp_connection (n : nat) (app : AppState) (input : bytes) : prog (list bytes * KdcEnding) :=
  match n with
  | O => Ret ([], KdcFuel)
  | S n' =>
      match read_tcp_message input with
      | Err e => Ret ([], KdcWire e)
      | Ok None => Ret ([], KdcEof)
      | Ok (Some (request, rest)) =>
          prog_bind_ (fun r =>
              match r with
              | None => Ret ([], KdcPanic)
              | Some reply =>
                  match write_tcp_message reply with
                  | Err e => Ret ([], KdcWire e)
                  | Ok out => prog_bind_ (fun oe => Ret (out :: oe.1, oe.2)) (handle_tcp_connection n' app rest)
                  end
              end) (kdc_dispatch app request)
      end
  end.
End server.

(** ** Framing *)

Lemma tcp_message_len n : 0 <= n <= MAX_TCP_MESSAGE_LEN -> Z.land n 0x7FFFFFFF = n.
Proof.
  change MAX_TCP_MESSAGE_LEN with 1048576. intros Hn. change 0x7FFFFFFF with (Z.ones 31). rewrite Z.land_ones by lia. apply Z.mod_small. lia.
Qed.

Lemma read_write_tcp message rest :
  zlen message <= MAX_TCP_MESSAGE_LEN ->
  exists b, write_tcp_message message = Ok b /\ read_tcp_message (b ++ rest) = Ok (Some (message, rest)).
Proof.
  intros Hl. pose proof (zlen_nonneg message) as H0. assert (MAX_TCP_MESSAGE_LEN < u32_max) as Hmax by done.
  unfold write_tcp_message. rewrite (proj2 (Z.ltb_ge _ _)) by lia. eexists. split; [done|].
  unfold read_tcp_message. rewrite <- app_assoc, read_exact_app by (by rewrite zlen_be_bytes).
  rewrite be_roundtrip by (change (256 ^ Z.of_nat 4) with (u32_max + 1); lia).
  rewrite tcp_message_len by lia. rewrite (proj2 (Z.ltb_ge _ _)) by lia. by rewrite read_exact_app.
Qed.

(** A header cut short looks like the end of the stream. *)
Lemma truncated_header_is_clean_eof b1 b2 b3 : read_tcp_message [b1; b2; b3] = Ok None.
Proof. done. Qed.

(** ** What a connection answers *)

Section serves.
  Context `{!WireCodec} `{EntryCodec} `{Base64} `{!OpenSsl, !OpenSslLaws} `{!KrbCodec} `{!ErrorText}.
  Context `{!DerLaw EncTicketPart, !DerLaw EncAsRepPart, !DerLaw EncTgsRepPart}.
  Context (fresh_fips : result Error unit) (T : Z -> Prop) (app : AppState) (Hst : connected (app_store app))
    (F : forest) (m : kvstore) (HF : holds (app_store app) index_spec F m) (Hwf : forest_keys_wf app F).

(** A response the directory justifies: a ticket of the exchange that was asked
    for, or an error. *)
Definition justified (request : bytes) (response : KdcResponse) : Prop :=
  match response with
  | AsRep rep => exists req, decode_request request = Ok (AsRequest req) /\ as_justified T app F req rep
  | TgsRep rep => exists req ik tgt a, decode_request request = Ok (TgsRequest req) /\ presents T app F req ik tgt a /\
      (local_answer T app F req ik tgt a rep \/ referral_answer T app F req ik tgt a rep)
  | KdcError _ => True
  end.

(** The reply is the encoding of such a response. *)
Definition answers (request reply : bytes) : Prop :=
  exists response, justified request response /\
    (response_encode response = Ok reply \/
     exists t, T t /\ reply = default [] (encode_krb_error (realm_error app t KRB_ERR_GENERIC (str "internal error")))).

Lemma respond_to_spec request r m' :
  runs_at T (respond_to fresh_fips app request) m r m' -> m' = m /\ forall resp, r = Some resp -> justified request resp.
Proof.
  unfold respond_to, justified. destruct (decode_request request) as [[req|req]|e].
  - intros [-> Hr]%(as_handle_spec fresh_fips T app Hst F m HF Hwf). split; [done|]. intros resp Hresp.
    destruct (Hr resp Hresp) as [(rep & -> & Hrep)|[e ->]]; eauto.
  - intros [-> Hr]%(tgs_handle_spec fresh_fips T app Hst F m HF Hwf). split; [done|]. intros resp Hresp.
    destruct (Hr resp Hresp) as [(rep & ik & tgt & a & -> & Hrep)|[? ->]]; [|done]. by exists req, ik, tgt, a.
  - intros (t & m1 & Hm & _ & -> & ->). cbn [served] in Hm. subst. split; [done|]. by intros ? [= <-].
Qed.

Lemma dispatch_spec request r m' :
  runs_at T (kdc_dispatch fresh_fips app request) m r m' -> m' = m /\ forall reply, r = Some reply -> answers request reply.
Proof.
  unfold kdc_dispatch. intros (x & m1 & [-> Hx]%respond_to_spec & Hr)%runs_at_bind.
  destruct x as [resp|]; [|by destruct Hr as [-> ->]].
  apply runs_at_bind in Hr as (reply & m1 & Hr & [-> ->]). unfold encode_reply in Hr.
  destruct (response_encode resp) as [b|] eqn:Hb.
  - destruct Hr as [-> ->]. split; [done|]. intros ? [= <-]. exists resp. split; [by apply Hx|by left].
  - destruct Hr as (t & m2 & Hm & Ht & -> & ->). cbn [served] in Hm. subst. split; [done|]. intros ? [= <-].
    exists resp. split; [by apply Hx|]. right. by exists t.
Qed.

(** A datagram is answered, and with at most the safe size unless the answer
    is the error that asks for TCP. *)
Lemma udp_reply_spec request r m' :
  runs_at T (udp_reply fresh_fips app request) m r m' -> m' = m /\ forall reply, r = Some reply ->
    (answers request reply /\ zlen reply <= UDP_SAFE_REPLY_LEN) \/
    exists t text, reply = default [] (encode_krb_error (realm_error app t KRB_ERR_RESPONSE_TOO_BIG text)).
Proof.
  unfold udp_reply. intros (x & m1 & [-> Hx]%dispatch_spec & Hr)%runs_at_bind.
  destruct x as [b|]; [|by destruct Hr as [-> ->]]. destruct (Z.ltb_spec UDP_SAFE_REPLY_LEN (zlen b)).
  - destruct Hr as (t & m2 & Hm & _ & -> & ->). cbn [served] in Hm. subst. split; [done|]. intros ? [= <-]. right. eauto.
  - destruct Hr as [-> ->]. split; [done|]. intros ? [= <-]. auto.
Qed.

(** The replies, as sent, to a prefix of the requests. *)
Definition replies_to (requests outs : list bytes) : Prop :=
  exists answered pending, requests = answered ++ pending /\
    Forall2 (fun request out => exists reply, answers request reply /\ write_tcp_message reply = Ok out) answered outs.

Lemma replies_cons request requests out outs reply :
  answers request reply -> write_tcp_message reply = Ok out -> replies_to requests outs ->
  replies_to (request :: requests) (out :: outs).
Proof. intros Ha Hw (a & p & -> & Hf). exists (request :: a), p. split; [done|]. constructor; eauto. Qed.

Lemma replies_nil requests : replies_to requests [].
Proof. exists [], requests. by split. Qed.

Lemma tcp_connection_spec n requests framed outs e m' :
  (length requests < n)%nat -> Forall (fun r => zlen r <= MAX_TCP_MESSAGE_LEN) requests ->
  try_map write_tcp_message requests = Ok framed ->
  runs_at T (handle_tcp_connection fresh_fips n app (concat framed)) m (outs, e) m' ->
  m' = m /\ replies_to requests outs /\ e <> KdcFuel /\ (e = KdcEof -> length outs = length requests).
Proof.
  intros Hn Hok. revert n framed outs Hn. induction Hok as [|request requests Hr Hok IH]; intros [|n] framed outs Hn;
    [cbn in Hn; lia| |cbn in Hn; lia|].
  - intros [= <-] [[= -> ->] ->]. split; [done|]. split; [apply replies_nil|]. done.
  - cbn [try_map]. intros (b & Hb & (bs & Hbs & [= <-])%bind_ok)%bind_ok. cbn [concat handle_tcp_connection].
    destruct (read_write_tcp request (concat bs) Hr) as (b' & Hb' & Hread). rewrite Hb in Hb'. injection Hb' as <-.
    rewrite Hread. intros (x & m1 & [-> Hx]%dispatch_spec & Hrest)%runs_at_bind.
    destruct x as [reply|]; [|destruct Hrest as [[= -> ->] ->]; split; [done|]; split; [apply replies_nil|done]].
    destruct (write_tcp_message reply) as [out|er] eqn:Hw;
      [|destruct Hrest as [[= -> ->] ->]; split; [done|]; split; [apply replies_nil|done]].
    apply runs_at_bind in Hrest as ([outs' e'] & m1 & Hrest & [[= -> ->] ->]).
    apply (IH n bs) in Hrest as (-> & Hrep & Hfuel & Hlen); [|cbn in Hn; lia|done]. split; [done|].
    split; [by eapply replies_cons; [apply Hx|..]|]. split; [done|]. intros He. cbn [length]. by rewrite Hlen.
Qed.

(** C30: A TCP connection of the KDC answers the framed requests of a client in
    order: each reply sent is the framing of the answer to the request at its
    place, a ticket justified by the directory or an error; if the connection
    ends with the client's input, every request was answered; it always ends,
    and writes nothing to the directory. *)
Theorem kdc_connection_serves n requests framed outs e m' :
  (length requests < n)%nat -> Forall (fun r => zlen r <= MAX_TCP_MESSAGE_LEN) requests ->
  try_map write_tcp_message requests = Ok framed ->
  runs_at T (handle_tcp_connection fresh_fips n app (concat framed)) m (outs, e) m' ->
  m' = m /\ replies_to requests outs /\ e <> KdcFuel /\ (e = KdcEof -> length outs = length requests).
Proof. apply tcp_connection_spec. Qed.
End serves.

(** ** An example connection *)

#[local] Existing Instance bit_codec.
#[local] Existing Instance hex_base64.
#[local] Existing Instance demo_ssl.
#[local] Existing Instance demo_ssl_laws.
#[local] Existing Instance PlainCodec.plain_codec.
#[local] Existing Instance PlainCodec.plain_enc_ticket_law.
#[local] Existing Instance PlainCodec.plain_as_rep_law.
#[local] Existing Instance PlainCodec.plain_tgs_rep_law.
#[local] Existing Instance plain_text.

(** Messages behind the tag byte DER gives them. *)
Definition plain_wire : WireCodec := {|
  decode_as_req b := @der_decode _ (plain_der PlainCodec.ser_req) (tail b);
  decode_tgs_req b := @der_decode _ (plain_der PlainCodec.ser_req) (tail b);
  encode_as_rep r := Some (107 :: @ser _ PlainCodec.ser_rep r);
  encode_tgs_rep r := Some (109 :: @ser _ PlainCodec.ser_rep r);
  encode_krb_error e := Some (126 :: @ser _ PlainCodec.ser_error e);
|}.
#[local] Existing Instance plain_wire.

Definition ex_requests : list bytes :=
  [106 :: @ser _ PlainCodec.ser_req ex_as_req; 108 :: @ser _ PlainCodec.ser_req ex_tgs_req; [1; 2]].
Definition ex_framed : list bytes := match try_map write_tcp_message ex_requests with Ok l => l | Err _ => [] end.
Definition ex_connection : list bytes * KdcEnding * kvstore :=
  exec zeros (handle_tcp_connection (Ok tt) 4 ex_app (concat ex_framed)) kdc_store.

Lemma ex_connection_runs :
  runs_at (fun t => t = 0) (handle_tcp_connection (Ok tt) 4 ex_app (concat ex_framed)) kdc_store
    (ex_connection.1.1, ex_connection.1.2) ex_connection.2.
Proof. rewrite <- surjective_pairing. exact (exec_runs_at (fun t => t = 0) zeros (handle_tcp_connection (Ok tt) 4 ex_app (concat ex_framed)) kdc_store eq_refl zeros_ok). Qed.

Lemma kdc_connection_serves_witness :
  length ex_connection.1.1 = length ex_requests /\ replies_to (fun t => t = 0) ex_app kdc_forest ex_requests ex_connection.1.1.
Proof.
  destruct (kdc_connection_serves (Ok tt) (fun t => t = 0) ex_app ex_st_connected kdc_forest kdc_store kdc_holds kdc_keys_wf
    4 ex_requests ex_framed ex_connection.1.1 ex_connection.1.2 ex_connection.2) as (_ & Hr & _ & Hl).
  - cbn. lia.
  - apply (bool_decide_unpack (Forall (fun r => zlen r <= MAX_TCP_MESSAGE_LEN) ex_requests)). vm_compute. reflexivity.
  - vm_compute. reflexivity.
  - exact ex_connection_runs.
  - split; [apply Hl; vm_compute; reflexivity|exact Hr].
Defined.
