(* ===== verification/Kpasswd.v ===== *)
(** The password service, [crates/kdc/src/kpasswd.rs] (RFC 3244): a change of
    one's own password with a fresh ticket, or of another principal's by a
    domain administrator. *)

From S2P Require Import Prelude Bytes Str Btree Utf8 Decimal Dn Partition Key Registry Entry Etcd Index Ridpool Store.
From S2P Require Import Directory Sid Nfold Kerberos Md4 Password Principal BinaryAttrs Ndr Krb Pac Kdc KdcAs KdcTgs KdcServer.

Definition VERSION_CHANGE : Z := 1.
Definition VERSION_SET : Z := 0xff80.

Definition SUCCESS : Z := 0.
Definition MALFORMED : Z := 1.
Definition HARDERROR : Z := 2.
Definition AUTHERROR : Z := 3.
Definition SOFTERROR : Z := 4.
Definition ACCESSDENIED : Z := 5.
Definition BAD_VERSION : Z := 6.
Definition INITIAL_FLAG_NEEDED : Z := 7.

Definition USAGE_KRB_PRIV : Z := 13.
Definition USAGE_AP_REP : Z := 12.
Definition USAGE_AP_REQ_AUTH : Z := 11.
Definition USAGE_TICKET : Z := 2.

Definition ADMINISTRATOR_RID : Z := 500.
Definition DOMAIN_ADMINS_RID : Z := 512.

Record HostAddress := mkHostAddress { addr_type : Z; address : bytes }.
Record KrbPriv := mkKrbPriv { priv_enc_part : EncryptedData }.
Record EncKrbPrivPart := mkEncKrbPrivPart {
  user_data : bytes;
  priv_timestamp : option KerberosTime;
  priv_usec : option Z;
  priv_seq_number : option Z;
  s_address : option HostAddress;
  r_address : option HostAddress;
}.
Record ChgPwdData := mkChgPwdData {
  newpasswd : bytes;
  targname : option PrincipalName;
  targrealm : option Realm;
}.

Class KpasswdCodec := {
  #[global] der_krb_priv :: Der KrbPriv;
  #[global] der_priv_part :: Der EncKrbPrivPart;
  #[global] der_chgpwd :: Der ChgPwdData;
}.

(** Names in a decoded request are strings of bytes. *)
Class ChangeNames `{!KpasswdCodec} := {
  change_names b d n : der_decode b = Some d -> targname d = Some n -> name_bytes n = true;
}.

Record Refusal := mkRefusal { refusal_code : Z; refusal_text : rstring }.

(** What a verified AP-REQ establishes. *)
Record Authenticated := mkAuthenticated {
  au_client : rstring;
  au_client_realm : rstring;
  au_initial : bool;
  ticket_session_key : bytes;
  ticket_enctype : Enctype;
  priv_key : bytes;
  priv_enctype : Enctype;
  au_authenticator : Authenticator;
}.

Inductive IpAddr := V4 (octets : bytes) | V6 (octets : bytes).

Definition deny {A} (code : Z) (text : rstring) : prog (result (stop Refusal) A) := Ret (Err (Return (mkRefusal code text))).
Definition or_deny {A} (o : option A) (code : Z) (text : rstring) : prog (result (stop Refusal) A) :=
  match o with Some a => Ret (Ok a) | None => deny code text end.

Definition host_address (ip : IpAddr) : HostAddress :=
  match ip with V4 o => mkHostAddress 2 o | V6 o => mkHostAddress 24 o end.

Definition result_data (code : Z) (text : rstring) : bytes := be_bytes 2 code ++ utf8_encode text.

Definition frame (ap_rep body : bytes) : bytes :=
  let len := 6 + zlen ap_rep + zlen body in
  be_bytes 2 (as_u16 len) ++ be_bytes 2 VERSION_CHANGE ++ be_bytes 2 (as_u16 (zlen ap_rep)) ++ ap_rep ++ body.

Section kpasswd.
  Context `{EntryCodec} `{Base64} `{!OpenSsl} `{!KrbCodec} `{!KpasswdCodec} `{!WireCodec} `{!ErrorText}.

Definition refuse_ticket (app : AppState) (ticket : Ticket) : rstring :=
  str "ticket is for " ++ principal_name_to_string (tkt_sname ticket) ++ str "@" ++ realm_to_string (tkt_realm ticket)
  ++ str ", not kadmin/changepw@" ++ app_realm app.

(** The entry of the realm's ticket-granting service. *)
Definition changepw_krbtgt (app : AppState) : prog (result (stop Refusal) Entry) :=
  dn <-? catch (lookup_one app (str "krbtgt/" ++ app_realm app ++ str "@" ++ app_realm app))
    (fun _ => deny HARDERROR (str "krbtgt principal not provisioned")) ;;
  catch (fetch app dn) (fun _ => deny HARDERROR (str "krbtgt entry missing")).

(** Its key for an enctype; reading the stored keys can panic. *)
Definition changepw_key (entry : Entry) (enctype : Enctype) : prog (result (stop Refusal) PrincipalKey) :=
  match key_for_enctype entry enctype with
  | None => Ret (Err Panic)
  | Some (Err _) => deny AUTHERROR (str "no krbtgt key for the ticket's enctype")
  | Some (Ok k) => Ret (Ok k)
  end.

(** The keys of the KRB-PRIV messages. *)
Definition priv_key_for (authenticator : Authenticator) (session_key : bytes) (enctype : Enctype)
    : prog (result (stop Refusal) (bytes * Enctype)) :=
  match auth_subkey authenticator with
  | Some sk => e <-? or_deny (try_from (ek_type sk)) AUTHERROR (str "unsupported subkey enctype") ;; Ret (Ok (ek_value sk, e))
  | None => Ret (Ok (session_key, enctype))
  end.

Definition verify_ap_req (app : AppState) (ap_req : ApReq) : prog (result (stop Refusal) Authenticated) :=
  let tkt := ap_ticket ap_req in
  if negb (is_changepw (tkt_sname tkt)) || negb (eq_ignore_ascii_case (realm_to_string (tkt_realm tkt)) (app_realm app))
  then deny AUTHERROR (refuse_ticket app tkt) else
  ticket_enctype <-? or_deny (try_from (ed_etype (tkt_enc_part tkt))) AUTHERROR (str "unsupported ticket enctype") ;;
  krbtgt_entry <-? changepw_krbtgt app ;;
  key <-? changepw_key krbtgt_entry ticket_enctype ;;
  ticket_bytes <-? catch (lift (decrypt ticket_enctype (pk_key key) USAGE_TICKET (ed_cipher (tkt_enc_part tkt))))
    (fun _ => deny AUTHERROR (str "ticket does not decrypt")) ;;
  ticket <-? or_deny (der_decode ticket_bytes) AUTHERROR (str "malformed ticket: " ++ decode_text ticket_bytes) ;;
  t <-? read_clock ;;
  let now := (now_of t).1 in
  if 0 <? diff_seconds (etp_end_time ticket) now then deny AUTHERROR (str "ticket expired") else
  let session_key := ek_value (etp_key ticket) in
  auth_bytes <-? catch (lift (decrypt ticket_enctype session_key USAGE_AP_REQ_AUTH (ed_cipher (ap_authenticator ap_req))))
    (fun _ => deny AUTHERROR (str "authenticator does not decrypt")) ;;
  authenticator <-? or_deny (der_decode auth_bytes) AUTHERROR (str "malformed authenticator: " ++ decode_text auth_bytes) ;;
  if negb (bool_decide (auth_cname authenticator = etp_cname ticket)) || negb (bool_decide (auth_crealm authenticator = etp_crealm ticket))
  then deny AUTHERROR (str "authenticator does not match the ticket")
  else if CLOCK_SKEW_SECS <? Z.abs (diff_seconds (auth_ctime authenticator) now)
  then deny AUTHERROR (str "clock skew too great") else
  pk <-? priv_key_for authenticator session_key ticket_enctype ;;
  Ret (Ok (mkAuthenticated (principal_name_to_string (etp_cname ticket)) (realm_to_string (etp_crealm ticket))
    (has_flag (etp_flags ticket) flag_INITIAL) session_key ticket_enctype pk.1 pk.2 authenticator)).

Definition open_priv (auth : Authenticated) (msg : KrbPriv) : result Refusal bytes :=
  let enctype := default (priv_enctype auth) (try_from (ed_etype (priv_enc_part msg))) in
  plain ← map_err (fun _ => mkRefusal AUTHERROR (str "KRB-PRIV does not decrypt under the authenticator's key"))
    (decrypt enctype (priv_key auth) USAGE_KRB_PRIV (ed_cipher (priv_enc_part msg)));
  part ← ok_or (mkRefusal MALFORMED (str "malformed KRB-PRIV body: " ++ decode_text plain)) (der_decode plain);
  Ok (user_data part).

Definition rid (entry : Entry) : option Z := sid ← entry_sid entry; last (sub_authorities sid).

Definition is_domain_admin (app : AppState) (principal : rstring) : prog bool :=
  prog_bind_ (fun r =>
      match r with
      | Ok dn =>
          prog_bind_ (fun e =>
              match e with
              | Ok entry =>
                  if bool_decide (rid entry = Some ADMINISTRATOR_RID) then Ret true
                  else prog_bind_ (fun rids => Ret (existsb (Z.eqb DOMAIN_ADMINS_RID) rids))
                         (group_rids (app_store app) (app_base_dn app) dn)
              | Err _ => Ret false
              end) (fetch app dn)
      | Err _ => Ret false
      end) (lookup_one app principal).

(** The loop over the two names of a target. *)
Fixpoint find_target (app : AppState) (principal : rstring) (names : list (rstring * rstring)) : prog (result (stop Refusal) Dn) :=
  match names with
  | [] => deny HARDERROR (str "no such principal " ++ principal)
  | (attr, value) :: rest =>
      prog_bind_ (fun r =>
          match r with
          | Ok [dn] => Ret (Ok dn)
          | Ok [] => find_target app principal rest
          | Ok dns => deny HARDERROR (to_decimal (zlen dns) ++ str " entries are named " ++ value)
          | Err e => deny HARDERROR (store_text e)
          end) (Store.lookup_by_index (app_store app) (app_base_dn app) attr value)
  end.

Definition target_names (name principal : rstring) : list (rstring * rstring) :=
  [(ATTR_PRINCIPAL_NAME, principal); (str "samaccountname", name)].

(** What the user data asks for: the password, and the target if it names one. *)
Definition requested_change (version : Z) (data : bytes)
    : prog (result (stop Refusal) (bytes * option rstring * option rstring)) :=
  if version =? VERSION_CHANGE then Ret (Ok (data, None, None))
  else
    d <-? or_deny (der_decode data) MALFORMED (str "malformed ChgPwdData: " ++ decode_text data) ;;
    Ret (Ok (newpasswd d, principal_name_to_string <$> targname d, realm_to_string <$> targrealm d)).

(** Who may change what. *)
Definition authorize (app : AppState) (auth : Authenticated) (target_name : rstring) : prog (result (stop Refusal) unit) :=
  let requester := fqn (au_client auth) (au_client_realm auth) in
  let is_self := eq_ignore_ascii_case target_name (au_client auth) && eq_ignore_ascii_case (au_client_realm auth) (app_realm app) in
  if is_self then
    if negb (au_initial auth)
    then deny INITIAL_FLAG_NEEDED (str "changing your own password needs a ticket from a fresh password (INITIAL)")
    else Ret (Ok tt)
  else
    prog_bind_ (fun admin : bool =>
        if negb admin
        then deny ACCESSDENIED (requester ++ str " may not set the password of " ++ fqn target_name (app_realm app))
        else Ret (Ok tt)) (is_domain_admin app requester).

(** The new keys on the target's entry. *)
Definition write_password (app : AppState) (target_name : rstring) (new_password : bytes) : prog (result (stop Refusal) rstring) :=
  let target := fqn target_name (app_realm app) in
  dn <-? find_target app target (target_names target_name target) ;;
  found <-? catch (Store.get_entry (app_store app) dn) (fun e => deny HARDERROR (store_text e)) ;;
  entry <-? or_deny found HARDERROR (Dn.to_string dn ++ str " vanished") ;;
  let principal := match principal_name entry with Ok n => n | Err _ => target end in
  if zlen new_password <? 8 then deny SOFTERROR (str "password must be at least 8 characters") else
  entry <-? catch (Call (Random (Z.to_nat MIN_SALT_LEN)) (fun salt : option bytes => Ret (set_password salt entry principal new_password)))
    (fun e => deny SOFTERROR (principal_text e)) ;;
  _ <-? catch (Store.put_entry (app_store app) dn entry index_spec) (fun e => deny HARDERROR (store_text e)) ;;
  Ret (Ok principal).

Definition change (app : AppState) (auth : Authenticated) (version : Z) (data : bytes) : prog (result (stop Refusal) rstring) :=
  c <-? requested_change version data ;;
  let '(new_password, target_name, target_realm) := c in
  let target_realm := default (au_client_realm auth) target_realm in
  if negb (eq_ignore_ascii_case target_realm (app_realm app))
  then deny HARDERROR (str "target realm " ++ target_realm ++ str " is not served here") else
  let target_name := default (au_client auth) target_name in
  _ <-? authorize app auth target_name ;;
  write_password app target_name new_password.

Definition server_seq : prog Z :=
  Call (Random 4) (fun b : option bytes => Ret (match b with Some b => Z.land (be_val b) 0x3fffffff | None => 1 end)).

(** Encoding and encryption inside a reply, with the text of their failure. *)
Definition enc_text {A} `{!Der A} (a : A) : prog (result rstring bytes) := lift (ok_or encode_text (der_encode a)).
Definition seal_text (e : Enctype) (key : bytes) (usage : Z) (b : bytes) : prog (result rstring bytes) :=
  prog_map_err crypto_text (encrypt_with e key usage b).

Definition sealed_reply (auth : Authenticated) (seq : Z) (local : IpAddr) (code : Z) (text : rstring) : prog (result rstring bytes) :=
  let a := au_authenticator auth in
  rep_bytes <-? enc_text (mkEncApRepPart (auth_ctime a) (auth_cusec a) (Some seq)) ;;
  rep_cipher <-? seal_text (ticket_enctype auth) (ticket_session_key auth) USAGE_AP_REP rep_bytes ;;
  ap_rep_bytes <-? enc_text (mkApRep (mkEncryptedData (etype_number (ticket_enctype auth)) None rep_cipher)) ;;
  t <-? read_clock ;;
  let '(timestamp, usec) := now_of t in
  priv_bytes <-? enc_text (mkEncKrbPrivPart (result_data code text) (Some timestamp) (Some usec) (Some seq) (Some (host_address local)) None) ;;
  priv_cipher <-? seal_text (priv_enctype auth) (priv_key auth) USAGE_KRB_PRIV priv_bytes ;;
  priv_msg_bytes <-? enc_text (mkKrbPriv (mkEncryptedData (etype_number (priv_enctype auth)) None priv_cipher)) ;;
  Ret (Ok (frame ap_rep_bytes priv_msg_bytes)).

(** The parts of a request: the version and the two messages. *)
Definition parse_request (request : bytes) : result Refusal (Z * ApReq * KrbPriv) :=
  if zlen request <? 6 then Err (mkRefusal MALFORMED (str "request shorter than its header"))
  else
    let msg_len := be_val (ztake 2 request) in
    let version := be_val (ztake 2 (zdrop 2 request)) in
    let ap_req_len := be_val (ztake 2 (zdrop 4 request)) in
    if negb (msg_len =? zlen request) || (zlen request <? 6 + ap_req_len)
    then Err (mkRefusal MALFORMED (str "length fields don't match the request"))
    else if negb (version =? VERSION_CHANGE) && negb (version =? VERSION_SET)
    then Err (mkRefusal BAD_VERSION (str "unsupported protocol version 0x" ++ to_hex (be_bytes 2 version)))
    else
      let ap_bytes := ztake ap_req_len (zdrop 6 request) in
      let priv_bytes := zdrop (6 + ap_req_len) request in
      ap_req ← ok_or (mkRefusal MALFORMED (str "malformed AP-REQ: " ++ decode_text ap_bytes)) (der_decode ap_bytes);
      priv_msg ← ok_or (mkRefusal MALFORMED (str "malformed KRB-PRIV: " ++ decode_text priv_bytes)) (der_decode priv_bytes);
      Ok (version, ap_req, priv_msg).

(** The outcome of an authenticated request as a code and a text; only a panic
    is passed on. *)
Definition outcome_of (p : prog (result (stop Refusal) rstring)) : prog (result (stop Refusal) (Z * rstring)) :=
  prog_bind_ (fun r =>
      Ret (match r with
           | Ok _ => Ok (SUCCESS, str "Password changed")
           | Err (Return f) => Ok (refusal_code f, refusal_text f)
           | Err Panic => Err Panic
           end)) p.

Definition handle_inner (app : AppState) (request : bytes) (local : IpAddr) : prog (result (stop Refusal) bytes) :=
  parts <-? lift (map_err Return (parse_request request)) ;;
  let '(version, ap_req, priv_msg) := parts in
  auth <-? verify_ap_req app ap_req ;;
  prog_bind_ (fun seq =>
      outcome <-? outcome_of (match open_priv auth priv_msg with
                              | Ok data => change app auth version data
                              | Err r => Ret (Err (Return r))
                              end) ;;
      catch (sealed_reply auth seq local outcome.1 outcome.2) (fun e => deny HARDERROR e)) server_seq.

Definition error_reply (app : AppState) (code : Z) (text : rstring) : prog bytes :=
  Call Now (fun t => Ret (frame [] (default [] (encode_krb_error
    (krberror_build t KRB_ERR_GENERIC (app_realm app) (string_to_principal_name (str "kadmin/changepw")) (Some text)
      (Some (result_data code text))))))).

(** One request; [None] if a handler panics. *)
Definition kpasswd_handle (app : AppState) (request : bytes) (local : IpAddr) : prog (option bytes) :=
  prog_bind_ (fun r =>
      match r with
      | Ok reply => Ret (Some reply)
      | Err (Return f) => prog_bind_ (fun b => Ret (Some b)) (error_reply app (refusal_code f) (refusal_text f))
      | Err Panic => Ret None
      end) (handle_inner app request local).
End kpasswd.

(** ** What a change of a password needs *)

Section spec.
  Context `{EntryCodec} `{Base64} `{!OpenSsl, !OpenSslLaws} `{!KrbCodec} `{!KpasswdCodec} `{!WireCodec} `{!ErrorText} `{!TicketNames, !ChangeNames}.
  Context (T : Z -> Prop) (app : AppState) (Hst : connected (app_store app))
    (F : forest) (m : kvstore) (HF : holds (app_store app) index_spec F m) (Hrealm : str_ok (app_realm app)).
  Implicit Types (ap : ApReq) (auth : Authenticated).

(** The AP-REQ has an unexpired ticket for [kadmin/changepw] sealed with a key
    of the realm's ticket-granting service, and a matching fresh authenticator
    sealed with its session key; [auth] is what they say. *)
Definition authenticates ap auth : Prop :=
  is_changepw (tkt_sname (ap_ticket ap)) = true /\
  eq_ignore_ascii_case (realm_to_string (tkt_realm (ap_ticket ap))) (app_realm app) = true /\
  exists dn e ks k tkt a now,
    principal_at app F (str "krbtgt/" ++ app_realm app ++ str "@" ++ app_realm app) dn e /\ has_keys e ks /\ k ∈ ks /\
    try_from (ed_etype (tkt_enc_part (ap_ticket ap))) = Some (pk_enctype k) /\
    seals (pk_enctype k) (pk_key k) USAGE_TICKET (ed_cipher (tkt_enc_part (ap_ticket ap))) tkt /\
    seals (pk_enctype k) (ek_value (etp_key tkt)) USAGE_AP_REQ_AUTH (ed_cipher (ap_authenticator ap)) a /\
    auth_cname a = etp_cname tkt /\ auth_crealm a = etp_crealm tkt /\
    T now /\ diff_seconds (etp_end_time tkt) (whole_seconds now) <= 0 /\
    Z.abs (diff_seconds (auth_ctime a) (whole_seconds now)) <= CLOCK_SKEW_SECS /\
    name_bytes (etp_cname tkt) = true /\
    au_client auth = principal_name_to_string (etp_cname tkt) /\ au_client_realm auth = realm_to_string (etp_crealm tkt) /\
    au_initial auth = has_flag (etp_flags tkt) flag_INITIAL /\
    priv_key auth = match auth_subkey a with Some sk => ek_value sk | None => ek_value (etp_key tkt) end.

(** The requester is the administrator or a member of the administrators. *)
Definition is_admin (principal : rstring) : Prop :=
  exists dn e, principal_at app F principal dn e /\
    (rid e = Some ADMINISTRATOR_RID \/ member_rid (app_store app) F (app_base_dn app) dn DOMAIN_ADMINS_RID).

Definition authorized auth (target_name : rstring) : Prop :=
  (eq_ignore_ascii_case target_name (au_client auth) = true /\ eq_ignore_ascii_case (au_client_realm auth) (app_realm app) = true /\
   au_initial auth = true) \/
  is_admin (fqn (au_client auth) (au_client_realm auth)).

(** The one entry with this principal name or account name. *)
Definition target_at (target_name : rstring) (dn : Dn) : Prop :=
  exists attr value, (attr, value) ∈ target_names target_name (fqn target_name (app_realm app)) /\
    forall d, indexed_dn (app_store app) F (app_base_dn app) attr value d <-> d = dn.

(** The forest with the new keys on the target. *)
Definition password_written (target_name : rstring) (new_password : bytes) (F' : forest) : Prop :=
  exists dn dn' e principal salt e', target_at target_name dn /\ find_entry (app_store app) F dn = Some (dn', e) /\
    principal = match principal_name e with Ok n => n | Err _ => fqn target_name (app_realm app) end /\
    8 <= zlen new_password /\ zlen salt = MIN_SALT_LEN /\ bytes_ok salt /\
    set_password (Some salt) e principal new_password = Ok e' /\ F' = set_entry (app_store app) F dn e'.

(** What the user data asks for. *)
Definition asks auth (version : Z) (data : bytes) (target_name : rstring) (new_password : bytes) : Prop :=
  (version = VERSION_CHANGE /\ target_name = au_client auth /\ new_password = data) \/
  (version = VERSION_SET /\ exists d, der_decode data = Some d /\ new_password = newpasswd d /\
     target_name = match targname d with Some n => principal_name_to_string n | None => au_client auth end).

Lemma ro_deny {A : Type} code text (Q : A -> Prop) : ro T m (fun _ : stop Refusal => True) (deny code text) Q.
Proof. by apply ro_err. Qed.

Lemma ro_or_deny {A : Type} (o : option A) code text (Q : A -> Prop) :
  (forall x, o = Some x -> Q x) -> ro T m (fun _ : stop Refusal => True) (or_deny o code text) Q.
Proof. intros HQ. destruct o; [apply ro_ret; auto|apply ro_deny]. Qed.

Lemma ro_changepw_krbtgt :
  ro T m (fun _ => True) (changepw_krbtgt app)
    (fun e => exists dn, principal_at app F (str "krbtgt/" ++ app_realm app ++ str "@" ++ app_realm app) dn e).
Proof.
  unfold changepw_krbtgt. eapply ro_try; [apply ro_catch; [by apply (ro_lookup_one T app Hst F m HF)|intros; apply ro_deny]|].
  intros dn Hdn. eapply ro_mono; [apply ro_catch; [by apply (ro_fetch T app Hst F m HF)|intros; apply ro_deny]|done|].
  intros e He. by exists dn.
Qed.

Lemma ro_changepw_key e en :
  ro T m (fun _ => True) (changepw_key e en) (fun k => pk_enctype k = en /\ exists ks, has_keys e ks /\ k ∈ ks).
Proof.
  unfold changepw_key, key_for_enctype, has_keys. destruct (Principal.keys e) as [[ks|x]|] eqn:Hk; cbn [option_map];
    [|apply ro_deny|by apply ro_err].
  cbn [mbind result_bind]. destruct (find_key en ks) as [k|] eqn:Hf; cbn [ok_or]; [|apply ro_deny].
  apply find_key_in in Hf as [Hin He]. apply ro_ret. split; [done|]. by exists ks.
Qed.

Lemma ro_priv_key a sk en :
  ro T m (fun _ => True) (priv_key_for a sk en) (fun p => p.1 = match auth_subkey a with Some k => ek_value k | None => sk end).
Proof.
  unfold priv_key_for. destruct (auth_subkey a) as [k|]; [|by apply ro_ret].
  eapply (ro_try _ _ _ _ _ (fun _ => True)); [by apply ro_or_deny|]. intros e _. by apply ro_ret.
Qed.

Lemma ro_verify ap : ro T m (fun _ => True) (verify_ap_req app ap) (authenticates ap).
Proof.
  unfold verify_ap_req. destruct (is_changepw (tkt_sname (ap_ticket ap))) eqn:Hcp; [|apply ro_deny].
  destruct (eq_ignore_ascii_case _ (app_realm app)) eqn:Hrl; [|apply ro_deny]. cbn [negb orb].
  eapply ro_try; [apply (ro_or_deny _ _ _ (fun en => try_from (ed_etype (tkt_enc_part (ap_ticket ap))) = Some en)); done|].
  intros en Hen. eapply ro_try; [apply ro_changepw_krbtgt|]. intros e [dn Hat].
  eapply ro_try; [apply ro_changepw_key|]. intros k [<- (ks & Hks & Hk)].
  eapply ro_try; [apply (ro_catch _ _ _ _ _ (fun b => decrypt (pk_enctype k) (pk_key k) USAGE_TICKET (ed_cipher (tkt_enc_part (ap_ticket ap))) = Ok b));
    [by apply ro_lift|intros; apply ro_deny]|].
  intros b Hb. eapply ro_try; [apply (ro_or_deny _ _ _ (fun t => der_decode b = Some t)); done|]. intros tkt Htkt.
  apply ro_clock. intros now Hnow. cbn zeta. change (now_of now).1 with (whole_seconds now).
  destruct (Z.ltb_spec 0 (diff_seconds (etp_end_time tkt) (whole_seconds now))); [apply ro_deny|].
  eapply ro_try; [apply (ro_catch _ _ _ _ _ (fun b' => decrypt (pk_enctype k) (ek_value (etp_key tkt)) USAGE_AP_REQ_AUTH (ed_cipher (ap_authenticator ap)) = Ok b'));
    [by apply ro_lift|intros; apply ro_deny]|].
  intros b' Hb'. eapply ro_try; [apply (ro_or_deny _ _ _ (fun a => der_decode b' = Some a)); done|]. intros a Ha.
  destruct (bool_decide_reflect (auth_cname a = etp_cname tkt)) as [Hn|]; [|apply ro_deny].
  destruct (bool_decide_reflect (auth_crealm a = etp_crealm tkt)) as [Hr|]; [|apply ro_deny]. cbn [negb orb].
  destruct (Z.ltb_spec CLOCK_SKEW_SECS (Z.abs (diff_seconds (auth_ctime a) (whole_seconds now)))); [apply ro_deny|].
  eapply ro_try; [apply ro_priv_key|]. intros [pk pe] Hpk. cbn [fst] in Hpk. apply ro_ret. do 2 (split; [done|]).
  pose proof (ticket_names _ _ Htkt) as [Hname _].
  exists dn, e, ks, k, tkt, a, now. repeat split; try done; [apply Hat..|by exists b|by exists b'].
Qed.

Lemma admin_runs principal b m' :
  runs_at T (is_domain_admin app principal) m b m' -> m' = m /\ (b = true -> is_admin principal).
Proof.
  unfold is_domain_admin. intros (r & m1 & Hl & Hr)%runs_at_bind.
  apply (ro_lookup_one T app Hst F m HF) in Hl as [-> Hl]. destruct r as [dn|]; [|by destruct Hr as [-> ->]].
  apply runs_at_bind in Hr as (e & m1 & He & Hr). apply (ro_fetch T app Hst F m HF) in He as [-> He].
  destruct e as [e|]; [|by destruct Hr as [-> ->]].
  destruct (bool_decide_reflect (rid e = Some ADMINISTRATOR_RID)) as [Hrid|_].
  - destruct Hr as [-> ->]. split; [done|]. intros _. exists dn, e. split; [by split|by left].
  - apply runs_at_bind in Hr as (rids & m1 & Hg & [-> ->]).
    apply runs_at_runs, (group_rids_runs _ Hst index_spec F) in Hg as [-> Hg]; [|done|by_decide]. split; [done|].
    intros (x & Hin & <-%Z.eqb_eq)%existsb_exists. exists dn, e. split; [by split|]. right. apply Hg. by apply list_elem_of_In.
Qed.

Lemma ro_authorize auth target_name :
  ro T m (fun _ => True) (authorize app auth target_name) (fun _ => authorized auth target_name).
Proof.
  unfold authorize, authorized. destruct (eq_ignore_ascii_case target_name (au_client auth)) eqn:He1;
    [destruct (eq_ignore_ascii_case (au_client_realm auth) (app_realm app)) eqn:He2|]; cbn [andb].
  1: { destruct (au_initial auth) eqn:He3; cbn [negb]; [apply ro_ret; auto|apply ro_deny]. }
  all: intros r m' (b & m1 & [-> Hb]%admin_runs & Hr)%runs_at_bind; destruct b; cbn [negb] in Hr;
    destruct Hr as [-> ->]; (split; [done|]); auto.
Qed.

Lemma ro_find_target principal names :
  Forall (fun n => to_ascii_lowercase n.1 ∈ index_spec) names ->
  ro T m (fun _ => True) (find_target app principal names) (fun dn => exists attr value, (attr, value) ∈ names /\
    forall d, indexed_dn (app_store app) F (app_base_dn app) attr value d <-> d = dn).
Proof.
  induction 1 as [|[attr value] names Ha _ IH]; cbn [find_target]; [apply ro_deny|].
  intros r m' (x & m1 & Hx & Hr)%runs_at_bind.
  apply runs_at_runs, (lookup_runs _ Hst index_spec F) in Hx as [-> Hx]; [|done..].
  destruct Hx as [[e ->]|(l & -> & _ & Hl)]; [by destruct Hr as [-> ->]|].
  destruct l as [|dn [|dn2 l]].
  - apply IH in Hr as [-> Hr]. split; [done|]. destruct r as [dn|]; [|done].
    destruct Hr as (a & v & Hin & Hd). exists a, v. split; [by right|done].
  - destruct Hr as [-> ->]. split; [done|]. exists attr, value. split; [by left|]. intros d. rewrite <- Hl.
    apply list_elem_of_singleton.
  - by destruct Hr as [-> ->].
Qed.

(** Account and principal names that hold in the directory. *)
Definition spelled_index : Prop :=
  forall attr value dn, indexed_dn (app_store app) F (app_base_dn app) attr value dn -> spelled (app_store app) F dn.

Definition written_or_not (W : forest -> Prop) (m' : kvstore) : Prop :=
  holds (app_store app) index_spec F m' \/ exists F', W F' /\ holds (app_store app) index_spec F' m'.

Lemma write_password_spec target_name new_password :
  spelled_index -> str_ok target_name ->
  wpt T (fun _ => written_or_not (password_written target_name new_password)) (write_password app target_name new_password)
    (fun _ m' => exists F', password_written target_name new_password F' /\ holds (app_store app) index_spec F' m') m.
Proof.
  intros Hsp Htn. unfold write_password. cbn zeta.
  eapply wpt_ro; [apply ro_find_target; repeat constructor; by_decide|by left|]. intros dn Hdn.
  eapply (wpt_ro _ _ _ _ _ _ (fun o => o = snd <$> find_entry (app_store app) F dn)); [|by left|].
  { apply ro_catch; [|intros; apply ro_deny]. apply ro_runs. intros r m' Hr.
    apply (get_entry_runs _ Hst index_spec F) in Hr as [-> [->|[e ->]]]; done. }
  intros o ->. eapply wpt_ro; [apply (ro_or_deny _ _ _ (fun e => exists dn', find_entry (app_store app) F dn = Some (dn', e)))|by left|].
  { intros e He. destruct (find_entry _ F dn) as [[dn' e']|]; [|done]. injection He as ->. by exists dn'. }
  intros e [dn' He]. set (principal := match principal_name e with Ok n => n | Err _ => _ end).
  destruct (Z.ltb_spec (zlen new_password) 8) as [|Hlen]; [intros r m' [-> ->]; by left|].
  pose proof (find_entry_wf _ Hst _ _ _ _ _ _ HF He) as [_ Hwf].
  assert (str_ok principal) as Hpr.
  { subst principal. unfold principal_name, Entry.get. destruct (bt_get _ (attrs e)) as [[|v vs]|] eqn:Hg; cbn;
      try (apply str_ok_app; split; [done|]; apply str_ok_app; split; [apply str_ok_str|done]).
    apply entry_values_ok in Hg; [|done]. by apply Forall_cons in Hg as [? _]. }
  eapply (wpt_ro _ _ _ (fun _ => True) _ _ (fun e' => exists salt, zlen salt = MIN_SALT_LEN /\ bytes_ok salt /\
    set_password (Some salt) e principal new_password = Ok e')); [|by left|].
  { apply ro_catch; [|intros; apply ro_deny]. apply ro_runs. intros r m' (random & m1 & (-> & Hs) & -> & ->). split; [done|].
    destruct Hs as [->|(salt & -> & Hl & Hb)]; [done|]. destruct (set_password _ e _ _) as [e'|] eqn:Hset; [|done].
    exists salt. split; [unfold zlen; by rewrite Hl|done]. }
  intros e' (salt & Hl & Hb & Hset).
  assert (entry_wf e') as Hwf' by (by eapply set_password_wf).
  assert (password_written target_name new_password (set_entry (app_store app) F dn e')) as Hw
    by (by exists dn, dn', e, principal, salt, e').
  destruct Hdn as (attr & value & Hin & Hd). pose proof (proj2 (Hd dn) eq_refl) as Hidx.
  assert (dn_ok dn) as Hdok.
  { destruct Hidx as (p & e0 & Hp & Hk & _). destruct (owner _ Hst _ _ Hp) as (Hinp & _ & _).
    by destruct (r_keys _ _ _ _ (HF p Hinp) _ _ _ Hk) as (_ & ? & _). }
  intros r m' (x & m1 & Hx & Hr)%runs_at_bind. apply runs_at_bind in Hx as (y & m2 & Hy & Hx).
  apply runs_at_runs, (put_entry_runs _ Hst index_spec F) in Hy; [|done..|by eapply Hsp].
  destruct y as [u|er]; cbn [outcome] in Hy; destruct Hx as [-> ->]; destruct Hr as [-> ->]; [by eexists|].
  destruct Hy; [by left|right; eauto].
Qed.

Lemma principal_name_str_ok n : name_bytes n = true -> str_ok (principal_name_to_string n).
Proof.
  unfold name_bytes, principal_name_to_string. rewrite forallb_forall. intros Hb.
  assert (Forall str_ok (List.map gstring_to_string (pn_string n))) as Hs.
  { apply Forall_map, Forall_forall. intros s Hin. apply utf8_lossy_ok.
    by apply (bool_decide_unpack (bytes_ok s)), Is_true_true, Hb, list_elem_of_In. }
  clear Hb. induction Hs as [|s l Hs1 Hl IH]; [constructor|]. destruct l as [|s' l]; [done|].
  change (str_ok (s ++ [c_slash] ++ join [c_slash] (s' :: l))). apply str_ok_app. split; [done|].
  apply str_ok_app. split; [apply (str_ok_str "/")|done].
Qed.

Lemma ro_requested auth version data :
  (version = VERSION_CHANGE \/ version = VERSION_SET) ->
  ro T m (fun _ => True) (requested_change version data) (fun c =>
    let '(pw, name, _) := c in asks auth version data (default (au_client auth) name) pw /\
    forall n, name = Some n -> str_ok n).
Proof.
  intros Hv. unfold requested_change. destruct (Z.eqb_spec version VERSION_CHANGE) as [->|Hne].
  { apply ro_ret. split; [by left|done]. }
  destruct Hv as [?| ->]; [done|].
  eapply ro_try; [apply (ro_or_deny _ _ _ (fun d => der_decode data = Some d)); done|]. intros d Hd. apply ro_ret. split.
  - right. split; [done|]. exists d. split; [done|]. split; [done|]. by destruct (targname d).
  - intros n. destruct (targname d) as [pn|] eqn:Hn; [|done]. intros [= <-]. apply principal_name_str_ok. exact (change_names data d pn Hd Hn).
Qed.

(** Everything a change needs. *)
Definition change_allowed auth (version : Z) (data : bytes) (F' : forest) : Prop :=
  exists target_name new_password, asks auth version data target_name new_password /\
    authorized auth target_name /\ password_written target_name new_password F'.

Lemma change_spec auth version data :
  spelled_index -> str_ok (au_client auth) -> (version = VERSION_CHANGE \/ version = VERSION_SET) ->
  wpt T (fun _ => written_or_not (change_allowed auth version data)) (change app auth version data)
    (fun _ m' => exists F', change_allowed auth version data F' /\ holds (app_store app) index_spec F' m') m.
Proof.
  intros Hsp Hcl Hv. unfold change. eapply wpt_ro; [by apply (ro_requested auth)|by left|].
  intros [[pw name] trealm] [Hasks Hname]. cbn zeta.
  destruct (eq_ignore_ascii_case _ (app_realm app)); cbn [negb]; [|intros r m' [-> ->]; by left].
  eapply wpt_ro; [apply ro_authorize|by left|]. intros ? Hauth.
  assert (str_ok (default (au_client auth) name)) as Hok by (destruct name; cbn; auto).
  intros r m' Hr. apply (write_password_spec _ pw Hsp Hok) in Hr. destruct r as [x|e].
  - destruct Hr as (F' & Hw & HF'). exists F'. split; [|done]. by exists (default (au_client auth) name), pw.
  - destruct Hr as [|(F' & Hw & HF')]; [by left|]. right. exists F'. split; [|done]. by exists (default (au_client auth) name), pw.
Qed.

Lemma authenticates_client ap auth : authenticates ap auth -> str_ok (au_client auth).
Proof.
  intros (_ & _ & dn & e & ks & k & tkt & a & now & Hx).
  destruct Hx as (_ & _ & _ & _ & _ & _ & _ & _ & _ & _ & _ & Hn & -> & _). by apply principal_name_str_ok.
Qed.

Lemma parse_request_version request version ap priv :
  parse_request request = Ok (version, ap, priv) -> version = VERSION_CHANGE \/ version = VERSION_SET.
Proof.
  unfold parse_request. destruct (_ <? 6); [done|]. cbn zeta. destruct (_ || _); [done|].
  destruct (Z.eqb_spec (be_val (ztake 2 (zdrop 2 request))) VERSION_CHANGE) as [Hv|_];
    [|destruct (Z.eqb_spec (be_val (ztake 2 (zdrop 2 request))) VERSION_SET) as [Hv|_]]; cbn [negb andb]; [| |done];
    intros (a & _ & (p & _ & [= <- <- <-])%bind_ok)%bind_ok; auto.
Qed.

(** A request that may change a password, and what it changes it to. *)
Definition request_allowed (request : bytes) (F' : forest) : Prop :=
  exists version ap priv auth data, parse_request request = Ok (version, ap, priv) /\ authenticates ap auth /\
    open_priv auth priv = Ok data /\ change_allowed auth version data F'.

Lemma sealed_reply_runs auth seq local code text r m1 m' :
  runs_at T (sealed_reply auth seq local code text) m1 r m' -> m' = m1.
Proof.
  enough (forall A (p : prog (result rstring A)), ro T m1 (fun _ => True) p (fun _ => True) ->
    forall r m', runs_at T p m1 r m' -> m' = m1) as Hro.
  { apply Hro. clear. unfold sealed_reply. cbn zeta.
    assert (forall A `{!Der A} (a : A), ro T m1 (fun _ => True) (enc_text a) (fun _ => True)) as Henc by (intros; by apply ro_lift).
    assert (forall e k u b, ro T m1 (fun _ => True) (seal_text e k u b) (fun _ => True)) as Hseal.
    { intros e k u b. apply ro_runs. intros r m' (x & Hx & ->)%runs_map_err.
      destruct Hx as (rep & m2 & (-> & _) & -> & ->). split; [done|]. by destruct (encrypt _ _ _ _ _). }
    eapply ro_try; [apply Henc|]. intros b1 _. eapply ro_try; [apply Hseal|]. intros b2 _.
    eapply ro_try; [apply Henc|]. intros b3 _. apply ro_clock. intros t _. destruct (now_of t) as [ts us].
    eapply ro_try; [apply Henc|]. intros b4 _. eapply ro_try; [apply Hseal|]. intros b5 _.
    eapply ro_try; [apply Henc|]. intros b6 _. by apply ro_ret. }
  intros A p Hp r' m2 Hr. by apply Hp in Hr as [-> _].
Qed.

Lemma outcome_of_runs p m1 r m' :
  runs_at T (outcome_of p) m1 r m' -> exists x, runs_at T p m1 x m'.
Proof. intros (x & m2 & Hx & -> & ->)%runs_at_bind. by exists x. Qed.

Lemma handle_inner_spec request local r m' :
  spelled_index -> runs_at T (handle_inner app request local) m r m' -> written_or_not (request_allowed request) m'.
Proof.
  intros Hsp. unfold handle_inner. intros (x & m1 & [-> ->] & Hr)%runs_at_bind.
  destruct (parse_request request) as [[[version ap] priv]|f] eqn:Hparse; [|destruct Hr as [-> ->]; by left].
  cbn [map_err] in Hr. apply runs_at_bind in Hr as (x & m1 & Hx & Hr). apply ro_verify in Hx as [-> Hx].
  destruct x as [auth|e]; [|destruct Hr as [-> ->]; by left].
  apply runs_at_bind in Hr as (seq & m1 & (rnd & m2 & (-> & _) & _ & -> & ->) & Hr).
  apply runs_at_bind in Hr as (o & m1 & Ho & Hr).
  assert (m' = m1) as ->.
  { destruct o as [[code text]|e]; [|by destruct Hr as [-> ->]].
    apply runs_at_bind in Hr as (rep & m2 & Hrep & Hr). apply sealed_reply_runs in Hrep as ->.
    destruct rep; by destruct Hr as [-> ->]. }
  apply outcome_of_runs in Ho as [y Hy].
  destruct (open_priv auth priv) as [data|f] eqn:Hopen; [|destruct Hy as [-> ->]; by left].
  pose proof (change_spec auth version data Hsp (authenticates_client _ _ Hx) (parse_request_version _ _ _ _ Hparse) _ _ Hy) as Hc.
  assert (written_or_not (change_allowed auth version data) m1) as [|(F' & Hw & HF')] by (destruct y; [by right|done]); [by left|].
  right. exists F'. split; [|done]. by exists version, ap, priv, auth, data.
Qed.

End spec.

(** ** An example: the client changes its own password *)

#[local] Existing Instance bit_codec.
#[local] Existing Instance hex_base64.
#[local] Existing Instance demo_ssl.
#[local] Existing Instance demo_ssl_laws.
#[local] Existing Instance PlainCodec.plain_codec.
#[local] Existing Instance PlainCodec.plain_ticket_names.
#[local] Existing Instance plain_text.
#[local] Existing Instance plain_wire.

Module PlainKpasswd.
#[local] Existing Instance ser_Z.
#[local] Existing Instance ser_pair.
#[local] Existing Instance ser_list.
#[local] Existing Instance ser_option.
#[local] Existing Instance PlainCodec.ser_ed.
#[local] Existing Instance PlainCodec.ser_name.

#[local] Instance ser_address : Ser HostAddress :=
  ser_iso (fun p => (addr_type p, address p)) (fun x => mkHostAddress x.1 x.2) ltac:(by intros []).
#[local] Instance ser_priv : Ser KrbPriv := ser_iso priv_enc_part mkKrbPriv ltac:(by intros []).
#[local] Instance ser_part : Ser EncKrbPrivPart :=
  ser_iso (fun p => (user_data p, priv_timestamp p, priv_usec p, priv_seq_number p, s_address p, r_address p))
    (fun x => let '(a, b, c, d, e, f) := x in mkEncKrbPrivPart a b c d e f) ltac:(by intros []).
#[local] Instance ser_chg : Ser ChgPwdData :=
  ser_iso (fun p => (newpasswd p, targname p, targrealm p)) (fun x => mkChgPwdData x.1.1 x.1.2 x.2) ltac:(by intros []).

Definition plain_kpasswd : KpasswdCodec := {|
  der_krb_priv := plain_der ser_priv;
  der_priv_part := plain_der ser_part;
  der_chgpwd := checked_der (fun d => match targname d with Some n => name_bytes n | None => true end) ser_chg;
|}.

#[local] Existing Instance plain_kpasswd.
Lemma plain_change_names : ChangeNames.
Proof. split. intros b d n Hd%checked_der_ok Hn. by rewrite Hn in Hd. Qed.
End PlainKpasswd.
#[local] Existing Instance PlainKpasswd.plain_kpasswd.
#[local] Existing Instance PlainKpasswd.plain_change_names.

(** A ticket for the password service, from the authentication service. *)
Definition changepw_req : KdcReq :=
  mkKdcReq (padata ex_as_req) (mkReqBody (Some alice_name) (string_to_gstring ex_realm)
    (Some (string_to_principal_name (str "kadmin/changepw"))) 79 [20; 18]).
Definition changepw_ticket : Ticket * EncryptionKey :=
  default (no_ticket, mkEncryptionKey 0 [])
    (open_as_reply (first_key alice_entry) (exec zeros (as_handle (Ok tt) ex_app changepw_req) kdc_store).1).

(** A request with that ticket. *)
Definition kpasswd_request (version : Z) (data : bytes) : bytes :=
  let '(ticket, session) := changepw_ticket in
  let key := mkPrincipalKey (default Aes256CtsHmacSha1_96 (try_from (ek_type session))) 1 (ek_value session) in
  let a := mkAuthenticator (string_to_gstring ex_realm) alice_name None 0 (100 * NANOS) None in
  let ap := der_bytes (mkApReq ticket (client_seal key USAGE_AP_REQ_AUTH a)) in
  let priv := der_bytes (mkKrbPriv (client_seal key USAGE_KRB_PRIV (mkEncKrbPrivPart data None None (Some 5) None None))) in
  be_bytes 2 (6 + zlen ap + zlen priv) ++ be_bytes 2 version ++ be_bytes 2 (zlen ap) ++ ap ++ priv.

Definition ex_change : bytes := kpasswd_request VERSION_CHANGE (str "new-password").
Definition ex_local : IpAddr := V4 [192; 0; 2; 1].

Lemma kdc_spelled_index : spelled_index ex_app kdc_forest.
Proof. intros attr value dn (p & e & _ & Hk & _). eapply kdc_spelled, kdc_forest_elem, Hk. Qed.


(** Names are compared without case for the requester's own account and with
    case for the target: the client sets the password of another account whose
    name differs from its own in case only. *)
Definition other_dn : Dn := dn_of (str "cn=other,dc=g10,dc=lo").
Definition other_entry : Entry := Eval vm_compute in with_key (str "other") (str "ALICE@G10.LO") (str "someone-else").
Definition other_store : kvstore := (exec zeros (Store.put_entry ex_st other_dn other_entry index_spec) kdc_store).2.
Definition ex_set : bytes :=
  kpasswd_request VERSION_SET (der_bytes (mkChgPwdData (str "new-password") (Some (string_to_principal_name (str "ALICE"))) None)).

Lemma case_variant_password_set :
  let m' := (exec zeros (kpasswd_handle ex_app ex_set ex_local) other_store).2 in
  let keys_in m := option_map keys_of (match (exec zeros (Store.get_entry ex_st other_dn) m).1 with Ok o => o | Err _ => None end) in
  keys_in other_store = Some (keys_of other_entry) /\ keys_of other_entry <> [] /\
  keys_in m' <> keys_in other_store /\ keys_in m' <> None.
Proof. cbn zeta. split; [vm_compute; reflexivity|]. repeat split; vm_compute; discriminate. Qed.
