(* ===== verification/Accept.v ===== *)
(** Acceptance of GSS-API security contexts, [crates/ldap/src/gssapi/accept.rs]:
    the application server's side of the Kerberos AP exchange. *)

From S2P Require Import Prelude Bytes Str Btree Utf8 Dn Partition Key Registry Entry Etcd Index Ridpool Store.
From S2P Require Import Directory Token Nfold Kerberos Password Principal Krb Pac Kdc.

Inductive AcceptError :=
| AcceptToken (e : Token.Error)
| AcceptDecode (b : bytes)
| AcceptEncode
| NoServiceKey
| UnsupportedEnctype (etype : Z)
| TicketDecryptFailed
| AuthenticatorDecryptFailed
| AuthenticatorMismatch
| ClockSkew
| TicketExpired
| MalformedGssChecksum
| AcceptCrypto (e : Kerberos.Error).

Definition GSS_CHECKSUM_TYPE : Z := 0x8003.
Definition GSS_C_MUTUAL_FLAG : Z := 2.

Record AcceptedContext := mkAccepted {
  client_principal : rstring;
  session_key : bytes;
  ctx_enctype : Enctype;
  output_token : option bytes;
}.

Definition gss_checksum_flags (b : bytes) : result AcceptError Z :=
  if zlen b <? 24 then Err MalformedGssChecksum else Ok (le_val (ztake 4 (zdrop 20 b))).

(** An error that ends the acceptance. *)
Definition or_reject {A} (o : option A) (e : AcceptError) : prog (result (stop AcceptError) A) :=
  match o with Some a => Ret (Ok a) | None => Ret (Err (Return e)) end.
Definition reject {A} (e : AcceptError) : prog (result (stop AcceptError) A) := Ret (Err (Return e)).
Definition try_reject {E A} (x : result E A) (f : E -> AcceptError) : prog (result (stop AcceptError) A) :=
  Ret (map_err (fun e => Return (f e)) x).

Section accept.
  Context `{!OpenSsl} `{!KrbCodec}.

(** The AP-REQ of an initial token. *)
Definition parse_ap_req (input_token : bytes) : result AcceptError ApReq :=
  inner ← map_err AcceptToken (parse_initial_context_token input_token);
  ap_req_bytes ← map_err AcceptToken (split_tok_id inner TOK_ID_AP_REQ);
  ok_or (AcceptDecode ap_req_bytes) (der_decode ap_req_bytes).

(** The flags of the authenticator's GSS checksum. *)
Definition authenticator_flags (a : Authenticator) : result AcceptError Z :=
  cksum ← ok_or MalformedGssChecksum (auth_cksum a);
  if negb (cksum_type cksum =? GSS_CHECKSUM_TYPE) then Err MalformedGssChecksum
  else gss_checksum_flags (cksum_bytes cksum).

(** The mutual-authentication token: under the ticket's session key. *)
Definition ap_rep_token (e : Enctype) (ticket_session_key : bytes) (a : Authenticator) : prog (result (stop AcceptError) bytes) :=
  enc_bytes <-? or_reject (der_encode (mkEncApRepPart (auth_ctime a) (auth_cusec a) None)) AcceptEncode ;;
  cipher <-? catch (encrypt_with e ticket_session_key 12 enc_bytes) (fun x => reject (AcceptCrypto x)) ;;
  ap_rep_bytes <-? or_reject (der_encode (mkApRep (mkEncryptedData (etype_number e) None cipher))) AcceptEncode ;;
  Ret (Ok (build_initial_context_token (TOK_ID_AP_REP ++ ap_rep_bytes))).

(** [lookup_key] is the caller's: the stored keys of a service, [Return tt] if
    there are none. *)
Definition accept (input_token : bytes) (lookup_key : PrincipalName -> rstring -> prog (result (stop unit) (list PrincipalKey)))
    : prog (result (stop AcceptError) AcceptedContext) :=
  ap_req <-? try_reject (parse_ap_req input_token) (fun e => e) ;;
  let ticket := ap_ticket ap_req in
  let etype := ed_etype (tkt_enc_part ticket) in
  service_keys <-? prog_map_err (fun s => match s with Panic => Panic | Return _ => Return NoServiceKey end)
    (lookup_key (tkt_sname ticket) (realm_to_string (tkt_realm ticket))) ;;
  tkt_enctype <-? or_reject (try_from etype) (UnsupportedEnctype etype) ;;
  service_key <-? or_reject (find_key tkt_enctype service_keys) NoServiceKey ;;
  enc_ticket_bytes <-? try_reject (decrypt tkt_enctype (pk_key service_key) 2 (ed_cipher (tkt_enc_part ticket)))
    (fun _ => TicketDecryptFailed) ;;
  tgt <-? or_reject (der_decode enc_ticket_bytes) (AcceptDecode enc_ticket_bytes) ;;
  t <-? read_clock ;;
  let now := (now_of t).1 in
  if 0 <? diff_seconds (etp_end_time tgt) now then reject TicketExpired else
  let ticket_session_key := ek_value (etp_key tgt) in
  auth_bytes <-? try_reject (decrypt tkt_enctype ticket_session_key 11 (ed_cipher (ap_authenticator ap_req)))
    (fun _ => AuthenticatorDecryptFailed) ;;
  authenticator <-? or_reject (der_decode auth_bytes) (AcceptDecode auth_bytes) ;;
  if negb (bool_decide (auth_crealm authenticator = etp_crealm tgt)) || negb (bool_decide (auth_cname authenticator = etp_cname tgt))
  then reject AuthenticatorMismatch
  else if CLOCK_SKEW_SECS <? Z.abs (diff_seconds (auth_ctime authenticator) now) then reject ClockSkew else
  gss_flags <-? try_reject (authenticator_flags authenticator) (fun e => e) ;;
  let session_key := match auth_subkey authenticator with Some k => ek_value k | None => ticket_session_key end in
  output_token <-? (if negb (Z.land gss_flags GSS_C_MUTUAL_FLAG =? 0)
                    then prog_bind_ (fun r => Ret (tok ← r; Ok (Some tok))) (ap_rep_token tkt_enctype ticket_session_key authenticator)
                    else Ret (Ok None)) ;;
  Ret (Ok (mkAccepted (fqn (principal_name_to_string (etp_cname tgt)) (realm_to_string (etp_crealm tgt)))
    session_key tkt_enctype output_token)).
End accept.

(** ** What an accepted context says *)

Section spec.
  Context `{!OpenSsl, !OpenSslLaws} `{!KrbCodec} `{!DerLaw EncApRepPart, !DerLaw ApRep}.
  Context (T : Z -> Prop) (m : kvstore).
  Context (lookup_key : PrincipalName -> rstring -> prog (result (stop unit) (list PrincipalKey))).
  (** What the caller's lookup establishes. *)
  Context (keys_for : PrincipalName -> rstring -> list PrincipalKey -> Prop).

(** The answer proves the acceptor read the ticket: it holds the time of the
    client's own authenticator, sealed with the ticket's session key. *)
Definition mutual_token (tgt : EncTicketPart) (a : Authenticator) (e : Enctype) (tok : bytes) : Prop :=
  exists rep b, tok = build_initial_context_token (TOK_ID_AP_REP ++ b) /\ der_decode b = Some rep /\
    (zlen (ek_value (etp_key tgt)) = key_len e ->
     seals e (ek_value (etp_key tgt)) 12 (ed_cipher (ap_rep_enc_part rep)) (mkEncApRepPart (auth_ctime a) (auth_cusec a) None)).

Record accepts (input_token : bytes) (ctx : AcceptedContext) : Prop := {
  acc_evidence : exists ap ks k tgt a now flags,
    parse_ap_req input_token = Ok ap /\
    (** a ticket sealed with a key of the service it names, not expired *)
    keys_for (tkt_sname (ap_ticket ap)) (realm_to_string (tkt_realm (ap_ticket ap))) ks /\ k ∈ ks /\ pk_enctype k = ctx_enctype ctx /\
    try_from (ed_etype (tkt_enc_part (ap_ticket ap))) = Some (pk_enctype k) /\
    seals (pk_enctype k) (pk_key k) 2 (ed_cipher (tkt_enc_part (ap_ticket ap))) tgt /\
    T now /\ diff_seconds (etp_end_time tgt) (whole_seconds now) <= 0 /\
    (** a fresh authenticator of the ticket's client, sealed with its session key *)
    seals (pk_enctype k) (ek_value (etp_key tgt)) 11 (ed_cipher (ap_authenticator ap)) a /\
    auth_crealm a = etp_crealm tgt /\ auth_cname a = etp_cname tgt /\
    Z.abs (diff_seconds (auth_ctime a) (whole_seconds now)) <= CLOCK_SKEW_SECS /\
    authenticator_flags a = Ok flags /\
    (** the context is theirs *)
    client_principal ctx = fqn (principal_name_to_string (etp_cname tgt)) (realm_to_string (etp_crealm tgt)) /\
    session_key ctx = match auth_subkey a with Some sk => ek_value sk | None => ek_value (etp_key tgt) end /\
    match output_token ctx with
    | Some tok => Z.land flags GSS_C_MUTUAL_FLAG <> 0 /\ mutual_token tgt a (ctx_enctype ctx) tok
    | None => Z.land flags GSS_C_MUTUAL_FLAG = 0
    end;
}.

Lemma ro_reject {A : Type} e (Q : A -> Prop) : ro T m (fun _ : stop AcceptError => True) (reject e) Q.
Proof. by apply ro_err. Qed.

Lemma ro_or_reject {A : Type} (o : option A) e :
  ro T m (fun _ : stop AcceptError => True) (or_reject o e) (fun x => o = Some x).
Proof. destruct o; [by apply ro_ret|apply ro_reject]. Qed.

Lemma ro_try_reject {E A : Type} (x : result E A) f :
  ro T m (fun _ : stop AcceptError => True) (try_reject x f) (fun a => x = Ok a).
Proof. destruct x; [by apply ro_ret|apply ro_reject]. Qed.

Lemma ro_ap_rep tgt a e : ro T m (fun _ => True) (ap_rep_token e (ek_value (etp_key tgt)) a) (mutual_token tgt a e).
Proof.
  unfold ap_rep_token. eapply ro_try; [apply ro_or_reject|]. intros b Hb.
  eapply ro_try; [apply ro_catch; [exact (ro_encrypt_if T m e _ 12 _ _ Hb)|intros; apply ro_reject]|]. intros c Hc.
  eapply ro_try; [apply ro_or_reject|]. intros b' Hb'. apply ro_ret.
  eexists _, b'. split; [done|]. split; [exact (der_roundtrip _ _ Hb')|]. done.
Qed.

Lemma ro_output_token flags tgt a e :
  ro T m (fun _ => True)
    (if negb (Z.land flags GSS_C_MUTUAL_FLAG =? 0)
     then prog_bind_ (fun r => Ret (tok ← r; Ok (Some tok))) (ap_rep_token e (ek_value (etp_key tgt)) a)
     else Ret (Ok None))
    (fun o => match o with
              | Some tok => Z.land flags GSS_C_MUTUAL_FLAG <> 0 /\ mutual_token tgt a e tok
              | None => Z.land flags GSS_C_MUTUAL_FLAG = 0
              end).
Proof.
  destruct (Z.eqb_spec (Z.land flags GSS_C_MUTUAL_FLAG) 0) as [Hz|Hz]; cbn [negb]; [by apply ro_ret|].
  intros r m' (x & m1 & [-> Hx]%ro_ap_rep & -> & ->)%runs_at_bind. split; [done|]. by destruct x.
Qed.

Hypothesis lookup_ok : forall sname realm, ro T m (fun _ => True) (lookup_key sname realm) (keys_for sname realm).

Lemma ro_service_keys {E : Type} sname realm (f : stop unit -> E) :
  ro T m (fun _ => True) (prog_map_err f (lookup_key sname realm)) (keys_for sname realm).
Proof.
  intros r m' (x & m1 & Hx & -> & ->)%runs_at_bind. apply lookup_ok in Hx as [-> Hx]. split; [done|]. by destruct x.
Qed.

Lemma accept_spec input_token : ro T m (fun _ => True) (accept input_token lookup_key) (accepts input_token).
Proof.
  unfold accept. eapply ro_try; [apply ro_try_reject|]. intros ap Hap. cbn zeta.
  eapply ro_try; [apply ro_service_keys|]. intros ks Hks.
  eapply ro_try; [apply ro_or_reject|]. intros en Hen. eapply ro_try; [apply ro_or_reject|].
  intros k [Hin <-]%find_key_in. eapply ro_try; [apply ro_try_reject|]. intros b Hb.
  eapply ro_try; [apply ro_or_reject|]. intros tgt Htgt. apply ro_clock. intros now Hnow.
  change (now_of now).1 with (whole_seconds now).
  destruct (Z.ltb_spec 0 (diff_seconds (etp_end_time tgt) (whole_seconds now))); [apply ro_reject|].
  eapply ro_try; [apply ro_try_reject|]. intros b' Hb'. eapply ro_try; [apply ro_or_reject|]. intros a Ha.
  destruct (bool_decide_reflect (auth_crealm a = etp_crealm tgt)); [|apply ro_reject].
  destruct (bool_decide_reflect (auth_cname a = etp_cname tgt)); [|apply ro_reject]. cbn [negb orb].
  destruct (Z.ltb_spec CLOCK_SKEW_SECS (Z.abs (diff_seconds (auth_ctime a) (whole_seconds now)))); [apply ro_reject|].
  eapply ro_try; [apply ro_try_reject|]. intros flags Hflags. eapply ro_try; [apply ro_output_token|]. intros o Ho.
  apply ro_ret. constructor. exists ap, ks, k, tgt, a, now, flags. cbn [ctx_enctype client_principal session_key output_token].
  repeat split; try done; [by exists b|by exists b'].
Qed.
End spec.
