(* ===== verification/RootDse.v ===== *)
(** The rootDSE entry synthesised from the partition registry,
    [crates/ldap/src/rootdse.rs]. *)

From S2P Require Import Prelude Bytes Str Btree Utf8 Dn Partition Registry.

(** An attribute description with its values, as bytes. *)
Abbreviation AttributeList := (list (list Z * list (list Z))) (only parsing).

(** A returned entry: its name and its attributes. *)
Record SearchResultEntry := mkResultEntry { object_name : rstring; re_attributes : AttributeList }.

Definition rootdse_attr (name : rstring) (values : list rstring) : rstring * list bytes :=
  (name, List.map utf8_encode values).

Definition single_domain_partition (registry : PartitionRegistry) : option Partition :=
  single (List.filter (fun p => bool_decide (kind p = Domain)) (iter registry)).

(** [if let Some(x) = o { attrs.push(..) }]. *)
Definition push_some {A B} (o : option A) (f : A -> list B) : list B :=
  match o with Some a => f a | None => [] end.

Definition dn_attr (name : rstring) (p : Partition) : AttributeList :=
  [rootdse_attr name [Dn.to_string (base_dn p)]].

(** The attributes derived from the one domain partition. *)
Definition domain_attributes (registry : PartitionRegistry) (domain : Partition) : AttributeList :=
  [rootdse_attr (str "supportedCapabilities") [str "1.2.840.113556.1.4.800"]]
  ++ dn_attr (str "defaultNamingContext") domain
  ++ push_some (config_partition registry (forest domain)) (dn_attr (str "configurationNamingContext"))
  ++ push_some (schema_partition registry (forest domain)) (dn_attr (str "schemaNamingContext"))
  ++ push_some (root_domain_partition registry (forest domain)) (dn_attr (str "rootDomainNamingContext"))
  ++ [rootdse_attr (str "domainFunctionality") [str "7"];
      rootdse_attr (str "forestFunctionality") [str "7"];
      rootdse_attr (str "domainControllerFunctionality") [str "10"];
      rootdse_attr (str "isSynchronized") [str "TRUE"];
      rootdse_attr (str "highestCommittedUSN") [str "1"]]
  ++ push_some (realm domain) (fun realm =>
       let dn := Dn.to_string (base_dn domain) in
       [rootdse_attr (str "dnsHostName") [str "iron-ldapd." ++ to_ascii_lowercase realm];
        rootdse_attr (str "ldapServiceName") [to_ascii_lowercase realm ++ str ":iron-ldapd@" ++ realm];
        rootdse_attr (str "serverName") [str "cn=iron-ldapd," ++ dn];
        rootdse_attr (str "dsServiceName") [str "cn=iron-ldapd," ++ dn]])
  ++ push_some (schema_partition registry (forest domain)) (fun schema =>
       [rootdse_attr (str "subschemaSubentry") [str "cn=aggregate," ++ Dn.to_string (base_dn schema)]]).

Definition build (registry : PartitionRegistry) (fips_active : bool) : SearchResultEntry :=
  let naming_contexts := List.map (fun p => Dn.to_string (base_dn p)) (iter registry) in
  mkResultEntry []
    ([rootdse_attr (str "objectClass") [str "top"];
      rootdse_attr (str "supportedLDAPVersion") [str "3"];
      rootdse_attr (str "vendorName") [str "irondirectory"]]
     ++ (if fips_active
         then [rootdse_attr (str "supportedSASLMechanisms") [str "GSSAPI"; str "GSS-SPNEGO"]] else [])
     ++ (if bool_decide (naming_contexts = []) then []
         else [rootdse_attr (str "namingContexts") naming_contexts])
     ++ push_some (single_domain_partition registry) (domain_attributes registry)).
