(* ===== verification/Ldap.v ===== *)
(** The directory operations of the LDAP session, [crates/ldap/src/session.rs]:
    add, delete, modify, compare, rename and search, with the referrals, the
    hashing of passwords, the projection of attributes and the stamping of
    security principals ([crates/ldap/src/security.rs]). *)

From S2P Require Import Prelude Bytes Str Btree Utf8 Decimal Dn Partition Key Registry Entry Etcd Index Ridpool Store.
From S2P Require Import Directory Filter Schema Sid SecurityDescriptor Kerberos Password Principal BinaryAttrs RootDse.

Definition USER_PASSWORD_ATTR : rstring := str "userpassword".

Inductive ResultCode :=
| Success | OperationsError | ProtocolError | SizeLimitExceeded | CompareFalse | CompareTrue
| AuthMethodNotSupported | ReferralCode | SaslBindInProgress | ConstraintViolation | NoSuchObject
| InvalidDnSyntax | InvalidCredentials | UnwillingToPerform | NotAllowedOnNonLeaf | ObjectClassViolation | Other.

#[global] Instance ResultCode_eq_dec : EqDecision ResultCode.
Proof. solve_decision. Defined.

(** The sources of a referral. *)
Record Referrals := mkReferrals {
  topology : option PartitionRegistry;
  static_list : list (Dn * rstring);
  own_partition_id : option PartitionId;
}.

(** [trim_end_matches('/')]. *)
Fixpoint trim_slash_start (s : rstring) : rstring :=
  match s with c :: s' => if c =? c_slash then trim_slash_start s' else s | [] => [] end.
Definition trim_end_slash (s : rstring) : rstring := rev (trim_slash_start (rev s)).

Definition referral_uri (url : rstring) (dn : Dn) : rstring :=
  trim_end_slash url ++ str "/" ++ Dn.to_string dn.

Definition referral_for (refs : Referrals) (dn : Dn) : option rstring :=
  match t ← topology refs; p ← Registry.resolve t dn; ldap_url p with
  | Some url => Some url
  | None => snd <$> List.find (fun bu => is_within dn bu.1) (static_list refs)
  end.

(** The requests, as decoded. *)
Inductive ChangeOperation := ChangeAdd | ChangeDelete | ChangeReplace.
Record Change := mkChange { operation : ChangeOperation; ch_type : rstring; ch_vals : list bytes }.

Inductive SearchRequestScope := BaseObject | SingleLevel | WholeSubtree | OtherScope.
Record SearchRequest := mkSearch {
  base_object : rstring;
  scope : SearchRequestScope;
  size_limit : Z;
  types_only : bool;
  sr_filter : Filter;
  sr_attributes : list rstring;
}.

Record ModifyDnRequest := mkModDn {
  md_entry : rstring;
  new_rdn : rstring;
  delete_old_rdn : bool;
  new_superior : option rstring;
}.

Section operations.
  Context `{EntryCodec} `{Base64} `{!UnicodeLower} `{!OpenSsl}.

(** The diagnostic text of a result, with the error it prints. *)
Inductive Diagnostic :=
| Text (s : rstring)
| OfStore (e : StoreError json_error)
| OldDnRemains (e : StoreError json_error)
| OfSchema (e : SchemaError)
| TooShortBy (min actual : Z).

Record LdapResult := mkResult { code : ResultCode; diagnostic : Diagnostic; referral : option (list rstring) }.

Definition result_new (c : ResultCode) (d : Diagnostic) : LdapResult := mkResult c d None.
Definition unwilling (s : rstring) : LdapResult := result_new UnwillingToPerform (Text s).
Definition success : LdapResult := result_new Success (Text []).
Definition operations_error (d : Diagnostic) : LdapResult := result_new OperationsError d.
Definition invalid_dn : LdapResult := result_new InvalidDnSyntax (Text (str "invalid DN")).
Definition no_such_object : LdapResult := result_new NoSuchObject (Text []).

Definition proactive_referral (refs : Referrals) (dn : Dn) : option LdapResult :=
  t ← topology refs;
  own_id ← own_partition_id refs;
  owner ← Registry.resolve t dn;
  if bool_decide (p_id owner = own_id) then None
  else
    url ← ldap_url owner;
    Some (mkResult ReferralCode (Text []) (Some [referral_uri url dn])).

Definition store_error_result (e : StoreError json_error) (refs : Referrals) (dn : Dn) : LdapResult :=
  match e, referral_for refs dn with
  | NoPartitionFor _, Some url => mkResult ReferralCode (Text []) (Some [referral_uri url dn])
  | _, _ => operations_error (OfStore e)
  end.

(** ** Passwords *)

Definition password_error_result (e : Error) : LdapResult :=
  match e with
  | PasswordTooShort min actual => result_new ConstraintViolation (TooShortBy min actual)
  | FipsProviderNotActive => unwilling (str "FIPS provider not active -- cannot hash userPassword")
  | _ => unwilling (str "failed to hash userPassword")
  end.

(** The [collect] of [hash_password] over the values, each with a salt of its
    own. *)
Fixpoint hash_values (values : list rstring) : prog (result Error (list rstring)) :=
  match values with
  | [] => Ret (Ok [])
  | v :: vs =>
      h <-? Call (Random (Z.to_nat SALT_LEN)) (fun salt => Ret (hash_password salt (utf8_encode v))) ;;
      hs <-? hash_values vs ;;
      Ret (Ok (h :: hs))
  end.

Definition hash_password_values (fips : bool) (values : list rstring) : prog (result Error (list rstring)) :=
  if fips then hash_values values else Ret (Err FipsProviderNotActive).

Definition is_password (attr : rstring) : bool := eq_ignore_ascii_case attr USER_PASSWORD_ATTR.

(** The values as they are stored: those of a password hashed. *)
Definition stored_values (fips : bool) (attr : rstring) (values : list rstring) : prog (result Error (list rstring)) :=
  if is_password attr then hash_password_values fips values else Ret (Ok values).

(** The loop of [entry_from_attributes]. *)
Fixpoint set_attributes (fips : bool) (entry : Entry) (attrs : AttributeList) : prog (result Error Entry) :=
  match attrs with
  | [] => Ret (Ok entry)
  | (name, vals) :: rest =>
      let values := map utf8_lossy vals in
      stored <-? stored_values fips name values ;;
      set_attributes fips (Entry.set entry name stored) rest
  end.

Definition entry_from_attributes (fips : bool) (attrs : AttributeList) : prog (result Error Entry) :=
  set_attributes fips Entry.new attrs.

(** ** Security principals *)

Definition SECURITY_PRINCIPAL_CLASSES : list rstring := [str "user"; str "computer"; str "group"].

Definition declares_security_principal_class (entry : Entry) : bool :=
  match Entry.get entry (str "objectclass") with
  | Some classes => existsb (fun c => existsb (fun sc => eq_ignore_ascii_case sc c) SECURITY_PRINCIPAL_CLASSES) classes
  | None => false
  end.

(** The SID of the domain [dn] belongs to, if one is provisioned. *)
Definition domain_sid_of (st : Store) (topology : option PartitionRegistry) (dn : Dn) : option Sid :=
  p ← Registry.resolve (default (registry st) topology) dn;
  s ← domain_sid p;
  Sid.parse s.

Definition stamp (sid : Sid) (rid : Z) (entry : Entry) : Entry :=
  let entry := Entry.set entry OBJECT_SID_ATTR [encode_binary_attr (Sid.encode (with_sub_authority sid rid))] in
  Entry.set entry NT_SECURITY_DESCRIPTOR_ATTR [encode_binary_attr (default_descriptor sid)].

(** [Ok None]: still waiting for a RID after [fuel] lost races. *)
Definition stamp_security_principal (fuel : nat) (st : Store) (topology : option PartitionRegistry) (dn : Dn)
    (entry : Entry) : prog (result (StoreError json_error) (option Entry)) :=
  if negb (declares_security_principal_class entry) then Ret (Ok (Some entry))
  else
    match domain_sid_of st topology dn with
    | None => Ret (Ok (Some entry))
    | Some sid =>
        rid <-? Store.allocate_rid st dn fuel ;;
        Ret (Ok ((fun rid => stamp sid rid entry) <$> rid))
    end.

(** ** Handlers

    An [Err] is a response returned early. *)
Definition respond (p : prog (result LdapResult LdapResult)) : prog LdapResult :=
  prog_bind_ (fun r => Ret (match r with Ok a => a | Err a => a end)) p.

Definition parse_dn (s : rstring) : result LdapResult Dn := map_err (fun _ => invalid_dn) (Dn.parse s).

(** The proactive referral every handler starts with. *)
Definition refer (refs : Referrals) (dn : Dn) : result LdapResult unit :=
  match proactive_referral refs dn with Some r => Err r | None => Ok tt end.

(** A store operation, its error mapped to a response. *)
Definition on_store {A} (refs : Referrals) (dn : Dn) (p : prog (result (StoreError json_error) A)) : prog (result LdapResult A) :=
  prog_map_err (fun e => store_error_result e refs dn) p.

Definition validated (entry : Entry) : result LdapResult unit :=
  map_err (fun e => result_new ObjectClassViolation (OfSchema e)) (Schema.validate entry).

(** [None]: still waiting for a RID after [fuel] lost races. *)
Definition handle_add (fuel : nat) (st : Store) (fips : bool) (req_entry : rstring) (attributes : AttributeList)
    (spec : IndexSpec) (refs : Referrals) : prog (option LdapResult) :=
  prog_bind_ (fun r => Ret (match r with Ok a => a | Err a => Some a end)) (
    dn <-? lift (parse_dn req_entry) ;;
    _ <-? lift (refer refs dn) ;;
    entry <-? prog_map_err password_error_result (entry_from_attributes fips attributes) ;;
    _ <-? lift (validated entry) ;;
    stamped <-? on_store refs dn (stamp_security_principal fuel st (topology refs) dn entry) ;;
    match stamped with
    | None => Ret (Ok None)
    | Some entry =>
        _ <-? on_store refs dn (Store.put_entry st dn entry spec) ;;
        Ret (Ok (Some success))
    end).

Definition handle_delete (st : Store) (req : rstring) (spec : IndexSpec) (refs : Referrals) : prog LdapResult :=
  respond (
    dn <-? lift (parse_dn req) ;;
    _ <-? lift (refer refs dn) ;;
    _ <-? on_store refs dn (Store.delete_entry st dn spec) ;;
    Ret (Ok success)).

(** The entry a handler works on. *)
Definition read_entry (st : Store) (refs : Referrals) (dn : Dn) : prog (result LdapResult Entry) :=
  found <-? on_store refs dn (Store.get_entry st dn) ;;
  lift (ok_or no_such_object found).

(** One change of a modify request. *)
Definition apply_change (fips : bool) (entry : Entry) (c : Change) : prog (result Error Entry) :=
  let attr := ch_type c in
  let values := map utf8_lossy (ch_vals c) in
  match operation c with
  | ChangeAdd => stored <-? stored_values fips attr values ;; Ret (Ok (Entry.add_values entry attr stored))
  | ChangeDelete => Ret (Ok (Entry.delete_values entry attr values))
  | ChangeReplace =>
      if bool_decide (values = []) then Ret (Ok (Entry.delete_values entry attr []))
      else stored <-? stored_values fips attr values ;; Ret (Ok (Entry.set entry attr stored))
  end.

Fixpoint apply_changes (fips : bool) (entry : Entry) (changes : list Change) : prog (result Error Entry) :=
  match changes with
  | [] => Ret (Ok entry)
  | c :: cs => entry <-? apply_change fips entry c ;; apply_changes fips entry cs
  end.

Definition handle_modify (st : Store) (fips : bool) (object : rstring) (changes : list Change)
    (spec : IndexSpec) (refs : Referrals) : prog LdapResult :=
  respond (
    dn <-? lift (parse_dn object) ;;
    _ <-? lift (refer refs dn) ;;
    entry <-? read_entry st refs dn ;;
    entry <-? prog_map_err password_error_result (apply_changes fips entry changes) ;;
    _ <-? lift (validated entry) ;;
    _ <-? on_store refs dn (Store.put_entry st dn entry spec) ;;
    Ret (Ok success)).

Definition compare_matches (entry : Entry) (ava : AttributeValueAssertion) : bool :=
  let want := utf8_lossy (assertion_value ava) in
  match Entry.get entry (attribute_desc ava) with
  | Some vals => existsb (fun v => eq_ignore_ascii_case v want) vals
  | None => false
  end.

Definition handle_compare (st : Store) (req_entry : rstring) (ava : AttributeValueAssertion) (refs : Referrals)
    : prog LdapResult :=
  respond (
    dn <-? lift (parse_dn req_entry) ;;
    _ <-? lift (refer refs dn) ;;
    entry <-? read_entry st refs dn ;;
    let code := if compare_matches entry ava then CompareTrue else CompareFalse in
    Ret (Ok (result_new code (Text [])))).

(** The new RDN's values are added; with [delete_old_rdn] the old RDN's values
    the new RDN does not use are removed. *)
Definition still_wanted (new_rdn : Rdn) (ava : Ava) : bool :=
  existsb (fun a => bool_decide (attr a = attr ava) && eq_ignore_ascii_case (value a) (value ava)) (avas new_rdn).

Definition rename_values (old_rdn new_rdn : Rdn) (delete_old : bool) (entry : Entry) : Entry :=
  let entry := foldl (fun e a => Entry.add_values e (attr a) [value a]) entry (avas new_rdn) in
  if delete_old then
    foldl (fun e a => if still_wanted new_rdn a then e else Entry.delete_values e (attr a) [value a])
      entry (avas old_rdn)
  else entry.

Definition renamed_dn (req : ModifyDnRequest) (old_dn : Dn) : result LdapResult Dn :=
  new_parent ← match new_superior req with
               | Some sup => parse_dn sup
               | None => Ok (default Dn.root (Dn.parent old_dn))
               end;
  parse_dn (if Dn.is_empty new_parent then new_rdn req else new_rdn req ++ str "," ++ Dn.to_string new_parent).

Definition handle_moddn (st : Store) (req : ModifyDnRequest) (spec : IndexSpec) (refs : Referrals) : prog LdapResult :=
  respond (
    old_dn <-? lift (parse_dn (md_entry req)) ;;
    match rdns old_dn with
    | [] => Ret (Err invalid_dn)
    | old_rdn :: _ =>
        _ <-? lift (refer refs old_dn) ;;
        new_rdn <-? lift (match Dn.parse (new_rdn req) with
                          | Ok (mkDn [r]) => Ok r
                          | _ => Err (result_new InvalidDnSyntax (Text (str "newrdn must be exactly one RDN")))
                          end) ;;
        new_dn <-? lift (renamed_dn req old_dn) ;;
        rows <-? on_store refs old_dn (Store.scan_subtree st old_dn) ;;
        if (1 <? length rows)%nat then
          Ret (Err (result_new NotAllowedOnNonLeaf
            (Text (str "moving a non-leaf entry (subtree rename) is not supported yet"))))
        else
          entry <-? read_entry st refs old_dn ;;
          let entry := rename_values old_rdn new_rdn (delete_old_rdn req) entry in
          _ <-? on_store refs new_dn (Store.put_entry st new_dn entry spec) ;;
          _ <-? (if dn_eq old_dn new_dn then Ret (Ok tt)
                 else prog_map_err (fun e => operations_error (OldDnRemains e)) (Store.delete_entry st old_dn spec)) ;;
          Ret (Ok success)
    end).

(** ** Search *)

Definition SearchResponse : Type := list SearchResultEntry * LdapResult.

Definition explicitly_requested (requested : list rstring) (name : rstring) : bool :=
  existsb (fun a => eq_ignore_ascii_case a name) requested.

Definition want_all (requested : list rstring) : bool :=
  bool_decide (requested = []) || existsb (fun a => bool_decide (a = str "*")) requested.

Definition selected (requested : list rstring) (name : rstring) : bool :=
  if is_password name then explicitly_requested requested name
  else want_all requested || explicitly_requested requested name.

Definition wire_value (name value : rstring) : bytes :=
  if is_binary_attr name then decode_binary_attr value else utf8_encode value.

Definition project_attributes (entry : Entry) (requested : list rstring) (types_only : bool) : AttributeList :=
  List.map (fun name =>
      (name, if types_only then []
             else match Entry.get entry name with Some vs => List.map (wire_value name) vs | None => [] end))
    (List.filter (selected requested) (attr_names entry)).

Definition usize_max : Z := 2 ^ 64 - 1.

(** The loop over the candidates; [sent] entries have been returned. *)
Fixpoint search_loop (req : SearchRequest) (limit sent : Z) (candidates : list (Dn * Entry)) : SearchResponse :=
  match candidates with
  | [] => ([], success)
  | (dn, entry) :: rest =>
      if negb (Filter.matches entry (sr_filter req)) then search_loop req limit sent rest
      else if sent =? limit then ([], result_new SizeLimitExceeded (Text []))
      else
        let '(ops, fin) := search_loop req limit (sent + 1) rest in
        (mkResultEntry (Dn.to_string dn) (project_attributes entry (sr_attributes req) (types_only req)) :: ops, fin)
  end.

Definition search_limit (req : SearchRequest) : Z :=
  if size_limit req =? 0 then usize_max else size_limit req.

Definition is_rootdse_search (base_dn : Dn) (req : SearchRequest) : bool :=
  Dn.is_empty base_dn && match scope req with BaseObject => true | _ => false end.

(** The candidates of a search in the order they are examined. *)
Definition search_candidates (st : Store) (refs : Referrals) (base_dn : Dn) (sc : SearchRequestScope)
    : prog (result LdapResult (list (Dn * Entry))) :=
  match sc with
  | BaseObject => entry <-? read_entry st refs base_dn ;; Ret (Ok [(base_dn, entry)])
  | SingleLevel =>
      rows <-? on_store refs base_dn (Store.scan_subtree st base_dn) ;;
      Ret (Ok (List.filter (fun de => bool_decide (depth de.1 = depth base_dn + 1)%nat) rows))
  | WholeSubtree => on_store refs base_dn (Store.scan_subtree st base_dn)
  | OtherScope => Ret (Err (result_new ProtocolError (Text (str "unrecognized search scope"))))
  end.

Definition handle_search (st : Store) (req : SearchRequest) (refs : Referrals) (fips_active : bool) : prog SearchResponse :=
  match Dn.parse (base_object req) with
  | Err _ => Ret ([], result_new InvalidDnSyntax (Text (str "invalid base DN")))
  | Ok base_dn =>
      if is_rootdse_search base_dn req then
        Ret ([RootDse.build (default (registry st) (topology refs)) fips_active], success)
      else
        prog_bind_ (fun r => Ret (match r with
                                  | Ok candidates => search_loop req (search_limit req) 0 candidates
                                  | Err r => ([], r)
                                  end))
          (_ <-? lift (refer refs base_dn) ;; search_candidates st refs base_dn (scope req))
  end.

(** ** Password Modify (RFC 3062) *)

Record PasswdModifyRequestValue := mkPasswdModify {
  user_identity : option bytes;
  old_passwd : option bytes;
  new_passwd : option bytes;
}.

Inductive PmMessage := PmText (s : rstring) | PmStore (e : StoreError json_error) | PmPrincipal (e : PrincipalError).
Record PasswordModifyError := mkPmError { pm_code : ResultCode; pm_message : PmMessage }.

Definition pm_err {A} (c : ResultCode) (s : rstring) : result PasswordModifyError A := Err (mkPmError c (PmText s)).

Definition resolve_password_target (identity : rstring) : result PasswordModifyError Dn :=
  let dn_str := default identity (strip_prefix (str "dn:") identity) in
  map_err (fun _ => mkPmError InvalidDnSyntax (PmText (str "userIdentity is not a valid DN"))) (Dn.parse dn_str).

Definition first_value (entry : Entry) (attr : rstring) : option rstring := Entry.get entry attr ≫= head.

Definition principal_fqn_for (entry : Entry) (realm : rstring) : option rstring :=
  match principal_name entry with
  | Ok existing => Some existing
  | Err _ =>
      name ← match first_value entry (str "samaccountname") with
             | Some n => Some n
             | None => first_value entry (str "cn")
             end;
      Some (name ++ str "@" ++ realm)
  end.

Definition first_realm (reg : PartitionRegistry) : option rstring := head (omap Partition.realm (iter reg)).

(** [decode_value] is the BER decoding of the request value. *)
Definition handle_password_modify (decode_value : bytes -> option PasswdModifyRequestValue) (st : Store) (fips : bool)
    (request_value : option bytes) (bound_identity : option rstring) (spec : IndexSpec)
    : prog (result PasswordModifyError unit) :=
  _ <-? lift (if fips then Ok tt
              else pm_err UnwillingToPerform (str "FIPS provider not active -- cannot set a Kerberos key")) ;;
  bytes <-? lift (ok_or (mkPmError ProtocolError (PmText (str "missing request value"))) request_value) ;;
  req <-? lift (ok_or (mkPmError ProtocolError (PmText (str "malformed PasswdModifyRequestValue"))) (decode_value bytes)) ;;
  new_passwd <-? lift (ok_or (mkPmError UnwillingToPerform
    (PmText (str "server-generated passwords are not supported -- newPasswd is required"))) (new_passwd req)) ;;
  identity <-? lift (ok_or (mkPmError ProtocolError (PmText (str "no userIdentity and no bound identity to fall back to")))
    (match user_identity req with Some v => Some (utf8_lossy v) | None => bound_identity end)) ;;
  dn <-? lift (resolve_password_target identity) ;;
  realm <-? lift (ok_or (mkPmError Other (PmText (str "no realm configured for this partition"))) (first_realm (registry st))) ;;
  found <-? prog_map_err (fun e => mkPmError OperationsError (PmStore e)) (Store.get_entry st dn) ;;
  entry <-? lift (ok_or (mkPmError NoSuchObject (PmText [])) found) ;;
  principal_fqn <-? lift (ok_or (mkPmError UnwillingToPerform
    (PmText (str "entry has no sAMAccountName/cn to derive a principal name from"))) (principal_fqn_for entry realm)) ;;
  entry <-? prog_map_err (fun e => mkPmError OperationsError (PmPrincipal e))
    (Call (Random (Z.to_nat MIN_SALT_LEN)) (fun salt => Ret (set_password salt entry principal_fqn new_passwd))) ;;
  prog_map_err (fun e => mkPmError OperationsError (PmStore e)) (Store.put_entry st dn entry spec).
End operations.
