(* ===== verification/LdapOps.v ===== *)
(** What the directory operations of the LDAP session do to the forest, for
    every way the store can answer: the theorems on the handlers of
    [Ldap.v] ([crates/ldap/src/session.rs]). *)

From S2P Require Import Prelude Bytes Str Btree Utf8 Decimal Dn Partition Key Registry Entry Etcd Index Ridpool Store.
From S2P Require Import Directory Filter Schema Sid SecurityDescriptor Kerberos Password Principal BinaryAttrs RootDse Ldap.

(** ** Passwords are stored as hashes *)

Section add.
  Context `{EntryCodec} `{Base64} `{!UnicodeLower} `{!OpenSsl, !OpenSslLaws}.

(** [h] is a stored hash that accepts the value [v]. *)
Definition hashed (v h : rstring) : Prop :=
  exists salt hash, h = format_hash salt hash /\ bytes_ok salt /\ bytes_ok hash /\
    verify_password (utf8_encode v) h = Some (Ok true).

Lemma hashed_str_ok v h : hashed v h -> str_ok h.
Proof.
  intros (salt & hash & -> & Hs & Hh & _). eapply Forall_impl; [by apply format_hash_ascii|].
  intros c Hc. left. simpl in Hc. lia.
Qed.

Lemma hash_values_runs vs m r m' :
  runs (hash_values vs) m r m' -> m' = m /\ forall hs, r = Ok hs -> Forall2 hashed vs hs.
Proof.
  revert m r. induction vs as [|v vs IH]; intros m r; cbn [hash_values].
  { intros [-> ->]. split; [done|]. intros hs [= <-]. constructor. }
  rewrite runs_try. intros [(e & Hh & ->)|(h & m1 & Hh & Hr)]; cbn [runs served] in Hh;
    destruct Hh as (salt & m2 & (-> & Hb) & Hh & ->); [done|].
  rewrite runs_try in Hr. destruct Hr as [(e & Hvs & ->)|(hs & m2 & Hvs & [-> ->])];
    apply IH in Hvs as [-> Hhs]; (split; [done|]); [done|].
  intros hs' [= <-]. constructor; [|by apply Hhs]. symmetry in Hh.
  destruct Hb as [->|(b & -> & Hlen & Hb)];
    [unfold hash_password in Hh; by destruct (_ <? _)|].
  apply hash_password_inv in Hh as (hash & -> & ? & ?); [|done|unfold zlen; by rewrite Hlen]. by exists b, hash.
Qed.

Lemma hash_password_values_runs fips vs m r m' :
  runs (hash_password_values fips vs) m r m' ->
  m' = m /\ forall hs, r = Ok hs -> fips = true /\ Forall2 hashed vs hs.
Proof.
  unfold hash_password_values. destruct fips; [|intros [-> ->]; by split].
  intros [-> Hr]%hash_values_runs. split; [done|]. intros hs Hhs. split; [done|by apply Hr].
Qed.

(** What is stored for the values of an attribute. *)
Definition stored_as (attr : rstring) (values vs : list rstring) : Prop :=
  if is_password attr then Forall2 hashed values vs else vs = values.

Lemma is_password_same a b : eq_ignore_ascii_case a b = true -> is_password a = is_password b.
Proof. unfold is_password, eq_ignore_ascii_case. intros E%bool_decide_eq_true. by rewrite E. Qed.

Lemma eq_ignore_ascii_case_sym a b : eq_ignore_ascii_case a b = eq_ignore_ascii_case b a.
Proof. unfold eq_ignore_ascii_case. by apply bool_decide_ext. Qed.

(** The values the last occurrence of an attribute gives it. *)
Definition final_values (attributes : AttributeList) (a : rstring) : option (list bytes) :=
  last (List.map snd (List.filter (fun nv => eq_ignore_ascii_case nv.1 a) attributes)).

(** [e] is [e0] with the attributes of the list. *)
Definition with_attributes (e0 : Entry) (attributes : AttributeList) (e : Entry) : Prop :=
  forall a, match final_values attributes a with
            | Some vals => exists vs, Entry.get e a = Some vs /\ stored_as a (map utf8_lossy vals) vs
            | None => Entry.get e a = Entry.get e0 a
            end.

(** Strings and values of a request as the decoder gives them. *)
Definition attributes_ok (attributes : AttributeList) : Prop :=
  Forall (fun nv => str_ok nv.1 /\ Forall bytes_ok nv.2) attributes.

Lemma stored_str_ok a values vs : stored_as a values vs -> Forall str_ok values -> Forall str_ok vs.
Proof.
  unfold stored_as. destruct (is_password a); [|by intros ->]. intros Hf _.
  induction Hf as [|v h vs hs Hh _ IH]; constructor; [by eapply hashed_str_ok|done].
Qed.

Lemma lossy_ok vals : Forall bytes_ok vals -> Forall str_ok (map utf8_lossy vals).
Proof. induction 1; cbn [map]; constructor; [by apply utf8_lossy_ok|done]. Qed.

Lemma stored_values_runs fips a values m r m' :
  runs (stored_values fips a values) m r m' -> m' = m /\ forall vs, r = Ok vs -> stored_as a values vs.
Proof.
  unfold stored_values, stored_as. destruct (is_password a).
  - intros [-> Hr]%hash_password_values_runs. split; [done|]. intros vs Hvs. by apply Hr.
  - intros [-> ->]. split; [done|]. by intros vs [= <-].
Qed.

Lemma set_attributes_runs fips e0 attributes m r m' :
  runs (set_attributes fips e0 attributes) m r m' ->
  m' = m /\ forall e, r = Ok e ->
    with_attributes e0 attributes e /\ (entry_wf e0 -> attributes_ok attributes -> entry_wf e).
Proof.
  revert e0 m r. induction attributes as [|[name vals] rest IH]; intros e0 m r; cbn [set_attributes].
  { intros [-> ->]. split; [done|]. intros e [= <-]. by split. }
  rewrite runs_try. intros [(e & [-> _]%stored_values_runs & ->)|(vs & m1 & [-> Hvs]%stored_values_runs & Hr)]; [done|].
  specialize (Hvs vs eq_refl). apply IH in Hr as [-> Hr]. split; [done|]. intros e He.
  destruct (Hr e He) as [Hw Hwf]. split.
  - intros a. specialize (Hw a). revert Hw. unfold final_values. cbn [List.filter fst].
    destruct (eq_ignore_ascii_case name a) eqn:Ea; cbn [List.map]; [rewrite last_cons; cbn [snd]|].
    + destruct (last _); [done|]. rewrite get_set, Ea. intros ->. exists vs. split; [done|].
      revert Hvs. unfold stored_as. by rewrite (is_password_same _ _ Ea).
    + destruct (last _); [done|]. by rewrite get_set, Ea.
  - intros He0 [[Hn Hv] Hrest]%Forall_cons. apply Hwf; [|done]. apply entry_set_wf; [done|done|].
    eapply stored_str_ok; [exact Hvs|by apply lossy_ok].
Qed.

(** ** Adding *)

  Context (st : Store) (Hst : connected st) (spec : IndexSpec) (refs : Referrals).
  Implicit Types (F : forest) (m : kvstore) (dn base : Dn) (e : Entry).

(** The entry with the SID and descriptor of RID [n], if it is a principal of
    a domain that has a SID. *)
Definition principal_stamped (dn : Dn) (n : Z) (e : Entry) : Entry :=
  match domain_sid_of st (topology refs) dn with
  | Some sid => if declares_security_principal_class e then stamp sid n e else e
  | None => e
  end.

(** The entries an add request of these attributes stores. *)
Definition added (dn : Dn) (n : Z) (attributes : AttributeList) (e : Entry) : Prop :=
  exists e0, with_attributes Entry.new attributes e0 /\ complete e0 /\ e = principal_stamped dn n e0.

Lemma stamp_runs F m fuel dn n e0 r m' :
  holds st spec F m -> pool_of st dn m = Some n ->
  runs (stamp_security_principal fuel st (topology refs) dn e0) m r m' ->
  holds st spec F m' /\ forall e, r = Ok (Some e) -> e = principal_stamped dn n e0.
Proof.
  intros HF Hn. unfold stamp_security_principal, principal_stamped.
  destruct (declares_security_principal_class e0); cbn [negb].
  - destruct (domain_sid_of st (topology refs) dn) as [sid|]; [|intros [-> ->]; split; [done|by intros e [= <-]]].
    rewrite runs_try. intros [(e & Hr & ->)|(rid & m1 & Hr & [-> ->])];
      apply (allocate_rid_holds st Hst spec F) with (n := n) in Hr as [HF' Hrid]; try done.
    split; [done|]. intros e. destruct rid as [rid|]; [|done]. intros [= <-]. by rewrite (Hrid rid).
  - intros [-> ->]. split; [done|]. intros e [= <-]. by destruct (domain_sid_of _ _ _).
Qed.

Lemma principal_stamped_wf dn n e : entry_wf e -> entry_wf (principal_stamped dn n e).
Proof.
  intros He. unfold principal_stamped, domain_sid_of. destruct (Registry.resolve _ dn) as [p|]; [|done].
  cbn [mbind option_bind]. destruct (Partition.domain_sid p) as [s|]; [|done]. cbn [mbind option_bind].
  destruct (Sid.parse s) as [sid|] eqn:Hs; [|done]. destruct (declares_security_principal_class e); [|done].
  apply parse_revision in Hs. unfold stamp.
  assert (forall b, bytes_ok b -> Forall str_ok [encode_binary_attr b]) as Hb.
  { intros b Hb. apply Forall_singleton. by apply encode_binary_str_ok. }
  apply entry_set_wf; [|apply str_ok_str|by apply Hb, default_descriptor_ok].
  apply entry_set_wf; [done|apply str_ok_str|]. by apply Hb, encode_bytes_ok.
Qed.

(** A truthful answer to a write: success means one of the forests of [new] is
    stored, a failure that nothing or one of them is. *)
Definition write_answer (F : forest) (new : forest -> Prop) (r : LdapResult) (m' : kvstore) : Prop :=
  (code r = Success -> exists F', new F' /\ holds st spec F' m') /\
  (code r <> Success -> holds st spec F m' \/ exists F', new F' /\ holds st spec F' m').

Lemma refused F new r m' : code r <> Success -> holds st spec F m' -> write_answer F new r m'.
Proof. intros Hc HF. split; [done|by left]. Qed.

Lemma refer_code dn r : refer refs dn = Err r -> code r = ReferralCode.
Proof.
  unfold refer, proactive_referral. destruct (topology refs) as [t|]; [|done]. cbn [mbind option_bind].
  destruct (own_partition_id refs); [|done]. cbn [mbind option_bind].
  destruct (Registry.resolve t dn) as [o|]; [|done]. cbn [mbind option_bind].
  destruct (bool_decide _); [done|]. destruct (ldap_url o); [|done]. by intros [= <-].
Qed.

Lemma password_error_code (e : Error) : code (password_error_result e) <> Success.
Proof. by destruct e. Qed.

Lemma store_error_code (e : StoreError json_error) dn : code (store_error_result e refs dn) <> Success.
Proof. unfold store_error_result. by destruct e, (referral_for refs dn). Qed.

(** The steps of the handlers, for an invariant that every refusal keeps. *)
Section steps.
  Context (F : forest) (I : LdapResult -> kvstore -> Prop).
  Context (HI : forall r m', code r <> Success -> holds st spec F m' -> I r m').

Lemma wp_parse_dn s dn Q m : Dn.parse s = Ok dn -> Q dn m -> wp I (lift (parse_dn s)) Q m.
Proof. intros Hs HQ. apply wp_lift. unfold parse_dn. by rewrite Hs. Qed.

Lemma wp_refer dn (Q : unit -> kvstore -> Prop) m :
  holds st spec F m -> (proactive_referral refs dn = None -> Q tt m) -> wp I (lift (refer refs dn)) Q m.
Proof.
  intros HF HQ. apply wp_lift. destruct (refer refs dn) as [[]|e] eqn:E.
  - apply HQ. unfold refer in E. by destruct (proactive_referral refs dn).
  - apply HI; [|done]. by rewrite (refer_code _ _ E).
Qed.

(** How every handler starts. *)
Lemma wp_start {A} s dn (k : Dn -> prog (result LdapResult A)) Q m :
  Dn.parse s = Ok dn -> holds st spec F m -> (proactive_referral refs dn = None -> wp I (k dn) Q m) ->
  wp I (d <-? lift (parse_dn s) ;; _ <-? lift (refer refs d) ;; k d) Q m.
Proof.
  intros Hs HF Hk. eapply wp_try; [by apply (wp_parse_dn s dn (fun d m1 => d = dn /\ m1 = m))|]. intros ? ? [-> ->].
  eapply wp_try; [by apply (wp_refer dn (fun _ m1 => proactive_referral refs dn = None /\ m1 = m))|].
  intros _ ? [Href ->]. by apply Hk.
Qed.

Lemma wp_validated e (Q : unit -> kvstore -> Prop) m :
  holds st spec F m -> (complete e -> Q tt m) -> wp I (lift (validated e)) Q m.
Proof.
  intros HF HQ. apply wp_lift. unfold validated. destruct (Schema.validate e) as [[]|se] eqn:E; cbn [map_err].
  - by apply HQ, validate_complete.
  - by apply HI.
Qed.

(** A store operation that cannot have changed the forest when it fails. *)
Lemma wp_on_store {A} dn (p : prog (result (StoreError json_error) A)) (Q : A -> kvstore -> Prop) m :
  wp (fun _ m' => holds st spec F m') p Q m -> wp I (on_store refs dn p) Q m.
Proof.
  intros Hp. apply wp_map_err. intros r m' Hr%Hp. destruct r; [done|]. apply HI; [apply store_error_code|done].
Qed.

Lemma wp_read_entry dn (Q : Entry -> kvstore -> Prop) m :
  holds st spec F m -> (forall dn' e, find_entry st F dn = Some (dn', e) -> Q e m) ->
  wp I (read_entry st refs dn) Q m.
Proof.
  intros HF HQ. eapply (wp_try _ _ _ (fun o m1 => o = snd <$> find_entry st F dn /\ m1 = m)).
  - apply wp_on_store. intros r m' Hr. apply (get_entry_runs st Hst spec F) in Hr as [-> Hr]; [|done].
    destruct r as [o|er]; [|done]. split; [|done]. destruct Hr as [[= ->]|[? ?]]; done.
  - intros o ? [-> ->]. apply wp_lift. destruct (find_entry st F dn) as [[dn' e]|] eqn:E; cbn; [by eapply HQ|by apply HI].
Qed.

End steps.

(** The write a handler ends with. *)
Lemma wp_write F (F' : forest) (new : forest -> Prop) dn (p : prog (result (StoreError json_error) unit)) m :
  new F' -> (forall r m', runs p m r m' -> outcome st spec F F' r m') ->
  wp (write_answer F new) (on_store refs dn p) (fun _ => write_answer F new success) m.
Proof.
  intros Hn Ho. apply wp_map_err. intros r m' Hr%Ho. destruct r; cbn [outcome] in Hr.
  - split; [eauto|done].
  - split; [intros Hc; by apply store_error_code in Hc|]. intros _. destruct Hr; eauto.
Qed.

(** C3: Adding is atomic, truthful and never stores a clear-text password.
    Whatever the store answers, a success means the DN is served here and the
    forest now holds exactly the requested attributes under it: each password
    value as a hash that accepts it, the mandatory attributes of every declared
    class present, and, for a principal of a domain with a SID, the SID and
    descriptor of the RID taken from the pool; a failure means that nothing or
    that whole entry was stored. *)
Theorem ldap_add_correct fuel fips req attributes F m dn n r m' :
  Dn.parse req = Ok dn -> dn_ok dn -> attributes_ok attributes ->
  holds st spec F m -> spelled st F dn -> pool_of st dn m = Some n ->
  runs (handle_add fuel st fips req attributes spec refs) m (Some r) m' ->
  write_answer F (fun F' => proactive_referral refs dn = None /\
    exists e, added dn n attributes e /\ F' = set_entry st F dn e) r m'.
Proof.
  intros Hdn Hok Hattrs HF Hsp Hn. unfold handle_add. rewrite runs_bind. intros (x & m1 & Hr & [Hx ->]).
  set (new := fun F' => _). revert x m1 Hr Hx.
  match goal with |- forall x m1, runs ?p m x m1 -> _ =>
    assert (wp (write_answer F new) p (fun a m' => forall r, a = Some r -> write_answer F new r m') m) as Hwp end.
  2:{ intros x m1 Hr Hx. apply Hwp in Hr. destruct x as [a|e]; [by apply Hr|]. by injection Hx as ->. }
  apply (wp_start F _ (refused F new) req dn); [done..|]. intros Href.
  eapply (wp_try _ _ _ (fun e m1 => with_attributes Entry.new attributes e /\ entry_wf e /\ m1 = m)).
  { apply wp_map_err. intros r0 m1 [-> Hset]%set_attributes_runs. destruct r0 as [e|e].
    - destruct (Hset e eq_refl) as [? Hwf]. split; [done|]. split; [|done]. by apply Hwf; [apply entry_new_wf|].
    - by apply refused; [apply password_error_code|]. }
  intros e0 ? (Hw & Hwf & ->).
  eapply wp_try; [by apply (wp_validated F _ (refused F new) e0 (fun _ m1 => complete e0 /\ m1 = m))|]. intros _ ? [Hc ->].
  eapply (wp_try _ _ _ (fun o m1 => holds st spec F m1 /\ forall e, o = Some e -> e = principal_stamped dn n e0)).
  { apply (wp_on_store F); [apply refused|]. intros r0 m1 [HF' Hst0]%(stamp_runs F _ _ _ n); [|done..]. destruct r0; [|done].
    split; [done|]. intros e ->. by apply Hst0. }
  intros o m1 [HF1 Ho]. destruct o as [e|]; [|by apply wp_ret]. rewrite (Ho e eq_refl).
  eapply (wp_try _ _ _ (fun _ => write_answer F new success)).
  - apply (wp_write F (set_entry st F dn (principal_stamped dn n e0)));
      [split; [done|]; eexists; split; [|done]; by exists e0|].
    intros r0 m2. eapply put_entry_runs; try done. by apply principal_stamped_wf.
  - intros _ m2 Hans. apply wp_ret. by intros ? [= <-].
Qed.

(** ** Deleting *)

Lemma respond_wp I p m r m' : wp I p I m -> runs (respond p) m r m' -> I r m'.
Proof.
  intros Hp. unfold respond. rewrite runs_bind. intros (x & m1 & Hx%Hp & [-> ->]). by destruct x.
Qed.

(** Deleting is atomic and truthful: success means exactly the named entry
    is gone, with its index entries; a failure that the forest is as it was or
    that the deletion happened. *)
Theorem ldap_delete_correct req F m dn r m' :
  Dn.parse req = Ok dn -> holds st spec F m -> spelled st F dn ->
  runs (handle_delete st req spec refs) m r m' ->
  write_answer F (fun F' => proactive_referral refs dn = None /\ F' = remove_entry st F dn) r m'.
Proof.
  intros Hdn HF Hsp. unfold handle_delete. apply respond_wp. apply (wp_start F _ (refused F _) req dn); [done..|]. intros Href.
  eapply wp_try; [apply (wp_write F (remove_entry st F dn)); [done|]|by intros; apply wp_ret].
  intros r0 m1. by apply delete_entry_runs.
Qed.

(** ** Modifying *)

(** What a change makes of the values of its attribute. *)
Definition change_step (o : option (list rstring)) (op : ChangeOperation) (values : list rstring) : option (list rstring) :=
  match op with
  | ChangeAdd => Some (foldl push_missing (default [] o) values)
  | ChangeDelete =>
      match List.filter (fun v => negb (bool_decide (v ∈ values))) (default [] o) with
      | [] => None
      | kept => if bool_decide (values = []) then None else Some kept
      end
  | ChangeReplace => if bool_decide (values = []) then None else Some values
  end.

Definition change_values (c : Change) : list rstring := map utf8_lossy (ch_vals c).

(** An ordinary attribute goes through the changes that name it, in order; a
    password attribute only ever gains hashes of the values given. *)
Definition modified (e : Entry) (changes : list Change) (e' : Entry) : Prop :=
  (forall a, is_password a = false ->
    Entry.get e' a =
      foldl (fun o c => if eq_ignore_ascii_case (ch_type c) a then change_step o (operation c) (change_values c) else o)
        (Entry.get e a) changes) /\
  (forall a h, is_password a = true -> h ∈ default [] (Entry.get e' a) ->
    h ∈ default [] (Entry.get e a) \/
    exists c v, c ∈ changes /\ operation c <> ChangeDelete /\ v ∈ change_values c /\ hashed v h).

Definition changes_ok (changes : list Change) : Prop :=
  Forall (fun c => str_ok (ch_type c) /\ Forall bytes_ok (ch_vals c)) changes.

Lemma modified_cons e c e1 changes e' :
  modified e [c] e1 -> modified e1 changes e' -> modified e (c :: changes) e'.
Proof.
  intros [Ho Hp] [Ho' Hp']. split.
  - intros a Ha. rewrite (Ho' a Ha), (Ho a Ha). done.
  - intros a h Ha Hh. destruct (Hp' a h Ha Hh) as [Hin|(c' & v & ? & ?)]; [|right; exists c', v; set_solver].
    destruct (Hp a h Ha Hin) as [?|(c' & v & Hc & ?)]; [by left|]. right. exists c', v. set_solver.
Qed.

Lemma delete_step e a values :
  entry_wf e -> forall b, Entry.get (Entry.delete_values e a values) b =
    if eq_ignore_ascii_case a b then change_step (Entry.get e b) ChangeDelete values else Entry.get e b.
Proof.
  intros He b. rewrite get_delete_values by done. destruct (eq_ignore_ascii_case a b) eqn:E; [|done].
  assert (Entry.get e a = Entry.get e b) as ->.
  { unfold Entry.get, eq_ignore_ascii_case in *. apply bool_decide_eq_true in E. by rewrite E. }
  unfold change_step. destruct (Entry.get e b) as [have|]; cbn [default from_option List.filter id].
  - case_bool_decide; by destruct (List.filter _ have).
  - by case_bool_decide.
Qed.

(** The hashes stored for the values of a change. *)
Lemma stored_hashed a values vs h :
  is_password a = true -> stored_as a values vs -> h ∈ vs -> exists v, v ∈ values /\ hashed v h.
Proof.
  unfold stored_as. intros -> Hf Hh. apply list_elem_of_lookup in Hh as [i Hi].
  eapply Forall2_lookup_r in Hf as (v & Hv & Hvh); [|exact Hi]. exists v. split; [|done].
  apply list_elem_of_lookup. eauto.
Qed.

Lemma modified_add e c vs :
  operation c = ChangeAdd -> stored_as (ch_type c) (change_values c) vs ->
  modified e [c] (Entry.add_values e (ch_type c) vs).
Proof.
  intros Ho Hs. split; intros a; [intros Ha|intros h Ha]; cbn [foldl]; rewrite get_add_values;
    destruct (eq_ignore_ascii_case (ch_type c) a) eqn:E; try auto.
  - unfold stored_as in Hs. rewrite (is_password_same _ _ E), Ha in Hs. subst vs. rewrite Ho. cbn [change_step].
    unfold Entry.get, eq_ignore_ascii_case in *. apply bool_decide_eq_true in E. by rewrite E.
  - cbn [default from_option id]. rewrite foldl_push_elem.
    assert (Entry.get e (ch_type c) = Entry.get e a) as ->.
    { unfold Entry.get, eq_ignore_ascii_case in *. apply bool_decide_eq_true in E. by rewrite E. }
    intros [?|Hh]; [by left|]. right. exists c.
    rewrite <- (is_password_same _ _ E) in Ha. destruct (stored_hashed _ _ _ _ Ha Hs Hh) as (v & ? & ?).
    exists v. rewrite Ho. set_solver.
Qed.

Lemma modified_replace e c vs :
  operation c = ChangeReplace -> change_values c <> [] -> stored_as (ch_type c) (change_values c) vs ->
  modified e [c] (Entry.set e (ch_type c) vs).
Proof.
  intros Ho Hne Hs. split; intros a; [intros Ha|intros h Ha]; cbn [foldl]; rewrite get_set;
    destruct (eq_ignore_ascii_case (ch_type c) a) eqn:E; try auto.
  - unfold stored_as in Hs. rewrite (is_password_same _ _ E), Ha in Hs. subst vs. rewrite Ho. cbn [change_step].
    by rewrite bool_decide_false.
  - cbn [default from_option id]. intros Hh. right. exists c.
    rewrite <- (is_password_same _ _ E) in Ha. destruct (stored_hashed _ _ _ _ Ha Hs Hh) as (v & ? & ?).
    exists v. rewrite Ho. set_solver.
Qed.

Lemma modified_delete e c values :
  entry_wf e ->
  (forall o, change_step o (operation c) (change_values c) = change_step o ChangeDelete values) ->
  modified e [c] (Entry.delete_values e (ch_type c) values).
Proof.
  intros He Hs. split; intros a; [intros _|intros h _]; cbn [foldl]; rewrite delete_step by done;
    destruct (eq_ignore_ascii_case (ch_type c) a) eqn:E; try auto; unfold change_step.
  intros Hh. left. revert Hh. destruct (List.filter _ _) as [|k ks] eqn:Ef; [by intros ?%elem_of_nil|].
  case_bool_decide; [by intros ?%elem_of_nil|]. cbn [default from_option id]. rewrite <- Ef.
  by intros [? _]%list_elem_of_In%filter_In%(fun h => h); apply list_elem_of_In.
Qed.

Lemma apply_change_runs fips e c m r m' :
  entry_wf e -> str_ok (ch_type c) -> Forall bytes_ok (ch_vals c) ->
  runs (apply_change fips e c) m r m' ->
  m' = m /\ forall e', r = Ok e' -> entry_wf e' /\ modified e [c] e'.
Proof.
  intros He Ht Hv. unfold apply_change. destruct (operation c) eqn:Ho.
  - rewrite runs_try. intros [(er & [-> _]%stored_values_runs & ->)|(vs & m1 & [-> Hvs]%stored_values_runs & [-> ->])];
      (split; [done|]); [done|]. intros e' [= <-]. specialize (Hvs vs eq_refl).
    split; [apply add_values_wf; [done..|]|by apply modified_add]. eapply stored_str_ok; [exact Hvs|by apply lossy_ok].
  - intros [-> ->]. split; [done|]. intros e' [= <-]. split; [by apply delete_values_wf|].
    apply modified_delete; [done|]. intros o. by rewrite Ho.
  - case_bool_decide as Hne.
    + intros [-> ->]. split; [done|]. intros e' [= <-]. split; [by apply delete_values_wf|].
      apply modified_delete; [done|]. intros o. rewrite Ho. unfold change_step, change_values.
      rewrite (bool_decide_true _ Hne). by destruct (List.filter _ _).
    + rewrite runs_try. intros [(er & [-> _]%stored_values_runs & ->)|(vs & m1 & [-> Hvs]%stored_values_runs & [-> ->])];
        (split; [done|]); [done|]. intros e' [= <-]. specialize (Hvs vs eq_refl).
      split; [apply entry_set_wf; [done..|]|by apply modified_replace].
      eapply stored_str_ok; [exact Hvs|by apply lossy_ok].
Qed.

Lemma apply_changes_runs fips e changes m r m' :
  entry_wf e -> changes_ok changes -> runs (apply_changes fips e changes) m r m' ->
  m' = m /\ forall e', r = Ok e' -> entry_wf e' /\ modified e changes e'.
Proof.
  revert e m. induction changes as [|c changes IH]; intros e m He Hc; cbn [apply_changes].
  { intros [-> ->]. split; [done|]. intros e' [= <-]. split; [done|]. split; [done|]. intros. by left. }
  apply Forall_cons in Hc as [[Ht Hv] Hc]. rewrite runs_try.
  intros [(er & Hr & ->)|(e1 & m1 & Hr & Hrest)]; apply apply_change_runs in Hr as [-> Hr]; try done.
  destruct (Hr e1 eq_refl) as [He1 Hm1]. destruct (IH e1 m He1 Hc Hrest) as [-> Hrest']. split; [done|].
  intros e' ->. destruct (Hrest' e' eq_refl) as [? ?]. split; [done|]. by eapply modified_cons.
Qed.

(** The forests a modify request may lead to. *)
Definition modify_outcome (F : forest) (dn : Dn) (changes : list Change) (F' : forest) : Prop :=
  proactive_referral refs dn = None /\
  exists dn' e e', find_entry st F dn = Some (dn', e) /\ modified e changes e' /\ complete e' /\ F' = set_entry st F dn e'.


(** ** Comparing *)

Lemma compare_matches_spec e ava :
  compare_matches e ava = true <->
  exists v, v ∈ default [] (Entry.get e (attribute_desc ava)) /\
    to_ascii_lowercase v = to_ascii_lowercase (utf8_lossy (assertion_value ava)).
Proof.
  unfold compare_matches. destruct (Entry.get e (attribute_desc ava)) as [vals|]; cbn [default from_option id].
  - rewrite existsb_exists. setoid_rewrite <- list_elem_of_In. unfold eq_ignore_ascii_case.
    by setoid_rewrite bool_decide_eq_true.
  - split; [done|]. by intros (v & ?%elem_of_nil & _).
Qed.

Lemma session_entry_runs F m dn r m' :
  holds st spec F m -> runs (read_entry st refs dn) m r m' ->
  m' = m /\ match r with
            | Ok e => exists dn', find_entry st F dn = Some (dn', e)
            | Err er => (er = no_such_object /\ find_entry st F dn = None) \/ exists se, er = store_error_result se refs dn
            end.
Proof.
  intros HF. unfold read_entry. rewrite runs_try. unfold on_store. setoid_rewrite runs_map_err.
  intros [(er & (r0 & Hg & He) & ->)|(o & m1 & (r0 & Hg & He) & Hr)];
    apply (get_entry_runs st Hst spec F) in Hg as [-> Hg]; try done; (destruct r0 as [o'|e0]; [|try done]); try done.
  - injection He as ->. split; [done|]. right. eauto.
  - injection He as ->. destruct Hr as [-> ->]. split; [done|]. destruct Hg as [[= ->]|[? ?]]; [|done].
    destruct (find_entry st F dn) as [[dn' e]|]; cbn; [eauto|by left].
Qed.

(** The truth of a compare answer. *)
Definition compare_answer (F : forest) (dn : Dn) (ava : AttributeValueAssertion) (r : LdapResult) : Prop :=
  let has := fun e => exists v, v ∈ default [] (Entry.get e (attribute_desc ava)) /\
    to_ascii_lowercase v = to_ascii_lowercase (utf8_lossy (assertion_value ava)) in
  match code r with
  | CompareTrue => exists dn' e, find_entry st F dn = Some (dn', e) /\ has e
  | CompareFalse => exists dn' e, find_entry st F dn = Some (dn', e) /\ ~ has e
  | NoSuchObject => find_entry st F dn = None
  | ReferralCode | OperationsError => True
  | _ => False
  end.

(** A compare answer is the truth about the stored entry, up to ASCII case,
    and reading changes nothing. *)
Theorem ldap_compare_correct req ava F m dn r m' :
  Dn.parse req = Ok dn -> holds st spec F m -> runs (handle_compare st req ava refs) m r m' ->
  m' = m /\ compare_answer F dn ava r.
Proof.
  intros Hdn HF. unfold handle_compare. apply (respond_wp (fun r m' => m' = m /\ compare_answer F dn ava r)).
  eapply (wp_try _ _ _ (fun d m1 => d = dn /\ m1 = m)); [apply wp_lift; unfold parse_dn; by rewrite Hdn|].
  intros ? ? [-> ->].
  eapply (wp_try _ _ _ (fun _ m1 => m1 = m)).
  { apply wp_lift. destruct (refer refs dn) eqn:E; [done|]. split; [done|]. unfold compare_answer. by rewrite (refer_code _ _ E). }
  intros _ ? ->.
  eapply (wp_try _ _ _ (fun e m1 => m1 = m /\ exists dn', find_entry st F dn = Some (dn', e))).
  { intros r0 m1 Hr. apply (session_entry_runs F) in Hr as [-> Hr]; [|done]. destruct r0 as [e|er]; [done|]. split; [done|].
    unfold compare_answer. destruct Hr as [[-> Hn]|[e ->]]; [done|]. unfold store_error_result.
    by destruct e, (referral_for refs dn). }
  intros e ? [-> [dn' He]]. apply wp_ret. split; [done|]. pose proof (compare_matches_spec e ava) as Hs.
  unfold compare_answer. destruct (compare_matches e ava); cbn [code result_new]; exists dn', e; (split; [done|]).
  - by apply Hs.
  - intros Hx. by apply Hs in Hx.
Qed.

(** ** Searching *)

Definition result_entry (req : SearchRequest) (de : Dn * Entry) : SearchResultEntry :=
  mkResultEntry (Dn.to_string de.1) (project_attributes de.2 (sr_attributes req) (types_only req)).

Definition matching (req : SearchRequest) (cs : list (Dn * Entry)) : list (Dn * Entry) :=
  List.filter (fun de => Filter.matches de.2 (sr_filter req)) cs.

(** The loop returns the first matches up to the limit, and says when there
    are more. *)
Lemma search_loop_spec req limit sent cs :
  sent <= limit ->
  let found := matching req cs in
  search_loop req limit sent cs =
    (List.map (result_entry req) (ztake (limit - sent) found),
     if zlen found <=? limit - sent then success else result_new SizeLimitExceeded (Text [])).
Proof.
  revert sent. induction cs as [|[dn e] cs IH]; intros sent Hs; cbn [search_loop matching List.filter snd].
  { unfold ztake. rewrite take_nil. change (zlen []) with 0. by rewrite (proj2 (Z.leb_le 0 _)) by lia. }
  destruct (Filter.matches e (sr_filter req)); cbn [negb]; [|by apply IH].
  change (List.filter _ cs) with (matching req cs).
  destruct (Z.eqb_spec sent limit) as [->|Hne].
  - rewrite Z.sub_diag. unfold zlen. cbn [length]. by rewrite (proj2 (Z.leb_gt _ 0)) by lia.
  - rewrite IH by lia. unfold ztake, zlen. cbn [length].
    replace (Z.to_nat (limit - sent)) with (S (Z.to_nat (limit - (sent + 1)))) by lia. cbn [take List.map]. f_equal.
    destruct (Z.leb_spec (Z.of_nat (length (matching req cs))) (limit - (sent + 1)));
      destruct (Z.leb_spec (Z.of_nat (S (length (matching req cs)))) (limit - sent)); try lia; done.
Qed.

(** Which attributes of an entry a search returns, and their values. *)
Lemma project_attributes_spec e requested types name vals :
  entry_wf e ->
  (name, vals) ∈ project_attributes e requested types <->
  selected requested name = true /\ exists vs, Entry.get e name = Some vs /\ name ∈ attr_names e /\
    vals = if types then [] else List.map (wire_value name) vs.
Proof.
  intros He. unfold project_attributes. rewrite list_elem_of_In, in_map_iff. setoid_rewrite filter_In. split.
  - intros (n & [= <- <-] & Hin & Hsel). split; [done|]. apply list_elem_of_In in Hin.
    destruct (attr_name_get e n He Hin) as [vs Hvs]. exists vs. rewrite Hvs. split; [done|]. split; [done|]. by destruct types.
  - intros (Hsel & vs & Hvs & Hin & ->). exists name. rewrite Hvs. split; [by destruct types|].
    split; [by apply list_elem_of_In|done].
Qed.

Lemma depth_equiv (d e : Dn) : d ≡ e -> depth d = depth e.
Proof. unfold depth, equiv, dn_equiv. apply length_proper. Qed.

(** The entries a search looks at. *)
Definition in_scope (F : forest) (base : Dn) (sc : SearchRequestScope) (dn : Dn) (e : Entry) : Prop :=
  match sc with
  | BaseObject => dn = base /\ exists dn', find_entry st F base = Some (dn', e)
  | SingleLevel => under st F base dn e /\ depth dn = (depth base + 1)%nat
  | WholeSubtree => under st F base dn e
  | OtherScope => False
  end.

Definition scope_answer (F : forest) (base : Dn) (sc : SearchRequestScope) (cs : list (Dn * Entry)) : Prop :=
  (forall dn e, in_scope F base sc dn e -> exists dn', (dn', e) ∈ cs /\ dn' ≡ dn) /\
  (forall dn' e, (dn', e) ∈ cs -> exists dn, in_scope F base sc dn e /\ dn' ≡ dn).

(** A result that carries no entries. *)
Definition no_entries (r : LdapResult) : Prop := code r <> Success /\ code r <> SizeLimitExceeded.

Lemma store_error_no_entries (e : StoreError json_error) dn : no_entries (store_error_result e refs dn).
Proof. unfold no_entries, store_error_result. by destruct e, (referral_for refs dn). Qed.

(** A base whose subtree the key layout represents. *)
Definition scannable (F : forest) (base : Dn) : Prop := plain_forest F /\ key_safe base /\ rdns base <> [].

Lemma scan_wp F base m (Q : list (Dn * Entry) -> kvstore -> Prop) :
  holds st spec F m -> scannable F base -> (forall l, scan_answer st F base l -> Q l m) ->
  wp (fun er m' => m' = m /\ no_entries er) (on_store refs base (Store.scan_subtree st base)) Q m.
Proof.
  intros HF (Hpl & Hb & Hne) HQ. apply wp_map_err. intros r m' Hr.
  apply (scan_runs st Hst spec F) in Hr as [-> Hr]; [|done..].
  destruct r as [l|er]; [destruct Hr as [[? ?]|(l' & [= ->] & Hl)]; [done|by apply HQ]|].
  split; [done|apply store_error_no_entries].
Qed.

Lemma search_candidates_wp F base sc m :
  holds st spec F m -> scannable F base ->
  wp (fun er m' => m' = m /\ no_entries er) (search_candidates st refs base sc)
    (fun cs m' => m' = m /\ scope_answer F base sc cs) m.
Proof.
  intros HF Hs. unfold search_candidates. destruct sc.
  - eapply (wp_try _ _ _ (fun e m1 => m1 = m /\ exists dn', find_entry st F base = Some (dn', e))).
    { intros r m1 Hr. apply (session_entry_runs F) in Hr as [-> Hr]; [|done]. destruct r as [e|er]; [done|].
      split; [done|]. destruct Hr as [[-> _]|[se ->]]; [done|apply store_error_no_entries]. }
    intros e ? [-> [dn' He]]. apply wp_ret. split; [done|]. split.
    + intros dn e' [-> [dn'' He']]. exists base. rewrite He in He'. injection He' as -> ->. set_solver.
    + intros dn e' [= -> ->]%list_elem_of_singleton. exists base. split; [|done]. cbn. eauto.
  - eapply (wp_try _ _ _ (fun l m1 => m1 = m /\ scan_answer st F base l)); [by apply (scan_wp F)|].
    intros l ? [-> [Hl1 Hl2]]. apply wp_ret. split; [done|]. split.
    + intros dn e [Hu Hd]. destruct (Hl1 dn e Hu) as (dn' & Hin & Heq). exists dn'. split; [|done].
      apply list_elem_of_In, filter_In. split; [by apply list_elem_of_In|]. apply bool_decide_eq_true.
      cbn [fst]. by rewrite (depth_equiv _ _ Heq).
    + intros dn' e [Hin Hd%bool_decide_eq_true]%list_elem_of_In%filter_In. apply list_elem_of_In in Hin.
      destruct (Hl2 dn' e Hin) as (dn & Hu & Heq). exists dn. split; [|done]. split; [done|].
      cbn [fst] in Hd. by rewrite <- (depth_equiv _ _ Heq).
  - by apply (scan_wp F).
  - by apply wp_err.
Qed.

(** The truth of a search response. *)
Definition search_answer (F : forest) (base : Dn) (req : SearchRequest) (res : SearchResponse) : Prop :=
  let hit := fun dn e => in_scope F base (scope req) dn e /\ Filter.matches e (sr_filter req) = true in
  (forall re, re ∈ res.1 -> exists dn dn' e, hit dn e /\ dn' ≡ dn /\ re = result_entry req (dn', e)) /\
  match code res.2 with
  | Success => forall dn e, hit dn e -> exists dn', dn' ≡ dn /\ result_entry req (dn', e) ∈ res.1
  | SizeLimitExceeded => zlen res.1 = search_limit req
  | _ => res.1 = []
  end.

Lemma search_loop_answer F base req cs :
  0 <= size_limit req -> scope_answer F base (scope req) cs ->
  search_answer F base req (search_loop req (search_limit req) 0 cs).
Proof.
  intros Hl [H1' H2']. rewrite search_loop_spec by (unfold search_limit, usize_max; destruct (_ =? 0); lia).
  rewrite Z.sub_0_r. assert (forall de, de ∈ matching req cs <-> de ∈ cs /\ Filter.matches de.2 (sr_filter req) = true) as Hm.
  { intros de. unfold matching. by rewrite !list_elem_of_In, filter_In. }
  assert (0 <= search_limit req) as Hlim by (unfold search_limit, usize_max; destruct (_ =? 0); lia).
  split; cbn [fst snd].
  - intros re (de & <- & Hin)%list_elem_of_In%in_map_iff. apply list_elem_of_In in Hin. unfold ztake in Hin.
    apply elem_of_take in Hin as (i & Hi & _). apply list_elem_of_lookup_2, Hm in Hi as [Hin Hf].
    destruct de as [dn' e]. destruct (H2' dn' e Hin) as (dn & Hs & Heq). by exists dn, dn', e.
  - destruct (Z.leb_spec (zlen (matching req cs)) (search_limit req)) as [Hle|Hgt]; cbn [code success result_new].
    + intros dn e [Hs Hf]. destruct (H1' dn e Hs) as (dn' & Hin & Heq). exists dn'. split; [done|].
      apply list_elem_of_In, in_map, list_elem_of_In. unfold ztake. rewrite take_ge by (unfold zlen in Hle; lia).
      by apply Hm.
    + unfold zlen, ztake in *. rewrite length_map, length_take. lia.
Qed.


(** ** Renaming *)

(** Attribute types and values of an RDN as the decoder gives them. *)
Definition rdn_chars (r : Rdn) : Prop := Forall (fun a => str_ok (attr a) /\ str_ok (value a)) (avas r).

Lemma rename_values_wf old_rdn new_rdn b e :
  rdn_chars old_rdn -> rdn_chars new_rdn -> entry_wf e -> entry_wf (rename_values old_rdn new_rdn b e).
Proof.
  intros Ho Hn He. unfold rename_values.
  assert (forall l e, Forall (fun a => str_ok (attr a) /\ str_ok (value a)) l -> entry_wf e ->
    entry_wf (foldl (fun e a => Entry.add_values e (attr a) [value a]) e l)) as Hadd.
  { clear. intros l e Hl. revert e. induction Hl as [|a l [Ha Hv] _ IH]; intros e He; cbn [foldl]; [done|].
    apply IH. apply add_values_wf; [done..|]. by apply Forall_singleton. }
  destruct b; [|by apply Hadd]. specialize (Hadd _ _ Hn He). revert Hadd. generalize (foldl
    (fun e a => Entry.add_values e (attr a) [value a]) e (avas new_rdn)). clear -Ho.
  induction Ho as [|a l [Ha Hv] _ IH]; intros e He; cbn [foldl]; [done|]. apply IH.
  destruct (still_wanted new_rdn a); [done|]. by apply delete_values_wf.
Qed.

Lemma spelled_after_set F old new e :
  key_safe old -> key_safe new -> dn_eq old new = false -> spelled st F old -> spelled st (set_entry st F new e) old.
Proof.
  intros Ho Hn Hne Hs dn' e'. unfold set_entry, alter_dir, find_entry.
  destruct (Registry.resolve (registry st) old) as [p|] eqn:Hp; [|done]. cbn [mbind option_bind].
  assert ((F !!! p_id p) !! entry_key (p_id p) old = Some (dn', e') -> dn' = old) as Hold.
  { intros Hx. apply (Hs dn' e'). unfold find_entry. by rewrite Hp. }
  destruct (Registry.resolve (registry st) new) as [q|] eqn:Hq; [|done].
  destruct (decide (p_id q = p_id p)) as [E|Hpq]; [|by rewrite lookup_total_insert_ne].
  rewrite E, lookup_total_insert_eq. rewrite lookup_insert_ne; [done|].
  intros Hk%entry_key_equiv; [|done..]. symmetry in Hk. apply dn_eq_spec in Hk. congruence.
Qed.

(** The stages of a rename: the entry under its new name too, and then under
    that name only. *)
Definition rename_stage1 (F : forest) (new : Dn) (e' : Entry) : forest := set_entry st F new e'.
Definition rename_stage2 (F : forest) (old new : Dn) (e' : Entry) : forest :=
  if dn_eq old new then rename_stage1 F new e' else remove_entry st (rename_stage1 F new e') old.

(** No entry is below [dn]. *)
Definition is_leaf (F : forest) (dn : Dn) : Prop := forall dn' e, under st F dn dn' e -> dn' ≡ dn.

(** A rename that reports success moved a leaf, with its values changed for the
    new RDN; one that does not may have stopped after either stage, but never
    lost the entry. *)
Definition rename_answer (F : forest) (old new : Dn) (change : Entry -> Entry) (r : LdapResult) (m' : kvstore) : Prop :=
  (code r = Success -> exists dn0 e, find_entry st F old = Some (dn0, e) /\ is_leaf F old /\
    holds st spec (rename_stage2 F old new (change e)) m') /\
  (code r <> Success -> holds st spec F m' \/ exists dn0 e, find_entry st F old = Some (dn0, e) /\ is_leaf F old /\
    (holds st spec (rename_stage1 F new (change e)) m' \/ holds st spec (rename_stage2 F old new (change e)) m')).

Lemma leaf_of_scan F m old l e :
  holds st spec F m -> plain_forest F -> key_safe old -> find_entry st F old = Some (old, e) ->
  scan_answer st F old l -> (length l <= 1)%nat -> is_leaf F old.
Proof.
  intros HF Hpl Hk He [Hl _] Hlen dn' e' Hu.
  assert (under st F old old e) as Hu0.
  { unfold find_entry in He. destruct (Registry.resolve (registry st) old) as [p|] eqn:Hp; [|done].
    exists p, (entry_key (p_id p) old). by rewrite is_within_refl. }
  destruct (Hl _ _ Hu) as (d1 & Hin1 & Hd1). destruct (Hl _ _ Hu0) as (d2 & Hin2 & Hd2).
  destruct l as [|x [|]]; [by apply elem_of_nil in Hin1| |cbn in Hlen; lia].
  apply list_elem_of_singleton in Hin1 as <-. apply list_elem_of_singleton in Hin2. injection Hin2 as -> ->.
  by rewrite <- Hd1, Hd2.
Qed.

(** The DNs and RDNs a rename request names. *)
Record rename_request (req : ModifyDnRequest) (old new : Dn) (old_rdn rdn : Rdn) : Prop := {
  rr_old : Dn.parse (md_entry req) = Ok old;
  rr_old_rdn : head (rdns old) = Some old_rdn;
  rr_rdn : Dn.parse (new_rdn req) = Ok (mkDn [rdn]);
  rr_new : renamed_dn req old = Ok new;
}.

Lemma rename_write F m old new e r m' :
  holds st spec F m -> dn_ok new -> key_safe old -> key_safe new -> entry_wf e ->
  spelled st F old -> spelled st F new ->
  runs (_ <-? on_store refs new (Store.put_entry st new e spec) ;;
        _ <-? (if dn_eq old new then Ret (Ok tt)
               else prog_map_err (fun er => operations_error (OldDnRemains er)) (Store.delete_entry st old spec)) ;;
        Ret (Ok success)) m r m' ->
  match r with
  | Ok a => a = success /\ holds st spec (rename_stage2 F old new e) m'
  | Err er => code er <> Success /\
      (holds st spec F m' \/ holds st spec (rename_stage1 F new e) m' \/ holds st spec (rename_stage2 F old new e) m')
  end.
Proof.
  intros HF Hok Hko Hkn He Hso Hsn. unfold rename_stage2, rename_stage1.
  rewrite runs_try. unfold on_store. setoid_rewrite runs_map_err.
  intros [(er & (r0 & Hr0 & Her) & ->)|(x & m1 & (r0 & Hr0 & Hx) & Hr)];
    apply (put_entry_runs st Hst spec F) in Hr0; try done; (destruct r0 as [|e0]; try done); cbn [outcome] in Hr0.
  { injection Her as ->. split; [apply store_error_code|]. tauto. }
  destruct (dn_eq old new) eqn:Hne.
  { cbn [try_bind prog_bind_ runs] in Hr. destruct Hr as [-> ->]. by split. }
  rewrite runs_try in Hr. setoid_rewrite runs_map_err in Hr.
  pose proof (spelled_after_set F old new e Hko Hkn Hne Hso) as Hso'.
  destruct Hr as [(er & (r0 & Hd & Her) & ->)|(y & m2 & (r0 & Hd & Hy) & [-> ->])];
    apply (delete_entry_runs st Hst spec (set_entry st F new e)) in Hd; try done; (destruct r0 as [|e0]; try done);
    cbn [outcome] in Hd.
  injection Her as ->. split; [done|]. tauto.
Qed.


(** ** Password resets *)

(** The forests a password reset may lead to: the keys of the target are those
    of the new password, under a fresh salt. *)
Definition reset_outcome (F : forest) (dn : Dn) (realm : rstring) (password : bytes) (F' : forest) : Prop :=
  exists dn' e fqn salt e', find_entry st F dn = Some (dn', e) /\ principal_fqn_for e realm = Some fqn /\
    zlen salt = MIN_SALT_LEN /\ bytes_ok salt /\ set_password (Some salt) e fqn password = Ok e' /\
    F' = set_entry st F dn e'.

Lemma first_value_ok e a v : entry_wf e -> first_value e a = Some v -> str_ok v.
Proof.
  intros He. unfold first_value, Entry.get. destruct (bt_get _ (attrs e)) as [vs|] eqn:Hg; [|done].
  apply entry_values_ok in Hg; [|done]. destruct vs as [|x vs]; [done|]. cbn. intros [= <-]. by inversion Hg.
Qed.

Lemma principal_fqn_ok e realm fqn :
  entry_wf e -> str_ok realm -> principal_fqn_for e realm = Some fqn -> str_ok fqn.
Proof.
  intros He Hr. unfold principal_fqn_for, principal_name.
  change (Entry.get e ATTR_PRINCIPAL_NAME ≫= head) with (first_value e ATTR_PRINCIPAL_NAME).
  destruct (first_value e ATTR_PRINCIPAL_NAME) as [n|] eqn:Hn; cbn [ok_or].
  { intros [= <-]. by eapply first_value_ok. }
  assert (forall n, str_ok n -> str_ok (n ++ str "@" ++ realm)) as Happ.
  { intros n Hn'. apply str_ok_app. split; [done|]. apply str_ok_app. split; [apply str_ok_str|done]. }
  destruct (first_value e (str "samaccountname")) as [n|] eqn:Hs; cbn [mbind option_bind].
  { intros [= <-]. apply Happ. by eapply first_value_ok. }
  destruct (first_value e (str "cn")) as [n|] eqn:Hc; cbn [mbind option_bind]; [|done].
  intros [= <-]. apply Happ. by eapply first_value_ok.
Qed.

(** A password reset replaces the keys of exactly the named entry by those
    derived from the new password under a fresh salt, or changes nothing. *)
Theorem ldap_password_reset decode_value fips value bound F m req password identity dn realm r m' :
  decode_value value = Some req -> new_passwd req = Some password ->
  match user_identity req with Some v => Some (utf8_lossy v) | None => bound end = Some identity ->
  resolve_password_target identity = Ok dn -> first_realm (registry st) = Some realm ->
  dn_ok dn -> str_ok realm -> holds st spec F m -> spelled st F dn ->
  runs (handle_password_modify decode_value st fips (Some value) bound spec) m r m' ->
  match r with
  | Ok _ => exists F', reset_outcome F dn realm password F' /\ holds st spec F' m'
  | Err _ => holds st spec F m' \/ exists F', reset_outcome F dn realm password F' /\ holds st spec F' m'
  end.
Proof.
  intros Hv Hp Hid Hdn Hrealm Hok Hrok HF Hsp. unfold handle_password_modify.
  set (I := fun (_ : PasswordModifyError) m' => holds st spec F m' \/ exists F', reset_outcome F dn realm password F' /\ holds st spec F' m').
  set (Q := fun (_ : unit) m' => exists F', reset_outcome F dn realm password F' /\ holds st spec F' m').
  intros Hr. apply (fun W : wp I _ Q m => W r m' Hr). clear Hr r m'.
  destruct fips; [|by apply (wp_err I); left].
  apply (wp_try_ok I _ tt); [done|]. apply (wp_try_ok I _ value); [done|].
  apply (wp_try_ok I _ req); [by rewrite Hv|]. apply (wp_try_ok I _ password); [by rewrite Hp|].
  apply (wp_try_ok I _ identity); [by rewrite Hid|]. apply (wp_try_ok I _ dn); [done|].
  apply (wp_try_ok I _ realm); [by rewrite Hrealm|].
  eapply (wp_try _ _ _ (fun o m1 => o = snd <$> find_entry st F dn /\ m1 = m)).
  { apply wp_map_err. intros r m1 Hr. apply (get_entry_runs st Hst spec F) in Hr as [-> Hr]; [|done].
    destruct r as [o|er]; [|by left]. split; [|done]. destruct Hr as [[= ->]|[? ?]]; done. }
  intros ? ? [-> ->]. destruct (find_entry st F dn) as [[dn' e]|] eqn:He; [|by apply (wp_err I); left].
  pose proof (find_entry_wf _ Hst _ _ _ _ _ _ HF He) as [_ Hwf].
  apply (wp_try_ok I _ e); [done|].
  destruct (principal_fqn_for e realm) as [fqn|] eqn:Hfqn; [|by apply (wp_err I); left].
  apply (wp_try_ok I _ fqn); [done|].
  eapply (wp_try _ _ _ (fun e' m1 => m1 = m /\ exists salt, zlen salt = MIN_SALT_LEN /\ bytes_ok salt /\
    set_password (Some salt) e fqn password = Ok e')).
  { apply wp_map_err. intros r m1 (random & m2 & (-> & [->|(salt & -> & Hl & Hb)]) & -> & ->); [by left|]. cbn zeta in Hl.
    destruct (set_password (Some salt) e fqn password) as [e'|er] eqn:Hset; [|by left].
    split; [done|]. exists salt. split; [unfold zlen; by rewrite Hl|done]. }
  intros e' ? [-> (salt & Hl & Hb & Hset)].
  assert (entry_wf e') as Hwf' by (eapply set_password_wf; [..|exact Hset]; try done; by eapply principal_fqn_ok).
  assert (reset_outcome F dn realm password (set_entry st F dn e')) as Hout by (by exists dn', e, fqn, salt, e').
  apply wp_map_err. intros r m1 Hr. apply (put_entry_runs st Hst spec F) in Hr; [|done..].
  destruct r; cbn [outcome] in Hr; [by exists (set_entry st F dn e')|]. destruct Hr; [by left|right; eauto].
Qed.
End add.

(** ** Witnesses *)

#[local] Existing Instance bit_codec.
#[local] Existing Instance hex_base64.
#[local] Existing Instance ascii_unicode.
#[local] Existing Instance demo_ssl.
#[local] Existing Instance demo_ssl_laws.

Definition ex_refs : Referrals := mkReferrals None [] None.
Definition ex_forest : forest := set_entry ex_st ∅ alice entry_example.
Definition ex_forest_store : kvstore := (exec zeros (Store.put_entry ex_st alice entry_example ex_spec) ∅).2.
Definition alice_name : rstring := str "cn=Alice,ou=users,dc=g10,dc=lo".

Lemma ex_forest_holds : holds ex_st ex_spec ex_forest ex_forest_store.
Proof.
  apply (put_entry_exec ex_st ex_st_connected ex_spec ∅ ∅ alice entry_example (holds_empty _ _) alice_ok entry_example_wf).
  - apply spelled_empty.
  - vm_compute. reflexivity.
Qed.

Lemma ex_forest_find : find_entry ex_st ex_forest alice = Some (alice, entry_example).
Proof. vm_compute. reflexivity. Qed.

Lemma ex_forest_spelled : spelled ex_st ex_forest alice.
Proof. intros dn' e. rewrite ex_forest_find. congruence. Qed.

(** A run of the reference server. *)
Lemma exec_code {A} (f : A -> ResultCode) (p : prog A) m c :
  f (exec zeros p m).1 = c -> exists r m', f r = c /\ runs p m r m'.
Proof. intros Hc. exists (exec zeros p m).1, (exec zeros p m).2. split; [done|]. apply exec_runs, zeros_ok. Qed.

Definition ex_add : AttributeList :=
  [(str "objectClass", [str "person"]); (str "cn", [str "Alice"]); (str "sn", [str "A"]);
   (str "userPassword", [str "correct horse"])].

Lemma ldap_add_correct_witness :
  exists r m', code r = Success /\
    runs (handle_add 1 ex_st true alice_name ex_add ex_spec ex_refs) ∅ (Some r) m' /\
    exists e, added ex_st ex_refs alice 1000 ex_add e /\ holds ex_st ex_spec (set_entry ex_st ∅ alice e) m'.
Proof.
  destruct (exec_code (fun o => match o with Some r => code r | None => Other end)
    (handle_add 1 ex_st true alice_name ex_add ex_spec ex_refs) ∅ Success) as ([r|] & m' & Hc & Hr);
    [vm_compute; reflexivity| |discriminate Hc].
  exists r, m'. split; [exact Hc|]. split; [exact Hr|].
  destruct (ldap_add_correct ex_st ex_st_connected ex_spec ex_refs 1 true alice_name ex_add ∅ ∅ alice 1000 r m')
    as [Hok _]; [vm_compute; reflexivity|apply alice_ok| |apply holds_empty|apply spelled_empty|vm_compute; reflexivity|exact Hr|].
  - repeat (apply Forall_cons; split; [split; [apply str_ok_str|by_decide]|]). apply Forall_nil_2.
  - destruct (Hok Hc) as (F' & (_ & e & He & ->) & HF'). exists e. split; [exact He|exact HF'].
Defined.

Lemma ldap_delete_correct_witness :
  exists r m', code r = Success /\ holds ex_st ex_spec (remove_entry ex_st ex_forest alice) m'.
Proof.
  destruct (exec_code code (handle_delete ex_st alice_name ex_spec ex_refs) ex_forest_store Success)
    as (r & m' & Hc & Hr); [vm_compute; reflexivity|].
  exists r, m'. split; [exact Hc|].
  destruct (ldap_delete_correct ex_st ex_st_connected ex_spec ex_refs alice_name ex_forest ex_forest_store alice r m'
    ltac:(vm_compute; reflexivity) ex_forest_holds ex_forest_spelled Hr) as [Hok _].
  destruct (Hok Hc) as (F' & (_ & ->) & HF'). exact HF'.
Defined.

Definition ex_changes : list Change :=
  [mkChange ChangeReplace (str "objectClass") [str "person"]; mkChange ChangeAdd (str "sn") [str "A"];
   mkChange ChangeDelete (str "CN") [str "Al"]].


Lemma ldap_compare_correct_witness :
  exists r m', code r = CompareTrue /\ m' = ex_forest_store /\
    compare_answer ex_st ex_forest alice (mkAssertion (str "cn") (str "ALICE")) r.
Proof.
  destruct (exec_code code (handle_compare ex_st alice_name (mkAssertion (str "cn") (str "ALICE")) ex_refs)
    ex_forest_store CompareTrue) as (r & m' & Hc & Hr); [vm_compute; reflexivity|].
  exists r, m'. split; [exact Hc|].
  apply (ldap_compare_correct ex_st ex_st_connected ex_spec ex_refs alice_name (mkAssertion (str "cn") (str "ALICE"))
    ex_forest ex_forest_store alice r m' ltac:(vm_compute; reflexivity) ex_forest_holds Hr).
Defined.

Lemma ex_forest_eq : ex_forest = {[ str "g10" := ex_dir ]}.
Proof.
  unfold ex_forest, set_entry, alter_dir.
  destruct (Registry.resolve (registry ex_st) alice) as [p|] eqn:E; [|vm_compute in E; discriminate E].
  by rewrite (ex_alice_pid p E), lookup_total_empty.
Qed.

Lemma ex_forest_plain : plain_forest ex_forest.
Proof.
  intros pid k dn e. rewrite ex_forest_eq. destruct (decide (str "g10" = pid)) as [<-|Hne].
  - rewrite lookup_total_singleton_eq. unfold ex_dir. intros [<- [= <- <-]]%lookup_singleton_Some.
    split; [by apply key_safeb_sound|]. apply norm_plainb_sound; [apply alice_ok|by vm_compute].
  - rewrite lookup_total_singleton_ne by done. intros Hk. by change ((∅ : dir) !! k = Some (dn, e)) in Hk.
Qed.

Lemma ex_scannable : scannable ex_forest users.
Proof. split; [apply ex_forest_plain|]. split; [by apply key_safeb_sound|by vm_compute]. Qed.

Definition ex_search : SearchRequest :=
  mkSearch (str "ou=Users,dc=G10,dc=lo") WholeSubtree 0 false (ex_equality (str "al")) [str "*"].


Definition bob_name : rstring := str "cn=Bob,ou=users,dc=g10,dc=lo".
Definition bob : Dn := dn_of bob_name.
Definition ex_rename : ModifyDnRequest := mkModDn alice_name (str "cn=Bob") true None.

Lemma bob_ok : dn_ok bob.
Proof. constructor; [by apply dn_wfb_sound|]. change (Dn.to_string bob) with bob_name. apply str_ok_str. Qed.

Definition ex_rdn (s : rstring) : Rdn := default (mkRdn []) (head (rdns (dn_of s))).


(** A decoder of the request value, for the example. *)
Definition ex_decode (b : bytes) : option PasswdModifyRequestValue :=
  Some (mkPasswdModify (Some alice_name) None (Some b)).

Lemma ldap_password_reset_witness :
  exists m' F', reset_outcome ex_st ex_forest alice (str "G10.LO") (str "correcthorse") F' /\ holds ex_st ex_spec F' m'.
Proof.
  destruct (exec_code (fun r => if is_ok r then Success else Other)
    (handle_password_modify ex_decode ex_st true (Some (str "correcthorse")) None ex_spec) ex_forest_store Success)
    as (r & m' & Hc & Hr); [vm_compute; reflexivity|].
  pose proof (ldap_password_reset ex_st ex_st_connected ex_spec ex_decode true (str "correcthorse") None ex_forest
    ex_forest_store (mkPasswdModify (Some alice_name) None (Some (str "correcthorse"))) (str "correcthorse") alice_name alice
    (str "G10.LO") r m' eq_refl eq_refl ltac:(vm_compute; reflexivity) ltac:(vm_compute; reflexivity)
    ltac:(vm_compute; reflexivity) alice_ok (str_ok_str _) ex_forest_holds ex_forest_spelled Hr) as Hok.
  destruct r as [u|e]; [|discriminate Hc]. exists m'. exact Hok.
Defined.

(** ** Where the handlers differ from the protocol *)

(** Adding an entry whose DN is taken succeeds and replaces the entry. *)
Theorem add_overwrites :
  let r := exec zeros (handle_add 1 ex_st true alice_name ex_add ex_spec ex_refs) ex_forest_store in
  (code <$> r.1) = Some Success /\
  (exec zeros (Store.get_entry ex_st alice) r.2).1 <> Ok (Some entry_example).
Proof. split; [vm_compute; reflexivity|vm_compute; discriminate]. Qed.

(** Renaming onto a taken DN succeeds and replaces the entry there. *)
Theorem rename_overwrites :
  let m := (exec zeros (Store.put_entry ex_st bob Entry.new ex_spec) ex_forest_store).2 in
  let r := exec zeros (handle_moddn ex_st ex_rename ex_spec ex_refs) m in
  code r.1 = Success /\ (exec zeros (Store.get_entry ex_st bob) r.2).1 <> Ok (Some Entry.new).
Proof. split; [vm_compute; reflexivity|vm_compute; discriminate]. Qed.

(** The delete-then-add password change of RFC 4511 clients does not change the
    password: deleting compares the clear text with the stored hashes, and the
    new hash is appended behind the one that binds are checked against. *)
Theorem password_change_ineffective e h old new m e' m' :
  entry_wf e -> Entry.get e USER_PASSWORD_ATTR = Some [h] -> utf8_lossy old <> h ->
  runs (apply_changes true e [mkChange ChangeDelete USER_PASSWORD_ATTR [old];
    mkChange ChangeAdd USER_PASSWORD_ATTR [new]]) m (Ok e') m' ->
  first_value e' USER_PASSWORD_ATTR = Some h.
Proof.
  intros Hwf He Hne. cbn [apply_changes]. rewrite runs_try. intros [(? & [? _] & ?)|(e1 & m1 & [[= ->] ->] & Hr)]; [done|].
  rewrite runs_try in Hr. destruct Hr as [(? & _ & ?)|(e2 & m2 & Hr & [[= ->] ->])]; [done|].
  unfold apply_change in Hr. cbn [operation ch_type ch_vals] in Hr. rewrite runs_try in Hr.
  destruct Hr as [(? & _ & ?)|(vs & m3 & _ & [[= ->] ->])]; [done|].
  unfold first_value. rewrite get_add_values, delete_step by done.
  assert (eq_ignore_ascii_case USER_PASSWORD_ATTR USER_PASSWORD_ATTR = true) as -> by (vm_compute; reflexivity).
  rewrite He. cbn [change_step default from_option id List.filter].
  rewrite (bool_decide_false (h ∈ _)) by (intros Hx%list_elem_of_singleton; by symmetry in Hx).
  cbn [negb]. rewrite bool_decide_false by done. cbn [default from_option id mbind option_bind].
  assert (forall l, head (foldl push_missing [h] l) = Some h) as Hh; [|apply Hh].
  assert (forall l have, head have = Some h -> head (foldl push_missing have l) = Some h) as Hg; [|by intros; apply Hg].
  induction l as [|x l IH]; intros have Hx; [done|]. cbn [foldl]. apply IH. unfold push_missing.
  case_bool_decide; [done|]. by destruct have.
Qed.

(** A reset that names its target is carried out whoever asks. *)
Theorem reset_needs_no_bind decode_value st fips value spec req id :
  decode_value value = Some req -> user_identity req <> None ->
  handle_password_modify decode_value st fips (Some value) None spec =
  handle_password_modify decode_value st fips (Some value) (Some id) spec.
Proof.
  intros Hv Hi. unfold handle_password_modify, try_bind, lift. destruct fips; cbn [ok_or prog_bind_]; [|done]. rewrite Hv.
  cbn [ok_or prog_bind_]. destruct (new_passwd req); cbn [ok_or prog_bind_]; [|done]. by destruct (user_identity req).
Qed.
