(* ===== verification/LdapBind.v ===== *)
(** Binds of an LDAP connection, [crates/ldap/src/session.rs]: the simple bind
    and the SASL/GSSAPI exchange. *)

From S2P Require Import Prelude Bytes Str Btree Utf8 Dn Partition Key Registry Entry Etcd Index Ridpool Store.
From S2P Require Import Directory Token Nfold Kerberos Password Principal BinaryAttrs Krb Pac Kdc KdcTgs Wrap Accept Filter Schema RootDse Ldap.

Inductive AuthenticationChoice :=
| Simple (password : bytes)
| Sasl (mechanism : rstring) (credentials : option bytes)
| OtherAuthentication.
Record BindRequest := mkBind { bind_version : Z; bind_name : rstring; authentication : AuthenticationChoice }.

Inductive BindDiagnostic := BindText (s : rstring) | BindAccept (e : AcceptError) | BindWrap (e : WrapError).
Record BindResponse := mkBindResponse { br_code : ResultCode; br_diagnostic : BindDiagnostic; server_sasl_creds : option bytes }.

(** The negotiation of a connection; [send_seq] is a [u64]. *)
Inductive SaslState :=
| SaslNone
| AwaitingApRepAck (key : bytes) (enctype : Enctype) (principal : rstring)
| AwaitingSecurityLayerAck (key : bytes) (enctype : Enctype) (principal : rstring)
| SecurityLayerActive (key : bytes) (enctype : Enctype) (sealed : bool) (send_seq : Z).

Definition OFFERED_LAYERS : Z := Z.lor 1 (Z.lor 2 4).
Definition MAX_BUFFER : Z := 0x00FFFFFF.

Definition bind_refused (c : ResultCode) (text : rstring) : BindResponse := mkBindResponse c (BindText text) None.
Definition bind_challenge (token : bytes) : BindResponse := mkBindResponse SaslBindInProgress (BindText []) (Some token).
Definition bind_succeeded : BindResponse := mkBindResponse Success (BindText []) None.

(** What a bind leaves: the response, the identity it establishes and the state
    of the negotiation; [None] if it panics. *)
Abbreviation bind_outcome := (option (BindResponse * option rstring * SaslState)) (only parsing).

Section binds.
  Context `{EntryCodec} `{Base64} `{!OpenSsl} `{!KrbCodec}.

(** [None] is a panic in [verify_password]. *)
Definition authenticate_simple (st : Store) (fips : bool) (name : rstring) (password : bytes) : prog (option ResultCode) :=
  if negb fips then Ret (Some InvalidCredentials)
  else
    match Dn.parse name with
    | Err _ => Ret (Some InvalidCredentials)
    | Ok dn =>
        prog_bind_ (fun r =>
            Ret (match r with
                 | Ok (Some entry) =>
                     match first_value entry USER_PASSWORD_ATTR with
                     | None => Some InvalidCredentials
                     | Some stored =>
                         v ← verify_password password stored;
                         Some (match v with Ok true => Success | _ => InvalidCredentials end)
                     end
                 | _ => Some InvalidCredentials
                 end)) (Store.get_entry st dn)
    end.

(** The keys of the service a ticket names: of the first entry with its name. *)
Definition sasl_lookup (st : Store) (any_dn : Dn) (sname : PrincipalName) (realm : rstring)
    : prog (result (stop unit) (list PrincipalKey)) :=
  let principal_fqn := fqn (principal_name_to_string sname) realm in
  dns <-? catch (Store.lookup_by_index st any_dn ATTR_PRINCIPAL_NAME principal_fqn) (fun _ => no_referral) ;;
  dn <-? or_none (head dns) ;;
  found <-? catch (Store.get_entry st dn) (fun _ => no_referral) ;;
  entry <-? or_none found ;;
  entry_keys entry (fun _ => no_referral).

(** Unsealed, so no confounder is drawn. *)
Definition security_layer_challenge (e : Enctype) (key : bytes) : result WrapError bytes :=
  wrap None e key 22 false 0 (OFFERED_LAYERS :: zdrop 1 (be_bytes 4 MAX_BUFFER)).

(** The challenge of the security layer, or its failure. *)
Definition start_layer (key : bytes) (e : Enctype) (principal : rstring) : BindResponse * SaslState :=
  match security_layer_challenge e key with
  | Ok challenge => (bind_challenge challenge, AwaitingSecurityLayerAck key e principal)
  | Err x => (mkBindResponse OperationsError (BindWrap x) None, SaslNone)
  end.

(** The first token of an exchange. *)
Definition sasl_initial (st : Store) (credentials : option bytes) : prog bind_outcome :=
  match credentials with
  | None => Ret (Some (bind_refused AuthMethodNotSupported (str "GSSAPI bind requires an initial token"), None, SaslNone))
  | Some input_token =>
      match head (iter (registry st)) with
      | None => Ret (Some (bind_refused Other (str "no partition configured"), None, SaslNone))
      | Some p =>
          prog_bind_ (fun r =>
              Ret (match r with
                   | Ok accepted =>
                       let key := session_key accepted in
                       match output_token accepted with
                       | Some tok => Some (bind_challenge tok, None, AwaitingApRepAck key (ctx_enctype accepted) (client_principal accepted))
                       | None =>
                           let rs := start_layer key (ctx_enctype accepted) (client_principal accepted) in
                           Some (rs.1, None, rs.2)
                       end
                   | Err (Return e) => Some (mkBindResponse InvalidCredentials (BindAccept e) None, None, SaslNone)
                   | Err Panic => None
                   end)) (accept input_token (sasl_lookup st (base_dn p)))
      end
  end.

(** The client's choice of a layer. *)
Definition sasl_choice (key : bytes) (e : Enctype) (principal : rstring) (credentials : option bytes)
    : BindResponse * option rstring * SaslState :=
  match credentials with
  | None => (bind_refused ProtocolError (str "missing security-layer response"), None, SaslNone)
  | Some response =>
      match unwrap e key 24 response with
      | Ok plain =>
          let identity := Some (str "u:" ++ principal) in
          if bool_decide (head plain = Some 1) then (bind_succeeded, identity, SaslNone)
          else if bool_decide (head plain = Some 2) then (bind_succeeded, identity, SecurityLayerActive key e false 1)
          else if bool_decide (head plain = Some 4) then (bind_succeeded, identity, SecurityLayerActive key e true 1)
          else (bind_refused UnwillingToPerform (str "client selected an unsupported security layer"), None, SaslNone)
      | Err x => (mkBindResponse InvalidCredentials (BindWrap x) None, None, SaslNone)
      end
  end.

Definition handle_sasl_bind (st : Store) (fips : bool) (mechanism : rstring) (credentials : option bytes) (sasl_state : SaslState)
    : prog bind_outcome :=
  if negb (bool_decide (mechanism = str "GSSAPI"))
  then Ret (Some (bind_refused AuthMethodNotSupported (str "only the GSSAPI SASL mechanism is supported"), None, SaslNone))
  else if negb fips
  then Ret (Some (bind_refused UnwillingToPerform (str "FIPS provider not active -- SASL/GSSAPI unavailable"), None, SaslNone))
  else
    match sasl_state with
    | SaslNone => sasl_initial st credentials
    | AwaitingApRepAck key e principal => let rs := start_layer key e principal in Ret (Some (rs.1, None, rs.2))
    | AwaitingSecurityLayerAck key e principal => Ret (Some (sasl_choice key e principal credentials))
    | SecurityLayerActive _ _ _ _ =>
        Ret (Some (bind_refused UnwillingToPerform
          (str "re-bind on a connection with an active security layer is not supported"), None, sasl_state))
    end.

Definition handle_bind (st : Store) (fips : bool) (req : BindRequest) (sasl_state : SaslState) : prog bind_outcome :=
  if negb (bind_version req =? 3)
  then Ret (Some (bind_refused ProtocolError (str "only LDAPv3 is supported"), None, SaslNone))
  else
    match authentication req with
    | Simple password =>
        if bool_decide (bind_name req = []) && bool_decide (password = [])
        then Ret (Some (bind_succeeded, None, SaslNone))
        else
          prog_bind_ (fun c =>
              Ret (code ← c;
                   let identity := if bool_decide (code = Success) then Some (str "dn:" ++ bind_name req) else None in
                   Some (mkBindResponse code (BindText []) None, identity, SaslNone)))
            (authenticate_simple st fips (bind_name req) password)
    | Sasl mechanism credentials => handle_sasl_bind st fips mechanism credentials sasl_state
    | OtherAuthentication => Ret (Some (bind_refused AuthMethodNotSupported (str "unrecognized authentication choice"), None, SaslNone))
    end.
End binds.

(** ** What a bind establishes *)

Section spec.
  Context `{EntryCodec} `{Base64} `{!OpenSsl, !OpenSslLaws} `{!KrbCodec} `{!DerLaw EncApRepPart, !DerLaw ApRep}.
  Context (T : Z -> Prop) (st : Store) (Hst : connected st) (spec : IndexSpec) (F : forest) (m : kvstore)
    (HF : holds st spec F m).
  Implicit Types (req : BindRequest) (s : SaslState).

(** The password matches the first hash of the entry the name stands for. *)
Definition password_matches (name : rstring) (password : bytes) : Prop :=
  exists dn dn' e stored, Dn.parse name = Ok dn /\ find_entry st F dn = Some (dn', e) /\
    first_value e USER_PASSWORD_ATTR = Some stored /\ verify_password password stored = Some (Ok true).

Lemma authenticate_simple_runs fips name password c m' :
  runs_at T (authenticate_simple st fips name password) m c m' ->
  m' = m /\ match c with
            | Some Success => fips = true /\ password_matches name password
            | Some c => c = InvalidCredentials
            | None => True
            end.
Proof.
  unfold authenticate_simple. destruct fips; [|by intros [-> ->]]. cbn [negb].
  destruct (Dn.parse name) as [dn|] eqn:Hn; [|by intros [-> ->]].
  intros (r & m1 & Hg%runs_at_runs & -> & ->)%runs_at_bind. apply (get_entry_runs _ Hst spec F) in Hg as [-> Hg]; [|done].
  split; [done|]. destruct Hg as [->|[e ->]]; [|done]. destruct (find_entry st F dn) as [[dn' e]|] eqn:Hf; [|done]. cbn [fmap option_fmap option_map snd].
  destruct (first_value e USER_PASSWORD_ATTR) as [stored|] eqn:Hv; [|done].
  destruct (verify_password password stored) as [[[|]|]|] eqn:Hp; cbn; [|done..]. split; [done|]. by exists dn, dn', e, stored.
Qed.

(** The reference server meets no failures. *)
Lemma authenticate_simple_exec name password :
  password_matches name password -> exec zeros (authenticate_simple st true name password) m = (Some Success, m).
Proof.
  intros (dn & dn' & e & stored & Hn & Hf & Hv & Hp). unfold authenticate_simple. cbn [negb]. rewrite Hn.
  destruct (Registry.resolve (registry st) dn) as [p|] eqn:Hr; [|by unfold find_entry in Hf; rewrite Hr in Hf].
  rewrite exec_bind, (get_entry_exec st Hst spec F m dn p HF Hr), Hf. cbn [fmap option_fmap option_map snd].
  rewrite Hv, Hp. done.
Qed.

Definition simple_bind req (password : bytes) : Prop :=
  bind_version req = 3 /\ authentication req = Simple password /\ (bind_name req <> [] \/ password <> []).

(** A bind with a name or a password goes to [authenticate_simple]. *)
Lemma simple_bind_handled fips req s password :
  simple_bind req password ->
  handle_bind st fips req s =
  prog_bind_ (fun c =>
      Ret (code ← c;
           let identity := if bool_decide (code = Success) then Some (str "dn:" ++ bind_name req) else None in
           Some (mkBindResponse code (BindText []) None, identity, SaslNone)))
    (authenticate_simple st fips (bind_name req) password).
Proof.
  intros (Hv & Ha & Hne). unfold handle_bind. rewrite Hv, Ha. change (negb (3 =? 3)) with false. cbv iota.
  destruct (bool_decide_reflect (bind_name req = [])) as [He|_]; [|done].
  destruct (bool_decide_reflect (password = [])) as [He'|_]; [|done]. by destruct Hne.
Qed.

(** A simple bind with a name or a password succeeds only for the password
    whose hash is the first stored on the entry the name stands for, and then
    establishes that name; any other answer is the same invalid-credentials
    refusal and leaves the connection anonymous.  It abandons a negotiation in
    progress and writes nothing; and the right password is accepted when the
    store answers. *)
Theorem simple_bind_correct fips req s password r m' :
  simple_bind req password -> runs_at T (handle_bind st fips req s) m r m' ->
  m' = m /\
  (forall resp identity s', r = Some (resp, identity, s') -> s' = SaslNone /\
    ((br_code resp = Success /\ identity = Some (str "dn:" ++ bind_name req) /\ fips = true /\ password_matches (bind_name req) password) \/
     (resp = mkBindResponse InvalidCredentials (BindText []) None /\ identity = None))) /\
  (password_matches (bind_name req) password ->
   (exec zeros (handle_bind st true req s) m).1 = Some (bind_succeeded, Some (str "dn:" ++ bind_name req), SaslNone)).
Proof.
  intros Hs. rewrite !(simple_bind_handled _ req s password Hs). intros (c & m1 & Hc & -> & ->)%runs_at_bind.
  apply authenticate_simple_runs in Hc as [-> Hc]. split; [done|]. split.
  - intros resp identity s' Hr. destruct c as [c|]; [|done]. cbn in Hr. injection Hr as <- <- <-. split; [done|].
    destruct (bool_decide_reflect (c = Success)) as [->|Hne]; [by left; destruct Hc|right]. destruct c; by rewrite ?Hc.
  - intros Hp. by rewrite exec_bind, authenticate_simple_exec.
Qed.

(** The keys of a service as the directory has them. *)
Definition service_keys (any_dn : Dn) (sname : PrincipalName) (realm : rstring) (ks : list PrincipalKey) : Prop :=
  exists dn dn' e, indexed_dn st F any_dn ATTR_PRINCIPAL_NAME (fqn (principal_name_to_string sname) realm) dn /\
    find_entry st F dn = Some (dn', e) /\ has_keys e ks.

Hypothesis indexed : to_ascii_lowercase ATTR_PRINCIPAL_NAME ∈ spec.

Lemma ro_sasl_lookup any_dn sname realm :
  ro T m (fun _ => True) (sasl_lookup st any_dn sname realm) (service_keys any_dn sname realm).
Proof.
  unfold sasl_lookup. cbn zeta. eapply ro_try.
  { apply (ro_catch _ _ _ _ _ (fun l => lookup_answer st F any_dn ATTR_PRINCIPAL_NAME (fqn (principal_name_to_string sname) realm) l));
      [|intros; by apply ro_err].
    apply ro_runs. intros r m' Hr. apply (lookup_runs _ Hst spec F) in Hr as [-> [[e ->]|(l & -> & Hl)]]; done. }
  intros dns [_ Hdns]. eapply ro_try; [apply (ro_none T m _ (fun dn => dn ∈ dns)); intros x Hx; destruct dns; [done|]; injection Hx as <-; set_solver|].
  intros dn Hin%Hdns. eapply ro_try.
  { apply (ro_catch _ _ _ _ _ (fun o => o = snd <$> find_entry st F dn)); [|intros; by apply ro_err].
    apply ro_runs. intros r m' Hr. apply (get_entry_runs _ Hst spec F) in Hr as [-> [->|[e ->]]]; done. }
  intros o Ho. eapply ro_try; [apply (ro_none T m _ (fun e => o = Some e)); done|]. intros e ->.
  destruct (find_entry st F dn) as [[dn' e']|] eqn:Hf; [|done]. injection Ho as <-.
  eapply (ro_mono _ _ (fun _ => True)); [apply ro_keys; [done|intros; by apply ro_err]|done|]. intros ks Hks. by exists dn, dn', e.
Qed.

(** An initial token accepted with these keys. *)
Lemma accept_authentic any_dn tok ctx m' :
  runs_at T (accept tok (sasl_lookup st any_dn)) m (Ok ctx) m' -> accepts T (service_keys any_dn) tok ctx.
Proof. intros Hr. by apply (accept_spec T m _ (service_keys any_dn) (ro_sasl_lookup any_dn)) in Hr as [_ Hr]. Qed.
End spec.

(** ** What a bind does to the negotiation *)

Section effect.
  Context `{EntryCodec} `{Base64} `{!OpenSsl} `{!KrbCodec}.
  Context (T : Z -> Prop) (st : Store) (fips : bool) (req : BindRequest) (m m' : kvstore).

Definition accepts_token (ctx : AcceptedContext) : Prop :=
  exists mechanism tok p, authentication req = Sasl mechanism (Some tok) /\ head (iter (registry st)) = Some p /\
    runs_at T (accept tok (sasl_lookup st (base_dn p))) m (Ok ctx) m'.

Definition chooses_layer (key : bytes) (e : Enctype) (layer : Z) : Prop :=
  exists mechanism c plain, authentication req = Sasl mechanism (Some c) /\ unwrap e key 24 c = Ok (layer :: plain).

(** A new identity comes from a password or from a completed exchange. *)
Definition identity_from (s : SaslState) (id : rstring) : Prop :=
  (exists password, simple_bind req password /\ id = str "dn:" ++ bind_name req /\
     runs_at T (authenticate_simple st fips (bind_name req) password) m (Some Success) m') \/
  (exists key e principal layer, s = AwaitingSecurityLayerAck key e principal /\ id = str "u:" ++ principal /\
     chooses_layer key e layer /\ layer ∈ [1; 2; 4]).

(** The negotiation goes forward only by the steps of the exchange. *)
Definition state_from (s s' : SaslState) : Prop :=
  match s' with
  | SaslNone => True
  | AwaitingApRepAck key e principal =>
      exists ctx, accepts_token ctx /\ key = session_key ctx /\ e = ctx_enctype ctx /\ principal = client_principal ctx
  | AwaitingSecurityLayerAck key e principal =>
      (exists ctx, accepts_token ctx /\ key = session_key ctx /\ e = ctx_enctype ctx /\ principal = client_principal ctx) \/
      s = AwaitingApRepAck key e principal
  | SecurityLayerActive key e sealed seq =>
      s = s' \/ exists principal layer, s = AwaitingSecurityLayerAck key e principal /\ chooses_layer key e layer /\
        layer = (if sealed then 4 else 2) /\ seq = 1
  end.

Lemma start_layer_state key e principal s' :
  s' = (start_layer key e principal).2 -> s' = SaslNone \/ s' = AwaitingSecurityLayerAck key e principal.
Proof. intros ->. unfold start_layer. destruct (security_layer_challenge e key); auto. Qed.

Lemma sasl_effect mechanism credentials s resp identity s' :
  authentication req = Sasl mechanism credentials ->
  runs_at T (handle_sasl_bind st fips mechanism credentials s) m (Some (resp, identity, s')) m' ->
  (forall id, identity = Some id -> identity_from s id) /\ state_from s s'.
Proof.
  intros Ha. unfold handle_sasl_bind. destruct (negb _); [by intros [[= -> -> ->] _]|]. destruct fips; [|by intros [[= -> -> ->] _]].
  cbn [negb]. destruct s as [|key e principal|key e principal|key e sealed seq].
  - unfold sasl_initial. destruct credentials as [tok|]; [|by intros [[= -> -> ->] _]].
    destruct (head (iter (registry st))) as [p|] eqn:Hp; [|by intros [[= -> -> ->] _]].
    intros (r & m1 & Hacc & [Hr <-])%runs_at_bind. destruct r as [ctx|[|e]]; [|done|by injection Hr as -> -> ->].
    assert (accepts_token ctx) as Htok by (by exists mechanism, tok, p).
    destruct (output_token ctx) as [out|]; injection Hr as -> -> Hs; (split; [done|]); [rewrite Hs; by exists ctx|].
    apply start_layer_state in Hs as [->| ->]; [done|]. left. by exists ctx.
  - intros [[= -> -> Hs] _]. split; [done|]. apply start_layer_state in Hs as [->| ->]; [done|by right].
  - unfold sasl_choice. destruct credentials as [c|]; [|by intros [[= -> -> ->] _]].
    destruct (unwrap e key 24 c) as [[|b plain]|] eqn:Hu; cbn [head]; [by intros [[= -> -> ->] _]| |by intros [[= -> -> ->] _]].
    assert (chooses_layer key e b) as Hch by (by exists mechanism, c, plain).
    assert (forall id, b ∈ [1; 2; 4] -> Some (str "u:" ++ principal) = Some id ->
      identity_from (AwaitingSecurityLayerAck key e principal) id) as Hid.
    { intros id Hb [= <-]. right. by exists key, e, principal, b. }
    destruct (bool_decide_reflect (Some b = Some 1)) as [[= ->]|_];
      [|destruct (bool_decide_reflect (Some b = Some 2)) as [[= ->]|_];
        [|destruct (bool_decide_reflect (Some b = Some 4)) as [[= ->]|_]]]; intros [[= -> -> ->] _];
      (split; [try (intros id; apply Hid; set_solver)|]); try done; right; by eexists _, _.
  - intros [[= -> -> ->] _]. split; [done|by left].
Qed.

Lemma bind_effect s resp identity s' :
  runs_at T (handle_bind st fips req s) m (Some (resp, identity, s')) m' ->
  (forall id, identity = Some id -> identity_from s id) /\ state_from s s'.
Proof.
  unfold handle_bind. destruct (Z.eqb_spec (bind_version req) 3) as [Hv|_]; [|by intros [[= -> -> ->] _]]. cbn [negb].
  destruct (authentication req) as [password|mechanism credentials|] eqn:Ha; [|by apply sasl_effect|by intros [[= -> -> ->] _]].
  destruct (bool_decide (bind_name req = []) && bool_decide (password = [])) eqn:Hanon; [by intros [[= -> -> ->] _]|].
  intros (c & m1 & Hc & [Hr <-])%runs_at_bind. destruct c as [c|]; [|done]. cbn in Hr. injection Hr as -> -> ->. split; [|done].
  intros id Hid. destruct (bool_decide_reflect (c = Success)) as [->|]; [|done]. injection Hid as <-. left. exists password.
  split; [|done]. split; [done|]. split; [done|]. apply andb_false_iff in Hanon as [?%bool_decide_eq_false|?%bool_decide_eq_false]; auto.
Qed.
End effect.

(** ** Examples *)

#[local] Existing Instance bit_codec.
#[local] Existing Instance hex_base64.
#[local] Existing Instance demo_ssl.
#[local] Existing Instance demo_ssl_laws.
#[local] Existing Instance PlainCodec.plain_codec.

Definition login_hash : rstring := Eval vm_compute in
  match hash_password (Some (replicate 16 5)) (str "correct horse") with Ok h => h | Err _ => [] end.
Definition login_entry : Entry := Entry.set entry_example (str "userPassword") [login_hash].
Definition login_forest : forest := set_entry ex_st ∅ alice login_entry.
Definition login_store : kvstore := (exec zeros (Store.put_entry ex_st alice login_entry index_spec) ∅).2.

Lemma login_holds : holds ex_st index_spec login_forest login_store.
Proof.
  apply (put_entry_exec ex_st ex_st_connected index_spec ∅ ∅ alice login_entry (holds_empty _ _) alice_ok).
  - apply entry_set_wf; [apply entry_example_wf|apply str_ok_str|by_decide].
  - apply spelled_empty.
  - vm_compute. reflexivity.
Qed.

Definition login (password : bytes) : BindRequest := mkBind 3 (str "cn=alice,ou=Users,dc=g10,dc=lo") (Simple password).
Definition login_run (password : bytes) := exec zeros (handle_bind ex_st true (login password) SaslNone) login_store.

Lemma simple_bind_correct_witness :
  (login_run (str "correct horse")).1 = Some (bind_succeeded, Some (str "dn:cn=alice,ou=Users,dc=g10,dc=lo"), SaslNone) /\
  password_matches ex_st login_forest (bind_name (login (str "correct horse"))) (str "correct horse") /\
  (login_run (str "wrong horse")).1 = Some (mkBindResponse InvalidCredentials (BindText []) None, None, SaslNone).
Proof.
  assert (simple_bind (login (str "correct horse")) (str "correct horse")) as Hs by (repeat split; left; discriminate).
  assert ((login_run (str "correct horse")).1 = Some (bind_succeeded, Some (str "dn:cn=alice,ou=Users,dc=g10,dc=lo"), SaslNone)) as Hr
    by (vm_compute; reflexivity).
  split; [exact Hr|]. split; [|vm_compute; reflexivity].
  destruct (simple_bind_correct (fun t => t = 0) ex_st ex_st_connected index_spec login_forest login_store login_holds
    true (login (str "correct horse")) SaslNone (str "correct horse") (login_run (str "correct horse")).1 (login_run (str "correct horse")).2
    Hs) as (_ & Hok & _).
  - exact (exec_runs_at (fun t => t = 0) zeros (handle_bind ex_st true (login (str "correct horse")) SaslNone) login_store eq_refl zeros_ok).
  - destruct (Hok _ _ _ Hr) as [_ [(_ & _ & _ & Hp)|[Hbad _]]]; [exact Hp|discriminate Hbad].
Defined.
