(* ===== verification/SingleSignOn.v ===== *)
(** From a ticket to an LDAP bind: the ticket-granting service of
    [crates/kdc] and the context acceptance of [crates/ldap] work from the same
    directory, so the ticket one issues is the ticket the other accepts. *)

From S2P Require Import Prelude Bytes Str Btree Utf8 Dn Partition Key Registry Entry Etcd Index Ridpool Store.
From S2P Require Import Directory Token Nfold Kerberos Password Principal BinaryAttrs Krb Pac Kdc KdcAs KdcTgs Wrap Accept Filter Schema RootDse Ldap LdapBind.

Section sso.
  Context `{EntryCodec} `{Base64} `{!OpenSsl, !OpenSslLaws} `{!KrbCodec} `{!ErrorText}.
  Context `{!DerLaw ApReq, !DerLaw EncTicketPart, !DerLaw EncTgsRepPart}.
  (** Every message of the acceptor's answer has an encoding. *)
  Context (encode_enc_ap_rep : forall p : EncApRepPart, der_encode p <> None) (encode_ap_rep : forall r : ApRep, der_encode r <> None).
  Context (fresh_fips : result Error unit) (T : Z -> Prop) (app : AppState) (Hst : connected (app_store app))
    (F : forest) (m : kvstore) (HF : holds (app_store app) index_spec F m) (Hwf : forest_keys_wf app F).
  (** Readings of the directory server's clock, and the entry point of its
      searches, in the partition of the realm. *)
  Context (T' : Z -> Prop) (any_dn : Dn) (Hbase : Registry.resolve (registry (app_store app)) any_dn =
    Registry.resolve (registry (app_store app)) (app_base_dn app)).

(** The client's token: the ticket of the reply, and an authenticator in its
    name sealed with the key it read there. *)
Record client_token (rep : KdcRep) (key : EncryptionKey) (a : Authenticator) (flags : Z) (tok : bytes) : Prop := {
  ct_request : exists b authenticator, tok = build_initial_context_token (TOK_ID_AP_REQ ++ b) /\ zlen b < 2 ^ 62 /\
    der_encode (mkApReq (rep_ticket rep) authenticator) = Some b /\
    forall e, try_from (ek_type key) = Some e -> seals e (ek_value key) 11 (ed_cipher authenticator) a;
  ct_crealm : auth_crealm a = rep_crealm rep;
  ct_cname : auth_cname a = rep_cname rep;
  ct_flags : authenticator_flags a = Ok flags;
}.

(** Failures of the store and of the random generator. *)
Definition unavailable (s : stop AcceptError) : Prop := s = Return NoServiceKey \/ exists e, s = Return (AcceptCrypto e).

Lemma seals_unique {A : Type} `{!Der A} e key usage c (a b : A) : seals e key usage c a -> seals e key usage c b -> a = b.
Proof. intros (x & Hx & Ha) (y & Hy & Hb). rewrite Hx in Hy. injection Hy as ->. congruence. Qed.

Lemma parse_client_token b ap :
  zlen b < 2 ^ 62 -> der_encode ap = Some b -> parse_ap_req (build_initial_context_token (TOK_ID_AP_REQ ++ b)) = Ok ap.
Proof.
  intros Hl Hap. unfold parse_ap_req. rewrite parse_build_token by (rewrite zlen_app; change (zlen TOK_ID_AP_REQ) with 2; lia).
  cbn [map_err mbind result_bind]. unfold split_tok_id.
  rewrite (slice_app_exact [] TOK_ID_AP_REQ b 0 2 eq_refl eq_refl : slice (TOK_ID_AP_REQ ++ b) 0 2 = Some TOK_ID_AP_REQ).
  cbn [ok_or mbind result_bind]. rewrite bool_decide_true by done. cbn [negb map_err mbind result_bind].
  change (zdrop 2 (TOK_ID_AP_REQ ++ b)) with b. by rewrite (der_roundtrip _ _ Hap).
Qed.

(** The server finds the keys the ticket was made with. *)
Lemma lookup_service sname realm dn e ks :
  principal_at app F (fqn (principal_name_to_string sname) realm) dn e -> has_keys e ks ->
  ro T' m (fun s => s = Return tt) (sasl_lookup (app_store app) any_dn sname realm) (fun ks' => ks' = ks).
Proof.
  intros [Hu [dn' Hf]] Hks. unfold sasl_lookup. cbn zeta.
  assert (forall A (Q : A -> Prop), ro T' m (fun s => s = Return tt) no_referral Q) as Hno by (intros; by apply ro_err).
  eapply (ro_try _ _ _ _ _ (fun l => forall d, d ∈ l -> d = dn)).
  { apply ro_catch; [|intros; apply Hno]. apply ro_runs. intros r m' Hr.
    apply (lookup_runs _ Hst index_spec F) in Hr as [-> [[x ->]|(l & -> & _ & Hl)]]; [done| |done|by_decide]. split; [done|].
    intros d Hd%Hl. apply Hu. destruct Hd as (p & e' & Hp & Hd). exists p, e'. by rewrite <- Hbase. }
  intros dns Hdns. eapply (ro_try _ _ _ _ _ (fun d => d = dn)).
  { destruct dns as [|d dns]; [apply Hno|]. apply ro_ret, Hdns. by left. }
  intros d ->. eapply (ro_try _ _ _ _ _ (fun o => o = Some e)).
  { apply ro_catch; [|intros; apply Hno]. apply ro_runs. intros r m' Hr.
    apply (get_entry_runs _ Hst index_spec F) in Hr as [-> [->|[x ->]]]; [|done|done]. by rewrite Hf. }
  intros o ->. eapply (ro_try _ _ _ _ _ (fun x => x = e)); [by apply ro_ret|]. intros x ->.
  unfold entry_keys. rewrite Hks. by apply ro_ret.
Qed.

Lemma answer_available (e : Enctype) key a :
  ro T' m unavailable (ap_rep_token e key a) (fun _ => True).
Proof.
  unfold ap_rep_token. eapply (ro_try _ _ _ _ _ (fun _ => True)).
  { destruct (der_encode (mkEncApRepPart _ _ _)) eqn:Hx; [by apply ro_ret|by destruct (encode_enc_ap_rep _ Hx)]. }
  intros b _. eapply (ro_try _ _ _ _ _ (fun _ => True)).
  { apply ro_catch; [|intros x; apply ro_err; right; by exists x].
    apply ro_runs. intros r m' (rep & m1 & (-> & _) & -> & ->). split; [done|]. by destruct (encrypt _ _ _ _ _). }
  intros c _. eapply (ro_try _ _ _ _ _ (fun _ => True)); [|intros; by apply ro_ret].
  destruct (der_encode (mkApRep _)) eqn:Hx; [by apply ro_ret|by destruct (encode_ap_rep _ Hx)].
Qed.

(** A step whose value is known. *)
Lemma ro_known {A B : Type} (o : A) (f : A -> prog (result (stop AcceptError) B)) (Q : B -> Prop) (p : prog (result (stop AcceptError) A)) :
  p = Ret (Ok o) -> ro T' m unavailable (f o) Q -> ro T' m unavailable (try_bind p f) Q.
Proof. intros -> Hf. eapply (ro_try _ _ _ _ _ (fun x => x = o)); [by apply ro_ret|]. by intros x ->. Qed.

Lemma accept_known tok ap dn e ks k tgt a flags :
  parse_ap_req tok = Ok ap ->
  principal_at app F (fqn (principal_name_to_string (tkt_sname (ap_ticket ap))) (realm_to_string (tkt_realm (ap_ticket ap)))) dn e ->
  has_keys e ks -> find_key (pk_enctype k) ks = Some k -> try_from (ed_etype (tkt_enc_part (ap_ticket ap))) = Some (pk_enctype k) ->
  seals (pk_enctype k) (pk_key k) 2 (ed_cipher (tkt_enc_part (ap_ticket ap))) tgt ->
  seals (pk_enctype k) (ek_value (etp_key tgt)) 11 (ed_cipher (ap_authenticator ap)) a ->
  auth_crealm a = etp_crealm tgt -> auth_cname a = etp_cname tgt -> authenticator_flags a = Ok flags ->
  (forall now, T' now -> diff_seconds (etp_end_time tgt) (whole_seconds now) <= 0 /\
     Z.abs (diff_seconds (auth_ctime a) (whole_seconds now)) <= CLOCK_SKEW_SECS) ->
  ro T' m unavailable (accept tok (sasl_lookup (app_store app) any_dn)) (fun ctx =>
    client_principal ctx = fqn (principal_name_to_string (etp_cname tgt)) (realm_to_string (etp_crealm tgt)) /\
    session_key ctx = match auth_subkey a with Some sk => ek_value sk | None => ek_value (etp_key tgt) end /\
    ctx_enctype ctx = pk_enctype k).
Proof.
  intros Hap Hat Hks Hk Het (b & Hb & Htgt) (b' & Hb' & Ha) Hcr Hcn Hfl Htime. unfold accept. rewrite Hap.
  eapply ro_known; [done|]. cbn zeta. eapply (ro_try _ _ _ _ _ (fun ks' => ks' = ks)).
  { intros r m' (x & m1 & Hx & -> & ->)%runs_at_bind. apply (lookup_service _ _ _ _ _ Hat Hks) in Hx as [-> Hx]. split; [done|].
    destruct x as [ks'|s]; [done|]. subst s. by left. }
  intros ? ->. rewrite Het. eapply ro_known; [done|]. rewrite Hk. eapply ro_known; [done|]. rewrite Hb. eapply ro_known; [done|].
  rewrite Htgt. eapply ro_known; [done|]. apply ro_clock. intros now Hnow. destruct (Htime now Hnow) as [Hexp Hskew].
  change (now_of now).1 with (whole_seconds now). rewrite (proj2 (Z.ltb_ge _ _) Hexp), Hb'. eapply ro_known; [done|].
  rewrite Ha. eapply ro_known; [done|]. rewrite !bool_decide_true by done. cbn [negb orb]. rewrite (proj2 (Z.ltb_ge _ _) Hskew), Hfl.
  eapply ro_known; [done|]. eapply (ro_try _ _ _ _ _ (fun _ => True)); [|intros o _; by apply ro_ret].
  destruct (negb _); [|by apply ro_ret]. intros r m' (x & m1 & Hx & -> & ->)%runs_at_bind.
  apply answer_available in Hx as [-> Hx]. split; [done|]. by destruct x.
Qed.

End sso.

(** ** An example *)

#[local] Existing Instance bit_codec.
#[local] Existing Instance hex_base64.
#[local] Existing Instance demo_ssl.
#[local] Existing Instance demo_ssl_laws.
#[local] Existing Instance PlainCodec.plain_codec.
#[local] Existing Instance PlainCodec.plain_enc_ticket_law.
#[local] Existing Instance PlainCodec.plain_tgs_rep_law.
#[local] Existing Instance plain_text.

Lemma plain_ap_req_law : DerLaw ApReq.
Proof. apply plain_der_law. Qed.
#[local] Existing Instance plain_ap_req_law.

(** What the client makes of the answer of the ticket-granting service. *)
Definition tgt_session : EncryptionKey :=
  default (mkEncryptionKey 0 []) (snd <$> open_as_reply (first_key alice_entry) ex_as_answer).
Definition open_tgs_reply (r : option KdcResponse) : option (KdcRep * EncTgsRepPart) :=
  match r with
  | Some (TgsRep rep) =>
      match decrypt (default Aes256CtsHmacSha1_96 (try_from (ek_type tgt_session))) (ek_value tgt_session) 8 (ed_cipher (rep_enc_part rep)) with
      | Ok b => p ← der_decode b; Some (rep, p)
      | Err _ => None
      end
  | _ => None
  end.

(** Its token for the directory server. *)
Definition gss_checksum (flags : Z) : Checksum := mkChecksum GSS_CHECKSUM_TYPE (replicate 20 0 ++ le_bytes 4 flags).
Definition sso_authenticator (flags : Z) : Authenticator :=
  mkAuthenticator (string_to_gstring ex_realm) KdcTgs.alice_name (Some (gss_checksum flags)) 0 (100 * NANOS) None.
Definition sso_token_for (flags : Z) (rp : KdcRep * EncTgsRepPart) : bytes :=
  let session := erp_key (tgs_rep_part rp.2) in
  let key := mkPrincipalKey (default Aes256CtsHmacSha1_96 (try_from (ek_type session))) 1 (ek_value session) in
  build_initial_context_token (TOK_ID_AP_REQ ++ der_bytes (mkApReq (rep_ticket rp.1) (client_seal key 11 (sso_authenticator flags)))).

(** The token is as the theorem asks. *)
Definition sso_reply : KdcRep * EncTgsRepPart := Eval vm_compute in
  default (mkKdcRep [] KdcTgs.alice_name no_ticket (mkEncryptedData 0 None []),
    mkEncTgsRepPart (mkEncKdcRepPart (mkEncryptionKey 0 []) 0 [] 0 0 [] KdcTgs.alice_name)) (open_tgs_reply ex_tgs_answer).

Lemma sso_client_token :
  client_token sso_reply.1 (erp_key (tgs_rep_part sso_reply.2)) (sso_authenticator GSS_C_MUTUAL_FLAG) GSS_C_MUTUAL_FLAG
    (sso_token_for GSS_C_MUTUAL_FLAG sso_reply).
Proof.
  constructor; [|vm_compute; reflexivity..].
  set (session := erp_key (tgs_rep_part sso_reply.2)).
  set (key := mkPrincipalKey (default Aes256CtsHmacSha1_96 (try_from (ek_type session))) 1 (ek_value session)).
  exists (der_bytes (mkApReq (rep_ticket sso_reply.1) (client_seal key 11 (sso_authenticator GSS_C_MUTUAL_FLAG)))),
    (client_seal key 11 (sso_authenticator GSS_C_MUTUAL_FLAG)).
  split; [reflexivity|]. split; [vm_compute; reflexivity|]. split; [vm_compute; reflexivity|].
  intros e. assert (try_from (ek_type session) = Some (pk_enctype key)) as -> by (vm_compute; reflexivity). intros [= <-].
  eexists. split; vm_compute; reflexivity.
Qed.

Definition ldap_base : Dn := dn_of (str "dc=g10,dc=lo").
Definition sso_context (flags : Z) : option AcceptedContext :=
  match (exec zeros (accept (sso_token_for flags sso_reply) (sasl_lookup ex_st ldap_base)) kdc_store).1 with Ok c => Some c | Err _ => None end.

Lemma ldap_base_served : Registry.resolve (registry ex_st) ldap_base = Registry.resolve (registry ex_st) (app_base_dn ex_app).
Proof. vm_compute. reflexivity. Qed.
Lemma sso_realm : to_ascii_uppercase (realm_str ex_tgs_req) = to_ascii_uppercase (app_realm ex_app).
Proof. vm_compute. reflexivity. Qed.
Lemma sso_service sname : rb_sname (req_body ex_tgs_req) = Some sname -> is_changepw sname = false.
Proof.
  assert (rb_sname (req_body ex_tgs_req) = Some service_name) as -> by (vm_compute; reflexivity).
  intros Hs. assert (sname = service_name) as -> by congruence. vm_compute. reflexivity.
Qed.
Lemma plain_enc_ap_rep_total (p : EncApRepPart) : der_encode p <> None.
Proof. discriminate. Qed.
Lemma plain_ap_rep_total (r : ApRep) : der_encode r <> None.
Proof. discriminate. Qed.

