(* ===== verification/LdapSession.v ===== *)
(** LDAP connections, [crates/ldap/src/session.rs]: reading and sending of
    messages through the SASL security layer, dispatch of the operations,
    StartTLS and the connection loop. *)

From S2P Require Import Prelude Bytes Str Btree Utf8 Dn Partition Key Registry Entry Etcd Index Ridpool Store.
From S2P Require Import Directory Token Framing Nfold Kerberos Password Principal BinaryAttrs Krb Pac Kdc KdcTgs Wrap Accept.
From S2P Require Import Filter Schema RootDse Ldap KdcAs LdapBind SingleSignOn.

Definition STARTTLS_OID : bytes := str "1.3.6.1.4.1.1466.20037".
Definition WHOAMI_OID : bytes := str "1.3.6.1.4.1.4203.1.11.3".
Definition PASSWORD_MODIFY_OID : bytes := str "1.3.6.1.4.1.4203.1.11.1".

(** The server's state of [crates/ldap/src/lib.rs]. *)
Record LdapApp := mkLdapApp {
  la_store : Store;
  la_index_spec : IndexSpec;
  la_fips : bool;
  la_referrals : list (Dn * rstring);
  la_topology : option PartitionRegistry;
  la_own_partition_id : option PartitionId;
}.

Definition referral_config (app : LdapApp) : Referrals :=
  mkReferrals (la_topology app) (la_referrals app) (la_own_partition_id app).

(** ** Messages *)

Section messages.
  Context `{EntryCodec}.

Inductive ExtendedDiagnostic := ExtText (s : rstring) | ExtPassword (m : PmMessage).
Record ExtendedResponse := mkExtendedResponse {
  er_code : ResultCode;
  er_diagnostic : ExtendedDiagnostic;
  response_name : option bytes;
  response_value : option bytes;
}.

Inductive ProtocolOp :=
| OpUnbindRequest
| OpBindRequest (req : BindRequest)
| OpSearchRequest (req : SearchRequest)
| OpAddRequest (entry : rstring) (attributes : AttributeList)
| OpDelRequest (entry : rstring)
| OpModifyRequest (object : rstring) (changes : list Change)
| OpCompareRequest (entry : rstring) (ava : AttributeValueAssertion)
| OpModDnRequest (req : ModifyDnRequest)
| OpExtendedReq (request_name : bytes) (request_value : option bytes)
| OpUnanswered
| OpBindResponse (resp : BindResponse)
| OpSearchResEntry (e : SearchResultEntry)
| OpSearchResDone (r : LdapResult)
| OpAddResponse (r : LdapResult)
| OpDelResponse (r : LdapResult)
| OpModifyResponse (r : LdapResult)
| OpCompareResponse (r : LdapResult)
| OpModDnResponse (r : LdapResult)
| OpExtendedResp (r : ExtendedResponse).

Record LdapMessage := mkMessage { message_id : Z; protocol_op : ProtocolOp }.

(** BER as [rasn] implements it. *)
Class LdapCodec := {
  ber_encode : LdapMessage -> option bytes;
  ber_decode : bytes -> option LdapMessage;
  decode_passwd_modify : bytes -> option PasswdModifyRequestValue;
}.
End messages.

(** What is sent on a connection: a message as it is, or wrapped with a
    sequence number. *)
Inductive Sent := SentClear (b : bytes) | SentWrapped (seq : Z) (b : bytes).

(** The state of a connection: what is still to be read and what is buffered,
    whether TLS is up, the negotiation and the bound identity. *)
Record Session := mkSession {
  s_tls : bool;
  s_reader : list event;
  s_buf : bytes;
  s_sasl : SaslState;
  s_identity : option rstring;
}.

(** [LostRaces]: an add still waits for a RID. *)
Inductive Ending := Closed | FramingFailed | SendFailed | TlsFailed | Panicked | LostRaces | OutOfFuel.

Section session.
  Context `{EntryCodec} `{Base64} `{!UnicodeLower} `{!OpenSsl} `{!KrbCodec} `{!LdapCodec}.

Definition read_next_message (fips : bool) (s : Session) : result unit (option LdapMessage) * (list event * bytes) :=
  match s_sasl s with
  | SecurityLayerActive key e _ _ =>
      if negb fips then (Err tt, (s_reader s, s_buf s))
      else
        let '(r, rest) := read_sized_buffer (s_reader s) (s_buf s) in
        (match r with
         | Ok (Some wrapped) =>
             plain ← map_err (fun _ => tt) (unwrap e key 24 wrapped);
             msg ← ok_or tt (ber_decode plain);
             Ok (Some msg)
         | Ok None => Ok None
         | Err _ => Err tt
         end, rest)
  | _ =>
      let '(r, rest) := read_message ber_decode (s_reader s) (s_buf s) in (map_err (fun _ => tt) r, rest)
  end.

(** [send_response]: what is sent, and the state with its counter advanced. *)
Definition send_response (fips : bool) (sasl_state : SaslState) (msg : LdapMessage) : prog (result unit (Sent * SaslState)) :=
  match sasl_state with
  | SecurityLayerActive key e sealed seq =>
      _ <-? lift (if fips then Ok tt else Err tt) ;;
      plain <-? lift (ok_or tt (ber_encode msg)) ;;
      wrapped <-? (if sealed
                   then Call (Random 16) (fun c : option bytes => Ret (map_err (fun _ => tt) (wrap c e key 22 true seq plain)))
                   else lift (map_err (fun _ => tt) (wrap None e key 22 false seq plain))) ;;
      Ret (Ok (SentWrapped seq (write_sized_buffer wrapped), SecurityLayerActive key e sealed (as_u64 (seq + 1))))
  | _ =>
      b <-? lift (map_err (fun _ => tt) (write_message ber_encode msg)) ;;
      Ret (Ok (SentClear b, sasl_state))
  end.

(** The responses to one message, up to the first that cannot be sent. *)
Fixpoint send_all (fips : bool) (sasl_state : SaslState) (id : Z) (ops : list ProtocolOp) : prog (list Sent * result unit SaslState) :=
  match ops with
  | [] => Ret ([], Ok sasl_state)
  | op :: ops' =>
      prog_bind_ (fun r =>
          match r with
          | Err _ => Ret ([], Err tt)
          | Ok (b, sasl_state') => prog_bind_ (fun rest => Ret (b :: rest.1, rest.2)) (send_all fips sasl_state' id ops')
          end) (send_response fips sasl_state (mkMessage id op))
  end.

(** What a message leads to: the end of the connection, or responses with the
    negotiation and the identity from then on. *)
Inductive Reaction :=
| Unbind
| Crash (e : Ending)
| Reply (ops : list ProtocolOp)
| Rebind (resp : BindResponse) (identity : option rstring) (sasl_state : SaslState)
| Upgrade (resp : ExtendedResponse).

Definition starttls_response (tls : bool) (configured : bool) : ResultCode * rstring :=
  if tls then (OperationsError, str "already TLS")
  else if configured then (Success, [])
  else (ProtocolError, str "StartTLS is not configured (no TLS cert/key)").

Definition handle_extended (app : LdapApp) (tls_configured : bool) (s : Session) (name : bytes) (value : option bytes) : prog Reaction :=
  if bool_decide (name = STARTTLS_OID) then
    let '(code, diagnostic) := starttls_response (s_tls s) tls_configured in
    let resp := mkExtendedResponse code (ExtText diagnostic) (Some STARTTLS_OID) None in
    Ret (if bool_decide (code = Success) then Upgrade resp else Reply [OpExtendedResp resp])
  else if bool_decide (name = WHOAMI_OID) then
    Ret (Reply [OpExtendedResp (mkExtendedResponse Success (ExtText []) None (Some (utf8_encode (default [] (s_identity s)))))])
  else if bool_decide (name = PASSWORD_MODIFY_OID) then
    prog_bind_ (fun r =>
        let '(code, diagnostic) := match r with Ok _ => (Success, ExtText []) | Err e => (pm_code e, ExtPassword (pm_message e)) end in
        Ret (Reply [OpExtendedResp (mkExtendedResponse code diagnostic (Some PASSWORD_MODIFY_OID) None)]))
      (handle_password_modify decode_passwd_modify (la_store app) (la_fips app) value (s_identity s) (la_index_spec app))
  else Ret (Reply [OpExtendedResp (mkExtendedResponse ProtocolError (ExtText (str "extended operations are not implemented yet")) None None)]).

(** The [match] of the loop on the operation of a message; [rid_fuel] bounds
    the lost races of an add. *)
Definition react (rid_fuel : nat) (app : LdapApp) (tls_configured : bool) (s : Session) (op : ProtocolOp) : prog Reaction :=
  let st := la_store app in
  let refs := referral_config app in
  let reply (f : LdapResult -> ProtocolOp) (p : prog LdapResult) := prog_bind_ (fun r => Ret (Reply [f r])) p in
  match op with
  | OpUnbindRequest => Ret Unbind
  | OpBindRequest req =>
      prog_bind_ (fun o => Ret (match o with Some (resp, identity, sasl') => Rebind resp identity sasl' | None => Crash Panicked end))
        (handle_bind st (la_fips app) req (s_sasl s))
  | OpSearchRequest req =>
      prog_bind_ (fun r : SearchResponse => Ret (Reply (map OpSearchResEntry r.1 ++ [OpSearchResDone r.2])))
        (handle_search st req refs (la_fips app))
  | OpAddRequest entry attributes =>
      prog_bind_ (fun r => Ret (match r with Some r => Reply [OpAddResponse r] | None => Crash LostRaces end))
        (handle_add rid_fuel st (la_fips app) entry attributes (la_index_spec app) refs)
  | OpDelRequest entry => reply OpDelResponse (handle_delete st entry (la_index_spec app) refs)
  | OpModifyRequest object changes => reply OpModifyResponse (handle_modify st (la_fips app) object changes (la_index_spec app) refs)
  | OpCompareRequest entry ava => reply OpCompareResponse (handle_compare st entry ava refs)
  | OpModDnRequest req => reply OpModDnResponse (handle_moddn st req (la_index_spec app) refs)
  | OpExtendedReq name value => handle_extended app tls_configured s name value
  | _ => Ret (Reply [])
  end.

(** The TLS handshake: from what is still to be read, what OpenSSL then makes
    readable; [None] if it fails. *)
Context (handshake : list event -> option (list event)).

(** One message: what is sent, and the session that goes on or how it ends. *)
Definition handle_message (rid_fuel : nat) (app : LdapApp) (tls_configured : bool) (s : Session) (msg : LdapMessage)
    : prog (list Sent * result Ending Session) :=
  let continue (ops : list ProtocolOp) (next : SaslState -> result Ending Session) :=
    prog_bind_ (fun r => Ret (r.1, match r.2 with Ok sasl' => next sasl' | Err _ => Err SendFailed end))
      (send_all (la_fips app) (s_sasl s) (message_id msg) ops) in
  prog_bind_ (fun reaction =>
      match reaction with
      | Unbind => Ret ([], Err Closed)
      | Crash e => Ret ([], Err e)
      | Reply ops => continue ops (fun sasl' => Ok (mkSession (s_tls s) (s_reader s) (s_buf s) sasl' (s_identity s)))
      | Rebind resp identity next =>
          let bound := if bool_decide (br_code resp = SaslBindInProgress) then s_identity s else identity in
          continue [OpBindResponse resp] (fun _ => Ok (mkSession (s_tls s) (s_reader s) (s_buf s) next bound))
      | Upgrade resp =>
          continue [OpExtendedResp resp] (fun sasl' =>
            match handshake (s_reader s) with
            | Some reader => Ok (mkSession true reader [] sasl' (s_identity s))
            | None => Err TlsFailed
            end)
      end) (react rid_fuel app tls_configured s (protocol_op msg)).

(** The loop, for at most [n] messages. *)
Fixpoint handle_connection (n : nat) (rid_fuel : nat) (app : LdapApp) (tls_configured : bool) (s : Session) : prog (list Sent * Ending) :=
  match n with
  | O => Ret ([], OutOfFuel)
  | S n' =>
      let '(r, rest) := read_next_message (la_fips app) s in
      match r with
      | Err _ => Ret ([], FramingFailed)
      | Ok None => Ret ([], Closed)
      | Ok (Some msg) =>
          prog_bind_ (fun o =>
              match o.2 with
              | Err e => Ret (o.1, e)
              | Ok s' => prog_bind_ (fun more => Ret (o.1 ++ more.1, more.2)) (handle_connection n' rid_fuel app tls_configured s')
              end)
            (handle_message rid_fuel app tls_configured (mkSession (s_tls s) rest.1 rest.2 (s_sasl s) (s_identity s)) msg)
      end
  end.
End session.

(** A connection as it is accepted. *)
Definition new_session (reader : list event) : Session := mkSession false reader [] SaslNone None.

(** ** The trace of a connection *)

Section trace.
  Context `{EntryCodec} `{Base64} `{!UnicodeLower} `{!OpenSsl} `{!KrbCodec} `{!LdapCodec}.
  Context (handshake : list event -> option (list event)) (T : Z -> Prop) (rid_fuel : nat) (app : LdapApp) (tls_configured : bool).

(** A message that was served: the session and the store it found, and what was
    sent. *)
Record Item := mkItem { it_session : Session; it_store : kvstore; it_msg : LdapMessage; it_sent : list Sent }.

Definition at_rest (s : Session) (rest : list event * bytes) : Session :=
  mkSession (s_tls s) rest.1 rest.2 (s_sasl s) (s_identity s).

Inductive trace : Session -> kvstore -> list Item -> Session -> kvstore -> Prop :=
| trace_start s m : trace s m [] s m
| trace_message s m msg rest sent s1 m1 items s2 m2 :
    read_next_message (la_fips app) s = (Ok (Some msg), rest) ->
    runs_at T (handle_message handshake rid_fuel app tls_configured (at_rest s rest) msg) m (sent, Ok s1) m1 ->
    trace s1 m1 items s2 m2 ->
    trace s m (mkItem s m msg sent :: items) s2 m2.

(** How a connection ends after its last served message. *)
Inductive ends (s : Session) (m : kvstore) : list Sent -> Ending -> kvstore -> Prop :=
| ends_fuel : ends s m [] OutOfFuel m
| ends_eof rest : read_next_message (la_fips app) s = (Ok None, rest) -> ends s m [] Closed m
| ends_framing rest : read_next_message (la_fips app) s = (Err tt, rest) -> ends s m [] FramingFailed m
| ends_message msg rest sent e m' :
    read_next_message (la_fips app) s = (Ok (Some msg), rest) ->
    runs_at T (handle_message handshake rid_fuel app tls_configured (at_rest s rest) msg) m (sent, Err e) m' ->
    ends s m sent e m'.

(** ** The responses to one message *)

(** The kinds of the responses a request has: none for those the protocol does
    not answer. *)
Definition answers (op : ProtocolOp) (ops : list ProtocolOp) : Prop :=
  match op with
  | OpBindRequest _ => exists r, ops = [OpBindResponse r]
  | OpSearchRequest _ => exists es r, ops = map OpSearchResEntry es ++ [OpSearchResDone r]
  | OpAddRequest _ _ => exists r, ops = [OpAddResponse r]
  | OpDelRequest _ => exists r, ops = [OpDelResponse r]
  | OpModifyRequest _ _ => exists r, ops = [OpModifyResponse r]
  | OpCompareRequest _ _ => exists r, ops = [OpCompareResponse r]
  | OpModDnRequest _ => exists r, ops = [OpModDnResponse r]
  | OpExtendedReq _ _ => exists r, ops = [OpExtendedResp r]
  | _ => ops = []
  end.

Definition reaction_ok (op : ProtocolOp) (re : Reaction) : Prop :=
  match re with
  | Unbind => op = OpUnbindRequest
  | Crash e => e = Panicked \/ e = LostRaces
  | Reply ops => answers op ops /\ forall req, op <> OpBindRequest req
  | Rebind _ _ _ => exists req, op = OpBindRequest req
  | Upgrade _ => exists value, op = OpExtendedReq STARTTLS_OID value
  end.

Lemma extended_ok s name value m re m' :
  runs_at T (handle_extended app tls_configured s name value) m re m' -> reaction_ok (OpExtendedReq name value) re.
Proof.
  unfold handle_extended. destruct (bool_decide_reflect (name = STARTTLS_OID)) as [->|_].
  { destruct (starttls_response _ _) as [c d]. intros [-> _]. destruct (bool_decide _); [by eexists|by split; [eexists|]]. }
  destruct (bool_decide _); [intros [-> _]; by split; [eexists|]|].
  destruct (bool_decide _); [|intros [-> _]; by split; [eexists|]].
  intros (r & m1 & _ & Hr)%runs_at_bind. destruct r; destruct Hr as [-> _]; by split; [eexists|].
Qed.

Lemma react_ok s op m re m' : runs_at T (react rid_fuel app tls_configured s op) m re m' -> reaction_ok op re.
Proof.
  destruct op; cbn [react]; try (by intros [-> _]; split); try apply extended_ok.
  all: intros (r & m1 & _ & [-> _])%runs_at_bind; try (by split; [repeat eexists|]).
  - destruct r as [[[resp identity] s']|]; [by eexists|by left].
  - destruct r as [r|]; [by split; [eexists|]|by right].
Qed.

(** What is sent for the responses: each message encoded as it is, or wrapped
    with the next sequence number while the security layer is active. *)
Inductive sends (id : Z) : SaslState -> list ProtocolOp -> list Sent -> SaslState -> Prop :=
| sends_none s : sends id s [] [] s
| sends_clear s op b ops sent s' :
    (forall key e sealed seq, s <> SecurityLayerActive key e sealed seq) -> ber_encode (mkMessage id op) = Some b ->
    sends id s ops sent s' -> sends id s (op :: ops) (SentClear b :: sent) s'
| sends_wrapped key e sealed seq op plain conf token ops sent s' :
    ber_encode (mkMessage id op) = Some plain -> zlen conf = 16 -> wrap (Some conf) e key 22 sealed seq plain = Ok token ->
    sends id (SecurityLayerActive key e sealed (as_u64 (seq + 1))) ops sent s' ->
    sends id (SecurityLayerActive key e sealed seq) (op :: ops) (SentWrapped seq (write_sized_buffer token) :: sent) s'.

Lemma send_response_runs fips s id op m r m' :
  runs_at T (send_response fips s (mkMessage id op)) m r m' ->
  m' = m /\ forall b s', r = Ok (b, s') -> forall ops sent s'', sends id s' ops sent s'' -> sends id s (op :: ops) (b :: sent) s''.
Proof.
  assert (forall s0, (forall key e sealed seq, s0 <> SecurityLayerActive key e sealed seq) ->
    runs_at T (b <-? lift (map_err (fun _ => tt) (write_message ber_encode (mkMessage id op))) ;; Ret (Ok (SentClear b, s0))) m r m' ->
    m' = m /\ forall b s', r = Ok (b, s') -> forall ops sent s'', sends id s' ops sent s'' -> sends id s0 (op :: ops) (b :: sent) s'') as Hclear.
  { intros s0 Hs (x & m1 & [-> ->] & Hr)%runs_at_bind. unfold write_message in Hr.
    destruct (ber_encode (mkMessage id op)) as [b|] eqn:Hb; destruct Hr as [-> ->]; (split; [done|]); [|done].
    intros ? ? [= <- <-] ops sent s''. by apply sends_clear. }
  destruct s as [| | |key e sealed seq]; cbn [send_response]; [by apply Hclear..|]. clear Hclear.
  intros (x & m1 & [-> ->] & Hr)%runs_at_bind. destruct fips; [|by destruct Hr as [-> ->]].
  apply runs_at_bind in Hr as (x & m1 & [-> ->] & Hr).
  destruct (ber_encode (mkMessage id op)) as [plain|] eqn:Hp; [|by destruct Hr as [-> ->]]. cbn [ok_or] in Hr.
  apply runs_at_bind in Hr as (w & m1 & Hw & Hr).
  assert (m1 = m /\ forall token, w = Ok token -> exists conf, zlen conf = 16 /\ wrap (Some conf) e key 22 sealed seq plain = Ok token) as [-> Hwrap].
  { destruct sealed.
    - destruct Hw as (c & m2 & (-> & Hc) & _ & -> & ->). split; [done|]. intros token Ht.
      destruct Hc as [->|(conf & -> & Hl & _)].
      + exfalso. revert Ht. unfold wrap, encrypt. by destruct (derive_ke_ki e key 22) as [[? ?]|].
      + exists conf. split; [unfold zlen; by rewrite Hl|]. by destruct (wrap _ _ _ _ _ _ _); [injection Ht as ->|].
    - destruct Hw as [-> ->]. split; [done|]. intros token Ht. exists (replicate 16 0). split; [done|].
      change (wrap (Some (replicate 16 0)) e key 22 false seq plain) with (wrap None e key 22 false seq plain).
      by destruct (wrap _ _ _ _ _ _ _); [injection Ht as ->|]. }
  destruct w as [token|]; destruct Hr as [-> ->]; (split; [done|]); [|done]. intros ? ? [= <- <-] ops sent s'' Hs.
  destruct (Hwrap token eq_refl) as (conf & Hc & Ht). by eapply sends_wrapped.
Qed.

Lemma send_all_runs fips s id ops m sent r m' :
  runs_at T (send_all fips s id ops) m (sent, r) m' -> m' = m /\ forall s', r = Ok s' -> sends id s ops sent s'.
Proof.
  revert s sent. induction ops as [|op ops IH]; intros s sent; cbn [send_all].
  { intros [[= -> ->] ->]. split; [done|]. intros s' [= <-]. constructor. }
  intros (x & m1 & Hx & Hr)%runs_at_bind. apply send_response_runs in Hx as [-> Hx].
  destruct x as [[b s1]|]; [|by destruct Hr as [[= -> ->] ->]].
  apply runs_at_bind in Hr as ([sent' r'] & m1 & Hr & [[= -> ->] ->]). apply IH in Hr as [-> Hr]. split; [done|].
  intros s' ->. apply (Hx b s1 eq_refl). by apply Hr.
Qed.

(** ** One message *)

Lemma continue_runs s id ops (next : SaslState -> result Ending Session) m sent o m' :
  runs_at T (prog_bind_ (fun r => Ret (r.1, match r.2 with Ok sasl' => next sasl' | Err _ => Err SendFailed end))
    (send_all (la_fips app) s id ops)) m (sent, o) m' ->
  m' = m /\ (o = Err SendFailed \/ exists sasl', sends id s ops sent sasl' /\ o = next sasl').
Proof.
  intros ([sent' r] & m1 & Hs & [[= -> ->] ->])%runs_at_bind. apply send_all_runs in Hs as [-> Hs]. split; [done|].
  destruct r as [sasl'|]; [|by left]. right. exists sasl'. split; [by apply Hs|done].
Qed.

Lemma react_bind s req m resp identity next m' :
  runs_at T (react rid_fuel app tls_configured s (OpBindRequest req)) m (Rebind resp identity next) m' ->
  runs_at T (handle_bind (la_store app) (la_fips app) req (s_sasl s)) m (Some (resp, identity, next)) m'.
Proof. cbn [react]. intros (o & m1 & Ho & [He ->])%runs_at_bind. destruct o as [[[? ?] ?]|]; [|done]. by injection He as -> -> ->. Qed.

(** The identity of the connection after a bind. *)
Definition bound_after (s : Session) (resp : BindResponse) (identity : option rstring) : option rstring :=
  if bool_decide (br_code resp = SaslBindInProgress) then s_identity s else identity.

Definition upgraded (s s1 : Session) : Prop :=
  s_tls s1 = true /\ handshake (s_reader s) = Some (s_reader s1) /\ s_buf s1 = [].

(** A message that leaves the connection open: it is answered, and only a bind
    changes who the client is. *)
Lemma message_ok s msg m sent s1 m' :
  runs_at T (handle_message handshake rid_fuel app tls_configured s msg) m (sent, Ok s1) m' ->
  exists ops sasl', answers (protocol_op msg) ops /\ sends (message_id msg) (s_sasl s) ops sent sasl' /\
    ((exists req resp identity next, protocol_op msg = OpBindRequest req /\
        runs_at T (handle_bind (la_store app) (la_fips app) req (s_sasl s)) m (Some (resp, identity, next)) m' /\
        s1 = mkSession (s_tls s) (s_reader s) (s_buf s) next (bound_after s resp identity)) \/
     ((forall req, protocol_op msg <> OpBindRequest req) /\ s_sasl s1 = sasl' /\ s_identity s1 = s_identity s /\
      ((s_tls s1 = s_tls s /\ s_reader s1 = s_reader s /\ s_buf s1 = s_buf s) \/ upgraded s s1))).
Proof.
  unfold handle_message. cbn zeta. intros (re & m1 & Hre & Hr)%runs_at_bind. pose proof (react_ok _ _ _ _ _ Hre) as Hok.
  destruct re as [|e|ops|resp identity next|resp]; [by destruct Hr|by destruct Hr| | |]; cbn [reaction_ok] in Hok;
    apply continue_runs in Hr as [-> [[=]|(sasl' & Hs & Ho)]].
  - injection Ho as ->. destruct Hok as [Hans Hnb]. exists ops, sasl'. split; [done|]. split; [done|]. right. do 3 (split; [done|]). by left.
  - injection Ho as ->. destruct Hok as [req Hreq]. rewrite Hreq in *. exists [OpBindResponse resp], sasl'.
    split; [by exists resp|]. split; [done|]. left. exists req, resp, identity, next. split; [done|]. split; [by apply react_bind|done].
  - destruct (handshake (s_reader s)) as [reader|] eqn:Hh; [|done]. injection Ho as ->. destruct Hok as [value Hv]. rewrite Hv.
    exists [OpExtendedResp resp], sasl'. split; [by exists resp|]. split; [done|]. right. split; [done|].
    do 2 (split; [done|]). right. by split.
Qed.

Lemma message_ends s msg m sent e m' :
  runs_at T (handle_message handshake rid_fuel app tls_configured s msg) m (sent, Err e) m' -> e <> OutOfFuel.
Proof.
  unfold handle_message. cbn zeta. intros (re & m1 & Hre & Hr)%runs_at_bind. pose proof (react_ok _ _ _ _ _ Hre) as Hok.
  destruct re as [|e'|ops|resp identity next|resp]; cbn [reaction_ok] in Hok.
  - destruct Hr as [[= _ ->] _]. done.
  - destruct Hr as [[= _ ->] _]. by destruct Hok as [->| ->].
  - apply continue_runs in Hr as [_ [[= ->]|(? & _ & [=])]]. done.
  - apply continue_runs in Hr as [_ [[= ->]|(? & _ & [=])]]. done.
  - apply continue_runs in Hr as [_ [[= ->]|(? & _ & Ho)]]; [done|]. destruct (handshake _); [done|]. by injection Ho as ->.
Qed.

(** Every run of the loop is a trace and an end. *)
Lemma connection_trace n s m sent e m' :
  runs_at T (handle_connection handshake n rid_fuel app tls_configured s) m (sent, e) m' ->
  exists items s1 m1 last, trace s m items s1 m1 /\ ends s1 m1 last e m' /\ sent = concat (map it_sent items) ++ last /\
    (e = OutOfFuel -> length items = n).
Proof.
  revert s m sent. induction n as [|n IH]; intros s m sent.
  { intros [[= -> ->] ->]. exists [], s, m, []. repeat split; constructor. }
  cbn [handle_connection]. destruct (read_next_message (la_fips app) s) as [r rest] eqn:Hread.
  destruct r as [[msg|]|[]].
  - intros ([sent1 o] & m1 & Hm & Hr)%runs_at_bind. cbn [fst snd] in Hr. destruct o as [s'|e'].
    + apply runs_at_bind in Hr as ([sent2 e2] & m2 & Hr & [[= -> ->] ->]).
      apply IH in Hr as (items & s1 & m3 & last & Htr & Hend & -> & Hfuel).
      exists (mkItem s m msg sent1 :: items), s1, m3, last. split; [by eapply trace_message|]. split; [done|].
      split; [cbn [map concat it_sent]; by rewrite app_assoc|]. intros He. cbn [length]. f_equal. by apply Hfuel.
    + destruct Hr as [[= -> ->] ->]. exists [], s, m, sent1. split; [constructor|]. split; [by eapply ends_message|].
      split; [done|]. intros ->. by apply message_ends in Hm.
  - intros [[= -> ->] ->]. exists [], s, m, []. split; [constructor|]. split; [by eapply ends_eof|]. done.
  - intros [[= -> ->] ->]. exists [], s, m, []. split; [constructor|]. split; [by eapply ends_framing|]. done.
Qed.

Lemma message_closes s msg m sent m' :
  runs_at T (handle_message handshake rid_fuel app tls_configured s msg) m (sent, Err Closed) m' ->
  protocol_op msg = OpUnbindRequest /\ sent = [] .
Proof.
  unfold handle_message. cbn zeta. intros (re & m1 & Hre & Hr)%runs_at_bind. pose proof (react_ok _ _ _ _ _ Hre) as Hok.
  destruct re as [|e'|ops|resp identity next|resp]; cbn [reaction_ok] in Hok.
  - by destruct Hr as [[= ->] _].
  - destruct Hr as [[= _ <-] _]. by destruct Hok.
  - apply continue_runs in Hr as [_ [[=]|(? & _ & [=])]].
  - apply continue_runs in Hr as [_ [[=]|(? & _ & [=])]].
  - apply continue_runs in Hr as [_ [[=]|(? & _ & Ho)]]. by destruct (handshake _).
Qed.

(** ** Termination *)

Section terminates.
  (** No message is empty, and TLS makes no more readable than it reads. *)
  Hypothesis decode_nonempty : ber_decode [] = None.
  Hypothesis handshake_shrinks : forall reader reader', bytes_ok (pending reader []) -> handshake reader = Some reader' ->
    bytes_ok (pending reader' []) /\ (length (pending reader' []) <= length (pending reader []))%nat.

Lemma read_next_shrinks fips s msg rest :
  bytes_ok (pending (s_reader s) (s_buf s)) -> read_next_message fips s = (Ok (Some msg), rest) ->
  (length (pending rest.1 rest.2) < length (pending (s_reader s) (s_buf s)))%nat /\ bytes_ok (pending rest.1 rest.2).
Proof.
  intros Hok. unfold read_next_message.
  assert (forall r rest', read_message ber_decode (s_reader s) (s_buf s) = (r, rest') -> (map_err (fun _ => tt) r, rest') = (Ok (Some msg), rest) ->
    (length (pending rest.1 rest.2) < length (pending (s_reader s) (s_buf s)))%nat /\ bytes_ok (pending rest.1 rest.2)) as Hplain.
  { intros r [reader buf] Hr [= Hm <-]. destruct r as [[a|]|]; try done.
    by eapply read_loop_shrinks; [by apply next_message_shrinks|done|]. }
  destruct (s_sasl s) as [| | |key e sealed seq]; try (destruct (read_message _ _ _) as [r rest'] eqn:Hr; by apply Hplain).
  destruct fips; [|done]. cbn [negb]. destruct (read_sized_buffer (s_reader s) (s_buf s)) as [r [reader buf]] eqn:Hr.
  destruct r as [[wrapped|]|]; intros [= Hm <-]; try done.
  by eapply read_loop_shrinks; [exact next_sized_shrinks|done|].
Qed.

Lemma trace_shrinks s m items s' m' :
  trace s m items s' m' -> bytes_ok (pending (s_reader s) (s_buf s)) ->
  (length items <= length (pending (s_reader s) (s_buf s)))%nat.
Proof.
  induction 1 as [|s m msg rest sent s1 m1 items s2 m2 Hread Hmsg _ IH]; intros Hok; [cbn; lia|].
  apply (read_next_shrinks _ _ _ _ Hok) in Hread as [Hlt Hrest].
  enough (bytes_ok (pending (s_reader s1) (s_buf s1)) /\ (length (pending (s_reader s1) (s_buf s1)) <= length (pending rest.1 rest.2))%nat)
    as [Hok1 Hle] by (cbn [length]; specialize (IH Hok1); lia).
  apply message_ok in Hmsg as (ops & sasl' & _ & _ & [(req & resp & identity & next & _ & _ & ->)|(_ & _ & _ & Hs)]); [by split|].
  destruct Hs as [(_ & -> & ->)|(_ & Hh & ->)]; [by split|]. cbn [s_reader at_rest] in Hh.
  unfold pending in Hrest. apply bytes_ok_app in Hrest as [_ Hrest]. apply handshake_shrinks in Hh as [? Hle]; [|done].
  split; [done|]. unfold pending in *. rewrite !app_nil_l in *. rewrite length_app. lia.
Qed.

(** A message of the trace and its responses, sent as the session has them. *)
Definition answered (it : Item) : Prop :=
  exists ops sasl', answers (protocol_op (it_msg it)) ops /\
    sends (message_id (it_msg it)) (s_sasl (it_session it)) ops (it_sent it) sasl'.

Lemma trace_answered s m items s' m' : trace s m items s' m' -> Forall answered items.
Proof.
  induction 1 as [|s m msg rest sent s1 m1 items s2 m2 Hread Hmsg _ IH]; constructor; [|done].
  apply message_ok in Hmsg as (ops & sasl' & Hans & Hs & _). by exists ops, sasl'.
Qed.

End terminates.
End trace.

(** ** Who the client is *)

Section identity.
  Context `{EntryCodec} `{Base64} `{!UnicodeLower} `{!OpenSsl, !OpenSslLaws} `{!KrbCodec} `{!LdapCodec}.
  Context `{!DerLaw EncApRepPart, !DerLaw ApRep}.
  Context (handshake : list event -> option (list event)) (T : Z -> Prop) (rid_fuel : nat) (app : LdapApp) (tls_configured : bool).
  Context (Hst : connected (la_store app)) (indexed : to_ascii_lowercase ATTR_PRINCIPAL_NAME ∈ la_index_spec app).
  Implicit Types (it : Item) (hist : list Item) (ctx : AcceptedContext).

Definition stored it (F : forest) : Prop := holds (la_store app) (la_index_spec app) F (it_store it).

(** The message brought a token that proves who the client is, by the keys the
    directory then had. *)
Definition token_accepted it ctx : Prop :=
  exists req mechanism tok p, protocol_op (it_msg it) = OpBindRequest req /\ authentication req = Sasl mechanism (Some tok) /\
    head (iter (registry (la_store app))) = Some p /\
    forall F, stored it F -> accepts T (service_keys (la_store app) F (base_dn p)) tok ctx.

(** The message chose a layer in a token made with the key of the context. *)
Definition layer_chosen it ctx (layer : Z) : Prop :=
  exists req, protocol_op (it_msg it) = OpBindRequest req /\ chooses_layer req (session_key ctx) (ctx_enctype ctx) layer.

(** The message brought the password of the entry it names. *)
Definition password_shown it (name : rstring) : Prop :=
  exists req password, protocol_op (it_msg it) = OpBindRequest req /\ simple_bind req password /\ name = bind_name req /\
    forall F, stored it F -> password_matches (la_store app) F name password.

(** Messages of the connection that justify its identity. *)
Definition identified hist (id : rstring) : Prop :=
  (exists it name, it ∈ hist /\ password_shown it name /\ id = str "dn:" ++ name) \/
  (exists it1 it2 ctx layer, it1 ∈ hist /\ it2 ∈ hist /\ token_accepted it1 ctx /\ layer_chosen it2 ctx layer /\ layer ∈ [1; 2; 4] /\
     id = str "u:" ++ client_principal ctx).

(** Messages that justify the negotiation. *)
Definition negotiated hist (s : SaslState) : Prop :=
  match s with
  | SaslNone => True
  | AwaitingApRepAck key e principal | AwaitingSecurityLayerAck key e principal =>
      exists it ctx, it ∈ hist /\ token_accepted it ctx /\ key = session_key ctx /\ e = ctx_enctype ctx /\ principal = client_principal ctx
  | SecurityLayerActive key e sealed _ =>
      exists it1 it2 ctx, it1 ∈ hist /\ it2 ∈ hist /\ token_accepted it1 ctx /\ key = session_key ctx /\ e = ctx_enctype ctx /\
        layer_chosen it2 ctx (if sealed then 4 else 2)
  end.

Definition justified hist (s : Session) : Prop :=
  negotiated hist (s_sasl s) /\ forall id, s_identity s = Some id -> identified hist id.

Lemma negotiated_mono hist hist' s : (forall it, it ∈ hist -> it ∈ hist') -> negotiated hist s -> negotiated hist' s.
Proof.
  intros Hin. destruct s; cbn [negotiated]; [done|intros (it & ctx & Hi & Hrest); exists it, ctx; auto..|].
  intros (it1 & it2 & ctx & Hi1 & Hi2 & Hrest). exists it1, it2, ctx. auto.
Qed.

Lemma identified_mono hist hist' id : (forall it, it ∈ hist -> it ∈ hist') -> identified hist id -> identified hist' id.
Proof. intros Hin [(it & name & Hi & ?)|(it1 & it2 & ctx & layer & Hi1 & Hi2 & ?)]; [left; eauto 10|right; eauto 10]. Qed.

Lemma token_from s m msg sent req ctx m' :
  protocol_op msg = OpBindRequest req -> accepts_token T (la_store app) req m m' ctx -> token_accepted (mkItem s m msg sent) ctx.
Proof.
  intros Hop (mechanism & tok & p & Ha & Hp & Hacc). exists req, mechanism, tok, p. do 3 (split; [done|]). intros F HF.
  by apply (accept_authentic T _ Hst (la_index_spec app) F m HF indexed) in Hacc.
Qed.

Lemma bind_negotiated hist s m msg sent req m' s' :
  protocol_op msg = OpBindRequest req -> negotiated hist s ->
  forall sess, s_sasl sess = s -> state_from T (la_store app) req m m' s s' -> negotiated (mkItem sess m msg sent :: hist) s'.
Proof.
  intros Hop Hneg sess Hsess. set (it := mkItem sess m msg sent).
  assert (forall x, x ∈ hist -> x ∈ it :: hist) as Hin by (intros; by right).
  assert (it ∈ it :: hist) as Hit by (by left).
  destruct s' as [|key e p|key e p|key e sealed seq]; cbn [state_from]; [done| | |].
  - intros (ctx & Hacc & -> & -> & ->). exists it, ctx. split; [done|]. split; [by eapply token_from|done].
  - intros [(ctx & Hacc & -> & -> & ->)| ->]; [|by apply (negotiated_mono hist)].
    exists it, ctx. split; [done|]. split; [by eapply token_from|done].
  - intros [->|(p & layer & -> & Hch & -> & ->)]; [by apply (negotiated_mono hist)|].
    destruct Hneg as (it1 & ctx & Hi1 & Htok & -> & -> & _). exists it1, it, ctx. do 5 (split; [by auto|]). by exists req.
Qed.

Lemma bind_identified hist sess m msg sent req m' id :
  protocol_op msg = OpBindRequest req -> negotiated hist (s_sasl sess) ->
  identity_from T (la_store app) (la_fips app) req m m' (s_sasl sess) id -> identified (mkItem sess m msg sent :: hist) id.
Proof.
  intros Hop Hneg. set (it := mkItem sess m msg sent). assert (it ∈ it :: hist) as Hit by (by left).
  intros [(pw & Hs & -> & Hauth)|(key & e & p & layer & Hs & -> & Hch & Hl)].
  - left. exists it, (bind_name req). split; [done|]. split; [|done]. exists req, pw. do 3 (split; [done|]). intros F HF.
    by destruct (authenticate_simple_runs T _ Hst (la_index_spec app) F m HF _ _ _ _ _ Hauth) as [_ [_ Hpw]].
  - right. rewrite Hs in Hneg. destruct Hneg as (it1 & ctx & Hi1 & Htok & -> & -> & ->). exists it1, it, ctx, layer.
    split; [by right|]. do 2 (split; [done|]). split; [by exists req|done].
Qed.

Lemma sends_negotiated hist id s ops sent s' : sends id s ops sent s' -> negotiated hist s -> negotiated hist s'.
Proof. induction 1; auto. Qed.

Lemma message_justified hist s m msg rest sent s1 m1 :
  justified hist s ->
  runs_at T (handle_message handshake rid_fuel app tls_configured (at_rest s rest) msg) m (sent, Ok s1) m1 ->
  justified (mkItem s m msg sent :: hist) s1.
Proof.
  intros [Hneg Hid] Hr. assert (forall x, x ∈ hist -> x ∈ mkItem s m msg sent :: hist) as Hin by (intros; by right).
  assert (forall id, s_identity s = Some id -> identified (mkItem s m msg sent :: hist) id) as Hold.
  { intros id Hi. by apply (identified_mono hist); [|apply Hid]. }
  apply message_ok in Hr as (ops & sasl' & _ & Hs & [(req & resp & identity & next & Hop & Hb & ->)|(_ & Hsasl & Hident & _)]).
  - cbn [s_sasl at_rest] in Hb. apply bind_effect in Hb as [Hi Hst']. split.
    + by eapply (bind_negotiated hist).
    + cbn [s_identity]. unfold bound_after. cbn [s_identity at_rest]. destruct (bool_decide _); [done|].
      intros id Hx%Hi. by eapply bind_identified.
  - split; [|intros id; rewrite Hident; apply Hold]. rewrite Hsasl. apply (negotiated_mono hist); [done|].
    by apply (sends_negotiated hist) in Hs.
Qed.

(** C10: On every connection, whenever a message is served the identity then
    bound was proved by earlier messages of the same connection: a password that
    matches the hash of the named entry, or an accepted Kerberos token followed
    by a choice of layer in a token made with the key of that context.  A
    security layer in force has the key of a context the client proved and is
    the layer it chose. *)
Theorem session_identity_justified reader m items s1 m1 :
  trace handshake T rid_fuel app tls_configured (new_session reader) m items s1 m1 ->
  justified items s1 /\
  forall before it after, items = before ++ it :: after -> justified before (it_session it).
Proof.
  enough (forall s m items s1 m1, trace handshake T rid_fuel app tls_configured s m items s1 m1 ->
    forall hist, justified hist s -> justified (rev items ++ hist) s1 /\
      forall before it after, items = before ++ it :: after -> justified (rev before ++ hist) (it_session it)) as Hgen.
  { intros Htr. destruct (Hgen _ _ _ _ _ Htr [] ltac:(by split)) as [Hend Hmid].
    assert (forall l s, justified (rev l ++ []) s -> justified l s) as Hrev.
    { intros l s. rewrite app_nil_r. intros [Hn Hi]. assert (forall x, x ∈ rev l -> x ∈ l) as Hin
        by (intros x; by rewrite !list_elem_of_In, <- in_rev).
      split; [by apply (negotiated_mono (rev l))|]. intros id Hx. by apply (identified_mono (rev l)); [|apply Hi]. }
    split; [by apply Hrev|]. intros before it after Heq. by eapply Hrev, Hmid. }
  clear reader m items s1 m1. induction 1 as [|s m msg rest sent s1 m1 items s2 m2 Hread Hmsg _ IH]; intros hist Hj.
  - split; [done|]. by intros [] ? ?.
  - destruct (IH _ (message_justified _ _ _ _ _ _ _ _ Hj Hmsg)) as [Hend Hmid]. cbn [rev]. rewrite <- app_assoc. split; [done|].
    intros [|it0 before] it after [= <- Heq]; [done|]. cbn [rev]. rewrite <- app_assoc. by eapply Hmid.
Qed.
End identity.

(** ** The security layer *)

Definition wrapped_seqs (sent : list Sent) : list Z :=
  omap (fun x => match x with SentWrapped seq _ => Some seq | SentClear _ => None end) sent.

Definition is_clear (x : Sent) : Prop := match x with SentClear _ => True | SentWrapped _ _ => False end.

(** The sequence number of the next wrapped message. *)
Definition next_seq (s : SaslState) : Z := match s with SecurityLayerActive _ _ _ seq => seq | _ => 1 end.

Section layer.
  Context `{EntryCodec} `{Base64} `{!UnicodeLower} `{!OpenSsl, !OpenSslLaws} `{!KrbCodec} `{!LdapCodec}.
  Context (handshake : list event -> option (list event)) (T : Z -> Prop) (rid_fuel : nat) (app : LdapApp) (tls_configured : bool).
  Implicit Types (it : Item).

(** Consecutive numbers from [seq], modulo 2^64. *)
Fixpoint consecutive (seq : Z) (l : list Z) : Prop :=
  match l with [] => True | x :: l' => x = seq /\ consecutive (as_u64 (seq + 1)) l' end.
Fixpoint advance (seq : Z) (n : nat) : Z := match n with O => seq | S n' => advance (as_u64 (seq + 1)) n' end.

Lemma consecutive_app seq l k : consecutive seq l -> consecutive (advance seq (length l)) k -> consecutive seq (l ++ k).
Proof. revert seq. induction l as [|x l IH]; intros seq; [done|]. intros [-> Hl] Hk. split; [done|]. by apply IH. Qed.

(** What the client, with the key of the context, reads of what was sent. *)
Definition opens (key : bytes) (e : Enctype) (id : Z) (op : ProtocolOp) (x : Sent) : Prop :=
  exists seq token plain, x = SentWrapped seq (write_sized_buffer token) /\ ber_encode (mkMessage id op) = Some plain /\
    unwrap e key 22 token = Ok plain /\ zdrop 8 (ztake 16 token) = be_bytes 8 seq.

Lemma wrap_opens conf e key sealed seq plain token :
  zlen key = key_len e -> zlen conf = 16 -> wrap (Some conf) e key 22 sealed seq plain = Ok token ->
  unwrap e key 22 token = Ok plain /\ zdrop 8 (ztake 16 token) = be_bytes 8 seq.
Proof.
  intros Hk Hc Hw. destruct (unwrap_wrapped e key conf 22 seq plain Hk Hc sealed) as (f & ec & body & Hec & Hb & Hw' & Hu).
  assert (token = header f ec [0; 0] (be_bytes 8 seq) ++ body) as -> by congruence. assert (zlen (be_bytes 8 seq) = 8) as Hs by apply zlen_be_bytes.
  split; [apply Hu; [done|apply unrotate_0]|]. rewrite header_take16 by done. by apply header_drop8.
Qed.

Lemma sends_layer id s ops sent s' :
  sends id s ops sent s' ->
  match s with
  | SecurityLayerActive key e sealed seq =>
      s' = SecurityLayerActive key e sealed (advance seq (length (wrapped_seqs sent))) /\ consecutive seq (wrapped_seqs sent) /\
      (zlen key = key_len e -> Forall2 (opens key e id) ops sent)
  | _ => s' = s /\ Forall is_clear sent
  end.
Proof.
  induction 1 as [s|s op b ops sent s' Hs _ _ IH|key e sealed seq op plain conf token ops sent s' Hp Hc Hw _ (-> & IHc & IHo)].
  - destruct s; repeat split; constructor.
  - destruct s as [| | |key e sealed seq]; [..|by destruct (Hs key e sealed seq)];
      destruct IH as [-> IH]; (split; [done|]); by constructor.
  - cbn [wrapped_seqs omap list_omap length advance]. split; [done|]. split; [by split|]. intros Hk. constructor; [|by apply IHo].
    destruct (wrap_opens _ _ _ _ _ _ _ Hk Hc Hw) as [Hu Hq]. by exists seq, token, plain.
Qed.

Lemma clear_no_seqs sent : Forall is_clear sent -> wrapped_seqs sent = [].
Proof. induction 1 as [|[b|seq b] sent Hc _ IH]; [done|exact IH|done]. Qed.

(** No bind arrives through an active layer. *)
Definition no_rebind it : Prop :=
  match s_sasl (it_session it), protocol_op (it_msg it) with SecurityLayerActive _ _ _ _, OpBindRequest _ => False | _, _ => True end.

Lemma message_seqs s rest msg m sent s1 m1 :
  no_rebind (mkItem s m msg sent) ->
  runs_at T (handle_message handshake rid_fuel app tls_configured (at_rest s rest) msg) m (sent, Ok s1) m1 ->
  consecutive (next_seq (s_sasl s)) (wrapped_seqs sent) /\ next_seq (s_sasl s1) = advance (next_seq (s_sasl s)) (length (wrapped_seqs sent)).
Proof.
  intros Hnr Hm. apply message_ok in Hm as (ops & sasl' & _ & Hs%sends_layer & Hcase). cbn [s_sasl at_rest] in Hs.
  destruct Hcase as [(req & resp & identity & next & Hop & Hb & ->)|(_ & -> & _ & _)].
  - unfold no_rebind in Hnr. cbn [it_session it_msg] in Hnr. rewrite Hop in Hnr. cbn [s_sasl]. cbn [s_sasl at_rest] in Hb.
    apply bind_effect in Hb as [_ Hst]. destruct (s_sasl s) as [| | |key e sealed seq]; [..|done];
      destruct Hs as [_ Hs%clear_no_seqs]; rewrite Hs; (split; [done|]); cbn [length advance next_seq];
      (destruct next as [| | |key' e' sealed' seq']; [done..|]); by destruct Hst as [[=]|(? & ? & ? & _ & _ & ->)].
  - destruct (s_sasl s) as [| | |key e sealed seq]; [destruct Hs as [-> Hs%clear_no_seqs]; rewrite Hs; done..|].
    by destruct Hs as (-> & Hc & _).
Qed.

(** A message and its responses, protected as the session has it. *)
Definition protected it : Prop :=
  match s_sasl (it_session it) with
  | SecurityLayerActive key e _ _ =>
      (exists wrapped plain, unwrap e key 24 wrapped = Ok plain /\ ber_decode plain = Some (it_msg it)) /\
      (zlen key = key_len e -> exists ops, answers (protocol_op (it_msg it)) ops /\ Forall2 (opens key e (message_id (it_msg it))) ops (it_sent it))
  | _ => Forall is_clear (it_sent it)
  end.

Lemma message_protected s rest msg m sent s1 m1 :
  read_next_message (la_fips app) s = (Ok (Some msg), rest) ->
  runs_at T (handle_message handshake rid_fuel app tls_configured (at_rest s rest) msg) m (sent, Ok s1) m1 ->
  protected (mkItem s m msg sent).
Proof.
  intros Hread Hm. apply message_ok in Hm as (ops & sasl' & Hans & Hs%sends_layer & _). cbn [s_sasl at_rest] in Hs.
  unfold protected, read_next_message in *. cbn [it_session it_sent it_msg]. destruct (s_sasl s) as [| | |key e sealed seq]; [apply Hs..|].
  split; [|intros Hk; exists ops; split; [done|by apply Hs]].
  destruct (la_fips app); [|done]. cbn [negb] in Hread. destruct (read_sized_buffer _ _) as [r rest'].
  injection Hread as Hr _. destruct r as [[wrapped|]|]; [|done..]. exists wrapped.
  destruct (unwrap e key 24 wrapped) as [plain|]; [|done]. exists plain. cbn in Hr.
  destruct (ber_decode plain); [|done]. by injection Hr as ->.
Qed.

End layer.

(** ** Examples *)

#[local] Existing Instance bit_codec.
#[local] Existing Instance hex_base64.
#[local] Existing Instance ascii_unicode.
#[local] Existing Instance demo_ssl.
#[local] Existing Instance demo_ssl_laws.
#[local] Existing Instance PlainCodec.plain_codec.

(** A codec for the messages of the examples: an id, a kind, a string and an
    optional string in a SEQUENCE.  It stands for no part of the program. *)
Module PlainLdap.
#[local] Existing Instance ser_Z.
#[local] Existing Instance ser_pair.
#[local] Existing Instance ser_list.
#[local] Existing Instance ser_option.

Definition wire_message (id kind : Z) (name : bytes) (value : option bytes) : option bytes :=
  demo_encode (ser (id, kind, name, value)).

Definition request (kind : Z) (name : bytes) (value : option bytes) : ProtocolOp :=
  if kind =? 0 then OpUnbindRequest
  else if kind =? 1 then OpBindRequest (mkBind 3 name (Simple (default [] value)))
  else if kind =? 2 then OpBindRequest (mkBind 3 [] (Sasl name value))
  else if kind =? 3 then OpExtendedReq name value
  else OpUnanswered.

Definition code_number (c : ResultCode) : Z :=
  if bool_decide (c = Success) then 0 else if bool_decide (c = SaslBindInProgress) then 14 else 80.

Definition encode_message (msg : LdapMessage) : option bytes :=
  match protocol_op msg with
  | OpBindResponse r => wire_message (message_id msg) 11 [code_number (br_code r)] (server_sasl_creds r)
  | OpExtendedResp r => wire_message (message_id msg) 13 [code_number (er_code r)] (response_value r)
  | _ => wire_message (message_id msg) 12 [] None
  end.

Definition decode_message (b : bytes) : option LdapMessage :=
  body ← demo_decode b;
  r ← @unser (Z * Z * list Z * option (list Z)) _ body;
  let '(id, kind, name, value) := r.1 in
  match r.2 with [] => Some (mkMessage id (request kind name value)) | _ => None end.

Definition plain_ldap : LdapCodec := {|
  ber_encode := encode_message;
  ber_decode := decode_message;
  decode_passwd_modify _ := None;
|}.
End PlainLdap.
#[local] Existing Instance PlainLdap.plain_ldap.

Definition ex_message (id kind : Z) (name : bytes) (value : option bytes) : bytes := default [] (PlainLdap.wire_message id kind name value).
Definition ex_ldap : LdapApp := mkLdapApp ex_st index_spec true [] None None.
Definition no_tls (reader : list event) : option (list event) := None.
Definition serve_example (reader : list event) (m : kvstore) : list Sent * Ending * kvstore :=
  exec zeros (handle_connection no_tls (S (length (pending reader []))) 1 ex_ldap false (new_session reader)) m.

Lemma serve_example_runs reader m :
  runs_at (fun t => t = 0) (handle_connection no_tls (S (length (pending reader []))) 1 ex_ldap false (new_session reader)) m
    ((serve_example reader m).1.1, (serve_example reader m).1.2) (serve_example reader m).2.
Proof.
  rewrite <- surjective_pairing.
  exact (exec_runs_at (fun t => t = 0) zeros (handle_connection no_tls (S (length (pending reader []))) 1 ex_ldap false (new_session reader))
    m eq_refl zeros_ok).
Qed.

(** A client binds with its password, asks who it is and leaves, its bytes
    arriving in two pieces. *)
Definition login_bytes : bytes :=
  ex_message 1 1 (str "cn=alice,ou=users,dc=g10,dc=lo") (Some (str "correct horse")) ++ ex_message 2 3 WHOAMI_OID None ++ ex_message 3 0 [] None.
Definition login_reader : list event := [Data (ztake 40 login_bytes); Data (zdrop 40 login_bytes)].

Lemma plain_ldap_nonempty : ber_decode [] = None.
Proof. vm_compute. reflexivity. Qed.


(** A client binds with its ticket, chooses confidentiality, and goes on through
    the security layer. *)
Definition gss_key : EncryptionKey := erp_key (tgs_rep_part sso_reply.2).
Definition client_wrap (sealed : bool) (seq : Z) (plain : bytes) : bytes :=
  match wrap (Some (replicate 16 7)) (default Aes256CtsHmacSha1_96 (try_from (ek_type gss_key))) (ek_value gss_key) 24 sealed seq plain with
  | Ok token => token
  | Err _ => []
  end.
Definition gss_handshake : bytes :=
  ex_message 1 2 (str "GSSAPI") (Some (sso_token_for GSS_C_MUTUAL_FLAG sso_reply)) ++
  ex_message 2 2 (str "GSSAPI") (Some []) ++
  ex_message 3 2 (str "GSSAPI") (Some (client_wrap false 0 [4; 255; 255; 255])).
Definition through_layer (seq : Z) (msg : bytes) : bytes := write_sized_buffer (client_wrap true seq msg).
Definition gss_reader : list event :=
  [Data (gss_handshake ++ through_layer 1 (ex_message 4 3 WHOAMI_OID None)); Data (through_layer 2 (ex_message 5 0 [] None))].

(** What is sent: whether it is wrapped, and its number. *)
Definition numbers (sent : list Sent) : list (option Z) :=
  map (fun x => match x with SentWrapped seq _ => Some seq | SentClear _ => None end) sent.

Definition gss_session : list Sent * Ending * kvstore := serve_example gss_reader kdc_store.

Lemma gss_session_trace :
  exists items s1 m1 last, trace no_tls (fun t => t = 0) 1 ex_ldap false (new_session gss_reader) kdc_store items s1 m1 /\
    gss_session.1.1 = concat (map it_sent items) ++ last.
Proof.
  destruct (connection_trace _ _ _ _ _ _ _ _ _ _ _ (serve_example_runs gss_reader kdc_store)) as (items & s1 & m1 & last & Htr & _ & Hs & _).
  exists items, s1, m1, last. split; [exact Htr|exact Hs].
Qed.

Lemma plain_enc_ap_rep_law : DerLaw EncApRepPart.
Proof. apply plain_der_law. Qed.
Lemma plain_ap_rep_law : DerLaw ApRep.
Proof. apply plain_der_law. Qed.
#[local] Existing Instance plain_enc_ap_rep_law.
#[local] Existing Instance plain_ap_rep_law.

Lemma principal_name_indexed : to_ascii_lowercase ATTR_PRINCIPAL_NAME ∈ la_index_spec ex_ldap.
Proof. by_decide. Qed.

Lemma session_identity_justified_witness :
  numbers gss_session.1.1 = [None; None; None; Some 1] /\ gss_session.1.2 = Closed /\
  exists items s1 last, gss_session.1.1 = concat (map it_sent items) ++ last /\ justified (fun t => t = 0) ex_ldap items s1.
Proof.
  split; [vm_compute; reflexivity|]. split; [vm_compute; reflexivity|].
  destruct gss_session_trace as (items & s1 & m1 & last & Htr & Hs).
  exists items, s1, last. split; [exact Hs|].
  exact (proj1 (session_identity_justified no_tls (fun t => t = 0) 1 ex_ldap false ex_st_connected principal_name_indexed
    gss_reader kdc_store items s1 m1 Htr)).
Defined.


(** A bind through the active layer is answered with the counter of a copy of
    the state, so the response after it repeats the sequence number, which a
    client drops as a replay. *)
Definition rebind_reader : list event :=
  [Data (gss_handshake ++ through_layer 1 (ex_message 4 2 (str "GSSAPI") (Some [])) ++ through_layer 2 (ex_message 5 3 WHOAMI_OID None))].

Lemma rebind_repeats_sequence : wrapped_seqs (serve_example rebind_reader kdc_store).1.1 = [1; 1].
Proof. vm_compute. reflexivity. Qed.

(** An anonymous bind through the active layer is answered wrapped, and from then
    on the connection is served in the clear. *)
Definition downgrade_reader : list event :=
  [Data (gss_handshake ++ through_layer 1 (ex_message 4 1 [] None) ++ ex_message 5 3 WHOAMI_OID None)].

Lemma bind_drops_protection : numbers (serve_example downgrade_reader kdc_store).1.1 = [None; None; None; Some 1; None].
Proof. vm_compute. reflexivity. Qed.
