(* ===== verification/Samr.v ===== *)
(** The LSARPC and SAMR handlers, [crates/rpc/src/lsarpc.rs] and
    [crates/rpc/src/samr.rs]. *)

From S2P Require Import Prelude Bytes Str Btree Utf8 Decimal Dn Partition Key Registry Entry Etcd Index Ridpool Store.
From S2P Require Import Sid SecurityDescriptor Md4 BinaryAttrs Ndr.

Inductive CallError := UnknownOpnum | Malformed.

(** [ntstatus]. *)
Definition STATUS_SUCCESS : Z := 0.
Definition STATUS_ACCESS_DENIED : Z := 0xC0000022.
Definition STATUS_USER_EXISTS : Z := 0xC0000063.
Definition STATUS_INTERNAL_DB_ERROR : Z := 0xC0000158.

(** [.ok()?] on a read. *)
Definition run_rd {A} (m : rd A) (stub : bytes) : option A :=
  match m (r_new stub) with Ok (a, _) => Some a | Err _ => None end.

(** ** LSARPC *)

Definition LSA_OPNUM_CLOSE : Z := 0.
Definition LSA_OPNUM_OPEN_POLICY2 : Z := 44.
Definition LSA_OPNUM_QUERY_INFORMATION_POLICY2 : Z := 46.
Definition POLICY_DNS_DOMAIN_INFORMATION : Z := 12.
Definition POLICY_HANDLE : bytes := [76; 83; 65; 0; 1; 0; 0; 0; 0; 0; 0; 0; 0; 0; 0; 0; 0; 0; 0; 0].

Record DomainInfo := mkDomainInfo {
  netbios_name : rstring;
  dns_domain_name : rstring;
  dns_forest_name : rstring;
  domain_sid : Sid;
}.

Definition open_policy2 : bytes := buf (w_u32 0 (w_handle POLICY_HANDLE w_new)).
Definition lsa_close : bytes := buf (w_u32 0 (w_handle (replicate 20 0) w_new)).

Definition w_deferred (s : option rstring) (w : NdrWriter) : NdrWriter :=
  match s with Some s => w_unicode_string_deferred s w | None => w end.

Definition policy_response (info : DomainInfo) : bytes :=
  let w := w_referent_id w_new in
  let w := w_u16 POLICY_DNS_DOMAIN_INFORMATION w in
  let w := w_u16 0 w in
  let '(name, w) := w_unicode_string_header (Some (netbios_name info)) w in
  let '(dns_name, w) := w_unicode_string_header (Some (dns_domain_name info)) w in
  let '(dns_forest, w) := w_unicode_string_header (Some (dns_forest_name info)) w in
  let w := w_bytes (replicate 16 0) w in
  let w := w_referent_id w in
  let w := w_deferred name w in
  let w := w_deferred dns_name w in
  let w := w_deferred dns_forest w in
  let w := w_sid_deferred (domain_sid info) w in
  buf (w_u32 0 w).

Definition query_information_policy2 (stub_data : bytes) (info : DomainInfo) : option bytes :=
  level ← run_rd (_ <-r r_handle ;; r_u16) stub_data;
  if negb (level =? POLICY_DNS_DOMAIN_INFORMATION) then None
  else Some (policy_response info).

(** ** SAMR *)

Definition OPNUM_CLOSE_HANDLE : Z := 1.
Definition OPNUM_LOOKUP_DOMAIN : Z := 5.
Definition OPNUM_OPEN_DOMAIN : Z := 7.
Definition OPNUM_LOOKUP_NAMES : Z := 17.
Definition OPNUM_OPEN_USER : Z := 34.
Definition OPNUM_QUERY_INFORMATION_USER2 : Z := 47.
Definition OPNUM_CREATE_USER2_IN_DOMAIN : Z := 50.
Definition OPNUM_CONNECT5 : Z := 64.

Definition SERVER_HANDLE : bytes := str "SAMR" ++ [1] ++ replicate 15 0.
Definition DOMAIN_HANDLE : bytes := str "SAMR" ++ [2] ++ replicate 15 0.

Definition user_handle (rid : Z) : bytes := str "USR" ++ [0] ++ le_bytes 4 rid ++ replicate 12 0.

Definition rid_from_user_handle (h : bytes) : option Z :=
  if negb (bool_decide (ztake 4 h = str "USR" ++ [0])) then None
  else Some (le_val (ztake 4 (zdrop 4 h))).

Definition connect5 : bytes :=
  buf (w_u32 0 (w_handle SERVER_HANDLE (w_u32 3 (w_u32 1 (w_u32 1 (w_u32 1 w_new)))))).
Definition lookup_domain_in_sam_server (domain_sid : Sid) : bytes :=
  buf (w_u32 0 (w_sid_deferred domain_sid (w_referent_id w_new))).
Definition open_domain : bytes := buf (w_u32 0 (w_handle DOMAIN_HANDLE w_new)).
Definition close_handle : bytes := buf (w_u32 0 (w_handle (replicate 20 0) w_new)).

Definition open_user (stub : bytes) : option bytes :=
  rid ← run_rd (_ <-r r_handle ;; _ <-r r_u32 ;; r_u32) stub;
  Some (buf (w_u32 0 (w_handle (user_handle rid) w_new))).

(** The names of a [SamrLookupNamesInDomain] request. *)
Fixpoint r_names (headers : list (Z * Z)) : rd (list rstring) :=
  match headers with
  | [] => rd_ret []
  | (_, referent) :: hs =>
      name <-r (if negb (referent =? 0) then r_unicode_string_deferred else rd_ret []) ;;
      _ <-r r_pad_to_4 ;;
      names <-r r_names hs ;;
      rd_ret (name :: names)
  end.

Definition r_lookup_names : rd (list rstring) :=
  _ <-r r_handle ;;
  count <-r r_u32 ;;
  _ <-r r_u32 ;;
  _ <-r r_u32 ;;
  _ <-r r_u32 ;;
  headers <-r r_repeat (Z.to_nat count) r_unicode_string_header ;;
  r_names headers.

Definition w_ulong_array (l : list Z) (w : NdrWriter) : NdrWriter :=
  let w := w_u32 (as_u32 (zlen l)) w in
  let w := w_referent_id w in
  let w := w_u32 (as_u32 (zlen l)) w in
  foldl (fun w v => w_u32 v w) w l.

Definition lookup_names_response (found : list (option Z)) : bytes :=
  let rids := map (default 0) found in
  let uses := map (fun f : option Z => match f with Some _ => 1 | None => 0 end) found in
  let w := w_ulong_array uses (w_ulong_array rids w_new) in
  let all_found := forallb (fun r => negb (r =? 0)) rids in
  buf (w_u32 (if all_found then 0 else 0x107) w).

(** The fields of a [SamrCreateUser2InDomain] request; a null name is
    refused. *)
Definition r_create_user : rd (option rstring) :=
  _ <-r r_handle ;;
  h <-r r_unicode_string_header ;;
  if negb (h.2 =? 0) then
    name <-r r_unicode_string_deferred ;;
    _ <-r r_pad_to_4 ;;
    _ <-r r_u32 ;;
    _ <-r r_u32 ;;
    rd_ret (Some name)
  else rd_ret None.

Definition create_user2_response (rid status : Z) : bytes :=
  let ok := status =? STATUS_SUCCESS in
  let w := w_handle (if ok then user_handle rid else replicate 20 0) w_new in
  let w := w_u32 (if ok then 0x2000000 else 0) w in
  buf (w_u32 status (w_u32 rid w)).

Definition query_information_user2 (stub : bytes) : option bytes :=
  h ← run_rd (h <-r r_handle ;; _ <-r r_u16 ;; rd_ret h) stub;
  _ ← rid_from_user_handle h;
  Some (buf (w_u32 0 (w_u32 513 (w_u16 0 (w_u16 9 (w_referent_id w_new)))))).

Record SamrState := mkSamrState { samr_store : Store; samr_base_dn : Dn; index_spec : IndexSpec }.

Section samr.
  Context `{EntryCodec} `{Base64}.

Definition object_rid (entry : Entry) : option Z :=
  vs ← Entry.get entry OBJECT_SID_ATTR;
  v ← head vs;
  sid ← Sid.decode (decode_binary_attr v);
  last (sub_authorities sid).

(** The loop over the DNs an index row gave; a failed read is skipped. *)
Fixpoint first_rid (st : Store) (dns : list Dn) : prog (option Z) :=
  match dns with
  | [] => Ret None
  | dn :: dns' =>
      prog_bind_ (fun r =>
        match r with
        | Ok (Some entry) =>
            match object_rid entry with Some rid => Ret (Some rid) | None => first_rid st dns' end
        | _ => first_rid st dns'
        end) (Store.get_entry st dn)
  end.

Fixpoint lookup_rids (state : SamrState) (names : list rstring) : prog (list (option Z)) :=
  match names with
  | [] => Ret []
  | name :: names' =>
      prog_bind_ (fun dns =>
        prog_bind_ (fun found => prog_bind_ (fun l => Ret (found :: l)) (lookup_rids state names'))
          (first_rid (samr_store state) (match dns with Ok dns => dns | Err _ => [] end)))
        (Store.lookup_by_index (samr_store state) (samr_base_dn state) (str "cn") name)
  end.

Definition lookup_names_in_domain (state : SamrState) (stub : bytes) : prog (option bytes) :=
  match run_rd r_lookup_names stub with
  | None => Ret None
  | Some names => prog_bind_ (fun found => Ret (Some (lookup_names_response found))) (lookup_rids state names)
  end.

Definition computer_entry (domain_sid : Sid) (name : rstring) (rid : Z) : Entry :=
  let object_sid := with_sub_authority domain_sid rid in
  let entry := Entry.set Entry.new (str "objectclass") [str "top"; str "computer"] in
  let entry := Entry.set entry (str "cn") [name] in
  let entry := Entry.set entry OBJECT_SID_ATTR [encode_binary_attr (Sid.encode object_sid)] in
  Entry.set entry NT_SECURITY_DESCRIPTOR_ATTR [encode_binary_attr (default_descriptor domain_sid)].

Definition account_dn (state : SamrState) (name : rstring) : result PartitionError Dn :=
  Dn.parse (str "cn=" ++ name ++ str "," ++ Dn.to_string (samr_base_dn state)).

(** The outer [None]: still waiting for a RID after [fuel] lost races. *)
Definition create_user2_in_domain (fuel : nat) (state : SamrState) (domain_sid : Sid) (stub : bytes)
    : prog (option (option bytes)) :=
  match run_rd r_create_user stub with
  | None | Some None => Ret (Some None)
  | Some (Some name) =>
      match account_dn state name with
      | Err _ => Ret (Some None)
      | Ok dn =>
          prog_bind_ (fun r =>
            match r with
            | Err _ => Ret (Some (Some (create_user2_response 0 STATUS_INTERNAL_DB_ERROR)))
            | Ok None => Ret None
            | Ok (Some rid) =>
                prog_bind_ (fun created =>
                  let status :=
                    match created with
                    | Ok true => STATUS_SUCCESS
                    | Ok false => STATUS_USER_EXISTS
                    | Err _ => STATUS_INTERNAL_DB_ERROR
                    end in
                  Ret (Some (Some (create_user2_response (if status =? STATUS_SUCCESS then rid else 0) status))))
                  (Store.create_entry (samr_store state) dn (computer_entry domain_sid name rid) (index_spec state))
            end) (Store.allocate_rid (samr_store state) dn fuel)
      end
  end.

Definition samr_dispatch (fuel : nat) (state : SamrState) (domain_sid : Sid) (opnum : Z) (stub : bytes)
    : prog (option (result CallError bytes)) :=
  let reply (r : option bytes) := Some (ok_or Malformed r) in
  if opnum =? OPNUM_CONNECT5 then Ret (reply (Some connect5))
  else if opnum =? OPNUM_LOOKUP_DOMAIN then Ret (reply (Some (lookup_domain_in_sam_server domain_sid)))
  else if opnum =? OPNUM_OPEN_DOMAIN then Ret (reply (Some open_domain))
  else if opnum =? OPNUM_LOOKUP_NAMES then prog_bind_ (fun r => Ret (reply r)) (lookup_names_in_domain state stub)
  else if opnum =? OPNUM_CREATE_USER2_IN_DOMAIN then
    prog_bind_ (fun r => Ret (ok_or Malformed <$> r)) (create_user2_in_domain fuel state domain_sid stub)
  else if opnum =? OPNUM_OPEN_USER then Ret (reply (open_user stub))
  else if opnum =? OPNUM_QUERY_INFORMATION_USER2 then Ret (reply (query_information_user2 stub))
  else if opnum =? OPNUM_CLOSE_HANDLE then Ret (reply (Some close_handle))
  else Ret (Some (Err UnknownOpnum)).
End samr.

Lemma run_rd_reads {A} (m : rd A) enc a : reads_at [] m enc a -> run_rd m enc = Some a.
Proof.
  intros Hr. specialize (Hr []). cbn [app] in Hr. rewrite app_nil_r in Hr. change (zlen (@nil Z)) with 0 in Hr.
  unfold run_rd, r_new. by rewrite Hr.
Qed.

(** ** A client reading the policy response *)

(** The deferred part of a string header: nothing behind a null pointer. *)
Definition r_deferred (referent : Z) : rd rstring :=
  if referent =? 0 then rd_ret []
  else s <-r r_unicode_string_deferred ;; _ <-r r_pad_to_4 ;; rd_ret s.

Definition r_policy_response : rd (DomainInfo * Z) :=
  _ <-r r_u32 ;; _ <-r r_u16 ;; _ <-r r_u16 ;;
  h1 <-r r_unicode_string_header ;; h2 <-r r_unicode_string_header ;; h3 <-r r_unicode_string_header ;;
  _ <-r r_bytes 16 ;; _ <-r r_u32 ;;
  name <-r r_deferred h1.2 ;; dns_name <-r r_deferred h2.2 ;; dns_forest <-r r_deferred h3.2 ;;
  sid <-r r_sid_deferred ;;
  status <-r r_u32 ;;
  rd_ret (mkDomainInfo name dns_name dns_forest sid, status).

Definition units_len (s : rstring) : Z := zlen (encode_utf16 s) * 2.

Definition hdr_enc (id : Z) (s : rstring) : bytes :=
  match s with
  | [] => le_bytes 2 0 ++ le_bytes 2 0 ++ le_bytes 4 0
  | _ => le_bytes 2 (units_len s) ++ le_bytes 2 (units_len s) ++ le_bytes 4 id
  end.
Definition next_id (id : Z) (s : rstring) : Z := match s with [] => id | _ => as_u32 (id + 4) end.
Definition opt_str (s : rstring) : option rstring := match s with [] => None | _ => Some s end.
Definition ref_of (id : Z) (s : rstring) : Z := match s with [] => 0 | _ => id end.
Definition deferred_enc (pre : bytes) (s : rstring) : bytes :=
  match s with [] => [] | _ => wstr_enc s ++ pad_enc (pre ++ wstr_enc s) end.

(** A name the 16-bit length field can carry. *)
Definition name_ok (s : rstring) : Prop := str_ok s /\ units_len s < 2 ^ 16.

Lemma w_header_enc s w :
  name_ok s ->
  w_unicode_string_header (Some s) w
  = (opt_str s, mkWriter (buf w ++ hdr_enc (next_referent_id w) s) (next_id (next_referent_id w) s)).
Proof.
  intros [_ Hl]. unfold units_len in Hl. destruct s as [|c s].
  - unfold w_unicode_string_header, w_null_ptr, w_u32, w_u16, w_bytes, hdr_enc. cbn [buf next_referent_id opt_str next_id].
    by rewrite <- !app_assoc.
  - unfold w_unicode_string_header, w_referent_id, w_u32, w_u16, w_bytes, hdr_enc, units_len.
    cbn [buf next_referent_id opt_str next_id]. pose proof (zlen_nonneg (encode_utf16 (c :: s))).
    unfold as_u16. rewrite Z.mod_small by lia. by rewrite <- !app_assoc.
Qed.

Definition hdr_len (s : rstring) : Z := match s with [] => 0 | _ => units_len s end.

Lemma reads_header pre id s :
  name_ok s -> in_u32 id -> reads_at pre r_unicode_string_header (hdr_enc id s) (hdr_len s, ref_of id s).
Proof.
  intros [_ Hl] Hid. unfold r_unicode_string_header. pose proof (zlen_nonneg (encode_utf16 s)).
  assert (in_u16 (units_len s)) as Hu by (unfold in_u16, units_len in *; lia).
  destruct s as [|c s]; cbn [hdr_enc ref_of hdr_len]; rewrite <- (app_nil_r (le_bytes 4 _));
    (eapply reads_bind; [apply reads_u16; done|]); (eapply reads_bind; [apply reads_u16; done|]);
    (eapply reads_bind; [apply reads_u32; done|]); apply reads_ret.
Qed.

Lemma reads_deferred pre pre' id s :
  name_ok s -> 0 < id -> pre' = pre -> reads_at pre (r_deferred (ref_of id s)) (deferred_enc pre' s) s.
Proof.
  intros [Hs Hl] Hid ->. unfold r_deferred, units_len in *. destruct s as [|c s]; cbn [ref_of deferred_enc]; [apply reads_ret|].
  rewrite (proj2 (Z.eqb_neq _ _)) by lia. eapply reads_bind; [apply reads_wstr; [done|lia]|].
  rewrite <- (app_nil_r (pad_enc _)). eapply reads_bind; [apply reads_pad|apply reads_ret].
Qed.

Lemma w_deferred_enc s w :
  name_ok s ->
  w_deferred (opt_str s) w = mkWriter (buf w ++ deferred_enc (buf w) s) (next_referent_id w).
Proof.
  intros [Hs Hl]. unfold units_len in Hl. destruct s as [|c s]; cbn [opt_str w_deferred deferred_enc].
  - rewrite app_nil_r. by destruct w.
  - unfold w_unicode_string_deferred. rewrite w_embedded_wstr_enc by lia. rewrite w_pad_enc.
    cbn [buf next_referent_id]. by rewrite <- app_assoc.
Qed.

Lemma next_id_ok id s : 0 < id < 2 ^ 31 -> 0 < next_id id s < 2 ^ 31 + 4 /\ next_id id s <= id + 4.
Proof. intros Hid. unfold next_id, as_u32. destruct s; [lia|]. rewrite Z.mod_small by lia. lia. Qed.

(** The octets of the policy response: a fixed part and the deferred
    strings, each padded from the start of the stub. *)
Definition policy_fixed (i0 i1 i2 i3 : Z) (n1 n2 n3 : rstring) : bytes :=
  le_bytes 4 FIRST_REFERENT_ID ++ le_bytes 2 POLICY_DNS_DOMAIN_INFORMATION ++ le_bytes 2 0
  ++ hdr_enc i0 n1 ++ hdr_enc i1 n2 ++ hdr_enc i2 n3 ++ replicate 16 0 ++ le_bytes 4 i3.

Definition small_id (i : Z) : Prop := 0 < i < 2 ^ 23.

Lemma policy_response_enc info :
  name_ok (netbios_name info) -> name_ok (dns_domain_name info) -> name_ok (dns_forest_name info) ->
  sid_wire (domain_sid info) ->
  exists i0 i1 i2 i3, small_id i0 /\ small_id i1 /\ small_id i2 /\ small_id i3 /\
    let fixed := policy_fixed i0 i1 i2 i3 (netbios_name info) (dns_domain_name info) (dns_forest_name info) in
    let d1 := deferred_enc fixed (netbios_name info) in
    let d2 := deferred_enc (fixed ++ d1) (dns_domain_name info) in
    let d3 := deferred_enc (fixed ++ d1 ++ d2) (dns_forest_name info) in
    policy_response info = fixed ++ d1 ++ d2 ++ d3 ++ sid_enc (domain_sid info) ++ le_bytes 4 0.
Proof.
  intros H1 H2 H3 Hsid. destruct info as [n1 n2 n3 sid]. cbn [netbios_name dns_domain_name dns_forest_name domain_sid] in *.
  unfold policy_response. cbn [netbios_name dns_domain_name dns_forest_name domain_sid].
  set (i0 := FIRST_REFERENT_ID + 4).
  change (w_u16 0 (w_u16 POLICY_DNS_DOMAIN_INFORMATION (w_referent_id w_new)))
    with (mkWriter (le_bytes 4 FIRST_REFERENT_ID ++ le_bytes 2 POLICY_DNS_DOMAIN_INFORMATION ++ le_bytes 2 0) i0).
  assert (0 < i0 < 2 ^ 20) as Hi0 by (by vm_compute).
  rewrite w_header_enc by done. cbn [buf next_referent_id]. set (i1 := next_id i0 n1).
  assert (0 < i1 < 2 ^ 21) as Hi1 by (destruct (next_id_ok i0 n1); unfold i1; lia).
  rewrite w_header_enc by done. cbn [buf next_referent_id]. set (i2 := next_id i1 n2).
  assert (0 < i2 < 2 ^ 22) as Hi2 by (destruct (next_id_ok i1 n2); unfold i2; lia).
  rewrite w_header_enc by done. cbn [buf next_referent_id]. set (i3 := next_id i2 n3).
  assert (0 < i3 < 2 ^ 23) as Hi3 by (destruct (next_id_ok i2 n3); unfold i3; lia).
  exists i0, i1, i2, i3. unfold small_id. do 4 (split; [lia|]). unfold policy_fixed.
  unfold w_referent_id, w_u32 at 2, w_bytes at 2 3. cbn [buf next_referent_id].
  rewrite !w_deferred_enc by done. cbn [buf next_referent_id].
  rewrite w_sid_deferred_enc by apply Hsid. unfold w_u32, w_bytes. cbn [buf next_referent_id].
  cbn zeta. by rewrite <- !app_assoc.
Qed.

Lemma policy_fixed_len i0 i1 i2 i3 n1 n2 n3 : zlen (policy_fixed i0 i1 i2 i3 n1 n2 n3) = 52.
Proof.
  unfold policy_fixed. rewrite !zlen_app, !zlen_le_bytes.
  assert (forall i s, zlen (hdr_enc i s) = 8) as Hh by (by intros i [|c s]). by rewrite !Hh.
Qed.

Lemma policy_response_reads info :
  name_ok (netbios_name info) -> name_ok (dns_domain_name info) -> name_ok (dns_forest_name info) ->
  sid_wire (domain_sid info) -> reads_at [] r_policy_response (policy_response info) (info, 0).
Proof.
  intros H1 H2 H3 Hsid.
  destruct (policy_response_enc info) as (i0 & i1 & i2 & i3 & Hi0 & Hi1 & Hi2 & Hi3 & ->); [done..|].
  destruct info as [n1 n2 n3 sid]. cbn [netbios_name dns_domain_name dns_forest_name domain_sid] in *.
  unfold small_id in *. set (d1 := deferred_enc _ n1). set (d2 := deferred_enc _ n2). set (d3 := deferred_enc _ n3).
  unfold policy_fixed, r_policy_response. rewrite <- !app_assoc. rewrite <- (app_nil_r (le_bytes 4 0)).
  eapply reads_bind; [by apply reads_u32|]. do 2 (eapply reads_bind; [by apply reads_u16|]).
  do 3 (eapply reads_bind; [apply reads_header; [done|unfold in_u32; lia]|]).
  eapply reads_bind; [by apply reads_bytes|]. eapply reads_bind; [apply reads_u32; unfold in_u32; lia|].
  do 3 (eapply reads_bind; [apply reads_deferred; [done|lia|unfold policy_fixed; cbn [app]; by rewrite <- !app_assoc]|]).
  eapply reads_bind; [by apply reads_sid|]. eapply reads_bind; [by apply reads_u32|]. apply reads_ret.
Qed.

(** A policy query at the DNS-domain level is answered with the domain's own
    names and SID, as a client decodes them; every other level is refused. *)
Theorem policy_query_roundtrip h info :
  zlen h = 20 -> bytes_ok h ->
  name_ok (netbios_name info) -> name_ok (dns_domain_name info) -> name_ok (dns_forest_name info) ->
  sid_wire (domain_sid info) ->
  (exists resp, query_information_policy2 (h ++ le_bytes 2 POLICY_DNS_DOMAIN_INFORMATION) info = Some resp /\
    run_rd r_policy_response resp = Some (info, 0)) /\
  (forall level, in_u16 level -> level <> POLICY_DNS_DOMAIN_INFORMATION ->
    query_information_policy2 (h ++ le_bytes 2 level) info = None).
Proof.
  intros Hh Hb H1 H2 H3 Hs.
  assert (forall level, in_u16 level ->
    run_rd (_ <-r r_handle ;; r_u16) (h ++ le_bytes 2 level) = Some level) as Hlevel.
  { intros level Hl. apply run_rd_reads. eapply reads_bind; [by apply reads_bytes|]. by apply reads_u16. }
  split.
  - exists (policy_response info). split; [unfold query_information_policy2; by rewrite Hlevel|].
    by apply run_rd_reads, policy_response_reads.
  - intros level Hl Hne. unfold query_information_policy2. rewrite Hlevel by done. cbn [mbind option_bind].
    by rewrite (proj2 (Z.eqb_neq _ _)).
Qed.

(** ** Creating an account *)

Section create.
  Context `{EntryCodec} `{Base64}.

Lemma computer_entry_wf sid name rid :
  is_byte (revision sid) -> str_ok name -> entry_wf (computer_entry sid name rid).
Proof.
  intros Hr Hn. unfold computer_entry.
  assert (forall b, bytes_ok b -> Forall str_ok [encode_binary_attr b]) as Hb.
  { intros b Hb. apply Forall_singleton. by apply encode_binary_str_ok. }
  do 2 (apply entry_set_wf;
    [|apply str_ok_str|by apply Hb, encode_bytes_ok || apply Hb, default_descriptor_ok]).
  apply entry_set_wf; [|apply str_ok_str|by apply Forall_singleton].
  apply entry_set_wf; [apply entry_new_wf|apply str_ok_str|].
  apply Forall_cons. split; [|apply Forall_singleton]; apply str_ok_str.
Qed.

Lemma computer_entry_rid sid name rid :
  sid_wire sid -> zlen (sub_authorities sid) <= 254 -> in_u32 rid ->
  object_rid (computer_entry sid name rid) = Some rid.
Proof.
  intros Hs Hl Hr. unfold object_rid, computer_entry. rewrite !get_set.
  change (eq_ignore_ascii_case NT_SECURITY_DESCRIPTOR_ATTR OBJECT_SID_ATTR) with false.
  change (eq_ignore_ascii_case OBJECT_SID_ATTR OBJECT_SID_ATTR) with true. cbn [mbind option_bind head].
  rewrite decode_encode_binary by apply encode_bytes_ok, Hs.
  rewrite decode_encode by (by apply with_sub_authority_wire). cbn [mbind option_bind].
  unfold with_sub_authority. cbn [sub_authorities]. apply last_snoc.
Qed.

(** What a create request may answer and leave behind: the RID and status of
    the response, and the directory the partition then represents. *)
Definition create_user_outcome (pid : PartitionId) (spec : IndexSpec) (D : gmap (list Z) (Dn * Entry))
    (dn : Dn) (e : Entry) (n rid status : Z) (m' : kvstore) : Prop :=
  let D' := <[entry_key pid dn := (dn, e)]> D in
  (status = STATUS_SUCCESS /\ rid = n /\ D !! entry_key pid dn = None /\ repr pid spec D' m') \/
  (status = STATUS_USER_EXISTS /\ rid = 0 /\ D !! entry_key pid dn <> None /\ repr pid spec D m') \/
  (status = STATUS_INTERNAL_DB_ERROR /\ rid = 0 /\
    (repr pid spec D m' \/ D !! entry_key pid dn = None /\ repr pid spec D' m')).

Lemma create_user_runs fuel state sid stub name dn p D m n resp m' :
  run_rd r_create_user stub = Some (Some name) -> account_dn state name = Ok dn ->
  Registry.resolve (registry (samr_store state)) dn = Some p -> p_id p ∈ clients (samr_store state) ->
  valid_id (p_id p) = true ->
  repr (p_id p) (index_spec state) D m -> pool_value (p_id p) m = Some n ->
  dn_ok dn -> str_ok name -> is_byte (revision sid) ->
  runs (create_user2_in_domain fuel state sid stub) m (Some resp) m' ->
  exists rid status, resp = Some (create_user2_response rid status) /\
    create_user_outcome (p_id p) (index_spec state) D dn (computer_entry sid name n) n rid status m'.
Proof.
  intros Hstub Hdn Hp Hc Hid HR Hn Hok Hname Hsid. unfold create_user2_in_domain. rewrite Hstub, Hdn.
  unfold Store.allocate_rid, Store.create_entry. rewrite (in_partition_connected _ _ _ p) by done.
  rewrite runs_bind. intros (r & m1 & Hal & Hrest).
  destruct (allocate_rid_runs _ _ _ _ _ _ Hn Hal) as [Hm1 Hrid].
  assert (repr (p_id p) (index_spec state) D m1) as HR1 by (destruct Hm1 as [->| ->]; auto using repr_pool).
  clear Hal Hm1 HR Hn. destruct r as [[rid|]|er].
  - destruct (Hrid rid eq_refl) as [-> _]. rewrite (in_partition_connected _ _ _ p) in Hrest by done.
    rewrite runs_bind in Hrest. destruct Hrest as (created & m2 & Hcr & Hres). cbn [runs] in Hres.
    destruct Hres as [Hresp ->]. injection Hresp as ->.
    apply (create_refines (p_id p) Hid (index_spec state) D) in Hcr as [Hb Ho];
      [|done..|by apply computer_entry_wf].
    unfold create_user_outcome. destruct created as [[|]|er]; cbn [write_outcome] in Ho.
    + specialize (Hb true eq_refl). symmetry in Hb. rewrite Hb in Ho. apply bool_decide_eq_true in Hb.
      exists n, STATUS_SUCCESS. split; [done|]. left. auto.
    + specialize (Hb false eq_refl). symmetry in Hb. rewrite Hb in Ho. apply bool_decide_eq_false in Hb.
      exists 0, STATUS_USER_EXISTS. split; [done|]. right; left. auto.
    + exists 0, STATUS_INTERNAL_DB_ERROR. split; [done|]. right; right. split; [done|]. split; [done|].
      case_bool_decide; naive_solver.
  - cbn [runs] in Hrest. by destruct Hrest.
  - cbn [runs] in Hrest. destruct Hrest as [Hresp ->]. injection Hresp as ->.
    exists 0, STATUS_INTERNAL_DB_ERROR. split; [done|]. right; right. auto.
Qed.
End create.

Lemma user_handle_rid rid : in_u32 rid -> rid_from_user_handle (user_handle rid) = Some rid.
Proof.
  intros Hr. unfold rid_from_user_handle, user_handle. rewrite (app_assoc (str "USR")).
  rewrite (ztake_app_exact 4), (zdrop_app_exact 4) by done. rewrite bool_decide_true by done. cbn [negb].
  rewrite ztake_app_exact by (unfold zlen; by rewrite length_le_bytes).
  rewrite le_val_le_bytes. f_equal. apply Z.mod_small. exact Hr.
Qed.

(** The handle of a response is the user handle of its RID, so a client gets
    back from it the RID the account was given. *)
Lemma create_user2_response_handle rid :
  in_u32 rid -> rid_from_user_handle (ztake 20 (create_user2_response rid STATUS_SUCCESS)) = Some rid.
Proof.
  intros Hr. change (create_user2_response rid STATUS_SUCCESS)
    with (((user_handle rid ++ le_bytes 4 0x2000000) ++ le_bytes 4 rid) ++ le_bytes 4 0).
  rewrite <- !app_assoc, ztake_app_exact by done.
  by apply user_handle_rid.
Qed.

(** C28: Account creation over SAMR is atomic and truthful: whatever the service
    answers, a success status means that the DN was free, that the account is
    now there with its indexes, that its SID ends in the RID taken from the
    pool and that the returned handle denotes that RID; a collision leaves the
    existing account as it was; an internal error leaves either nothing or the
    whole account. *)
Theorem create_user2_correct `{EntryCodec} `{Base64} fuel state sid stub name dn p D m n resp m' :
  run_rd r_create_user stub = Some (Some name) -> account_dn state name = Ok dn ->
  Registry.resolve (registry (samr_store state)) dn = Some p -> p_id p ∈ clients (samr_store state) ->
  valid_id (p_id p) = true ->
  repr (p_id p) (index_spec state) D m -> pool_value (p_id p) m = Some n ->
  dn_ok dn -> str_ok name -> sid_wire sid -> zlen (sub_authorities sid) <= 254 ->
  runs (create_user2_in_domain fuel state sid stub) m (Some resp) m' ->
  let e := computer_entry sid name n in
  object_rid e = Some n /\
  rid_from_user_handle (ztake 20 (create_user2_response n STATUS_SUCCESS)) = Some n /\
  exists rid status, resp = Some (create_user2_response rid status) /\
    create_user_outcome (p_id p) (index_spec state) D dn e n rid status m'.
Proof.
  intros Hstub Hdn Hp Hc Hid HR Hn Hok Hname Hsid Hl Hrun e.
  pose proof (pool_value_u32 _ _ _ Hn) as Hu.
  split; [by apply computer_entry_rid|]. split; [by apply create_user2_response_handle|].
  eapply create_user_runs; try done. apply Hsid.
Qed.

(** ** Witnesses *)

Definition ex_domain_sid : Sid := mkSid 1 5 [21; 1; 2; 3].
Definition ex_info : DomainInfo := mkDomainInfo (str "G10") (str "g10.lo") (str "g10.lo") ex_domain_sid.

Definition ex_create_stub : bytes :=
  let w := w_handle DOMAIN_HANDLE w_new in
  let '(_, w) := w_unicode_string_header (Some (str "ws1$")) w in
  let w := w_unicode_string_deferred (str "ws1$") w in
  buf (w_u32 0 (w_u32 0x80 w)).

Definition ex_samr : SamrState := mkSamrState ex_st users ex_spec.
Definition ex_ws1 : Dn := dn_of (str "cn=ws1$,ou=Users,dc=G10,dc=lo").

Lemma ex_ws1_ok : dn_ok ex_ws1.
Proof.
  constructor; [by apply dn_wfb_sound|].
  change (Dn.to_string ex_ws1) with (str "cn=ws1$,ou=Users,dc=G10,dc=lo"). apply str_ok_str.
Qed.

Lemma policy_query_roundtrip_witness :
  exists resp, query_information_policy2 (POLICY_HANDLE ++ le_bytes 2 12) ex_info = Some resp /\
    run_rd r_policy_response resp = Some (ex_info, 0).
Proof.
  apply (policy_query_roundtrip POLICY_HANDLE ex_info); try done; try (by split; [apply str_ok_str|]).
  - by repeat constructor.
  - by apply sid_wireb_spec.
Defined.

Lemma create_user2_correct_witness :
  let e := @computer_entry hex_base64 ex_domain_sid (str "ws1$") 1000 in
  let r := exec zeros (@create_user2_in_domain bit_codec hex_base64 1 ex_samr ex_domain_sid ex_create_stub) ex_store in
  exists rid status, r.1 = Some (Some (create_user2_response rid status)) /\
    @create_user_outcome bit_codec (str "g10") ex_spec ex_dir ex_ws1 e 1000 rid status r.2.
Proof.
  intros e r.
  pose proof (exec_runs zeros (@create_user2_in_domain bit_codec hex_base64 1 ex_samr ex_domain_sid ex_create_stub)
    ex_store zeros_ok) as Hrun. fold r in Hrun.
  assert (match r.1 with Some _ => true | None => false end = true) as Hsome by (vm_compute; reflexivity).
  destruct r.1 as [resp|] eqn:Hresp; [|discriminate Hsome]. clear Hsome. clearbody r.
  assert (p_id <$> Registry.resolve (registry ex_st) ex_ws1 = Some (str "g10")) as Hid by (vm_compute; reflexivity).
  destruct (Registry.resolve (registry ex_st) ex_ws1) as [p|] eqn:E; [|discriminate Hid].
  injection Hid as Hid.
  pose proof (@create_user2_correct bit_codec hex_base64 1 ex_samr ex_domain_sid ex_create_stub (str "ws1$") ex_ws1 p
    ex_dir ex_store 1000 resp r.2 ltac:(vm_compute; reflexivity) ltac:(vm_compute; reflexivity) E) as Hcorrect.
  rewrite Hid in Hcorrect.
  destruct (Hcorrect ltac:(by_decide) ltac:(reflexivity) ex_store_repr ltac:(vm_compute; reflexivity)
    ex_ws1_ok (str_ok_str _) (proj1 (sid_wireb_spec ex_domain_sid) eq_refl) ltac:(vm_compute; discriminate) Hrun)
    as (_ & _ & rid & status & -> & Ho).
  exists rid, status. split; [reflexivity|exact Ho].
Defined.

(** The account name is pasted into the DN without escaping: a name with a
    comma creates the account in another container than the one the server
    is configured with. *)
Theorem account_name_escapes_container :
  account_dn ex_samr (str "x,ou=admins") = Ok (dn_of (str "cn=x,ou=admins,ou=Users,dc=G10,dc=lo")) /\
  Dn.parent (dn_of (str "cn=x,ou=admins,ou=Users,dc=G10,dc=lo")) <> Some (samr_base_dn ex_samr).
Proof. split; [vm_compute; reflexivity|vm_compute; discriminate]. Qed.
