(* ===== verification/Netlogon.v ===== *)
(** The NETLOGON secure-channel handshake: the server half of
    [crates/rpc/src/netlogon.rs] and the client half of
    [crates/simulate/src/netlogon_client.rs], with the AES-CFB8 helper of
    [crates/crypto/src/aead.rs] and [hmac_sha256] of
    [crates/crypto/src/hmac.rs]. *)

From S2P Require Import Prelude Bytes Str Btree Utf8 Decimal Dn Partition Key Registry Entry Etcd Index Ridpool Store.
From S2P Require Import Directory Sid Md4 Kerberos Password Ndr Samr.

Definition OPNUM_SERVER_REQ_CHALLENGE : Z := 4.
Definition OPNUM_SERVER_AUTHENTICATE3 : Z := 26.
Definition NETLOGON_NEG_SUPPORTS_AES : Z := 0x1000000.
Definition NTOWF_ATTR : rstring := str "netlogonntowf".

(** OpenSSL's AES-128-CFB8: key, IV, data and direction. *)
Class Cfb8 := { cfb8 : bytes -> bytes -> bytes -> bool -> option bytes }.

(** It is a stream mode: the output has the input's length. *)
Class Cfb8Laws `{!Cfb8} := {
  cfb8_total key iv data enc : zlen key = 16 -> zlen iv = 16 ->
    exists out, cfb8 key iv data enc = Some out /\ zlen out = zlen data;
}.

Record NetlogonState := mkNetlogonState { nl_store : Store; nl_base_dn : Dn }.

(** The challenges of this connection, the client's first. *)
Definition Session : Type := option (bytes * bytes).
Definition session_default : Session := None.

(** [trim_end_matches('\0')]. *)
Fixpoint trim_nul_start (s : rstring) : rstring :=
  match s with c :: s' => if c =? 0 then trim_nul_start s' else s | [] => [] end.
Definition trim_end_nul (s : rstring) : rstring := rev (trim_nul_start (rev s)).

Section crypto.
  Context `{!OpenSsl, !Cfb8}.

Definition aes128_cfb8 (key iv data : bytes) (encrypt : bool) : result Error bytes :=
  ok_or Ossl (cfb8 key iv data encrypt).
Definition aes128_cfb8_encrypt (key data : bytes) : result Error bytes :=
  aes128_cfb8 key (replicate 16 0) data true.

Definition hmac_sha256 (key data : bytes) : result Error bytes := ok_or Ossl (mac HmacSha2_256 key data).

Definition compute_session_key_aes (ntowf client_challenge server_challenge : bytes) : result Error bytes :=
  full ← hmac_sha256 ntowf (client_challenge ++ server_challenge);
  Ok (ztake 16 full).

Definition compute_credential (session_key challenge : bytes) : result Error bytes :=
  out ← aes128_cfb8_encrypt session_key challenge;
  Ok (ztake 8 out).
End crypto.

(** The parameter both requests start with. *)
Definition r_primary_name : rd unit :=
  referent <-r r_u32 ;;
  if negb (referent =? 0) then _ <-r r_unicode_string_deferred ;; r_pad_to_4 else rd_ret tt.

Definition r_challenge_request : rd bytes :=
  _ <-r r_primary_name ;;
  _ <-r r_embedded_wstr ;;
  r_bytes 8.

(** [server_challenge[0] ^= 0xFF]. *)
Definition server_challenge_of (client_challenge : bytes) : bytes :=
  match client_challenge with
  | b :: rest => Z.lxor b 255 :: rest
  | [] => []
  end.

(** The response and the session it leaves; a stub that does not decode
    leaves the session alone. *)
Definition server_req_challenge (stub : bytes) : option (bytes * Session) :=
  client_challenge ← run_rd r_challenge_request stub;
  let server_challenge := server_challenge_of client_challenge in
  Some (buf (w_u32 0 (w_bytes server_challenge w_new)), Some (client_challenge, server_challenge)).

(** Account name, client credential and negotiate flags. *)
Definition r_authenticate_request : rd (rstring * bytes * Z) :=
  _ <-r r_primary_name ;;
  account_name <-r r_embedded_wstr ;;
  _ <-r r_u16 ;;
  _ <-r r_pad_to_4 ;;
  _ <-r r_embedded_wstr ;;
  client_credential <-r r_bytes 8 ;;
  negotiate_flags <-r r_u32 ;;
  rd_ret (account_name, client_credential, negotiate_flags).

(** Why an account is refused (the log line). *)
Inductive DenyReason :=
| NoChallenge
| NoAes (flags : Z)
| LookupFailed
| NoSuchAccount
| SharedName (n : Z)
| ReadFailed
| IndexedButMissing
| NoSecret
| BadSecret
| CryptoFailed (e : Error)
| CredentialMismatch.

Section server.
  Context `{EntryCodec} `{!OpenSsl, !Cfb8}.

(** The check of the credential against the stored secret.  The outer [None]
    is a panic in [hex_decode]. *)
Definition verify_secret (entry : Entry) (client_challenge server_challenge client_credential : bytes)
    : option (result DenyReason bytes) :=
  match Entry.get entry NTOWF_ATTR ≫= head with
  | None => Some (Err NoSecret)
  | Some ntowf_hex =>
      match from_hex ntowf_hex with
      | None => None
      | Some decoded =>
          Some (ntowf ← match decoded with
                        | Some b => if zlen b =? 16 then Ok b else Err BadSecret
                        | None => Err BadSecret
                        end;
                session_key ← map_err CryptoFailed (compute_session_key_aes ntowf client_challenge server_challenge);
                expected ← map_err CryptoFailed (compute_credential session_key client_challenge);
                if negb (bool_decide (expected = client_credential)) then Err CredentialMismatch
                else map_err CryptoFailed (compute_credential session_key server_challenge))
      end
  end.

Definition authenticate (state : NetlogonState) (session : Session) (account_name client_credential : bytes)
    (negotiate_flags : Z) : prog (option (result DenyReason bytes)) :=
  match session with
  | None => Ret (Some (Err NoChallenge))
  | Some (client_challenge, server_challenge) =>
      if Z.land negotiate_flags NETLOGON_NEG_SUPPORTS_AES =? 0 then Ret (Some (Err (NoAes negotiate_flags)))
      else
        prog_bind_ (fun dns =>
          match dns with
          | Err _ => Ret (Some (Err LookupFailed))
          | Ok [dn] =>
              prog_bind_ (fun found =>
                match found with
                | Err _ => Ret (Some (Err ReadFailed))
                | Ok None => Ret (Some (Err IndexedButMissing))
                | Ok (Some entry) => Ret (verify_secret entry client_challenge server_challenge client_credential)
                end) (Store.get_entry (nl_store state) dn)
          | Ok [] => Ret (Some (Err NoSuchAccount))
          | Ok many => Ret (Some (Err (SharedName (zlen many))))
          end) (Store.lookup_by_index (nl_store state) (nl_base_dn state) (str "cn") account_name)
  end.

Definition authenticate_response (negotiate_flags : Z) (r : result DenyReason bytes) : bytes :=
  buf (match r with
       | Ok server_credential =>
           w_u32 STATUS_SUCCESS (w_u32 0 (w_u32 negotiate_flags (w_bytes server_credential w_new)))
       | Err _ => w_u32 STATUS_ACCESS_DENIED (w_u32 0 (w_u32 0 (w_bytes (replicate 8 0) w_new)))
       end).

(** The outer [None] is a panic, the inner one a stub that does not decode. *)
Definition server_authenticate3 (state : NetlogonState) (session : Session) (stub : bytes)
    : prog (option (option bytes)) :=
  match run_rd r_authenticate_request stub with
  | None => Ret (Some None)
  | Some (account_name, client_credential, negotiate_flags) =>
      prog_bind_ (fun r => Ret ((fun r => Some (authenticate_response negotiate_flags r)) <$> r))
        (authenticate state session (trim_end_nul account_name) client_credential negotiate_flags)
  end.

(** [dispatch] with the session it leaves; [None] is a panic. *)
Definition netlogon_dispatch (state : NetlogonState) (session : Session) (opnum : Z) (stub : bytes)
    : prog (option (result CallError bytes * Session)) :=
  if opnum =? OPNUM_SERVER_REQ_CHALLENGE then
    Ret (Some (match server_req_challenge stub with
               | Some (resp, session') => (Ok resp, session')
               | None => (Err Malformed, session)
               end))
  else if opnum =? OPNUM_SERVER_AUTHENTICATE3 then
    prog_bind_ (fun r => Ret ((fun resp => (ok_or Malformed resp, session)) <$> r))
      (server_authenticate3 state session stub)
  else Ret (Some (Err UnknownOpnum, session)).
End server.

(** ** The client *)

Inductive RpcClientError :=
| Io
| BindRejected
| ClientMalformed
| Fault (status : Z)
| Status (status : Z)
| ConnectionClosed.

(** [r.x().map_err(|_| m())?] for a sequence of reads. *)
Definition client_read {A} (m : rd A) (resp : bytes) : result RpcClientError A :=
  ok_or ClientMalformed (run_rd m resp).

Definition req_challenge_stub (computer_name client_challenge : bytes) : bytes :=
  buf (w_bytes client_challenge (w_embedded_wstr computer_name (w_null_ptr w_new))).

Definition req_challenge_result (resp : bytes) : result RpcClientError bytes :=
  fields ← client_read (c <-r r_bytes 8 ;; s <-r r_u32 ;; rd_ret (c, s)) resp;
  let '(server_challenge, status) := fields in
  if negb (status =? 0) then Err (Status status) else Ok server_challenge.

Section client.
  Context `{!OpenSsl, !Cfb8}.

Definition authenticate3_stub (account_name computer_name ntowf client_challenge server_challenge : bytes)
    : result RpcClientError bytes :=
  session_key ← map_err (fun _ => ClientMalformed) (compute_session_key_aes ntowf client_challenge server_challenge);
  client_credential ← map_err (fun _ => ClientMalformed) (compute_credential session_key client_challenge);
  let w := w_embedded_wstr account_name (w_null_ptr w_new) in
  let w := w_pad_to_4 (w_u16 2 w) in
  let w := w_bytes client_credential (w_embedded_wstr computer_name w) in
  Ok (buf (w_u32 NETLOGON_NEG_SUPPORTS_AES w)).

Definition authenticate3_result (ntowf client_challenge server_challenge resp : bytes)
    : result RpcClientError bytes :=
  session_key ← map_err (fun _ => ClientMalformed) (compute_session_key_aes ntowf client_challenge server_challenge);
  fields ← client_read (c <-r r_bytes 8 ;; _ <-r r_u32 ;; _ <-r r_u32 ;; s <-r r_u32 ;; rd_ret (c, s)) resp;
  let '(server_credential, status) := fields in
  if negb (status =? 0) then Err (Status status)
  else
    expected ← map_err (fun _ => ClientMalformed) (compute_credential session_key server_challenge);
    if negb (bool_decide (expected = server_credential)) then Err ClientMalformed else Ok session_key.
End client.

(** ** The two halves agree *)

Definition wide_ok (s : rstring) : Prop := str_ok s /\ zlen (encode_utf16 s) < 2 ^ 32.

Lemma reads_primary_null pre : reads_at pre r_primary_name (le_bytes 4 0) tt.
Proof.
  rewrite <- (app_nil_r (le_bytes 4 0)). eapply reads_bind; [by apply reads_u32|]. apply reads_ret.
Qed.

Lemma req_challenge_reads name cc :
  wide_ok name -> zlen cc = 8 -> run_rd r_challenge_request (req_challenge_stub name cc) = Some cc.
Proof.
  intros [Hs Hl] Hcc. apply run_rd_reads. unfold req_challenge_stub. rewrite w_embedded_wstr_enc by done.
  change (buf (w_bytes cc ?w)) with (buf w ++ cc). cbn [buf]. rewrite <- app_assoc.
  eapply reads_bind; [apply reads_primary_null|]. eapply reads_bind; [by apply reads_wstr|]. by apply reads_bytes.
Qed.

Definition auth_stub (account computer cred : bytes) (flags : Z) : bytes :=
  let w := w_embedded_wstr account (w_null_ptr w_new) in
  let w := w_pad_to_4 (w_u16 2 w) in
  buf (w_u32 flags (w_bytes cred (w_embedded_wstr computer w))).

Lemma reads_pad_eq pre pre' : pre' = pre -> reads_at pre r_pad_to_4 (pad_enc pre') tt.
Proof. intros ->. apply reads_pad. Qed.

Lemma auth_stub_reads account computer cred flags :
  wide_ok account -> wide_ok computer -> zlen cred = 8 -> in_u32 flags ->
  run_rd r_authenticate_request (auth_stub account computer cred flags) = Some (account, cred, flags).
Proof.
  intros [Ha Hal] [Hc Hcl] Hcr Hf. apply run_rd_reads. unfold auth_stub.
  rewrite w_embedded_wstr_enc by done. rewrite w_pad_enc. rewrite w_embedded_wstr_enc by done.
  change (buf (w_null_ptr w_new)) with (le_bytes 4 0). unfold w_u32, w_u16, w_bytes. cbn [buf next_referent_id].
  rewrite <- !app_assoc. rewrite <- (app_nil_r (le_bytes 4 flags)).
  eapply reads_bind; [apply reads_primary_null|]. eapply reads_bind; [by apply reads_wstr|].
  eapply reads_bind; [by apply reads_u16|].
  eapply reads_bind; [apply reads_pad_eq; cbn [app]; by rewrite <- ?app_assoc|].
  eapply reads_bind; [by apply reads_wstr|]. eapply reads_bind; [by apply reads_bytes|].
  eapply reads_bind; [by apply reads_u32|]. apply reads_ret.
Qed.

Lemma challenge_response_reads sc :
  zlen sc = 8 -> req_challenge_result (buf (w_u32 0 (w_bytes sc w_new))) = Ok sc.
Proof.
  intros Hsc. unfold req_challenge_result, client_read.
  rewrite (run_rd_reads _ _ (sc, 0)); [done|]. change (buf (w_u32 0 (w_bytes sc w_new))) with (sc ++ le_bytes 4 0).
  rewrite <- (app_nil_r (le_bytes 4 0)).
  eapply reads_bind; [by apply reads_bytes|]. eapply reads_bind; [by apply reads_u32|]. apply reads_ret.
Qed.

Lemma auth_response_reads cred flags a st :
  zlen cred = 8 -> in_u32 flags -> in_u32 a -> in_u32 st ->
  run_rd (c <-r r_bytes 8 ;; _ <-r r_u32 ;; _ <-r r_u32 ;; s <-r r_u32 ;; rd_ret (c, s))
    (buf (w_u32 st (w_u32 a (w_u32 flags (w_bytes cred w_new))))) = Some (cred, st).
Proof.
  intros Hc Hf Ha Hs. apply run_rd_reads.
  change (buf (w_u32 st (w_u32 a (w_u32 flags (w_bytes cred w_new)))))
    with (((cred ++ le_bytes 4 flags) ++ le_bytes 4 a) ++ le_bytes 4 st).
  rewrite <- !app_assoc. rewrite <- (app_nil_r (le_bytes 4 st)).
  eapply reads_bind; [by apply reads_bytes|]. do 3 (eapply reads_bind; [by apply reads_u32|]). apply reads_ret.
Qed.

Lemma server_challenge_len cc : zlen (server_challenge_of cc) = zlen cc.
Proof. by destruct cc. Qed.

Section handshake.
  Context `{!OpenSsl, !OpenSslLaws, !Cfb8, !Cfb8Laws}.

Lemma session_key_total ntowf cc sc :
  exists k, compute_session_key_aes ntowf cc sc = Ok k /\ zlen k = 16.
Proof.
  unfold compute_session_key_aes, hmac_sha256. destruct (mac_total HmacSha2_256 ntowf (cc ++ sc)) as (t & -> & Ht & _).
  exists (ztake 16 t). split; [done|]. cbn in Ht. rewrite zlen_ztake; [done|]. lia.
Qed.

Lemma credential_total k c :
  zlen k = 16 -> zlen c = 8 -> exists x, compute_credential k c = Ok x /\ zlen x = 8.
Proof.
  intros Hk Hc. unfold compute_credential, aes128_cfb8_encrypt, aes128_cfb8.
  destruct (cfb8_total k (replicate 16 0) c true Hk eq_refl) as (o & -> & Ho).
  exists (ztake 8 o). split; [done|]. rewrite zlen_ztake; lia.
Qed.

Lemma authenticate3_stub_ok account computer ntowf cc sc :
  zlen cc = 8 ->
  exists k cred, compute_session_key_aes ntowf cc sc = Ok k /\ zlen k = 16 /\
    compute_credential k cc = Ok cred /\ zlen cred = 8 /\
    authenticate3_stub account computer ntowf cc sc = Ok (auth_stub account computer cred NETLOGON_NEG_SUPPORTS_AES).
Proof.
  intros Hcc. destruct (session_key_total ntowf cc sc) as (k & Hk & Hkl).
  destruct (credential_total k cc Hkl Hcc) as (cred & Hc & Hcl). exists k, cred.
  unfold authenticate3_stub. rewrite Hk. cbn [map_err mbind result_bind]. rewrite Hc. done.
Qed.

Lemma authenticate3_result_ok ntowf cc sc k x flags :
  zlen sc = 8 -> compute_session_key_aes ntowf cc sc = Ok k -> compute_credential k sc = Ok x -> zlen x = 8 ->
  in_u32 flags ->
  authenticate3_result ntowf cc sc (authenticate_response flags (Ok x)) = Ok k.
Proof.
  intros Hsc Hk Hx Hxl Hf. unfold authenticate3_result, client_read, authenticate_response.
  rewrite Hk. cbn [map_err mbind result_bind]. rewrite auth_response_reads by done.
  cbn [ok_or mbind result_bind negb]. change (STATUS_SUCCESS =? 0) with true. cbn [negb].
  rewrite Hx. cbn [map_err mbind result_bind]. by rewrite bool_decide_true.
Qed.
End handshake.

Section authenticate.
  Context `{EntryCodec} `{!OpenSsl, !Cfb8}.
  Context (state : NetlogonState) (Hst : connected (nl_store state)) (spec : IndexSpec) (Hcn : str "cn" ∈ spec).

(** What a successful check of the secret means. *)
Definition secret_proof (e : Entry) (cc sc cred x : bytes) : Prop :=
  exists ntowf_hex ntowf key,
    Entry.get e NTOWF_ATTR ≫= head = Some ntowf_hex /\ from_hex ntowf_hex = Some (Some ntowf) /\ zlen ntowf = 16 /\
    compute_session_key_aes ntowf cc sc = Ok key /\
    compute_credential key cc = Ok cred /\ compute_credential key sc = Ok x.

Lemma map_err_ok {E E' A} (f : E -> E') (r : result E A) a : map_err f r = Ok a <-> r = Ok a.
Proof. destruct r; simpl; split; congruence. Qed.

Lemma verify_secret_spec e cc sc cred x :
  verify_secret e cc sc cred = Some (Ok x) <-> secret_proof e cc sc cred x.
Proof.
  unfold verify_secret, secret_proof. destruct (Entry.get e NTOWF_ATTR ≫= head) as [h|]; [|naive_solver].
  destruct (from_hex h) as [d|] eqn:Hd; [|split; [done|]; intros (? & ? & ? & [= <-] & ? & _); congruence].
  split.
  - intros [= Hr]. destruct d as [b|]; [|done]. cbn [mbind result_bind] in Hr.
    destruct (Z.eqb_spec (zlen b) 16); [|done]. cbn [mbind result_bind] in Hr.
    apply bind_ok in Hr as (key & Hk%map_err_ok & Hr). apply bind_ok in Hr as (c & Hc%map_err_ok & Hr).
    case_bool_decide as Hcc; [|done]. cbn [negb] in Hr. apply map_err_ok in Hr. subst c. by exists h, b, key.
  - intros (? & b & key & [= <-] & Hfh & Hl & Hk & Hc & Hx). rewrite Hd in Hfh. injection Hfh as ->.
    f_equal. rewrite Hl. change (16 =? 16) with true. cbn [mbind result_bind].
    rewrite Hk. cbn [map_err mbind result_bind]. rewrite Hc. cbn [map_err mbind result_bind].
    rewrite bool_decide_true by done. cbn [negb]. by rewrite Hx.
Qed.

Lemma authenticate_runs F m session account cred flags r m' :
  holds (nl_store state) spec F m ->
  runs (authenticate state session account cred flags) m r m' ->
  m' = m /\ forall x, r = Some (Ok x) ->
    exists cc sc dn dn' e, session = Some (cc, sc) /\ Z.land flags NETLOGON_NEG_SUPPORTS_AES <> 0 /\
      (forall d, indexed_dn (nl_store state) F (nl_base_dn state) (str "cn") account d <-> d = dn) /\
      find_entry (nl_store state) F dn = Some (dn', e) /\ secret_proof e cc sc cred x.
Proof.
  intros HF. unfold authenticate. destruct session as [[cc sc]|]; [|by intros [-> ->]].
  destruct (Z.eqb_spec (Z.land flags NETLOGON_NEG_SUPPORTS_AES) 0) as [Hz|Hnz]; [by intros [-> ->]|].
  rewrite runs_bind. intros (dns & m1 & Hl & Hr). apply (lookup_runs _ Hst spec F) in Hl as [-> Hl]; [|done..].
  destruct Hl as [[er ->]|(l & -> & Hnd & Hl)]; [by destruct Hr as [-> ->]|].
  destruct l as [|dn [|d2 l]]; [by destruct Hr as [-> ->]| |by destruct Hr as [-> ->]].
  rewrite runs_bind in Hr. destruct Hr as (found & m2 & Hg & Hr).
  apply (get_entry_runs _ Hst spec F) in Hg as [-> Hg]; [|done].
  destruct Hg as [->|[er ->]]; [|by destruct Hr as [-> ->]].
  destruct (find_entry (nl_store state) F dn) as [[dn' e]|] eqn:Hf; cbn [fmap option_fmap option_map snd] in Hr;
    [|by destruct Hr as [-> ->]].
  destruct Hr as [-> ->]. split; [done|]. intros x Hx%verify_secret_spec.
  exists cc, sc, dn, dn', e. split; [done|]. split; [done|]. split; [|done].
  intros d. rewrite <- Hl. set_solver.
Qed.

Lemma authenticate_exec F m p account cred flags cc sc dn dn' e x :
  holds (nl_store state) spec F m -> Registry.resolve (registry (nl_store state)) (nl_base_dn state) = Some p ->
  Z.land flags NETLOGON_NEG_SUPPORTS_AES <> 0 ->
  (forall d, indexed_dn (nl_store state) F (nl_base_dn state) (str "cn") account d <-> d = dn) ->
  find_entry (nl_store state) F dn = Some (dn', e) -> secret_proof e cc sc cred x ->
  exec zeros (authenticate state (Some (cc, sc)) account cred flags) m = (Some (Ok x), m).
Proof.
  intros HF Hp Hfl Hdn Hf Hx. unfold authenticate. rewrite (proj2 (Z.eqb_neq _ _)) by done.
  destruct (lookup_exec _ Hst spec F m (nl_base_dn state) (str "cn") account p) as (l & Hl & Hnd & Hel); [done..|].
  rewrite exec_bind, Hl. assert (l = [dn]) as ->.
  { assert (forall d, d ∈ l <-> d = dn) as Hone by (intros d; by rewrite Hel).
    destruct l as [|a [|b l]].
    - exfalso. destruct (Hone dn) as [_ Hin]. specialize (Hin eq_refl). by apply elem_of_nil in Hin.
    - f_equal. apply Hone. by left.
    - exfalso. pose proof (proj1 (Hone a) ltac:(set_solver)). pose proof (proj1 (Hone b) ltac:(set_solver)). subst.
      apply NoDup_cons in Hnd as [Hni _]. set_solver. }
  rewrite exec_bind. destruct (Registry.resolve (registry (nl_store state)) dn) as [q|] eqn:Hq;
    [|unfold find_entry in Hf; by rewrite Hq in Hf].
  rewrite (get_entry_exec _ Hst spec F m dn q) by done. rewrite Hf. cbn [fmap option_fmap option_map snd exec].
  apply verify_secret_spec in Hx. by rewrite Hx.
Qed.
End authenticate.

(** A machine that knows the secret stored for its account is let in: the
    challenge call and the authentication call built by the client, served by
    the server against a directory where exactly one entry carries the account
    name and the client's secret, end with the client verifying the server's
    credential and holding the session key both derived. *)
Theorem secure_channel_established
    `{EntryCodec} `{!OpenSsl, !OpenSslLaws, !Cfb8, !Cfb8Laws} state spec F m p dn dn' e hexes
    account computer ntowf cc :
  connected (nl_store state) -> holds (nl_store state) spec F m -> str "cn" ∈ spec ->
  Registry.resolve (registry (nl_store state)) (nl_base_dn state) = Some p ->
  (forall d, indexed_dn (nl_store state) F (nl_base_dn state) (str "cn") account d <-> d = dn) ->
  find_entry (nl_store state) F dn = Some (dn', e) -> Entry.get e NTOWF_ATTR = Some (to_hex ntowf :: hexes) ->
  bytes_ok ntowf -> zlen ntowf = 16 ->
  wide_ok account -> wide_ok computer -> trim_end_nul account = account -> zlen cc = 8 ->
  exists resp1 sc stub resp2 key,
    server_req_challenge (req_challenge_stub computer cc) = Some (resp1, Some (cc, sc)) /\
    req_challenge_result resp1 = Ok sc /\
    authenticate3_stub account computer ntowf cc sc = Ok stub /\
    exec zeros (server_authenticate3 state (Some (cc, sc)) stub) m = (Some (Some resp2), m) /\
    authenticate3_result ntowf cc sc resp2 = Ok key /\
    compute_session_key_aes ntowf cc sc = Ok key.
Proof.
  intros Hst HF Hcn Hp Hdn Hf He Hb Hl Ha Hc Htrim Hcc.
  set (sc := server_challenge_of cc).
  assert (zlen sc = 8) as Hsc by (unfold sc; by rewrite server_challenge_len).
  destruct (authenticate3_stub_ok account computer ntowf cc sc Hcc) as (k & cred & Hk & Hkl & Hcr & Hcrl & Hstub).
  destruct (credential_total k sc Hkl Hsc) as (x & Hx & Hxl).
  exists (buf (w_u32 0 (w_bytes sc w_new))), sc, (auth_stub account computer cred NETLOGON_NEG_SUPPORTS_AES),
    (authenticate_response NETLOGON_NEG_SUPPORTS_AES (Ok x)), k.
  split; [unfold server_req_challenge; by rewrite req_challenge_reads|].
  split; [by apply challenge_response_reads|]. split; [done|].
  split; [|split; [by apply authenticate3_result_ok|done]].
  unfold server_authenticate3. rewrite auth_stub_reads by done. rewrite Htrim, exec_bind.
  rewrite (authenticate_exec state Hst spec Hcn F m p account cred _ cc sc dn dn' e x); [done|done|done|done|done|done|].
  exists (to_hex ntowf), ntowf, k. rewrite He. by rewrite from_hex_to_hex.
Qed.

(** C27: Nobody else is: whatever request arrives, a success answer means that
    the client had asked for a challenge on this connection, offered AES, and
    proved knowledge of the 16-byte secret of the one entry that carries the
    account name, over this connection's challenges; the directory is never
    changed. *)
Theorem secure_channel_authentic `{EntryCodec} `{!OpenSsl, !Cfb8} state spec F m session stub resp m' :
  connected (nl_store state) -> holds (nl_store state) spec F m -> str "cn" ∈ spec ->
  runs (server_authenticate3 state session stub) m (Some (Some resp)) m' ->
  m' = m /\ exists account cred flags r,
    run_rd r_authenticate_request stub = Some (account, cred, flags) /\ resp = authenticate_response flags r /\
    forall x, r = Ok x ->
      exists cc sc dn dn' e, session = Some (cc, sc) /\ Z.land flags NETLOGON_NEG_SUPPORTS_AES <> 0 /\
        (forall d, indexed_dn (nl_store state) F (nl_base_dn state) (str "cn") (trim_end_nul account) d <-> d = dn) /\
        find_entry (nl_store state) F dn = Some (dn', e) /\ secret_proof e cc sc cred x.
Proof.
  intros Hst HF Hcn. unfold server_authenticate3.
  destruct (run_rd r_authenticate_request stub) as [[[account cred] flags]|]; [|by intros [? _]].
  rewrite runs_bind. intros (r & m1 & Ha & [Hr ->]).
  apply (authenticate_runs state Hst spec Hcn F) in Ha as [-> Ha]; [|done].
  destruct r as [r|]; [|done]. cbn [fmap option_fmap option_map] in Hr. injection Hr as ->.
  split; [done|]. exists account, cred, flags, r. split; [done|]. split; [done|]. intros x ->. by apply Ha.
Qed.

(** ** A concrete channel *)

(** A stand-in with the stream property: every byte xored with the key's
    first byte. *)
Definition demo_cfb8 : Cfb8 := {| cfb8 key _ data _ := Some (map (Z.lxor (key_byte key)) data) |}.

Lemma demo_cfb8_laws : @Cfb8Laws demo_cfb8.
Proof. split. intros key iv data enc _ _. eexists. split; [done|]. unfold zlen. by rewrite length_map. Qed.

Definition ex_secret : bytes := replicate 16 42.
Definition ex_ws2 : Dn := dn_of (str "cn=ws2$,ou=users,dc=g10,dc=lo").
Definition ex_ws2_entry : Entry := Entry.set (Entry.set Entry.new (str "cn") [str "ws2$"]) NTOWF_ATTR [to_hex ex_secret].
Definition ex_nl : NetlogonState := mkNetlogonState ex_st (dn_of (str "dc=g10,dc=lo")).
Definition ex_nl_forest : forest := set_entry ex_st ∅ ex_ws2 ex_ws2_entry.
Definition ex_nl_store : kvstore := (exec zeros (@Store.put_entry bit_codec ex_st ex_ws2 ex_ws2_entry ex_spec) ∅).2.

Lemma ex_ws2_ok : dn_ok ex_ws2.
Proof.
  constructor; [by apply dn_wfb_sound|].
  change (Dn.to_string ex_ws2) with (str "cn=ws2$,ou=users,dc=g10,dc=lo"). apply str_ok_str.
Qed.

Lemma ex_nl_holds : @holds bit_codec ex_st ex_spec ex_nl_forest ex_nl_store.
Proof.
  apply (@put_entry_exec bit_codec ex_st ex_st_connected ex_spec ∅ ∅ ex_ws2 ex_ws2_entry (@holds_empty bit_codec _ _)
    ex_ws2_ok).
  - apply entry_set_wf; [apply entry_set_wf; [apply entry_new_wf|apply str_ok_str|]|apply str_ok_str|];
      apply Forall_singleton; [apply str_ok_str|]. change (to_hex ex_secret) with (str "2a2a2a2a2a2a2a2a2a2a2a2a2a2a2a2a").
    apply str_ok_str.
  - apply spelled_empty.
  - vm_compute. reflexivity.
Qed.

Lemma ex_nl_find : find_entry ex_st ex_nl_forest ex_ws2 = Some (ex_ws2, ex_ws2_entry).
Proof. vm_compute. reflexivity. Qed.

Lemma ex_nl_base p : Registry.resolve (registry ex_st) (nl_base_dn ex_nl) = Some p -> p_id p = str "g10".
Proof.
  assert (p_id <$> Registry.resolve (registry ex_st) (nl_base_dn ex_nl) = Some (str "g10")) as Hr by (vm_compute; reflexivity).
  intros E. rewrite E in Hr. cbn [fmap option_fmap option_map] in Hr. congruence.
Qed.

Lemma ex_ws2_pid p : Registry.resolve (registry ex_st) ex_ws2 = Some p -> p_id p = str "g10".
Proof.
  assert (p_id <$> Registry.resolve (registry ex_st) ex_ws2 = Some (str "g10")) as Hr by (vm_compute; reflexivity).
  intros E. rewrite E in Hr. cbn [fmap option_fmap option_map] in Hr. congruence.
Qed.

Lemma ex_nl_forest_eq :
  ex_nl_forest = {[ str "g10" := {[ entry_key (str "g10") ex_ws2 := (ex_ws2, ex_ws2_entry) ]} ]}.
Proof.
  unfold ex_nl_forest, set_entry, alter_dir.
  destruct (Registry.resolve (registry ex_st) ex_ws2) as [p|] eqn:E; [|vm_compute in E; discriminate E].
  by rewrite (ex_ws2_pid p E), lookup_total_empty.
Qed.

Lemma ex_nl_unique d : indexed_dn ex_st ex_nl_forest (nl_base_dn ex_nl) (str "cn") (str "ws2$") d <-> d = ex_ws2.
Proof.
  unfold indexed_dn. split.
  - intros (p & e & Hp%ex_nl_base & Hk & _). rewrite Hp, ex_nl_forest_eq, lookup_total_singleton in Hk.
    apply lookup_singleton_Some in Hk as [_ Hk]. congruence.
  - intros ->. destruct (Registry.resolve (registry ex_st) (nl_base_dn ex_nl)) as [p|] eqn:E; [|vm_compute in E; discriminate E].
    exists p, ex_ws2_entry. split; [done|]. rewrite (ex_nl_base p E), ex_nl_forest_eq, lookup_total_singleton_eq.
    split; [apply lookup_insert_eq|]. change (default [] (Entry.get ex_ws2_entry (str "cn"))) with [str "ws2$"]. by left.
Qed.

Lemma wide_ok_str s : zlen (encode_utf16 (str s)) < 2 ^ 32 -> wide_ok (str s).
Proof. intros Hl. split; [apply str_ok_str|done]. Qed.

Lemma secure_channel_established_witness :
  exists resp1 sc stub resp2 key,
    server_req_challenge (req_challenge_stub (str "WS2") (replicate 8 7)) = Some (resp1, Some (replicate 8 7, sc)) /\
    req_challenge_result resp1 = Ok sc /\
    @authenticate3_stub demo_ssl demo_cfb8 (str "ws2$") (str "WS2") ex_secret (replicate 8 7) sc = Ok stub /\
    exec zeros (@server_authenticate3 bit_codec demo_ssl demo_cfb8 ex_nl (Some (replicate 8 7, sc)) stub) ex_nl_store
      = (Some (Some resp2), ex_nl_store) /\
    @authenticate3_result demo_ssl demo_cfb8 ex_secret (replicate 8 7) sc resp2 = Ok key /\
    @compute_session_key_aes demo_ssl ex_secret (replicate 8 7) sc = Ok key.
Proof.
  destruct (Registry.resolve (registry ex_st) (nl_base_dn ex_nl)) as [p|] eqn:E; [|vm_compute in E; discriminate E].
  refine (@secure_channel_established bit_codec demo_ssl demo_ssl_laws demo_cfb8 demo_cfb8_laws ex_nl ex_spec
    ex_nl_forest ex_nl_store p ex_ws2 ex_ws2 ex_ws2_entry [] (str "ws2$") (str "WS2") ex_secret (replicate 8 7)
    ex_st_connected ex_nl_holds ltac:(by_decide) E ex_nl_unique ex_nl_find ltac:(vm_compute; reflexivity)
    ltac:(by repeat constructor) eq_refl (wide_ok_str _ _) (wide_ok_str _ _) ltac:(vm_compute; reflexivity) eq_refl);
    vm_compute; reflexivity.
Defined.

Definition ex_auth_stub : bytes :=
  Eval vm_compute in
    match @authenticate3_stub demo_ssl demo_cfb8 (str "ws2$") (str "WS2") ex_secret (replicate 8 7)
            (server_challenge_of (replicate 8 7)) with
    | Ok s => s
    | Err _ => []
    end.

Lemma secure_channel_authentic_witness :
  let session := Some (replicate 8 7, server_challenge_of (replicate 8 7)) in
  let r := exec zeros (@server_authenticate3 bit_codec demo_ssl demo_cfb8 ex_nl session ex_auth_stub) ex_nl_store in
  r.2 = ex_nl_store /\ exists account cred flags res,
    run_rd r_authenticate_request ex_auth_stub = Some (account, cred, flags) /\
    r.1 = Some (Some (authenticate_response flags res)).
Proof.
  intros session r.
  pose proof (exec_runs zeros (@server_authenticate3 bit_codec demo_ssl demo_cfb8 ex_nl session ex_auth_stub)
    ex_nl_store zeros_ok) as Hrun. fold r in Hrun.
  assert (match r.1 with Some (Some _) => true | _ => false end = true) as Hsome by (vm_compute; reflexivity).
  destruct r.1 as [[resp|]|] eqn:Hresp; try discriminate Hsome. clear Hsome. clearbody r.
  destruct (@secure_channel_authentic bit_codec demo_ssl demo_cfb8 ex_nl ex_spec ex_nl_forest ex_nl_store session
    ex_auth_stub resp r.2 ex_st_connected ex_nl_holds ltac:(by_decide) Hrun)
    as (Hm & account & cred & flags & res & Hreq & Hres & _).
  split; [exact Hm|]. exists account, cred, flags, res. split; [exact Hreq|]. by rewrite Hres.
Defined.
