(* ===== verification/RpcServer.v ===== *)
(** The RPC connection loop, [crates/rpc/src/server.rs], and the client it is
    tested with, [crates/simulate/src/rpc_client.rs].

    A connection is the bytes the peer sends before it closes its side; writes
    to the socket are the list of PDUs sent back. *)

From S2P Require Import Prelude Bytes Str Btree Utf8 Decimal Dn Partition Key Registry Entry Etcd Index Ridpool Store.
From S2P Require Import Directory Sid Nfold Md4 Kerberos Password Ndr Pdu BinaryAttrs Samr Netlogon.

Record AppState := mkAppState {
  domain_info : DomainInfo;
  app_samr : SamrState;
  app_netlogon : NetlogonState;
}.

Inductive BoundInterface := LsarpcIf | SamrIf | NetlogonIf.

#[global] Instance BoundInterface_eq_dec : EqDecision BoundInterface.
Proof. solve_decision. Defined.

(** [read_pdu]: end of the connection, an I/O error in the middle of a PDU, or
    a PDU and the bytes after it. *)
Inductive ReadPdu := PduEnd | PduIo | PduRead (pdu rest : bytes).

Definition read_pdu (input : bytes) : ReadPdu :=
  match read_exact 16 input with
  | None => PduEnd
  | Some (header, input) =>
      let frag_len := le_val [byte_at header 8; byte_at header 9] in
      if frag_len <? 16 then PduEnd
      else
        match read_exact (frag_len - 16) input with
        | None => PduIo
        | Some (rest, input) => PduRead (header ++ rest) input
        end
  end.

Definition interface_of (syntax : bytes) : option BoundInterface :=
  if bool_decide (syntax = lsarpc_syntax) then Some LsarpcIf
  else if bool_decide (syntax = samr_syntax) then Some SamrIf
  else if bool_decide (syntax = netlogon_syntax) then Some NetlogonIf
  else None.

(** The state of one connection: what its last accepted context is bound to,
    and the NETLOGON challenges. *)
Record Conn := mkConn { bound : option (Z * BoundInterface); netlogon_session : Session }.
Definition conn_new : Conn := mkConn None session_default.

(** The loop over the items of a bind. *)
Fixpoint bind_items (b : option (Z * BoundInterface)) (items : list BindCtxItem)
    : option (Z * BoundInterface) * list CtxResult :=
  match items with
  | [] => (b, [])
  | item :: items' =>
      match interface_of (abstract_syntax item) with
      | Some iface =>
          let '(b', rs) := bind_items (Some (item_ctx_id item, iface)) items' in (b', accept :: rs)
      | None => let '(b', rs) := bind_items b items' in (b', reject_abstract_syntax_not_supported :: rs)
      end
  end.

(** After one PDU: close, go on after a reply, or no answer at all (a handler
    that panicked, or one still waiting for a RID). *)
Inductive PduOutcome := Close | Sent (c : Conn) (out : bytes) | NoAnswer.

Inductive Ending := EndClosed | EndIo | EndNoAnswer | EndFuel.

Section server.
  Context `{EntryCodec} `{Base64} `{!OpenSsl, !Cfb8}.

Definition lsarpc_dispatch (info : DomainInfo) (opnum : Z) (stub : bytes) : result CallError bytes :=
  if opnum =? LSA_OPNUM_OPEN_POLICY2 then Ok open_policy2
  else if opnum =? LSA_OPNUM_CLOSE then Ok lsa_close
  else if opnum =? LSA_OPNUM_QUERY_INFORMATION_POLICY2 then ok_or Malformed (query_information_policy2 stub info)
  else Err UnknownOpnum.

(** [dispatch] with the session it leaves; [None] is no answer.  [fuel] bounds
    the lost races of a RID allocation. *)
Definition dispatch (fuel : nat) (app : AppState) (session : Session) (iface : BoundInterface)
    (opnum : Z) (stub : bytes) : prog (option (result CallError bytes * Session)) :=
  match iface with
  | LsarpcIf => Ret (Some (lsarpc_dispatch (domain_info app) opnum stub, session))
  | SamrIf =>
      prog_bind_ (fun r => Ret ((fun r => (r, session)) <$> r))
        (samr_dispatch fuel (app_samr app) (domain_sid (domain_info app)) opnum stub)
  | NetlogonIf => netlogon_dispatch (app_netlogon app) session opnum stub
  end.

Definition fault_of (e : CallError) : Z :=
  match e with UnknownOpnum => FAULT_OP_RNG_ERROR | Malformed => FAULT_NDR end.

(** The [PTYPE_REQUEST] arm. *)
Definition handle_request (fuel : nat) (app : AppState) (c : Conn) (call_id : Z) (req : RequestBody)
    : prog PduOutcome :=
  let reply (s : Session) (status : result Z bytes) :=
    Sent (mkConn (bound c) s)
      (match status with
       | Ok stub => build_response call_id (req_ctx_id req) stub
       | Err fault => build_fault call_id (req_ctx_id req) fault
       end) in
  match bound c with
  | Some (ctx_id, iface) =>
      if ctx_id =? req_ctx_id req then
        prog_bind_ (fun r =>
          Ret (match r with
               | Some (status, s) => reply s (map_err fault_of status)
               | None => NoAnswer
               end)) (dispatch fuel app (netlogon_session c) iface (opnum req) (stub_data req))
      else Ret (reply (netlogon_session c) (Err FAULT_UNK_IF))
  | None => Ret (reply (netlogon_session c) (Err FAULT_UNK_IF))
  end.

(** One turn of the loop. *)
Definition handle_pdu (fuel : nat) (app : AppState) (c : Conn) (pdu : bytes) : prog PduOutcome :=
  match parse_header pdu with
  | Err _ => Ret Close
  | Ok (header, _) =>
      let body := zdrop 16 pdu in
      if ptype header =? PTYPE_BIND then
        match parse_bind_body body with
        | None => Ret Close
        | Some items =>
            let '(b, results) := bind_items (bound c) items in
            Ret (Sent (mkConn b (netlogon_session c)) (build_bind_ack (call_id header) 4280 1 results))
        end
      else if ptype header =? PTYPE_REQUEST then
        match parse_request_body body with
        | None => Ret Close
        | Some req => handle_request fuel app c (call_id header) req
        end
      else Ret Close
  end.

(** The loop itself: at most [n] PDUs; the PDUs sent and how it ended. *)
Fixpoint handle_connection (n fuel : nat) (app : AppState) (c : Conn) (input : bytes)
    : prog (list bytes * Ending) :=
  match n with
  | O => Ret ([], EndFuel)
  | S n' =>
      match read_pdu input with
      | PduEnd => Ret ([], EndClosed)
      | PduIo => Ret ([], EndIo)
      | PduRead pdu rest =>
          prog_bind_ (fun o =>
            match o with
            | Close => Ret ([], EndClosed)
            | NoAnswer => Ret ([], EndNoAnswer)
            | Sent c' out => prog_bind_ (fun '(outs, e) => Ret (out :: outs, e)) (handle_connection n' fuel app c' rest)
            end) (handle_pdu fuel app c pdu)
      end
  end.
End server.

(** ** The client *)

Definition client_read_pdu (input : bytes) : result RpcClientError (bytes * bytes) :=
  match read_exact 16 input with
  | None => Err ConnectionClosed
  | Some (header, input) =>
      let frag_len := le_val [byte_at header 8; byte_at header 9] in
      if frag_len <? 16 then Err ClientMalformed
      else
        match read_exact (frag_len - 16) input with
        | None => Err Io
        | Some (rest, input) => Ok (header ++ rest, input)
        end
  end.

(** What [RpcClient::connect] sends, and what it makes of the answer. *)
Definition connect_pdu (syntax : bytes) : bytes := build_bind 1 4280 [mkItem 0 syntax].

Definition connect_result (resp : bytes) : result RpcClientError unit :=
  hdr ← map_err (fun _ => ClientMalformed) (parse_header resp);
  if negb (ptype hdr.1 =? PTYPE_BIND_ACK) then Err BindRejected
  else
    accepted ← ok_or ClientMalformed (parse_bind_ack_all_accepted (zdrop 16 resp));
    if negb accepted then Err BindRejected else Ok tt.

(** [call]: the request, and the result of its answer. *)
Definition call_pdu (call_id opnum : Z) (stub : bytes) : bytes := build_request call_id 0 opnum stub.

Definition call_result (resp : bytes) : result RpcClientError bytes :=
  hdr ← map_err (fun _ => ClientMalformed) (parse_header resp);
  match parse_response_body (ptype hdr.1) (zdrop 16 resp) with
  | Some (Ok stub) => Ok stub
  | Some (Err status) => Err (Fault status)
  | None => Err ClientMalformed
  end.

(** ** Framing *)

Lemma build_pdu_split t c body :
  16 + zlen body < 2 ^ 16 ->
  exists h, build_pdu t c body = h ++ body /\ zlen h = 16 /\ le_val [byte_at h 8; byte_at h 9] = 16 + zlen body.
Proof.
  intros Hl. pose proof (zlen_nonneg body). unfold build_pdu, as_u16. rewrite Z.mod_small by lia.
  exists (common_header t (16 + zlen body) c). split; [done|]. split; [done|].
  unfold common_header.
  change (le_val [byte_at (le_bytes 2 (16 + zlen body)) 0; byte_at (le_bytes 2 (16 + zlen body)) 1] = 16 + zlen body).
  eapply le2; [unfold in_u16; lia|]. reflexivity.
Qed.

Lemma read_pdu_build t c body rest :
  16 + zlen body < 2 ^ 16 -> read_pdu (build_pdu t c body ++ rest) = PduRead (build_pdu t c body) rest.
Proof.
  intros Hl. destruct (build_pdu_split t c body Hl) as (h & -> & Hh & Hf). pose proof (zlen_nonneg body).
  unfold read_pdu. rewrite <- app_assoc, read_exact_app by done. rewrite Hf.
  rewrite (proj2 (Z.ltb_ge _ _)) by lia. rewrite read_exact_app by lia. done.
Qed.

Lemma client_read_pdu_build t c body rest :
  16 + zlen body < 2 ^ 16 -> client_read_pdu (build_pdu t c body ++ rest) = Ok (build_pdu t c body, rest).
Proof.
  intros Hl. destruct (build_pdu_split t c body Hl) as (h & -> & Hh & Hf). pose proof (zlen_nonneg body).
  unfold client_read_pdu. rewrite <- app_assoc, read_exact_app by done. rewrite Hf.
  rewrite (proj2 (Z.ltb_ge _ _)) by lia. rewrite read_exact_app by lia. done.
Qed.

Lemma read_pdu_consumes input pdu rest : read_pdu input = PduRead pdu rest -> zlen rest + 16 <= zlen input.
Proof.
  unfold read_pdu, read_exact. destruct (Z.ltb_spec (zlen input) 16); [done|].
  set (f := le_val _). destruct (Z.ltb_spec f 16); [done|].
  destruct (Z.ltb_spec (zlen (zdrop 16 input)) (f - 16)) as [|Hf]; [done|]. intros [= _ <-].
  rewrite !zlen_zdrop in * by lia. lia.
Qed.

(** ** What a connection answers *)

(** The calls of a client, as PDUs with consecutive call ids, and the PDUs of
    the server's results. *)
Fixpoint call_pdus (id : Z) (calls : list (Z * bytes)) : list bytes :=
  match calls with
  | [] => []
  | (op, stub) :: cs => call_pdu id op stub :: call_pdus (id + 1) cs
  end.

Definition reply_pdu (id : Z) (r : result CallError bytes) : bytes :=
  match r with
  | Ok stub => build_response id 0 stub
  | Err e => build_fault id 0 (fault_of e)
  end.

Fixpoint reply_pdus (id : Z) (rs : list (result CallError bytes)) : list bytes :=
  match rs with
  | [] => []
  | r :: rs' => reply_pdu id r :: reply_pdus (id + 1) rs'
  end.

(** What the client makes of a result, when the response fits its PDU. *)
Definition client_view (r : result CallError bytes) : result RpcClientError bytes :=
  match r with Ok stub => Ok stub | Err e => Err (Fault (fault_of e)) end.
Definition fits (r : result CallError bytes) : Prop :=
  match r with Ok stub => 24 + zlen stub < 2 ^ 16 | Err _ => True end.

Definition call_ok (c : Z * bytes) : Prop := in_u16 c.1 /\ 24 + zlen c.2 < 2 ^ 16.

Lemma call_result_reply id r : in_u32 id -> fits r -> call_result (reply_pdu id r) = client_view r.
Proof.
  intros Hid Hf. unfold call_result. destruct r as [stub|e]; cbn [reply_pdu client_view fits] in *.
  - destruct (parse_build_response id 0 stub Hid Hf) as [-> Hb]. cbn [map_err mbind result_bind fst ptype]. by rewrite Hb.
  - assert (in_u32 (fault_of e)) as He by (by destruct e).
    destruct (parse_build_fault id 0 (fault_of e) Hid He) as [-> Hb]. cbn [map_err mbind result_bind fst ptype]. by rewrite Hb.
Qed.

Section serves.
  Context `{EntryCodec} `{Base64} `{!OpenSsl, !Cfb8}.
  Context (fuel : nat) (app : AppState).

(** The specification of a connection bound to one interface: the calls are
    dispatched in order, the session is threaded through them. *)
Fixpoint serve_calls (session : Session) (iface : BoundInterface) (calls : list (Z * bytes))
    : prog (list (result CallError bytes) * Ending) :=
  match calls with
  | [] => Ret ([], EndClosed)
  | (op, stub) :: cs =>
      prog_bind_ (fun r =>
        match r with
        | None => Ret ([], EndNoAnswer)
        | Some (res, s) => prog_bind_ (fun '(rs, e) => Ret (res :: rs, e)) (serve_calls s iface cs)
        end) (dispatch fuel app session iface op stub)
  end.

Lemma handle_call c id iface op stub m o m' :
  in_u32 id -> call_ok (op, stub) -> bound c = Some (0, iface) ->
  runs (handle_pdu fuel app c (call_pdu id op stub)) m o m' ->
  exists r, runs (dispatch fuel app (netlogon_session c) iface op stub) m r m' /\
    o = match r with
        | Some (res, s) => Sent (mkConn (bound c) s) (reply_pdu id res)
        | None => NoAnswer
        end.
Proof.
  intros Hid [Hop Hl] Hb. cbn [fst snd] in *. destruct (parse_build_request id 0 op stub) as [Hh Hr]; [done..|].
  unfold handle_pdu, call_pdu. rewrite Hh. cbn [ptype call_id]. change (PTYPE_REQUEST =? PTYPE_BIND) with false.
  change (PTYPE_REQUEST =? PTYPE_REQUEST) with true. cbn [andb]. rewrite Hr. unfold handle_request. rewrite Hb.
  cbn [req_ctx_id opnum stub_data]. change (0 =? 0) with true. cbn [andb]. rewrite runs_bind.
  intros (r & m1 & Hd & [-> ->]). exists r. split; [done|]. by destruct r as [[[]]|].
Qed.

Lemma handle_calls n c id iface calls m outs e m' :
  (length calls < n)%nat -> 0 <= id -> id + zlen calls < 2 ^ 32 -> Forall call_ok calls -> bound c = Some (0, iface) ->
  runs (handle_connection n fuel app c (concat (call_pdus id calls))) m (outs, e) m' ->
  exists rs, runs (serve_calls (netlogon_session c) iface calls) m (rs, e) m' /\ outs = reply_pdus id rs.
Proof.
  intros Hn Hid Hmax Hok. revert n c id m outs Hn Hid Hmax. induction Hok as [|[op stub] calls Hc _ IH];
    intros n c id m outs Hn Hid Hmax Hb; (destruct n as [|n]; [cbn in Hn; lia|]).
  - intros [[= -> ->] ->]. by exists [].
  - rewrite zlen_cons in Hmax. pose proof (zlen_nonneg calls) as Hz.
    cbn [call_pdus concat handle_connection].
    assert (read_pdu (call_pdu id op stub ++ concat (call_pdus (id + 1) calls))
      = PduRead (call_pdu id op stub) (concat (call_pdus (id + 1) calls))) as ->.
    { apply read_pdu_build. rewrite !zlen_app, !zlen_le_bytes. destruct Hc as [_ Hc]. cbn [snd] in Hc. lia. }
    rewrite runs_bind. intros (o & m1 & Hp & Hrest).
    apply (handle_call c id iface op stub) in Hp as (r & Hd & ->); [|unfold in_u32; lia|done|done].
    cbn [serve_calls]. setoid_rewrite runs_bind. destruct r as [[res s]|].
    + rewrite runs_bind in Hrest. destruct Hrest as ([outs' e'] & m2 & Hrun & [[= -> ->] ->]).
      apply (IH n (mkConn (bound c) s) (id + 1)) in Hrun as (rs & Hrs & ->); [|cbn in Hn; lia..|done].
      exists (res :: rs). split; [|done]. exists (Some (res, s)), m1. split; [done|].
      rewrite runs_bind. by exists (rs, e'), m2.
    + destruct Hrest as [[= -> ->] ->]. exists []. split; [|done]. by exists None, m1.
Qed.
End serves.

Lemma interface_of_len syntax iface : interface_of syntax = Some iface -> length syntax = 20%nat.
Proof. unfold interface_of. repeat (case_bool_decide; [subst syntax; intros _; vm_compute; reflexivity|]). by intros ?. Qed.

Lemma handle_bind `{EntryCodec} `{Base64} `{!OpenSsl, !Cfb8} fuel app c syntax iface m o m' :
  interface_of syntax = Some iface -> runs (handle_pdu fuel app c (connect_pdu syntax)) m o m' ->
  m' = m /\ o = Sent (mkConn (Some (0, iface)) (netlogon_session c)) (build_bind_ack 1 4280 1 [accept]).
Proof.
  intros Hi. pose proof (interface_of_len _ _ Hi) as Hl. unfold handle_pdu, connect_pdu, build_bind at 1.
  rewrite parse_build_header; [|done|].
  - cbn [ptype call_id]. change (PTYPE_BIND =? PTYPE_BIND) with true.
    rewrite parse_build_bind; [|done|by repeat constructor].
    cbn [bind_items item_ctx_id abstract_syntax]. rewrite Hi. by intros [-> ->].
  - cbn [map concat]. rewrite app_nil_r. unfold bind_item_bytes. rewrite !zlen_app, !zlen_le_bytes.
    unfold zlen. cbn [abstract_syntax]. rewrite Hl. by vm_compute.
Qed.

Lemma ack_accepted : connect_result (build_bind_ack 1 4280 1 [accept]) = Ok tt.
Proof. vm_compute. reflexivity. Qed.

Lemma call_results_replies id rs :
  0 <= id -> id + zlen rs <= 2 ^ 32 -> Forall fits rs -> map call_result (reply_pdus id rs) = map client_view rs.
Proof.
  intros Hid Hmax Hf. revert id Hid Hmax. induction Hf as [|r rs Hr _ IH]; intros id Hid Hmax; [done|].
  rewrite zlen_cons in Hmax. pose proof (zlen_nonneg rs). cbn [reply_pdus map].
  rewrite call_result_reply; [|unfold in_u32; lia|done]. f_equal. apply IH; lia.
Qed.

Lemma serve_calls_length `{EntryCodec} `{Base64} `{!OpenSsl, !Cfb8} fuel app session iface calls m rs e m' :
  runs (serve_calls fuel app session iface calls) m (rs, e) m' -> zlen rs <= zlen calls /\ e <> EndFuel.
Proof.
  revert session m rs. induction calls as [|[op stub] calls IH]; intros session m rs; cbn [serve_calls].
  - by intros [[= -> ->] _].
  - rewrite runs_bind. intros ([[res s]|] & m1 & _ & Hr).
    + rewrite runs_bind in Hr. destruct Hr as ([rs' e'] & m2 & Hrun & [[= -> ->] ->]).
      apply IH in Hrun as [? ?]. rewrite !zlen_cons. split; [lia|done].
    + destruct Hr as [[= -> ->] _]. rewrite zlen_cons. pose proof (zlen_nonneg calls).
      split; [change (zlen []) with 0; lia|done].
Qed.

(** C35: A client that binds one of the three interfaces and calls it gets what
    the interface's dispatcher answered: the bind is acknowledged, the calls
    are dispatched in order on one session and nothing else reaches the
    directory, and each response or fault is decoded to the handler's result,
    for calls that fit in a PDU and responses that do. *)
Theorem rpc_connection_serves `{EntryCodec} `{Base64} `{!OpenSsl, !Cfb8} n fuel app syntax iface calls m outs e m' :
  interface_of syntax = Some iface -> Forall call_ok calls -> 2 + zlen calls < 2 ^ 32 -> (S (length calls) < n)%nat ->
  runs (handle_connection n fuel app conn_new (connect_pdu syntax ++ concat (call_pdus 2 calls))) m (outs, e) m' ->
  exists ack rs, outs = ack :: reply_pdus 2 rs /\ connect_result ack = Ok tt /\
    runs (serve_calls fuel app session_default iface calls) m (rs, e) m' /\ e <> EndFuel /\
    (Forall fits rs -> map call_result (reply_pdus 2 rs) = map client_view rs).
Proof.
  intros Hi Hok Hmax Hn. destruct n as [|n]; [lia|]. pose proof (interface_of_len _ _ Hi) as Hl.
  cbn [handle_connection]. assert (forall rest, read_pdu (connect_pdu syntax ++ rest) = PduRead (connect_pdu syntax) rest) as ->.
  { intros rest. apply read_pdu_build. cbn [map concat]. rewrite app_nil_r. unfold bind_item_bytes.
    rewrite !zlen_app, !zlen_le_bytes. unfold zlen. cbn [abstract_syntax]. rewrite Hl. by vm_compute. }
  rewrite runs_bind. intros (o & m1 & [-> ->]%(handle_bind _ _ _ _ _ _ _ _ Hi) & Hr).
  rewrite runs_bind in Hr. destruct Hr as ([outs' e'] & m2 & Hrun & [[= -> ->] ->]).
  apply (handle_calls fuel app n _ 2 iface calls) in Hrun as (rs & Hrs & ->); [|lia|lia|done|done|done].
  pose proof (serve_calls_length _ _ _ _ _ _ _ _ _ Hrs) as [Hlen He].
  exists (build_bind_ack 1 4280 1 [accept]), rs. split; [done|]. split; [apply ack_accepted|]. split; [done|].
  split; [done|]. intros Hf. apply call_results_replies; [lia|lia|done].
Qed.

(** Every connection ends: whatever the peer sends, the loop reads at most
    one PDU per sixteen bytes, so a bound of that many turns is never
    reached. *)
Theorem rpc_connection_terminates `{EntryCodec} `{Base64} `{!OpenSsl, !Cfb8} n fuel app c input m outs e m' :
  zlen input < 16 * Z.of_nat n -> runs (handle_connection n fuel app c input) m (outs, e) m' -> e <> EndFuel.
Proof.
  revert c input m outs. induction n as [|n IH]; intros c input m outs Hn; [pose proof (zlen_nonneg input); lia|].
  cbn [handle_connection]. destruct (read_pdu input) as [| |pdu rest] eqn:Hp; [by intros [[= -> ->] _]..|].
  apply read_pdu_consumes in Hp. rewrite runs_bind. intros (o & m1 & _ & Hr).
  destruct o as [|c' out|]; [by destruct Hr as [[= -> ->] _]| |by destruct Hr as [[= -> ->] _]].
  rewrite runs_bind in Hr. destruct Hr as ([outs' e'] & m2 & Hrun & [[= -> ->] ->]).
  eapply IH; [|exact Hrun]. lia.
Qed.

(** ** A concrete connection *)

Definition ex_app : AppState := mkAppState ex_info ex_samr ex_nl.
Definition ex_calls : list (Z * bytes) :=
  [(LSA_OPNUM_OPEN_POLICY2, []); (LSA_OPNUM_QUERY_INFORMATION_POLICY2, POLICY_HANDLE ++ le_bytes 2 12); (99, [1])].
Definition ex_input : bytes := connect_pdu lsarpc_syntax ++ concat (call_pdus 2 ex_calls).

Definition ex_run : list bytes * Ending * kvstore :=
  exec zeros (@handle_connection bit_codec hex_base64 demo_ssl demo_cfb8 9 1 ex_app conn_new ex_input) ∅.

Lemma ex_run_runs :
  runs (@handle_connection bit_codec hex_base64 demo_ssl demo_cfb8 9 1 ex_app conn_new ex_input) ∅
    (ex_run.1.1, ex_run.1.2) ex_run.2.
Proof.
  assert (ex_run.1 = (ex_run.1.1, ex_run.1.2)) as <- by (by destruct ex_run as [[]]). apply exec_runs, zeros_ok.
Qed.

Lemma rpc_connection_serves_witness :
  exists ack rs, ex_run.1.1 = ack :: reply_pdus 2 rs /\ connect_result ack = Ok tt /\
    runs (@serve_calls bit_codec hex_base64 demo_ssl demo_cfb8 1 ex_app session_default LsarpcIf ex_calls) ∅
      (rs, ex_run.1.2) ex_run.2.
Proof.
  destruct (@rpc_connection_serves bit_codec hex_base64 demo_ssl demo_cfb8 9 1 ex_app lsarpc_syntax LsarpcIf ex_calls ∅
    ex_run.1.1 ex_run.1.2 ex_run.2 ltac:(vm_compute; reflexivity) ltac:(by repeat constructor) ltac:(reflexivity)
    ltac:(cbn; lia) ex_run_runs) as (ack & rs & Ho & Ha & Hr & _).
  exists ack, rs. split; [exact Ho|]. split; [exact Ha|exact Hr].
Defined.

Lemma rpc_connection_terminates_witness : ex_run.1.2 <> EndFuel.
Proof.
  apply (@rpc_connection_terminates bit_codec hex_base64 demo_ssl demo_cfb8 30 1 ex_app conn_new ex_input ∅
    ex_run.1.1 ex_run.1.2 ex_run.2); [reflexivity|].
  assert (ex_run = exec zeros (@handle_connection bit_codec hex_base64 demo_ssl demo_cfb8 30 1 ex_app conn_new ex_input) ∅)
    as -> by (vm_compute; reflexivity).
  assert (forall x : list bytes * Ending * kvstore, (x.1.1, x.1.2) = x.1) as Hx by (by intros [[] ?]).
  rewrite Hx. apply exec_runs, zeros_ok.
Defined.
