(* ===== verification/RpcClient.v ===== *)
(** The simulator's client halves of SAMR and LSARPC,
    [crates/simulate/src/samr_client.rs] and
    [crates/simulate/src/lsarpc_client.rs]: the stub each call sends and what
    it makes of the response stub. *)

From S2P Require Import Prelude Bytes Str Btree Utf8 Decimal Dn Partition Key Registry Entry Etcd Index Ridpool Store.
From S2P Require Import Sid Md4 Ndr BinaryAttrs Samr Netlogon.

(** ** SAMR *)

Definition connect5_stub : bytes := buf (w_u32 0 (w_u32 1 (w_u32 1 (w_u32 1 (w_u32 0 (w_null_ptr w_new)))))).

Definition connect5_result (resp : bytes) : result RpcClientError bytes :=
  client_read (_ <-r r_u32 ;; _ <-r r_u32 ;; _ <-r r_u32 ;; _ <-r r_u32 ;; r_handle) resp.

Definition w_name (name : rstring) (w : NdrWriter) : NdrWriter :=
  let '(s, w) := w_unicode_string_header (Some name) w in w_deferred s w.

Definition lookup_domain_stub (server_handle netbios_name : bytes) : bytes :=
  buf (w_name netbios_name (w_handle server_handle w_new)).

Definition lookup_domain_result (resp : bytes) : result RpcClientError Sid :=
  client_read (_ <-r r_u32 ;; r_sid_deferred) resp.

Definition open_domain_stub (server_handle : bytes) (domain_sid : Sid) : bytes :=
  buf (w_sid_deferred domain_sid (w_u32 0 (w_handle server_handle w_new))).

(** [resp[0..20]]; [None] is the panic of a slice past the end. *)
Definition open_domain_result (resp : bytes) : option bytes :=
  if zlen resp <? 20 then None else Some (ztake 20 resp).

Definition lookup_name_stub (domain_handle name : bytes) : bytes :=
  buf (w_name name (w_u32 1 (w_u32 0 (w_u32 1 (w_u32 1 (w_handle domain_handle w_new)))))).

Definition lookup_name_result (resp : bytes) : result RpcClientError (option Z) :=
  rid ← client_read (_ <-r r_u32 ;; _ <-r r_u32 ;; _ <-r r_u32 ;; r_u32) resp;
  Ok (if rid =? 0 then None else Some rid).

Definition create_user2_stub (domain_handle account_name : bytes) : bytes :=
  buf (w_u32 0 (w_u32 1 (w_name account_name (w_handle domain_handle w_new)))).

Definition create_user2_result (resp : bytes) : result RpcClientError (bytes * Z) :=
  f ← client_read (h <-r r_handle ;; _ <-r r_u32 ;; rid <-r r_u32 ;; st <-r r_u32 ;; rd_ret (h, rid, st)) resp;
  let '(handle, rid, status) := f in
  if negb (status =? 0) then Err (Status status) else Ok (handle, rid).

Definition close_handle_stub (handle : bytes) : bytes := buf (w_handle handle w_new).

(** ** LSARPC *)

Record DnsDomainInfo := mkDnsDomainInfo {
  dd_netbios_name : rstring;
  dd_dns_domain_name : rstring;
  dd_domain_sid : Sid;
}.

Definition query_policy_stub (handle : bytes) : bytes :=
  buf (w_u16 POLICY_DNS_DOMAIN_INFORMATION (w_handle handle w_new)).

Definition r_optional_string (referent : Z) : rd rstring :=
  s <-r (if negb (referent =? 0) then r_unicode_string_deferred else rd_ret []) ;;
  _ <-r r_pad_to_4 ;;
  rd_ret s.

Definition query_policy_result (resp : bytes) : result RpcClientError DnsDomainInfo :=
  client_read
    (_ <-r r_u32 ;; _ <-r r_u16 ;; _ <-r r_u16 ;;
     name <-r r_unicode_string_header ;; dns <-r r_unicode_string_header ;; _ <-r r_unicode_string_header ;;
     _ <-r r_bytes 16 ;; _ <-r r_u32 ;;
     netbios_name <-r r_optional_string name.2 ;;
     dns_domain_name <-r r_optional_string dns.2 ;;
     _ <-r r_unicode_string_deferred ;; _ <-r r_pad_to_4 ;;
     domain_sid <-r r_sid_deferred ;;
     rd_ret (mkDnsDomainInfo netbios_name dns_domain_name domain_sid)) resp.

(** ** Client and server agree *)

Definition name_enc (pre : bytes) (id : Z) (s : rstring) : bytes :=
  hdr_enc id s ++ deferred_enc (pre ++ hdr_enc id s) s.

Lemma w_name_enc s w :
  name_ok s -> buf (w_name s w) = buf w ++ name_enc (buf w) (next_referent_id w) s.
Proof.
  intros Hs. unfold w_name. rewrite w_header_enc by done. rewrite w_deferred_enc by done. cbn [buf].
  unfold name_enc. by rewrite <- app_assoc.
Qed.

Lemma create_stub_reads h name :
  zlen h = 20 -> name_ok name -> name <> [] ->
  run_rd r_create_user (create_user2_stub h name) = Some (Some name).
Proof.
  intros Hh Hn Hne. apply run_rd_reads. unfold create_user2_stub, r_create_user.
  unfold w_u32, w_bytes at 1 2. cbn [buf]. rewrite w_name_enc by done. unfold w_handle, w_bytes, w_new. cbn [buf app next_referent_id].
  unfold name_enc. rewrite <- !app_assoc.
  eapply reads_bind; [by apply reads_bytes|].
  eapply reads_bind; [apply reads_header; [done|by vm_compute]|].
  destruct name as [|c s]; [done|]. cbn [ref_of snd deferred_enc]. change (negb (FIRST_REFERENT_ID =? 0)) with true. cbn iota.
  destruct Hn as [Hs Hl]. unfold units_len in Hl. rewrite <- !app_assoc.
  eapply reads_bind; [apply reads_wstr; [done|lia]|].
  eapply reads_bind; [apply reads_pad_eq; by rewrite <- ?app_assoc|].
  rewrite <- (app_nil_r (le_bytes 4 0)).
  do 2 (eapply reads_bind; [by apply reads_u32|]). apply reads_ret.
Qed.

Lemma create_result_reads rid status :
  in_u32 rid -> in_u32 status ->
  create_user2_result (create_user2_response rid status)
  = if status =? STATUS_SUCCESS then Ok (user_handle rid, rid) else Err (Status status).
Proof.
  intros Hr Hs. unfold create_user2_result, client_read.
  rewrite (run_rd_reads _ _ (if status =? STATUS_SUCCESS then user_handle rid else replicate 20 0, rid, status)).
  { cbn [ok_or mbind result_bind]. unfold STATUS_SUCCESS. by destruct (status =? 0). }
  unfold create_user2_response, w_u32, w_handle, w_bytes, w_new. cbn [buf app].
  rewrite <- !app_assoc. rewrite <- (app_nil_r (le_bytes 4 status)).
  eapply reads_bind; [apply reads_bytes; destruct (status =? STATUS_SUCCESS); done|].
  eapply reads_bind; [apply reads_u32; by destruct (status =? STATUS_SUCCESS)|].
  do 2 (eapply reads_bind; [by apply reads_u32|]). apply reads_ret.
Qed.

Lemma lookup_stub_reads h name :
  zlen h = 20 -> name_ok name -> name <> [] ->
  run_rd r_lookup_names (lookup_name_stub h name) = Some [name].
Proof.
  intros Hh Hn Hne. apply run_rd_reads. unfold lookup_name_stub, r_lookup_names. rewrite w_name_enc by done.
  unfold w_u32, w_handle, w_bytes, w_new, name_enc. cbn [buf app next_referent_id]. rewrite <- !app_assoc.
  eapply reads_bind; [by apply reads_bytes|]. do 4 (eapply reads_bind; [by apply reads_u32|]).
  change (Z.to_nat 1) with 1%nat. cbn [r_repeat]. eapply reads_bind.
  { rewrite <- (app_nil_r (hdr_enc _ _)). eapply reads_bind; [apply reads_header; [done|by vm_compute]|].
    rewrite <- (app_nil_r []). eapply reads_bind; [apply reads_ret|apply reads_ret]. }
  destruct name as [|c s]; [done|]. cbn [ref_of r_names deferred_enc]. change (negb (FIRST_REFERENT_ID =? 0)) with true. cbn iota.
  destruct Hn as [Hs Hl]. unfold units_len in Hl.
  eapply reads_bind; [apply reads_wstr; [done|lia]|].
  rewrite <- (app_nil_r (pad_enc _)).
  eapply reads_bind; [apply reads_pad_eq; by rewrite <- ?app_assoc|].
  rewrite <- (app_nil_r []). eapply reads_bind; [apply reads_ret|apply reads_ret].
Qed.

Lemma lookup_result_reads found :
  (forall rid, found = Some rid -> in_u32 rid) ->
  lookup_name_result (lookup_names_response [found])
  = Ok (match found with Some rid => if rid =? 0 then None else Some rid | None => None end).
Proof.
  intros Hf. assert (in_u32 (default 0 found)) as Hu by (destruct found; [by apply Hf|done]).
  set (tail := le_bytes 4 1 ++ le_bytes 4 (FIRST_REFERENT_ID + 4) ++ le_bytes 4 1
    ++ le_bytes 4 (match found with Some _ => 1 | None => 0 end)
    ++ le_bytes 4 (if forallb (fun r => negb (r =? 0)) [default 0 found] then 0 else 0x107)).
  assert (lookup_names_response [found]
    = (le_bytes 4 1 ++ le_bytes 4 FIRST_REFERENT_ID ++ le_bytes 4 1 ++ le_bytes 4 (default 0 found)) ++ tail) as ->
    by reflexivity.
  unfold lookup_name_result, client_read, run_rd, r_new.
  assert (reads_at [] (_ <-r r_u32 ;; _ <-r r_u32 ;; _ <-r r_u32 ;; r_u32)
    (le_bytes 4 1 ++ le_bytes 4 FIRST_REFERENT_ID ++ le_bytes 4 1 ++ le_bytes 4 (default 0 found)) (default 0 found)) as Hr.
  { do 3 (eapply reads_bind; [by apply reads_u32|]). by apply reads_u32. }
  specialize (Hr tail). change (zlen (@nil Z)) with 0 in Hr. cbn [app] in Hr |- *. rewrite Hr.
  cbn [ok_or mbind result_bind]. by destruct found.
Qed.

Lemma deferred_aligned pre s : zlen pre mod 4 = 0 -> zlen (pre ++ deferred_enc pre s) mod 4 = 0.
Proof.
  intros Hp. destruct s as [|c s]; cbn [deferred_enc]; [by rewrite app_nil_r|].
  rewrite app_assoc, zlen_app, zlen_pad_enc. zlia.
Qed.

Lemma reads_optional pre pre' id s :
  name_ok s -> 0 < id -> pre' = pre -> zlen pre mod 4 = 0 ->
  reads_at pre (r_optional_string (ref_of id s)) (deferred_enc pre' s) s.
Proof.
  intros [Hs Hl] Hid -> Hp. unfold r_optional_string, units_len in *. destruct s as [|c s]; cbn [ref_of deferred_enc].
  - change (negb (0 =? 0)) with false. cbn iota. rewrite <- (app_nil_r []). eapply reads_bind; [apply reads_ret|].
    rewrite <- (app_nil_r []). eapply reads_bind; [|apply reads_ret].
    pose proof (reads_pad (pre ++ [])) as Hpad. unfold pad_enc in Hpad. rewrite app_nil_r in *.
    replace ((- zlen pre) mod 4) with 0 in Hpad by zlia. exact Hpad.
  - rewrite (proj2 (Z.eqb_neq _ _)) by lia. cbn [negb]. eapply reads_bind; [apply reads_wstr; [done|lia]|].
    rewrite <- (app_nil_r (pad_enc _)). eapply reads_bind; [apply reads_pad|apply reads_ret].
Qed.

Lemma policy_result_reads info :
  name_ok (netbios_name info) -> name_ok (dns_domain_name info) -> name_ok (dns_forest_name info) ->
  dns_forest_name info <> [] -> sid_wire (domain_sid info) ->
  query_policy_result (policy_response info)
  = Ok (mkDnsDomainInfo (netbios_name info) (dns_domain_name info) (domain_sid info)).
Proof.
  intros H1 H2 H3 Hne Hsid.
  destruct (policy_response_enc info) as (i0 & i1 & i2 & i3 & Hi0 & Hi1 & Hi2 & Hi3 & ->); [done..|].
  destruct info as [n1 n2 n3 sid]. cbn [netbios_name dns_domain_name dns_forest_name domain_sid] in *.
  unfold small_id in *. set (fixed := policy_fixed _ _ _ _ _ _ _).
  assert (zlen fixed mod 4 = 0) as Hf by (unfold fixed; by rewrite policy_fixed_len).
  pose proof (deferred_aligned fixed n1 Hf) as Hf1. pose proof (deferred_aligned _ n2 Hf1) as Hf2.
  cbn zeta. set (d1 := deferred_enc fixed n1) in *. set (d2 := deferred_enc (fixed ++ d1) n2) in *.
  unfold query_policy_result, client_read, run_rd, r_new. rewrite app_assoc, (app_assoc _ d2), (app_assoc _ (deferred_enc _ n3)), (app_assoc _ (sid_enc sid)).
  match goal with |- context [?m (mkReader (?enc ++ ?tl) 0)] =>
    assert (reads_at [] m enc (mkDnsDomainInfo n1 n2 sid)) as Hr end.
  { rewrite <- (app_nil_r (_ ++ sid_enc sid)). rewrite <- !app_assoc.
    unfold fixed at 1, policy_fixed. rewrite <- !app_assoc.
    eapply reads_bind; [by apply reads_u32|]. do 2 (eapply reads_bind; [by apply reads_u16|]).
    do 3 (eapply reads_bind; [apply reads_header; [done|unfold in_u32; lia]|]).
    eapply reads_bind; [by apply reads_bytes|]. eapply reads_bind; [apply reads_u32; unfold in_u32; lia|].
    eapply reads_bind; [apply reads_optional; [done|lia|unfold fixed, policy_fixed; cbn [app]; by rewrite <- ?app_assoc|]|].
    { cbn [app]. rewrite <- ?app_assoc. exact Hf. }
    eapply reads_bind; [apply reads_optional; [done|lia|unfold fixed, policy_fixed; cbn [app]; by rewrite <- ?app_assoc|]|].
    { cbn [app]. rewrite <- ?app_assoc. unfold fixed, policy_fixed in Hf1. rewrite <- ?app_assoc in Hf1. exact Hf1. }
    destruct n3 as [|c s]; [done|]. destruct H3 as [Hs Hl]. unfold units_len in Hl. cbn [deferred_enc]. rewrite <- !app_assoc.
    eapply reads_bind; [apply reads_wstr; [done|lia]|].
    eapply reads_bind; [apply reads_pad_eq; unfold fixed, policy_fixed; cbn [app]; by rewrite <- ?app_assoc|].
    eapply reads_bind; [by apply reads_sid|]. apply reads_ret. }
  specialize (Hr (le_bytes 4 0)). change (zlen (@nil Z)) with 0 in Hr. cbn [app] in Hr. by rewrite Hr.
Qed.

Lemma lookup_domain_reads sid : sid_wire sid -> lookup_domain_result (lookup_domain_in_sam_server sid) = Ok sid.
Proof.
  intros Hsid. unfold lookup_domain_result, client_read, lookup_domain_in_sam_server.
  rewrite w_sid_deferred_enc by apply Hsid. unfold w_u32, w_bytes. cbn [buf].
  change (buf (w_referent_id w_new)) with (le_bytes 4 FIRST_REFERENT_ID). unfold run_rd, r_new.
  assert (reads_at [] (_ <-r r_u32 ;; r_sid_deferred) (le_bytes 4 FIRST_REFERENT_ID ++ sid_enc sid) sid) as Hread.
  { eapply reads_bind; [by apply reads_u32|]. by apply reads_sid. }
  specialize (Hread (le_bytes 4 0)). change (zlen (@nil Z)) with 0 in Hread. cbn [app] in Hread. by rewrite Hread.
Qed.

(** The simulator and the server speak the same wire format: every request
    stub the client builds is decoded by the server to the name it carries,
    and every response the server builds is decoded by the client to the
    handle, SID, RID or status it was built from. *)
Theorem join_calls_agree h name info found rid status :
  zlen h = 20 -> name_ok name -> name <> [] ->
  name_ok (netbios_name info) -> name_ok (dns_domain_name info) -> name_ok (dns_forest_name info) ->
  dns_forest_name info <> [] -> sid_wire (domain_sid info) ->
  (forall r, found = Some r -> in_u32 r) -> in_u32 rid -> in_u32 status ->
  connect5_result connect5 = Ok SERVER_HANDLE /\
  lookup_domain_result (lookup_domain_in_sam_server (domain_sid info)) = Ok (domain_sid info) /\
  open_domain_result open_domain = Some DOMAIN_HANDLE /\
  run_rd r_lookup_names (lookup_name_stub h name) = Some [name] /\
  lookup_name_result (lookup_names_response [found])
    = Ok (match found with Some r => if r =? 0 then None else Some r | None => None end) /\
  run_rd r_create_user (create_user2_stub h name) = Some (Some name) /\
  create_user2_result (create_user2_response rid status)
    = (if status =? STATUS_SUCCESS then Ok (user_handle rid, rid) else Err (Status status)) /\
  query_policy_result (policy_response info)
    = Ok (mkDnsDomainInfo (netbios_name info) (dns_domain_name info) (domain_sid info)).
Proof.
  intros Hh Hn Hne H1 H2 H3 H4 Hsid Hf Hr Hs. split; [vm_compute; reflexivity|]. split; [by apply lookup_domain_reads|].
  split; [vm_compute; reflexivity|]. split; [by apply lookup_stub_reads|]. split; [by apply lookup_result_reads|].
  split; [by apply create_stub_reads|]. split; [by apply create_result_reads|]. by apply policy_result_reads.
Qed.

Lemma join_calls_agree_witness :
  run_rd r_create_user (create_user2_stub DOMAIN_HANDLE (str "ws1$")) = Some (Some (str "ws1$")) /\
  create_user2_result (create_user2_response 1000 STATUS_SUCCESS) = Ok (user_handle 1000, 1000).
Proof.
  destruct (join_calls_agree DOMAIN_HANDLE (str "ws1$") ex_info (Some 1000) 1000 STATUS_SUCCESS)
    as (_ & _ & _ & _ & _ & Hs & Hr & _); try done; try (by split; [apply str_ok_str|]).
  - by apply sid_wireb_spec.
  - by intros r [= <-].
Defined.

(** Without a forest name the server omits the third string and the client
    still reads one, so the query fails. *)
Theorem empty_forest_name_unreadable :
  query_policy_result (policy_response (mkDomainInfo (str "G10") (str "g10.lo") [] (mkSid 1 0 [21; 1; 2; 3]))) = Err ClientMalformed.
Proof. vm_compute. reflexivity. Qed.
