(* ===== verification/Oidc.v ===== *)
(** The OpenID Connect server's parts, [crates/oidc/src]: the client registry,
    the authorization codes, compact JSON web tokens, the claim sets and the
    discovery documents. *)

From S2P Require Import Prelude Bytes Str Utf8 Dn Etcd Index Store Token Kerberos Sign BinaryAttrs Krb.

(** ** Strings *)

(** [split_once(d)]. *)
Fixpoint split_once (d : char) (s : rstring) : option (rstring * rstring) :=
  match s with
  | [] => None
  | c :: s' => if c =? d then Some ([], s') else r ← split_once d s'; Some (c :: r.1, r.2)
  end.

(** Three parts of [splitn(3, d)]; the last keeps any further separators. *)
Definition splitn3 (d : char) (s : rstring) : option (rstring * rstring * rstring) :=
  p ← split_once d s; q ← split_once d p.2; Some (p.1, q.1, q.2).

Lemma split_once_app d a b : d ∉ a -> split_once d (a ++ d :: b) = Some (a, b).
Proof.
  induction a as [|c a IH]; intros Hd; cbn; [by rewrite Z.eqb_refl|].
  apply not_elem_of_cons in Hd as [Hc Ha]. destruct (Z.eqb_spec c d); [done|]. by rewrite IH.
Qed.

Lemma split_once_Some d s a b : split_once d s = Some (a, b) -> s = a ++ d :: b /\ d ∉ a.
Proof.
  revert a. induction s as [|c s IH]; intros a; cbn; [done|]. destruct (Z.eqb_spec c d) as [->|Hne].
  - intros [= <- <-]. split; [done|apply not_elem_of_nil].
  - destruct (split_once d s) as [[a' b']|]; [|done]. cbn. intros [= <- <-]. destruct (IH a' eq_refl) as [-> Ha].
    split; [done|]. by apply not_elem_of_cons.
Qed.

Lemma splitn3_app d a b c : d ∉ a -> d ∉ b -> splitn3 d (a ++ d :: b ++ d :: c) = Some (a, b, c).
Proof. intros Ha Hb. unfold splitn3. rewrite split_once_app by done. cbn. by rewrite split_once_app. Qed.

Lemma splitn3_Some d s a b c : splitn3 d s = Some (a, b, c) -> s = a ++ d :: b ++ d :: c /\ d ∉ a /\ d ∉ b.
Proof.
  unfold splitn3. destruct (split_once d s) as [[a' r]|] eqn:E; [|done]. cbn.
  destruct (split_once d r) as [[b' c']|] eqn:E'; [|done]. cbn. intros [= -> -> ->].
  apply split_once_Some in E as [-> ?]. by apply split_once_Some in E' as [-> ?].
Qed.

(** [split_whitespace()]: the maximal runs of other characters. *)
Fixpoint split_whitespace_acc (word : rstring) (s : rstring) : list rstring :=
  match s with
  | [] => if bool_decide (word = []) then [] else [word]
  | c :: s' =>
      if is_whitespace c then (if bool_decide (word = []) then [] else [word]) ++ split_whitespace_acc [] s'
      else split_whitespace_acc (word ++ [c]) s'
  end.
Definition split_whitespace (s : rstring) : list rstring := split_whitespace_acc [] s.

(** [serde_json::Value], without the forms this server never builds. *)
Inductive Value :=
| VString (s : rstring)
| VNumber (n : Z)
| VArray (items : list Value)
| VObject (fields : list (rstring * Value)).

Definition field (name : rstring) (v : Value) : option Value :=
  match v with VObject fs => snd <$> List.find (fun kv => bool_decide (kv.1 = name)) fs | _ => None end.

(** ** Clients, [clients.rs] *)

Record Client := mkClient { c_id : rstring; c_secret : rstring; c_redirect_uri : rstring }.

Definition ClientRegistry := gmap rstring Client.

Fixpoint parse_clients (entries : list rstring) (clients : ClientRegistry) : result rstring ClientRegistry :=
  match entries with
  | [] => Ok clients
  | entry :: entries' =>
      match splitn3 (ch "|") entry with
      | Some (client_id, client_secret, redirect_uri) =>
          parse_clients entries'
            (<[trim client_id := mkClient (trim client_id) (trim client_secret) (trim redirect_uri)]> clients)
      | None => Err entry
      end
  end.

(** The error is the malformed entry. *)
Definition ClientRegistry_parse (raw : rstring) : result rstring ClientRegistry :=
  parse_clients (List.filter (fun s => negb (bool_decide (trim s = []))) (split_char (ch ";") raw)) ∅.

Definition get_client (clients : ClientRegistry) (client_id : rstring) : option Client := clients !! client_id.

Definition authenticate (clients : ClientRegistry) (client_id client_secret : rstring) : bool :=
  match clients !! client_id with Some c => bool_decide (c_secret c = client_secret) | None => false end.

(** Every entry of the registry is a configured one, under its own name. *)
Definition clients_wf (clients : ClientRegistry) : Prop :=
  map_Forall (fun id c => c_id c = id /\ trimmed (c_id c) /\ trimmed (c_secret c) /\ trimmed (c_redirect_uri c)) clients.

Lemma parse_clients_wf entries clients clients' :
  clients_wf clients -> parse_clients entries clients = Ok clients' -> clients_wf clients'.
Proof.
  revert clients. induction entries as [|entry entries IH]; cbn [parse_clients]; intros clients Hwf; [by intros [= <-]|].
  destruct (splitn3 (ch "|") entry) as [[[id secret] uri]|]; [|intros [=]]. apply IH.
  apply map_Forall_insert_2; [|done]. repeat split; apply trim_trimmed.
Qed.

(** ** Codes, [codes.rs] *)

Record NewCode := mkNewCode {
  nc_client_id : rstring;
  nc_redirect_uri : rstring;
  nc_subject_dn : rstring;
  nc_nonce : option rstring;
  nc_scope : rstring;
}.

(** [expires_at] is an instant in nanoseconds. *)
Record IssuedCode := mkIssuedCode { ic : NewCode; expires_at : Z }.

Definition CodeStore := gmap rstring IssuedCode.

(** The base64url engine without padding. *)
Class Base64Url := {
  u64_encode : bytes -> rstring;
  u64_decode : rstring -> option bytes;
  u64_roundtrip b : bytes_ok b -> u64_decode (u64_encode b) = Some b;
  u64_alphabet b : bytes_ok b ->
    Forall (fun c => 65 <= c <= 90 \/ 97 <= c <= 122 \/ 48 <= c <= 57 \/ c = 45 \/ c = 95) (u64_encode b);
}.

Section codes.
  Context `{Base64Url}.

Definition issue (codes : CodeStore) (new : NewCode) (ttl : Z) : prog (result Error (rstring * CodeStore)) :=
  raw <-? random_bytes 32 ;;
  t <-? read_clock ;;
  let code := u64_encode raw in
  Ret (Ok (code, <[code := mkIssuedCode new (t + ttl)]> codes)).
End codes.

(** The clock is read only for a code that is there. *)
Definition consume (codes : CodeStore) (code : rstring) : prog (option IssuedCode * CodeStore) :=
  match codes !! code with
  | None => Ret (None, codes)
  | Some entry =>
      Call Now (fun now => Ret (if expires_at entry <? now then None else Some entry, delete code codes))
  end.

(** ** Claims, [claims.rs] *)

Record IdTokenClaims := mkIdToken {
  it_iss : rstring;
  it_sub : rstring;
  it_aud : rstring;
  it_exp : Z;
  it_iat : Z;
  it_nonce : option rstring;
  it_email : option rstring;
  it_name : option rstring;
  it_preferred_username : option rstring;
}.

Record AccessTokenClaims := mkAccessToken { at_iss : rstring; at_sub : rstring; at_exp : Z; at_iat : Z; at_scope : rstring }.

(** From a reading of the clock; a time before 1970 counts as 0. *)
Definition now_secs (t : Z) : Z := if t <? 0 then 0 else t / NANOS.

(** ** Tokens, [jwt.rs] *)

(** [serde_json] for one type; its output is UTF-8. *)
Class ToJson (A : Type) := { to_vec : A -> option bytes; to_vec_ok a b : to_vec a = Some b -> bytes_ok b }.
Class FromJson (A : Type) := { from_slice : bytes -> option A }.

(** What is written can be read back. *)
Class JsonLaw (A : Type) `{!ToJson A, !FromJson A} :=
  json_roundtrip (a : A) b : to_vec a = Some b -> from_slice b = Some a.

(** The signer and verifier of the key pair. *)
Class SigningKey := {
  ecdsa_sign : bytes -> option bytes;
  ecdsa_verify : bytes -> bytes -> bool;
}.

(** A signature is the canonical DER of two numbers of 32 bytes, and verifies. *)
Class SigningKeyLaw `{SigningKey} :=
  sign_verifies message der : ecdsa_sign message = Some der ->
    ecdsa_verify message der = true /\
    exists raw, zlen raw = 2 * P256_COMPONENT_LEN /\ bytes_ok raw /\ der = jose_to_der raw P256_COMPONENT_LEN.

Record Header := mkHeader { alg : rstring; typ : rstring; kid : rstring }.

Inductive JwtError :=
| JwtCrypto (e : Error)
| Malformed (what : rstring)
| JwtJson
| BadSignature.

Section jwt.
  Context `{Base64Url} `{SigningKey} `{!ToJson Header}.

Definition sign {A : Type} `{!ToJson A} (key_id : rstring) (claims : A) : result JwtError rstring :=
  let header := mkHeader (str "ES256") (str "JWT") key_id in
  hb ← ok_or JwtJson (to_vec header);
  cb ← ok_or JwtJson (to_vec claims);
  let signing_input := u64_encode hb ++ str "." ++ u64_encode cb in
  sig ← map_err JwtCrypto (sign_es256 ecdsa_sign (utf8_encode signing_input));
  Ok (signing_input ++ str "." ++ u64_encode sig).

Definition verify {A : Type} `{!FromJson A} (token : rstring) : result JwtError A :=
  match splitn3 (ch ".") token with
  | None => Err (Malformed (str "expected three dot-separated parts"))
  | Some (header_b64, claims_b64, sig_b64) =>
      let signing_input := header_b64 ++ str "." ++ claims_b64 in
      sig ← ok_or (Malformed (str "signature is not valid base64url")) (u64_decode sig_b64);
      v ← map_err JwtCrypto (verify_es256 ecdsa_verify (utf8_encode signing_input) sig);
      if negb v then Err BadSignature
      else
        claims_bytes ← ok_or (Malformed (str "claims are not valid base64url")) (u64_decode claims_b64);
        ok_or JwtJson (from_slice claims_bytes)
  end.
End jwt.

(** ** Discovery, [discovery.rs] *)

Definition KEY_ID : rstring := str "iron-oidc-1".

Definition strings (l : list rstring) : Value := VArray (List.map VString l).

Definition openid_configuration (issuer : rstring) : Value :=
  VObject [
    (str "issuer", VString issuer);
    (str "authorization_endpoint", VString (issuer ++ str "/authorize"));
    (str "token_endpoint", VString (issuer ++ str "/token"));
    (str "userinfo_endpoint", VString (issuer ++ str "/userinfo"));
    (str "jwks_uri", VString (issuer ++ str "/.well-known/jwks.json"));
    (str "response_types_supported", strings [str "code"]);
    (str "grant_types_supported", strings [str "authorization_code"]);
    (str "subject_types_supported", strings [str "public"]);
    (str "id_token_signing_alg_values_supported", strings [str "ES256"]);
    (str "scopes_supported", strings [str "openid"; str "profile"; str "email"]);
    (str "token_endpoint_auth_methods_supported", strings [str "client_secret_basic"; str "client_secret_post"]);
    (str "claims_supported", strings [str "sub"; str "iss"; str "aud"; str "exp"; str "iat"; str "email"; str "name"; str "preferred_username"])
  ].

(** [pubkey]: the point of the key pair. *)
Definition jwks `{Base64Url} (pubkey : bytes) : result Error Value :=
  xy ← public_xy pubkey;
  Ok (VObject [(str "keys", VArray [VObject [
    (str "kty", VString (str "EC"));
    (str "crv", VString (str "P-256"));
    (str "use", VString (str "sig"));
    (str "alg", VString (str "ES256"));
    (str "kid", VString KEY_ID);
    (str "x", VString (u64_encode xy.1));
    (str "y", VString (u64_encode xy.2))]])]).

(** ** Tokens that were signed verify *)

Section jwt_laws.
  Context `{Base64Url} `{SigningKey} `{!SigningKeyLaw} `{!ToJson Header}.

(** The alphabet is ASCII and has no separator. *)
Lemma u64_ascii b : bytes_ok b -> Forall (fun c => 0 <= c < 128) (u64_encode b).
Proof. intros Hb. eapply Forall_impl; [by apply u64_alphabet|]. cbn. lia. Qed.

Lemma u64_no_dot b : bytes_ok b -> ch "." ∉ u64_encode b.
Proof.
  change (ch ".") with 46. intros Hb Hin. pose proof (proj1 (Forall_forall _ _) (u64_alphabet b Hb) _ Hin) as Hc. cbn in Hc. lia.
Qed.

(** The signature of a message verifies in its fixed-size form. *)
Lemma sign_verify_es256 message sig :
  sign_es256 ecdsa_sign message = Ok sig -> bytes_ok sig /\ verify_es256 ecdsa_verify message sig = Ok true.
Proof.
  unfold sign_es256. destruct (ecdsa_sign message) as [der|] eqn:E; [|done]. cbn [ok_or mbind result_bind].
  destruct (sign_verifies _ _ E) as (Hv & raw & Hl & Hb & ->).
  rewrite (jose_der_roundtrip raw P256_COMPONENT_LEN Hl) by by_decide. intros [= <-]. split; [done|].
  unfold verify_es256. rewrite Hl, Z.eqb_refl. cbn [negb]. by rewrite Hv.
Qed.

Lemma jwt_sign_verify {A : Type} `{!ToJson A, !FromJson A, !JsonLaw A} key_id (claims : A) token :
  sign key_id claims = Ok token -> verify token = Ok claims.
Proof.
  unfold sign. destruct (to_vec (mkHeader _ _ key_id)) as [hb|] eqn:Eh; [|done].
  destruct (to_vec claims) as [cb|] eqn:Ec; [|done]. cbn [ok_or mbind result_bind].
  pose proof (to_vec_ok _ _ Eh) as Hhb. pose proof (to_vec_ok _ _ Ec) as Hcb. pose proof (json_roundtrip _ _ Ec) as Hc.
  set (input := u64_encode hb ++ str "." ++ u64_encode cb).
  destruct (sign_es256 ecdsa_sign (utf8_encode input)) as [sig|] eqn:Es; [|done]. cbn [map_err mbind result_bind]. intros Ht.
  apply sign_verify_es256 in Es as [Hsig Hv]. unfold verify.
  assert (token = u64_encode hb ++ ch "." :: u64_encode cb ++ ch "." :: u64_encode sig) as ->.
  { transitivity (input ++ str "." ++ u64_encode sig); [congruence|]. unfold input. by rewrite <- !app_assoc. }
  rewrite splitn3_app by by apply u64_no_dot. cbv beta iota zeta.
  change (u64_encode hb ++ str "." ++ u64_encode cb) with input. rewrite (u64_roundtrip sig) by done. cbn [ok_or mbind result_bind].
  rewrite Hv. cbn [map_err mbind result_bind negb]. rewrite (u64_roundtrip cb) by done. cbn [ok_or mbind result_bind]. by rewrite Hc.
Qed.
End jwt_laws.
