(* ===== verification/OidcHandlers.v ===== *)
(** The endpoints of the OpenID Connect server, [crates/oidc/src/handlers]
    and the routing of [crates/oidc/src/lib.rs]. *)

From S2P Require Import Prelude Bytes Str Btree Utf8 Dn Partition Key Registry Entry Etcd Index Store Directory.
From S2P Require Import Token Kerberos Password Sign BinaryAttrs Krb Oidc.

(** What a handler answers; a [Redirect] is a 303. *)
Inductive Response :=
| Page (html : rstring)
| Redirect (location : rstring)
| Plain (status : Z) (text : rstring)
| JsonBody (status : Z) (body : Value).

Definition OK : Z := 200.
Definition BAD_REQUEST : Z := 400.
Definition UNAUTHORIZED : Z := 401.
Definition INTERNAL_SERVER_ERROR : Z := 500.

(** The durations are in nanoseconds; [public_key] is the signing key's point. *)
Record AppState := mkAppState {
  issuer : rstring;
  oidc_store : Store;
  oidc_base_dn : Dn;
  login_attribute : rstring;
  public_key : bytes;
  oidc_clients : ClientRegistry;
  code_ttl : Z;
  token_ttl : Z;
}.

Definition USER_PASSWORD_ATTR : rstring := str "userpassword".

Definition attr (entry : Entry) (name : rstring) : option rstring := Entry.get entry name ≫= head.

(** ** The login form, [authorize.rs] *)

Record AuthorizeParams := mkParams {
  response_type : rstring;
  ap_client_id : rstring;
  ap_redirect_uri : rstring;
  ap_scope : rstring;
  ap_state : option rstring;
  ap_nonce : option rstring;
}.

Record LoginForm := mkLogin {
  username : rstring;
  password : rstring;
  lf_client_id : rstring;
  lf_redirect_uri : rstring;
  lf_scope : rstring;
  lf_state : option rstring;
  lf_nonce : option rstring;
  lf_error : option rstring;
}.

(** [str::replace] of a character. *)
Definition replace (c : char) (by_ : rstring) (s : rstring) : rstring :=
  concat (List.map (fun x => if x =? c then by_ else [x]) s).

Definition html_escape (s : rstring) : rstring :=
  replace (ch "'") (str "&#39;") (replace 34 (str "&quot;") (replace (ch ">") (str "&gt;")
    (replace (ch "<") (str "&lt;") (replace (ch "&") (str "&amp;") s)))).

(** Quotation marks and line ends of the template. *)
Definition quoted (s : rstring) : rstring := [34] ++ s ++ [34].
Definition line (s : rstring) : rstring := s ++ [10].

Definition hidden (name : string) (value : rstring) : rstring :=
  line (str "<input type=" ++ quoted (str "hidden") ++ str " name=" ++ quoted (str name) ++ str " value=" ++ quoted value ++ str ">").

Definition login_page (params : AuthorizeParams) (error : option rstring) : Response :=
  let error_html :=
    match error with
    | Some e => str "<p style=" ++ quoted (str "color:red") ++ str ">" ++ html_escape e ++ str "</p>"
    | None => []
    end in
  Page (line (str "<!doctype html>")
    ++ line (str "<html><head><title>Sign in</title></head><body>")
    ++ line error_html
    ++ line (str "<form method=" ++ quoted (str "post") ++ str " action=" ++ quoted (str "/authorize") ++ str ">")
    ++ hidden "client_id" (html_escape (ap_client_id params))
    ++ hidden "redirect_uri" (html_escape (ap_redirect_uri params))
    ++ hidden "scope" (html_escape (ap_scope params))
    ++ hidden "state" (html_escape (default [] (ap_state params)))
    ++ hidden "nonce" (html_escape (default [] (ap_nonce params)))
    ++ line (str "<label>Username <input type=" ++ quoted (str "text") ++ str " name=" ++ quoted (str "username") ++ str " autofocus></label><br>")
    ++ line (str "<label>Password <input type=" ++ quoted (str "password") ++ str " name=" ++ quoted (str "password") ++ str "></label><br>")
    ++ line (str "<button type=" ++ quoted (str "submit") ++ str ">Sign in</button>")
    ++ line (str "</form>")
    ++ str "</body></html>").

Definition validate_client (app : AppState) (client_id redirect_uri : rstring) : option Client :=
  client ← get_client (oidc_clients app) client_id;
  if bool_decide (c_redirect_uri client = redirect_uri) then Some client else None.

(** A byte that needs no encoding. *)
Definition unreserved (b : Z) : bool :=
  ((65 <=? b) && (b <=? 90)) || ((97 <=? b) && (b <=? 122)) || ((48 <=? b) && (b <=? 57))
  || (b =? ch "-") || (b =? ch "_") || (b =? ch ".") || (b =? ch "~").

(** A digit of [{:02X}]. *)
Definition upper_hex (d : Z) : char := if d <? 10 then 48 + d else 55 + d.

Definition urlencoding_encode (s : rstring) : rstring :=
  concat (List.map (fun b => if unreserved b then [b] else [ch "%"; upper_hex (b / 16); upper_hex (b mod 16)]) (utf8_encode s)).

Definition with_state (redirect : rstring) (state : option rstring) : rstring :=
  match state with Some s => redirect ++ str "&state=" ++ urlencoding_encode s | None => redirect end.

Definition bad_client : Response := Plain BAD_REQUEST (str "unknown client_id or redirect_uri does not match registration").

Definition show_login (app : AppState) (params : AuthorizeParams) : Response :=
  match validate_client app (ap_client_id params) (ap_redirect_uri params) with
  | None => bad_client
  | Some _ =>
      if negb (bool_decide (response_type params = str "code"))
      then Redirect (with_state (ap_redirect_uri params ++ str "?error=unsupported_response_type") (ap_state params))
      else login_page params None
  end.

Definition form_params (form : LoginForm) : AuthorizeParams :=
  mkParams (str "code") (lf_client_id form) (lf_redirect_uri form) (lf_scope form) (lf_state form) (lf_nonce form).

Definition invalid_login (form : LoginForm) : Response := login_page (form_params form) (Some (str "Invalid username or password")).

Section handlers.
  Context `{EntryCodec} `{Base64} `{!OpenSsl} `{!Base64Url} `{!SigningKey} `{!ToJson Header}
    `{!ToJson IdTokenClaims} `{!ToJson AccessTokenClaims, !FromJson AccessTokenClaims}.

(** [mod.rs]. *)
Definition resolve_user (st : Store) (base_dn : Dn) (login_attr name : rstring) : prog (option (Dn * Entry)) :=
  prog_bind_ (fun dns =>
      match dns with
      | Ok [dn] => prog_bind_ (fun r => Ret (match r with Ok (Some entry) => Some (dn, entry) | _ => None end)) (Store.get_entry st dn)
      | _ => Ret None
      end) (Store.lookup_by_index st base_dn login_attr name).

(** The response ([None] is a panic in [verify_password]) and the codes. *)
Definition submit_login (app : AppState) (codes : CodeStore) (form : LoginForm) : prog (option Response * CodeStore) :=
  match validate_client app (lf_client_id form) (lf_redirect_uri form) with
  | None => Ret (Some bad_client, codes)
  | Some _ =>
      prog_bind_ (fun user =>
          match user with
          | None => Ret (Some (invalid_login form), codes)
          | Some (dn, entry) =>
              match attr entry USER_PASSWORD_ATTR with
              | None => Ret (Some (invalid_login form), codes)
              | Some stored =>
                  match verify_password (utf8_encode (password form)) stored with
                  | None => Ret (None, codes)
                  | Some (Ok true) =>
                      let new_code := mkNewCode (lf_client_id form) (lf_redirect_uri form) (Dn.to_string dn) (lf_nonce form) (lf_scope form) in
                      prog_bind_ (fun issued =>
                          Ret (match issued with
                               | Ok (code, codes') =>
                                   (Some (Redirect (with_state (lf_redirect_uri form ++ str "?code=" ++ urlencoding_encode code) (lf_state form))), codes')
                               | Err _ => (Some (Plain INTERNAL_SERVER_ERROR (str "failed to issue authorization code")), codes)
                               end)) (issue codes new_code (code_ttl app))
                  | Some _ => Ret (Some (invalid_login form), codes)
                  end
              end
          end) (resolve_user (oidc_store app) (oidc_base_dn app) (login_attribute app) (username form))
  end.

(** ** The token endpoint, [token.rs] *)

Record TokenForm := mkTokenForm {
  grant_type : rstring;
  tf_code : option rstring;
  tf_redirect_uri : option rstring;
  tf_client_id : option rstring;
  tf_client_secret : option rstring;
}.

Definition error_response (status : Z) (error description : rstring) : Response :=
  JsonBody status (VObject [(str "error", VString error); (str "error_description", VString description)]).

(** [authorization]: the header of that name, if it is there and is text. *)
Definition basic_auth (authorization : option rstring) : option (rstring * rstring) :=
  value ← authorization;
  encoded ← strip_prefix (str "Basic ") value;
  decoded ← b64_decode encoded;
  decoded ← utf8_decode decoded;
  split_once (ch ":") decoded.

Definition client_credentials (authorization : option rstring) (form : TokenForm) : option (rstring * rstring) :=
  match basic_auth authorization with
  | Some creds => Some creds
  | None =>
      match tf_client_id form, tf_client_secret form with
      | Some id, Some secret => Some (id, secret)
      | _, _ => None
      end
  end.

(** [exp] is a [u64]. *)
Definition token_claims (app : AppState) (client_id : rstring) (issued : NewCode) (entry : Entry) (t : Z) : IdTokenClaims * AccessTokenClaims :=
  let scopes := split_whitespace (nc_scope issued) in
  let email := if bool_decide (str "email" ∈ scopes) then attr entry (str "mail") else None in
  let name := if bool_decide (str "profile" ∈ scopes) then attr entry (str "cn") else None in
  let preferred_username := match attr entry (str "uid") with Some u => Some u | None => attr entry (str "cn") end in
  let iat := now_secs t in
  let exp := as_u64 (iat + token_ttl app / NANOS) in
  (mkIdToken (issuer app) (nc_subject_dn issued) client_id exp iat (nc_nonce issued) email name preferred_username,
   mkAccessToken (issuer app) (nc_subject_dn issued) exp iat (nc_scope issued)).

(** Both tokens, signed. *)
Definition grant_tokens (app : AppState) (scope : rstring) (claims : IdTokenClaims * AccessTokenClaims) : Response :=
  match sign KEY_ID claims.1 with
  | Err _ => error_response INTERNAL_SERVER_ERROR (str "server_error") (str "failed to sign id_token")
  | Ok id_token =>
      match sign KEY_ID claims.2 with
      | Err _ => error_response INTERNAL_SERVER_ERROR (str "server_error") (str "failed to sign access_token")
      | Ok access_token =>
          JsonBody OK (VObject [
            (str "access_token", VString access_token);
            (str "token_type", VString (str "Bearer"));
            (str "expires_in", VNumber (token_ttl app / NANOS));
            (str "id_token", VString id_token);
            (str "scope", VString scope)])
      end
  end.

(** What follows once the code is taken out of the store. *)
Definition redeem (app : AppState) (client_id redirect_uri : rstring) (issued : option IssuedCode) : prog Response :=
  match issued with
  | None => Ret (error_response BAD_REQUEST (str "invalid_grant") (str "code is unknown, expired, or already used"))
  | Some issued =>
      let issued := ic issued in
      if negb (bool_decide (nc_client_id issued = client_id)) || negb (bool_decide (nc_redirect_uri issued = redirect_uri))
      then Ret (error_response BAD_REQUEST (str "invalid_grant") (str "code was not issued to this client/redirect_uri"))
      else
        match Dn.parse (nc_subject_dn issued) with
        | Err _ => Ret (error_response INTERNAL_SERVER_ERROR (str "server_error") (str "stored subject DN is malformed"))
        | Ok subject_dn =>
            prog_bind_ (fun r =>
                match r with
                | Ok (Some entry) =>
                    Call Now (fun t => Ret (grant_tokens app (nc_scope issued) (token_claims app client_id issued entry t)))
                | _ => Ret (error_response BAD_REQUEST (str "invalid_grant") (str "the authenticated user no longer exists"))
                end) (Store.get_entry (oidc_store app) subject_dn)
        end
  end.

Definition token (app : AppState) (codes : CodeStore) (authorization : option rstring) (form : TokenForm) : prog (Response * CodeStore) :=
  match client_credentials authorization form with
  | None => Ret (error_response UNAUTHORIZED (str "invalid_client") (str "missing client credentials"), codes)
  | Some (client_id, client_secret) =>
      if negb (authenticate (oidc_clients app) client_id client_secret)
      then Ret (error_response UNAUTHORIZED (str "invalid_client") (str "unknown client or bad secret"), codes)
      else if negb (bool_decide (grant_type form = str "authorization_code"))
      then Ret (error_response BAD_REQUEST (str "unsupported_grant_type") (str "only authorization_code is supported"), codes)
      else
        match tf_code form, tf_redirect_uri form with
        | Some code, Some redirect_uri =>
            prog_bind_ (fun taken =>
                prog_bind_ (fun resp => Ret (resp, taken.2)) (redeem app client_id redirect_uri taken.1)) (consume codes code)
        | _, _ => Ret (error_response BAD_REQUEST (str "invalid_request") (str "code and redirect_uri are required"), codes)
        end
  end.

(** ** The user's claims, [userinfo.rs] *)

Definition unauthorized (description : rstring) : Response :=
  JsonBody UNAUTHORIZED (VObject [(str "error", VString (str "invalid_token")); (str "error_description", VString description)]).

(** A member of the body that is left out when the entry has no value. *)
Definition member (name : rstring) (v : option rstring) : list (rstring * Value) :=
  match v with Some s => [(name, VString s)] | None => [] end.

Definition userinfo_body (claims : AccessTokenClaims) (entry : Entry) : Value :=
  let scopes := split_whitespace (at_scope claims) in
  VObject ([(str "sub", VString (at_sub claims))]
    ++ (if bool_decide (str "email" ∈ scopes) then member (str "email") (attr entry (str "mail")) else [])
    ++ (if bool_decide (str "profile" ∈ scopes) then member (str "name") (attr entry (str "cn")) else [])
    ++ member (str "preferred_username") (match attr entry (str "uid") with Some u => Some u | None => attr entry (str "cn") end)).

Definition userinfo (app : AppState) (authorization : option rstring) : prog Response :=
  match authorization with
  | None => Ret (unauthorized (str "missing Authorization header"))
  | Some auth =>
      match strip_prefix (str "Bearer ") auth with
      | None => Ret (unauthorized (str "expected a Bearer token"))
      | Some token =>
          match verify (A := AccessTokenClaims) token with
          | Err _ => Ret (unauthorized (str "token signature is invalid or malformed"))
          | Ok claims =>
              Call Now (fun t =>
                if at_exp claims <? now_secs t then Ret (unauthorized (str "token has expired"))
                else
                  match Dn.parse (at_sub claims) with
                  | Err _ => Ret (unauthorized (str "token subject is malformed"))
                  | Ok subject_dn =>
                      prog_bind_ (fun r =>
                          Ret (match r with
                               | Ok (Some entry) => JsonBody OK (userinfo_body claims entry)
                               | _ => unauthorized (str "the token's subject no longer exists")
                               end)) (Store.get_entry (oidc_store app) subject_dn)
                  end)
          end
      end
  end.

(** ** Routing, [lib.rs] *)

Inductive Request :=
| GetConfiguration
| GetJwks
| GetAuthorize (params : AuthorizeParams)
| PostAuthorize (form : LoginForm)
| PostToken (authorization : option rstring) (form : TokenForm)
| GetUserinfo (authorization : option rstring).

(** [handlers/discovery.rs]: the failure has no body. *)
Definition jwks_response (app : AppState) : Response :=
  match jwks (public_key app) with Ok v => JsonBody OK v | Err _ => Plain INTERNAL_SERVER_ERROR [] end.

Definition router (app : AppState) (codes : CodeStore) (req : Request) : prog (option Response * CodeStore) :=
  match req with
  | GetConfiguration => Ret (Some (JsonBody OK (openid_configuration (issuer app))), codes)
  | GetJwks => Ret (Some (jwks_response app), codes)
  | GetAuthorize params => Ret (Some (show_login app params), codes)
  | PostAuthorize form => submit_login app codes form
  | PostToken authorization form => prog_bind_ (fun r => Ret (Some r.1, r.2)) (token app codes authorization form)
  | GetUserinfo authorization => prog_bind_ (fun r => Ret (Some r, codes)) (userinfo app authorization)
  end.
End handlers.
