(* ===== verification/OidcFlow.v ===== *)
(** What the OpenID Connect server guarantees: redirects go to registered
    addresses, codes come from sign-ins and are redeemed once, and tokens carry
    the claims of the user who signed in. *)

From S2P Require Import Prelude Bytes Str Btree Utf8 Dn Partition Key Registry Entry Etcd Index Store Directory.
From S2P Require Import Token Kerberos Password Sign BinaryAttrs Krb Kdc LdapBind Oidc OidcHandlers.

(** ** The login page and the redirects *)

(** Reading back an encoded query value (RFC 3986). *)
Fixpoint percent_decode (s : rstring) : bytes :=
  match s with
  | c :: ((h :: l :: s'') as s') =>
      if c =? ch "%" then (16 * hex_value h + hex_value l) :: percent_decode s'' else c :: percent_decode s'
  | c :: s' => c :: percent_decode s'
  | [] => []
  end.

Lemma percent_decode_plain c s : c <> ch "%" -> percent_decode (c :: s) = c :: percent_decode s.
Proof. intros Hc. cbn [percent_decode]. destruct s as [|h [|l s]]; [done..|]. by destruct (Z.eqb_spec c (ch "%")). Qed.

Lemma upper_hex_value d : 0 <= d < 16 -> hex_value (upper_hex d) = d /\ 48 <= upper_hex d <= 70 /\ unreserved (upper_hex d) = true.
Proof.
  intros Hd. assert (d = 0 \/ d = 1 \/ d = 2 \/ d = 3 \/ d = 4 \/ d = 5 \/ d = 6 \/ d = 7 \/ d = 8 \/ d = 9 \/ d = 10 \/ d = 11 \/
    d = 12 \/ d = 13 \/ d = 14 \/ d = 15) as Hc by lia.
  repeat (destruct Hc as [->|Hc]; [by_decide|]). subst. by_decide.
Qed.

Lemma unreserved_percent c : unreserved c = true -> c <> ch "%".
Proof. by intros Hc ->. Qed.

(** A query value holds only unreserved characters and percent signs, and
    stands for the string it was made from. *)
Lemma urlencoding_spec s :
  str_ok s ->
  Forall (fun c => unreserved c = true \/ c = ch "%") (urlencoding_encode s) /\
  utf8_decode (percent_decode (urlencoding_encode s)) = Some s.
Proof.
  intros Hs. unfold urlencoding_encode. pose proof (utf8_encode_ok s Hs) as Hb.
  assert (forall b, bytes_ok b ->
    let e := concat (List.map (fun b => if unreserved b then [b] else [ch "%"; upper_hex (b / 16); upper_hex (b mod 16)]) b) in
    Forall (fun c => unreserved c = true \/ c = ch "%") e /\ percent_decode e = b) as Hmain.
  { induction 1 as [|x b Hx _ [IHa IHd]]; [by split|]. cbn [List.map concat]. destruct (unreserved x) eqn:Hu.
    - cbn [app]. split; [constructor; auto|]. rewrite percent_decode_plain by by apply unreserved_percent. by rewrite IHd.
    - unfold is_byte in Hx. destruct (upper_hex_value (x / 16)) as (Hh & _ & Hhu); [zlia|].
      destruct (upper_hex_value (x mod 16)) as (Hl & _ & Hlu); [zlia|]. cbn [app]. split.
      + repeat (constructor; [auto|]). done.
      + cbn [percent_decode]. change (ch "%" =? ch "%") with true. cbv iota. rewrite Hh, Hl. f_equal; [zlia|exact IHd]. }
  destruct (Hmain _ Hb) as [Ha ->]. split; [done|]. by apply utf8_roundtrip.
Qed.

(** The five replacements are one pass over the characters. *)
Definition escape_char (c : char) : rstring :=
  if c =? ch "&" then str "&amp;" else if c =? ch "<" then str "&lt;" else if c =? ch ">" then str "&gt;"
  else if c =? 34 then str "&quot;" else if c =? ch "'" then str "&#39;" else [c].

Lemma replace_app c r s t : replace c r (s ++ t) = replace c r s ++ replace c r t.
Proof. unfold replace. by rewrite map_app, concat_app. Qed.

Lemma html_escape_app s t : html_escape (s ++ t) = html_escape s ++ html_escape t.
Proof. unfold html_escape. by rewrite !replace_app. Qed.

Lemma html_escape_char c : html_escape [c] = escape_char c.
Proof.
  unfold escape_char. repeat (match goal with |- context [c =? ?k] => destruct (Z.eqb_spec c k) as [->|]; [by vm_compute|] end).
  unfold html_escape, replace. cbn [List.map concat].
  repeat (match goal with |- context [c =? ?k] => destruct (Z.eqb_spec c k); [done|]; cbn [List.map concat app] end). done.
Qed.

Lemma html_escape_one_pass s : html_escape s = concat (List.map escape_char s).
Proof. induction s as [|c s IH]; [done|]. change (c :: s) with ([c] ++ s). by rewrite html_escape_app, html_escape_char, IH. Qed.

(** No markup and no quotation mark survives. *)
Lemma html_escape_inert s c : c ∈ html_escape s -> c <> ch "<" /\ c <> ch ">" /\ c <> 34 /\ c <> ch "'".
Proof.
  rewrite html_escape_one_pass, list_elem_of_In, in_concat. intros (e & He & Hc). apply in_map_iff in He as (x & <- & _).
  apply list_elem_of_In in Hc. revert Hc. unfold escape_char.
  repeat (match goal with |- context [x =? ?k] => destruct (Z.eqb_spec x k) as [->|] end); intros Hc;
    try (apply list_elem_of_singleton in Hc as ->; done);
    repeat (apply elem_of_cons in Hc as [->|Hc]; [by_decide|]); by apply elem_of_nil in Hc.
Qed.

(** A list with one member. *)
Lemma nodup_one {A : Type} (l : list A) x : NoDup l -> (forall y, y ∈ l <-> y = x) -> l = [x].
Proof.
  intros Hn Hl. destruct l as [|a [|b l]].
  - pose proof (proj2 (Hl x) eq_refl) as Hx. by apply elem_of_nil in Hx.
  - f_equal. apply Hl. set_solver.
  - apply NoDup_cons in Hn as [Hn _]. destruct Hn. replace a with x by (symmetry; apply Hl; set_solver).
    replace b with x by (symmetry; apply Hl; set_solver). set_solver.
Qed.

(** ** What each endpoint does *)

Section endpoints.
  Context `{EntryCodec} `{Base64} `{!OpenSsl} `{!Base64Url} `{!SigningKey, !SigningKeyLaw} `{!ToJson Header}
    `{!ToJson IdTokenClaims, !FromJson IdTokenClaims, !JsonLaw IdTokenClaims}
    `{!ToJson AccessTokenClaims, !FromJson AccessTokenClaims, !JsonLaw AccessTokenClaims}.
  Context (app : AppState) (Hst : connected (oidc_store app)) (spec : IndexSpec)
    (indexed : to_ascii_lowercase (login_attribute app) ∈ spec).
  Implicit Types (F : forest) (m : kvstore) (T : Z -> Prop) (codes : CodeStore).

(** The user: the one entry with this login name, and the right password. *)
Definition user_is F (name : rstring) (dn : Dn) (e : Entry) : Prop :=
  (forall d, indexed_dn (oidc_store app) F (oidc_base_dn app) (login_attribute app) name d <-> d = dn) /\
  exists dn', find_entry (oidc_store app) F dn = Some (dn', e).

Definition password_right (e : Entry) (password : rstring) : Prop :=
  exists stored, attr e USER_PASSWORD_ATTR = Some stored /\ verify_password (utf8_encode password) stored = Some (Ok true).

Definition new_code (form : LoginForm) (dn : Dn) : NewCode :=
  mkNewCode (lf_client_id form) (lf_redirect_uri form) (Dn.to_string dn) (lf_nonce form) (lf_scope form).

Definition code_redirect (form : LoginForm) (code : rstring) : Response :=
  Redirect (with_state (lf_redirect_uri form ++ str "?code=" ++ urlencoding_encode code) (lf_state form)).

Definition random_code (code : rstring) : Prop := exists raw, zlen raw = 32 /\ bytes_ok raw /\ code = u64_encode raw.

(** A sign-in, and the code it hands out. *)
Definition signs_in F (form : LoginForm) (r : option Response) (code : rstring) (new : NewCode) : Prop :=
  exists c dn e, get_client (oidc_clients app) (lf_client_id form) = Some c /\ c_redirect_uri c = lf_redirect_uri form /\
    user_is F (username form) dn e /\ password_right e (password form) /\
    new = new_code form dn /\ random_code code /\ r = Some (code_redirect form code).

Definition redirects (r : option Response) : Prop := exists l, r = Some (Redirect l).

Lemma validate_client_Some id uri c :
  validate_client app id uri = Some c <-> get_client (oidc_clients app) id = Some c /\ c_redirect_uri c = uri.
Proof.
  unfold validate_client. destruct (get_client (oidc_clients app) id) as [c'|]; cbn [mbind option_bind]; [|naive_solver].
  destruct (bool_decide_reflect (c_redirect_uri c' = uri)); naive_solver.
Qed.

Lemma resolve_user_runs T F m name r m' :
  holds (oidc_store app) spec F m ->
  runs_at T (resolve_user (oidc_store app) (oidc_base_dn app) (login_attribute app) name) m r m' ->
  m' = m /\ forall dn e, r = Some (dn, e) -> user_is F name dn e.
Proof.
  intros HF (dns & m1 & Hl%runs_at_runs & Hr)%runs_at_bind. apply (lookup_runs _ Hst spec F) in Hl as [-> Hl]; [|done..].
  destruct Hl as [[x ->]|(l & -> & _ & Hl)]; [by destruct Hr as [-> ->]|]. destruct l as [|dn [|? ?]]; [by destruct Hr as [-> ->]| |by destruct Hr as [-> ->]].
  apply runs_at_bind in Hr as (g & m2 & Hg%runs_at_runs & -> & ->). apply (get_entry_runs _ Hst spec F) in Hg as [-> Hg]; [|done].
  split; [done|]. intros d e. destruct Hg as [->|[x ->]]; [|done].
  destruct (find_entry (oidc_store app) F dn) as [[dn' e']|] eqn:Hf; [|done]. cbn. intros [= <- <-]. split.
  - intros d. rewrite <- Hl. apply list_elem_of_singleton.
  - by exists dn'.
Qed.

Lemma issue_runs T codes new ttl m r m' :
  runs_at T (issue codes new ttl) m r m' ->
  m' = m /\ forall code codes', r = Ok (code, codes') -> random_code code /\ exists t, T t /\ codes' = <[code := mkIssuedCode new (t + ttl)]> codes.
Proof.
  intros (raw & m1 & Hraw & Hr)%runs_at_bind. destruct Hraw as (rep & m2 & [-> Hrep] & _ & -> & ->).
  destruct Hrep as [->|(b & -> & Hl & Hb)]; cbn [ok_or] in Hr; [by destruct Hr as [-> ->]|].
  destruct Hr as (t & m3 & Hm & Ht & -> & ->). cbn [served] in Hm. subst. split; [done|]. intros code codes' [= <- <-]. split; [|by exists t].
  exists b. split; [|done]. unfold zlen. by rewrite Hl.
Qed.

Lemma submit_login_runs T F m codes form r codes' m' :
  holds (oidc_store app) spec F m -> runs_at T (submit_login app codes form) m (r, codes') m' ->
  m' = m /\
  ((codes' = codes /\ ~ redirects r) \/
   exists code new t, signs_in F form r code new /\ T t /\ codes' = <[code := mkIssuedCode new (t + code_ttl app)]> codes).
Proof.
  intros HF. unfold submit_login.
  assert (forall x m', runs_at T (Ret (x, codes)) m (r, codes') m' -> ~ redirects x ->
    m' = m /\ ((codes' = codes /\ ~ redirects r) \/ exists code new t, signs_in F form r code new /\ T t /\
      codes' = <[code := mkIssuedCode new (t + code_ttl app)]> codes)) as Hquit.
  { intros x m'' [[= -> ->] ->] Hx. auto. }
  destruct (validate_client app _ _) as [c|] eqn:Hc; [|intros Hr; eapply Hquit; [exact Hr|by intros [? [=]]]].
  apply validate_client_Some in Hc as [Hc Huri].
  intros (u & m1 & Hu & Hr)%runs_at_bind. apply (resolve_user_runs _ F) in Hu as [-> Hu]; [|done].
  destruct u as [[dn e]|]; [|eapply Hquit; [exact Hr|by intros [? [=]]]]. specialize (Hu dn e eq_refl).
  destruct (attr e USER_PASSWORD_ATTR) as [stored|] eqn:Hs; [|eapply Hquit; [exact Hr|by intros [? [=]]]].
  destruct (verify_password _ stored) as [[[|]|]|] eqn:Hv; [|eapply Hquit; [exact Hr|by intros [? [=]]]..].
  apply runs_at_bind in Hr as (i & m2 & Hi & Hr & ->). apply issue_runs in Hi as [-> Hi]. split; [done|].
  destruct i as [[code codes1]|]; [|injection Hr as -> ->; left; split; [done|by intros [? [=]]]].
  injection Hr as -> ->. right. destruct (Hi _ _ eq_refl) as (Hcode & t & Ht & ->).
  exists code, (new_code form dn), t. split; [|done]. exists c, dn, e. do 2 (split; [done|]). split; [done|]. split; [by exists stored|done].
Qed.

(** The tokens of a response, for the user [new] names as the directory has
    them at [t]. *)
Definition tokens_for F (new : NewCode) (t : Z) (body : Value) : Prop :=
  exists dn dn' e id_token access_token, Dn.parse (nc_subject_dn new) = Ok dn /\ find_entry (oidc_store app) F dn = Some (dn', e) /\
    field (str "id_token") body = Some (VString id_token) /\ field (str "access_token") body = Some (VString access_token) /\
    verify id_token = Ok (token_claims app (nc_client_id new) new e t).1 /\
    verify access_token = Ok (token_claims app (nc_client_id new) new e t).2.

(** The client a token request authenticates. *)
Definition client_proved (authorization : option rstring) (form : TokenForm) (id : rstring) : Prop :=
  exists c, client_credentials authorization form = Some (id, c_secret c) /\ get_client (oidc_clients app) id = Some c.

Lemma authenticate_spec id secret :
  authenticate (oidc_clients app) id secret = true <-> exists c, get_client (oidc_clients app) id = Some c /\ c_secret c = secret.
Proof.
  unfold authenticate, get_client. destruct (oidc_clients app !! id) as [c|]; [|naive_solver].
  rewrite bool_decide_eq_true. naive_solver.
Qed.

Lemma grant_tokens_ok scope (claims : IdTokenClaims * AccessTokenClaims) body :
  grant_tokens app scope claims = JsonBody OK body ->
  exists id_token access_token,
    field (str "id_token") body = Some (VString id_token) /\ field (str "access_token") body = Some (VString access_token) /\
    verify id_token = Ok claims.1 /\ verify access_token = Ok claims.2.
Proof.
  unfold grant_tokens. destruct (sign KEY_ID claims.1) as [idt|] eqn:Hi; [|by intros [=]].
  destruct (sign KEY_ID claims.2) as [act|] eqn:Ha; [|by intros [=]]. intros Hr. exists idt, act.
  assert (body = VObject [(str "access_token", VString act); (str "token_type", VString (str "Bearer"));
    (str "expires_in", VNumber (token_ttl app / NANOS)); (str "id_token", VString idt); (str "scope", VString scope)]) as -> by congruence.
  split; [reflexivity|]. split; [reflexivity|]. split; by eapply jwt_sign_verify.
Qed.

Lemma redeem_runs T F m id uri issued body m' :
  holds (oidc_store app) spec F m -> runs_at T (redeem app id uri issued) m (JsonBody OK body) m' ->
  exists entry t, issued = Some entry /\ nc_client_id (ic entry) = id /\ nc_redirect_uri (ic entry) = uri /\ T t /\
    tokens_for F (ic entry) t body.
Proof.
  intros HF. unfold redeem. destruct issued as [[new exp]|]; [|by intros [[=] _]]. cbn [ic].
  destruct (bool_decide_reflect (nc_client_id new = id)) as [Hid|]; [|by intros [[=] _]].
  destruct (bool_decide_reflect (nc_redirect_uri new = uri)) as [Huri|]; [|by intros [[=] _]]. cbn [negb orb].
  destruct (Dn.parse (nc_subject_dn new)) as [dn|] eqn:Hdn; [|by intros [[=] _]].
  intros (g & m1 & Hg%runs_at_runs & Hr)%runs_at_bind. apply (get_entry_runs _ Hst spec F) in Hg as [-> Hg]; [|done].
  destruct Hg as [->|[x ->]]; [|by destruct Hr as [[=] _]].
  destruct (find_entry (oidc_store app) F dn) as [[dn' e]|] eqn:Hf; [|by destruct Hr as [[=] _]].
  destruct Hr as (t & m2 & _ & Ht & Hr & _). symmetry in Hr. apply grant_tokens_ok in Hr as (idt & act & Hr).
  exists (mkIssuedCode new exp), t. cbn [ic]. repeat split; try done. exists dn, dn', e, idt, act. subst id. by repeat split; try apply Hr.
Qed.

Lemma redeem_keeps T F m id uri issued r m' :
  holds (oidc_store app) spec F m -> runs_at T (redeem app id uri issued) m r m' -> m' = m.
Proof.
  intros HF. unfold redeem. destruct issued as [[new exp]|]; [|by intros [_ ->]]. cbn [ic].
  destruct (_ || _); [by intros [_ ->]|]. destruct (Dn.parse _) as [dn|]; [|by intros [_ ->]].
  intros (g & m1 & Hg%runs_at_runs & Hr)%runs_at_bind. apply (get_entry_runs _ Hst spec F) in Hg as [-> _]; [|done].
  destruct g as [[e|]|]; [|by destruct Hr as [_ ->]..]. destruct Hr as (t & m2 & Hm & _ & _ & ->). exact Hm.
Qed.

(** A token request leaves the codes as they were or takes its code out; tokens
    are granted only for a code that was there, in time and to its client. *)
Lemma token_runs T F m codes authorization form r codes' m' :
  holds (oidc_store app) spec F m -> runs_at T (token app codes authorization form) m (r, codes') m' ->
  m' = m /\
  ((codes' = codes /\ forall body, r <> JsonBody OK body) \/
   exists code, tf_code form = Some code /\ codes' = delete code codes /\
     forall body, r = JsonBody OK body ->
     exists entry now t, codes !! code = Some entry /\ T now /\ now <= expires_at entry /\
       client_proved authorization form (nc_client_id (ic entry)) /\ tf_redirect_uri form = Some (nc_redirect_uri (ic entry)) /\
       T t /\ tokens_for F (ic entry) t body).
Proof.
  intros HF. unfold token.
  destruct (client_credentials authorization form) as [[id secret]|] eqn:Hcred; [|by intros [[= -> ->] ->]; auto].
  destruct (authenticate (oidc_clients app) id secret) eqn:Hauth; cbn [negb]; [|by intros [[= -> ->] ->]; auto].
  apply authenticate_spec in Hauth as (c & Hc & <-).
  destruct (bool_decide (grant_type form = _)); cbn [negb]; [|by intros [[= -> ->] ->]; auto].
  destruct (tf_code form) as [code|]; [|by intros [[= -> ->] ->]; auto].
  destruct (tf_redirect_uri form) as [uri|]; [|by intros [[= -> ->] ->]; auto].
  intros ([issued codes1] & m1 & Hcons & Hr)%runs_at_bind. apply runs_at_bind in Hr as (resp & m2 & Hr & Heq & ->).
  cbn [fst snd] in *. injection Heq as -> ->. unfold consume in Hcons. destruct (codes !! code) as [entry|] eqn:Hcode.
  - destruct Hcons as (now & m3 & Hm & Hnow & Heq & ->). cbn [served] in Hm. subst m3. injection Heq as -> ->.
    split; [by eapply redeem_keeps|]. right. exists code. split; [done|]. split; [done|]. intros body ->.
    apply (redeem_runs _ F) in Hr as (entry' & t & He & Hid & Huri & Ht & Htok); [|done].
    destruct (Z.ltb_spec (expires_at entry) now); [done|]. injection He as <-.
    exists entry, now, t. subst id uri. repeat split; try done. by exists c.
  - destruct Hcons as [[= -> ->] ->]. split; [by eapply redeem_keeps|]. left. split; [done|].
    intros body ->. apply (redeem_runs _ F) in Hr as (? & ? & [=] & _); done.
Qed.

Lemma userinfo_runs T F m authorization r m' :
  holds (oidc_store app) spec F m -> runs_at T (userinfo app authorization) m r m' ->
  m' = m /\ forall body, r = JsonBody OK body ->
  exists token claims t dn dn' e, authorization = Some (str "Bearer " ++ token) /\ verify token = Ok claims /\
    T t /\ now_secs t <= at_exp claims /\ Dn.parse (at_sub claims) = Ok dn /\ find_entry (oidc_store app) F dn = Some (dn', e) /\
    body = userinfo_body claims e.
Proof.
  intros HF. unfold userinfo. destruct authorization as [auth|]; [|by intros [-> ->]].
  destruct (strip_prefix _ auth) as [tok|] eqn:Hp; [|by intros [-> ->]]. apply strip_prefix_Some in Hp as ->.
  destruct (verify (A := AccessTokenClaims) tok) as [claims|] eqn:Hv; [|by intros [-> ->]].
  intros (t & m1 & Hm & Ht & Hr). cbn [served] in Hm. subst m1. destruct (Z.ltb_spec (at_exp claims) (now_secs t)); [by destruct Hr as [-> ->]|].
  destruct (Dn.parse (at_sub claims)) as [dn|] eqn:Hdn; [|by destruct Hr as [-> ->]].
  apply runs_at_bind in Hr as (g & m1 & Hg%runs_at_runs & -> & ->). apply (get_entry_runs _ Hst spec F) in Hg as [-> Hg]; [|done].
  split; [done|]. destruct Hg as [->|[x ->]]; [|by intros ? [=]].
  destruct (find_entry (oidc_store app) F dn) as [[dn' e]|] eqn:Hf; [|by intros ? [=]].
  intros body [= <-]. by exists tok, claims, t, dn, dn', e.
Qed.

(** ** A server's history

    Requests are served one after the other, each against the directory as it is
    by then, with the readings of the clock between [ev_from] and [ev_to]. *)
Record event := mkEvent { ev_request : Request; ev_response : option Response; ev_forest : forest; ev_from : Z; ev_to : Z }.

Definition within (ev : event) (t : Z) : Prop := ev_from ev <= t <= ev_to ev.

Inductive serves : list event -> CodeStore -> Prop :=
| serves_start : serves [] ∅
| serves_next h codes ev m codes' m' :
    serves h codes -> holds (oidc_store app) spec (ev_forest ev) m ->
    runs_at (within ev) (router app codes (ev_request ev)) m (ev_response ev, codes') m' ->
    serves (h ++ [ev]) codes'.

(** A sign-in that handed out [code], and the instant it did. *)
Definition issues (ev : event) (code : rstring) (new : NewCode) (t : Z) : Prop :=
  within ev t /\ exists form, ev_request ev = PostAuthorize form /\ signs_in (ev_forest ev) form (ev_response ev) code new.

Definition grants (ev : event) (code : rstring) (body : Value) : Prop :=
  exists authorization form, ev_request ev = PostToken authorization form /\ tf_code form = Some code /\
    ev_response ev = Some (JsonBody OK body).

Definition redeems (ev : event) (code : rstring) : Prop := exists body, grants ev code body.

(** The codes in the store were handed out and not redeemed since. *)
Definition outstanding (h : list event) (code : rstring) (entry : IssuedCode) : Prop :=
  exists h1 ev h2 t, h = h1 ++ ev :: h2 /\ issues ev code (ic entry) t /\ expires_at entry = t + code_ttl app /\
    Forall (fun e => ~ redeems e code) h2.

Lemma outstanding_snoc h ev code entry : outstanding h code entry -> ~ redeems ev code -> outstanding (h ++ [ev]) code entry.
Proof.
  intros (h1 & e & h2 & t & -> & Hi & He & Hn) Hev. exists h1, e, (h2 ++ [ev]), t.
  rewrite <- app_assoc. split; [done|]. do 2 (split; [done|]). apply Forall_app. by repeat constructor.
Qed.

Lemma serves_outstanding h codes : serves h codes -> map_Forall (outstanding h) codes.
Proof.
  induction 1 as [|h codes ev m codes' m' _ IH HF Hr]; [apply map_Forall_empty|].
  assert (forall code, ~ redeems ev code -> forall entry, codes !! code = Some entry -> outstanding (h ++ [ev]) code entry) as Hkeep.
  { intros code Hn entry Hc. by apply outstanding_snoc; [apply IH|]. }
  destruct (ev_request ev) as [| |params|form|authorization form|authorization] eqn:Hreq.
  1-3: destruct Hr as [[= Hr ->] _]; intros code entry; apply Hkeep; intros (b & a' & f' & Hb & _); rewrite Hreq in Hb; discriminate.
  - apply (submit_login_runs _ (ev_forest ev)) in Hr as [_ Hr]; [|done].
    assert (forall code, ~ redeems ev code) as Hn by (intros code (b & a' & f' & Hb & _); rewrite Hreq in Hb; discriminate).
    destruct Hr as [[-> _]|(code & new & t & Hs & Ht & ->)]; [intros c entry; by apply Hkeep|].
    apply map_Forall_insert_2; [|intros c entry; by apply Hkeep].
    exists h, ev, [], t. cbn. split; [done|]. split; [|done]. split; [done|]. by exists form.
  - apply runs_at_bind in Hr as ([r codes1] & m1 & Hr & [= Hresp ->] & _). cbn [fst snd] in *.
    apply (token_runs _ (ev_forest ev)) in Hr as [_ Hr]; [|done]. destruct Hr as [[-> Hno]|(code & Hcode & -> & _)].
    + intros c entry. apply Hkeep. intros (b & a' & f' & _ & _ & Hb). rewrite Hresp in Hb. injection Hb as Hb. by eapply Hno.
    + intros c entry [Hne Hc]%lookup_delete_Some. apply Hkeep; [|done]. intros (b & a' & f' & Hb & Hb' & _).
      rewrite Hreq in Hb. injection Hb as -> ->. congruence.
  - apply runs_at_bind in Hr as (r & m1 & _ & [= _ ->] & _). intros c entry. apply Hkeep.
    intros (b & a' & f' & Hb & _); rewrite Hreq in Hb; discriminate.
Qed.

(** C16: Tokens are granted only for a code that an earlier sign-in handed out, and
    at most once for each hand-out: the user was the only entry with that login
    name and gave the right password, the client and its redirect URI were
    registered together, the same client proves itself with its secret and the
    same redirect URI, and the code has not expired.  The tokens verify under
    the server's key, name that user, that client and the request's nonce, and
    carry the claims of the user's entry as it is when they are granted. *)
Theorem codes_redeemed_once h ev code body codes :
  serves (h ++ [ev]) codes -> grants ev code body ->
  exists h1 login h2 new t authorization form now t',
    h = h1 ++ login :: h2 /\ issues login code new t /\ Forall (fun e => ~ redeems e code) h2 /\
    ev_request ev = PostToken authorization form /\
    client_proved authorization form (nc_client_id new) /\ tf_redirect_uri form = Some (nc_redirect_uri new) /\
    within ev now /\ now <= t + code_ttl app /\ within ev t' /\ tokens_for (ev_forest ev) new t' body.
Proof.
  intros Hs (authorization & form & Hreq & Hcode & Hresp).
  inversion Hs as [Heq|h' codes0 ev' m codes' m' Hs' HF Hr Heq]; [by destruct h|]. apply app_inj_tail in Heq as [-> ->].
  rewrite Hreq in Hr. apply runs_at_bind in Hr as ([r codes1] & m1 & Hr & [= Hr' ->] & _). cbn [fst snd] in *.
  rewrite Hresp in Hr'. injection Hr' as <-. apply (token_runs _ (ev_forest ev)) in Hr as [_ Hr]; [|done].
  destruct Hr as [[_ Hno]|(code' & Hcode' & _ & Hok)]; [by destruct (Hno body)|]. replace code' with code in * by congruence.
  destruct (Hok body eq_refl) as (entry & now & t' & Hin & Hnow & Hexp & Hc & Huri & Ht' & Htok).
  apply (serves_outstanding _ _ Hs') in Hin as (h1 & login & h2 & t & -> & Hi & He & Hn).
  exists h1, login, h2, (ic entry), t, authorization, form, now, t'. rewrite <- He. do 9 (split; [done|]). done.
Qed.

(** The other endpoints answer with JSON. *)
Definition is_json (r : Response) : Prop := exists status v, r = JsonBody status v.

Lemma grant_tokens_json scope claims : is_json (grant_tokens app scope claims).
Proof. unfold grant_tokens. destruct (sign KEY_ID claims.1); [|by eexists _, _]. destruct (sign KEY_ID claims.2); by eexists _, _. Qed.

Lemma redeem_json T m id uri issued r m' : runs_at T (redeem app id uri issued) m r m' -> is_json r.
Proof.
  unfold redeem. destruct issued as [[new exp]|]; [|intros [-> _]; by eexists _, _]. cbn [ic].
  destruct (_ || _); [intros [-> _]; by eexists _, _|]. destruct (Dn.parse _); [|intros [-> _]; by eexists _, _].
  intros (g & m1 & _ & Hr)%runs_at_bind. destruct g as [[e|]|]; [|destruct Hr as [-> _]; by eexists _, _..].
  destruct Hr as (t & m2 & _ & _ & -> & _). apply grant_tokens_json.
Qed.

Lemma token_json T codes authorization form m r codes' m' :
  runs_at T (token app codes authorization form) m (r, codes') m' -> is_json r.
Proof.
  unfold token. destruct (client_credentials authorization form) as [[id secret]|]; [|intros [[= -> _] _]; by eexists _, _].
  destruct (negb _); [intros [[= -> _] _]; by eexists _, _|]. destruct (negb _); [intros [[= -> _] _]; by eexists _, _|].
  destruct (tf_code form); [|intros [[= -> _] _]; by eexists _, _]. destruct (tf_redirect_uri form); [|intros [[= -> _] _]; by eexists _, _].
  intros (taken & m1 & _ & Hr)%runs_at_bind. apply runs_at_bind in Hr as (resp & m2 & Hr & [= -> _] & _). by eapply redeem_json.
Qed.

Lemma userinfo_json T authorization m r m' : runs_at T (userinfo app authorization) m r m' -> is_json r.
Proof.
  unfold userinfo. destruct authorization as [auth|]; [|intros [-> _]; by eexists _, _].
  destruct (strip_prefix _ auth); [|intros [-> _]; by eexists _, _].
  destruct (verify _) as [claims|]; [|intros [-> _]; by eexists _, _]. intros (t & m1 & _ & _ & Hr).
  destruct (at_exp claims <? now_secs t); [destruct Hr as [-> _]; by eexists _, _|].
  destruct (Dn.parse _); [|destruct Hr as [-> _]; by eexists _, _].
  apply runs_at_bind in Hr as (g & m2 & _ & -> & _). destruct g as [[e|]|]; by eexists _, _.
Qed.

(** The client, redirect URI and [state] a request names. *)
Definition target (req : Request) : option (rstring * rstring * option rstring) :=
  match req with
  | GetAuthorize p => Some (ap_client_id p, ap_redirect_uri p, ap_state p)
  | PostAuthorize f => Some (lf_client_id f, lf_redirect_uri f, lf_state f)
  | _ => None
  end.

(** [v] is a query value that stands for [s]. *)
Definition query_value (v s : rstring) : Prop :=
  Forall (fun c => unreserved c = true \/ c = ch "%") v /\ utf8_decode (percent_decode v) = Some s.

Definition state_part (state : option rstring) (v : rstring) : Prop :=
  match state with Some s => exists q, v = str "&state=" ++ q /\ query_value q s | None => v = [] end.

Lemma with_state_part uri state :
  match state with Some s => str_ok s | None => True end -> exists v, with_state uri state = uri ++ v /\ state_part state v.
Proof.
  destruct state as [s|]; cbn; intros Hs; [|exists []; by rewrite app_nil_r].
  eexists. split; [reflexivity|]. eexists. split; [done|]. by apply urlencoding_spec.
Qed.

Lemma random_code_ok code : random_code code -> str_ok code.
Proof.
  intros (raw & _ & Hb & ->). eapply Forall_impl; [by apply u64_ascii|]. unfold is_scalar. cbn. intros. left. lia.
Qed.

(** No request can make the server redirect to an address of the requester's
    choosing: the location is the redirect URI registered for the client the
    request names, followed by an error or by a query value that stands for a
    code, and by one that stands for the request's [state]. *)
Theorem redirects_registered T F m codes req location codes' m' :
  holds (oidc_store app) spec F m -> (forall id uri s, target req = Some (id, uri, Some s) -> str_ok s) ->
  runs_at T (router app codes req) m (Some (Redirect location), codes') m' ->
  exists id uri state c query rest,
    target req = Some (id, uri, state) /\ get_client (oidc_clients app) id = Some c /\ c_redirect_uri c = uri /\
    location = uri ++ query ++ rest /\ state_part state rest /\
    (query = str "?error=unsupported_response_type" \/
     exists code v, query = str "?code=" ++ v /\ query_value v code /\ is_Some (codes' !! code)).
Proof.
  intros HF Hok Hr. destruct req as [| |p|form|authorization form|authorization]; cbn [router] in Hr.
  - by destruct Hr as [[=] _].
  - destruct Hr as [[= Hr _] _]. unfold jwks_response in Hr. by destruct (jwks _).
  - destruct Hr as [[= Hr ->] _]. unfold show_login in Hr. destruct (validate_client app _ _) as [c|] eqn:Hc; [|done].
    apply validate_client_Some in Hc as [Hc Huri]. destruct (negb _); [|done].
    assert (match ap_state p with Some s => str_ok s | None => True end) as Hs by (destruct (ap_state p) eqn:E; [by eapply Hok; cbn; rewrite E|done]).
    destruct (with_state_part (ap_redirect_uri p ++ str "?error=unsupported_response_type") _ Hs) as (v & Hv & Hp).
    exists (ap_client_id p), (ap_redirect_uri p), (ap_state p), c, (str "?error=unsupported_response_type"), v.
    do 3 (split; [done|]). split; [|auto]. rewrite app_assoc, <- Hv. congruence.
  - apply (submit_login_runs _ F) in Hr as [_ [[_ Hno]|(code & new & t & Hs & _ & ->)]]; [by destruct Hno; exists location| |done].
    destruct Hs as (c & dn & e & Hc & Huri & _ & _ & _ & Hrc & Hloc).
    assert (match lf_state form with Some s => str_ok s | None => True end) as Hs by (destruct (lf_state form) eqn:E; [by eapply Hok; cbn; rewrite E|done]).
    destruct (with_state_part (lf_redirect_uri form ++ str "?code=" ++ urlencoding_encode code) _ Hs) as (v & Hv & Hp).
    exists (lf_client_id form), (lf_redirect_uri form), (lf_state form), c, (str "?code=" ++ urlencoding_encode code), v.
    do 3 (split; [done|]). split; [rewrite app_assoc, <- Hv; unfold code_redirect in Hloc; congruence|]. split; [done|].
    right. exists code, (urlencoding_encode code). split; [done|]. split; [by apply urlencoding_spec, random_code_ok|].
    eexists. apply lookup_insert_eq.
  - apply runs_at_bind in Hr as ([r codes1] & m1 & Hr & [= Hr' _] & _). by apply token_json in Hr as (? & ? & ->).
  - apply runs_at_bind in Hr as (r & m1 & Hr & [= Hr' _] & _). by apply userinfo_json in Hr as (? & ? & ->).
Qed.

(** ** The whole flow *)

Lemma resolve_user_exec F m name dn e :
  holds (oidc_store app) spec F m -> user_is F name dn e ->
  exec zeros (resolve_user (oidc_store app) (oidc_base_dn app) (login_attribute app) name) m = (Some (dn, e), m).
Proof.
  intros HF (Hone & dn' & Hf). destruct (proj2 (Hone dn) eq_refl) as (p & e' & Hp & _).
  destruct (lookup_exec _ Hst spec F m (oidc_base_dn app) (login_attribute app) name p HF indexed Hp) as (l & Hl & Hn & Hmem).
  assert (l = [dn]) as -> by (apply nodup_one; [done|]; intros d; by rewrite Hmem).
  unfold resolve_user. rewrite exec_bind, Hl.
  destruct (Registry.resolve (registry (oidc_store app)) dn) as [q|] eqn:Hq; [|by unfold find_entry in Hf; rewrite Hq in Hf].
  by rewrite exec_bind, (get_entry_exec _ Hst spec F m dn q HF Hq), Hf.
Qed.

Definition demo_code : rstring := u64_encode (zeros 32).

Lemma submit_login_exec F m codes form c dn e :
  holds (oidc_store app) spec F m -> get_client (oidc_clients app) (lf_client_id form) = Some c -> c_redirect_uri c = lf_redirect_uri form ->
  user_is F (username form) dn e -> password_right e (password form) ->
  exec zeros (submit_login app codes form) m =
  ((Some (code_redirect form demo_code), <[demo_code := mkIssuedCode (new_code form dn) (code_ttl app)]> codes), m).
Proof.
  intros HF Hc Huri Hu (stored & Hs & Hv). unfold submit_login.
  rewrite (proj2 (validate_client_Some _ _ c)) by done. rewrite exec_bind, (resolve_user_exec F m _ dn e) by done.
  rewrite Hs, Hv. reflexivity.
Qed.

(** The signer and the serializers do not fail. *)
Definition signer_works : Prop :=
  (forall msg, is_Some (ecdsa_sign msg)) /\ (forall h : Header, is_Some (to_vec h)) /\
  (forall c : IdTokenClaims, is_Some (to_vec c)) /\ (forall c : AccessTokenClaims, is_Some (to_vec c)).

Lemma sign_total {A : Type} `{!ToJson A} key_id (claims : A) :
  (forall msg, is_Some (ecdsa_sign msg)) -> (forall h : Header, is_Some (to_vec h)) -> is_Some (to_vec claims) ->
  exists tok, sign key_id claims = Ok tok.
Proof.
  intros Hs Hh [cb Hc]. unfold sign. destruct (Hh (mkHeader (str "ES256") (str "JWT") key_id)) as [hb ->]. rewrite Hc. cbn [ok_or mbind result_bind].
  unfold sign_es256. destruct (Hs (utf8_encode (u64_encode hb ++ str "." ++ u64_encode cb))) as [der Hder]. rewrite Hder. cbn [ok_or mbind result_bind].
  destruct (sign_verifies _ _ Hder) as (_ & raw & Hl & _ & ->).
  rewrite (jose_der_roundtrip raw P256_COMPONENT_LEN Hl) by by_decide. by eexists.
Qed.

Lemma grant_tokens_total scope claims : signer_works -> exists body, grant_tokens app scope claims = JsonBody OK body.
Proof.
  intros (Hs & Hh & Hi & Ha). unfold grant_tokens. destruct (sign_total KEY_ID claims.1 Hs Hh (Hi _)) as [idt ->].
  destruct (sign_total KEY_ID claims.2 Hs Hh (Ha _)) as [act ->]. by eexists.
Qed.

Lemma find_entry_exec F m dn dn' e :
  holds (oidc_store app) spec F m -> find_entry (oidc_store app) F dn = Some (dn', e) ->
  exec zeros (Store.get_entry (oidc_store app) dn) m = (Ok (Some e), m).
Proof.
  intros HF Hf. destruct (Registry.resolve (registry (oidc_store app)) dn) as [q|] eqn:Hq; [|by unfold find_entry in Hf; rewrite Hq in Hf].
  by rewrite (get_entry_exec _ Hst spec F m dn q HF Hq), Hf.
Qed.

Lemma token_exec F m codes authorization form code entry dn dn' e :
  holds (oidc_store app) spec F m -> signer_works ->
  client_proved authorization form (nc_client_id (ic entry)) -> grant_type form = str "authorization_code" ->
  tf_code form = Some code -> tf_redirect_uri form = Some (nc_redirect_uri (ic entry)) ->
  codes !! code = Some entry -> 0 <= expires_at entry ->
  Dn.parse (nc_subject_dn (ic entry)) = Ok dn -> find_entry (oidc_store app) F dn = Some (dn', e) ->
  exists body, exec zeros (token app codes authorization form) m = ((JsonBody OK body, delete code codes), m) /\
    tokens_for F (ic entry) 0 body.
Proof.
  intros HF Hw (c & Hcred & Hc) Hg Hcode Huri Hin Hexp Hdn Hf.
  destruct (grant_tokens_total (nc_scope (ic entry)) (token_claims app (nc_client_id (ic entry)) (ic entry) e 0) Hw) as [body Hbody].
  exists body. split.
  - unfold token. rewrite Hcred, (proj2 (authenticate_spec _ _)) by by exists c. cbn [negb]. rewrite bool_decide_true by done. cbn [negb].
    rewrite Hcode, Huri, exec_bind. unfold consume. rewrite Hin. cbn [exec serve]. destruct (Z.ltb_spec (expires_at entry) 0); [lia|].
    cbn [fst snd]. rewrite exec_bind. unfold redeem. rewrite !bool_decide_true by done. cbn [negb orb].
    rewrite Hdn, exec_bind, (find_entry_exec F m dn dn' e HF Hf). cbn [exec serve]. by rewrite Hbody.
  - apply grant_tokens_ok in Hbody as (idt & act & Hb). exists dn, dn', e, idt, act. by repeat split; try apply Hb.
Qed.

Lemma userinfo_exec F m tok claims dn dn' e :
  holds (oidc_store app) spec F m -> verify tok = Ok claims -> 0 <= at_exp claims ->
  Dn.parse (at_sub claims) = Ok dn -> find_entry (oidc_store app) F dn = Some (dn', e) ->
  exec zeros (userinfo app (Some (str "Bearer " ++ tok))) m = (JsonBody OK (userinfo_body claims e), m).
Proof.
  intros HF Hv Hexp Hdn Hf. unfold userinfo. rewrite (proj2 (strip_prefix_Some _ _ tok) eq_refl), Hv. cbn [exec serve].
  change (now_secs 0) with 0. destruct (Z.ltb_spec (at_exp claims) 0); [lia|].
  by rewrite Hdn, exec_bind, (find_entry_exec F m dn dn' e HF Hf).
Qed.

(** C31: A user can sign in: with a registered client and the right password the
    server redirects with a code; the client can redeem that code with its
    secret, and the tokens it gets verify and name the user; and the access
    token gets the user's claims, as the directory has them, from the userinfo
    endpoint. *)
Theorem oidc_sign_in F m codes form authorization tform c dn e :
  holds (oidc_store app) spec F m -> signer_works -> 0 <= code_ttl app ->
  get_client (oidc_clients app) (lf_client_id form) = Some c -> c_redirect_uri c = lf_redirect_uri form ->
  user_is F (username form) dn e -> password_right e (password form) -> dn_wf dn ->
  client_credentials authorization tform = Some (lf_client_id form, c_secret c) -> grant_type tform = str "authorization_code" ->
  tf_code tform = Some demo_code -> tf_redirect_uri tform = Some (lf_redirect_uri form) ->
  exists codes1 body access claims,
    exec zeros (router app codes (PostAuthorize form)) m = ((Some (code_redirect form demo_code), codes1), m) /\
    exec zeros (router app codes1 (PostToken authorization tform)) m = ((Some (JsonBody OK body), delete demo_code codes1), m) /\
    tokens_for F (new_code form dn) 0 body /\ field (str "access_token") body = Some (VString access) /\
    at_sub claims = Dn.to_string dn /\ at_scope claims = lf_scope form /\
    exec zeros (router app (delete demo_code codes1) (GetUserinfo (Some (str "Bearer " ++ access)))) m =
      ((Some (JsonBody OK (userinfo_body claims e)), delete demo_code codes1), m).
Proof.
  intros HF Hw Httl Hc Huri Hu Hp Hwf Hcred Hg Hcode Hturi. pose proof Hu as [_ (dn' & Hf)].
  set (entry := mkIssuedCode (new_code form dn) (code_ttl app)). set (codes1 := <[demo_code := entry]> codes : CodeStore).
  assert (Dn.parse (nc_subject_dn (ic entry)) = Ok dn) as Hdn by by apply parse_print_wf.
  destruct (token_exec F m codes1 authorization tform demo_code entry dn dn' e) as (body & Ht & Htok); try done.
  { by exists c. }
  { apply lookup_insert_eq. }
  pose proof Htok as (dn1 & dn1' & e1 & idt & act & Hdn1 & Hf1 & _ & Hact & _ & Hv).
  change (nc_subject_dn (new_code form dn)) with (nc_subject_dn (ic entry)) in Hdn1.
  assert (dn1 = dn) as -> by congruence. assert (e1 = e) as -> by congruence.
  exists codes1, body, act, (token_claims app (nc_client_id (ic entry)) (ic entry) e 0).2.
  split; [by apply (submit_login_exec F m codes form c dn e)|].
  split; [cbn [router]; by rewrite exec_bind, Ht|]. do 4 (split; [done|]).
  cbn [router]. rewrite exec_bind, (userinfo_exec F m act _ dn dn' e HF Hv); [done| |done..].
  apply Z.mod_pos_bound. lia.
Qed.
End endpoints.

(** ** Examples *)

#[local] Existing Instance bit_codec.
#[local] Existing Instance hex_base64.
#[local] Existing Instance demo_ssl.
#[local] Existing Instance demo_ssl_laws.

(** Concrete stand-ins for the encodings and the signer, which show that their
    laws can hold and make the examples executable. *)
Lemma hex_alphabet b : bytes_ok b ->
  Forall (fun c => 65 <= c <= 90 \/ 97 <= c <= 122 \/ 48 <= c <= 57 \/ c = 45 \/ c = 95) (to_hex b).
Proof.
  induction 1 as [|x b Hx _ IH]; [constructor|]. unfold to_hex, is_byte in *. cbn [map concat app]. unfold hex_char.
  assert (0 <= x / 16 < 16) as Hd by zlia. assert (0 <= x mod 16 < 16) as Hm by zlia.
  constructor; [destruct (Z.ltb_spec (x / 16) 10); lia|]. constructor; [destruct (Z.ltb_spec (x mod 16) 10); lia|exact IH].
Qed.
#[local] Instance hex_base64url : Base64Url :=
  {| u64_encode := to_hex; u64_decode := hex_decode_opt; u64_roundtrip := hex_roundtrip; u64_alphabet := hex_alphabet |}.

Lemma pos_bits_ok p : bytes_ok (pos_bits p).
Proof. induction p; cbn; constructor; try done; by unfold is_byte. Qed.

#[local, program] Instance bits_to_json (A : Type) `{Countable A} : ToJson A := {| to_vec a := Some (pos_bits (countable.encode a)) |}.
Next Obligation. intros A EqDecision0 Countable0 a b [= <-]. apply pos_bits_ok. Qed.
#[local] Instance bits_from_json (A : Type) `{Countable A} : FromJson A := {| from_slice b := countable.decode (bits_pos b) |}.
#[local] Instance bits_json_law (A : Type) `{Countable A} : JsonLaw A.
Proof. intros a b Hb. cbn in Hb. injection Hb as <-. cbn. by rewrite bits_pos_bits, countable.decode_encode. Qed.

#[local] Instance Header_eq_dec : EqDecision Header.
Proof. solve_decision. Defined.
#[local] Instance IdTokenClaims_eq_dec : EqDecision IdTokenClaims.
Proof. solve_decision. Defined.
#[local] Instance AccessTokenClaims_eq_dec : EqDecision AccessTokenClaims.
Proof. solve_decision. Defined.
#[local, program] Instance Header_countable : Countable Header :=
  inj_countable' (fun h => (alg h, typ h, kid h)) (fun x => mkHeader x.1.1 x.1.2 x.2) _.
Next Obligation. by intros []. Qed.
#[local, program] Instance IdTokenClaims_countable : Countable IdTokenClaims :=
  inj_countable' (fun c => (it_iss c, it_sub c, it_aud c, it_exp c, it_iat c, it_nonce c, it_email c, it_name c, it_preferred_username c))
    (fun x => let '(a, b, c, d, e, f, g, h, i) := x in mkIdToken a b c d e f g h i) _.
Next Obligation. by intros []. Qed.
#[local, program] Instance AccessTokenClaims_countable : Countable AccessTokenClaims :=
  inj_countable' (fun c => (at_iss c, at_sub c, at_exp c, at_iat c, at_scope c))
    (fun x => let '(a, b, c, d, e) := x in mkAccessToken a b c d e) _.
Next Obligation. by intros []. Qed.

(** Two numbers that depend on the message. *)
Definition demo_signature (msg : bytes) : bytes := replicate 32 (foldl (fun a b => (3 * a + b) mod 256) 7 msg) ++ replicate 32 5.
#[local] Instance demo_key : SigningKey := {|
  ecdsa_sign msg := Some (jose_to_der (demo_signature msg) 32);
  ecdsa_verify msg der := bool_decide (der = jose_to_der (demo_signature msg) 32);
|}.
#[local] Instance demo_key_law : SigningKeyLaw.
Proof.
  intros msg der Hs. change (Some (jose_to_der (demo_signature msg) 32) = Some der) in Hs. assert (der = jose_to_der (demo_signature msg) 32) as -> by congruence.
  split; [by apply bool_decide_true|]. exists (demo_signature msg). split; [done|]. split; [|done].
  unfold demo_signature. apply Forall_app. split; [|by_decide]. apply Forall_replicate.
  induction msg as [|b msg IH] using rev_ind; [by_decide|]. rewrite foldl_app. cbn [foldl]. unfold is_byte. zlia.
Qed.

Definition ex_clients : ClientRegistry := Eval vm_compute in
  match ClientRegistry_parse (str "console|s3cret|https://console.example.com/callback") with Ok c => c | Err _ => ∅ end.
Definition ex_app : AppState := mkAppState (str "https://oidc.g10.lo") ex_st users (str "cn") [] ex_clients (60 * NANOS) (3600 * NANOS).
Definition ex_login : LoginForm :=
  mkLogin (str "Alice") (str "correct horse") (str "console") (str "https://console.example.com/callback") (str "openid profile")
    (Some (str "a&b")) (Some (str "n-1")) None.
Definition ex_token_form : TokenForm :=
  mkTokenForm (str "authorization_code") (Some demo_code) (Some (str "https://console.example.com/callback")) (Some (str "console")) (Some (str "s3cret")).


(** Who has a login name, from what the index answers. *)
Lemma only_user st (Hst : connected st) spec F m base at_ name dn :
  holds st spec F m -> to_ascii_lowercase at_ ∈ spec ->
  (exec zeros (Store.lookup_by_index st base at_ name) m).1 = Ok [dn] ->
  forall d, indexed_dn st F base at_ name d <-> d = dn.
Proof.
  intros HF Ha E d. pose proof (exec_runs zeros (Store.lookup_by_index st base at_ name) m zeros_ok) as Hr.
  apply (lookup_runs _ Hst spec F) in Hr as [_ Hr]; [|done..]. rewrite E in Hr.
  destruct Hr as [[x Hx]|(l & [= <-] & _ & Hmem)]; [done|]. rewrite <- Hmem. apply list_elem_of_singleton.
Qed.

Lemma ex_user : user_is ex_app login_forest (str "Alice") alice login_entry.
Proof.
  split; [|exists alice; vm_compute; reflexivity].
  apply (only_user ex_st ex_st_connected index_spec login_forest login_store users (str "cn") (str "Alice") alice login_holds).
  - by_decide.
  - vm_compute. reflexivity.
Qed.

Lemma ex_password : password_right login_entry (str "correct horse").
Proof. exists login_hash. split; vm_compute; reflexivity. Qed.

Lemma ex_signer_works : signer_works.
Proof. repeat split; intros; by eexists. Qed.

Lemma oidc_sign_in_witness :
  exists codes1 body access claims,
    exec zeros (router ex_app ∅ (PostAuthorize ex_login)) login_store = ((Some (code_redirect ex_login demo_code), codes1), login_store) /\
    exec zeros (router ex_app codes1 (PostToken None ex_token_form)) login_store =
      ((Some (JsonBody OK body), delete demo_code codes1), login_store) /\
    tokens_for ex_app login_forest (new_code ex_login alice) 0 body /\ field (str "access_token") body = Some (VString access) /\
    at_sub claims = Dn.to_string alice /\ at_scope claims = str "openid profile" /\
    exec zeros (router ex_app (delete demo_code codes1) (GetUserinfo (Some (str "Bearer " ++ access)))) login_store =
      ((Some (JsonBody OK (userinfo_body claims login_entry)), delete demo_code codes1), login_store).
Proof.
  apply (oidc_sign_in ex_app ex_st_connected index_spec ltac:(by_decide) login_forest login_store ∅ ex_login None ex_token_form
    (mkClient (str "console") (str "s3cret") (str "https://console.example.com/callback")) alice login_entry login_holds ex_signer_works).
  - by_decide.
  - vm_compute. reflexivity.
  - reflexivity.
  - exact ex_user.
  - exact ex_password.
  - by apply dn_wfb_sound.
  - vm_compute. reflexivity.
  - reflexivity.
  - reflexivity.
  - reflexivity.
Defined.

(** A sign-in followed by the exchange of its code. *)
Definition ex_client : Client := mkClient (str "console") (str "s3cret") (str "https://console.example.com/callback").
Definition ex_entry : IssuedCode := mkIssuedCode (new_code ex_login alice) (code_ttl ex_app).
Definition ex_codes : CodeStore := <[demo_code := ex_entry]> ∅.
Definition login_event : event := mkEvent (PostAuthorize ex_login) (Some (code_redirect ex_login demo_code)) login_forest 0 0.
Definition token_event (body : Value) : event := mkEvent (PostToken None ex_token_form) (Some (JsonBody OK body)) login_forest 0 0.

Lemma ex_get_client : get_client (oidc_clients ex_app) (lf_client_id ex_login) = Some ex_client.
Proof. vm_compute. reflexivity. Qed.

Lemma ex_login_exec :
  exec zeros (router ex_app ∅ (PostAuthorize ex_login)) login_store = ((Some (code_redirect ex_login demo_code), ex_codes), login_store).
Proof.
  exact (submit_login_exec ex_app ex_st_connected index_spec ltac:(by_decide) login_forest login_store ∅ ex_login ex_client alice login_entry
    login_holds ex_get_client eq_refl ex_user ex_password).
Qed.

Lemma ex_token_exec :
  exists body, exec zeros (router ex_app ex_codes (PostToken None ex_token_form)) login_store =
    ((Some (JsonBody OK body), delete demo_code ex_codes), login_store).
Proof.
  destruct (token_exec ex_app ex_st_connected index_spec login_forest login_store ex_codes None ex_token_form demo_code ex_entry
    alice alice login_entry login_holds ex_signer_works) as (body & Ht & _).
  - exists ex_client. split; [vm_compute; reflexivity|exact ex_get_client].
  - reflexivity.
  - reflexivity.
  - reflexivity.
  - apply lookup_insert_eq.
  - by_decide.
  - apply parse_print_wf. by apply dn_wfb_sound.
  - vm_compute. reflexivity.
  - exists body. cbn [router]. by rewrite exec_bind, Ht.
Qed.

Lemma event_served ev codes codes' m' :
  within ev 0 -> exec zeros (router ex_app codes (ev_request ev)) login_store = ((ev_response ev, codes'), m') ->
  runs_at (within ev) (router ex_app codes (ev_request ev)) login_store (ev_response ev, codes') m'.
Proof.
  intros Hw E. pose proof (exec_runs_at (within ev) zeros (router ex_app codes (ev_request ev)) login_store Hw zeros_ok) as Hr.
  by rewrite E in Hr.
Qed.

Lemma ex_history : exists body, serves ex_app index_spec ([login_event] ++ [token_event body]) (delete demo_code ex_codes).
Proof.
  destruct ex_token_exec as [body Ht]. exists body.
  apply (serves_next _ _ [login_event] ex_codes (token_event body) login_store _ login_store); [|exact login_holds|].
  - apply (serves_next _ _ [] ∅ login_event login_store _ login_store); [constructor|exact login_holds|].
    apply event_served; [by split|exact ex_login_exec].
  - apply event_served; [by split|exact Ht].
Qed.

Lemma codes_redeemed_once_witness :
  exists body h1 login h2 new t authorization form now t',
    [login_event] = h1 ++ login :: h2 /\ issues ex_app login demo_code new t /\ Forall (fun e => ~ redeems e demo_code) h2 /\
    ev_request (token_event body) = PostToken authorization form /\
    client_proved ex_app authorization form (nc_client_id new) /\ tf_redirect_uri form = Some (nc_redirect_uri new) /\
    within (token_event body) now /\ now <= t + code_ttl ex_app /\ within (token_event body) t' /\
    tokens_for ex_app login_forest new t' body.
Proof.
  destruct ex_history as [body Hh]. exists body.
  apply (codes_redeemed_once ex_app ex_st_connected index_spec ltac:(by_decide) [login_event] (token_event body) demo_code body _ Hh).
  exists None, ex_token_form. repeat split; reflexivity.
Defined.

Lemma redirects_registered_witness :
  exists location, code_redirect ex_login demo_code = Redirect location /\
  exists id uri state c query rest,
    target (PostAuthorize ex_login) = Some (id, uri, state) /\ get_client ex_clients id = Some c /\ c_redirect_uri c = uri /\
    location = uri ++ query ++ rest /\ state_part state rest /\
    (query = str "?error=unsupported_response_type" \/
     exists code v, query = str "?code=" ++ v /\ query_value v code /\ is_Some (ex_codes !! code)).
Proof.
  eexists. split; [reflexivity|].
  apply (redirects_registered ex_app ex_st_connected index_spec ltac:(by_decide) (within login_event) login_forest login_store ∅
    (PostAuthorize ex_login) _ ex_codes login_store login_holds).
  - intros id uri s Hs. cbn in Hs. injection Hs as _ _ <-. by_decide.
  - apply (event_served login_event); [by split|exact ex_login_exec].
Defined.

(** ** Where the redirects fall short *)

(** The form does not tell an absent [state] or [nonce] from an empty one, so a
    request without them comes back from the form with empty ones. *)
Lemma login_page_forgets_absence rt id uri scope error :
  login_page (mkParams rt id uri scope None None) error = login_page (mkParams rt id uri scope (Some []) (Some [])) error.
Proof. reflexivity. Qed.

Lemma empty_state_returned uri : with_state uri (Some []) = uri ++ str "&state=" /\ with_state uri None = uri.
Proof. done. Qed.

(** The query of a location, as its parameters. *)
Definition query_params (location : rstring) : list (option (rstring * rstring)) :=
  match split_once (ch "?") location with
  | Some (_, q) => List.map (split_once (ch "=")) (split_char (ch "&") q)
  | None => []
  end.

(** A registered redirect URI with a query of its own loses the code: it becomes
    part of the value of the last parameter. *)
Lemma own_query_hides_code :
  let form := mkLogin (str "Alice") (str "pw") (str "id") (str "https://rp.example/cb?env=prod") [] None None None in
  match code_redirect form (str "abc") with
  | Redirect l => query_params l = [Some (str "env", str "prod?code=abc")]
  | _ => False
  end.
Proof. vm_compute. reflexivity. Qed.
