(* ===== verification/Gc.v ===== *)
(** The Global Catalog, [crates/gc/src]: the partial replica, the watcher that
    feeds it from a partition, with the watch operations of
    [crates/store/src/entry.rs], and the read-only LDAP listener. *)

From S2P Require Import Prelude Bytes Str Btree Utf8 Dn Partition Key Registry Decimal Entry Etcd Index Store.
From S2P Require Import Directory Token Framing Nfold Kerberos Password BinaryAttrs Krb Filter Schema RootDse Ldap LdapBind LdapSession.

(** ** The replica, [aggregate.rs] *)

Definition DEFAULT_ATTRIBUTES : list rstring :=
  [str "objectclass"; str "cn"; str "uid"; str "mail"; str "displayname"; str "sn"; str "givenname"; str "uidnumber"; str "gidnumber"].

Definition listed (whitelist : list rstring) (name : rstring) : bool := existsb (fun w => eq_ignore_ascii_case w name) whitelist.

Definition project (entry : Entry) (whitelist : list rstring) : Entry :=
  foldl (fun projected name =>
      if listed whitelist name
      then match Entry.get entry name with Some values => Entry.set projected name values | None => projected end
      else projected) Entry.new (attr_names entry).

Record Aggregate := mkAggregate { entries : gmap rstring (Dn * Entry); ready : gset rstring }.

Definition Aggregate_new : Aggregate := mkAggregate ∅ ∅.
Definition mark_ready (a : Aggregate) (pid : PartitionId) : Aggregate := mkAggregate (entries a) ({[ pid ]} ∪ ready a).
Definition ready_count (a : Aggregate) : Z := Z.of_nat (size (ready a)).
Definition upsert (a : Aggregate) (dn : Dn) (entry : Entry) : Aggregate :=
  mkAggregate (<[Dn.to_string dn := (dn, entry)]> (entries a)) (ready a).
Definition remove (a : Aggregate) (dn : Dn) : Aggregate := mkAggregate (delete (Dn.to_string dn) (entries a)) (ready a).
Definition Aggregate_get (a : Aggregate) (dn : Dn) : option Entry := snd <$> entries a !! Dn.to_string dn.
Definition Aggregate_len (a : Aggregate) : Z := Z.of_nat (size (entries a)).

(** A [HashMap] is iterated in an order of its own. *)
Class HashOrder := {
  hash_values : gmap rstring (Dn * Entry) -> list (Dn * Entry);
  hash_values_perm m : hash_values m ≡ₚ (map_to_list m).*2;
}.

Definition snapshot `{HashOrder} (a : Aggregate) : list (Dn * Entry) := hash_values (entries a).

(** ** Watching, [crates/store/src/entry.rs] *)

Inductive EventType := EventPut | EventDelete.

(** An event of a watch response; [kv] is absent if the server left it out. *)
Record WatchEvent := mkWatchEvent { event_type : EventType; event_kv : option (rstring * bytes) }.

(** What a watch stream delivers: responses, each with its events, or an
    error; it ends after the last. *)
Abbreviation WatchStream := (list (result EtcdError (list WatchEvent))) (only parsing).

Record SubtreeEvent := mkSubtreeEvent { se_key : rstring; se_kind : EventType; se_value : bytes }.

Section watch.
  Context `{EntryCodec}.
  Local Abbreviation sres A := (result (StoreError json_error) A).

(** The prefix a watch of a subtree is set on. *)
Definition watch_subtree (pid : PartitionId) (dn : Dn) : rstring := subtree_prefix pid dn.

Fixpoint next_subtree_event (stream : WatchStream) : sres (option SubtreeEvent) * WatchStream :=
  match stream with
  | [] => (Ok None, [])
  | Err e :: stream' => (Err (EtcdErr e), stream')
  | Ok events :: stream' =>
      match head events with
      | Some event =>
          match event_kv event with
          | Some (key, value) => (Ok (Some (mkSubtreeEvent key (event_type event) value)), stream')
          | None => next_subtree_event stream'
          end
      | None => next_subtree_event stream'
      end
  end.

Inductive EntryChange := ChangePut (key : rstring) (entry : Entry) | ChangeDelete (key : rstring).

Definition next_entry_change (stream : WatchStream) : sres (option EntryChange) * WatchStream :=
  let '(r, stream') := next_subtree_event stream in
  (match r with
   | Err e => Err e
   | Ok None => Ok None
   | Ok (Some event) =>
       match se_kind event with
       | EventDelete => Ok (Some (ChangeDelete (se_key event)))
       | EventPut => entry ← map_err EntryDecode (decode (se_value event)); Ok (Some (ChangePut (se_key event) entry))
       end
   end, stream').

(** ** The watcher, [watch.rs] *)

Section watcher.
  Context (partition : Partition) (whitelist : list rstring).

(** The replica afterwards; an entry whose key is no DN is left out. *)
Definition apply_entry (a : Aggregate) (key : rstring) (entry : Entry) : sres Aggregate :=
  dn ← dn_from_tree_key (p_id partition) key;
  Ok (upsert a dn (project entry whitelist)).

Definition apply_put (a : Aggregate) (key : rstring) (value : bytes) : sres Aggregate :=
  entry ← map_err EntryDecode (decode value);
  apply_entry a key entry.

(** A failure is logged and the replica stays as it is. *)
Definition or_logged (a : Aggregate) (r : sres Aggregate) : Aggregate := match r with Ok a' => a' | Err _ => a end.

Definition load_rows (a : Aggregate) (rows : list (rstring * bytes)) : Aggregate :=
  foldl (fun a kv => or_logged a (apply_put a kv.1 kv.2)) a rows.

Definition apply_change (a : Aggregate) (change : EntryChange) : Aggregate :=
  match change with
  | ChangePut key entry => or_logged a (apply_entry a key entry)
  | ChangeDelete key => match dn_from_tree_key (p_id partition) key with Ok dn => remove a dn | Err _ => a end
  end.

(** The loop over the changes; every turn takes a response of the stream, so
    [n] of its length is enough. *)
Fixpoint watch_loop (n : nat) (a : Aggregate) (stream : WatchStream) : Aggregate :=
  match n with
  | O => a
  | S n' =>
      let '(r, stream') := next_entry_change stream in
      match r with
      | Ok (Some change) => watch_loop n' (apply_change a change) stream'
      | _ => a
      end
  end.

(** [stream]: what connecting and subscribing gave.  The watcher always ends
    with an error; the replica it leaves is returned. *)
Definition watch_once (a : Aggregate) (stream : sres WatchStream) : prog Aggregate :=
  match stream with
  | Err _ => Ret a
  | Ok stream =>
      prog_bind_ (fun rows =>
          Ret (match rows with
               | Err _ => a
               | Ok rows => watch_loop (length stream) (mark_ready (load_rows a rows) (p_id partition)) stream
               end)) (Index.scan_subtree (p_id partition) (base_dn partition))
  end.

(** [run]: one connection after the other. *)
Fixpoint run (a : Aggregate) (streams : list (sres WatchStream)) : prog Aggregate :=
  match streams with
  | [] => Ret a
  | stream :: streams' => prog_bind_ (fun a' => run a' streams') (watch_once a stream)
  end.
End watcher.
End watch.

(** ** The listener, [session.rs] *)

Record GcState := mkGcState { aggregate : Aggregate; gc_registry : PartitionRegistry; expected_partitions : Z }.

Section session.
  Context `{EntryCodec} `{!UnicodeLower} `{!HashOrder}.

Definition gc_handle_bind (req : BindRequest) : BindResponse :=
  if negb (bind_version req =? 3) then mkBindResponse ProtocolError (BindText (str "only LDAPv3 is supported")) None
  else
    match authentication req with
    | Simple password =>
        if bool_decide (bind_name req = []) && bool_decide (password = [])
        then mkBindResponse Success (BindText []) None
        else mkBindResponse AuthMethodNotSupported
               (BindText (str "the Global Catalog listener only supports anonymous bind (#12's happy-path scope)")) None
    | _ => mkBindResponse AuthMethodNotSupported
             (BindText (str "the Global Catalog listener only supports anonymous bind (#12's happy-path scope)")) None
    end.

Definition done (code : ResultCode) (msg : rstring) : LdapResult := result_new code (Text msg).

Definition gc_selected (requested : list rstring) (name : rstring) : bool :=
  (bool_decide (requested = []) || existsb (fun a => bool_decide (a = str "*")) requested)
  || existsb (fun a => eq_ignore_ascii_case a name) requested.

Definition gc_project_attributes (entry : Entry) (requested : list rstring) (types_only : bool) : AttributeList :=
  List.map (fun name =>
      (name, if types_only then [] else match Entry.get entry name with Some vs => List.map utf8_encode vs | None => [] end))
    (List.filter (gc_selected requested) (attr_names entry)).

Fixpoint gc_search_loop (req : SearchRequest) (limit sent : Z) (candidates : list (Dn * Entry)) : list SearchResultEntry * LdapResult :=
  match candidates with
  | [] => ([], done Success [])
  | (dn, entry) :: rest =>
      if negb (Filter.matches entry (sr_filter req)) then gc_search_loop req limit sent rest
      else if sent =? limit then ([], done SizeLimitExceeded [])
      else
        let '(ops, fin) := gc_search_loop req limit (sent + 1) rest in
        (mkResultEntry (Dn.to_string dn) (gc_project_attributes entry (sr_attributes req) (types_only req)) :: ops, fin)
  end.

Definition gc_candidates (a : Aggregate) (base_dn : Dn) (sc : SearchRequestScope) : result LdapResult (list (Dn * Entry)) :=
  match sc with
  | BaseObject => match Aggregate_get a base_dn with Some e => Ok [(base_dn, e)] | None => Err (done NoSuchObject []) end
  | SingleLevel | WholeSubtree =>
      let child_depth := S (depth base_dn) in
      Ok (List.filter (fun de => match sc with SingleLevel => bool_decide (depth de.1 = child_depth) | _ => true end)
            (List.filter (fun de => is_within de.1 base_dn) (snapshot a)))
  | OtherScope => Err (done ProtocolError (str "unrecognized search scope"))
  end.

Definition gc_handle_search (app : GcState) (req : SearchRequest) : list SearchResultEntry * LdapResult :=
  match Dn.parse (base_object req) with
  | Err _ => ([], done InvalidDnSyntax (str "invalid base DN"))
  | Ok base_dn =>
      if is_rootdse_search base_dn req then ([RootDse.build (gc_registry app) false], done Success [])
      else
        match gc_candidates (aggregate app) base_dn (scope req) with
        | Ok candidates => gc_search_loop req (search_limit req) 0 candidates
        | Err r => ([], r)
        end
  end.

Context `{!LdapCodec}.

(** The responses to one message; [None] closes the connection. *)
Definition gc_respond (app : GcState) (op : ProtocolOp) : option (list ProtocolOp) :=
  match op with
  | OpUnbindRequest => None
  | OpBindRequest req => Some [OpBindResponse (gc_handle_bind req)]
  | OpSearchRequest req => let '(es, r) := gc_handle_search app req in Some (List.map OpSearchResEntry es ++ [OpSearchResDone r])
  | _ => Some []
  end.

(** The messages sent, and whether all could be. *)
Fixpoint gc_send (id : Z) (ops : list ProtocolOp) : list bytes * bool :=
  match ops with
  | [] => ([], true)
  | op :: ops' =>
      match write_message ber_encode (mkMessage id op) with
      | Err _ => ([], false)
      | Ok b => let '(bs, ok) := gc_send id ops' in (b :: bs, ok)
      end
  end.

(** The loop, for at most [n] messages: what is sent, and whether the loop
    ended by itself.  The replica is the one of the moment of each message. *)
Fixpoint gc_handle_connection (n : nat) (apps : nat -> GcState) (reader : list event) (buf : bytes) : list bytes * bool :=
  match n with
  | O => ([], false)
  | S n' =>
      let '(r, (reader', buf')) := read_message ber_decode reader buf in
      match r with
      | Ok (Some msg) =>
          match gc_respond (apps n') (protocol_op msg) with
          | None => ([], true)
          | Some ops =>
              let '(bs, ok) := gc_send (message_id msg) ops in
              if ok then let '(more, fin) := gc_handle_connection n' apps reader' buf' in (bs ++ more, fin) else (bs, true)
          end
      | _ => ([], true)
      end
  end.

(** [health::serve]: whether every expected partition is loaded, as a status
    and a JSON body. *)
Definition healthy (app : GcState) : bool := expected_partitions app <=? ready_count (aggregate app).

Definition health_response (app : GcState) : rstring :=
  let member (name : string) (v : rstring) := [34] ++ str name ++ [34] ++ str ":" ++ v in
  let crlf := [13; 10] in
  let body := str "{" ++ member "health" (if healthy app then str "true" else str "false")
    ++ str "," ++ member "ready_partitions" (to_decimal (ready_count (aggregate app)))
    ++ str "," ++ member "expected_partitions" (to_decimal (expected_partitions app))
    ++ str "," ++ member "entries" (to_decimal (Aggregate_len (aggregate app))) ++ str "}" in
  str "HTTP/1.1 " ++ (if healthy app then str "200 OK" else str "503 Service Unavailable") ++ crlf
    ++ str "content-type: application/json" ++ crlf
    ++ str "content-length: " ++ to_decimal (zlen (utf8_encode body)) ++ crlf
    ++ str "connection: close" ++ crlf ++ crlf ++ body.
End session.
