(* ===== verification/GcReplica.v ===== *)
(** What the Global Catalog guarantees: the replica of a partition converges to
    the directory, no attribute off the whitelist leaves it, and searches return
    exactly what it holds. *)

From S2P Require Import Prelude Bytes Str Btree Utf8 Dn Partition Key Registry Entry Etcd Index Store.
From S2P Require Import Directory Token Framing Nfold Kerberos Password BinaryAttrs Krb Filter Schema RootDse Ldap LdapBind LdapSession Gc.

(** ** Convergence *)

Section replica.
  Context `{EntryCodec} (p : Partition) (whitelist : list rstring).
  Local Abbreviation pid := (p_id p).
  Local Abbreviation base := (base_dn p).
  Local Abbreviation dir := (gmap (list Z) (Dn * Entry)).
  Implicit Types (D V : dir) (a : Aggregate).

(** A DN whose storage key stands for it. *)
Definition keyed (dn : Dn) : Prop := key_safe dn /\ dn_plain dn.

(** The name of an entry in the replica. *)
Definition replica_name (dn : Dn) : rstring := Dn.to_string (norm_dn dn).

Lemma replica_name_equiv d e : keyed d -> keyed e -> replica_name d = replica_name e -> d ≡ e.
Proof.
  intros [_ Hd] [_ He] Hn. pose proof (parse_print_wf _ (norm_dn_wf d Hd)) as Hpd. pose proof (parse_print_wf _ (norm_dn_wf e He)) as Hpe.
  unfold replica_name in Hn. rewrite Hn in Hpd. assert (norm_dn d = norm_dn e) as Heq by congruence.
  rewrite <- (norm_dn_equiv d), Heq. apply norm_dn_equiv.
Qed.

(** What a writer does to the partition, and the event a watch delivers. *)
Inductive dchange := Wrote (dn : Dn) (e : Entry) | Erased (dn : Dn).

Definition at_dn (c : dchange) : Dn := match c with Wrote dn _ | Erased dn => dn end.

Definition result_of (c : dchange) : option (Dn * Entry) := match c with Wrote dn e => Some (dn, e) | Erased _ => None end.

Definition apply_dir D (c : dchange) : dir :=
  match c with
  | Wrote dn e => <[entry_key pid dn := (dn, e)]> D
  | Erased dn => delete (entry_key pid dn) D
  end.

Definition event_of (c : dchange) : WatchEvent :=
  match c with
  | Wrote dn e => mkWatchEvent EventPut (Some (entry_key pid dn, encode e))
  | Erased dn => mkWatchEvent EventDelete (Some (entry_key pid dn, []))
  end.

(** One response for each change. *)
Definition delivers (cs : list dchange) : list (result EtcdError (list WatchEvent)) := map (fun c => Ok [event_of c]) cs.

Definition change_ok (c : dchange) : Prop :=
  keyed (at_dn c) /\ is_within (at_dn c) base = true /\ match c with Wrote _ e => entry_wf e | Erased _ => True end.

(** How the replica shows an entry. *)
Definition image (de : Dn * Entry) : Dn * Entry := (norm_dn de.1, project de.2 whitelist).

Definition mirrors V a : Prop :=
  forall dn, keyed dn -> is_within dn base = true -> entries a !! replica_name dn = image <$> V !! entry_key pid dn.

(** A name that belongs to no entry of the partition. *)
Definition foreign (s : rstring) : Prop := forall dn, keyed dn -> is_within dn base = true -> s <> replica_name dn.

Lemma same_key d e : keyed d -> keyed e -> entry_key pid d = entry_key pid e <-> replica_name d = replica_name e.
Proof.
  intros Hd He. split.
  - intros Hk%entry_key_equiv; [|apply Hd|apply He]. unfold replica_name. by rewrite (norm_dn_proper _ _ Hk).
  - intros Hn. by rewrite (replica_name_equiv _ _ Hd He Hn).
Qed.

Lemma apply_entry_keyed a dn e : keyed dn ->
  apply_entry p whitelist a (entry_key pid dn) e = Ok (upsert a (norm_dn dn) (project e whitelist)).
Proof. intros [Hs Hp]. unfold apply_entry. by rewrite dn_from_tree_key_norm. Qed.

(** One change takes the replica along with the directory. *)
Definition step a (c : dchange) : Aggregate :=
  match c with
  | Wrote dn e => apply_change p whitelist a (ChangePut (entry_key pid dn) e)
  | Erased dn => apply_change p whitelist a (ChangeDelete (entry_key pid dn))
  end.

Lemma step_mirrors V a c : change_ok c -> mirrors V a -> mirrors (apply_dir V c) (step a c).
Proof.
  intros (Hk & _ & _) Hm dn Hdn Hw. destruct c as [d e|d]; cbn [step apply_change apply_dir at_dn] in *.
  - rewrite apply_entry_keyed by done. cbn [or_logged upsert entries]. fold (replica_name d).
    destruct (decide (replica_name d = replica_name dn)) as [Hn|Hn].
    + rewrite Hn, lookup_insert_eq. apply same_key in Hn; [|done..]. by rewrite Hn, lookup_insert_eq.
    + rewrite lookup_insert_ne by done. rewrite <- same_key in Hn by done. rewrite lookup_insert_ne by done. by apply Hm.
  - rewrite dn_from_tree_key_norm by apply Hk. cbn [remove entries]. fold (replica_name d).
    destruct (decide (replica_name d = replica_name dn)) as [Hn|Hn].
    + rewrite Hn, lookup_delete_eq. apply same_key in Hn; [|done..]. by rewrite Hn, lookup_delete_eq.
    + rewrite lookup_delete_ne by done. rewrite <- same_key in Hn by done. rewrite lookup_delete_ne by done. by apply Hm.
Qed.

Lemma step_foreign a c s : change_ok c -> foreign s -> entries (step a c) !! s = entries a !! s.
Proof.
  intros (Hk & Hw & _) Hf. destruct c as [d e|d]; cbn [step apply_change at_dn] in *.
  - rewrite apply_entry_keyed by done. cbn [or_logged upsert entries]. apply lookup_insert_ne. intros Hs. by apply (Hf d).
  - rewrite dn_from_tree_key_norm by apply Hk. cbn [remove entries]. apply lookup_delete_ne. intros Hs. by apply (Hf d).
Qed.

Lemma steps_mirror V a cs : Forall change_ok cs -> mirrors V a -> mirrors (foldl apply_dir V cs) (foldl step a cs).
Proof. intros Hcs. revert V a. induction Hcs as [|c cs Hc _ IH]; intros V a Hm; cbn [foldl]; [done|]. by apply IH, step_mirrors. Qed.

Lemma steps_foreign a cs s : Forall change_ok cs -> foreign s -> entries (foldl step a cs) !! s = entries a !! s.
Proof. intros Hcs Hf. revert a. induction Hcs as [|c cs Hc _ IH]; intros a; cbn [foldl]; [done|]. by rewrite IH, step_foreign. Qed.

Lemma steps_ready a cs : ready (foldl step a cs) = ready a.
Proof.
  revert a. induction cs as [|c cs IH]; intros a; cbn [foldl]; [done|]. rewrite IH. destruct c; cbn.
  - unfold apply_entry. by destruct (dn_from_tree_key _ _).
  - by destruct (dn_from_tree_key _ _).
Qed.

(** The changes of the directory at one key. *)
Lemma apply_dir_lookup D c k :
  apply_dir D c !! k = if bool_decide (entry_key pid (at_dn c) = k) then result_of c else D !! k.
Proof.
  destruct c as [dn e|dn]; cbn [apply_dir at_dn result_of]; case_bool_decide as Hk; subst;
    rewrite ?lookup_insert_eq, ?lookup_delete_eq, ?lookup_insert_ne, ?lookup_delete_ne by done; done.
Qed.

(** Where no change touches a key the directory keeps it; elsewhere the start
    does not matter. *)
Lemma foldl_dir_untouched D cs k : Forall (fun c => entry_key pid (at_dn c) <> k) cs -> foldl apply_dir D cs !! k = D !! k.
Proof.
  intros Hcs. revert D. induction Hcs as [|c cs Hc _ IH]; intros D; cbn [foldl]; [done|].
  by rewrite IH, apply_dir_lookup, bool_decide_false.
Qed.

Lemma foldl_dir_touched D V cs k : Exists (fun c => entry_key pid (at_dn c) = k) cs -> foldl apply_dir D cs !! k = foldl apply_dir V cs !! k.
Proof.
  revert D V. induction cs as [|c cs IH]; intros D V Hex; [by apply Exists_nil in Hex|]. cbn [foldl].
  destruct (decide (Exists (fun c => entry_key pid (at_dn c) = k) cs)) as [Hcs|Hcs]; [by apply IH|].
  apply not_Exists_Forall in Hcs; [|solve_decision]. rewrite !foldl_dir_untouched by done.
  apply Exists_cons in Hex as [Hc|Hex].
  - by rewrite !apply_dir_lookup, !bool_decide_true.
  - exfalso. rewrite Forall_forall in Hcs. apply Exists_exists in Hex as (c' & Hin & He). by apply (Hcs c').
Qed.

(** A scan in the middle of the changes, followed by all of them, gives the
    directory after them. *)
Lemma replay_converges D V cs j k :
  V !! k = foldl apply_dir D (take j cs) !! k -> foldl apply_dir V cs !! k = foldl apply_dir D cs !! k.
Proof.
  intros HV. destruct (decide (Exists (fun c => entry_key pid (at_dn c) = k) cs)) as [Hcs|Hcs]; [by apply foldl_dir_touched|].
  apply not_Exists_Forall in Hcs; [|solve_decision]. rewrite !foldl_dir_untouched by done. rewrite HV.
  apply foldl_dir_untouched. by apply Forall_take.
Qed.

(** *** The watcher as such a replay *)

Lemma watch_loop_delivers a cs :
  Forall change_ok cs -> watch_loop p whitelist (length (delivers cs)) a (delivers cs) = foldl step a cs.
Proof.
  intros Hcs. revert a. induction Hcs as [|c cs (_ & _ & Hwf) _ IH]; intros a; [done|].
  cbn [delivers map length watch_loop foldl]. destruct c as [dn e|dn]; cbn; [|apply IH].
  rewrite decode_encode by done. cbn. apply IH.
Qed.

Definition row_of D (kv : rstring * bytes) (c : dchange) : Prop :=
  exists dn e, c = Wrote dn e /\ kv = (entry_key pid dn, encode e) /\ D !! entry_key pid dn = Some (dn, e).

Lemma load_rows_steps D a rows cs :
  Forall change_ok cs -> Forall2 (row_of D) rows cs -> load_rows p whitelist a rows = foldl step a cs.
Proof.
  intros Hok Hr. revert a. induction Hr as [|kv c rows cs (dn & e & -> & -> & _) _ IH]; intros a; [done|].
  apply Forall_cons in Hok as [(Hk & _ & Hwf) Hok]. cbn [load_rows foldl fst snd]. unfold apply_put at 2. rewrite decode_encode by done.
  cbn [map_err mbind result_bind]. by apply IH.
Qed.

(** The rows of a scan, as writes. *)
Lemma rows_as_changes D rows :
  (forall k v, (k, v) ∈ rows -> exists dn e, D !! k = Some (dn, e) /\ v = encode e /\ k = entry_key pid dn /\
     keyed dn /\ is_within dn base = true /\ entry_wf e) ->
  exists cs, Forall change_ok cs /\ Forall2 (row_of D) rows cs.
Proof.
  induction rows as [|[k v] rows IH]; intros Hr; [by exists []|]. destruct IH as (cs & Hok & Hcs); [intros k' v' Hin; apply Hr; set_solver|].
  destruct (Hr k v) as (dn & e & HD & -> & -> & Hk & Hw & Hwf); [set_solver|].
  exists (Wrote dn e :: cs). split; constructor; try done. by exists dn, e.
Qed.

(** Loading the rows gives what they were read from. *)
Lemma loaded_lookup D rows cs k :
  Forall2 (row_of D) rows cs -> (forall de, D !! k = Some de -> exists v, (k, v) ∈ rows) ->
  foldl apply_dir ∅ cs !! k = D !! k.
Proof.
  intros Hr Hin. assert (forall V, Exists (fun c => entry_key pid (at_dn c) = k) cs -> foldl apply_dir V cs !! k = D !! k) as Htouch.
  { clear Hin. induction Hr as [|kv c rows cs (dn & e & -> & -> & HD) _ IH]; intros V Hex; [by apply Exists_nil in Hex|]. cbn [foldl].
    destruct (decide (Exists (fun c => entry_key pid (at_dn c) = k) cs)) as [Hcs|Hcs]; [by apply IH|].
    pose proof Hcs as Hcs'. apply not_Exists_Forall in Hcs; [|solve_decision]. rewrite foldl_dir_untouched by done.
    apply Exists_cons in Hex as [Hc|Hex]; [|done]. cbn [at_dn] in Hc. subst k. by rewrite apply_dir_lookup, bool_decide_true. }
  destruct (decide (Exists (fun c => entry_key pid (at_dn c) = k) cs)) as [Hcs|Hcs]; [by apply Htouch|].
  destruct (D !! k) as [de|] eqn:HD.
  - destruct (Hin de eq_refl) as (v & Hv). exfalso. apply Hcs. apply list_elem_of_lookup in Hv as (i & Hi).
    destruct (Forall2_lookup_l _ _ _ _ _ Hr Hi) as (c & Hc & dn & e & -> & [= -> _] & _). apply Exists_exists.
    eexists. split; [by eapply list_elem_of_lookup_2|done].
  - apply not_Exists_Forall in Hcs; [|solve_decision]. rewrite foldl_dir_untouched by done. apply lookup_empty.
Qed.

Lemma foldl_dir_keyed D cs :
  (forall k dn e, D !! k = Some (dn, e) -> keyed dn) -> Forall change_ok cs ->
  forall k dn e, foldl apply_dir D cs !! k = Some (dn, e) -> keyed dn.
Proof.
  intros HD Hcs. revert D HD. induction Hcs as [|c cs (Hk & _ & _) _ IH]; intros D HD; cbn [foldl]; [exact HD|]. apply IH.
  intros k dn e. rewrite apply_dir_lookup. case_bool_decide; [|apply HD]. destruct c; cbn; [|done]. by intros [= -> ->].
Qed.

Context (spec : IndexSpec).

End replica.

(** ** What the replica holds *)

Lemma listed_fold whitelist a b : eq_ignore_ascii_case a b = true -> listed whitelist a = listed whitelist b.
Proof.
  unfold eq_ignore_ascii_case. intros Hab%bool_decide_eq_true. unfold listed. induction whitelist as [|w ws IH]; [done|]. cbn [existsb].
  rewrite IH. f_equal. unfold eq_ignore_ascii_case. by rewrite Hab.
Qed.

Lemma get_fold e a b : eq_ignore_ascii_case a b = true -> Entry.get e a = Entry.get e b.
Proof. unfold eq_ignore_ascii_case, Entry.get. by intros ->%bool_decide_eq_true. Qed.

(** A projected entry has exactly the listed attributes, with all their values. *)
Lemma project_get e whitelist a :
  entry_wf e -> Entry.get (project e whitelist) a = if listed whitelist a then Entry.get e a else None.
Proof.
  intros He. unfold project. set (f := fun projected name => _).
  assert (forall l acc, Forall (fun n => is_Some (Entry.get e n)) l ->
    Entry.get (foldl f acc l) a =
    if listed whitelist a && existsb (fun n => eq_ignore_ascii_case n a) l then Entry.get e a else Entry.get acc a) as Hf.
  { intros l. induction l as [|n l IH]; intros acc Hl; cbn [foldl existsb]; [by rewrite andb_false_r|].
    apply Forall_cons in Hl as [[vs Hvs] Hl]. rewrite IH by done. unfold f. rewrite Hvs.
    destruct (eq_ignore_ascii_case n a) eqn:Hna; cbn [orb]; [rewrite andb_true_r|destruct (_ && _); [done|]].
    - rewrite (listed_fold _ _ _ Hna). destruct (listed whitelist a); [|done]. cbn [andb].
      destruct (existsb _ l); [done|]. rewrite get_set, Hna. by rewrite <- (get_fold _ _ _ Hna).
    - destruct (listed whitelist n); [|done]. by rewrite get_set, Hna. }
  rewrite Hf by (apply Forall_forall; intros n Hn; by apply attr_name_get).
  destruct (listed whitelist a); [|done]. cbn [andb]. destruct (existsb _ _) eqn:Hex; [done|].
  destruct (Entry.get e a) as [vs|] eqn:Hg; [|done]. exfalso. apply not_true_iff_false in Hex. apply Hex, existsb_exists.
  exists (to_ascii_lowercase a). split.
  - unfold Entry.get in Hg. apply bt_get_In in Hg; [|apply He]. apply in_map_iff. eexists. split; [|by apply list_elem_of_In]. done.
  - unfold eq_ignore_ascii_case. apply bool_decide_true, to_ascii_lowercase_idem.
Qed.

Lemma project_listed e whitelist : Forall (fun kv => listed whitelist kv.1 = true) (attrs (project e whitelist)).
Proof.
  unfold project. assert (Forall (fun kv => listed whitelist kv.1 = true) (attrs Entry.new)) as Hacc by constructor.
  revert Hacc. generalize Entry.new. induction (attr_names e) as [|n l IH]; intros acc Hacc; cbn [foldl]; [done|]. apply IH.
  destruct (listed whitelist n) eqn:Hn; [|done]. destruct (Entry.get e n); [|done]. cbn [set attrs]. apply bt_insert_Forall2; [|done].
  cbn [fst]. rewrite <- Hn. apply listed_fold. unfold eq_ignore_ascii_case. apply bool_decide_true, to_ascii_lowercase_idem.
Qed.

Section catalog.
  Context `{EntryCodec} `{!UnicodeLower} `{!HashOrder} (whitelist : list rstring).

(** The replica after any interleaving of the watchers' updates, whatever the
    partitions, the rows and the events. *)
Inductive reachable : Aggregate -> Prop :=
| reach_new : reachable Aggregate_new
| reach_row p a key value a' : reachable a -> apply_put p whitelist a key value = Ok a' -> reachable a'
| reach_change p a change : reachable a -> reachable (apply_change p whitelist a change)
| reach_ready a pid : reachable a -> reachable (mark_ready a pid).

Definition only_listed (a : Aggregate) : Prop :=
  map_Forall (fun s de => s = Dn.to_string de.1 /\ Forall (fun kv => listed whitelist kv.1 = true) (attrs de.2)) (entries a).

Lemma apply_entry_listed p a key e a' : only_listed a -> apply_entry p whitelist a key e = Ok a' -> only_listed a'.
Proof.
  unfold apply_entry. destruct (dn_from_tree_key _ _) as [dn|]; [|done]. intros Ha [= <-]. apply map_Forall_insert_2; [|done].
  split; [done|apply project_listed].
Qed.

Lemma reachable_listed a : reachable a -> only_listed a.
Proof.
  induction 1 as [|p a key value a' _ IH Hr|p a change _ IH|]; [apply map_Forall_empty| | |done].
  - unfold apply_put in Hr. destruct (decode value) as [e|]; [|done]. exact (apply_entry_listed p a key e a' IH Hr).
  - destruct change as [key e|key]; cbn [apply_change].
    + destruct (apply_entry p whitelist a key e) as [a'|] eqn:Hr; [exact (apply_entry_listed p a key e a' IH Hr)|exact IH].
    + destruct (dn_from_tree_key _ _); [|done]. by apply map_Forall_delete.
Qed.

(** The updates of a watcher are such steps. *)
Lemma load_rows_reachable p a rows : reachable a -> reachable (load_rows p whitelist a rows).
Proof.
  revert a. induction rows as [|kv rows IH]; intros a Ha; cbn [load_rows foldl]; [done|]. apply IH.
  destruct (apply_put p whitelist a kv.1 kv.2) eqn:E; [by eapply reach_row|done].
Qed.

Lemma watch_loop_reachable p n a stream : reachable a -> reachable (watch_loop p whitelist n a stream).
Proof.
  revert a stream. induction n as [|n IH]; intros a stream Ha; cbn [watch_loop]; [done|].
  destruct (next_entry_change stream) as [[[c|]|] stream']; [|done..]. by apply IH, reach_change.
Qed.

Lemma watch_once_reachable p a stream m a' m' : reachable a -> runs (watch_once p whitelist a stream) m a' m' -> reachable a'.
Proof.
  intros Ha. destruct stream as [stream|]; [|by intros [-> _]]. intros (r & m1 & _ & -> & _)%runs_bind.
  destruct r as [rows|]; [|done]. by apply watch_loop_reachable, reach_ready, load_rows_reachable.
Qed.

(** ** Searches *)

Definition shown (req : SearchRequest) (de : Dn * Entry) : SearchResultEntry :=
  mkResultEntry (Dn.to_string de.1) (gc_project_attributes de.2 (sr_attributes req) (types_only req)).

Definition hits (req : SearchRequest) (cs : list (Dn * Entry)) : list (Dn * Entry) :=
  List.filter (fun de => Filter.matches de.2 (sr_filter req)) cs.

Lemma gc_search_loop_spec req limit sent cs :
  sent <= limit ->
  gc_search_loop req limit sent cs =
    (List.map (shown req) (ztake (limit - sent) (hits req cs)),
     if zlen (hits req cs) <=? limit - sent then done Success [] else done SizeLimitExceeded []).
Proof.
  revert sent. induction cs as [|[dn e] cs IH]; intros sent Hs; cbn [gc_search_loop hits List.filter snd].
  { unfold ztake. rewrite take_nil. change (zlen []) with 0. by rewrite (proj2 (Z.leb_le 0 _)) by lia. }
  destruct (Filter.matches e (sr_filter req)); cbn [negb]; [|by apply IH]. change (List.filter _ cs) with (hits req cs).
  destruct (Z.eqb_spec sent limit) as [->|Hne].
  - rewrite Z.sub_diag. unfold zlen. cbn [length]. by rewrite (proj2 (Z.leb_gt _ 0)) by lia.
  - rewrite IH by lia. unfold ztake, zlen. cbn [length].
    replace (Z.to_nat (limit - sent)) with (S (Z.to_nat (limit - (sent + 1)))) by lia. cbn [take List.map]. f_equal.
    destruct (Z.leb_spec (Z.of_nat (length (hits req cs))) (limit - (sent + 1)));
      destruct (Z.leb_spec (Z.of_nat (S (length (hits req cs)))) (limit - sent)); try lia; done.
Qed.

(** What is in the scope of a search. *)
Definition in_scope (base : Dn) (sc : SearchRequestScope) (dn : Dn) : Prop :=
  match sc with
  | BaseObject => Dn.to_string dn = Dn.to_string base
  | SingleLevel => is_within dn base = true /\ depth dn = S (depth base)
  | WholeSubtree => is_within dn base = true
  | OtherScope => False
  end.

Lemma snapshot_elem a de : de ∈ snapshot a <-> exists s, entries a !! s = Some de.
Proof.
  unfold snapshot. rewrite hash_values_perm, list_elem_of_fmap. setoid_rewrite elem_of_map_to_list'. split.
  - intros ([s x] & -> & Hs). by exists s.
  - intros (s & Hs). by exists (s, de).
Qed.

Lemma gc_candidates_elem a base sc cs de :
  reachable a -> gc_candidates a base sc = Ok cs ->
  (sc = BaseObject -> de ∈ cs -> exists dn, de = (base, dn.2) /\ entries a !! Dn.to_string base = Some dn) /\
  (sc <> BaseObject -> de ∈ cs <-> in_scope base sc de.1 /\ exists s, entries a !! s = Some de).
Proof.
  intros Ha. unfold gc_candidates, Aggregate_get. destruct sc; intros Hcs; (split; [intros Hsc|intros Hsc]); try done.
  - destruct (entries a !! Dn.to_string base) as [x|]; [|done]. injection Hcs as <-. intros ->%list_elem_of_singleton. by exists x.
  - injection Hcs as <-. rewrite list_elem_of_In, !filter_In, <- list_elem_of_In, snapshot_elem, bool_decide_eq_true. cbn [in_scope]. naive_solver.
  - injection Hcs as <-. rewrite list_elem_of_In, !filter_In, <- list_elem_of_In, snapshot_elem. cbn [in_scope]. naive_solver.
Qed.

Lemma shown_listed a s (de : Dn * Entry) req dn :
  reachable a -> entries a !! s = Some de -> Forall (fun at_ => listed whitelist at_.1 = true) (re_attributes (shown req (dn, de.2))).
Proof.
  intros Ha [_ Hls]%(reachable_listed a Ha). unfold shown, gc_project_attributes. cbn [re_attributes snd].
  apply Forall_fmap, Forall_forall. intros name Hn. cbn [compose fst]. apply list_elem_of_In, filter_In in Hn as [Hn _].
  unfold attr_names, bt_keys in Hn. apply in_map_iff in Hn as (kv & <- & Hkv). rewrite Forall_forall in Hls. by apply Hls, list_elem_of_In.
Qed.

Lemma hits_elem req cs de : de ∈ hits req cs <-> de ∈ cs /\ Filter.matches de.2 (sr_filter req) = true.
Proof. unfold hits. by rewrite list_elem_of_In, filter_In, <- list_elem_of_In. Qed.

End catalog.

(** ** Connections *)

(** A message takes bytes of what is left to read, so a connection ends within
    as many turns as there are bytes, and one more. *)
Lemma gc_connection_ends `{EntryCodec} `{!UnicodeLower} `{!HashOrder} `{!LdapCodec} n apps reader buf :
  ber_decode [] = None -> bytes_ok (pending reader buf) -> (length (pending reader buf) < n)%nat ->
  (gc_handle_connection n apps reader buf).2 = true.
Proof.
  intros He. revert reader buf. induction n as [|n IH]; intros reader buf Hok Hn; [lia|]. cbn [gc_handle_connection].
  destruct (read_message ber_decode reader buf) as [r [reader' buf']] eqn:Hr. destruct r as [[msg|]|]; [|done..].
  destruct (gc_respond _ _) as [ops|]; [|done]. destruct (gc_send _ ops) as [bs [|]]; [|done].
  apply (read_loop_shrinks _ (next_message_shrinks _ He)) in Hr as [Hlt Hok']; [|done].
  specialize (IH reader' buf' Hok' ltac:(lia)). by destruct (gc_handle_connection n apps reader' buf').
Qed.

(** ** Examples *)

#[local] Existing Instance bit_codec.

Definition ex_gc_partition : Partition :=
  mkPartition ex_pid (str "lab") (dn_of (str "dc=g10,dc=lo")) Domain None (plaintext [str "http://a:2379"]) None [] None None None None.

Definition carol : Dn := dn_of (str "cn=Carol,ou=users,dc=g10,dc=lo").

(** Carol is added and Alice removed after the scan. *)
Definition ex_changes : list dchange := [Wrote carol entry_example; Erased alice].

Lemma keyedb_sound d : dn_wfb d = true -> key_safeb d = true -> norm_plainb d = true -> keyed d.
Proof. intros Hw Hs Hp. split; [by apply key_safeb_sound|]. apply norm_plainb_sound; [by apply dn_wfb_sound|done]. Qed.

Lemma ex_changes_ok : Forall (change_ok ex_gc_partition) ex_changes.
Proof.
  constructor; [|constructor; [|constructor]].
  - split; [apply keyedb_sound; vm_compute; reflexivity|]. split; [vm_compute; reflexivity|apply entry_example_wf].
  - split; [apply keyedb_sound; vm_compute; reflexivity|]. split; [vm_compute; reflexivity|done].
Qed.

Lemma singleton_keyed k0 (d : Dn) (e0 : Entry) :
  keyed d -> forall k dn e, ({[ k0 := (d, e0) ]} : gmap (list Z) (Dn * Entry)) !! k = Some (dn, e) -> keyed dn.
Proof. intros Hd k dn e. rewrite lookup_singleton_Some. by intros (_ & [= <- _]). Qed.

Lemma ex_dir_keyed k dn e : ex_dir !! k = Some (dn, e) -> keyed dn.
Proof. apply singleton_keyed, keyedb_sound; vm_compute; reflexivity. Qed.


#[local] Existing Instance ascii_unicode.
#[local, program] Instance key_order : HashOrder := {| hash_values m := (map_to_list m).*2 |}.
Next Obligation. done. Qed.

(** The replica of one entry with a password and a name. *)
Definition secret_entry : Entry := Entry.set entry_example (str "userPassword") [str "s3cret"].
Definition ex_replica : Aggregate :=
  apply_change ex_gc_partition DEFAULT_ATTRIBUTES Aggregate_new (ChangePut (entry_key ex_pid alice) secret_entry).

Definition ex_gc_search (base : string) (sc : SearchRequestScope) : SearchRequest :=
  mkSearch (str base) sc 0 false (Present (str "cn")) [str "*"].

Definition ex_gc (req : SearchRequest) := gc_handle_search (mkGcState ex_replica Registry.new 1) req.

Lemma ex_replica_reachable : reachable DEFAULT_ATTRIBUTES ex_replica.
Proof. apply reach_change, reach_new. Qed.


(** ** Where the replica falls short *)

(** Of a response with several events only the first is applied. *)
Lemma batched_events_dropped e1 e2 kv stream :
  event_kv e1 = Some kv ->
  next_subtree_event (Ok [e1; e2] :: stream) = (Ok (Some (mkSubtreeEvent kv.1 (event_type e1) kv.2)), stream).
Proof. destruct kv. cbn. by intros ->. Qed.

(** The watch does not cover the base of the subtree. *)
Lemma base_not_watched pid dn :
  key_safe dn -> rdns dn <> [] -> starts_with (watch_subtree pid dn) (entry_key pid dn) = false.
Proof.
  intros Hs Hne. unfold watch_subtree. rewrite subtree_prefix_scan by done. unfold is_strict_descendant_of.
  by rewrite (proj2 (Nat.ltb_ge _ _)) by lia.
Qed.

(** A base search under another spelling of the DN finds nothing, while a
    subtree search with it does. *)
Lemma base_search_minds_case :
  ex_gc (ex_gc_search "cn=Alice,ou=users,dc=g10,dc=lo" BaseObject) = ([], done NoSuchObject []) /\
  length (ex_gc (ex_gc_search "cn=Alice,ou=users,dc=g10,dc=lo" WholeSubtree)).1 = 1%nat.
Proof. split; vm_compute; reflexivity. Qed.

(** An entry deleted while the watcher was disconnected stays in the replica. *)
Lemma reconnect_keeps_deleted :
  Aggregate_get (exec zeros (watch_once ex_gc_partition DEFAULT_ATTRIBUTES ex_replica (Ok [])) ∅).1 (norm_dn alice) =
  Aggregate_get ex_replica (norm_dn alice) /\ is_Some (Aggregate_get ex_replica (norm_dn alice)).
Proof. split; [vm_compute; reflexivity|]. vm_compute. by eexists. Qed.
