(* ===== verification/Config.v ===== *)
(** The forest configuration, [crates/config/src/lib.rs], and the commands of
    [crates/config/src/bin/iron-config-ctl.rs]: the partition registry as
    records in the configuration partition. *)

From S2P Require Import Prelude Bytes Str Btree Decimal Sid Utf8 Dn Partition Key Registry Entry Etcd Index Store.
From S2P Require Import Token Kerberos Password BinaryAttrs Krb.

(** [serde_json] for partition records: the text is a string, and a record with
    valid identifiers and a base DN that can be read back comes back. *)
Definition partition_ok (p : Partition) : Prop :=
  valid_id (p_id p) = true /\ valid_id (forest p) = true /\ dn_wf (base_dn p) /\
  Forall (fun i => valid_id i = true) (subordinates p) /\ (forall s, superior p = Some s -> valid_id s = true).

Class PartitionJson := {
  partition_to_json : Partition -> option rstring;
  partition_from_json : rstring -> option Partition;
  partition_json_str p s : partition_to_json p = Some s -> str_ok s;
  partition_json_roundtrip p s : partition_ok p -> partition_to_json p = Some s -> partition_from_json s = Some p;
}.

Section config.
  Context `{EntryCodec} `{!PartitionJson}.

Inductive ConfigError :=
| CStore (e : StoreError json_error)
| CPartition (e : PartitionError)
| CJson
| MissingPartitionData (dn : Dn)
| CRegistry (e : PartitionError).

Definition ATTR_PARTITION_DATA : rstring := str "partitiondata".

Definition record_dn (config_dn : Dn) (id : PartitionId) : result ConfigError Dn :=
  map_err CPartition (Dn.parse (str "cn=" ++ id ++ str "," ++ Dn.to_string config_dn)).

Definition partition_to_entry (p : Partition) : result ConfigError Entry :=
  let entry := Entry.set (Entry.set Entry.new (str "objectclass") [str "top"]) (str "cn") [p_id p] in
  s ← ok_or CJson (partition_to_json p);
  Ok (Entry.set entry ATTR_PARTITION_DATA [s]).

Definition entry_to_partition (dn : Dn) (entry : Entry) : result ConfigError Partition :=
  raw ← ok_or (MissingPartitionData dn) (Entry.get entry ATTR_PARTITION_DATA ≫= head);
  ok_or CJson (partition_from_json raw).

(** The loop of [load_registry] over the scanned entries. *)
Fixpoint collect_partitions (config_dn : Dn) (entries : list (Dn * Entry)) : result ConfigError (list Partition) :=
  match entries with
  | [] => Ok []
  | (dn, entry) :: rest =>
      if dn_eq dn config_dn && bool_decide (Entry.get entry ATTR_PARTITION_DATA = None) then collect_partitions config_dn rest
      else
        p ← entry_to_partition dn entry;
        ps ← collect_partitions config_dn rest;
        Ok (p :: ps)
  end.

Definition load_registry (st : Store) (config_dn : Dn) : prog (result ConfigError PartitionRegistry) :=
  entries <-? prog_map_err CStore (Store.scan_subtree st config_dn) ;;
  partitions <-? lift (collect_partitions config_dn entries) ;;
  lift (map_err CRegistry (from_partitions partitions)).

Definition put_partition (st : Store) (config_dn : Dn) (spec : IndexSpec) (p : Partition) : prog (result ConfigError unit) :=
  dn <-? lift (record_dn config_dn (p_id p)) ;;
  entry <-? lift (partition_to_entry p) ;;
  prog_map_err CStore (Store.put_entry st dn entry spec).

Definition create_partition (st : Store) (config_dn : Dn) (spec : IndexSpec) (p : Partition) : prog (result ConfigError bool) :=
  dn <-? lift (record_dn config_dn (p_id p)) ;;
  entry <-? lift (partition_to_entry p) ;;
  prog_map_err CStore (Store.create_entry st dn entry spec).

(** [fresh_fips]: whether a FIPS context can be made.  The sub-authorities are
    the three big-endian words of the random bytes. *)
Definition generate_domain_sid (fresh_fips : result Error unit) : prog (result Error rstring) :=
  _ <-? lift fresh_fips ;;
  bytes <-? random_bytes 12 ;;
  let subs := [be_val (ztake 4 bytes); be_val (ztake 4 (zdrop 4 bytes)); be_val (ztake 4 (zdrop 8 bytes))] in
  Ret (Ok (Sid.to_string (Sid.new NT_AUTHORITY (21 :: subs)))).

Definition config_index_spec : IndexSpec := IndexSpec_new [str "cn"].

(** ** The commands, [iron-config-ctl.rs] *)

Inductive CtlError :=
| Usage
| EnvRequired (name : rstring)
| CtlPartition (e : PartitionError)
| CtlStore (e : StoreError json_error)
| CtlConfig (e : ConfigError)
| CtlCrypto (e : Error)
| NoSuchPartition (id : rstring)
| BadSid (sid : rstring)
| AlreadyExists (id : rstring)
| UnknownCommand (cmd : rstring).

(** The environment, what connecting to a cluster gives, and whether the FIPS
    provider can be used. *)
Context (vars : rstring -> option rstring) (connect_cluster : ClusterRef -> result (StoreError json_error) unit)
  (fresh_fips : result Error unit).

Definition env (name : string) : option rstring :=
  v ← vars (str name); if bool_decide (v = []) then None else Some v.
Definition require_env (name : string) : result CtlError rstring := ok_or (EnvRequired (str name)) (env name).

(** The store with the configuration partition alone. *)
Definition config_store (p : Partition) : result CtlError Store :=
  reg ← map_err CtlPartition (Registry.insert Registry.new p);
  map_err CtlStore (Store.connect connect_cluster reg).

Definition connect_and_load : prog (result CtlError (Store * Dn * PartitionRegistry)) :=
  config_endpoint <-? lift (require_env "IRON_CONFIG_FASTETCD_ENDPOINT") ;;
  config_pid <-? lift (require_env "IRON_CONFIG_PARTITION_ID") ;;
  config_base_dn_str <-? lift (require_env "IRON_CONFIG_BASE_DN") ;;
  config_dn <-? lift (map_err CtlPartition (Dn.parse config_base_dn_str)) ;;
  bootstrap_forest <-? lift (map_err CtlPartition (ForestId_new config_pid)) ;;
  p <-? lift (map_err CtlPartition (configuration config_pid bootstrap_forest config_dn (plaintext [config_endpoint]))) ;;
  st <-? lift (config_store p) ;;
  reg <-? prog_map_err CtlConfig (load_registry st config_dn) ;;
  Ret (Ok (st, config_dn, reg)).

(** Two arguments; more are ignored. *)
Definition two_args (args : list rstring) : result CtlError (rstring * rstring) :=
  match args with a :: b :: _ => Ok (a, b) | _ => Err Usage end.

Definition store_partition (st : Store) (config_dn : Dn) (p : Partition) : prog (result CtlError unit) :=
  prog_map_err CtlConfig (put_partition st config_dn config_index_spec p).

(** What [set_ldap_url], [set_kdc_url] and [set_domain_sid] share. *)
Definition edit_partition (partition_id : rstring) (edit : Partition -> Partition) : prog (result CtlError unit) :=
  loaded <-? connect_and_load ;;
  let '(st, config_dn, reg) := loaded in
  pid <-? lift (map_err CtlPartition (PartitionId_new partition_id)) ;;
  p <-? lift (ok_or (NoSuchPartition partition_id) (Registry.get reg pid)) ;;
  store_partition st config_dn (edit p).

Definition set_ldap_url (args : list rstring) : prog (result CtlError unit) :=
  ab <-? lift (two_args args) ;; edit_partition ab.1 (with_ldap_url ab.2).

Definition set_kdc_url (args : list rstring) : prog (result CtlError unit) :=
  ab <-? lift (two_args args) ;; edit_partition ab.1 (with_kdc_url ab.2).

Definition set_domain_sid (args : list rstring) : prog (result CtlError unit) :=
  ab <-? lift (two_args args) ;;
  if bool_decide (Sid.parse ab.2 = None) then Ret (Err (BadSid ab.2)) else edit_partition ab.1 (with_domain_sid ab.2).

Definition with_subordinates (l : list PartitionId) (p : Partition) : Partition :=
  mkPartition (p_id p) (forest p) (base_dn p) (kind p) (realm p) (cluster p) (superior p) l
    (ldap_url p) (kdc_url p) (domain_sid p) (netbios_name p).

Definition add_subordinate (args : list rstring) : prog (result CtlError unit) :=
  ab <-? lift (two_args args) ;;
  let '(parent_id, child_id) := ab in
  loaded <-? connect_and_load ;;
  let '(st, config_dn, reg) := loaded in
  parent_pid <-? lift (map_err CtlPartition (PartitionId_new parent_id)) ;;
  child_pid <-? lift (map_err CtlPartition (PartitionId_new child_id)) ;;
  _ <-? lift (ok_or (NoSuchPartition child_id) (Registry.get reg child_pid)) ;;
  parent <-? lift (ok_or (NoSuchPartition parent_id) (Registry.get reg parent_pid)) ;;
  if bool_decide (child_pid ∈ subordinates parent) then Ret (Ok tt)
  else store_partition st config_dn (with_subordinates (subordinates parent ++ [child_pid]) parent).

Definition or_skip {A B : Type} (o : option A) (f : A -> B -> B) (b : B) : B := match o with Some a => f a b | None => b end.

(** The record of the root domain, from what was there before. *)
Definition root_record (prior : option Partition) (root : Partition) : Partition :=
  match prior with
  | Some prior =>
      mkPartition (p_id root) (forest root) (base_dn root) (kind root) (realm root) (cluster root) (superior root)
        (subordinates prior) (ldap_url root) (kdc_url root) (domain_sid prior) (netbios_name root)
  | None => root
  end.

(** A record without a domain SID gets a new one. *)
Definition assign_domain_sid (p : Partition) : prog (result CtlError Partition) :=
  if bool_decide (domain_sid p = None)
  then sid <-? prog_map_err CtlCrypto (generate_domain_sid fresh_fips) ;; Ret (Ok (with_domain_sid sid p))
  else Ret (Ok p).

Definition init_forest (args : list rstring) : prog (result CtlError unit) :=
  match args with
  | forest_id :: config_id :: config_base_dn :: root_id :: root_base_dn :: rest =>
      let realm_override := head rest in
      endpoint <-? lift (require_env "IRON_CONFIG_FASTETCD_ENDPOINT") ;;
      let cluster := plaintext [endpoint] in
      forest <-? lift (map_err CtlPartition (ForestId_new forest_id)) ;;
      config_dn <-? lift (map_err CtlPartition (Dn.parse config_base_dn)) ;;
      root_dn <-? lift (map_err CtlPartition (Dn.parse root_base_dn)) ;;
      config_partition <-? lift (map_err CtlPartition (configuration config_id forest config_dn cluster)) ;;
      st <-? lift (config_store config_partition) ;;
      prog_bind_ (fun loaded =>
        let existing := match loaded with Ok reg => reg | Err _ => Registry.new end in
        _ <-? store_partition st config_dn config_partition ;;
        schema_dn <-? lift (map_err CtlPartition (Dn.parse (str "cn=schema," ++ config_base_dn))) ;;
        schema_partition <-? lift (map_err CtlPartition (schema (forest_id ++ str "-schema") forest schema_dn cluster)) ;;
        _ <-? store_partition st config_dn schema_partition ;;
        root <-? lift (map_err CtlPartition (domain root_id forest root_dn cluster)) ;;
        let root := or_skip realm_override with_realm root in
        let root := or_skip (env "IRON_CONFIG_ROOT_LDAP_URL") with_ldap_url root in
        root <-? assign_domain_sid (root_record (Registry.get existing (p_id root)) root) ;;
        store_partition st config_dn root) (load_registry st config_dn)
  | _ => Ret (Err Usage)
  end.

Definition create_child (args : list rstring) : prog (result CtlError unit) :=
  match args with
  | parent_id :: new_id :: new_base_dn :: rest =>
      let realm_override := head rest in
      loaded <-? connect_and_load ;;
      let '(st, config_dn, reg) := loaded in
      parent_pid <-? lift (map_err CtlPartition (PartitionId_new parent_id)) ;;
      parent <-? lift (ok_or (NoSuchPartition parent_id) (Registry.get reg parent_pid)) ;;
      new_pid <-? lift (map_err CtlPartition (PartitionId_new new_id)) ;;
      _ <-? lift (if bool_decide (is_Some (Registry.get reg new_pid)) then Err (AlreadyExists new_id) else Ok tt) ;;
      let child_cluster := match env "IRON_CHILD_FASTETCD_ENDPOINT" with Some ep => plaintext [ep] | None => cluster parent end in
      new_dn <-? lift (map_err CtlPartition (Dn.parse new_base_dn)) ;;
      child <-? lift (map_err CtlPartition (domain new_id (forest parent) new_dn child_cluster)) ;;
      sid <-? prog_map_err CtlCrypto (generate_domain_sid fresh_fips) ;;
      let child := with_domain_sid sid (with_superior parent_pid child) in
      let child := or_skip realm_override with_realm child in
      let child := or_skip (env "IRON_CONFIG_LDAP_URL") with_ldap_url child in
      _ <-? store_partition st config_dn child ;;
      store_partition st config_dn (with_subordinates (subordinates parent ++ [new_pid]) parent)
  | _ => Ret (Err Usage)
  end.

(** The partitions [show] prints a line for. *)
Definition show : prog (result CtlError (list Partition)) :=
  loaded <-? connect_and_load ;; Ret (Ok (Registry.iter loaded.2)).

Definition quiet (p : prog (result CtlError unit)) : prog (result CtlError (list Partition)) := _ <-? p ;; Ret (Ok []).

(** The first argument is the name of the program. *)
Definition main (args : list rstring) : prog (result CtlError (list Partition)) :=
  match args with
  | _ :: cmd :: rest =>
      if bool_decide (cmd = str "init-forest") then quiet (init_forest rest)
      else if bool_decide (cmd = str "create-child") then quiet (create_child rest)
      else if bool_decide (cmd = str "set-ldap-url") then quiet (set_ldap_url rest)
      else if bool_decide (cmd = str "set-kdc-url") then quiet (set_kdc_url rest)
      else if bool_decide (cmd = str "set-domain-sid") then quiet (set_domain_sid rest)
      else if bool_decide (cmd = str "add-subordinate") then quiet (add_subordinate rest)
      else if bool_decide (cmd = str "show") then show
      else Ret (Err (UnknownCommand cmd))
  | _ => Ret (Err Usage)
  end.
End config.
