(* ===== verification/ConfigSpec.v ===== *)
(** What the configuration partition guarantees: its records are a map of
    partitions, which loading reads and the commands change as they say. *)

From S2P Require Import Prelude Bytes Str Btree Decimal Sid Utf8 Dn Partition Key Registry Entry Etcd Index Store Directory.
From S2P Require Import Token Kerberos Password BinaryAttrs Krb Gc GcReplica Config.

(** ** Names of records *)

Lemma escape_value_plain v :
  Forall (fun c => is_special c = false /\ c <> c_space) v -> escape_value v = v.
Proof.
  unfold escape_value. intros Hv. generalize (length v). intros n.
  assert (forall k, concat (imap (fun i c => escape_char ((k + i =? 0)%nat || (k + i =? n - 1)%nat) c) v) = v) as Hk; [|apply (Hk 0%nat)].
  induction Hv as [|c v [Hs Hc] _ IH]; intros k; [done|]. cbn [imap concat]. unfold escape_char at 1. rewrite Hs.
  rewrite (proj2 (Z.eqb_neq c c_space)) by done. cbn [andb app]. f_equal. rewrite <- (IH (S k)) at 2. f_equal.
  apply imap_ext. intros i x _. cbn [compose]. by rewrite Nat.add_succ_r, Nat.add_succ_l.
Qed.

Lemma valid_id_chars id :
  valid_id id = true -> id <> [] /\ Forall (fun c => 97 <= c <= 122 \/ 48 <= c <= 57 \/ c = c_dash) id.
Proof.
  unfold valid_id. rewrite !andb_true_iff, forallb_forall, !negb_true_iff, !bool_decide_eq_false. intros [[[Hne _] _] Hall].
  split; [done|]. apply Forall_forall. intros c Hc%list_elem_of_In. apply Hall in Hc. unfold is_ascii_lowercase, is_ascii_digit in Hc.
  rewrite !orb_true_iff, !andb_true_iff, !Z.leb_le, Z.eqb_eq in Hc. tauto.
Qed.

Lemma forall_last {A : Type} (P : A -> Prop) l : Forall P l -> match last l with Some x => P x | None => True end.
Proof. intros Hl. destruct (last l) as [x|] eqn:E; [|done]. rewrite Forall_forall in Hl. apply Hl. by apply last_Some_elem_of. Qed.

Lemma valid_id_trimmed id : valid_id id = true -> trimmed id /\ to_ascii_lowercase id = id /\ value_ok id.
Proof.
  intros [_ Hc]%valid_id_chars.
  assert (Forall (fun c => is_whitespace c = false) id) as Hw.
  { eapply Forall_impl; [exact Hc|]. intros c Hr. cbn beta in Hr. apply not_true_iff_false. unfold is_whitespace.
    rewrite ?orb_true_iff, ?andb_true_iff, ?Z.leb_le, ?Z.eqb_eq. lia. }
  assert (head_ok id) as Hh by (destruct Hw; done).
  assert (last_ok id) as Hl by (unfold last_ok; pose proof (forall_last _ _ Hw); by destruct (last id)).
  split; [done|]. split.
  - unfold to_ascii_lowercase. clear -Hc. induction Hc as [|c id Hr _ IH]; [done|]. cbn [List.map]. f_equal; [|done].
    cbn beta in Hr. unfold ascii_lower. destruct (Z.leb_spec 65 c), (Z.leb_spec c 90); cbn; lia.
  - split; [|done]. destruct Hw as [|c id Hw _]; cbn; [done|]. unfold other_space. by rewrite Hw.
Qed.

Section record.
  Context (config_dn : Dn) (Hwf : dn_wf config_dn) (Hne : rdns config_dn <> []) (Hkey : keyed config_dn).

Definition record_of (id : PartitionId) : Dn := mkDn (mkRdn [mkAva (str "cn") id id] :: rdns config_dn).

Lemma record_wf id : valid_id id = true -> dn_wf (record_of id).
Proof.
  intros Hid. destruct (valid_id_trimmed id Hid) as (Ht & Hl & Hv). constructor; [|exact Hwf]. constructor; [done| |repeat constructor].
  constructor; [|constructor]. constructor; cbn [attr value norm_value]; try done; try by_decide.
  - repeat (constructor; [done|set_solver|]). constructor.
  - by rewrite trim_id, Hl.
Qed.

Lemma record_keyed id : valid_id id = true -> keyed (record_of id).
Proof.
  intros Hid. destruct (valid_id_trimmed id Hid) as (Ht & Hl & _). destruct (valid_id_chars id Hid) as [_ Hc]. destruct Hkey as [Hs Hp].
  assert (forall c, c ∈ [c_bslash; c_comma; c_plus; c_slash; c_eq] -> c ∉ id) as Hno.
  { intros c Hin Hx. rewrite Forall_forall in Hc. specialize (Hc c Hx). vm_compute in Hin.
    repeat (apply elem_of_cons in Hin as [->|Hin]; [cbn beta in Hc; lia|]). by apply elem_of_nil in Hin. }
  split.
  - constructor; [|exact Hs]. split; [done|]. constructor; [|constructor]. constructor; cbn [attr norm_value]; try by_decide; apply Hno; set_solver.
  - constructor; [|exact Hp]. split; [done|]. split; [|repeat constructor]. constructor; [|constructor]. constructor; cbn [attr norm_value]; try done; try by_decide.
    apply Forall_forall. intros c Hin Hx. apply (Hno c); [set_solver|done].
Qed.

Lemma record_to_string id : valid_id id = true -> Dn.to_string (record_of id) = str "cn=" ++ id ++ str "," ++ Dn.to_string config_dn.
Proof.
  intros Hid. unfold Dn.to_string at 1. cbn [rdns record_of List.map]. rewrite join_cons by (by destruct (rdns config_dn)).
  cbn [rdn_to_string avas List.map join]. unfold ava_to_string. cbn [attr value]. rewrite escape_value_plain.
  - rewrite <- !app_assoc. done.
  - destruct (valid_id_chars id Hid) as [_ Hc]. eapply Forall_impl; [exact Hc|]. intros c Hr. cbn beta in Hr. unfold is_special.
    split; [|lia]. apply not_true_iff_false. rewrite ?orb_true_iff, ?Z.eqb_eq. lia.
Qed.

Lemma record_dn_ok `{EntryCodec} `{!PartitionJson} id : valid_id id = true -> record_dn config_dn id = Ok (record_of id).
Proof.
  intros Hid. unfold record_dn. pose proof (parse_print_wf _ (record_wf id Hid)) as Hp. rewrite (record_to_string id Hid) in Hp. by rewrite Hp.
Qed.

Lemma record_within id : is_within (record_of id) config_dn = true.
Proof.
  apply is_within_suffix. exists [mkRdn [mkAva (str "cn") id id]], (rdns config_dn). by split.
Qed.

Lemma record_not_base id : ~ record_of id ≡ config_dn.
Proof. intros Heq. apply length_proper in Heq. cbn in Heq. lia. Qed.

Lemma record_equiv_inj id id' : record_of id ≡ record_of id' -> id = id'.
Proof.
  intros Heq. unfold equiv, dn_equiv in Heq. cbn [rdns record_of] in Heq. inversion Heq as [|? ? ? ? Hr _]; subst. unfold equiv, rdn_equiv in Hr. cbn [avas] in Hr.
  inversion Hr as [|? ? ? ? Ha _]; subst. unfold equiv, ava_equiv in Ha. by destruct Ha.
Qed.
End record.

(** ** The records as a map of partitions *)

Section records.
  Context `{EntryCodec} `{!PartitionJson}.
  Context (cid : PartitionId) (config_dn : Dn) (spec : IndexSpec).
  Context (Hwf : dn_wf config_dn) (Hchars : str_ok (Dn.to_string config_dn)) (Hne : rdns config_dn <> []) (Hkey : keyed config_dn)
    (Hid : valid_id cid = true).
  Local Abbreviation dir := (gmap (list Z) (Dn * Entry)).
  Local Abbreviation record := (record_of config_dn).
  Implicit Types (D : dir) (R : gmap (list Z) Partition) (m : kvstore).

(** An entry of the configuration partition: the base, or the record of a
    partition of the map. *)
Definition is_base (dn : Dn) (e : Entry) : Prop := dn ≡ config_dn /\ keyed dn /\ Entry.get e ATTR_PARTITION_DATA = None.

Definition is_record R (dn : Dn) (e : Entry) : Prop :=
  exists p, R !! p_id p = Some p /\ partition_ok p /\ dn = record (p_id p) /\ partition_to_entry p = Ok e.

Record configured D R : Prop := {
  cf_entries : forall k dn e, D !! k = Some (dn, e) -> k = entry_key cid dn /\ (is_base dn e \/ is_record R dn e);
  cf_records : forall id p, R !! id = Some p ->
    id = p_id p /\ exists e, D !! entry_key cid (record id) = Some (record id, e) /\ partition_to_entry p = Ok e;
}.

(** The store holds the records of [R]. *)
Definition config_holds R m : Prop := exists D, configured D R /\ repr cid spec D m.

(** A write that reports success has happened; one that reports an error has
    happened as a whole or not at all. *)
Definition config_outcome {E A : Type} R R' (r : result E A) m : Prop :=
  match r with Ok _ => config_holds R' m | Err _ => config_holds R m \/ config_holds R' m end.

Lemma partition_to_entry_ok p e :
  partition_ok p -> partition_to_entry p = Ok e -> entry_wf e /\ forall dn, entry_to_partition dn e = Ok p.
Proof.
  intros Hp. unfold partition_to_entry. destruct (partition_to_json p) as [s|] eqn:Hs; [|done]. cbn [ok_or mbind result_bind]. intros [= <-].
  split.
  - destruct Hp as (Hv & _). destruct (valid_id_chars _ Hv) as [_ Hc].
    assert (str_ok (p_id p)) as Hstr by (eapply Forall_impl; [exact Hc|]; intros c Hr; cbn beta in Hr; unfold is_scalar; lia).
    assert (forall x, str_ok x -> Forall str_ok [x]) as Hone by (intros x Hx; constructor; [done|constructor]).
    repeat apply entry_set_wf; try apply Hone; try apply str_ok_str; [apply entry_new_wf|done|by eapply partition_json_str].
  - intros dn. unfold entry_to_partition. rewrite get_set. change (eq_ignore_ascii_case _ _) with true. cbn [mbind option_bind head ok_or result_bind].
    by rewrite (partition_json_roundtrip p s).
Qed.

Lemma record_ok id : valid_id id = true -> dn_ok (record id).
Proof.
  intros Hv. constructor; [by apply record_wf|]. destruct (valid_id_chars id Hv) as [_ Hc].
  assert (str_ok id) as Hstr by (eapply Forall_impl; [exact Hc|]; intros c Hr; cbn beta in Hr; unfold is_scalar; lia).
  rewrite (record_to_string config_dn Hne id Hv). repeat (apply Forall_app; split; [try apply str_ok_str; done|]). done.
Qed.

Lemma record_key_inj id id' :
  valid_id id = true -> valid_id id' = true -> entry_key cid (record id) = entry_key cid (record id') -> id = id'.
Proof.
  intros Hv Hv' Hk. apply entry_key_equiv in Hk; [|by apply record_keyed..]. by eapply record_equiv_inj.
Qed.

Lemma configured_keyed D R k dn e : configured D R -> D !! k = Some (dn, e) -> keyed dn.
Proof.
  intros HC HD. destruct (cf_entries _ _ HC _ _ _ HD) as (_ & [(_ & Hk & _)|(p & _ & Hp & -> & _)]); [done|].
  apply record_keyed; [done..|]. exact (proj1 Hp).
Qed.

(** The partition of a store that owns the configuration and its records. *)
Definition serves (st : Store) : Prop :=
  exists cp, p_id cp = cid /\ cid ∈ clients st /\ forall dn, is_within dn config_dn = true -> Registry.resolve (registry st) dn = Some cp.

Context (st : Store) (Hserve : serves st).

Lemma in_config {A : Type} dn (op : PartitionId -> prog (result (StoreError json_error) A)) :
  is_within dn config_dn = true -> in_partition st dn op = op cid.
Proof.
  intros Hw. destruct Hserve as (cp & <- & Hconn & Hown). apply in_partition_connected; auto.
Qed.

(** *** Loading *)

Lemma collect_records D R (rows : list (rstring * bytes)) l :
  configured D R -> NoDup rows.*1 ->
  Forall2 (fun kv de => exists dn, D !! kv.1 = Some (dn, de.2) /\ is_within dn config_dn = true /\ de.1 ≡ dn) rows l ->
  exists ps, collect_partitions config_dn l = Ok ps /\ NoDup (List.map p_id ps) /\
    (forall p, p ∈ ps -> R !! p_id p = Some p) /\
    (forall p k v, R !! p_id p = Some p -> (k, v) ∈ rows -> k = entry_key cid (record (p_id p)) -> p ∈ ps) /\
    (forall p, p ∈ ps -> exists v, (entry_key cid (record (p_id p)), v) ∈ rows).
Proof.
  intros HC Hnd Hl. induction Hl as [|[k v] [d e] rows l (dn & HD & Hw & Heq) _ IH].
  { exists []. split; [done|]. split; [constructor|]. split; [by intros p Hp%elem_of_nil|]. split; [by intros p k v _ Hin%elem_of_nil|by intros p Hp%elem_of_nil]. }
  cbn [fmap list_fmap fst] in Hnd. apply NoDup_cons in Hnd as [Hk Hnd]. destruct (IH Hnd) as (ps & Hps & Hn & H1 & H2 & H3). clear IH.
  cbn [fst snd] in *. destruct (cf_entries _ _ HC _ _ _ HD) as (-> & [(Hb & _ & Hnone)|(p & HR & Hp & -> & He)]).
  - exists ps. cbn [collect_partitions]. rewrite (proj2 (dn_eq_spec d config_dn)) by (by rewrite Heq). rewrite bool_decide_true by done.
    split; [done|]. split; [done|]. split; [done|]. split.
    + intros p k' v' HR Hin Hk'. apply elem_of_cons in Hin as [[= -> ->]|Hin]; [|by eapply H2].
      exfalso. apply (record_not_base config_dn (p_id p)). transitivity dn; [symmetry|exact Hb].
      destruct (cf_records _ _ HC _ _ HR) as (_ & e' & HD' & _). pose proof (configured_keyed _ _ _ _ _ HC HD') as Hkr.
      eapply entry_key_equiv; [|apply Hkr|exact Hk']. by eapply configured_keyed.
    + intros p Hin. destruct (H3 p Hin) as (v' & Hv'). exists v'. set_solver.
  - exists (p :: ps). cbn [collect_partitions]. destruct (partition_to_entry_ok p e Hp He) as [_ Hback].
    assert (dn_eq d config_dn = false) as ->.
    { apply not_true_iff_false. intros Hd%dn_eq_spec. apply (record_not_base config_dn (p_id p)). transitivity d; [by symmetry|done]. }
    cbn [andb]. rewrite Hback. cbn [mbind result_bind]. rewrite Hps. split; [done|]. cbn [List.map].
    split; [apply NoDup_cons; split; [|done]|].
    { intros Hin. apply list_elem_of_In, in_map_iff in Hin as (q & Hq & Hin). apply list_elem_of_In in Hin. destruct (H3 q Hin) as (v' & Hv').
      apply Hk. rewrite <- Hq. apply list_elem_of_fmap. by exists (entry_key cid (record (p_id q)), v'). }
    split; [intros q Hq; apply elem_of_cons in Hq as [->|Hq]; auto|]. split.
    + intros q k' v' HRq Hin Hk'. apply elem_of_cons in Hin as [[= -> ->]|Hin]; [|apply elem_of_cons; right; by eapply H2].
      destruct (cf_records _ _ HC _ _ HRq) as (_ & e' & HDq & _). rewrite <- Hk', HD in HDq. injection HDq as Hrec _.
      assert (p_id p = p_id q) as Hpq by (apply (record_equiv_inj config_dn); by rewrite Hrec).
      apply elem_of_cons. left. congruence.
    + intros q Hq. apply elem_of_cons in Hq as [->|Hq]; [exists v; set_solver|]. destruct (H3 q Hq) as (v' & Hv'). exists v'. set_solver.
Qed.

Lemma load_registry_runs R m r m' :
  config_holds R m -> runs (load_registry st config_dn) m r m' ->
  m' = m /\ ((exists e, r = Err (CStore e)) \/ exists reg, r = Ok reg /\ forall id, Registry.get reg id = R !! id).
Proof.
  intros (D & HC & HR). unfold load_registry. rewrite runs_try. setoid_rewrite runs_map_err.
  assert (forall r0 m0, runs (Store.scan_subtree st config_dn) m r0 m0 -> m0 = m /\ ((exists e, r0 = Err e) \/
    exists rows l, r0 = Ok l /\ NoDup rows.*1 /\
      Forall2 (fun kv de => exists dn, D !! kv.1 = Some (dn, de.2) /\ is_within dn config_dn = true /\ de.1 ≡ dn) rows l /\
      forall k dn e, D !! k = Some (dn, e) -> is_within dn config_dn = true -> (k, encode e) ∈ rows)) as Hscan.
  { intros r0 m0. destruct Hserve as (cp & Hcp & Hconn & Hown). rewrite <- Hcp in HR, Hconn.
    apply (scan_decoded_rows st cp spec D m HR); [|apply Hkey|done|apply Hown, is_within_refl|done].
    intros k dn e HD. by apply (configured_keyed D R k dn e). }
  intros [(e & (x & Hx & Hxe) & ->)|(l & m1 & (x & Hx & Hxe) & Hk)]; apply Hscan in Hx as [-> Hx].
  { destruct x as [|x]; [done|]. split; [done|]. left. exists x. by injection Hxe as ->. }
  destruct Hx as [[y ->]|(rows & l' & -> & Hnd & Hl & Hrows)]; [done|]. injection Hxe as ->.
  destruct (collect_records D R rows l' HC Hnd Hl) as (ps & Hps & Hn & H1 & H2 & _). rewrite Hps in Hk.
  change (runs (lift (map_err CRegistry (from_partitions ps))) m r m') in Hk. destruct Hk as [-> ->]. split; [done|]. right.
  assert (is_ok (from_partitions ps) = true) as Hok by (apply try_fold_insert_ok; [done|done]).
  destruct (from_partitions ps) as [reg|] eqn:Hreg; [|done]. exists reg. split; [done|]. intros id.
  apply (try_fold_insert_get ps Registry.new reg id) in Hreg as (_ & _ & ->).
  destruct (List.find (fun p => bool_decide (p_id p = id)) ps) as [p|] eqn:Hf.
  - apply find_some in Hf as [Hin Hp%bool_decide_eq_true]. apply list_elem_of_In in Hin. rewrite <- Hp. symmetry. by apply H1.
  - change (Registry.get Registry.new id) with (@None Partition). destruct (R !! id) as [p|] eqn:Hp; [|done]. exfalso.
    destruct (cf_records _ _ HC _ _ Hp) as (-> & e & HD & He). assert (p ∈ ps) as Hin.
    { eapply H2; [done| |done]. eapply Hrows; [exact HD|]. apply record_within. }
    apply list_elem_of_In in Hin. pose proof (find_none _ _ Hf p Hin) as Hx. cbn beta in Hx. by rewrite bool_decide_true in Hx.
Qed.

(** *** Writing *)

Lemma configured_insert D R p e :
  configured D R -> partition_ok p -> partition_to_entry p = Ok e ->
  configured (<[entry_key cid (record (p_id p)) := (record (p_id p), e)]> D) (<[p_id p := p]> R).
Proof.
  intros HC Hp He. constructor.
  - intros k dn e'. destruct (decide (k = entry_key cid (record (p_id p)))) as [->|Hk].
    + rewrite lookup_insert_eq. intros [= <- <-]. split; [done|]. right. exists p. by rewrite lookup_insert_eq.
    + rewrite lookup_insert_ne by done. intros HD. destruct (cf_entries _ _ HC _ _ _ HD) as (-> & [Hb|(q & HR & Hq & -> & Hqe)]); (split; [done|]); [by left|].
      right. exists q. rewrite lookup_insert_ne; [done|]. intros Heq. apply Hk. by rewrite Heq.
  - intros id q. destruct (decide (id = p_id p)) as [->|Hid'].
    + rewrite lookup_insert_eq. intros [= <-]. split; [done|]. exists e. by rewrite lookup_insert_eq.
    + rewrite lookup_insert_ne by done. intros HR. destruct (cf_records _ _ HC _ _ HR) as (-> & e' & HD & He'). split; [done|]. exists e'.
      rewrite lookup_insert_ne; [done|]. intros Hk. apply Hid'.
      destruct (cf_entries _ _ HC _ _ _ HD) as (_ & [(Hb & _)|(q' & _ & Hq' & Hrec & _)]); [by apply record_not_base in Hb|].
      apply (record_equiv_inj config_dn). eapply entry_key_equiv; [|apply record_keyed; [done..|exact (proj1 Hp)]|by symmetry].
      by eapply configured_keyed.
Qed.

Lemma configured_record D R p :
  configured D R -> partition_ok p -> D !! entry_key cid (record (p_id p)) = None <-> R !! p_id p = None.
Proof.
  intros HC Hp. split.
  - intros HD. destruct (R !! p_id p) as [q|] eqn:HR; [|done]. destruct (cf_records _ _ HC _ _ HR) as (_ & e & HD' & _). congruence.
  - intros HR. destruct (D !! entry_key cid (record (p_id p))) as [[dn e]|] eqn:HD; [|done]. exfalso.
    assert (keyed (record (p_id p))) as Hkr by (apply record_keyed; [done..|exact (proj1 Hp)]).
    destruct (cf_entries _ _ HC _ _ _ HD) as (Hk & Hcase). pose proof (configured_keyed _ _ _ _ _ HC HD) as Hkd.
    apply entry_key_equiv in Hk; [|apply Hkr|apply Hkd]. destruct Hcase as [(Hb & _)|(q & HRq & _ & -> & _)].
    + apply (record_not_base config_dn (p_id p)). by transitivity dn.
    + apply record_equiv_inj in Hk. congruence.
Qed.

(** A writer that cannot make the record changes nothing; otherwise it comes
    down to one write. *)
Lemma write_record {A : Type} (op : Dn -> Entry -> prog (result (StoreError json_error) A)) p m r m' :
  valid_id (p_id p) = true ->
  runs (dn <-? lift (record_dn config_dn (p_id p)) ;; entry <-? lift (partition_to_entry p) ;; prog_map_err CStore (op dn entry)) m r m' ->
  (m' = m /\ exists e, r = Err e) \/
  exists e r0, partition_to_entry p = Ok e /\ runs (op (record (p_id p)) e) m r0 m' /\ r = map_err CStore r0.
Proof.
  intros Hv. rewrite record_dn_ok by done. destruct (partition_to_entry p) as [e|e]; cbn [lift try_bind prog_bind_].
  - rewrite runs_map_err. intros (r0 & Hr & ->). right. by exists e, r0.
  - intros [-> ->]. left. split; [done|]. by exists e.
Qed.

Lemma put_partition_runs R p m r m' :
  config_holds R m -> partition_ok p -> runs (put_partition st config_dn spec p) m r m' ->
  config_outcome R (<[p_id p := p]> R) r m'.
Proof.
  intros (D & HC & HR) Hp Hr. pose proof (proj1 Hp) as Hv.
  apply (write_record (fun dn entry => Store.put_entry st dn entry spec)) in Hr as [[-> [e ->]]|(e & r0 & He & Hr & ->)]; [left; by exists D| |done].
  destruct (partition_to_entry_ok p e Hp He) as [Hwfe _]. unfold Store.put_entry in Hr. rewrite in_config in Hr by apply record_within.
  apply (put_refines cid Hid spec D) in Hr; [|done|by apply record_ok|done|].
  - pose proof (configured_insert D R p e HC Hp He) as HC'. destruct r0; cbn in Hr |- *; [by eexists|].
    destruct Hr as [Hr|Hr]; [left|right]; by eexists.
  - intros dn' e' HD. destruct (cf_entries _ _ HC _ _ _ HD) as (Hk & Hcase).
    assert (keyed (record (p_id p))) as Hkr by (apply record_keyed; [done..|exact Hv]). pose proof (configured_keyed _ _ _ _ _ HC HD) as Hkd.
    apply entry_key_equiv in Hk; [|apply Hkr|apply Hkd]. destruct Hcase as [(Hb & _)|(q & HRq & _ & -> & _)].
    + exfalso. apply (record_not_base config_dn (p_id p)). by transitivity dn'.
    + apply record_equiv_inj in Hk. by rewrite Hk.
Qed.

Lemma create_partition_runs R p m r m' :
  config_holds R m -> partition_ok p -> runs (create_partition st config_dn spec p) m r m' ->
  (forall b, r = Ok b -> b = bool_decide (R !! p_id p = None)) /\
  config_outcome R (if bool_decide (R !! p_id p = None) then <[p_id p := p]> R else R) r m'.
Proof.
  intros (D & HC & HR) Hp Hr. pose proof (proj1 Hp) as Hv.
  apply (write_record (fun dn entry => Store.create_entry st dn entry spec)) in Hr as [[-> [e ->]]|(e & r0 & He & Hr & ->)];
    [split; [done|left; by exists D]| |done].
  destruct (partition_to_entry_ok p e Hp He) as [Hwfe _]. unfold Store.create_entry in Hr. rewrite in_config in Hr by apply record_within.
  apply (create_refines cid Hid spec D) in Hr as [Hb Hr]; [|done|by apply record_ok|done].
  rewrite (bool_decide_ext _ _ (configured_record D R p HC Hp)) in Hb, Hr. split; [intros b; destruct r0; cbn; [intros [= <-]; auto|done]|].
  pose proof (configured_insert D R p e HC Hp He) as HC'. destruct (bool_decide (R !! p_id p = None)); destruct r0; cbn in Hr |- *; try (by eexists);
    destruct Hr as [Hr|Hr]; [left|right|left|left]; by eexists.
Qed.

(** C20: The configuration partition implements a map of partitions: loading it
    gives a registry with exactly the partitions of the map, whatever their
    order in the store; writing a record replaces one partition of the map and
    creating one adds it only if its name is free, and says which; a write that
    fails has happened as a whole or not at all. *)
Theorem config_registry_refines R m :
  config_holds R m ->
  (forall r m', runs (load_registry st config_dn) m r m' ->
     m' = m /\ ((exists e, r = Err (CStore e)) \/ exists reg, r = Ok reg /\ forall id, Registry.get reg id = R !! id)) /\
  (forall p r m', partition_ok p -> runs (put_partition st config_dn spec p) m r m' -> config_outcome R (<[p_id p := p]> R) r m') /\
  (forall p r m', partition_ok p -> runs (create_partition st config_dn spec p) m r m' ->
     (forall b, r = Ok b -> b = bool_decide (R !! p_id p = None)) /\
     config_outcome R (if bool_decide (R !! p_id p = None) then <[p_id p := p]> R else R) r m').
Proof.
  intros HR. split; [|split].
  - intros r m'. by apply load_registry_runs.
  - intros p r m'. by apply put_partition_runs.
  - intros p r m'. by apply create_partition_runs.
Qed.
End records.

(** ** Examples *)

(** A concrete record format: the partition as a bit string.  It stands for no
    part of the program; it shows that [PartitionJson] can be implemented. *)
#[global] Instance Ava_countable : Countable Ava :=
  inj_countable' (fun a => (attr a, value a, norm_value a)) (fun '(a, v, n) => mkAva a v n) ltac:(by intros []).
#[global] Instance Rdn_countable : Countable Rdn := inj_countable' avas mkRdn ltac:(by intros []).
#[global] Instance Dn_countable : Countable Dn := inj_countable' rdns mkDn ltac:(by intros []).
#[global] Instance TlsRef_countable : Countable TlsRef :=
  inj_countable' (fun t => (tls_ca t, tls_cert t, tls_key t)) (fun '(a, c, k) => mkTlsRef a c k) ltac:(by intros []).
#[global] Instance ClusterRef_countable : Countable ClusterRef :=
  inj_countable' (fun c => (endpoints c, tls c)) (fun '(e, t) => mkClusterRef e t) ltac:(by intros []).
#[global] Instance PartitionKind_countable : Countable PartitionKind :=
  inj_countable' (fun k => match k with Domain => 0 | Schema => 1 | Configuration => 2 | Application => 3 end)
    (fun z => if z =? 0 then Domain else if z =? 1 then Schema else if z =? 2 then Configuration else Application) ltac:(by intros []).
#[global] Instance Partition_countable : Countable Partition :=
  inj_countable'
    (fun p => ((p_id p, Partition.forest p, base_dn p, kind p, realm p, cluster p), (superior p, subordinates p, ldap_url p, kdc_url p, domain_sid p, netbios_name p)))
    (fun '((i, f, b, k, r, c), (s, l, u, d, sid, n)) => mkPartition i f b k r c s l u d sid n) ltac:(by intros []).

Lemma pos_bits_range p : Forall (fun b => 0 <= b <= 1) (pos_bits p).
Proof. induction p; cbn; constructor; try done; lia. Qed.

#[program] Definition bit_partitions : PartitionJson := {|
  partition_to_json p := Some (pos_bits (countable.encode p));
  partition_from_json s := countable.decode (bits_pos s);
|}.
Next Obligation.
  intros p s [= <-]. eapply Forall_impl; [apply pos_bits_range|]. intros b Hb. cbn beta in Hb. unfold is_scalar. lia.
Qed.
Next Obligation. intros p s _ [= <-]. by rewrite bits_pos_bits, countable.decode_encode. Qed.

#[local] Existing Instance bit_codec.
#[local] Existing Instance bit_partitions.

(** The configuration of a forest with one domain. *)
Definition ex_config_id : rstring := str "lab-config".
Definition ex_config_dn : Dn := dn_of (str "cn=configuration,dc=g10,dc=lo").
Definition ex_config_partition : Partition :=
  mkPartition ex_config_id (str "lab") ex_config_dn Configuration None (plaintext [str "http://a:2379"]) None [] None None None None.
Definition ex_config_store : Store := mkStore (mkRegistry [(ex_config_id, ex_config_partition)]) [ex_config_id].
Definition ex_root : Partition :=
  mkPartition (str "g10") (str "lab") (dn_of (str "dc=g10,dc=lo")) Domain (Some (str "G10.LO")) (plaintext [str "http://a:2379"]) None []
    None None (Some (str "S-1-5-21-7-8-9")) None.
Definition ex_forest : gmap (list Z) Partition := {[ str "g10" := ex_root ]}.
Definition ex_records : kvstore := (exec zeros (put_partition ex_config_store ex_config_dn config_index_spec ex_root) ∅).2.

Lemma ex_config_wf : dn_wf ex_config_dn /\ str_ok (Dn.to_string ex_config_dn) /\ rdns ex_config_dn <> [] /\ keyed ex_config_dn.
Proof.
  split; [apply dn_wfb_sound; vm_compute; reflexivity|]. split; [by_decide|]. split; [done|apply keyedb_sound; vm_compute; reflexivity].
Qed.

Lemma ex_config_serves : serves ex_config_id ex_config_dn ex_config_store.
Proof.
  exists ex_config_partition. split; [done|]. split; [by apply list_elem_of_singleton|]. intros dn Hw.
  unfold Registry.resolve. cbn -[ex_config_dn is_within]. by rewrite Hw.
Qed.

Lemma config_holds_empty `{EntryCodec} `{!PartitionJson} cid config_dn spec : config_holds cid config_dn spec ∅ ∅.
Proof. exists ∅. split; [|apply repr_empty]. split; intros *; by rewrite lookup_empty. Qed.

Lemma ex_root_ok : partition_ok ex_root.
Proof. split_and!; try done; try by constructor. apply dn_wfb_sound; vm_compute; reflexivity. Qed.

Lemma ex_records_hold : config_holds ex_config_id ex_config_dn config_index_spec ex_forest ex_records.
Proof.
  destruct ex_config_wf as (Hw & Hs & Hn & Hk).
  pose proof (put_partition_runs ex_config_id ex_config_dn config_index_spec Hw Hs Hn Hk eq_refl ex_config_store ex_config_serves ∅ ex_root ∅ (Ok tt) ex_records) as Hp.
  apply Hp; [apply config_holds_empty|apply ex_root_ok|].
  assert ((exec zeros (put_partition ex_config_store ex_config_dn config_index_spec ex_root) ∅).1 = Ok tt) as <- by (vm_compute; reflexivity).
  apply exec_runs, zeros_ok.
Qed.

Definition ex_child : Partition :=
  mkPartition (str "east") (str "lab") (dn_of (str "dc=east,dc=g10,dc=lo")) Domain (Some (str "EAST.G10.LO")) (plaintext [str "http://a:2379"])
    (Some (str "g10")) [] None None None None.

Lemma config_registry_refines_witness :
  let made := exec zeros (create_partition ex_config_store ex_config_dn config_index_spec ex_child) ex_records in
  made.1 = Ok true /\ config_holds ex_config_id ex_config_dn config_index_spec (<[str "east" := ex_child]> ex_forest) made.2.
Proof.
  cbn zeta. destruct ex_config_wf as (Hw & Hs & Hn & Hk).
  destruct (config_registry_refines ex_config_id ex_config_dn config_index_spec Hw Hs Hn Hk eq_refl ex_config_store ex_config_serves ex_forest ex_records ex_records_hold)
    as (_ & _ & Hcreate).
  destruct (Hcreate ex_child (exec zeros (create_partition ex_config_store ex_config_dn config_index_spec ex_child) ex_records).1
    (exec zeros (create_partition ex_config_store ex_config_dn config_index_spec ex_child) ex_records).2) as [_ Hout].
  - split_and!; try done; try by constructor. { apply dn_wfb_sound; vm_compute; reflexivity. } intros s Hs'. cbn [superior ex_child] in Hs'. assert (s = str "g10") as -> by congruence. done.
  - apply exec_runs, zeros_ok.
  - assert ((exec zeros (create_partition ex_config_store ex_config_dn config_index_spec ex_child) ex_records).1 = Ok true) as Hok by (vm_compute; reflexivity).
    split; [exact Hok|]. rewrite Hok in Hout. rewrite bool_decide_true in Hout; [exact Hout|]. vm_compute. reflexivity.
Defined.
