(* ===== verification/ConfigCtl.v ===== *)
(** What the commands of [iron-config-ctl] do to the forest: the links between
    partitions never dangle, records are never lost, and a domain keeps its
    SID. *)

From S2P Require Import Prelude Bytes Str Btree Decimal Sid Utf8 Dn Partition Key Registry Entry Etcd Index Store Directory.
From S2P Require Import Token Kerberos Password BinaryAttrs Krb Gc GcReplica Config ConfigSpec.

Section commands.
  Context `{EntryCodec} `{!PartitionJson}.
  Context (vars : rstring -> option rstring) (connect_cluster : ClusterRef -> result (StoreError json_error) unit)
    (fresh_fips : result Error unit).
  (** The configuration partition the environment names. *)
  Context (cid base : rstring) (config_dn : Dn) (Hparse : Dn.parse base = Ok config_dn)
    (Hwf : dn_wf config_dn) (Hchars : str_ok (Dn.to_string config_dn)) (Hne : rdns config_dn <> []) (Hkey : keyed config_dn).
  Context (Henv_id : env vars "IRON_CONFIG_PARTITION_ID" = Some cid) (Henv_dn : env vars "IRON_CONFIG_BASE_DN" = Some base).
  Local Abbreviation stored := (config_holds cid config_dn config_index_spec).
  Implicit Types (R : gmap (list Z) Partition) (m : kvstore) (p c : Partition) (st : Store) (sids : Prop).

Lemma stored_ok R m id p : stored R m -> R !! id = Some p -> id = p_id p /\ partition_ok p.
Proof.
  intros (D & HC & _) HR. destruct (cf_records _ _ _ _ HC _ _ HR) as (-> & e & HD & He). split; [done|].
  destruct (cf_entries _ _ _ _ HC _ _ _ HD) as (_ & [(Hb & _)|(q & HRq & Hq & Hrec & _)]); [by apply record_not_base in Hb|].
  assert (p_id p = p_id q) as Hpq by (apply (record_equiv_inj config_dn); by rewrite Hrec).
  assert (p = q) by congruence. by subst q.
Qed.

(** *** Steps *)

Lemma store_serves p st :
  config_store connect_cluster p = Ok st -> base_dn p = config_dn -> serves (p_id p) config_dn st.
Proof.
  unfold config_store, Store.connect. cbn [Registry.insert Registry.new bt_contains]. intros Hs Hb.
  destruct (connect_cluster (cluster p)) as [[]|e] eqn:Hc.
  - assert (st = mkStore (mkRegistry [(p_id p, p)]) [p_id p]) as -> by (revert Hs; unfold Registry.insert; cbn; rewrite Hc; cbn; congruence).
    exists p. split; [done|]. split; [by apply list_elem_of_singleton|]. intros dn Hw. rewrite <- Hb in Hw.
    unfold Registry.resolve. cbn. by rewrite Hw.
  - exfalso. revert Hs. unfold Registry.insert. cbn. by rewrite Hc.
Qed.

Lemma wp_load {E : Type} (f : ConfigError -> E) st R m (I : E -> kvstore -> Prop) (Q : PartitionRegistry -> kvstore -> Prop) :
  valid_id cid = true -> serves cid config_dn st -> stored R m -> (forall e, I e m) ->
  (forall reg, (forall id, Registry.get reg id = R !! id) -> Q reg m) ->
  wp I (prog_map_err f (load_registry st config_dn)) Q m.
Proof.
  intros Hid Hs HR HI HQ. apply wp_map_err. intros r m' Hr.
  destruct (load_registry_runs cid config_dn config_index_spec Hwf Hchars Hne Hkey Hid st Hs R m r m' HR Hr) as [-> [[e ->]|(reg & -> & Hget)]]; [apply HI|by apply HQ].
Qed.

Lemma wp_connect {A : Type} R m (k : Store * Dn * PartitionRegistry -> prog (result CtlError A)) (I : CtlError -> kvstore -> Prop) Q :
  stored R m -> (forall e, I e m) ->
  (forall st reg, valid_id cid = true -> serves cid config_dn st -> (forall id, Registry.get reg id = R !! id) -> wp I (k (st, config_dn, reg)) Q m) ->
  wp I (loaded <-? connect_and_load vars connect_cluster ;; k loaded) Q m.
Proof.
  intros HR HI HQ. unfold connect_and_load, require_env. rewrite Henv_id, Henv_dn. cbn [ok_or].
  destruct (env vars "IRON_CONFIG_FASTETCD_ENDPOINT") as [endpoint|]; [|apply wp_err, HI]. cbn [ok_or lift try_bind prog_bind_].
  rewrite Hparse. cbn [map_err lift try_bind prog_bind_]. unfold ForestId_new, configuration, PartitionId_new.
  destruct (valid_id cid) eqn:Hid; [|apply wp_err, HI]. cbn [map_err lift try_bind prog_bind_ mbind result_bind].
  match goal with |- context [config_store connect_cluster ?p] => destruct (config_store connect_cluster p) as [st|e] eqn:Hst end; [|apply wp_err, HI].
  apply store_serves in Hst; [|done]. cbn [lift try_bind prog_bind_]. cbn [p_id] in Hst.
  apply wp_try with (Q := fun loaded m1 => m1 = m /\ exists reg, loaded = (st, config_dn, reg) /\ forall id, Registry.get reg id = R !! id).
  - eapply wp_try; [apply (wp_load CtlConfig st R m I (fun reg m1 => m1 = m /\ forall id, Registry.get reg id = R !! id)); auto|].
    intros reg m1 [-> Hget]. apply wp_ret. eauto.
  - intros loaded m1 (-> & reg & -> & Hget). by apply HQ.
Qed.

Lemma wp_store st R p m (I : CtlError -> kvstore -> Prop) (Q : unit -> kvstore -> Prop) :
  valid_id cid = true -> serves cid config_dn st -> stored R m -> partition_ok p ->
  (forall e m', stored R m' \/ stored (<[p_id p := p]> R) m' -> I e m') -> (forall m', stored (<[p_id p := p]> R) m' -> Q tt m') ->
  wp I (store_partition st config_dn p) Q m.
Proof.
  intros Hid Hs HR Hp HI HQ. unfold store_partition. apply wp_map_err. intros r m' Hr.
  apply (put_partition_runs cid config_dn config_index_spec Hwf Hchars Hne Hkey Hid st Hs R p m r m' HR Hp) in Hr.
  destruct r as [[]|e]; [by apply HQ|by apply HI].
Qed.

(** *** The forest *)

(** Every link of a record leads to a record. *)
Definition linked R : Prop :=
  forall id p, R !! id = Some p ->
    (forall s, s ∈ subordinates p -> is_Some (R !! s)) /\ (forall s, superior p = Some s -> is_Some (R !! s)).

Definition sids_kept R R' : Prop :=
  forall id p s, R !! id = Some p -> domain_sid p = Some s -> exists p', R' !! id = Some p' /\ domain_sid p' = Some s.

(** What a command may do: links stay sound, no record is lost and, where it is
    to be so, domains keep their SIDs. *)
Definition evolves (sids : Prop) R R' : Prop :=
  linked R' /\ (forall id, is_Some (R !! id) -> is_Some (R' !! id)) /\ (sids -> sids_kept R R').

Definition evolved (sids : Prop) R m : Prop := exists R', stored R' m /\ evolves sids R R'.

Lemma evolves_refl sids R : linked R -> evolves sids R R.
Proof. intros HL. split; [done|]. split; [done|]. intros _ id p s. eauto. Qed.

Lemma evolves_put sids R0 R p :
  evolves sids R0 R ->
  (forall s, s ∈ subordinates p -> is_Some (R !! s)) -> (forall s, superior p = Some s -> is_Some (R !! s)) ->
  (sids -> forall q, R !! p_id p = Some q -> domain_sid q <> None -> domain_sid p = domain_sid q) ->
  evolves sids R0 (<[p_id p := p]> R).
Proof.
  intros (HL & Hg & Hk) Hsub Hsup Hsid.
  assert (forall id, is_Some (R !! id) -> is_Some (<[p_id p := p]> R !! id)) as Hmono.
  { intros id Hi. apply lookup_insert_is_Some. destruct (decide (p_id p = id)); auto. }
  split; [|split; [intros id Hi; by apply Hmono, Hg|]].
  - intros id q Hq. destruct (decide (id = p_id p)) as [->|Hne'].
    + rewrite lookup_insert_eq in Hq. injection Hq as <-. split; intros s Hs; apply Hmono; auto.
    + rewrite lookup_insert_ne in Hq by done. destruct (HL id q Hq) as [H1 H2]. split; intros s Hs; apply Hmono; auto.
  - intros Hs id q s Hq Hd. destruct (Hk Hs id q s Hq Hd) as (q' & Hq' & Hd'). destruct (decide (id = p_id p)) as [->|Hne'].
    + exists p. rewrite lookup_insert_eq. split; [done|]. rewrite (Hsid Hs q' Hq'); congruence.
    + exists q'. by rewrite lookup_insert_ne.
Qed.

(** A write of a command, when it keeps the promise. *)
Lemma wp_store_evolves sids R0 R st p m (Q : unit -> kvstore -> Prop) :
  valid_id cid = true -> serves cid config_dn st -> stored R m -> partition_ok p ->
  evolves sids R0 R -> evolves sids R0 (<[p_id p := p]> R) -> (forall m', stored (<[p_id p := p]> R) m' -> Q tt m') ->
  wp (fun _ => evolved sids R0) (store_partition st config_dn p) Q m.
Proof.
  intros Hid Hs HR Hp H1 H2 HQ. apply (wp_store st R); try done. intros e m' [Hm|Hm]; eexists; by split.
Qed.

(** *** The commands *)

(** An edit that touches neither the name nor the links. *)
Definition plain_edit sids (edit : Partition -> Partition) : Prop :=
  forall p, p_id (edit p) = p_id p /\ subordinates (edit p) = subordinates p /\ superior (edit p) = superior p /\
    (partition_ok p -> partition_ok (edit p)) /\ (sids -> domain_sid (edit p) = domain_sid p).

Lemma edit_evolves sids R m partition_id edit :
  stored R m -> linked R -> plain_edit sids edit ->
  wp (fun _ => evolved sids R) (edit_partition vars connect_cluster partition_id edit) (fun _ => evolved sids R) m.
Proof.
  intros HR HL He. pose proof (evolves_refl sids R HL) as Hrefl. assert (evolved sids R m) as Hev by (by exists R).
  unfold edit_partition. apply (wp_connect R); [done..|]. intros st reg Hid Hs Hget. cbv beta iota. unfold PartitionId_new.
  destruct (valid_id partition_id); [|by apply wp_err]. cbn [map_err lift try_bind prog_bind_]. rewrite Hget.
  destruct (R !! partition_id) as [p|] eqn:Hp; [|by apply wp_err]. cbn [ok_or lift try_bind prog_bind_].
  destruct (stored_ok R m _ _ HR Hp) as [-> Hok]. destruct (He p) as (Hi & Hsub & Hsup & Hpok & Hsid). destruct (HL _ _ Hp) as [Hl1 Hl2].
  assert (evolves sids R (<[p_id (edit p) := edit p]> R)) as Hput.
  { apply evolves_put; [done|by rewrite Hsub|by rewrite Hsup|]. rewrite Hi. intros Hk q Hq _. rewrite Hsid; congruence. }
  apply (wp_store_evolves sids R R); auto. intros m' Hm'. by exists (<[p_id (edit p) := edit p]> R).
Qed.

Lemma with_subordinate_ok p id :
  partition_ok p -> valid_id id = true -> partition_ok (with_subordinates (subordinates p ++ [id]) p).
Proof.
  intros (Hi & Hf & Hb & Hs & Hsup) Hid. repeat (split; [done|]). split; [|done]. apply Forall_app. split; [done|by constructor].
Qed.

Lemma add_subordinate_evolves sids R m args :
  stored R m -> linked R -> wp (fun _ => evolved sids R) (add_subordinate vars connect_cluster args) (fun _ => evolved sids R) m.
Proof.
  intros HR HL. pose proof (evolves_refl sids R HL) as Hrefl. assert (evolved sids R m) as Hev by (by exists R).
  unfold add_subordinate. destruct args as [|parent_id [|child_id rest]]; [by apply wp_err..|]. cbn [two_args lift try_bind prog_bind_].
  apply (wp_connect R); [done..|]. intros st reg Hid Hs Hget. cbv beta iota. unfold PartitionId_new.
  destruct (valid_id parent_id); [|by apply wp_err]. cbn [map_err lift try_bind prog_bind_].
  destruct (valid_id child_id) eqn:Hc; [|by apply wp_err]. cbn [map_err lift try_bind prog_bind_]. rewrite !Hget.
  destruct (R !! child_id) as [c|] eqn:Hchild; [|by apply wp_err]. cbn [ok_or lift try_bind prog_bind_].
  destruct (R !! parent_id) as [p|] eqn:Hp; [|by apply wp_err]. cbn [ok_or lift try_bind prog_bind_].
  case_bool_decide; [by apply wp_ret|]. destruct (stored_ok R m _ _ HR Hp) as [-> Hok]. destruct (HL _ _ Hp) as [Hl1 Hl2].
  set (p' := with_subordinates (subordinates p ++ [child_id]) p).
  assert (evolves sids R (<[p_id p' := p']> R)) as Hput.
  { apply evolves_put; [done| |done|]; cbn [p_id p' with_subordinates subordinates superior].
    - intros s [Hin|Hin]%elem_of_app; [by apply Hl1|]. apply list_elem_of_singleton in Hin as ->. by exists c.
    - intros _ q Hq _. assert (q = p) as -> by congruence. done. }
  apply (wp_store_evolves sids R R); auto.
  - by apply with_subordinate_ok.
  - intros m' Hm'. by exists (<[p_id p' := p']> R).
Qed.

(** A DN given in an argument can be read back from its record. *)
Definition readable (text : rstring) : Prop := forall d, Dn.parse text = Ok d -> dn_wf d.

(** The record of a new child domain. *)
Record child_of parent new_id d (realm_override : option rstring) sid (c : Partition) : Prop := {
  ch_id : p_id c = new_id;
  ch_base : base_dn c = d;
  ch_kind : kind c = Domain;
  ch_realm : realm c = match realm_override with Some r => Some (to_ascii_uppercase r) | None => realm_from_dn d end;
  ch_cluster : cluster c = match env vars "IRON_CHILD_FASTETCD_ENDPOINT" with Some ep => plaintext [ep] | None => cluster parent end;
  ch_forest : Partition.forest c = Partition.forest parent;
  ch_superior : superior c = Some (p_id parent);
  ch_subordinates : subordinates c = [];
  ch_url : ldap_url c = env vars "IRON_CONFIG_LDAP_URL";
  ch_sid : domain_sid c = Some sid;
}.

Lemma child_ok parent new_id d o sid c :
  child_of parent new_id d o sid c -> partition_ok parent -> valid_id new_id = true -> dn_wf d -> partition_ok c.
Proof.
  intros [Hi Hb _ _ _ Hf Hsup Hsub _ _] (Hp & Hpf & _) Hn Hd. unfold partition_ok. rewrite Hi, Hb, Hf, Hsub, Hsup.
  split_and!; [done|done|done|constructor|]. intros s Hs. by assert (s = p_id parent) as -> by congruence.
Qed.

(** A new domain SID: [S-1-5-21] and three words. *)
Definition domain_sid_text (s : rstring) : Prop :=
  exists x y z, Forall in_u32 [x; y; z] /\ s = Sid.to_string (Sid.new NT_AUTHORITY [21; x; y; z]).

Lemma be4_u32 b : bytes_ok b -> in_u32 (be_val (ztake 4 b)).
Proof.
  intros Hb. pose proof (be_val_bound (ztake 4 b) (bytes_ok_ztake 4 b Hb)) as [Hl Hu]. split; [done|].
  eapply Z.lt_le_trans; [exact Hu|]. change (2 ^ 32) with (256 ^ 4). apply Z.pow_le_mono_r; [lia|].
  unfold ztake, zlen. rewrite length_take. lia.
Qed.

Lemma generate_runs m r m' :
  runs (generate_domain_sid fresh_fips) m r m' -> m' = m /\ forall s, r = Ok s -> domain_sid_text s.
Proof.
  unfold generate_domain_sid. destruct fresh_fips; cbn [lift try_bind prog_bind_]; [|by intros [-> ->]].
  intros (rep & m1 & (-> & [->|(b & -> & Hl & Hb)]) & Hr); cbn in Hr; destruct Hr as [-> ->]; [done|]. split; [done|].
  intros s [= <-]. eexists _, _, _. split; [|done]. repeat (constructor; [by apply be4_u32; try apply bytes_ok_zdrop|]). constructor.
Qed.

Lemma wp_generate m (I : CtlError -> kvstore -> Prop) (Q : rstring -> kvstore -> Prop) :
  (forall e, I e m) -> (forall s, domain_sid_text s -> Q s m) ->
  wp I (prog_map_err CtlCrypto (generate_domain_sid fresh_fips)) Q m.
Proof.
  intros HI HQ. apply wp_map_err. intros r m' [-> Hr]%generate_runs. destruct r; [by apply HQ, Hr|apply HI].
Qed.

Definition new_child R (parent_id new_id new_base_dn : rstring) (realm_override : option rstring) p c : Prop :=
  R !! parent_id = Some p /\ R !! new_id = None /\
  exists d sid, Dn.parse new_base_dn = Ok d /\ domain_sid_text sid /\ child_of p new_id d realm_override sid c.

Definition with_child R p c : gmap (list Z) Partition :=
  <[p_id p := with_subordinates (subordinates p ++ [p_id c]) p]> (<[p_id c := c]> R).

(** How far a command that adds a child can get. *)
Definition child_progress R parent_id new_id new_base_dn o m : Prop :=
  stored R m \/ exists p c, new_child R parent_id new_id new_base_dn o p c /\
    (stored (<[p_id c := c]> R) m \/ stored (with_child R p c) m).

Definition child_added R parent_id new_id new_base_dn o m : Prop :=
  exists p c, new_child R parent_id new_id new_base_dn o p c /\ stored (with_child R p c) m.

Lemma create_child_wp R m parent_id new_id new_base_dn rest :
  stored R m -> readable new_base_dn ->
  wp (fun _ => child_progress R parent_id new_id new_base_dn (head rest))
    (create_child vars connect_cluster fresh_fips (parent_id :: new_id :: new_base_dn :: rest))
    (fun _ => child_added R parent_id new_id new_base_dn (head rest)) m.
Proof.
  intros HR Hread. assert (child_progress R parent_id new_id new_base_dn (head rest) m) as Hnone by (by left).
  unfold create_child. apply (wp_connect R); [done..|]. intros st reg Hid Hs Hget. cbv beta iota. unfold PartitionId_new.
  destruct (valid_id parent_id); [|by apply wp_err]. cbn [map_err lift try_bind prog_bind_]. rewrite Hget.
  destruct (R !! parent_id) as [p|] eqn:Hp; [|by apply wp_err]. cbn [ok_or lift try_bind prog_bind_].
  destruct (valid_id new_id) eqn:Hn; [|by apply wp_err]. cbn [map_err lift try_bind prog_bind_]. rewrite Hget.
  destruct (R !! new_id) as [|] eqn:Hnew; [rewrite bool_decide_true by done; by apply wp_err|].
  rewrite bool_decide_false by (by intros []). cbn [lift try_bind prog_bind_].
  destruct (Dn.parse new_base_dn) as [d|e] eqn:Hd; [|by apply wp_err]. cbn [map_err lift try_bind prog_bind_].
  unfold domain, PartitionId_new. rewrite Hn. cbn [mbind result_bind map_err lift try_bind prog_bind_].
  destruct (stored_ok R m _ _ HR Hp) as [-> Hok].
  eapply wp_try; [apply (wp_generate m _ (fun s m1 => m1 = m /\ domain_sid_text s)); [done|by split]|]. intros sid m1 [-> Hsid].
  match goal with |- wp _ (_ <-? store_partition st config_dn ?x ;; _) _ _ => set (c := x) end.
  assert (child_of p new_id d (head rest) sid c) as Hc.
  { subst c. destruct (head rest), (env vars "IRON_CONFIG_LDAP_URL") eqn:Hu; split; done. }
  assert (partition_ok c) as Hcok by (eapply child_ok; [exact Hc|done|done|by apply Hread]).
  assert (new_child R (p_id p) new_id new_base_dn (head rest) p c) as Hchild by (split; [done|]; split; [done|]; by exists d, sid).
  pose proof (ch_id _ _ _ _ _ _ Hc) as Hci. clearbody c.
  eapply wp_try; [apply (wp_store st R) with (Q := fun _ m1 => stored (<[p_id c := c]> R) m1); try done|].
  { intros _ m' [Hm|Hm]; [by left|]. right. exists p, c. auto. }
  intros [] m1 Hm1. rewrite <- Hci in Hchild |- *. apply (wp_store st (<[p_id c := c]> R)); try done.
  - apply with_subordinate_ok; [done|by rewrite Hci].
  - intros _ m' Hm. right. by exists p, c.
  - intros m' Hm. by exists p, c.
Qed.

Lemma child_evolves sids R p c parent_id new_id new_base_dn o :
  linked R -> parent_id = p_id p -> new_child R parent_id new_id new_base_dn o p c ->
  evolves sids R (<[p_id c := c]> R) /\ evolves sids R (with_child R p c).
Proof.
  intros HL -> (Hp & Hn & d & sid & _ & _ & Hc). destruct (HL _ _ Hp) as [Hsub Hsup]. pose proof (ch_id _ _ _ _ _ _ Hc) as Hi.
  assert (evolves sids R (<[p_id c := c]> R)) as H1'.
  { apply evolves_put; [by apply evolves_refl| | |].
    - intros s. rewrite (ch_subordinates _ _ _ _ _ _ Hc). by intros Hs%elem_of_nil.
    - intros s. rewrite (ch_superior _ _ _ _ _ _ Hc). intros Hs. assert (s = p_id p) as -> by congruence. by exists p.
    - rewrite Hi. intros _ q Hq. congruence. }
  split; [done|]. unfold with_child.
  change (p_id p) with (p_id (with_subordinates (subordinates p ++ [p_id c]) p)) at 1.
  apply evolves_put; [done|..]; cbn [p_id with_subordinates subordinates superior domain_sid].
  - intros s [Hs|Hs]%elem_of_app; apply lookup_insert_is_Some; [right|left].
    + split; [|by apply Hsub]. intros Heq. destruct (Hsub s Hs) as [q Hq]. congruence.
    + by apply list_elem_of_singleton in Hs.
  - intros s Hs. destruct (Hsup s Hs) as [q Hq]. rewrite lookup_insert_ne by congruence. by exists q.
  - intros _ q Hq _. rewrite lookup_insert_ne in Hq by congruence. assert (q = p) as -> by congruence. done.
Qed.

Lemma create_child_evolves sids R m args :
  stored R m -> linked R -> (forall a b d rest, args = a :: b :: d :: rest -> readable d) ->
  wp (fun _ => evolved sids R) (create_child vars connect_cluster fresh_fips args) (fun _ => evolved sids R) m.
Proof.
  intros HR HL Hargs. assert (evolved sids R m) as Hev by (exists R; split; [done|by apply evolves_refl]).
  destruct args as [|parent_id [|new_id [|new_base_dn rest]]]; [by apply wp_err..|]. specialize (Hargs _ _ _ _ eq_refl).
  assert (forall p c, new_child R parent_id new_id new_base_dn (head rest) p c ->
    evolves sids R (<[p_id c := c]> R) /\ evolves sids R (with_child R p c)) as Hc.
  { intros p c Hc. eapply child_evolves; [done| |exact Hc]. by destruct (stored_ok R m _ _ HR (proj1 Hc)). }
  intros r m' Hr. apply create_child_wp with (R := R) in Hr; [|done..]. destruct r as [[]|e].
  - destruct Hr as (p & c & Hn & Hm). eexists. split; [done|]. exact (proj2 (Hc _ _ Hn)).
  - destruct Hr as [Hm|(p & c & Hn & [Hm|Hm])]; (eexists; split; [done|]); [by apply evolves_refl|exact (proj1 (Hc _ _ Hn))|exact (proj2 (Hc _ _ Hn))].
Qed.

Lemma builder_ok (b : result PartitionError Partition) id f d cl p :
  b = domain id f d cl \/ b = configuration id f d cl \/ b = schema id f d cl -> b = Ok p ->
  valid_id f = true -> dn_wf d ->
  partition_ok p /\ base_dn p = d /\ p_id p = id /\ subordinates p = [] /\ superior p = None.
Proof.
  unfold domain, configuration, schema, PartitionId_new.
  intros [-> | [-> | ->]]; destruct (valid_id id) eqn:E; cbn; try done; intros Hb Hf Hd;
    match type of Hb with Ok ?x = _ => assert (p = x) as -> by congruence end; (split; [split_and!; done|done]).
Qed.

(** A record of [init-forest] with no links is stored on the way. *)
Lemma wp_store_next {A : Type} R0 R st p m (k : prog (result CtlError A)) Q :
  valid_id cid = true -> serves cid config_dn st -> stored R m -> partition_ok p -> evolves False R0 R ->
  (forall s, s ∈ subordinates p -> is_Some (R !! s)) -> superior p = None ->
  (forall m', stored (<[p_id p := p]> R) m' -> evolves False R0 (<[p_id p := p]> R) -> wp (fun _ => evolved False R0) k Q m') ->
  wp (fun _ => evolved False R0) (_ <-? store_partition st config_dn p ;; k) Q m.
Proof.
  intros Hid Hs HR Hp Hev Hsub Hsup Hk.
  assert (evolves False R0 (<[p_id p := p]> R)) as Hput by (apply evolves_put; [done|done|by rewrite Hsup|done]).
  eapply wp_try; [apply (wp_store_evolves False R0 R) with (Q := fun _ => stored (<[p_id p := p]> R)); auto|].
  intros [] m1 Hm1. by apply Hk.
Qed.

(** The arguments of [init-forest] name this configuration. *)
Definition init_args (args : list rstring) : Prop :=
  match args with
  | _ :: config_id :: config_base_dn :: _ :: root_base_dn :: _ =>
      config_id = cid /\ Dn.parse config_base_dn = Ok config_dn /\ readable (str "cn=schema," ++ config_base_dn) /\ readable root_base_dn
  | _ => True
  end.

Lemma assign_wp m (I : CtlError -> kvstore -> Prop) p (Q : Partition -> kvstore -> Prop) :
  (forall e, I e m) -> Q p m -> (forall s, Q (with_domain_sid s p) m) -> wp I (assign_domain_sid fresh_fips p) Q m.
Proof.
  intros HI Hp Hs. unfold assign_domain_sid. case_bool_decide; [|by apply wp_ret].
  eapply wp_try; [apply (wp_generate m I (fun _ m1 => m1 = m)); done|]. intros s m1 ->. by apply wp_ret.
Qed.

Lemma root_record_links R root prior :
  linked R -> (forall q, prior = Some q -> exists id, R !! id = Some q) -> subordinates root = [] ->
  forall s, s ∈ subordinates (root_record prior root) -> is_Some (R !! s).
Proof.
  intros HL Hq Hroot s. destruct prior as [q|]; cbn [root_record subordinates].
  - destruct (Hq q eq_refl) as (id & HR). apply (HL id q HR).
  - rewrite Hroot. by intros Hs%elem_of_nil.
Qed.

Lemma root_record_ok root prior :
  partition_ok root -> (forall q, prior = Some q -> partition_ok q) -> partition_ok (root_record prior root).
Proof.
  intros (Hi & Hf & Hb & Hs & Hsup) Hq. destruct prior as [q|]; [|by split_and!]. destruct (Hq q eq_refl) as (_ & _ & _ & Hs' & _). by split_and!.
Qed.

Lemma init_root R0 R existing st root m :
  valid_id cid = true -> serves cid config_dn st -> stored R m -> linked R0 -> evolves False R0 R ->
  (forall id q, Registry.get existing id = Some q -> R0 !! id = Some q /\ partition_ok q) ->
  partition_ok root -> subordinates root = [] -> superior root = None ->
  wp (fun _ => evolved False R0)
    (root <-? assign_domain_sid fresh_fips (root_record (Registry.get existing (p_id root)) root) ;; store_partition st config_dn root)
    (fun _ => evolved False R0) m.
Proof.
  intros Hid Hs HR HL Hev Hex Hok Hsub Hsup. set (root' := root_record (Registry.get existing (p_id root)) root).
  assert (partition_ok root') as Hok' by (apply root_record_ok; [done|]; intros q Hq; by apply Hex in Hq as [_ Hq]).
  assert (forall s, s ∈ subordinates root' -> is_Some (R !! s)) as Hsub'.
  { intros s Hin. apply (proj1 (proj2 Hev)). revert s Hin. apply root_record_links; [done| |done]. intros q [Hq _]%Hex. eauto. }
  assert (superior root' = None) as Hsup' by (subst root'; by destruct (Registry.get existing (p_id root))). clearbody root'.
  apply wp_try with (Q := fun p m1 => m1 = m /\ partition_ok p /\ superior p = None /\ forall s, s ∈ subordinates p -> is_Some (R !! s)).
  { apply assign_wp; [intros _; by exists R|by split|done]. }
  intros p m1 (-> & Hp & Hpsup & Hpsub). assert (evolves False R0 (<[p_id p := p]> R)) as Hput by (apply evolves_put; [done|done|by rewrite Hpsup|done]).
  apply (wp_store_evolves False R0 R); try done. intros m' Hm'. by exists (<[p_id p := p]> R).
Qed.

Lemma init_forest_evolves R m args :
  stored R m -> linked R -> init_args args ->
  wp (fun _ => evolved False R) (init_forest vars connect_cluster fresh_fips args) (fun _ => evolved False R) m.
Proof.
  intros HR HL Hargs. pose proof (evolves_refl False R HL) as Hrefl. assert (evolved False R m) as Hev by (by exists R).
  destruct args as [|forest_id [|config_id [|config_base_dn [|root_id [|root_base_dn rest]]]]]; [by apply wp_err..|].
  destruct Hargs as (-> & Hdn & Hrs & Hrr). unfold init_forest, require_env.
  destruct (env vars "IRON_CONFIG_FASTETCD_ENDPOINT") as [endpoint|]; [|by apply wp_err]. cbn [ok_or lift try_bind prog_bind_].
  unfold ForestId_new. destruct (valid_id forest_id) eqn:Hf; [|by apply wp_err]. cbn [map_err lift try_bind prog_bind_].
  rewrite Hdn. cbn [map_err lift try_bind prog_bind_]. destruct (Dn.parse root_base_dn) as [root_dn|] eqn:Hroot; [|by apply wp_err].
  cbn [map_err lift try_bind prog_bind_].
  destruct (configuration cid forest_id config_dn (plaintext [endpoint])) as [cp|] eqn:Hcp; [|by apply wp_err]. cbn [map_err lift try_bind prog_bind_].
  destruct (builder_ok _ _ _ _ _ _ (or_intror (or_introl eq_refl)) Hcp Hf Hwf) as (Hcok & Hcb & Hci & Hcs & Hcsup).
  destruct (config_store connect_cluster cp) as [st|] eqn:Hst; [|by apply wp_err]. cbn [lift try_bind prog_bind_].
  apply store_serves in Hst as Hs; [|done]. rewrite Hci in Hs. assert (valid_id cid = true) as Hid by (rewrite <- Hci; exact (proj1 Hcok)).
  intros r m' Hr. rewrite runs_bind in Hr. destruct Hr as (loaded & m1 & Hload & Hk).
  apply (load_registry_runs cid config_dn config_index_spec Hwf Hchars Hne Hkey Hid st Hs R m) in Hload as [-> Hload]; [|done].
  cbv zeta in Hk. set (existing := match loaded with Ok reg => reg | Err _ => Registry.new end) in Hk.
  assert (forall id q, Registry.get existing id = Some q -> R !! id = Some q /\ partition_ok q) as Hex.
  { clear Hk. intros id q. subst existing. destruct Hload as [[e ->]|(reg & -> & Hget)]; [done|]. rewrite Hget. intros Hq. split; [done|].
    by destruct (stored_ok R m id q HR Hq). }
  clearbody existing. clear Hload. revert r m' Hk. apply (wp_store_next R R); [done..|by rewrite Hcs; intros s ?%elem_of_nil|done|]. intros m1 Hm1 Hev1.
  destruct (Dn.parse (str "cn=schema," ++ config_base_dn)) as [schema_dn|] eqn:Hsd; [|apply wp_err; eexists; by split]. cbn [map_err lift try_bind prog_bind_].
  destruct (schema (forest_id ++ str "-schema") forest_id schema_dn (plaintext [endpoint])) as [sp|] eqn:Hsp; [|apply wp_err; eexists; by split].
  destruct (builder_ok _ _ _ _ _ _ (or_intror (or_intror eq_refl)) Hsp Hf (Hrs _ Hsd)) as (Hsok & _ & _ & Hss & Hssup). cbn [map_err lift try_bind prog_bind_].
  apply (wp_store_next R (<[p_id cp := cp]> R)); [done..|by rewrite Hss; intros s ?%elem_of_nil|done|]. intros m2 Hm2 Hev2.
  destruct (domain root_id forest_id root_dn (plaintext [endpoint])) as [root|] eqn:Hrp; [|apply wp_err; eexists; by split].
  destruct (builder_ok _ _ _ _ _ _ (or_introl eq_refl) Hrp Hf (Hrr _ Hroot)) as (Hrok & _ & _ & Hrsub & Hrsup). cbn [map_err lift try_bind prog_bind_].
  apply (init_root R (<[p_id sp := sp]> (<[p_id cp := cp]> R))); try done; by destruct (head rest), (env vars "IRON_CONFIG_ROOT_LDAP_URL").
Qed.

Lemma quiet_wp (P : kvstore -> Prop) (p : prog (result CtlError unit)) m r m' :
  wp (fun _ => P) p (fun _ => P) m -> runs (quiet p) m r m' -> P m'.
Proof.
  intros Hp. assert (wp (fun _ => P) (quiet p) (fun _ => P) m) as Hq.
  { unfold quiet. eapply wp_try; [exact Hp|]. intros a m1 Hm. by apply wp_ret. }
  intros Hr. apply Hq in Hr. by destruct r.
Qed.

(** The arguments of a command name this configuration, and DNs that can be
    read back. *)
Definition args_ok (args : list rstring) : Prop :=
  match args with
  | _ :: cmd :: rest =>
      (cmd = str "init-forest" -> init_args rest) /\
      (cmd = str "create-child" -> forall a b d more, rest = a :: b :: d :: more -> readable d)
  | _ => True
  end.

(** The commands that are to leave every domain its SID. *)
Definition leaves_sids (args : list rstring) : Prop :=
  nth_error args 1 <> Some (str "init-forest") /\ nth_error args 1 <> Some (str "set-domain-sid").

Lemma field_edit sids f (v : rstring) :
  f = with_ldap_url \/ f = with_kdc_url -> plain_edit sids (f v).
Proof. intros [->| ->] p; by split_and!. Qed.

Lemma sid_edit sids v : ~ sids -> plain_edit sids (with_domain_sid v).
Proof. intros Hs p. by split_and!. Qed.

Lemma show_evolves sids R m r m' :
  stored R m -> linked R -> runs (show vars connect_cluster) m r m' -> evolved sids R m'.
Proof.
  intros HR HL Hr. assert (evolved sids R m) as Hev by (exists R; split; [done|by apply evolves_refl]).
  assert (wp (fun _ => evolved sids R) (show vars connect_cluster) (fun _ => evolved sids R) m) as Hw.
  { unfold show. apply (wp_connect R); [done..|]. intros st reg _ _ _. by apply wp_ret. }
  apply Hw in Hr. by destruct r.
Qed.

Lemma two_args_wp (P : kvstore -> Prop) args (k : rstring * rstring -> prog (result CtlError unit)) m :
  P m -> (forall a b, wp (fun _ => P) (k (a, b)) (fun _ => P) m) -> wp (fun _ => P) (ab <-? lift (two_args args) ;; k ab) (fun _ => P) m.
Proof. intros Hm Hk. destruct args as [|a [|b rest]]; [by apply wp_err..|apply Hk]. Qed.


(** [create-child] registers the child with its parent: success means the
    new record, with a SID of its own, and the parent's link to it are stored,
    for a name that was free.  A failure leaves the forest as it was, with the
    child but not the link, or with both; never a link without its child. *)
Theorem create_child_correct R m parent_id new_id new_base_dn rest r m' :
  stored R m -> readable new_base_dn ->
  runs (create_child vars connect_cluster fresh_fips (parent_id :: new_id :: new_base_dn :: rest)) m r m' ->
  match r with
  | Ok _ => exists p c, new_child R parent_id new_id new_base_dn (head rest) p c /\ stored (with_child R p c) m'
  | Err _ => stored R m' \/ exists p c, new_child R parent_id new_id new_base_dn (head rest) p c /\
      (stored (<[p_id c := c]> R) m' \/ stored (with_child R p c) m')
  end.
Proof. intros HR Hd Hr. apply create_child_wp with (R := R) in Hr; [|done..]. by destruct r as [[]|]. Qed.
End commands.

(** ** Examples *)

#[local] Existing Instance bit_codec.
#[local] Existing Instance bit_partitions.

Definition ex_ctl_vars (name : rstring) : option rstring :=
  if bool_decide (name = str "IRON_CONFIG_FASTETCD_ENDPOINT") then Some (str "http://a:2379")
  else if bool_decide (name = str "IRON_CONFIG_PARTITION_ID") then Some ex_config_id
  else if bool_decide (name = str "IRON_CONFIG_BASE_DN") then Some (str "cn=configuration,dc=g10,dc=lo")
  else None.

Definition ex_ctl (args : list rstring) (m : kvstore) := exec zeros (main ex_ctl_vars (fun _ => Ok tt) (Ok tt) args) m.

Definition ex_create_child : list rstring := [str "iron-config-ctl"; str "create-child"; str "g10"; str "east"; str "dc=east,dc=g10,dc=lo"].

Lemma ex_linked : linked ex_forest.
Proof.
  intros id p. unfold ex_forest. rewrite lookup_singleton_Some. intros [_ <-]. split; intros s Hs; [by apply elem_of_nil in Hs|done].
Qed.

Lemma parsed_readable text d : Dn.parse text = Ok d -> dn_wfb d = true -> readable text.
Proof. intros Hp Hd d' Hd'. assert (d' = d) as -> by congruence. by apply dn_wfb_sound. Qed.


Lemma create_child_correct_witness :
  let run := exec zeros (create_child ex_ctl_vars (fun _ => Ok tt) (Ok tt) [str "g10"; str "east"; str "dc=east,dc=g10,dc=lo"]) ex_records in
  exists p c, p_id p = str "g10" /\ p_id c = str "east" /\
    config_holds ex_config_id ex_config_dn config_index_spec (with_child ex_forest p c) run.2.
Proof.
  cbn zeta. destruct ex_config_wf as (Hw & Hs & Hn & Hk).
  pose proof (create_child_correct ex_ctl_vars (fun _ => Ok tt) (Ok tt) ex_config_id (str "cn=configuration,dc=g10,dc=lo") ex_config_dn
    ltac:(vm_compute; reflexivity) Hw Hs Hn Hk ltac:(vm_compute; reflexivity) ltac:(vm_compute; reflexivity)
    ex_forest ex_records (str "g10") (str "east") (str "dc=east,dc=g10,dc=lo") [] (Ok tt)
    (exec zeros (create_child ex_ctl_vars (fun _ => Ok tt) (Ok tt) [str "g10"; str "east"; str "dc=east,dc=g10,dc=lo"]) ex_records).2) as Hc.
  destruct Hc as (p & c & (Hp & _ & d & sid & _ & _ & Hc) & Hm).
  - exact ex_records_hold.
  - eapply parsed_readable; vm_compute; reflexivity.
  - assert ((exec zeros (create_child ex_ctl_vars (fun _ => Ok tt) (Ok tt) [str "g10"; str "east"; str "dc=east,dc=g10,dc=lo"]) ex_records).1 = Ok tt)
      as <- by (vm_compute; reflexivity). apply exec_runs, zeros_ok.
  - exists p, c. split; [|split; [exact (ch_id _ _ _ _ _ _ _ Hc)|exact Hm]].
    assert (p = ex_root) as ->; [|reflexivity]. assert (ex_forest !! str "g10" = Some ex_root) as Hr by (vm_compute; reflexivity). congruence.
Defined.

(** [init-forest] takes a registry that cannot be read for an empty one: with a
    damaged record beside it, the root domain gets a new SID and loses its
    children. *)
Definition damaged_records : kvstore :=
  let grown := (ex_ctl ex_create_child ex_records).2 in
  (exec zeros (Store.put_entry ex_config_store (dn_of (str "cn=bad,cn=configuration,dc=g10,dc=lo")) (Entry.set Entry.new (str "cn") [str "bad"]) config_index_spec) grown).2.

Definition root_of (m : kvstore) : option Partition :=
  match (exec zeros (Store.get_entry ex_config_store (dn_of (str "cn=g10,cn=configuration,dc=g10,dc=lo"))) m).1 with
  | Ok (Some e) => match entry_to_partition ex_config_dn e with Ok p => Some p | Err _ => None end
  | _ => None
  end.

Definition ex_init : list rstring :=
  [str "iron-config-ctl"; str "init-forest"; str "lab"; ex_config_id; str "cn=configuration,dc=g10,dc=lo"; str "g10"; str "dc=g10,dc=lo"].

Lemma init_forest_forgets :
  let facts := fun m => match root_of m with Some p => Some (domain_sid p, subordinates p) | None => None end in
  facts damaged_records = Some (Some (str "S-1-5-21-7-8-9"), [str "east"]) /\
  (ex_ctl ex_init damaged_records).1 = Ok [] /\
  facts (ex_ctl ex_init damaged_records).2 = Some (Some (str "S-1-5-21-0-0-0"), []).
Proof. vm_compute. auto. Qed.
