(* ===== verification/Bootstrap.v ===== *)
(** First-boot provisioning of a domain, [crates/bootstrap/src/lib.rs], and
    [Store::ping] of [crates/store/src/store.rs]. *)

From S2P Require Import Prelude Bytes Str Btree Utf8 Decimal Dn Partition Key Registry Sid SecurityDescriptor Entry Etcd Index Store.
From S2P Require Import Nfold Kerberos Md4 Password Principal BinaryAttrs Krb Kdc Config.

Definition ADMINISTRATOR_RID : Z := 500.
Definition KRBTGT_RID : Z := 502.
Definition ADMINISTRATOR : rstring := str "administrator".

Record Settings := mkSettings {
  endpoint : rstring;
  partition_id : rstring;
  s_base_dn : Dn;
  s_realm : rstring;
  s_netbios_name : rstring;
  admin_password : bytes;
}.

Record Report := mkReport { created : list rstring; r_domain_sid : rstring }.

Section bootstrap.
  Context `{EntryCodec} `{!PartitionJson} `{!OpenSsl} `{!Base64}.

(** The errors, by what they report. *)
Inductive BootError :=
| BRequired (name : rstring)
| BPasswordFile (path : rstring)
| BPasswordShort (len : Z)
| BPartition (e : PartitionError)
| BStore (e : StoreError json_error)
| BConfig (e : ConfigError)
| BCrypto (e : Error)
| BPrincipal (e : PrincipalError)
| RootMissing
| OtherBaseDn (stored : Dn)
| OtherRealm (stored : option rstring)
| BadStoredSid (sid : rstring).

(** The loop that steps back over line ends. *)
Fixpoint password_end (raw : bytes) (end_ : nat) : nat :=
  match end_ with
  | O => O
  | S n => if bool_decide (raw !! n = Some 10 \/ raw !! n = Some 13) then password_end raw n else end_
  end.

Definition password_from_file (raw : bytes) : result BootError bytes :=
  let pw := take (password_end raw (length raw)) raw in
  if zlen pw <? 8 then Err (BPasswordShort (zlen pw)) else Ok pw.

(** [read_file]: the file system. *)
Definition from_env (vars : rstring -> option rstring) (read_file : rstring -> option bytes) : result BootError Settings :=
  let var (name : string) := ok_or (BRequired (str name)) (env vars name) in
  password_file ← var "IRON_BOOTSTRAP_ADMIN_PASSWORD_FILE";
  raw ← ok_or (BPasswordFile password_file) (read_file password_file);
  base_dn ← var "IRON_BOOTSTRAP_BASE_DN";
  endpoint ← var "IRON_BOOTSTRAP_FASTETCD_ENDPOINT";
  partition_id ← var "IRON_BOOTSTRAP_PARTITION_ID";
  base_dn ← map_err BPartition (Dn.parse base_dn);
  realm ← var "IRON_BOOTSTRAP_REALM";
  netbios_name ← var "IRON_BOOTSTRAP_NETBIOS_NAME";
  admin_password ← password_from_file raw;
  Ok (mkSettings endpoint partition_id base_dn (to_ascii_uppercase realm) (to_ascii_uppercase netbios_name) admin_password).

Definition config_partition_id (s : Settings) : rstring := partition_id s ++ str "-config".
Definition schema_partition_id (s : Settings) : rstring := partition_id s ++ str "-schema".
Definition config_dn (s : Settings) : result BootError Dn :=
  map_err BPartition (Dn.parse (str "cn=configuration," ++ Dn.to_string (s_base_dn s))).
Definition admin_dn (s : Settings) : result BootError Dn :=
  map_err BPartition (Dn.parse (str "cn=" ++ ADMINISTRATOR ++ str "," ++ Dn.to_string (s_base_dn s))).
Definition krbtgt_dn (s : Settings) : result BootError Dn :=
  map_err BPartition (Dn.parse (str "cn=krbtgt," ++ Dn.to_string (s_base_dn s))).

(** ** Connecting *)

Definition boot_connect (connect_cluster : ClusterRef -> result (StoreError json_error) unit) (s : Settings) : result BootError Store :=
  let cluster := plaintext [endpoint s] in
  forest ← map_err BPartition (ForestId_new (partition_id s));
  dn ← config_dn s;
  config ← map_err BPartition (configuration (config_partition_id s) forest dn cluster);
  reg ← map_err BPartition (Registry.insert Registry.new config);
  root ← map_err BPartition (domain (partition_id s) forest (s_base_dn s) cluster);
  reg ← map_err BPartition (Registry.insert reg root);
  map_err BStore (Store.connect connect_cluster reg).

(** [status]: a round trip to the cluster of a partition. *)
Definition ping (status : PartitionId -> result (StoreError json_error) unit) (st : Store) : result (StoreError json_error) unit :=
  _ ← try_map status (clients st); Ok tt.

(** What the network does at an attempt. *)
Record network := mkNetwork {
  n_connect : ClusterRef -> result (StoreError json_error) unit;
  n_status : PartitionId -> result (StoreError json_error) unit;
}.

(** At most [n] attempts from the given one on; [None] is still waiting. *)
Fixpoint wait_for_store (n : nat) (net : nat -> network) (attempt : nat) (s : Settings) : option Store :=
  match n with
  | O => None
  | S n' =>
      match boot_connect (n_connect (net attempt)) s with
      | Ok st => match ping (n_status (net attempt)) st with
                 | Ok _ => Some st
                 | Err _ => wait_for_store n' net (S attempt) s
                 end
      | Err _ => wait_for_store n' net (S attempt) s
      end
  end.

(** ** Provisioning *)

Definition check_matches (stored : Partition) (s : Settings) : result BootError unit :=
  if negb (dn_eq (base_dn stored) (s_base_dn s)) then Err (OtherBaseDn (base_dn stored))
  else if negb (bool_decide (realm stored = Some (s_realm s))) then Err (OtherRealm (realm stored))
  else Ok tt.

Definition principal_exists (st : Store) (s : Settings) (principal : rstring) : prog (result BootError bool) :=
  found <-? prog_map_err BStore (Store.lookup_by_index st (s_base_dn s) ATTR_PRINCIPAL_NAME principal) ;;
  Ret (Ok (negb (bool_decide (found = [])))).

Definition base_entry (base : Dn) (domain_sid : Sid) : Entry :=
  let e := Entry.set Entry.new (str "objectclass") [str "top"; str "domain"; str "domainDNS"] in
  let dc := r ← head (rdns base); a ← head (avas r); if eq_ignore_ascii_case (attr a) (str "dc") then Some a else None in
  let e := match dc with Some a => Entry.set e (str "dc") [value a] | None => e end in
  Entry.set e OBJECT_SID_ATTR [encode_binary_attr (Sid.encode domain_sid)].

Definition account_entry (name : rstring) (domain_sid : Sid) (rid : Z) : Entry :=
  let e := Entry.set Entry.new (str "objectclass") [str "top"; str "person"; str "organizationalPerson"; str "user"] in
  let e := Entry.set e (str "cn") [name] in
  let e := Entry.set e (str "samaccountname") [name] in
  let e := Entry.set e OBJECT_SID_ATTR [encode_binary_attr (Sid.encode (with_sub_authority domain_sid rid))] in
  Entry.set e NT_SECURITY_DESCRIPTOR_ATTR [encode_binary_attr (default_descriptor domain_sid)].

Definition fresh_sid (fresh_fips : result Error unit) : prog (result BootError rstring) :=
  prog_map_err BCrypto (generate_domain_sid fresh_fips).

(** The three records of the forest, the root domain still without a SID. *)
Definition forest_records (s : Settings) (dn : Dn) : result BootError (Partition * Partition * Partition) :=
  let cluster := plaintext [endpoint s] in
  forest ← map_err BPartition (ForestId_new (partition_id s));
  config ← map_err BPartition (configuration (config_partition_id s) forest dn cluster);
  schema_dn ← map_err BPartition (Dn.parse (str "cn=schema," ++ Dn.to_string dn));
  schema ← map_err BPartition (schema (schema_partition_id s) forest schema_dn cluster);
  root ← map_err BPartition (domain (partition_id s) forest (s_base_dn s) cluster);
  Ok (config, schema, with_netbios_name (s_netbios_name s) (with_realm (s_realm s) root)).

Definition partition_name (id : PartitionId) : rstring := str "partition " ++ id.

Fixpoint create_records (st : Store) (dn : Dn) (ps : list Partition) : prog (result BootError (list rstring)) :=
  match ps with
  | [] => Ret (Ok [])
  | p :: ps' =>
      new <-? prog_map_err BConfig (create_partition st dn config_index_spec p) ;;
      rest <-? create_records st dn ps' ;;
      Ret (Ok ((if new : bool then [partition_name (p_id p)] else []) ++ rest))
  end.

(** The record with its missing fields. *)
Definition filled_record (fresh_fips : result Error unit) (s : Settings) (stored : Partition) : prog (result BootError Partition) :=
  filled <-? (if bool_decide (domain_sid stored = None)
              then sid <-? fresh_sid fresh_fips ;; Ret (Ok (with_domain_sid sid stored)) else Ret (Ok stored)) ;;
  Ret (Ok (if bool_decide (netbios_name filled = None) then with_netbios_name (s_netbios_name s) filled else filled)).

(** The root domain's record, checked and completed. *)
Definition settle_root (fresh_fips : result Error unit) (st : Store) (s : Settings) (dn : Dn)
    : prog (result BootError (list rstring * rstring)) :=
  reg <-? prog_map_err BConfig (load_registry st dn) ;;
  pid <-? lift (map_err BPartition (PartitionId_new (partition_id s))) ;;
  stored <-? lift (ok_or RootMissing (Registry.get reg pid)) ;;
  _ <-? lift (check_matches stored s) ;;
  filled <-? filled_record fresh_fips s stored ;;
  report <-? (if bool_decide (filled = stored) then Ret (Ok [])
              else _ <-? prog_map_err BConfig (put_partition st dn config_index_spec filled) ;;
                   Ret (Ok [partition_name pid ++ str " (missing fields filled)"])) ;;
  Ret (Ok (report, default [] (domain_sid filled))).

(** What a creation adds to the report. *)
Definition create_reported (st : Store) (dn : Dn) (entry : Entry) (name : rstring) : prog (result BootError (list rstring)) :=
  new <-? prog_map_err BStore (Store.create_entry st dn entry index_spec) ;;
  Ret (Ok (if new : bool then [name] else [])).

Definition boot_set_password (entry : Entry) (principal : rstring) (password : bytes) : prog (result BootError Entry) :=
  Call (Random (Z.to_nat MIN_SALT_LEN)) (fun random => Ret (map_err BPrincipal (Principal.set_password random entry principal password))).

Definition krbtgt_name (s : Settings) : rstring := str "krbtgt/" ++ s_realm s ++ str "@" ++ s_realm s.
Definition admin_name (s : Settings) : rstring := ADMINISTRATOR ++ str "@" ++ s_realm s.

Definition provision_krbtgt (st : Store) (s : Settings) (sid : Sid) : prog (result BootError (list rstring)) :=
  found <-? principal_exists st s (krbtgt_name s) ;;
  if (found : bool) then Ret (Ok [])
  else
    bytes <-? prog_map_err BCrypto (random_bytes 32) ;;
    let secret := to_hex bytes in
    entry <-? boot_set_password (account_entry (str "krbtgt") sid KRBTGT_RID) (krbtgt_name s) (utf8_encode secret) ;;
    dn <-? lift (krbtgt_dn s) ;;
    create_reported st dn entry (krbtgt_name s).

Definition provision_admin (st : Store) (s : Settings) (sid : Sid) : prog (result BootError (list rstring)) :=
  dn <-? lift (admin_dn s) ;;
  found <-? principal_exists st s (admin_name s) ;;
  if (found : bool) then Ret (Ok [])
  else
    existing <-? prog_map_err BStore (Store.get_entry st dn) ;;
    match existing with
    | Some _ => Ret (Ok [])
    | None =>
        let entry := Entry.set (account_entry ADMINISTRATOR sid ADMINISTRATOR_RID) (str "uid") [ADMINISTRATOR] in
        hash <-? Call (Random (Z.to_nat SALT_LEN)) (fun salt => Ret (map_err BCrypto (hash_password salt (admin_password s)))) ;;
        entry <-? boot_set_password (Entry.set entry (str "userpassword") [hash]) (admin_name s) (admin_password s) ;;
        create_reported st dn entry (admin_name s)
    end.

Definition provision (fresh_fips : result Error unit) (st : Store) (s : Settings) : prog (result BootError Report) :=
  _ <-? lift (map_err BCrypto fresh_fips) ;;
  dn <-? lift (config_dn s) ;;
  records <-? lift (forest_records s dn) ;;
  let '(config, schema, root) := records in
  sid <-? fresh_sid fresh_fips ;;
  report1 <-? create_records st dn [config; schema; with_domain_sid sid root] ;;
  settled <-? settle_root fresh_fips st s dn ;;
  let '(report2, sid_text) := settled in
  sid <-? lift (ok_or (BadStoredSid sid_text) (Sid.parse sid_text)) ;;
  report3 <-? create_reported st (s_base_dn s) (base_entry (s_base_dn s) sid) (Dn.to_string (s_base_dn s)) ;;
  report4 <-? provision_krbtgt st s sid ;;
  report5 <-? provision_admin st s sid ;;
  Ret (Ok (mkReport (report1 ++ report2 ++ report3 ++ report4 ++ report5) sid_text)).

(** What a run of the program reports before it waits for a signal. *)
Definition run (vars : rstring -> option rstring) (read_file : rstring -> option bytes) (fresh_fips : result Error unit)
    (n : nat) (net : nat -> network) : option (prog (result BootError Report)) :=
  match from_env vars read_file with
  | Err e => Some (Ret (Err e))
  | Ok s => st ← wait_for_store n net 1 s; Some (provision fresh_fips st s)
  end.
End bootstrap.
