(* ===== verification/BootstrapSpec.v ===== *)
(** What provisioning guarantees: it creates what is missing and nothing else,
    reports exactly that, and a second run finds nothing to do. *)

From S2P Require Import Prelude Bytes Str Btree Utf8 Decimal Dn Partition Key Registry Sid SecurityDescriptor Entry Etcd Index Store.
From S2P Require Import Directory Nfold Kerberos Md4 Password Principal BinaryAttrs Krb Kdc Gc GcReplica Config ConfigSpec ConfigCtl Bootstrap.

(** ** The settings *)

(** Settings whose base DN can be stored; the strings are Rust's. *)
Record settings_ok (s : Settings) : Prop := {
  so_wf : dn_wf (s_base_dn s);
  so_chars : str_ok (Dn.to_string (s_base_dn s));
  so_ne : rdns (s_base_dn s) <> [];
  so_keyed : keyed (s_base_dn s);
  so_values : forall r a, head (rdns (s_base_dn s)) = Some r -> head (avas r) = Some a -> str_ok (value a);
  so_realm : str_ok (s_realm s);
}.

(** The DNs below the base. *)
Definition configuration_dn (s : Settings) : Dn := record_of (s_base_dn s) (str "configuration").
Definition administrator_dn (s : Settings) : Dn := record_of (s_base_dn s) ADMINISTRATOR.
Definition ticket_service_dn (s : Settings) : Dn := record_of (s_base_dn s) (str "krbtgt").

Section settings.
  Context `{EntryCodec} `{!PartitionJson} `{!OpenSsl, !OpenSslLaws} `{!Base64} (s : Settings) (Hs : settings_ok s).
  Local Abbreviation base := (s_base_dn s).

Lemma child_dn_of d (text : rstring) id :
  dn_wf d -> rdns d <> [] -> keyed d -> valid_id id = true ->
  text = str "cn=" ++ id ++ str "," ++ Dn.to_string d -> Dn.parse text = Ok (record_of d id).
Proof.
  intros Hw Hn Hk Hid ->. pose proof (record_dn_ok d Hw Hn Hk id Hid) as Hr. unfold record_dn in Hr.
  destruct (Dn.parse _) as [d'|e]; [|done]. cbn [map_err] in Hr. congruence.
Qed.

Lemma child_dn (text : rstring) id :
  valid_id id = true -> text = str "cn=" ++ id ++ str "," ++ Dn.to_string base -> Dn.parse text = Ok (record_of base id).
Proof. apply child_dn_of; apply Hs. Qed.

Lemma config_dn_ok : config_dn s = Ok (configuration_dn s).
Proof. unfold config_dn. rewrite (child_dn _ (str "configuration")); done. Qed.

Lemma admin_dn_ok : admin_dn s = Ok (administrator_dn s).
Proof. unfold admin_dn. rewrite (child_dn _ ADMINISTRATOR); done. Qed.

Lemma krbtgt_dn_ok : krbtgt_dn s = Ok (ticket_service_dn s).
Proof. unfold krbtgt_dn. rewrite (child_dn _ (str "krbtgt")); done. Qed.

Lemma base_outside : is_within base (configuration_dn s) = false.
Proof. apply not_true_iff_false. intros Hw%is_within_depth. unfold depth in Hw. cbn in Hw. lia. Qed.

Lemma sibling_outside id : id <> str "configuration" -> is_within (record_of base id) (configuration_dn s) = false.
Proof.
  intros Hid. apply not_true_iff_false. intros Hw. apply Hid. apply (record_equiv_inj base).
  apply is_within_antisym; [done|]. apply (is_within_linear (record_of base id)); [apply is_within_refl|done|done].
Qed.

Lemma child_keyed id : valid_id id = true -> keyed (record_of base id).
Proof. apply record_keyed; apply Hs. Qed.

Lemma child_ok_dn id : valid_id id = true -> dn_ok (record_of base id).
Proof. intros Hv. apply record_ok; try done; apply Hs. Qed.

Lemma config_dn_facts :
  dn_wf (configuration_dn s) /\ str_ok (Dn.to_string (configuration_dn s)) /\ rdns (configuration_dn s) <> [] /\ keyed (configuration_dn s).
Proof.
  destruct (child_ok_dn (str "configuration") eq_refl) as [Hw Hc]. split_and!; [done|done|done|]. by apply child_keyed.
Qed.

(** ** The store of the program *)

Record hosted (st : Store) : Prop := {
  ho_id : valid_id (partition_id s) = true;
  ho_config : valid_id (config_partition_id s) = true;
  ho_serves : serves (config_partition_id s) (configuration_dn s) st;
  ho_domain : exists dp, p_id dp = partition_id s /\ partition_id s ∈ clients st /\
    forall dn, is_within dn base = true -> is_within dn (configuration_dn s) = false -> Registry.resolve (registry st) dn = Some dp;
}.

Lemma ids_differ : config_partition_id s <> partition_id s.
Proof. unfold config_partition_id. intros Heq%(f_equal length). rewrite length_app in Heq. cbn in Heq. lia. Qed.

Lemma two_contexts reg0 reg cp dp dn :
  Registry.insert Registry.new cp = Ok reg0 -> Registry.insert reg0 dp = Ok reg -> p_id cp <> p_id dp ->
  base_dn cp = configuration_dn s -> base_dn dp = base ->
  (is_within dn (configuration_dn s) = true -> Registry.resolve reg dn = Some cp) /\
  (is_within dn base = true -> is_within dn (configuration_dn s) = false -> Registry.resolve reg dn = Some dp) /\
  cp ∈ iter reg /\ dp ∈ iter reg.
Proof.
  intros Hi0 Hi1 Hne Hc Hd. pose proof (registry_insert_wf _ _ _ (registry_insert_wf _ _ _ registry_new_wf Hi0) Hi1) as Hwf.
  assert (forall p, p ∈ iter reg <-> p = cp \/ p = dp) as Hin.
  { intros p. rewrite iter_elem by done. rewrite (insert_get _ _ _ _ Hi1). case_bool_decide as E1.
    - split; [intros [= <-]; by right|]. intros [->| ->]; [congruence|done].
    - rewrite (insert_get _ _ _ _ Hi0). case_bool_decide as E2.
      + split; [intros [= <-]; by left|]. intros [->| ->]; [done|congruence].
      + split; [done|]. by intros [->| ->]. }
  split_and!; [..|by apply Hin; left|by apply Hin; right].
  - intros Hw. destruct (Registry.resolve reg dn) as [p|] eqn:Hr.
    + pose proof (resolve_longest _ _ _ cp Hr) as Hl. apply resolve_elem in Hr as [Hp _]. apply Hin in Hp as [->| ->]; [done|].
      exfalso. rewrite Hc, Hd, base_outside in Hl. discriminate Hl; [by apply Hin; left|done].
    + rewrite resolve_None in Hr. specialize (Hr cp). rewrite Hc, Hw in Hr. discriminate Hr. apply Hin. by left.
  - intros Hw Hnot. destruct (Registry.resolve reg dn) as [p|] eqn:Hr.
    + apply resolve_elem in Hr as [Hp Hw']. apply Hin in Hp as [->| ->]; [|done]. congruence.
    + rewrite resolve_None in Hr. specialize (Hr dp). rewrite Hd, Hw in Hr. discriminate Hr. apply Hin. by right.
Qed.

Lemma connect_hosted f st : boot_connect f s = Ok st -> hosted st.
Proof.
  unfold boot_connect. rewrite config_dn_ok. unfold ForestId_new. destruct (valid_id (partition_id s)) eqn:Hid; [|done].
  cbn [map_err mbind result_bind]. destruct (configuration _ _ _ _) as [cp|] eqn:Hcp; [|done]. cbn [map_err mbind result_bind].
  destruct (Registry.insert Registry.new cp) as [reg0|] eqn:Hi0; [|done]. cbn [map_err mbind result_bind].
  destruct (domain _ _ _ _) as [dp|] eqn:Hdp; [|done]. cbn [map_err mbind result_bind].
  destruct (Registry.insert reg0 dp) as [reg|] eqn:Hi1; [|done]. cbn [map_err mbind result_bind].
  destruct (Store.connect f reg) as [st'|] eqn:Hst; [|done]. cbn [map_err]. intros [= <-].
  apply (builder_id _ (config_partition_id s) (partition_id s) (configuration_dn s) (plaintext [endpoint s])) in Hcp as (Hc & Hcv & Hcb & _); [|auto].
  apply (builder_id _ (partition_id s) (partition_id s) base (plaintext [endpoint s])) in Hdp as (Hd & _ & Hdb & _); [|auto].
  assert (p_id cp <> p_id dp) as Hne by (rewrite Hc, Hd; apply ids_differ).
  destruct (connect_all _ _ _ Hst) as [Hreg Hcl].
  destruct (two_contexts reg0 reg cp dp base Hi0 Hi1 Hne Hcb Hdb) as (_ & _ & Hin1 & Hin2).
  split; [done|done|..].
  - exists cp. rewrite <- Hc. split; [done|]. split; [by apply Hcl|]. intros dn Hw. rewrite Hreg.
    exact (proj1 (two_contexts reg0 reg cp dp dn Hi0 Hi1 Hne Hcb Hdb) Hw).
  - exists dp. rewrite <- Hd. split; [done|]. split; [by apply Hcl|]. intros dn Hw Hn. rewrite Hreg.
    exact (proj1 (proj2 (two_contexts reg0 reg cp dp dn Hi0 Hi1 Hne Hcb Hdb)) Hw Hn).
Qed.

  Context (st : Store) (Hst : hosted st).
  Local Abbreviation pid := (partition_id s).
  Local Abbreviation cid := (config_partition_id s).
  Local Abbreviation cdn := (configuration_dn s).
  Local Abbreviation dir := (gmap (list Z) (Dn * Entry)).
  Implicit Types (R : gmap (list Z) Partition) (D : dir) (m : kvstore) (p q stored : Partition) (fresh_fips : result Error unit) (e : Entry) (sid : Sid) (ps : list Partition) (name : rstring) (dn : Dn).

Lemma in_domain {A : Type} dn (op : PartitionId -> prog (result (StoreError json_error) A)) :
  is_within dn base = true -> is_within dn cdn = false -> in_partition st dn op = op pid.
Proof.
  intros Hw Hn. destruct (ho_domain st Hst) as (dp & <- & Hconn & Hown). apply in_partition_connected; auto.
Qed.

(** The records of the forest and the entries of the domain. *)
Definition domain_state R D m : Prop := config_holds cid cdn config_index_spec R m /\ repr pid index_spec D m.

(** An operation on one partition leaves the other as it is. *)
Lemma repr_other {A : Type} a b spec D (op : prog A) m r m' :
  valid_id a = true -> valid_id b = true -> a <> b -> touches (in_range a) op -> runs op m r m' -> repr b spec D m -> repr b spec D m'.
Proof.
  intros Ha Hb Hab Ht Hr HR. eapply repr_frame; [exact HR|]. intros k Hk. eapply runs_frame; [exact Ht|exact Hr|].
  intros Hk'. apply Hab. eapply in_range_disjoint; [done|done|exact Hk'|]. destruct Hk; [by apply range_of_tree|by apply range_of_idx].
Qed.

Lemma config_op_touches {A : Type} dn (op : PartitionId -> prog (result (StoreError json_error) A)) :
  is_within dn cdn = true -> (forall i, touches (in_range i) (op i)) -> touches (in_range cid) (in_partition st dn op).
Proof. intros Hw Ht. rewrite (in_config cid cdn (ho_config st Hst) st (ho_serves st Hst)) by done. apply Ht. Qed.

Lemma create_partition_touches p : valid_id (p_id p) = true -> touches (in_range cid) (create_partition st cdn config_index_spec p).
Proof.
  intros Hv. destruct config_dn_facts as (Hw & Hc & Hn & Hk). unfold create_partition. rewrite (record_dn_ok cdn Hw Hn Hk) by done.
  cbn [lift try_bind prog_bind_]. destruct (partition_to_entry p); cbn [lift try_bind prog_bind_]; [|done].
  apply touches_map_err, config_op_touches; [apply record_within|]. intros q. apply create_touches.
Qed.

Lemma put_partition_touches p : valid_id (p_id p) = true -> touches (in_range cid) (put_partition st cdn config_index_spec p).
Proof.
  intros Hv. destruct config_dn_facts as (Hw & Hc & Hn & Hk). unfold put_partition. rewrite (record_dn_ok cdn Hw Hn Hk) by done.
  cbn [lift try_bind prog_bind_]. destruct (partition_to_entry p); cbn [lift try_bind prog_bind_]; [|done].
  apply touches_map_err, config_op_touches; [apply record_within|]. intros q. apply put_touches.
Qed.

(** *** Steps on the records *)

Definition add_missing R p : gmap (list Z) Partition := if bool_decide (R !! p_id p = None) then <[p_id p := p]> R else R.

Lemma wp_create_record {B : Type} R D p m (I : BootError -> kvstore -> Prop) (k : bool -> prog (result BootError B)) Q :
  domain_state R D m -> partition_ok p -> (forall er m', domain_state R D m' \/ domain_state (add_missing R p) D m' -> I er m') ->
  (forall m', domain_state (add_missing R p) D m' -> wp I (k (bool_decide (R !! p_id p = None))) Q m') ->
  wp I (new <-? prog_map_err BConfig (create_partition st cdn config_index_spec p) ;; k new) Q m.
Proof.
  intros [HR HD] Hp HI Hk. destruct config_dn_facts as (Hw & Hc & Hn & Hkey).
  apply wp_try with (Q := fun b m' => b = bool_decide (R !! p_id p = None) /\ domain_state (add_missing R p) D m').
  - apply wp_map_err. intros r m' Hr. assert (repr pid index_spec D m') as HD'.
    { eapply (repr_other cid pid); [apply (ho_config st Hst)|apply (ho_id st Hst)|apply ids_differ|exact (create_partition_touches p (proj1 Hp))|exact Hr|exact HD]. }
    apply (create_partition_runs cid cdn config_index_spec Hw Hc Hn Hkey (ho_config st Hst) st (ho_serves st Hst) R p m) in Hr as [Hb Ho]; [|done..].
    destruct r as [b|e]; [split; [by apply Hb|by split]|]. apply HI. destruct Ho as [Ho|Ho]; [left|right]; by split.
  - intros b m' [-> Hm']. by apply Hk.
Qed.

Lemma wp_put_record {B : Type} R D p m (I : BootError -> kvstore -> Prop) (k : prog (result BootError B)) Q :
  domain_state R D m -> partition_ok p -> (forall er m', domain_state R D m' \/ domain_state (<[p_id p := p]> R) D m' -> I er m') ->
  (forall m', domain_state (<[p_id p := p]> R) D m' -> wp I k Q m') ->
  wp I (_ <-? prog_map_err BConfig (put_partition st cdn config_index_spec p) ;; k) Q m.
Proof.
  intros [HR HD] Hp HI Hk. destruct config_dn_facts as (Hw & Hc & Hn & Hkey).
  apply wp_try with (Q := fun _ m' => domain_state (<[p_id p := p]> R) D m').
  - apply wp_map_err. intros r m' Hr. assert (repr pid index_spec D m') as HD'.
    { eapply (repr_other cid pid); [apply (ho_config st Hst)|apply (ho_id st Hst)|apply ids_differ|exact (put_partition_touches p (proj1 Hp))|exact Hr|exact HD]. }
    apply (put_partition_runs cid cdn config_index_spec Hw Hc Hn Hkey (ho_config st Hst) st (ho_serves st Hst) R p m) in Hr; [|done..].
    destruct r as [b|e]; [by split|]. apply HI. destruct Hr as [Ho|Ho]; [left|right]; by split.
  - intros _ m' Hm'. by apply Hk.
Qed.

(** Records are added, none is changed. *)
Definition added R (ps : list Partition) R' : Prop :=
  forall id, R' !! id = R !! id \/ R !! id = None /\ exists p, p ∈ ps /\ p_id p = id /\ R' !! id = Some p.

Definition absent_names R (ids : list PartitionId) : list rstring :=
  concat (List.map (fun id => if bool_decide (R !! id = None) then [partition_name id] else []) ids).

Lemma added_refl R ps : added R ps R.
Proof. intros id. by left. Qed.

Lemma add_missing_lookup R p id :
  add_missing R p !! id = if bool_decide (p_id p = id /\ R !! id = None) then Some p else R !! id.
Proof.
  unfold add_missing. case_bool_decide as Hn.
  - destruct (decide (p_id p = id)) as [<-|Hne]; [rewrite lookup_insert_eq, bool_decide_true; done|].
    rewrite lookup_insert_ne, bool_decide_false; naive_solver.
  - rewrite bool_decide_false; [done|]. naive_solver.
Qed.

Lemma added_cons R p ps R' : added (add_missing R p) ps R' -> added R (p :: ps) R'.
Proof.
  intros Ha id. destruct (Ha id) as [Heq|(Hn & q & Hq & Hid & HR)].
  - rewrite Heq, add_missing_lookup. case_bool_decide as Hc; [|by left]. right. split; [apply Hc|]. exists p.
    split; [apply elem_of_cons; by left|]. by split; [apply Hc|].
  - right. rewrite add_missing_lookup in Hn. case_bool_decide; [done|]. split; [done|]. exists q. split; [apply elem_of_cons; by right|]. by split.
Qed.

Lemma absent_names_skip R p (ids : list PartitionId) : p_id p ∉ ids -> absent_names (add_missing R p) ids = absent_names R ids.
Proof.
  intros Hp. unfold absent_names. f_equal. apply map_ext_in. intros id Hid%list_elem_of_In. rewrite add_missing_lookup.
  rewrite (bool_decide_false (p_id p = _ /\ _)); [done|]. intros [Heq _]. apply Hp. by rewrite Heq.
Qed.

Lemma create_records_wp R D ps m (I : BootError -> kvstore -> Prop) :
  domain_state R D m -> Forall partition_ok ps -> NoDup (List.map p_id ps) ->
  (forall er m' R', added R ps R' -> domain_state R' D m' -> I er m') ->
  wp I (create_records st cdn ps) (fun l m' => l = absent_names R (List.map p_id ps) /\ exists R', added R ps R' /\
    (forall p, p ∈ ps -> R' !! p_id p = Some p \/ is_Some (R !! p_id p)) /\ domain_state R' D m') m.
Proof.
  intros Hm Hok Hnd HI. revert R m Hm HI. induction Hok as [|p ps Hp _ IH]; intros R m Hm HI.
  { apply wp_ret. split; [done|]. exists R. split; [apply added_refl|]. split; [by intros p Hp%elem_of_nil|done]. }
  cbn [List.map] in Hnd. apply NoDup_cons in Hnd as [Hnotin Hnd].
  cbn [create_records]. apply (wp_create_record R D); [done|done|..].
  { intros er m' [Hm'|Hm']; (eapply HI; [|exact Hm']); [apply added_refl|apply added_cons, added_refl]. }
  intros m1 Hm1. eapply wp_try; [apply (IH Hnd (add_missing R p)); [done|intros er m' R' Ha; apply HI; by apply added_cons]|].
  intros l m2 (-> & R' & Ha & Hin & Hm2). apply wp_ret. split; [by rewrite absent_names_skip by done|].
  exists R'. split; [by apply added_cons|]. split; [|done]. intros q [->|Hq]%elem_of_cons.
  - destruct (R !! p_id p) as [x|] eqn:HRp; [right; by exists x|left]. destruct (Ha (p_id p)) as [Heq|(_ & q & Hq & Hid & _)].
    + rewrite Heq, add_missing_lookup. by rewrite bool_decide_true.
    + exfalso. apply Hnotin. rewrite <- Hid. apply list_elem_of_fmap. by exists q.
  - destruct (Hin q Hq) as [|Hsome]; [by left|right]. rewrite add_missing_lookup in Hsome. case_bool_decide as Hc; [|done].
    exfalso. apply Hnotin. rewrite (proj1 Hc). apply list_elem_of_fmap. by exists q.
Qed.

(** *** The root domain's record *)

(** A record nothing has to be filled in. *)
Definition complete_record p : Prop := domain_sid p <> None /\ netbios_name p <> None.

(** [q] is [p] with what was missing. *)
Definition fills p q : Prop :=
  exists t, domain_sid_text t /\
    q = (let p1 := if bool_decide (domain_sid p = None) then with_domain_sid t p else p in
         if bool_decide (netbios_name p1 = None) then with_netbios_name (s_netbios_name s) p1 else p1).

Lemma fills_complete p q : fills p q -> complete_record q /\ (complete_record p -> q = p) /\ (q = p -> complete_record p).
Proof.
  intros (t & _ & ->). unfold complete_record. cbn zeta. destruct (domain_sid p) eqn:Hd.
  - rewrite (bool_decide_false (Some _ = None)) by done. destruct (netbios_name p) eqn:Hn.
    + rewrite bool_decide_false by done. rewrite Hd, Hn. by split_and!.
    + rewrite bool_decide_true by done. cbn. rewrite Hd. split_and!; [done|done|naive_solver|].
      intros Heq%(f_equal netbios_name). cbn in Heq. congruence.
  - rewrite (bool_decide_true (None = None)) by done. cbn [netbios_name with_domain_sid].
    destruct (netbios_name p) eqn:Hn; [rewrite bool_decide_false by done|rewrite bool_decide_true by done]; cbn; rewrite ?Hn;
      (split_and!; [done|done|naive_solver|]); intros Heq%(f_equal domain_sid); cbn in Heq; congruence.
Qed.

Lemma fills_fields p q :
  fills p q -> p_id q = p_id p /\ base_dn q = base_dn p /\ realm q = realm p /\ (partition_ok p -> partition_ok q).
Proof.
  intros (t & _ & ->). cbn zeta. repeat case_bool_decide; by split_and!.
Qed.

Lemma filled_record_wp fresh_fips stored m (I : BootError -> kvstore -> Prop) :
  (forall er, I er m) -> wp I (filled_record fresh_fips s stored) (fun q m' => m' = m /\ fills stored q) m.
Proof.
  intros HI. unfold filled_record.
  apply wp_try with (Q := fun p1 m' => m' = m /\ exists t, domain_sid_text t /\ p1 = if bool_decide (domain_sid stored = None) then with_domain_sid t stored else stored).
  - case_bool_decide.
    + apply wp_try with (Q := fun t m' => m' = m /\ domain_sid_text t).
      * apply wp_map_err. intros r m' [-> Hr]%generate_runs. destruct r; [by split; [|apply Hr]|apply HI].
      * intros t m' [-> Ht]. apply wp_ret. split; [done|]. by exists t.
    + apply wp_ret. split; [done|]. exists (Sid.to_string (Sid.new NT_AUTHORITY [21; 0; 0; 0])). split; [|done].
      exists 0, 0, 0. split; [|done]. repeat constructor; done.
  - intros p1 m' (-> & t & Ht & ->). apply wp_ret. split; [done|]. by exists t.
Qed.

(** The record settings and store agree on. *)
Definition root_settled R (t : rstring) : Prop :=
  exists q, R !! pid = Some q /\ base_dn q ≡ base /\ realm q = Some (s_realm s) /\ complete_record q /\ domain_sid q = Some t.

Definition fill_names R : list rstring :=
  match R !! pid with
  | Some p => if bool_decide (domain_sid p <> None /\ netbios_name p <> None) then [] else [partition_name pid ++ str " (missing fields filled)"]
  | None => []
  end.

(** Only the root's record changes, by what it lacked. *)
Definition root_filled R R' : Prop :=
  R' = R \/ exists p q, R !! pid = Some p /\ ~ complete_record p /\ fills p q /\ R' = <[pid := q]> R.

Lemma settle_root_wp fresh_fips R D m (I : BootError -> kvstore -> Prop) :
  domain_state R D m ->
  (forall er m' R', root_filled R R' -> domain_state R' D m' -> I er m') ->
  wp I (settle_root fresh_fips st s cdn) (fun lt m' => lt.1 = fill_names R /\ exists R', root_filled R R' /\ root_settled R' lt.2 /\ domain_state R' D m') m.
Proof.
  intros Hm HI. assert (forall er, I er m) as Hnone by (intros er; eapply HI; [by left|done]).
  destruct config_dn_facts as (Hw & Hc & Hn & Hkey). unfold settle_root.
  eapply wp_try; [apply (wp_load cid cdn Hw Hc Hn Hkey BConfig st R m I (fun reg m' => m' = m /\ forall id, Registry.get reg id = R !! id));
    [apply Hst|apply Hst|apply Hm|done|by split]|].
  intros reg m1 [-> Hget]. unfold PartitionId_new. rewrite (ho_id st Hst). cbn [map_err lift try_bind prog_bind_]. rewrite Hget.
  destruct (R !! pid) as [p|] eqn:Hp; [|by apply wp_err]. cbn [ok_or lift try_bind prog_bind_]. unfold check_matches.
  destruct (dn_eq (base_dn p) base) eqn:Hbase; [|by apply wp_err]. apply dn_eq_spec in Hbase. cbn [negb].
  case_bool_decide as Hrealm; [|by apply wp_err]. cbn [negb lift try_bind prog_bind_].
  destruct (stored_ok cid cdn R m _ _ (proj1 Hm) Hp) as [Hpid Hok].
  eapply wp_try; [by apply filled_record_wp|]. intros q m1 [-> Hfill].
  destruct (fills_complete p q Hfill) as (Hcomp & Hsame & Hback). destruct (fills_fields p q Hfill) as (Hqi & Hqb & Hqr & Hqok).
  destruct (domain_sid q) as [t|] eqn:Hd; [|by destruct Hcomp]. cbn [default].
  assert (root_settled (<[pid := q]> R) t) as Hset.
  { exists q. rewrite lookup_insert_eq. split_and!; try done; by rewrite ?Hqb, ?Hqr. }
  unfold fill_names. rewrite Hp. case_bool_decide as Heq.
  - apply wp_ret. cbn [fst snd]. rewrite bool_decide_true by exact (Hback Heq). split; [done|]. exists R. split; [by left|]. split; [|done].
    subst q. by rewrite insert_id in Hset.
  - rewrite bool_decide_false by (intros Hx; by apply Heq, Hsame).
    assert (root_filled R (<[p_id q := q]> R)) as Hrf.
    { right. exists p, q. rewrite Hqi, <- Hpid. split_and!; [done| |done|done]. intros Hx. by apply Heq, Hsame. }
    apply wp_try with (Q := fun l m' => l = [partition_name pid ++ str " (missing fields filled)"] /\ domain_state (<[p_id q := q]> R) D m').
    + apply (wp_put_record R D); [done|by apply Hqok| |intros m' Hm'; by apply wp_ret].
      intros er m' [Hm'|Hm']; (eapply HI; [|exact Hm']); [by left|done].
    + intros l m' [-> Hm']. apply wp_ret. split; [done|]. exists (<[p_id q := q]> R). split; [done|]. split; [|done].
      by rewrite Hqi, <- Hpid.
Qed.

(** *** The entries of the domain *)

Definition has_principal D (name : rstring) : bool :=
  existsb (fun kde => bool_decide (name ∈ default [] (Entry.get kde.2.2 ATTR_PRINCIPAL_NAME))) (map_to_list D).

Lemma has_principal_spec D name :
  has_principal D name = true <-> exists k dn e, D !! k = Some (dn, e) /\ name ∈ default [] (Entry.get e ATTR_PRINCIPAL_NAME).
Proof.
  unfold has_principal. rewrite existsb_exists. setoid_rewrite bool_decide_eq_true. split.
  - intros ([k [dn e]] & Hin%list_elem_of_In%elem_of_map_to_list & Hn). by exists k, dn, e.
  - intros (k & dn & e & HD & Hn). exists (k, (dn, e)). split; [|done]. by apply list_elem_of_In, elem_of_map_to_list.
Qed.

Lemma has_principal_insert D k dn e name :
  D !! k = None ->
  has_principal (<[k := (dn, e)]> D) name = bool_decide (name ∈ default [] (Entry.get e ATTR_PRINCIPAL_NAME)) || has_principal D name.
Proof.
  intros Hk. apply eq_true_iff_eq. rewrite orb_true_iff, bool_decide_eq_true, !has_principal_spec. split.
  - intros (k' & dn' & e' & HD & Hn). destruct (decide (k' = k)) as [->|Hne].
    + rewrite lookup_insert_eq in HD. injection HD as <- <-. by left.
    + rewrite lookup_insert_ne in HD by done. right. eauto.
  - intros [Hn|(k' & dn' & e' & HD & Hn)]; [exists k, dn, e; by rewrite lookup_insert_eq|].
    exists k', dn', e'. rewrite lookup_insert_ne; [done|]. intros <-. congruence.
Qed.

Definition add_entry D (dn : Dn) e : dir :=
  if bool_decide (D !! entry_key pid dn = None) then <[entry_key pid dn := (dn, e)]> D else D.

(** A DN of the domain proper. *)
Definition own (dn : Dn) : Prop := is_within dn base = true /\ is_within dn cdn = false /\ dn_ok dn.

Lemma own_base : own base.
Proof. split; [apply is_within_refl|]. split; [apply base_outside|]. split; apply Hs. Qed.

Lemma own_child id : valid_id id = true -> id <> str "configuration" -> own (record_of base id).
Proof. intros Hv Hc. split; [apply record_within|]. split; [by apply sibling_outside|]. by apply child_ok_dn. Qed.

(** The records depend on their own partition only. *)
Lemma config_holds_other {A : Type} R (op : prog A) m r m' :
  touches (in_range pid) op -> runs op m r m' -> config_holds cid cdn config_index_spec R m -> config_holds cid cdn config_index_spec R m'.
Proof.
  intros Ht Hr (D & HC & HR). exists D. split; [done|].
  eapply (repr_other pid cid); [apply (ho_id st Hst)|apply (ho_config st Hst)|by intros Heq; apply ids_differ|exact Ht|exact Hr|exact HR].
Qed.

Lemma create_reported_wp R D dn e name m (I : BootError -> kvstore -> Prop) :
  domain_state R D m -> own dn -> entry_wf e ->
  (forall er m', domain_state R D m' \/ domain_state R (add_entry D dn e) m' -> I er m') ->
  wp I (create_reported st dn e name)
    (fun l m' => l = (if bool_decide (D !! entry_key pid dn = None) then [name] else []) /\ domain_state R (add_entry D dn e) m') m.
Proof.
  intros [HR HD] (Hw & Hn & Hdn) He HI. unfold create_reported.
  apply wp_try with (Q := fun b m' => b = bool_decide (D !! entry_key pid dn = None) /\ domain_state R (add_entry D dn e) m').
  - apply wp_map_err. intros r m' Hr. unfold Store.create_entry in Hr. rewrite in_domain in Hr by done.
    assert (config_holds cid cdn config_index_spec R m') as HR' by (eapply config_holds_other; [apply create_touches|exact Hr|exact HR]).
    apply (create_refines pid (ho_id st Hst) index_spec D) in Hr as [Hb Ho]; [|done..]. fold (add_entry D dn e) in Ho.
    destruct r as [b|er]; [split; [by apply Hb|by split]|]. apply HI. destruct Ho as [Ho|Ho]; [left|right]; by split.
  - intros b m' [-> Hm']. apply wp_ret. by split.
Qed.

Lemma principal_exists_wp R D name m (I : BootError -> kvstore -> Prop) :
  domain_state R D m -> (forall er, I er m) ->
  wp I (principal_exists st s name) (fun b m' => m' = m /\ b = has_principal D name) m.
Proof.
  intros [HR HD] HI. unfold principal_exists. destruct own_base as (Hw & Hn & _).
  apply wp_try with (Q := fun l m' => m' = m /\ forall dn, dn ∈ l <-> exists e, D !! entry_key pid dn = Some (dn, e)
    /\ name ∈ default [] (Entry.get e ATTR_PRINCIPAL_NAME)).
  - apply wp_map_err. intros r m' Hr. unfold Store.lookup_by_index in Hr. rewrite in_domain in Hr by done.
    apply (lookup_refines pid (ho_id st Hst) index_spec D) in Hr as [-> [[er ->]|(l & -> & _ & Hl)]]; [apply HI|done|done|].
    by apply list_elem_of_In; vm_compute; tauto.
  - intros l m' [-> Hl]. apply wp_ret. split; [done|]. apply eq_true_iff_eq. rewrite negb_true_iff, bool_decide_eq_false, has_principal_spec. split.
    + destruct l as [|dn l]; [done|]. intros _. destruct (proj1 (Hl dn)) as (e & He & Hx); [apply elem_of_cons; by left|]. eauto.
    + intros (k & dn & e & HDk & Hx) ->. destruct (r_keys _ _ _ _ HD _ _ _ HDk) as (-> & _). apply (elem_of_nil dn), Hl. eauto.
Qed.

(** *** New accounts *)

(** An entry the KDC can serve: the principal, the SID of the domain with the
    RID, and the keys of the password. *)
Record account_made (principal : rstring) (password : bytes) (rid : Z) sid e : Prop := {
  am_names : Entry.get e ATTR_PRINCIPAL_NAME = Some [principal];
  am_sid : Entry.get e OBJECT_SID_ATTR = Some [encode_binary_attr (Sid.encode (with_sub_authority sid rid))];
  am_keys : exists salt, Principal.salt e = Ok salt /\ forall enc, enc ∈ DEFAULT_ENCTYPES ->
    exists k, string_to_key enc password salt None = Ok k /\ key_for_enctype e enc = Some (Ok (mkPrincipalKey enc 1 k));
}.

Definition made_krbtgt sid e : Prop := exists secret, account_made (krbtgt_name s) secret KRBTGT_RID sid e.

(** The administrator can also bind with the password. *)
Definition made_admin sid e : Prop :=
  account_made (admin_name s) (admin_password s) ADMINISTRATOR_RID sid e /\
  exists h, Entry.get e (str "userpassword") = Some [h] /\ verify_password (admin_password s) h = Some (Ok true).

Lemma base_entry_wf sid : is_byte (revision sid) -> entry_wf (base_entry base sid).
Proof.
  intros Hr. unfold base_entry. apply entry_set_wf; [|apply str_ok_str|apply Forall_singleton, encode_binary_str_ok, encode_bytes_ok, Hr].
  assert (entry_wf (Entry.set Entry.new (str "objectclass") [str "top"; str "domain"; str "domainDNS"])) as He.
  { apply entry_set_wf; [apply entry_new_wf|apply str_ok_str|]. repeat (constructor; [apply str_ok_str|]). constructor. }
  destruct (head (rdns base)) as [r|] eqn:Hh; [|done]. cbn [mbind option_bind]. destruct (head (avas r)) as [a|] eqn:Ha; [|done]. cbn [mbind option_bind].
  destruct (eq_ignore_ascii_case (attr a) (str "dc")); [|done].
  apply entry_set_wf; [done|apply str_ok_str|]. apply Forall_singleton. by apply (so_values s Hs r a).
Qed.

Lemma account_entry_wf name sid rid : str_ok name -> is_byte (revision sid) -> entry_wf (account_entry name sid rid).
Proof.
  intros Hn Hr. unfold account_entry.
  apply entry_set_wf; [|apply str_ok_str|by apply Forall_singleton, encode_binary_str_ok, default_descriptor_ok].
  apply entry_set_wf; [|apply str_ok_str|by apply Forall_singleton, encode_binary_str_ok, encode_bytes_ok].
  do 2 (apply entry_set_wf; [|apply str_ok_str|by apply Forall_singleton]).
  apply entry_set_wf; [apply entry_new_wf|apply str_ok_str|]. repeat (constructor; [apply str_ok_str|]). constructor.
Qed.

Lemma account_password_wp e (principal : rstring) (password : bytes) (rid : Z) sid m (I : BootError -> kvstore -> Prop) :
  (forall er, I er m) -> entry_wf e -> str_ok principal -> 8 <= zlen password ->
  Entry.get e OBJECT_SID_ATTR = Some [encode_binary_attr (Sid.encode (with_sub_authority sid rid))] ->
  wp I (boot_set_password e principal password) (fun e' m' => m' = m /\ entry_wf e' /\ account_made principal password rid sid e' /\
    Entry.get e' (str "userpassword") = Entry.get e (str "userpassword")) m.
Proof.
  intros HI He Hp Hlen Hsid r m' (rep & m1 & (-> & Hrep) & -> & ->). destruct Hrep as [->|(salt & -> & Hl & Hb)]; [apply HI|].
  assert (zlen salt = MIN_SALT_LEN) as Hz by (unfold zlen; rewrite Hl; done).
  destruct (set_password_keys salt e principal password Hz Hb Hlen) as (e' & Hset & Hn & _ & Hs' & Hk & Hrest). rewrite Hset. cbn [map_err].
  split; [done|]. split; [by eapply set_password_wf|]. split; [|by apply Hrest].
  split; [done|by rewrite Hrest|]. exists (to_hex salt). by split.
Qed.

(** Whether an account is missing. *)
Definition lacks D name dn : bool := negb (has_principal D name) && bool_decide (D !! entry_key pid dn = None).

(** The account is added if it is missing. *)
Definition account_step (made : Entry -> Prop) D name dn D' : Prop :=
  if lacks D name dn then exists e, made e /\ D' = <[entry_key pid dn := (dn, e)]> D else D' = D.

Definition account_names D name dn : list rstring := if lacks D name dn then [name] else [].

Lemma present_names D name dn : has_principal D name = true -> account_names D name dn = [] /\ forall made, account_step made D name dn D.
Proof. intros Hp. unfold account_names, account_step, lacks. by rewrite Hp. Qed.

Lemma taken_names D name dn : D !! entry_key pid dn <> None -> account_names D name dn = [] /\ forall made, account_step made D name dn D.
Proof. intros Hp. unfold account_names, account_step, lacks. by rewrite bool_decide_false, andb_false_r. Qed.

(** Creating an account of which the principal is not there. *)
Lemma create_account_wp R D name dn e (made : Entry -> Prop) m (I : BootError -> kvstore -> Prop) :
  domain_state R D m -> own dn -> entry_wf e -> made e -> has_principal D name = false ->
  (forall er m' D', D' = D \/ account_step made D name dn D' -> domain_state R D' m' -> I er m') ->
  wp I (create_reported st dn e name) (fun l m' => l = account_names D name dn /\ exists D', account_step made D name dn D' /\ domain_state R D' m') m.
Proof.
  intros Hm Hown He Hmade Hp HI.
  assert (account_step made D name dn (add_entry D dn e)) as Hstep.
  { unfold account_step, lacks, add_entry. rewrite Hp. cbn [negb andb]. case_bool_decide; [by exists e|done]. }
  eapply wp_mono; [apply (create_reported_wp R D dn e name m I); [done|done|done|]|].
  - intros er m' [Hm'|Hm']; (eapply HI; [|exact Hm']); [by left|by right].
  - cbn beta. intros l m' [-> Hm']. unfold account_names, lacks. rewrite Hp. split; [done|]. by exists (add_entry D dn e).
Qed.

Lemma provision_krbtgt_wp R D sid m (I : BootError -> kvstore -> Prop) :
  domain_state R D m -> is_byte (revision sid) ->
  (forall er m' D', D' = D \/ account_step (made_krbtgt sid) D (krbtgt_name s) (ticket_service_dn s) D' -> domain_state R D' m' -> I er m') ->
  wp I (provision_krbtgt st s sid) (fun l m' => l = account_names D (krbtgt_name s) (ticket_service_dn s) /\
    exists D', account_step (made_krbtgt sid) D (krbtgt_name s) (ticket_service_dn s) D' /\ domain_state R D' m') m.
Proof.
  intros Hm Hr HI. assert (forall er, I er m) as Hnone by (intros er; eapply HI; [by left|done]). unfold provision_krbtgt.
  eapply wp_try; [by apply (principal_exists_wp R D)|]. intros found m1 [-> ->]. destruct (has_principal D (krbtgt_name s)) eqn:Hp.
  { destruct (present_names D _ (ticket_service_dn s) Hp) as [-> Hst']. apply wp_ret. split; [done|]. by exists D. }
  apply wp_try with (Q := fun b m' => m' = m /\ zlen b = 32 /\ bytes_ok b).
  { apply wp_map_err. intros r m' (rep & m1 & (-> & Hrep) & -> & ->). destruct Hrep as [->|(b & -> & Hl & Hb)]; [apply Hnone|].
    split; [done|]. split; [|done]. unfold zlen. by rewrite Hl. }
  intros b m1 (-> & Hl & Hb). rewrite utf8_to_hex by done.
  assert (str_ok (krbtgt_name s)) as Hname by (unfold krbtgt_name; rewrite !str_ok_app; split_and!; try apply str_ok_str; apply Hs).
  eapply wp_try; [apply (account_password_wp _ (krbtgt_name s) (to_hex b) KRBTGT_RID sid); [done|apply account_entry_wf; [apply str_ok_str|done]|done|rewrite zlen_to_hex; lia|]|].
  { unfold account_entry. by rewrite !get_set. }
  intros e m1 (-> & He & Hmade & _). rewrite krbtgt_dn_ok. cbn [lift try_bind prog_bind_].
  apply (create_account_wp R D _ _ e); [done|by apply own_child|done|by exists (to_hex b)|done|done].
Qed.

Lemma get_entry_wp R D dn m (I : BootError -> kvstore -> Prop) :
  domain_state R D m -> own dn -> (forall er, I er m) ->
  wp I (prog_map_err BStore (Store.get_entry st dn)) (fun o m' => m' = m /\ (o = None <-> D !! entry_key pid dn = None)) m.
Proof.
  intros [_ HD] (Hw & Hn & _) HI. apply wp_map_err. unfold Store.get_entry. rewrite in_domain by done.
  apply wp_try with (Q := fun o m' => m' = m /\ o = (fun de => encode de.2) <$> D !! entry_key pid dn).
  - intros r m' Hr. apply (get_refines pid index_spec D) in Hr as [-> [->|[er ->]]]; [by split|apply HI|done].
  - intros o m' [-> ->]. destruct (D !! entry_key pid dn) as [[dn' e]|] eqn:Hk; cbn [fmap option_fmap option_map]; [|by apply wp_ret].
    destruct (r_keys _ _ _ _ HD _ _ _ Hk) as (_ & _ & Hwf). rewrite decode_encode by done. by apply wp_ret.
Qed.

Lemma provision_admin_wp R D sid m (I : BootError -> kvstore -> Prop) :
  domain_state R D m -> is_byte (revision sid) ->
  (forall er m' D', D' = D \/ account_step (made_admin sid) D (admin_name s) (administrator_dn s) D' -> domain_state R D' m' -> I er m') ->
  wp I (provision_admin st s sid) (fun l m' => l = account_names D (admin_name s) (administrator_dn s) /\
    exists D', account_step (made_admin sid) D (admin_name s) (administrator_dn s) D' /\ domain_state R D' m') m.
Proof.
  intros Hm Hr HI. assert (forall er, I er m) as Hnone by (intros er; eapply HI; [by left|done]). unfold provision_admin.
  apply (wp_try_ok _ _ (administrator_dn s) _ _ _ admin_dn_ok).
  eapply wp_try; [by apply (principal_exists_wp R D)|]. intros found m1 [-> ->]. destruct (has_principal D (admin_name s)) eqn:Hp.
  { destruct (present_names D _ (administrator_dn s) Hp) as [-> Hst']. apply wp_ret. split; [done|]. by exists D. }
  eapply wp_try; [apply (get_entry_wp R D); [done|by apply own_child|done]|]. intros o m1 [-> Ho]. destruct o as [x|].
  { destruct (taken_names D (admin_name s) (administrator_dn s)) as [-> Hst']; [by intros Hx%Ho|]. apply wp_ret. split; [done|]. by exists D. }
  apply wp_try with (Q := fun h m' => m' = m /\ 8 <= zlen (admin_password s) /\ str_ok h /\ verify_password (admin_password s) h = Some (Ok true)).
  { intros r m' (rep & m1 & (-> & Hrep) & -> & ->). destruct (hash_password rep (admin_password s)) as [h|er] eqn:Hh; [|apply Hnone]. cbn [map_err].
    destruct Hrep as [->|(salt & -> & Hl & Hb)]; [revert Hh; unfold hash_password; by destruct (_ <? _)|].
    assert (8 <= zlen (admin_password s)) as Hlen.
    { revert Hh. unfold hash_password, MIN_PASSWORD_LEN. destruct (Z.ltb_spec (zlen (admin_password s)) 8); [done|]. done. }
    apply hash_password_inv in Hh as (hash & -> & Hbh & Hv); [|done|by unfold zlen; rewrite Hl]. split_and!; [done|done| |done].
    eapply Forall_impl; [by apply format_hash_ascii|]. intros c Hc. left. cbn beta in Hc. lia. }
  intros h m1 (-> & Hlen & Hstr & Hv).
  assert (str_ok (admin_name s)) as Hname by (unfold admin_name; rewrite !str_ok_app; split_and!; try apply str_ok_str; apply Hs).
  eapply wp_try; [apply (account_password_wp _ (admin_name s) (admin_password s) ADMINISTRATOR_RID sid); [done| |done|done|]|].
  { do 2 (apply entry_set_wf; [|apply str_ok_str|apply Forall_singleton; first [done|apply str_ok_str]]). apply account_entry_wf; [apply str_ok_str|done]. }
  { unfold account_entry. by rewrite !get_set. }
  intros e m1 (-> & He & Hmade & Hpw). apply (create_account_wp R D _ _ e); [done|by apply own_child|done| |done|done].
  split; [done|]. exists h. split; [|done]. rewrite Hpw. by rewrite !get_set.
Qed.

(** ** A run *)

Definition forest_ids : list PartitionId := [cid; schema_partition_id s; pid].

(** What a run has to do, in the words of its report. *)
Definition missing R D : list rstring :=
  absent_names R forest_ids ++ fill_names R ++
  (if bool_decide (D !! entry_key pid base = None) then [Dn.to_string base] else []) ++
  account_names D (krbtgt_name s) (ticket_service_dn s) ++ account_names D (admin_name s) (administrator_dn s).

(** Records are added, and the root's is completed. *)
Definition forest_grown R R' : Prop :=
  forall id, R' !! id = R !! id \/ (R !! id = None /\ id ∈ forest_ids /\ is_Some (R' !! id)) \/
    (id = pid /\ exists p q, R !! id = Some p /\ ~ complete_record p /\ fills p q /\ R' !! id = Some q).

(** Entries are added, of the three kinds. *)
Definition dir_grown sid D D' : Prop :=
  forall k, D' !! k = D !! k \/ D !! k = None /\ exists dn e, k = entry_key pid dn /\ D' !! k = Some (dn, e) /\
    ((dn = base /\ e = base_entry base sid) \/
     (dn = ticket_service_dn s /\ has_principal D (krbtgt_name s) = false /\ made_krbtgt sid e) \/
     (dn = administrator_dn s /\ has_principal D (admin_name s) = false /\ made_admin sid e)).

Definition grown R D R' D' : Prop :=
  forest_grown R R' /\ (D' = D \/ exists t sid, root_settled R' t /\ Sid.parse t = Some sid /\ dir_grown sid D D').

Definition base_step sid D D' : Prop := D' = D \/ D' = add_entry D base (base_entry base sid).
Definition weak_step (made : Entry -> Prop) D name dn D' : Prop := D' = D \/ account_step made D name dn D'.

Lemma base_step_principal sid D D' name : base_step sid D D' -> has_principal D' name = has_principal D name.
Proof.
  intros [->| ->]; [done|]. unfold add_entry. case_bool_decide; [|done]. rewrite has_principal_insert by done.
  assert (Entry.get (base_entry base sid) ATTR_PRINCIPAL_NAME = None) as ->; [|done].
  unfold base_entry. rewrite get_set. change (eq_ignore_ascii_case OBJECT_SID_ATTR ATTR_PRINCIPAL_NAME) with false. cbn iota.
  destruct (_ ≫= _); by rewrite !get_set.
Qed.

Lemma names_differ : admin_name s <> krbtgt_name s.
Proof. unfold admin_name, krbtgt_name. intros Heq%(f_equal head). discriminate Heq. Qed.

Lemma krbtgt_step_principal sid D D' :
  weak_step (made_krbtgt sid) D (krbtgt_name s) (ticket_service_dn s) D' -> has_principal D' (admin_name s) = has_principal D (admin_name s).
Proof.
  intros [->|Hst']; [done|]. unfold account_step, lacks in Hst'. destruct (has_principal D (krbtgt_name s)); cbn [negb andb] in Hst'; [by subst|].
  case_bool_decide; [|by subst]. destruct Hst' as (e & (pw & Hmade) & ->). rewrite has_principal_insert by done.
  rewrite (am_names _ _ _ _ _ Hmade). cbn [default]. rewrite bool_decide_false; [done|]. intros Hin%list_elem_of_singleton. by apply names_differ.
Qed.

Lemma dn_keys_differ id : valid_id id = true -> entry_key pid (record_of base id) <> entry_key pid base.
Proof.
  intros Hv Hk. apply entry_key_equiv in Hk; [|by apply child_keyed|apply Hs]. by apply record_not_base in Hk.
Qed.

Lemma child_keys_differ id id' :
  valid_id id = true -> valid_id id' = true -> id <> id' -> entry_key pid (record_of base id) <> entry_key pid (record_of base id').
Proof.
  intros Hv Hv' Hne Hk. apply Hne. apply entry_key_equiv in Hk; [|by apply child_keyed..]. by eapply record_equiv_inj.
Qed.

Lemma steps_grown sid D D1 D2 D3 :
  base_step sid D D1 -> weak_step (made_krbtgt sid) D1 (krbtgt_name s) (ticket_service_dn s) D2 ->
  weak_step (made_admin sid) D2 (admin_name s) (administrator_dn s) D3 -> dir_grown sid D D3.
Proof.
  intros Hb Hk Ha. pose proof (base_step_principal sid D D1 (krbtgt_name s) Hb) as Hp1.
  pose proof (krbtgt_step_principal sid D1 D2 Hk) as Hp2. rewrite (base_step_principal sid D D1 (admin_name s) Hb) in Hp2.
  intros k. unfold weak_step, account_step, lacks in Hk, Ha. rewrite Hp1 in Hk. rewrite Hp2 in Ha. clear Hp1 Hp2.
  assert (forall (E E' : dir) name dn (made : Entry -> Prop),
    E' = E \/ (if negb (has_principal D name) && bool_decide (E !! entry_key pid dn = None)
               then exists e, made e /\ E' = <[entry_key pid dn := (dn, e)]> E else E' = E) ->
    E' !! k = E !! k \/ (E !! k = None /\ exists e, k = entry_key pid dn /\ E' !! k = Some (dn, e) /\ has_principal D name = false /\ made e)) as Hone.
  { intros E E' name dn made [->|Hc]; [by left|]. destruct (has_principal D name) eqn:Hn; cbn [negb andb] in Hc; [subst; by left|].
    case_bool_decide; [|subst; by left]. destruct Hc as (e & Hm & ->). destruct (decide (k = entry_key pid dn)) as [->|Hne].
    - right. split; [done|]. exists e. by rewrite lookup_insert_eq.
    - left. by rewrite lookup_insert_ne. }
  apply Hone in Hk, Ha. clear Hone.
  assert (D1 !! k = D !! k \/ D !! k = None /\ k = entry_key pid base /\ D1 !! k = Some (base, base_entry base sid)) as Hb'.
  { destruct Hb as [->| ->]; [by left|]. unfold add_entry. case_bool_decide; [|by left]. destruct (decide (k = entry_key pid base)) as [->|Hne].
    - right. by rewrite lookup_insert_eq.
    - left. by rewrite lookup_insert_ne. }
  destruct Ha as [Ha|(Hn3 & e & -> & HD3 & Hq & Hmade)]; destruct Hk as [Hk|(Hn2 & e' & Hkk & HD2 & Hq' & Hmade')]; try congruence.
  - rewrite Ha, Hk. destruct Hb' as [->|(Hn & -> & HD1)]; [by left|]. right. split; [done|]. exists base, (base_entry base sid). auto.
  - rewrite Ha. right. assert (D !! k = None) as Hn by (destruct Hb' as [<-|(Hn & _)]; done). split; [done|]. exists (ticket_service_dn s), e'. auto 10.
  - right. assert (D !! entry_key pid (administrator_dn s) = None) as Hn by (destruct Hb' as [<-|(Hn & _)]; congruence). split; [done|].
    exists (administrator_dn s), e. auto 10.
Qed.

Lemma account_step_extends (made : Entry -> Prop) D name dn D' :
  account_step made D name dn D' -> (forall e, made e -> name ∈ default [] (Entry.get e ATTR_PRINCIPAL_NAME)) ->
  D ⊆ D' /\ lacks D' name dn = false.
Proof.
  intros Hst' Hname. unfold account_step in Hst'. destruct (lacks D name dn) eqn:Hl; [|by subst].
  destruct Hst' as (e & Hmade & ->). unfold lacks in Hl. apply andb_true_iff in Hl as [_ Hk%bool_decide_eq_true].
  split; [by apply insert_subseteq|]. unfold lacks. rewrite has_principal_insert by done. by rewrite bool_decide_true by auto.
Qed.

Lemma lacks_mono D D' name dn : D ⊆ D' -> lacks D name dn = false -> lacks D' name dn = false.
Proof.
  unfold lacks. rewrite !andb_false_iff, !negb_false_iff, !bool_decide_eq_false, !has_principal_spec. intros Hsub [Hp|Hk]; [left|right].
  - destruct Hp as (k & dn' & e & HD & Hn). exists k, dn', e. split; [|done]. by eapply lookup_weaken.
  - destruct (D !! entry_key pid dn) as [x|] eqn:Hx; [|done]. by rewrite (lookup_weaken _ _ _ _ Hx Hsub).
Qed.

Lemma forest_steps R R1 R2 ps :
  List.map p_id ps = forest_ids -> (forall p, p ∈ ps -> p_id p = pid -> complete_record p) ->
  added R ps R1 -> root_filled R1 R2 -> forest_grown R R2.
Proof.
  intros Hids Hcomp Ha Hf id.
  assert (R1 !! id = R !! id \/ R !! id = None /\ id ∈ forest_ids /\ exists p, p ∈ ps /\ p_id p = id /\ R1 !! id = Some p) as H1'.
  { destruct (Ha id) as [|(Hn & p & Hp & Hid & HR)]; [by left|]. right. split; [done|]. split; [|eauto]. rewrite <- Hids, <- Hid.
    apply list_elem_of_fmap. by exists p. }
  destruct Hf as [->|(p & q & Hp & Hnc & Hfill & ->)].
  - destruct H1' as [|(Hn & Hin & p & _ & _ & HR)]; [by left|]. right. left. split_and!; [done|done|]. by exists p.
  - destruct (decide (id = pid)) as [->|Hne]; [|rewrite lookup_insert_ne by done].
    + rewrite lookup_insert_eq. destruct H1' as [Heq|(_ & _ & p' & Hin & Hid & HR)].
      * right. right. split; [done|]. exists p, q. by rewrite <- Heq.
      * exfalso. apply Hnc. assert (p = p') as -> by congruence. by apply Hcomp.
    + destruct H1' as [|(Hn & Hin & p' & _ & _ & HR)]; [by left|]. right. left. split_and!; [done|done|]. by exists p'.
Qed.

Lemma forest_ids_NoDup : NoDup forest_ids.
Proof.
  assert (schema_partition_id s <> pid) as Hsp.
  { unfold schema_partition_id. intros Heq%(f_equal length). rewrite length_app in Heq. cbn in Heq. lia. }
  assert (cid <> schema_partition_id s) as Hcs by (unfold config_partition_id, schema_partition_id; by intros Heq%app_inv_head).
  pose proof ids_differ as Hcp. unfold forest_ids. repeat (apply NoDup_cons; split); [set_solver..|constructor].
Qed.

(** The records a run starts from. *)
Lemma forest_records_ok config schema root :
  forest_records s cdn = Ok (config, schema, root) ->
  (partition_ok config /\ partition_ok schema /\ partition_ok root) /\ List.map p_id [config; schema; root] = forest_ids /\
  base_dn root = base /\ netbios_name root <> None.
Proof.
  unfold forest_records. unfold ForestId_new. rewrite (ho_id st Hst). cbn [map_err mbind result_bind].
  destruct config_dn_facts as (Hw & Hc & Hn & Hkey).
  destruct (configuration _ _ _ _) as [cp|] eqn:Hcp; [|done]. cbn [map_err mbind result_bind].
  rewrite (child_dn_of cdn (str "cn=schema," ++ Dn.to_string cdn) (str "schema") Hw Hn Hkey eq_refl eq_refl).
  cbn [map_err mbind result_bind]. destruct (Partition.schema _ _ _ _) as [sp|] eqn:Hspp; [|done]. cbn [map_err mbind result_bind].
  destruct (domain _ _ _ _) as [rp|] eqn:Hrp; [|done]. cbn [map_err mbind result_bind]. intros [= <- <- <-].
  destruct (builder_ok _ _ _ _ _ _ (or_intror (or_introl eq_refl)) Hcp (ho_id st Hst) Hw) as (Hcok & _ & Hci & _).
  destruct (builder_ok _ _ _ _ _ _ (or_intror (or_intror eq_refl)) Hspp (ho_id st Hst) (record_wf cdn Hw Hn Hkey (str "schema") eq_refl)) as (Hsok & _ & Hsi & _).
  destruct (builder_ok _ _ _ _ _ _ (or_introl eq_refl) Hrp (ho_id st Hst) (so_wf s Hs)) as (Hrok & Hrb & Hri & _).
  split; [split; [exact Hcok|split; [exact Hsok|exact Hrok]]|]. split; [|done].
  cbn [List.map]. unfold forest_ids. rewrite Hci, Hsi. cbn [p_id with_netbios_name with_realm]. by rewrite Hri.
Qed.

Lemma added_fill_names R ps R1 :
  added R ps R1 -> (forall p, p ∈ ps -> p_id p = pid -> complete_record p) -> fill_names R1 = fill_names R.
Proof.
  intros Ha Hc. unfold fill_names. destruct (Ha pid) as [->|(-> & p & Hp & Hid & ->)]; [done|].
  rewrite bool_decide_true; [done|]. exact (Hc p Hp Hid).
Qed.

Lemma base_step_lacks sid D D1 name id :
  base_step sid D D1 -> valid_id id = true -> lacks D1 name (record_of base id) = lacks D name (record_of base id).
Proof.
  intros Hb Hv. unfold lacks. rewrite (base_step_principal sid D D1 name Hb). destruct Hb as [->| ->]; [done|]. unfold add_entry.
  destruct (bool_decide (D !! entry_key pid base = None)); [|done]. rewrite lookup_insert_ne; [done|]. intros Heq. by apply (dn_keys_differ id).
Qed.

Lemma krbtgt_step_lacks sid D D' :
  weak_step (made_krbtgt sid) D (krbtgt_name s) (ticket_service_dn s) D' ->
  lacks D' (admin_name s) (administrator_dn s) = lacks D (admin_name s) (administrator_dn s).
Proof.
  intros Hk. unfold lacks at 1. rewrite (krbtgt_step_principal sid D D' Hk). destruct Hk as [->|Hk]; [done|]. unfold account_step in Hk.
  destruct (lacks D (krbtgt_name s) _); [|by subst]. destruct Hk as (e & _ & ->). rewrite lookup_insert_ne; [done|]. by apply child_keys_differ.
Qed.

Lemma entries_wp R1 D sid (t : rstring) (l1 l2 : list rstring) m :
  domain_state R1 D m -> Sid.parse t = Some sid ->
  wp (fun _ m' => exists D', dir_grown sid D D' /\ domain_state R1 D' m')
    (report3 <-? create_reported st base (base_entry base sid) (Dn.to_string base) ;;
     report4 <-? provision_krbtgt st s sid ;;
     report5 <-? provision_admin st s sid ;;
     Ret (Ok (mkReport (l1 ++ l2 ++ report3 ++ report4 ++ report5) t)))
    (fun rep m' => exists D', dir_grown sid D D' /\ domain_state R1 D' m' /\ r_domain_sid rep = t /\
       created rep = l1 ++ l2 ++ (if bool_decide (D !! entry_key pid base = None) then [Dn.to_string base] else []) ++
         account_names D (krbtgt_name s) (ticket_service_dn s) ++ account_names D (admin_name s) (administrator_dn s) /\
       D' !! entry_key pid base <> None /\ lacks D' (krbtgt_name s) (ticket_service_dn s) = false /\
       lacks D' (admin_name s) (administrator_dn s) = false) m.
Proof.
  intros Hm Ht. pose proof (parse_revision _ _ Ht) as Hrev.
  eapply wp_try; [apply (create_reported_wp R1 D); [done|apply own_base|by apply base_entry_wf|]|].
  { intros _ m' [Hm'|Hm']; (eexists; split; [|exact Hm']); [by eapply steps_grown; left|]. eapply steps_grown; [by right|by left|by left]. }
  intros l3 m1 [-> Hm1]. set (D1 := add_entry D base (base_entry base sid)) in *. assert (base_step sid D D1) as Hb by (by right).
  eapply wp_try; [apply (provision_krbtgt_wp R1 D1); [done|done|]|].
  { intros _ m' D' Hs' Hm'. eexists. split; [|exact Hm']. eapply steps_grown; [exact Hb|exact Hs'|by left]. }
  intros l4 m2 (-> & D2 & Hk & Hm2).
  eapply wp_try; [apply (provision_admin_wp R1 D2); [done|done|]|].
  { intros _ m' D' Hs' Hm'. eexists. split; [|exact Hm']. eapply steps_grown; [exact Hb|by right|exact Hs']. }
  intros l5 m3 (-> & D3 & Ha & Hm3). apply wp_ret. exists D3. split; [eapply steps_grown; [exact Hb|by right|by right]|]. split; [done|].
  destruct (account_step_extends _ _ _ _ _ Hk) as [Hs2 Hl2]; [intros e (pw & [-> _ _]); by apply list_elem_of_singleton|].
  destruct (account_step_extends _ _ _ _ _ Ha) as [Hs3 Hl3]; [intros e ([-> _ _] & _); by apply list_elem_of_singleton|].
  split_and!; [done| | |by eapply lacks_mono|done].
  - cbn [created]. unfold account_names. rewrite (krbtgt_step_lacks sid D1 D2) by (by right).
    unfold ticket_service_dn, administrator_dn. by rewrite !(base_step_lacks sid D D1) by done.
  - assert (is_Some (D1 !! entry_key pid base)) as [x Hx].
    { subst D1. unfold add_entry. case_bool_decide as Hn; [rewrite lookup_insert_eq; eauto|]. destruct (D !! _); [eauto|done]. }
    rewrite (lookup_weaken D1 D3 _ x Hx); [done|]. by transitivity D2.
Qed.

Lemma root_part_complete config schema root t :
  List.map p_id [config; schema; root] = forest_ids -> netbios_name root <> None ->
  forall p, p ∈ [config; schema; with_domain_sid t root] -> p_id p = pid -> complete_record p.
Proof.
  intros Hids Hnb p Hp Hpid. pose proof forest_ids_NoDup as Hnd. rewrite <- Hids in Hnd. cbn [List.map] in Hids, Hnd.
  injection Hids as Hi1 Hi2 Hi3. rewrite Hi1, Hi2, Hi3 in Hnd. apply NoDup_cons in Hnd as [Hn1 Hnd]. apply NoDup_cons in Hnd as [Hn2 _].
  apply elem_of_cons in Hp as [->|Hp]; [exfalso; apply Hn1; rewrite <- Hi1, Hpid; by repeat constructor|].
  apply elem_of_cons in Hp as [->|Hp]; [exfalso; apply Hn2; rewrite <- Hi2, Hpid; by repeat constructor|].
  apply list_elem_of_singleton in Hp as ->. by split.
Qed.

(** After a successful run no record is missing. *)
Lemma forest_done R ps R1 R2 t :
  List.map p_id ps = forest_ids -> added R ps R1 -> (forall p, p ∈ ps -> R1 !! p_id p = Some p \/ is_Some (R !! p_id p)) ->
  root_filled R1 R2 -> root_settled R2 t -> absent_names R2 forest_ids = [] /\ fill_names R2 = [].
Proof.
  intros Hids Ha Hin Hf (q & Hq & _ & _ & Hc & _). split.
  - unfold absent_names. rewrite <- Hids, map_map. apply concat_nil_Forall, Forall_forall. intros l (p & -> & Hp)%list_elem_of_fmap.
    rewrite bool_decide_false; [done|]. assert (is_Some (R1 !! p_id p)) as [x Hx].
    { destruct (Hin p Hp) as [->|Hsome]; [done|]. destruct (Ha (p_id p)) as [->|(Hn & _)]; [done|]. rewrite Hn in Hsome. by destruct Hsome. }
    destruct Hf as [->|(p0 & q0 & _ & _ & _ & ->)]; [by rewrite Hx|]. destruct (decide (p_id p = pid)) as [->|Hne]; [by rewrite lookup_insert_eq|].
    by rewrite lookup_insert_ne, Hx.
  - unfold fill_names. rewrite Hq. by rewrite bool_decide_true.
Qed.

Lemma provision_wp fresh_fips R D m :
  domain_state R D m ->
  wp (fun _ m' => exists R' D', domain_state R' D' m' /\ grown R D R' D') (provision fresh_fips st s)
    (fun rep m' => exists R' D', domain_state R' D' m' /\ grown R D R' D' /\ created rep = missing R D /\ missing R' D' = [] /\
       root_settled R' (r_domain_sid rep)) m.
Proof.
  intros Hm. assert (exists R' D', domain_state R' D' m /\ grown R D R' D') as Hnone by (exists R, D; split; [done|]; split; by left).
  unfold provision. apply wp_try with (Q := fun _ m' => m' = m); [apply wp_lift; by destruct fresh_fips|]. intros _ m0 ->.
  apply wp_try_ok with cdn; [apply config_dn_ok|].
  destruct (forest_records s cdn) as [[[config schema] root]|er] eqn:Hrec; [|by apply wp_err]. apply wp_try_ok with (config, schema, root); [done|].
  destruct (forest_records_ok _ _ _ Hrec) as ((Hc1 & Hs1 & Hr1) & Hids & _ & Hnb).
  apply wp_try with (Q := fun t m' => m' = m); [apply wp_map_err; intros r0 m0 [-> Hr0]%generate_runs; by destruct r0|].
  intros t0 m0 ->. pose proof (root_part_complete config schema root t0 Hids Hnb) as Hcomp.
  assert (partition_ok (with_domain_sid t0 root)) as Hr2 by exact Hr1.
  assert (List.map p_id [config; schema; with_domain_sid t0 root] = forest_ids) as Hids' by exact Hids.
  assert (Forall partition_ok [config; schema; with_domain_sid t0 root]) as Hok.
  { apply Forall_cons; split; [done|]. apply Forall_cons; split; [done|]. by apply Forall_singleton. }
  revert Hcomp Hids' Hok. generalize ([config; schema; with_domain_sid t0 root]). intros ps Hcomp Hids' Hok.
  eapply wp_try; [apply (create_records_wp R D ps); [done|done|rewrite Hids'; apply forest_ids_NoDup|]|].
  { intros _ m' R' Ha Hm'. exists R', D. split; [done|]. split; [|by left]. eapply forest_steps; [done|done|exact Ha|by left]. }
  intros l1 m1 (-> & R1 & Ha & Hin & Hm1).
  eapply wp_try; [apply (settle_root_wp fresh_fips R1 D); [done|]|].
  { intros _ m' R' Hf Hm'. exists R', D. split; [done|]. split; [|by left]. by eapply forest_steps. }
  intros [l2 t] m2 (Hl2 & R2 & Hf & Hset & Hm2). cbn [fst snd] in Hl2, Hset. subst l2. assert (forest_grown R R2) as Hg by (by eapply forest_steps).
  destruct (Sid.parse t) as [sid|] eqn:Ht; [|apply wp_err; exists R2, D; split; [done|]; split; [done|by left]]. apply wp_try_ok with sid; [done|].
  intros r m' Hr. apply (entries_wp R2 D sid t) in Hr; [|done|done]. destruct r as [rep|er].
  - destruct Hr as (D' & HD & Hm' & Hsid & Hrep & Hb & Hk & Had). exists R2, D'. split; [done|]. split; [split; [done|right; by exists t, sid]|].
    destruct (forest_done R ps R1 R2 t Hids' Ha Hin Hf Hset) as [Hd1 Hd2]. rewrite Hrep, Hsid, Hids', (added_fill_names R ps R1 Ha Hcomp).
    split; [done|]. split; [|done]. unfold missing, account_names. by rewrite Hd1, Hd2, Hk, Had, bool_decide_false.
  - destruct Hr as (D' & HD & Hm'). exists R2, D'. split; [done|]. split; [done|]. right. by exists t, sid.
Qed.

(** C19: Provisioning creates what is missing and nothing else.  However it
    ends, existing entries and records are as they were, except that a root
    record without a SID or NetBIOS name has got them; new entries are the
    domain object, the ticket service and the administrator, each only if it
    was not there, with SIDs of the domain, keys of their secrets, and for the
    administrator a password that binds.  A run that succeeds reports exactly
    what was missing, leaves nothing missing, and names the SID of the stored
    root record, whose realm and base DN are the configured ones. *)
Theorem provision_correct fresh_fips R D m r m' :
  domain_state R D m -> runs (provision fresh_fips st s) m r m' ->
  exists R' D', domain_state R' D' m' /\ grown R D R' D' /\
    forall rep, r = Ok rep -> created rep = missing R D /\ missing R' D' = [] /\ root_settled R' (r_domain_sid rep).
Proof.
  intros Hm Hr. apply (provision_wp fresh_fips R D m Hm) in Hr. destruct r as [rep|er].
  - destruct Hr as (R' & D' & Hm' & Hg & Hrest). exists R', D'. split; [done|]. split; [done|]. by intros rep' [= <-].
  - destruct Hr as (R' & D' & Hm' & Hg). exists R', D'. by split_and!.
Qed.

Lemma grown_nothing R D R' D' : missing R D = [] -> grown R D R' D' -> R' = R /\ D' = D.
Proof.
  unfold missing. intros (Ha & (Hf & (Hb & (Hk & Had)%app_nil)%app_nil)%app_nil)%app_nil [HR HD].
  assert (D !! entry_key pid base <> None) as Hb' by (intros Hx; by rewrite bool_decide_true in Hb).
  unfold account_names in Hk, Had. destruct (lacks D (krbtgt_name s) _) eqn:Hlk; [done|]. destruct (lacks D (admin_name s) _) eqn:Hla; [done|].
  unfold lacks in Hlk, Hla. split.
  - apply map_eq. intros id. destruct (HR id) as [|[(Hn & Hin & _)|(-> & p & q & Hp & Hnc & _)]]; [done|..]; exfalso.
    + unfold absent_names in Ha. apply concat_nil_Forall in Ha. rewrite Forall_forall in Ha.
      specialize (Ha [partition_name id]). discriminate Ha. apply list_elem_of_fmap. exists id. by rewrite bool_decide_true.
    + unfold fill_names in Hf. rewrite Hp in Hf. by rewrite bool_decide_false in Hf.
  - destruct HD as [|(t & sid & _ & _ & HD)]; [done|]. apply map_eq. intros k. destruct (HD k) as [|(Hn & dn & e & -> & _ & Hcase)]; [done|]. exfalso.
    destruct Hcase as [[-> _]|[(-> & Hp & _)|(-> & Hp & _)]]; [done|..].
    + rewrite Hp in Hlk. by rewrite bool_decide_true in Hlk.
    + rewrite Hp in Hla. by rewrite bool_decide_true in Hla.
Qed.

(** C22: A second run does nothing: on a store where nothing is missing, as a
    successful run leaves it, every later run keeps the records and the
    entries exactly as they are, whatever fails, and reports nothing created. *)
Theorem provision_idempotent fresh_fips R D m r m' :
  domain_state R D m -> missing R D = [] -> runs (provision fresh_fips st s) m r m' ->
  domain_state R D m' /\ forall rep, r = Ok rep -> created rep = [] /\ root_settled R (r_domain_sid rep).
Proof.
  intros Hm Hnone Hr. apply (provision_wp fresh_fips R D m Hm) in Hr. destruct r as [rep|er].
  - destruct Hr as (R' & D' & Hm' & Hg & Hc & _ & Hset). destruct (grown_nothing R D R' D' Hnone Hg) as [-> ->]. split; [done|].
    intros rep' [= <-]. by rewrite Hc.
  - destruct Hr as (R' & D' & Hm' & Hg). destruct (grown_nothing R D R' D' Hnone Hg) as [-> ->]. by split.
Qed.
End settings.

(** The program waits until the store answers, and goes on with it. *)
Lemma wait_succeeds `{EntryCodec} `{!PartitionJson} s net n attempt st :
  (forall i, (attempt <= i < attempt + n)%nat -> forall st', boot_connect (n_connect (net i)) s = Ok st' -> ping (n_status (net i)) st' <> Ok tt) ->
  boot_connect (n_connect (net (attempt + n)%nat)) s = Ok st -> ping (n_status (net (attempt + n)%nat)) st = Ok tt ->
  wait_for_store (S n) net attempt s = Some st.
Proof.
  revert attempt. induction n as [|n IH]; intros attempt Hbusy Hc Hp.
  { rewrite Nat.add_0_r in Hc, Hp. cbn [wait_for_store]. by rewrite Hc, Hp. }
  change (wait_for_store (S (S n)) net attempt s) with
    (match boot_connect (n_connect (net attempt)) s with
     | Ok st => match ping (n_status (net attempt)) st with Ok _ => Some st | Err _ => wait_for_store (S n) net (S attempt) s end
     | Err _ => wait_for_store (S n) net (S attempt) s
     end).
  assert (wait_for_store (S n) net (S attempt) s = Some st) as Hnext.
  { apply IH; [intros i Hi; apply Hbusy; lia|by rewrite Nat.add_succ_l, <- Nat.add_succ_r..]. }
  destruct (boot_connect (n_connect (net attempt)) s) as [st'|] eqn:Hst; [|done].
  destruct (ping (n_status (net attempt)) st') as [[]|] eqn:Hping; [|done]. exfalso. eapply Hbusy; [|exact Hst|exact Hping]. lia.
Qed.

(** ** Examples *)

#[local] Existing Instance bit_codec.
#[local] Existing Instance bit_partitions.
#[local] Existing Instance demo_ssl.
#[local] Existing Instance demo_ssl_laws.
#[local] Existing Instance hex_base64.

Definition ex_settings : Settings :=
  mkSettings (str "http://a:2379") (str "g10") (dn_of (str "dc=g10,dc=lo")) (str "G10.LO") (str "G10") (str "correcthorse").

Lemma ex_settings_ok : settings_ok ex_settings.
Proof.
  constructor; [apply dn_wfb_sound; vm_compute; reflexivity|by_decide|discriminate|apply keyedb_sound; vm_compute; reflexivity| |apply str_ok_str].
  intros r a Hr Ha. assert (r = mkRdn [mkAva (str "dc") (str "g10") (str "g10")]) as -> by (vm_compute in Hr |- *; congruence).
  assert (a = mkAva (str "dc") (str "g10") (str "g10")) as -> by (vm_compute in Ha |- *; congruence). apply str_ok_str.
Qed.

Definition ex_boot_store : Store := Eval vm_compute in
  match boot_connect (fun _ => Ok tt) ex_settings with Ok st => st | Err _ => mkStore Registry.new [] end.

Lemma ex_boot_hosted : hosted ex_settings ex_boot_store.
Proof. apply (connect_hosted ex_settings ex_settings_ok (fun _ => Ok tt)). vm_compute. reflexivity. Qed.

Definition ex_provision (m : kvstore) := exec zeros (provision (Ok tt) ex_boot_store ex_settings) m.

Lemma ex_provision_runs m : runs (provision (Ok tt) ex_boot_store ex_settings) m (ex_provision m).1 (ex_provision m).2.
Proof. apply exec_runs, zeros_ok. Qed.

Lemma ex_empty_domain : domain_state ex_settings ∅ ∅ ∅.
Proof. split; [apply config_holds_empty|apply repr_empty]. Qed.

(** The first run on an empty store. *)
Lemma provision_correct_witness :
  created <$> (ex_provision ∅).1 = Ok (missing ex_settings ∅ ∅) /\
  missing ex_settings ∅ ∅ = [str "partition g10-config"; str "partition g10-schema"; str "partition g10"; str "dc=g10,dc=lo";
    str "krbtgt/G10.LO@G10.LO"; str "administrator@G10.LO"] /\
  exists R' D', domain_state ex_settings R' D' (ex_provision ∅).2 /\ missing ex_settings R' D' = [].
Proof.
  assert (is_ok (ex_provision ∅).1 = true) as Hok by (vm_compute; reflexivity). destruct (ex_provision ∅).1 as [rep|] eqn:Hrep; [|discriminate Hok].
  destruct (provision_correct ex_settings ex_settings_ok ex_boot_store ex_boot_hosted (Ok tt) ∅ ∅ ∅ (ex_provision ∅).1 (ex_provision ∅).2) as (R' & D' & Hm & _ & Hdone).
  - exact ex_empty_domain.
  - apply ex_provision_runs.
  - destruct (Hdone rep Hrep) as (Hc & Hn & _). split; [by rewrite <- Hc|]. split; [vm_compute; reflexivity|]. exists R', D'. split; [exact Hm|exact Hn].
Defined.

(** The state after the first run. *)
Lemma ex_provisioned : exists R' D', domain_state ex_settings R' D' (ex_provision ∅).2 /\ missing ex_settings R' D' = [].
Proof.
  assert (is_ok (ex_provision ∅).1 = true) as Hok by (vm_compute; reflexivity).
  pose proof (provision_wp ex_settings ex_settings_ok ex_boot_store ex_boot_hosted (Ok tt) ∅ ∅ ∅ ex_empty_domain (ex_provision ∅).1 (ex_provision ∅).2) as Hw.
  destruct (ex_provision ∅).1 as [rep|] eqn:Hrep; [|discriminate Hok].
  destruct Hw as (R' & D' & Hm & _ & _ & Hn & _); [|exists R', D'; split; [exact Hm|exact Hn]]. rewrite <- Hrep. apply ex_provision_runs.
Qed.

(** The second run finds nothing to do. *)
Lemma provision_idempotent_witness :
  is_ok (ex_provision (ex_provision ∅).2).1 = true /\
  exists R' D', domain_state ex_settings R' D' (ex_provision ∅).2 /\ domain_state ex_settings R' D' (ex_provision (ex_provision ∅).2).2 /\
    forall rep, (ex_provision (ex_provision ∅).2).1 = Ok rep -> created rep = [].
Proof.
  split; [vm_compute; reflexivity|]. destruct ex_provisioned as (R' & D' & Hm & Hn). exists R', D'. split; [exact Hm|].
  destruct (provision_idempotent ex_settings ex_settings_ok ex_boot_store ex_boot_hosted (Ok tt) R' D' (ex_provision ∅).2
    (ex_provision (ex_provision ∅).2).1 (ex_provision (ex_provision ∅).2).2 Hm Hn) as [Hm' Hrep].
  - apply ex_provision_runs.
  - split; [exact Hm'|]. intros rep Hr. apply (Hrep rep Hr).
Defined.
