(* ===== verification/BootstrapRace.v ===== *)
(** Several members provisioning one directory at the same time: a logic for
    programs that share one key, and that all members report one domain SID. *)

From S2P Require Import Prelude Bytes Str Btree Utf8 Decimal Dn Partition Key Registry Sid SecurityDescriptor Entry Etcd Index Store.
From S2P Require Import Directory Nfold Kerberos Md4 Password Principal BinaryAttrs Krb Kdc Gc GcReplica Config ConfigSpec ConfigCtl Bootstrap BootstrapSpec.

(** ** Programs in company

    Every program may read the key [K], and write it once, with a good value,
    while it is absent.  What is known of the key, [Some v] or nothing, then
    stays true whatever the others do. *)
Section company.
  Context (K : rstring) (good : bytes -> Prop).
  Implicit Types (m : kvstore) (k : option bytes).

Definition key_good m : Prop := forall v, m !! K = Some v -> good v.
Definition known k m : Prop := forall v, k = Some v -> m !! K = Some v.

Fixpoint together {A : Type} (p : prog A) k (Q : A -> option bytes -> Prop) : Prop :=
  match p with
  | Ret a => Q a k
  | Call r f => forall m rep m', key_good m -> known k m -> served m r rep m' ->
      key_good m' /\ (forall v, m !! K = Some v -> m' !! K = Some v) /\ together (f rep) (m' !! K) Q
  end.

Lemma together_mono {A : Type} (p : prog A) k (Q Q' : A -> option bytes -> Prop) :
  together p k Q -> (forall a k', (forall v, k = Some v -> k' = Some v) -> Q a k' -> Q' a k') -> together p k Q'.
Proof.
  revert k. induction p as [a|r f IH]; intros k Hp HQ; cbn in *; [by apply HQ|]. intros m rep m' Hg Hk Hs.
  destruct (Hp m rep m' Hg Hk Hs) as (Hg' & Hkeep & Hf). split_and!; [done|done|]. eapply IH; [exact Hf|]. intros a k' Hk' Ha. apply HQ; [|done]. auto.
Qed.

Lemma together_bind {A B : Type} (f : A -> prog B) (p : prog A) k Q :
  together p k (fun a k' => together (f a) k' Q) -> together (prog_bind_ f p) k Q.
Proof.
  revert k. induction p as [a|r g IH]; intros k Hp; cbn in *; [done|]. intros m rep m' Hg Hk Hs.
  destruct (Hp m rep m' Hg Hk Hs) as (Hg' & Hkeep & Hf). split_and!; [done|done|]. by apply IH.
Qed.

Lemma together_try {E A B : Type} (f : A -> prog (result E B)) (p : prog (result E A)) k Q :
  together p k (fun r k' => match r with Ok a => together (f a) k' Q | Err e => Q (Err e) k' end) -> together (try_bind p f) k Q.
Proof. intros Hp. apply together_bind. eapply together_mono; [exact Hp|]. by intros [a|e] k' _. Qed.

Lemma together_ok {E A B : Type} (x : result E A) a (f : A -> prog (result E B)) k Q :
  x = Ok a -> together (f a) k Q -> together (try_bind (lift x) f) k Q.
Proof. by intros ->. Qed.

Lemma together_map_err {E F A : Type} (g : E -> F) (p : prog (result E A)) k Q :
  together p k (fun r k' => Q (map_err g r) k') -> together (prog_map_err g p) k Q.
Proof. intros Hp. by apply together_bind. Qed.

(** A program that leaves the key alone. *)
Lemma together_frame {A : Type} (P : rstring -> Prop) (p : prog A) k :
  touches P p -> ~ P K -> together p k (fun _ k' => forall v, k = Some v -> k' = Some v).
Proof.
  intros Ht HK. revert k. induction p as [a|r f IH]; intros k; cbn in *; [done|]. intros m rep m' Hg Hk Hs. destruct Ht as [Hr Hf].
  pose proof (served_frame P m r rep m' K Hs Hr HK) as Hm. split_and!; [intros v; rewrite Hm; apply Hg|by rewrite Hm|].
  eapply together_mono; [by apply IH|]. cbn beta. intros a k' _ Hk' v Hv. apply Hk'. rewrite Hm. by apply Hk.
Qed.

(** Sequencing after such a program. *)
Lemma together_skip {E A B : Type} (P : rstring -> Prop) (p : prog (result E A)) (f : A -> prog (result E B)) k Q :
  touches P p -> ~ P K ->
  (forall a k', (forall v, k = Some v -> k' = Some v) -> together (f a) k' Q) -> (forall e k', Q (Err e) k') -> together (try_bind p f) k Q.
Proof.
  intros Ht HK Hf He. apply together_try. eapply together_mono; [by apply (together_frame P)|]. intros [a|e] k' _ Hk'; [by apply Hf|apply He].
Qed.

(** A guarded creation of the key. *)
Lemma together_create {A : Type} v (rest : list txn_op) k (f : reply (Txn [VersionZero K] (OpPut K v :: rest)) -> prog A) Q :
  good v -> Forall (fun key => key <> K) (List.map (fun o => match o with OpPut key _ | OpDelete key => key end) rest) ->
  (forall rep k', (forall b, rep = Ok b -> exists w, k' = Some w /\ good w) -> together (f rep) k' Q) ->
  together (Call (Txn [VersionZero K] (OpPut K v :: rest)) f) k Q.
Proof.
  intros Hv Hrest Hf m rep m' Hg _ Hs. cbn [served forallb compare_holds] in Hs. rewrite andb_true_r in Hs.
  assert (apply_ops (OpPut K v :: rest) m !! K = Some v) as Hpost.
  { change (apply_ops rest (<[K := v]> m) !! K = Some v).
    rewrite (apply_ops_frame (fun key => key <> K)); [by rewrite lookup_insert_eq|done|by intros []]. }
  assert (key_good (apply_ops (OpPut K v :: rest) m)) as Hg' by (intros w Hw; rewrite Hpost in Hw; by injection Hw as <-).
  case_bool_decide as Habs; destruct Hs as [[-> ->]|(er & -> & [->| ->])]; (split_and!; [done|intros w Hw; congruence|]); apply Hf; try done; intros b _.
  - by exists v.
  - destruct (m !! K) as [w|] eqn:Hw; [|done]. exists w. split; [done|]. by apply Hg.
Qed.

(** Whatever the interleaving, the results are as promised. *)
Lemma company {A : Type} (Q : A -> option bytes -> Prop) m ps (c : config A) :
  key_good m -> Forall (fun p => together p None Q) ps -> rtc Etcd.step (mkConfig m ps) c ->
  key_good (cfg_store c) /\ forall i a, cfg_procs c !! i = Some (Ret a) -> exists k, known k (cfg_store c) /\ Q a k.
Proof.
  intros Hg Hps Hrtc.
  assert (key_good (cfg_store c) /\ forall i p, cfg_procs c !! i = Some p -> exists k, known k (cfg_store c) /\ together p k Q) as [Hg' Hall].
  2:{ split; [done|]. intros i a Hi. by apply (Hall i (Ret a)). }
  remember (mkConfig m ps) as c0 eqn:Hc0.
  assert (key_good (cfg_store c0) /\ forall i p, cfg_procs c0 !! i = Some p -> exists k, known k (cfg_store c0) /\ together p k Q) as Hinit.
  { subst c0. cbn. split; [done|]. intros i p Hi. exists None. split; [done|]. by eapply Forall_lookup_1 in Hps. }
  clear Hc0 Hg Hps. revert Hinit. induction Hrtc as [c|c0 c1 c2 Hstep _ IH]; intros Hinit; [done|]. apply IH. clear IH.
  destruct Hstep as [m0 ps0 i r f rep m' Hi Hs]. cbn in *. destruct Hinit as [Hg Hall]. destruct (Hall i _ Hi) as (k & Hk & Ht). cbn in Ht.
  destruct (Ht m0 rep m' Hg Hk Hs) as (Hg' & Hkeep & Hf). split; [done|]. intros j p Hj. destruct (decide (i = j)) as [<-|Hne].
  - rewrite list_lookup_insert_eq in Hj by (by eapply lookup_lt_Some). injection Hj as <-. exists (m' !! K). split; [by intros v|done].
  - rewrite list_lookup_insert_ne in Hj by done. destruct (Hall j p Hj) as (k' & Hk' & Ht'). exists k'. split; [|done]. intros v Hv. by apply Hkeep, Hk'.
Qed.
End company.

(** ** Provisioning in company *)

(** A creation sends the key of its entry and index keys. *)
Lemma create_touches_own `{EntryCodec} pid dn e spec :
  touches (fun key => key = entry_key pid dn \/ starts_with (idx_root pid) key = true) (create_entry_indexed pid dn e spec).
Proof.
  apply touches_txn. cbn [request_keys List.map app]. constructor; [by left|]. constructor; [by left|]. rewrite map_map.
  apply Forall_forall. intros key (key' & -> & Hin)%list_elem_of_fmap. right. by eapply keys_of_idx.
Qed.

Lemma touches_mono {A : Type} (P P' : rstring -> Prop) (p : prog A) : touches P p -> (forall key, P key -> P' key) -> touches P' p.
Proof.
  intros Hp HP. induction p as [a|r f IH]; [done|]. destruct Hp as [Hr Hf]. split; [by eapply Forall_impl|]. intros rep. by apply IH.
Qed.

Section race.
  Context `{EntryCodec} `{!PartitionJson} `{!OpenSsl, !OpenSslLaws} `{!Base64} (s : Settings) (Hs : settings_ok s) (st : Store) (Hst : hosted s st).
  Local Abbreviation pid := (partition_id s).
  Local Abbreviation cid := (config_partition_id s).
  Local Abbreviation cdn := (configuration_dn s).
  Implicit Types (v : bytes) (p q : Partition) (k : option bytes).

(** The key of the root domain's record. *)
Definition root_key : rstring := entry_key cid (record_of cdn pid).
Local Abbreviation together := (together root_key).

(** A complete root record, as stored. *)
Definition record_value v p : Prop :=
  p_id p = pid /\ partition_ok p /\ complete_record p /\ exists e, partition_to_entry p = Ok e /\ v = encode e.
Definition root_value v : Prop := exists p, record_value v p.

Lemma record_value_inj v p q : record_value v p -> record_value v q -> p = q.
Proof.
  intros (_ & Hp & _ & e & He & ->) (_ & Hq & _ & e' & He' & Heq).
  destruct (partition_to_entry_ok p e Hp He) as [Hw Hb]. destruct (partition_to_entry_ok q e' Hq He') as [Hw' Hb'].
  assert (e = e') as -> by (apply (f_equal decode) in Heq; rewrite !decode_encode in Heq by done; congruence).
  specialize (Hb cdn). specialize (Hb' cdn). congruence.
Qed.

Lemma root_key_range : in_range cid root_key.
Proof. apply entry_key_range. Qed.

Lemma domain_range_other : ~ in_range pid root_key.
Proof.
  intros Hr. apply (ids_differ s). symmetry. eapply in_range_disjoint; [apply (ho_id s st Hst)|apply (ho_config s st Hst)|exact Hr|apply root_key_range].
Qed.

(** Creating another record leaves the root's alone. *)
Lemma create_other_touches p :
  valid_id (p_id p) = true -> p_id p <> pid -> touches (fun key => key <> root_key) (create_partition st cdn config_index_spec p).
Proof.
  intros Hv Hne. destruct (config_dn_facts s Hs) as (Hw & Hc & Hn & Hk). unfold create_partition. rewrite (record_dn_ok cdn Hw Hn Hk) by done.
  cbn [lift try_bind prog_bind_]. destruct (partition_to_entry p) as [e|]; cbn [lift try_bind prog_bind_]; [|done].
  apply touches_map_err. unfold Store.create_entry. rewrite (in_config cid cdn (ho_config s st Hst) st (ho_serves s st Hst)) by apply record_within.
  assert (entry_key cid (record_of cdn (p_id p)) <> root_key) as Hkey.
  { intros Heq. apply Hne. unfold root_key in Heq. apply entry_key_equiv in Heq; [by eapply record_equiv_inj|apply record_keyed..]; try done. apply Hst. }
  eapply touches_mono; [apply create_touches_own|]. intros key [->|Hi] Heq; [by apply Hkey|]. subst key. revert Hi.
  unfold root_key. by rewrite tree_not_idx by apply entry_key_in_tree.
Qed.

(** Afterwards the root's record is known. *)
Lemma create_root_together p k :
  p_id p = pid -> partition_ok p -> complete_record p ->
  together root_value (create_partition st cdn config_index_spec p) k (fun r k' => forall b, r = Ok b -> exists v, k' = Some v /\ root_value v).
Proof.
  intros Hid Hp Hc. destruct (config_dn_facts s Hs) as (Hw & Hch & Hn & Hk). unfold create_partition. rewrite (record_dn_ok cdn Hw Hn Hk) by exact (proj1 Hp).
  cbn [lift try_bind prog_bind_]. destruct (partition_to_entry p) as [e|] eqn:He; cbn [lift try_bind prog_bind_]; [|done].
  apply together_map_err. unfold Store.create_entry. rewrite (in_config cid cdn (ho_config s st Hst) st (ho_serves s st Hst)) by apply record_within.
  unfold create_entry_indexed, etcd_txn. rewrite Hid. fold root_key. apply together_create.
  - exists p. split_and!; try done. by exists e.
  - rewrite map_map. apply Forall_forall. intros key (key' & -> & Hin)%list_elem_of_fmap Heq. apply keys_of_idx in Hin. rewrite Heq in Hin. revert Hin.
    unfold root_key. by rewrite tree_not_idx by apply entry_key_in_tree.
  - intros rep k' Hk' b Hb. apply (Hk' b). destruct rep; cbn [map_err] in Hb; congruence.
Qed.

Lemma get_together n key prefix v good :
  together good (get_attempts n key prefix) (Some v)
    (fun r k' => k' = Some v /\ forall rows, r = Ok rows -> exists m : kvstore, m !! root_key = Some v /\ rows = read m key prefix).
Proof.
  induction n as [|n IH]; cbn [get_attempts]; intros m rep m' Hg Hk Hserved; destruct Hserved as [-> Hrep]; specialize (Hk v eq_refl);
    (split_and!; [done|done|]); rewrite Hk.
  - cbn. split; [done|]. intros rows ->. destruct Hrep as [[= ->]|[e ?]]; [by exists m|done].
  - destruct Hrep as [->|[e ->]]; [cbn; split; [done|]; intros rows [= <-]; by exists m|].
    destruct e; cbn; try done. by destruct (code =? GRPC_UNAVAILABLE).
Qed.

Lemma root_key_scanned : starts_with (subtree_prefix cid cdn) root_key = true.
Proof.
  destruct (config_dn_facts s Hs) as (Hw & Hch & Hn & Hk). unfold root_key.
  assert (keyed (record_of cdn pid)) as Hkr by (apply record_keyed; try done; apply Hst).
  rewrite subtree_prefix_scan; [|apply Hk|apply Hkr|done]. unfold is_strict_descendant_of. rewrite record_within.
  rewrite andb_true_r. apply Nat.ltb_lt. cbn [rdns record_of length]. lia.
Qed.

(** The registry of a scan that saw the record has it. *)
Lemma scanned_record v p rows l ps reg :
  record_value v p -> (root_key, v) ∈ rows -> try_map (decode_row cid) rows = Ok l -> collect_partitions cdn l = Ok ps ->
  from_partitions ps = Ok reg -> Registry.get reg pid = Some p.
Proof.
  intros (Hid & Hp & _ & e & He & ->) Hin Hl Hps Hreg. destruct (partition_to_entry_ok p e Hp He) as [Hwe Hback].
  destruct (config_dn_facts s Hs) as (Hw & Hch & Hn & Hk).
  assert (keyed (record_of cdn pid)) as [Hks Hkp] by (apply record_keyed; try done; apply Hst).
  destruct (dn_from_tree_key_entry_key cid (record_of cdn pid) Hks Hkp) as (dn & Hdn & Heq).
  assert ((dn, e) ∈ l) as Hrow.
  { apply try_map_ok in Hl. apply list_elem_of_lookup in Hin as [i Hi]. eapply Forall2_lookup_l in Hl as (x & Hx & Hd); [|exact Hi].
    unfold decode_row in Hd. cbn [fst snd] in Hd. fold root_key in Hdn. rewrite Hdn in Hd. cbn [mbind result_bind] in Hd.
    rewrite decode_encode in Hd by done. cbn [map_err mbind result_bind] in Hd. injection Hd as <-. by eapply list_elem_of_lookup_2. }
  assert (p ∈ ps) as Hps'.
  { clear Hl Hin Hreg. revert ps Hps. induction l as [|[d x] l IH]; intros ps Hps; [by apply elem_of_nil in Hrow|].
    cbn [collect_partitions] in Hps. apply elem_of_cons in Hrow as [[= <- <-]|Hrow].
    - assert (dn_eq dn cdn = false) as Hne.
      { apply not_true_iff_false. intros Hd%dn_eq_spec. apply (record_not_base cdn pid). transitivity dn; [by symmetry|done]. }
      rewrite Hne, Hback in Hps. cbn [andb mbind result_bind] in Hps. destruct (collect_partitions cdn l); [|done]. injection Hps as <-. by left.
    - destruct (dn_eq d cdn && _); [by apply IH|]. destruct (entry_to_partition d x) as [q|]; [|done]. cbn [mbind result_bind] in Hps.
      destruct (collect_partitions cdn l) as [ps'|]; [|done]. injection Hps as <-. right. by apply IH. }
  apply (try_fold_insert_get ps Registry.new reg pid) in Hreg as (Hnd & _ & ->).
  destruct (List.find (fun q => bool_decide (p_id q = pid)) ps) as [q|] eqn:Hf.
  - apply find_some in Hf as [Hq Hqi%bool_decide_eq_true]. apply list_elem_of_In in Hq. f_equal.
    clear -Hnd Hps' Hq Hid Hqi. induction ps as [|x ps IH]; [by apply elem_of_nil in Hq|]. cbn [List.map] in Hnd. apply NoDup_cons in Hnd as [Hx Hnd].
    assert (forall y, y ∈ ps -> p_id y <> p_id x) as Hno by (intros y Hy Heq; apply Hx; rewrite <- Heq; apply list_elem_of_fmap; by exists y).
    apply elem_of_cons in Hq as [->|Hq]; apply elem_of_cons in Hps' as [->|Hp']; [done|..|by apply IH]; exfalso; eapply Hno; eauto; congruence.
  - exfalso. apply list_elem_of_In in Hps'. pose proof (find_none _ _ Hf p Hps') as Hx. cbn beta in Hx. by rewrite bool_decide_true in Hx.
Qed.

Lemma scan_together v :
  together root_value (Index.scan_subtree cid cdn) (Some v) (fun r k' => k' = Some v /\ forall rows, r = Ok rows -> (root_key, v) ∈ rows).
Proof.
  unfold Index.scan_subtree. apply together_try, together_map_err.
  eapply together_mono; [apply get_together|]. cbn beta. intros r k' _ [-> Hrows]. destruct r as [out|e]; cbn [map_err]; [|by split].
  destruct (Hrows out eq_refl) as (m & Hm & Hout). unfold Index.get_entry. apply together_try, together_try, together_map_err.
  eapply together_mono; [apply get_together|]. cbn beta. intros r k' _ [-> _]. destruct r as [b|e]; cbn [map_err]; [|by split].
  split; [done|]. intros rows Hr. assert ((root_key, v) ∈ out) as Hin by (rewrite Hout; apply read_prefix_elem; split; [done|apply root_key_scanned]).
  destruct (snd <$> head b); injection Hr as <-; [by apply elem_of_cons; right|done].
Qed.

Lemma load_together v p :
  record_value v p ->
  together root_value (load_registry st cdn) (Some v) (fun r k' => k' = Some v /\ forall reg, r = Ok reg -> Registry.get reg pid = Some p).
Proof.
  intros Hv. unfold load_registry, Store.scan_subtree. rewrite (in_config cid cdn (ho_config s st Hst) st (ho_serves s st Hst)) by apply is_within_refl.
  apply together_try, together_map_err, together_try. eapply together_mono; [apply scan_together|].
  cbn beta. intros r k' _ [-> Hrows]. destruct r as [rows|e]; [|by split]. specialize (Hrows rows eq_refl).
  change (match map_err CStore (try_map (decode_row cid) rows) with
    | Ok l => together root_value (partitions <-? lift (collect_partitions cdn l) ;; lift (map_err CRegistry (from_partitions partitions))) (Some v)
        (fun r k' => k' = Some v /\ forall reg, r = Ok reg -> Registry.get reg pid = Some p)
    | Err e => Some v = Some v /\ forall reg, Err e = Ok reg -> Registry.get reg pid = Some p end).
  destruct (try_map (decode_row cid) rows) as [l|] eqn:Hl; [|by split]. cbn [map_err].
  destruct (collect_partitions cdn l) as [ps|] eqn:Hps; [|by split]. split; [done|]. intros reg Hreg.
  destruct (from_partitions ps) as [reg'|] eqn:Hr; [|done]. injection Hreg as <-. by eapply scanned_record.
Qed.

(** A complete record is used as it is. *)
Lemma settle_together fresh_fips v p :
  record_value v p ->
  together root_value (settle_root fresh_fips st s cdn) (Some v)
    (fun r k' => k' = Some v /\ forall l t, r = Ok (l, t) -> domain_sid p = Some t).
Proof.
  intros Hv. unfold settle_root. apply together_try, together_map_err. eapply together_mono; [by apply (load_together v p)|].
  cbn beta. intros r k' _ [-> Hreg]. destruct r as [reg|e]; [|by split]. specialize (Hreg reg eq_refl). cbn [map_err].
  unfold PartitionId_new. rewrite (ho_id s st Hst). cbn [map_err lift try_bind prog_bind_]. rewrite Hreg. cbn [ok_or lift try_bind prog_bind_].
  destruct (check_matches p s) as [[]|]; [|by split]. cbn [lift try_bind prog_bind_]. destruct Hv as (_ & _ & [Hd Hn] & _).
  unfold filled_record. rewrite (bool_decide_false (domain_sid p = None)) by done. cbn [try_bind prog_bind_].
  rewrite (bool_decide_false (netbios_name p = None)) by done. cbn [try_bind prog_bind_]. rewrite (bool_decide_true (p = p)) by done. cbn [try_bind prog_bind_]. split; [done|]. intros l t Hr. destruct (domain_sid p) as [t'|]; [|done]. cbn in Hr. congruence.
Qed.

(** *** The rest of a run stays in the domain's partition *)

Lemma generate_touches (P : rstring -> Prop) fresh_fips : touches P (generate_domain_sid fresh_fips).
Proof. unfold generate_domain_sid. apply touches_try; [done|]. intros []. apply touches_try; [|done]. split; [done|]. by intros []. Qed.

Lemma domain_op_touches {A : Type} dn (op : PartitionId -> prog (result (StoreError json_error) A)) :
  is_within dn (s_base_dn s) = true -> is_within dn cdn = false -> (forall i, touches (in_range i) (op i)) -> touches (in_range pid) (in_partition st dn op).
Proof. intros Hw Hn Ht. rewrite (in_domain s st Hst) by done. apply Ht. Qed.

Lemma create_reported_touches dn e name :
  own s dn -> touches (in_range pid) (create_reported st dn e name).
Proof.
  intros (Hw & Hn & _). apply touches_try; [|by intros []]. apply touches_map_err, domain_op_touches; [done|done|]. intros i. apply create_touches.
Qed.

Lemma principal_exists_touches name : touches (in_range pid) (principal_exists st s name).
Proof.
  destruct (own_base s Hs) as (Hw & Hn & _). apply touches_try; [|done]. apply touches_map_err, domain_op_touches; [done|done|]. intros i. apply lookup_touches.
Qed.

Lemma set_password_touches (P : rstring -> Prop) e name password : touches P (boot_set_password e name password).
Proof. by split. Qed.

Lemma krbtgt_touches sid : touches (in_range pid) (provision_krbtgt st s sid).
Proof.
  apply touches_try; [apply principal_exists_touches|]. intros [|]; [done|]. apply touches_try; [apply touches_map_err; by split|]. intros b.
  apply touches_try; [apply set_password_touches|]. intros e. rewrite (krbtgt_dn_ok s Hs). by apply create_reported_touches, own_child.
Qed.

Lemma admin_touches sid : touches (in_range pid) (provision_admin st s sid).
Proof.
  unfold provision_admin. rewrite (admin_dn_ok s Hs). unfold lift. unfold try_bind at 1. cbn [prog_bind_].
  assert (own s (administrator_dn s)) as Hdn by (by apply own_child). revert Hdn. generalize (administrator_dn s). intros dn Hdn.
  apply touches_try; [apply principal_exists_touches|]. intros [|]; [done|].
  apply touches_try.
  { apply touches_map_err. destruct Hdn as (Hw & Hn & _). apply domain_op_touches; [done|done|]. intros i. apply touches_try; [apply raw_get_touches|by intros []]. }
  intros [x|]; [done|]. apply touches_try; [by split|]. intros h. apply touches_try; [apply set_password_touches|]. intros e. by apply create_reported_touches.
Qed.

(** What a member reports is what the root's record says. *)
Definition agrees (r : result BootError Report) k : Prop :=
  forall rep, r = Ok rep -> exists v p, k = Some v /\ record_value v p /\ domain_sid p = Some (r_domain_sid rep).

Lemma entries_together v p sid (t : rstring) (l1 l2 : list rstring) :
  record_value v p -> domain_sid p = Some t ->
  together root_value
    (report3 <-? create_reported st (s_base_dn s) (base_entry (s_base_dn s) sid) (Dn.to_string (s_base_dn s)) ;;
     report4 <-? provision_krbtgt st s sid ;; report5 <-? provision_admin st s sid ;;
     Ret (Ok (mkReport (l1 ++ l2 ++ report3 ++ report4 ++ report5) t))) (Some v) agrees.
Proof.
  intros Hv Ht. pose proof domain_range_other as Hout.
  apply (together_skip _ _ (in_range pid)); [by apply create_reported_touches, own_base|done| |done]. intros l3 k3 Hk3.
  apply (together_skip _ _ (in_range pid)); [apply krbtgt_touches|done| |done]. intros l4 k4 Hk4.
  apply (together_skip _ _ (in_range pid)); [apply admin_touches|done| |done]. intros l5 k5 Hk5.
  intros rep [= <-]. exists v, p. split_and!; [|done|done]. by apply Hk5, Hk4, Hk3.
Qed.

Lemma provision_together fresh_fips : together root_value (provision fresh_fips st s) None agrees.
Proof.
  unfold provision. apply (together_skip _ _ (fun key => key <> root_key)); [done|naive_solver| |done]. intros _ k0 _.
  apply (together_ok _ _ _ cdn); [by apply config_dn_ok|].
  destruct (forest_records s cdn) as [[[config schema] root]|] eqn:Hrec; [|done]. apply (together_ok _ _ _ (config, schema, root)); [done|].
  destruct (forest_records_ok s Hs st Hst _ _ _ Hrec) as ((Hc1 & Hs1 & Hr1) & Hids & _ & Hnb).
  pose proof (forest_ids_NoDup s Hs st Hst) as Hnd. rewrite <- Hids in Hnd. cbn [List.map] in Hids, Hnd. injection Hids as Hi1 Hi2 Hi3.
  apply NoDup_cons in Hnd as [Hn1 Hnd]. apply NoDup_cons in Hnd as [Hn2 _]. rewrite Hi3 in Hn1, Hn2.
  apply (together_skip _ _ (fun key => key <> root_key)); [apply touches_map_err, generate_touches|naive_solver| |done]. intros t0 k1 _.
  apply together_try. cbn [create_records].
  apply (together_skip _ _ (fun key => key <> root_key)); [apply touches_map_err, create_other_touches; [exact (proj1 Hc1)|set_solver]|naive_solver| |done]. intros n1 k2 _.
  apply together_try, (together_skip _ _ (fun key => key <> root_key)); [apply touches_map_err, create_other_touches; [exact (proj1 Hs1)|set_solver]|naive_solver| |done].
  intros n2 k3 _. apply together_try, together_try, together_map_err.
  assert (partition_ok (with_domain_sid t0 root)) as Hr2 by exact Hr1. assert (p_id (with_domain_sid t0 root) = pid) as Hi3' by exact Hi3.
  assert (complete_record (with_domain_sid t0 root)) as Hcomp by (by split).
  eapply together_mono; [by apply create_root_together|]. cbn beta. intros r k4 _ Hk4. destruct r as [b|e]; [|done]. cbn [map_err]. destruct (Hk4 b eq_refl) as (v & -> & p & Hv).
  cbn [create_records try_bind prog_bind_]. apply together_try. eapply together_mono; [by apply (settle_together _ v p)|].
  cbn beta. intros r k5 _ [-> Hsid]. destruct r as [[l2 t]|e]; [|done]. specialize (Hsid l2 t eq_refl).
  destruct (Sid.parse t) as [sid|] eqn:Ht; [|done]. apply (together_ok _ _ _ sid); [done|]. by eapply entries_together.
Qed.

End race.

(** ** Example *)

(** One member runs to its end. *)
Lemma run_member {A : Type} rnd (p : prog A) m ps i :
  (forall n, length (rnd n) = n /\ bytes_ok (rnd n)) -> ps !! i = Some p ->
  rtc Etcd.step (mkConfig m ps) (mkConfig (exec rnd p m).2 (<[i := Ret (exec rnd p m).1]> ps)).
Proof.
  intros Hr. revert m ps. induction p as [a|r f IH]; intros m ps Hi; cbn [exec].
  - cbn [fst snd]. rewrite list_insert_id by done. apply rtc_refl.
  - eapply rtc_l; [by apply (step_serve rnd)|]. destruct (serve rnd m r) as [rep m'] eqn:Hs. cbn [fst snd].
    pose proof (IH rep m' (<[i := f rep]> ps)) as Hrest. rewrite list_insert_insert_eq in Hrest. apply Hrest.
    apply list_lookup_insert_eq. by eapply lookup_lt_Some.
Qed.

(** Two members, one after the other. *)
Lemma run_two_members {A : Type} rnd rnd' (p : prog A) m :
  (forall n, length (rnd n) = n /\ bytes_ok (rnd n)) -> (forall n, length (rnd' n) = n /\ bytes_ok (rnd' n)) ->
  rtc Etcd.step (mkConfig m [p; p]) (mkConfig (exec rnd' p (exec rnd p m).2).2 [Ret (exec rnd p m).1; Ret (exec rnd' p (exec rnd p m).2).1]).
Proof.
  intros Hr Hr'. etrans; [by apply (run_member rnd p m [p; p] 0)|]. by apply (run_member rnd' p (exec rnd p m).2 [Ret (exec rnd p m).1; p] 1).
Qed.

#[local] Existing Instance bit_codec.
#[local] Existing Instance bit_partitions.
#[local] Existing Instance demo_ssl.
#[local] Existing Instance demo_ssl_laws.
#[local] Existing Instance hex_base64.

Definition ones (n : nat) : bytes := repeat 1 n.
Lemma ones_ok n : length (ones n) = n /\ bytes_ok (ones n).
Proof.
  split; [apply repeat_length|]. unfold ones, bytes_ok. induction n; simpl; constructor; auto. by unfold is_byte.
Qed.

Definition ex_member := provision (Ok tt) ex_boot_store ex_settings.
Local Abbreviation ex_first := (exec zeros ex_member ∅).
Local Abbreviation ex_second := (exec ones ex_member ex_first.2).

