(* ===== verification/KrbClient.v ===== *)
(** The simulator's Kerberos client, [crates/simulate/src/krb_client.rs]: the
    authentication and ticket-granting exchanges as a client makes them over
    TCP, and what it looks at in a service ticket. *)

From S2P Require Import Prelude Bytes Str Btree Utf8 Decimal Dn Partition Key Registry Entry Etcd Index Ridpool Store.
From S2P Require Import Directory Sid Nfold Kerberos Md4 Password Principal BinaryAttrs Ndr Krb Pac Kdc KdcAs KdcTgs KdcServer.

Inductive KrbClientError :=
| KrbIo
| KrbWire (e : WireError)
| KrbCrypto (e : Error)
| KdcErrorCode (code : Z)
| KrbMalformed
| NoUsableEtype.

(** A ticket and the session key needed to use it. *)
Record Credential := mkCredential {
  cred_ticket : Ticket;
  cred_session_key : bytes;
  cred_enctype : Enctype;
  cred_cname : PrincipalName;
  cred_crealm : Realm;
  cred_auth_time_unix_secs : Z;
}.

Definition kerberos_time_to_unix (t : KerberosTime) : Z := t / NANOS.

(** DER of the top-level messages, from the client's side. *)
Class ClientCodec := {
  encode_as_req : KdcReq -> option bytes;
  encode_tgs_req : KdcReq -> option bytes;
  decode_as_rep : bytes -> option KdcRep;
  decode_tgs_rep : bytes -> option KdcRep;
  decode_krb_error : bytes -> option KrbError;
}.

(** Connecting to an address: [None] if it fails, else what the peer sends back
    to the bytes that are written, [None] if writing fails. *)
Abbreviation Network := (rstring -> prog (option (bytes -> prog (option bytes)))) (only parsing).

Definition or_malformed {A} (o : option A) : prog (result KrbClientError A) := lift (ok_or KrbMalformed o).
Definition crypto {A} (r : result Error A) : prog (result KrbClientError A) := lift (map_err KrbCrypto r).

Definition send_and_recv (network : Network) (addr : rstring) (msg : bytes) : prog (result KrbClientError bytes) :=
  prog_bind_ (fun stream =>
      match stream with
      | None => Ret (Err KrbIo)
      | Some talk =>
          framed <-? lift (map_err KrbWire (write_tcp_message msg)) ;;
          prog_bind_ (fun reply =>
              match reply with
              | None => Ret (Err (KrbWire WireIo))
              | Some input =>
                  m <-? lift (map_err KrbWire (read_tcp_message input)) ;;
                  or_malformed (fst <$> m)
              end) (talk framed)
      end) (network addr).

Section client.
  Context `{!ClientCodec} `{!OpenSsl} `{!KrbCodec}.

(** A reply of the tag [tag], or an error message. *)
Definition decode_or_error (tag : Z) (decode : bytes -> option KdcRep) (b : bytes) : result KrbClientError (KdcRep + KrbError) :=
  first ← ok_or KrbMalformed (head b);
  let t := Z.land first 0x1F in
  if t =? tag then inl <$> ok_or KrbMalformed (decode b)
  else if t =? 30 then inr <$> ok_or KrbMalformed (decode_krb_error b)
  else Err KrbMalformed.

Definition decode_as_or_error : bytes -> result KrbClientError (KdcRep + KrbError) := decode_or_error 11 decode_as_rep.
Definition decode_tgs_or_error : bytes -> result KrbClientError (KdcRep + KrbError) := decode_or_error 13 decode_tgs_rep.

Definition reply_or_code (r : KdcRep + KrbError) : result KrbClientError KdcRep :=
  match r with inl rep => Ok rep | inr e => Err (KdcErrorCode (ke_code e)) end.

(** The encrypted part of a reply, checked against the nonce of the request. *)
Definition credential (rep : KdcRep) (part : EncKdcRepPart) (nonce : Z) : result KrbClientError Credential :=
  if negb (erp_nonce part =? nonce) then Err KrbMalformed else
  session_enctype ← ok_or KrbMalformed (try_from (ek_type (erp_key part)));
  Ok (mkCredential (rep_ticket rep) (ek_value (erp_key part)) session_enctype (rep_cname rep) (rep_crealm rep)
        (kerberos_time_to_unix (erp_auth_time part))).

(** *** The authentication exchange *)

Definition AS_NONCE : Z := 0x12345678.

Definition as_body (realm principal : rstring) : KdcReqBody :=
  mkReqBody (Some (string_to_principal_name principal)) (string_to_gstring realm) (Some (krbtgt_principal_name realm)) AS_NONCE
    [etype_number Aes256CtsHmacSha384_192; etype_number Aes256CtsHmacSha1_96].

(** The enctype and salt the KDC asks for: of the first entry with a known
    enctype. *)
Definition chosen_etype (l : list EtypeInfo2Entry) : option (Enctype * bytes) :=
  head (omap (fun e => enc ← try_from (ei_etype e); Some (enc, default [] (ei_salt e))) l).

Definition preauth_hint (err1 : KrbError) : result KrbClientError (Enctype * bytes) :=
  if negb (ke_code err1 =? 25) then Err (KdcErrorCode (ke_code err1)) else
  e_data ← ok_or KrbMalformed (ke_data err1);
  method_data ← ok_or KrbMalformed (der_decode e_data : option (list PaData));
  etype_info2_pa ← ok_or KrbMalformed (List.find (fun p => pa_type p =? PA_ETYPE_INFO2) method_data);
  etype_info2 ← ok_or KrbMalformed (der_decode (pa_value etype_info2_pa) : option (list EtypeInfo2Entry));
  ok_or NoUsableEtype (chosen_etype etype_info2).

(** The encrypted timestamp. *)
Definition timestamp_padata (enctype : Enctype) (key : bytes) : prog (result KrbClientError PaData) :=
  t <-? read_clock ;;
  pa_enc_ts_bytes <-? or_malformed (der_encode (mkPaEncTsEnc (now_of t).1)) ;;
  cipher <-? prog_map_err KrbCrypto (encrypt_with enctype key 1 pa_enc_ts_bytes) ;;
  value <-? or_malformed (der_encode (mkEncryptedData (etype_number enctype) None cipher)) ;;
  Ret (Ok (mkPaData PA_ENC_TIMESTAMP value)).

Definition open_as_rep (key : bytes) (rep : KdcRep) : result KrbClientError Credential :=
  reply_etype ← ok_or KrbMalformed (try_from (ed_etype (rep_enc_part rep)));
  plain ← map_err KrbCrypto (decrypt reply_etype key 3 (ed_cipher (rep_enc_part rep)));
  enc_part ← ok_or KrbMalformed (der_decode plain);
  credential rep (as_rep_part enc_part) AS_NONCE.

Definition as_exchange (network : Network) (addr realm principal : rstring) (password : bytes)
    : prog (result KrbClientError Credential) :=
  _ <-? read_clock ;;
  let req_body := as_body realm principal in
  as_req_1 <-? or_malformed (encode_as_req (mkKdcReq None req_body)) ;;
  resp1 <-? send_and_recv network addr as_req_1 ;;
  rep1 <-? lift (decode_as_or_error resp1) ;;
  err1 <-? lift (match rep1 with inl _ => Err KrbMalformed | inr e => Ok e end) ;;
  chosen <-? lift (preauth_hint err1) ;;
  let '(enctype, salt_bytes) := chosen in
  key <-? crypto (string_to_key enctype password salt_bytes None) ;;
  pa_enc_ts <-? timestamp_padata enctype key ;;
  as_req_2 <-? or_malformed (encode_as_req (mkKdcReq (Some [pa_enc_ts]) req_body)) ;;
  resp2 <-? send_and_recv network addr as_req_2 ;;
  rep2 <-? lift (decode_as_or_error resp2) ;;
  as_rep <-? lift (reply_or_code rep2) ;;
  lift (open_as_rep key as_rep).

(** *** The ticket-granting exchange *)

Definition TGS_NONCE : Z := 0x24681357.

Definition tgs_body (realm service_principal : rstring) (enctype : Enctype) : KdcReqBody :=
  mkReqBody None (string_to_gstring realm) (Some (string_to_principal_name service_principal)) TGS_NONCE [etype_number enctype].

(** The ticket with an authenticator. *)
Definition ap_padata (tgt : Credential) : prog (result KrbClientError PaData) :=
  t <-? read_clock ;;
  auth_bytes <-? or_malformed (der_encode
    (mkAuthenticator (cred_crealm tgt) (cred_cname tgt) None (now_of t).2 (now_of t).1 None)) ;;
  auth_cipher <-? prog_map_err KrbCrypto (encrypt_with (cred_enctype tgt) (cred_session_key tgt) 7 auth_bytes) ;;
  value <-? or_malformed (der_encode
    (mkApReq (cred_ticket tgt) (mkEncryptedData (etype_number (cred_enctype tgt)) None auth_cipher))) ;;
  Ret (Ok (mkPaData PA_TGS_REQ value)).

Definition open_tgs_rep (tgt : Credential) (rep : KdcRep) : result KrbClientError Credential :=
  plain ← map_err KrbCrypto (decrypt (cred_enctype tgt) (cred_session_key tgt) 8 (ed_cipher (rep_enc_part rep)));
  enc_part ← ok_or KrbMalformed (der_decode plain);
  credential rep (tgs_rep_part enc_part) TGS_NONCE.

Definition tgs_exchange (network : Network) (addr realm : rstring) (tgt : Credential) (service_principal : rstring)
    : prog (result KrbClientError Credential) :=
  pa_tgs_req <-? ap_padata tgt ;;
  _ <-? read_clock ;;
  tgs_req <-? or_malformed (encode_tgs_req (mkKdcReq (Some [pa_tgs_req]) (tgs_body realm service_principal (cred_enctype tgt)))) ;;
  resp <-? send_and_recv network addr tgs_req ;;
  r <-? lift (decode_tgs_or_error resp) ;;
  tgs_rep <-? lift (reply_or_code r) ;;
  lift (open_tgs_rep tgt tgs_rep).

(** *** Looking into a service ticket *)

Definition decrypt_ticket (ticket : Ticket) (server_key : bytes) (server_enctype : Enctype) : result KrbClientError EncTicketPart :=
  plain ← map_err KrbCrypto (decrypt server_enctype server_key 2 (ed_cipher (tkt_enc_part ticket)));
  ok_or KrbMalformed (der_decode plain).

Definition extract_pac (enc_ticket_part : EncTicketPart) : option bytes :=
  ad ← etp_authorization_data enc_ticket_part;
  if_relevant ← List.find (fun e => ad_type e =? 1) ad;
  inner ← (der_decode (ad_data if_relevant) : option (list AuthorizationDataValue));
  pac_entry ← List.find (fun e => ad_type e =? 128) inner;
  Some (ad_data pac_entry).
End client.

(** The loop over the table of buffers, from row [i]. *)
Fixpoint pac_types_from (n : nat) (i : Z) (pac_bytes : bytes) : option (list Z) :=
  match n with
  | O => Some []
  | S n' =>
      let off := 8 + i * 16 in
      if zlen pac_bytes <? off + 4 then None else
      t ← slice pac_bytes off (off + 4);
      types ← pac_types_from n' (i + 1) pac_bytes;
      Some (le_val t :: types)
  end.

Definition pac_buffer_types (pac_bytes : bytes) : option (list Z) :=
  if zlen pac_bytes <? 8 then None else
  c ← slice pac_bytes 0 4;
  pac_types_from (Z.to_nat (le_val c)) 0 pac_bytes.

(** ** The PAC of a ticket *)

Lemma pac_row_type blob i t s o :
  pac_row blob i = Some (t, s, o) ->
  (zlen blob <? 8 + i * 16 + 4) = false /\ exists b, slice blob (8 + i * 16) (8 + i * 16 + 4) = Some b /\ le_val b = t.
Proof.
  unfold pac_row. replace (8 + 16 * i) with (8 + i * 16) by lia. replace (12 + 16 * i) with (8 + i * 16 + 4) by lia.
  destruct (slice blob (8 + i * 16) (8 + i * 16 + 4)) as [x|] eqn:Hx; [|done]. cbn [mbind option_bind].
  destruct (slice blob _ (16 + 16 * i)) as [y|]; [|done]. cbn [mbind option_bind].
  destruct (slice blob _ (24 + 16 * i)) as [z|]; [|done]. intros [= <- _ _]. split; [|eauto].
  unfold slice in Hx. destruct (_ && (8 + i * 16 + 4 <=? zlen blob)) eqn:Hb in Hx; [|done]. apply Z.ltb_ge. lia.
Qed.

(** The client finds the buffers the KDC put in. *)
Lemma pac_types_generated `{!OpenSsl} input server_key se kdc_key ke pac :
  generate input server_key se kdc_key ke = Ok pac ->
  pac_buffer_types pac = Some [PAC_LOGON_INFO; PAC_CLIENT_INFO_TYPE; PAC_SERVER_CHECKSUM; PAC_PRIVSVR_CHECKSUM].
Proof.
  unfold generate. intros (ssig & _ & (ksig & _ & [= <-])%bind_ok)%bind_ok. unfold pac_buffers.
  set (d1 := wrap_type_serialization1 _). set (d2 := pac_client_info _ _). set (d3 := pac_signature_data _ ssig). set (d4 := pac_signature_data _ ksig).
  set (bs := [_; _; _; _]). set (blob := build_pac_type bs).
  destruct (pac_row_type blob 0 _ _ _ (pac_row_at [] PAC_LOGON_INFO d1 _ ltac:(done))) as (L1 & b1 & S1 & V1).
  destruct (pac_row_type blob 1 _ _ _ (pac_row_at [(PAC_LOGON_INFO, d1)] PAC_CLIENT_INFO_TYPE d2 _ ltac:(done))) as (L2 & b2 & S2 & V2).
  destruct (pac_row_type blob 2 _ _ _ (pac_row_at [(PAC_LOGON_INFO, d1); (PAC_CLIENT_INFO_TYPE, d2)] PAC_SERVER_CHECKSUM d3 _ ltac:(done)))
    as (L3 & b3 & S3 & V3).
  destruct (pac_row_type blob 3 _ _ _ (pac_row_at [(PAC_LOGON_INFO, d1); (PAC_CLIENT_INFO_TYPE, d2); (PAC_SERVER_CHECKSUM, d3)]
    PAC_PRIVSVR_CHECKSUM d4 [] ltac:(done))) as (L4 & b4 & S4 & V4).
  unfold pac_buffer_types. apply Z.ltb_ge in L1 as L1'. rewrite (proj2 (Z.ltb_ge _ _)) by lia.
  assert (slice blob 0 4 = Some (le_bytes 4 4)) as ->.
  { unfold blob. rewrite build_pac_type_eq. by apply (slice_app_exact [] (le_bytes 4 4)). }
  cbn [mbind option_bind]. change (Z.to_nat (le_val (le_bytes 4 4))) with 4%nat.
  cbn [pac_types_from]. cbn zeta. change (0 + 1) with 1. change (1 + 1) with 2. change (2 + 1) with 3.
  rewrite L1, S1, L2, S2, L3, S3, L4, S4. cbn [mbind option_bind]. by rewrite V1, V2, V3, V4.
Qed.

Lemma extract_wrapped `{!KrbCodec, !DerLaw (list AuthorizationDataValue)} pac ad part :
  wrap_pac_authorization_data pac = Some ad -> etp_authorization_data part = Some ad -> extract_pac part = Some pac.
Proof.
  unfold wrap_pac_authorization_data, extract_pac. destruct (der_encode [mkAuthData AD_WIN2K_PAC pac]) as [b|] eqn:Hb; [|done].
  cbn [mbind option_bind]. intros [= <-] ->. cbn [mbind option_bind List.find ad_type ad_data IF_RELEVANT Z.eqb Pos.eqb].
  by rewrite (der_roundtrip _ _ Hb).
Qed.
