(* ===== verification/KrbLogon.v ===== *)
(** A logon over the network: the client of [crates/simulate/src/krb_client.rs]
    talking to the KDC of [crates/kdc] gets the tickets it asks for, or fails
    for want of the store or of random bytes. *)

From S2P Require Import Prelude Bytes Str Btree Utf8 Decimal Dn Partition Key Registry Entry Etcd Index Ridpool Store.
From S2P Require Import Directory Sid Nfold Kerberos Md4 Password Principal BinaryAttrs Ndr Krb Pac Kdc KdcAs KdcTgs KdcServer KrbClient.

(** What client and server rely on of the DER codec: the tag byte of each
    top-level message, and that decoding inverts encoding. *)
Class WireLaws `{!WireCodec, !ClientCodec} := {
  as_req_law req b : encode_as_req req = Some b -> head b = Some 106 /\ decode_as_req b = Some req;
  tgs_req_law req b : encode_tgs_req req = Some b -> head b = Some 108 /\ decode_tgs_req b = Some req;
  as_rep_law rep b : encode_as_rep rep = Some b -> head b = Some 107 /\ decode_as_rep b = Some rep;
  tgs_rep_law rep b : encode_tgs_rep rep = Some b -> head b = Some 109 /\ decode_tgs_rep b = Some rep;
  krb_error_law e b : encode_krb_error e = Some b -> head b = Some 126 /\ decode_krb_error b = Some e;
}.

(** A type whose values all have an encoding. *)
Class DerTotal (A : Type) `{!Der A} := der_total (a : A) : exists b, der_encode a = Some b.

(** ** Rules *)

Lemma ro_catch_err {E R A : Type} (T : Z -> Prop) (m : kvstore) (I : stop R -> Prop) (J : E -> Prop) (p : prog (result E A)) f (Q : A -> Prop) :
  ro T m J p Q -> (forall e, J e -> ro T m I (f e) Q) -> ro T m I (catch p f) Q.
Proof.
  intros Hp Hf r m' (x & m1 & Hx & Hr)%runs_at_bind. apply Hp in Hx as [-> Hx]. destruct x as [a|e].
  - by destruct Hr as [-> ->].
  - by apply (Hf e).
Qed.

Lemma ro_and {E A : Type} (T : Z -> Prop) (m : kvstore) (I J : E -> Prop) (p : prog (result E A)) (Q R : A -> Prop) :
  ro T m I p Q -> ro T m J p R -> ro T m J p (fun a => Q a /\ R a).
Proof. intros H1 H2 r m' Hr. specialize (H1 r m' Hr) as [_ H1]. specialize (H2 r m' Hr) as [-> H2]. by destruct r. Qed.

(** A step whose value is known. *)
Lemma ro_ok {E A B : Type} (T : Z -> Prop) (m : kvstore) (I : E -> Prop) (a : A) (f : A -> prog (result E B)) (Q : B -> Prop) :
  ro T m I (f a) Q -> ro T m I (try_bind (Ret (Ok a)) f) Q.
Proof. intros Hf. eapply (ro_try _ _ _ _ _ (fun x => x = a)); [by apply ro_ret|]. by intros ? ->. Qed.

Lemma ro_eq {E A B : Type} (T : Z -> Prop) (m : kvstore) (I : E -> Prop) (a : A) (p : prog (result E A)) (f : A -> prog (result E B)) (Q : B -> Prop) :
  ro T m I p (fun x => x = a) -> ro T m I (f a) Q -> ro T m I (try_bind p f) Q.
Proof. intros Hp Hf. eapply ro_try; [exact Hp|]. by intros ? ->. Qed.

Lemma ro_map_err {E E' A : Type} (T : Z -> Prop) (m : kvstore) (I : E -> Prop) (J : E' -> Prop) (g : E -> E') (p : prog (result E A)) (Q : A -> Prop) :
  ro T m I p Q -> (forall e, I e -> J (g e)) -> ro T m J (prog_map_err g p) Q.
Proof.
  intros Hp HJ r m' (x & m1 & Hx & -> & ->)%runs_at_bind. apply Hp in Hx as [-> Hx]. split; [done|]. destruct x; cbn; auto.
Qed.

(** Early returns with an error message of a code in [C]. *)
Definition coded (C : Z -> Prop) (s : stop KdcResponse) : Prop := exists e, s = Return (KdcError e) /\ C (ke_code e).

Lemma ro_coded {A : Type} (T : Z -> Prop) m (C : Z -> Prop) req code text (Q : A -> Prop) :
  C code -> ro T m (coded C) (req_fail req code text) Q.
Proof. intros HC r m' (t & m1 & Hm & _ & -> & ->). cbn [served] in Hm. subst. split; [done|]. by eexists. Qed.

Lemma settle_returns {R : Type} (T : Z -> Prop) (p : prog (result (stop R) R)) m (I : stop R -> Prop) (Q : R -> Prop) r m' :
  ro T m I p Q -> (forall s, I s -> exists a, s = Return a) -> runs_at T (settle p) m r m' ->
  m' = m /\ exists a, r = Some a /\ (Q a \/ I (Return a)).
Proof.
  intros Hp HI (x & m1 & Hx & -> & ->)%runs_at_bind. apply Hp in Hx as [-> Hx]. split; [done|].
  destruct x as [a|s]; [eauto|]. destruct (HI s Hx) as [a ->]. eauto.
Qed.

Lemma coded_returns C s : coded C s -> exists a, s = Return a.
Proof. intros (e & -> & _). eauto. Qed.

Section directory.
  Context `{EntryCodec} `{Base64} `{!OpenSsl, !OpenSslLaws} `{!KrbCodec}.
  Context (T : Z -> Prop) (app : AppState) (Hst : connected (app_store app)) (F : forest) (m : kvstore)
    (HF : holds (app_store app) index_spec F m).

(** A known principal is found unless the store fails. *)
Lemma lookup_single name dn e :
  principal_at app F name dn e ->
  ro T m (fun _ => True) (Store.lookup_by_index (app_store app) (app_base_dn app) ATTR_PRINCIPAL_NAME name) (fun l => l = [dn]).
Proof.
  intros [Hu _]. apply ro_runs. intros r m' Hr. apply (lookup_runs _ Hst index_spec F) in Hr as [-> Hx]; [|done|by_decide]. split; [done|].
  destruct Hx as [[err ->]|(l & -> & Hnd & Hl)]; [done|].
  assert (forall d, d ∈ l <-> d = dn) as Hd by (intros d; rewrite Hl; apply Hu). clear Hl Hu. destruct l as [|d1 [|d2 l]].
  - by pose proof (proj2 (Hd dn) eq_refl) as []%elem_of_nil.
  - f_equal. apply Hd. by left.
  - apply NoDup_cons in Hnd as [Hn _]. destruct Hn.
    rewrite (proj1 (Hd d1) ltac:(by left)), (proj1 (Hd d2) ltac:(by right; left)). by left.
Qed.

Lemma get_single name dn e :
  principal_at app F name dn e -> ro T m (fun _ => True) (Store.get_entry (app_store app) dn) (fun o => o = Some e).
Proof.
  intros [_ [dn' Hf]]. apply ro_runs. intros r m' Hr. apply (get_entry_runs _ Hst index_spec F) in Hr as [-> Hx]; [|done]. split; [done|].
  destruct Hx as [->|[err ->]]; [by rewrite Hf|done].
Qed.

Lemma lookup_known name dn e :
  principal_at app F name dn e -> ro T m (fun o => exists x, o = Some x) (lookup_one app name) (fun d => d = dn).
Proof.
  intros Hat r m' (x & m1 & Hx & -> & ->)%runs_at_bind. apply (lookup_single _ _ _ Hat) in Hx as [-> Hx]. split; [done|].
  destruct x as [l|err]; [by rewrite Hx|eauto].
Qed.

Lemma fetch_known name dn e :
  principal_at app F name dn e -> ro T m (fun o => exists x, o = Some x) (fetch app dn) (fun x => x = e).
Proof.
  intros Hat r m' (x & m1 & Hx & -> & ->)%runs_at_bind. apply (get_single _ _ _ Hat) in Hx as [-> Hx]. split; [done|].
  destruct x as [o|err]; [by rewrite Hx|eauto].
Qed.

Lemma keys_known {R : Type} (I : stop R -> Prop) e ks f : has_keys e ks -> ro T m I (entry_keys e f) (fun x => x = ks).
Proof. intros Hk. unfold entry_keys. rewrite Hk. by apply ro_ret. Qed.
End directory.

(** ** Steps that fail with a generic error *)

Section generic.
  Context `{EntryCodec} `{!OpenSsl, !OpenSslLaws} `{!ErrorText} (T : Z -> Prop) (m : kvstore) (req : KdcReq).

Definition generic (s : stop KdcResponse) : Prop := coded (fun c => c = KRB_ERR_GENERIC) s.

Lemma or_coded {A : Type} (o : option A) text : ro T m generic (or_fail o (req_fail req KRB_ERR_GENERIC text)) (fun _ => True).
Proof. destruct o; [by apply ro_ret|by apply ro_coded]. Qed.

Lemma catch_coded {A : Type} (p : prog (result Error A)) :
  ro T m (fun _ => True) p (fun _ => True) ->
  ro T m generic (catch p (fun x => req_fail req KRB_ERR_GENERIC (crypto_text x))) (fun _ => True).
Proof. intros Hp. eapply ro_catch_err; [exact Hp|]. intros; by apply ro_coded. Qed.

Lemma encrypt_any (e : Enctype) key usage b : ro T m (fun _ => True) (encrypt_with e key usage b) (fun _ => True).
Proof. apply ro_runs. intros r m' (rep & m1 & (-> & _) & -> & ->). split; [done|]. by destruct (encrypt _ _ _ _ _). Qed.

Lemma random_any (e : Enctype) : ro T m (fun _ => True) (random_bytes (key_len e)) (fun _ => True).
Proof. eapply ro_mono; [apply ro_random, key_len_nonneg|done|done]. Qed.
End generic.

(** ** The authentication service answers its clients *)

Section as_service.
  Context `{EntryCodec} `{Base64} `{!OpenSsl, !OpenSslLaws} `{!KrbCodec} `{!ErrorText}.
  Context `{!DerLaw EncTicketPart, !DerLaw EncAsRepPart, !DerLaw PaEncTsEnc, !DerLaw EncryptedData}.
  Context (fresh_fips : result Error unit) (T : Z -> Prop) (app : AppState) (Hst : connected (app_store app))
    (F : forest) (m : kvstore) (HF : holds (app_store app) index_spec F m) (Hwf : forest_keys_wf app F).

(** The client and the ticket-granting service of the realm, as the directory
    has them. *)
  Context (req : KdcReq) (cname : PrincipalName) (dn : Dn) (e : Entry) (ks : list PrincipalKey) (salt : bytes)
    (Hcname : rb_cname (req_body req) = Some cname)
    (Hat : principal_at app F (fqn (principal_name_to_string cname) (realm_str req)) dn e)
    (Hks : has_keys e ks) (Hsalt : Principal.salt e = Ok salt).

Lemma client_known C : C KRB_ERR_GENERIC -> ro T m (coded C) (as_client app req cname) (fun c => c = (dn, e, ks, salt)).
Proof.
  intros HC. unfold as_client. eapply ro_eq.
  { eapply ro_catch_err; [by eapply lookup_known|]. intros ? [x ->]. by apply ro_coded. }
  eapply ro_eq; [eapply ro_catch_err; [by eapply fetch_known|]; intros ? [x ->]; by apply ro_coded|].
  eapply ro_eq; [by apply keys_known|]. rewrite Hsalt. by apply ro_ok, ro_ret.
Qed.

(** A request without a timestamp is told the enctypes and the salt. *)
Lemma as_handle_hint r m' :
  find_padata PA_ENC_TIMESTAMP req = None ->
  runs_at T (as_handle fresh_fips app req) m r m' ->
  m' = m /\ exists err, r = Some (KdcError err) /\
    (ke_code err = KRB_ERR_GENERIC \/ ke_code err = KDC_ERR_PREAUTH_REQUIRED /\ ke_data err = preauth_data ks salt).
Proof.
  intros Hpa Hr. set (I := fun s : stop KdcResponse => exists err, s = Return (KdcError err) /\
    (ke_code err = KRB_ERR_GENERIC \/ ke_code err = KDC_ERR_PREAUTH_REQUIRED /\ ke_data err = preauth_data ks salt)).
  eapply (settle_returns T _ m I (fun _ => False)) in Hr as [-> (a & -> & [[]|(err & [= ->] & Herr)])]; [eauto| |].
  - rewrite Hcname. apply ro_ok. eapply ro_eq.
    { eapply ro_mono; [by apply (client_known (fun c => c = KRB_ERR_GENERIC))|intros s (err & -> & ?); exists err; auto|intros c Hc; exact Hc]. }
    unfold as_preauth. rewrite Hpa. eapply (ro_try _ _ _ _ _ (fun _ => False)); [|done].
    intros x m1 (t & m2 & Hm & _ & -> & ->). cbn [served] in Hm. subst m2. split; [done|]. eexists. split; [reflexivity|]. right. split; reflexivity.
  - intros s (err & -> & _). eauto.
Qed.

(** A timestamp sealed with the first key, by a clock that agrees with the
    server's. *)
  Context (k : PrincipalKey) (Hk : find_key (pk_enctype k) ks = Some k) (pa : PaData) (cipher b : bytes) (ts : PaEncTsEnc)
    (Hpa : find_padata PA_ENC_TIMESTAMP req = Some pa)
    (Hvalue : der_encode (mkEncryptedData (etype_number (pk_enctype k)) None cipher) = Some (pa_value pa))
    (Hb : der_encode ts = Some b) (Hcipher : decrypt (pk_enctype k) (pk_key k) 1 cipher = Ok b)
    (Hskew : forall now, T now -> Z.abs (diff_seconds (whole_seconds now) (patimestamp ts)) <= CLOCK_SKEW_SECS).

Lemma preauth_known I : ro T m I (as_preauth req ks salt) (fun x => x = k).
Proof.
  unfold as_preauth. rewrite Hpa. apply ro_ok. rewrite (der_roundtrip _ _ Hvalue). apply ro_ok. cbn [ed_etype ed_cipher].
  rewrite try_from_etype. apply ro_ok. rewrite Hk. apply ro_ok. rewrite Hcipher. apply ro_ok.
  rewrite (der_roundtrip _ _ Hb). apply ro_ok, ro_clock. intros now Hnow. cbn zeta.
  change (now_of now).1 with (whole_seconds now). rewrite (proj2 (Z.ltb_ge _ _) (Hskew now Hnow)). by apply ro_ret.
Qed.

Lemma issue_coded kk ctx : ro T m generic (as_issue fresh_fips req cname k kk ctx) (fun _ => True).
Proof.
  unfold as_issue. eapply ro_try; [apply catch_coded, random_any|intros sk _].
  apply ro_clock. intros t1 _. apply ro_clock. intros t2 _. cbn zeta. eapply ro_try; [apply or_coded|intros x1 _].
  eapply ro_try; [by apply catch_coded, ro_lift|intros _ _]. eapply ro_try; [apply catch_coded, encrypt_any|intros c1 _].
  eapply ro_try; [apply or_coded|intros x2 _]. eapply ro_try; [apply catch_coded, encrypt_any|intros c2 _]. by apply ro_ret.
Qed.

  Context (krbtgt_dn : Dn) (krbtgt : Entry) (kks : list PrincipalKey) (kk : PrincipalKey)
    (Hkat : principal_at app F (fqn (principal_name_to_string (kdc_sname req)) (realm_str req)) krbtgt_dn krbtgt)
    (Hkks : has_keys krbtgt kks) (Hkk : find_key (pk_enctype k) kks = Some kk).

(** The reply to the first key of the client and the ticket-granting service's
    key of its enctype. *)
Lemma as_handle_issues r m' :
  runs_at T (as_handle fresh_fips app req) m r m' ->
  m' = m /\ exists resp, r = Some resp /\
    ((exists rep, resp = AsRep rep /\ as_reply_for T app F req cname k kk dn e rep) \/
     exists err, resp = KdcError err /\ ke_code err = KRB_ERR_GENERIC).
Proof.
  intros Hr. eapply (settle_returns T _ m generic (fun resp => exists rep, resp = AsRep rep /\ as_reply_for T app F req cname k kk dn e rep)) in Hr
    as [-> (a & -> & [Ha|(err & [= ->] & Herr)])]; [by eauto|split; [done|]; eexists; split; [done|]; right; by exists err| |apply coded_returns].
  rewrite Hcname. apply ro_ok. eapply ro_eq; [by apply client_known|]. eapply ro_eq; [apply preauth_known|].
  eapply ro_eq.
  { unfold as_krbtgt. eapply ro_eq; [eapply ro_catch_err; [by eapply lookup_known|]; intros; by apply ro_coded|].
    eapply ro_catch_err; [by eapply fetch_known|]. intros; by apply ro_coded. }
  intros x m1 (ctx & m2 & Hctx & Hx)%runs_at_bind. apply runs_at_runs, (gather_runs app Hst F m HF) in Hctx as [-> Hctx].
  revert x m1 Hx. eapply ro_eq; [by apply keys_known|].
  assert (preferred_key (fun k' => bool_decide (pk_enctype k' = pk_enctype k)) kks = Some kk) as ->.
  { unfold preferred_key. unfold find_key in Hkk. by rewrite Hkk. }
  apply ro_ok. destruct (Hat) as [_ [dn' Hfind]]. destruct Hkat as [_ [kdn' Hkfind]].
  pose proof (proj1 (Forall_forall _ _) (Hwf _ _ _ _ Hfind Hks) k (proj1 (find_key_in _ _ _ Hk))) as Hlen.
  pose proof (proj1 (Forall_forall _ _) (Hwf _ _ _ _ Hkfind Hkks) kk (proj1 (find_key_in _ _ _ Hkk))) as Hklen.
  eapply ro_mono; [eapply ro_and; [by apply (ro_issue fresh_fips T app F m _ _ _ _ dn e)|apply issue_coded]|done|].
  intros resp [(rep & -> & Hrep) _]. by exists rep.
Qed.
End as_service.

(** ** The ticket-granting service answers its clients *)

Section tgs_service.
  Context `{EntryCodec} `{Base64} `{!OpenSsl, !OpenSslLaws} `{!KrbCodec} `{!ErrorText}.
  Context `{!DerLaw EncTicketPart, !DerLaw EncTgsRepPart, !DerLaw Authenticator, !DerLaw ApReq}.
  Context (fresh_fips : result Error unit) (T : Z -> Prop) (app : AppState) (Hst : connected (app_store app))
    (F : forest) (m : kvstore) (HF : holds (app_store app) index_spec F m) (Hwf : forest_keys_wf app F).

(** Want of a service, or of the store or the generator. *)
Definition tgs_code (c : Z) : Prop := c = KRB_ERR_GENERIC \/ c = KDC_ERR_S_PRINCIPAL_UNKNOWN.

(** A request that presents a ticket of this KDC with an authenticator. *)
  Context (req : KdcReq) (ap : ApReq) (pa : PaData)
    (Hpa : padata req = Some [pa]) (Hty : pa_type pa = PA_TGS_REQ) (Hap : der_encode ap = Some (pa_value pa)).
  Context (kdn : Dn) (ke : Entry) (kks : list PrincipalKey) (kk : PrincipalKey)
    (Hkat : principal_at app F (issuer_principal (ap_ticket ap)) kdn ke) (Hkks : has_keys ke kks)
    (Hkk : find_key (pk_enctype kk) kks = Some kk) (Het : try_from (ed_etype (tkt_enc_part (ap_ticket ap))) = Some (pk_enctype kk)).
  Context (tgt : EncTicketPart) (a : Authenticator) (b : bytes)
    (Htgt : seals (pk_enctype kk) (pk_key kk) 2 (ed_cipher (tkt_enc_part (ap_ticket ap))) tgt)
    (Hb : der_encode a = Some b) (Ha : decrypt (pk_enctype kk) (ek_value (etp_key tgt)) 7 (ed_cipher (ap_authenticator ap)) = Ok b)
    (Hcr : auth_crealm a = etp_crealm tgt) (Hcn : auth_cname a = etp_cname tgt)
    (Htime : forall now, T now -> diff_seconds (etp_end_time tgt) (whole_seconds now) <= 0 /\
       Z.abs (diff_seconds (auth_ctime a) (whole_seconds now)) <= CLOCK_SKEW_SECS).

Lemma authenticate_known I : ro T m I (tgs_authenticate req ap kk) (fun x => x = (tgt, a)).
Proof.
  destruct Htgt as (x & Hx & Hx'). unfold tgs_authenticate. rewrite Hx. apply ro_ok. rewrite Hx'. apply ro_ok, ro_clock.
  intros now Hnow. cbn zeta. change (now_of now).1 with (whole_seconds now). destruct (Htime now Hnow) as [Hexp Hskew].
  rewrite (proj2 (Z.ltb_ge _ _) Hexp), Ha. apply ro_ok. rewrite (der_roundtrip _ _ Hb). apply ro_ok.
  rewrite !bool_decide_true by done. cbn [negb orb]. rewrite (proj2 (Z.ltb_ge _ _) Hskew). by apply ro_ret.
Qed.

(** The service, of this realm and with keys. *)
  Context (sname : PrincipalName) (sdn : Dn) (se : Entry) (sks : list PrincipalKey) (sk : PrincipalKey)
    (Hrealm : realm_str req = app_realm app) (Hsn : rb_sname (req_body req) = Some sname) (Hncp : is_changepw sname = false)
    (Hsat : principal_at app F (fqn (principal_name_to_string sname) (realm_str req)) sdn se) (Hsks : has_keys se sks)
    (Hsk : preferred_key (fun k => existsb (Z.eqb (etype_number (pk_enctype k))) (rb_etype (req_body req))) sks = Some sk).

Lemma tgs_issue_coded ctx : ro T m generic (tgs_issue fresh_fips req sname tgt a kk sk ctx) (fun _ => True).
Proof.
  unfold tgs_issue. eapply ro_try; [apply catch_coded, random_any|intros key _].
  apply ro_clock. intros t1 _. apply ro_clock. intros t2 _. cbn zeta. eapply ro_try; [apply or_coded|intros x1 _].
  eapply ro_try; [by apply catch_coded, ro_lift|intros _ _]. eapply ro_try; [apply catch_coded, encrypt_any|intros c1 _].
  eapply ro_try; [apply or_coded|intros x2 _]. destruct (reply_key_for _ _ _) as [[rk re] ru].
  eapply ro_try; [apply catch_coded, encrypt_any|intros c2 _]. by apply ro_ret.
Qed.

Lemma tgs_handle_issues r m' :
  runs_at T (tgs_handle fresh_fips app req) m r m' ->
  m' = m /\ exists resp, r = Some resp /\
    ((exists rep, resp = TgsRep rep /\
        tgs_reply_for T req kk sk tgt a (rb_realm (req_body req)) sname (client_pac app F tgt kk sk) rep) \/
     exists err, resp = KdcError err /\ tgs_code (ke_code err)).
Proof.
  intros Hr. eapply (settle_returns T _ m (coded tgs_code) (fun resp => exists rep, resp = TgsRep rep /\
        tgs_reply_for T req kk sk tgt a (rb_realm (req_body req)) sname (client_pac app F tgt kk sk) rep)) in Hr
    as [-> (x & -> & [Hx|(err & [= ->] & Herr)])];
    [by eauto|split; [done|]; eexists; split; [done|]; right; by exists err| |apply coded_returns].
  assert (tgs_code KRB_ERR_GENERIC) as Hg by (by left). assert (tgs_code KDC_ERR_S_PRINCIPAL_UNKNOWN) as Hu by (by right).
  eapply (ro_eq _ _ _ ap).
  { unfold tgs_ap_req. rewrite Hpa. apply ro_ok. cbn [List.find]. rewrite Hty. cbn [PA_TGS_REQ Z.eqb Pos.eqb]. apply ro_ok.
    rewrite (der_roundtrip _ _ Hap). by apply ro_ret. }
  eapply (ro_eq _ _ _ kk).
  { unfold tgs_issuer_key. eapply ro_eq; [eapply ro_catch_err; [by eapply lookup_known|]; intros; by apply ro_coded|].
    eapply ro_eq; [eapply ro_catch_err; [by eapply fetch_known|]; intros; by apply ro_coded|].
    eapply ro_eq; [by apply keys_known|]. rewrite Het. apply ro_ok. rewrite Hkk. by apply ro_ret. }
  eapply ro_eq; [apply authenticate_known|]. rewrite bool_decide_true by (by rewrite Hrealm). cbn [negb].
  unfold tgs_local. rewrite Hsn. apply ro_ok. eapply (ro_eq _ _ _ se).
  { unfold tgs_service. rewrite Hncp. cbn zeta.
    eapply ro_eq; [eapply ro_catch_err; [by eapply lookup_known|]; intros; by apply ro_coded|].
    eapply ro_catch_err; [by eapply fetch_known|]; intros; by apply ro_coded. }
  intros x m1 (ctx & m2 & Hctx & Hx)%runs_at_bind. apply (pac_context_runs T app Hst F m HF) in Hctx as [-> Hctx].
  revert x m1 Hx. eapply ro_eq; [by apply keys_known|]. rewrite Hsk. apply ro_ok. destruct Hsat as [_ [sdn' Hfind]].
  pose proof (proj1 (Forall_forall _ _) (Hwf _ _ _ _ Hfind Hsks) sk (preferred_key_in _ _ _ Hsk)) as Hlen.
  eapply ro_mono; [eapply ro_and; [by apply (ro_tgs_issue fresh_fips T app F m)|apply tgs_issue_coded]| |].
  - intros s (err & -> & Hc). exists err. split; [done|]. by left.
  - intros resp [(rep & -> & Hrep) _]. by exists rep.
Qed.
End tgs_service.

(** ** The network between client and KDC *)

Definition fits (b : bytes) : Prop := zlen b <= MAX_TCP_MESSAGE_LEN.

Section network.
  Context `{!WireCodec, !ClientCodec, !WireLaws} `{EntryCodec} `{Base64} `{!OpenSsl, !OpenSslLaws} `{!KrbCodec} `{!ErrorText}.
  Context (fresh_fips : result Error unit) (T : Z -> Prop) (app : AppState) (m : kvstore).

(** Every connection is served by the KDC; it ends when the client has its
    answer. *)
Definition kdc_network (addr : rstring) : prog (option (bytes -> prog (option bytes))) :=
  Ret (Some (fun input => prog_bind_ (fun oe => Ret (Some (concat oe.1))) (handle_tcp_connection fresh_fips 2 app input))).

Lemma ro_send (I : KrbClientError -> Prop) addr msg (Q : bytes -> Prop) :
  fits msg ->
  (forall r m', runs_at T (kdc_dispatch fresh_fips app msg) m r m' -> m' = m /\ exists reply, r = Some reply /\ fits reply /\ Q reply) ->
  ro T m I (send_and_recv kdc_network addr msg) Q.
Proof.
  intros Hfit Hd r m'. destruct (read_write_tcp msg [] Hfit) as (framed & Hw & Hread). rewrite app_nil_r in Hread.
  unfold send_and_recv, kdc_network. cbn [prog_bind_]. rewrite Hw. cbn [map_err lift try_bind prog_bind_].
  intros (x & m1 & Hx & Hr)%runs_at_bind. apply runs_at_bind in Hx as ([outs en] & m2 & Hc & -> & ->).
  cbn [handle_tcp_connection] in Hc. rewrite Hread in Hc. apply runs_at_bind in Hc as (y & m3 & Hy & Hc).
  apply Hd in Hy as [-> (reply & -> & Hrep & HQ)]. destruct (read_write_tcp reply [] Hrep) as (out & Hw' & Hread').
  rewrite Hw' in Hc. change (read_tcp_message []) with (@Ok WireError (option (bytes * bytes)) None) in Hc. cbn [prog_bind_ runs_at fst snd] in Hc.
  destruct Hc as [[= -> ->] ->]. cbn [concat fst] in Hr. rewrite Hread' in Hr. cbn in Hr. by destruct Hr as [-> ->].
Qed.

Lemma decode_request_as req b : encode_as_req req = Some b -> decode_request b = Ok (AsRequest req).
Proof. intros [Hh Hd]%as_req_law. destruct b as [|x b]; [done|]. injection Hh as ->. unfold decode_request. cbn. by rewrite Hd. Qed.

Lemma decode_request_tgs req b : encode_tgs_req req = Some b -> decode_request b = Ok (TgsRequest req).
Proof. intros [Hh Hd]%tgs_req_law. destruct b as [|x b]; [done|]. injection Hh as ->. unfold decode_request. cbn. by rewrite Hd. Qed.

Lemma decode_reply tag decode rep b :
  head b = Some tag -> decode b = Some rep -> decode_or_error (Z.land tag 0x1F) decode b = Ok (inl rep).
Proof. intros Hh Hd. unfold decode_or_error. rewrite Hh. cbn [ok_or mbind result_bind]. by rewrite Z.eqb_refl, Hd. Qed.

Lemma decode_error tag decode e b :
  encode_krb_error e = Some b -> tag <> 30 -> decode_or_error tag decode b = Ok (inr e).
Proof.
  intros [Hh Hd]%krb_error_law Ht. unfold decode_or_error. rewrite Hh. cbn [ok_or mbind result_bind].
  change (Z.land 126 31) with 30. rewrite (proj2 (Z.eqb_neq _ _)) by done. cbn. by rewrite Hd.
Qed.

(** The answer of a handler reaches the client. *)
Lemma dispatch_reply (handler : prog (option KdcResponse)) msg (Q : KdcResponse -> Prop) r m' :
  respond_to fresh_fips app msg = handler ->
  (forall r m', runs_at T handler m r m' -> m' = m /\ exists resp, r = Some resp /\ Q resp) ->
  (forall resp, runs_at T handler m (Some resp) m -> exists b, response_encode resp = Ok b /\ fits b) ->
  runs_at T (kdc_dispatch fresh_fips app msg) m r m' ->
  m' = m /\ exists reply, r = Some reply /\ fits reply /\ exists resp, response_encode resp = Ok reply /\ Q resp.
Proof.
  unfold kdc_dispatch. intros -> Hh Hf (x & m1 & Hx & Hr)%runs_at_bind. destruct (Hh _ _ Hx) as [-> (resp & -> & HQ)].
  destruct (Hf resp Hx) as (b & Hb & Hfit). unfold encode_reply in Hr. rewrite Hb in Hr. destruct Hr as [-> ->].
  split; [done|]. exists b. eauto 6.
Qed.
End network.

(** ** Names *)

Definition ascii_name (s : rstring) : Prop := Forall (fun c => 0 <= c < 128) s.

Lemma ascii_name_app s t : ascii_name (s ++ t) <-> ascii_name s /\ ascii_name t.
Proof. apply Forall_app. Qed.

Lemma gstring_ascii s : ascii_name s -> string_to_gstring s = s.
Proof.
  intros Hs. unfold string_to_gstring. rewrite utf8_ascii by done. induction Hs as [|c s Hc _ IH]; [done|].
  cbn [List.map]. rewrite IH. unfold permitted. rewrite (proj2 (Z.leb_le 0 c)), (proj2 (Z.leb_le c 127)) by lia. done.
Qed.

Lemma gstring_roundtrip s : ascii_name s -> gstring_to_string (string_to_gstring s) = s.
Proof.
  intros Hs. rewrite gstring_ascii by done. unfold gstring_to_string. rewrite <- (utf8_ascii s Hs) at 1.
  apply utf8_lossy_encode. eapply Forall_impl; [exact Hs|]. intros c Hc. left. simpl in Hc. lia.
Qed.

Lemma split_ascii d s : ascii_name s -> Forall ascii_name (split_char d s).
Proof.
  intros Hs. apply Forall_forall. intros p Hp. unfold ascii_name in *. rewrite Forall_forall in Hs |- *. intros c Hc.
  apply Hs. clear Hs. rewrite <- (join_split d s). revert Hp. generalize (split_char d s). intros l Hp.
  induction l as [|q l IH]; [by apply elem_of_nil in Hp|]. destruct l as [|q' l].
  - apply list_elem_of_singleton in Hp as ->. done.
  - rewrite join_cons by done. apply elem_of_cons in Hp as [->|Hp]; set_solver.
Qed.

Lemma principal_roundtrip s : ascii_name s -> principal_name_to_string (string_to_principal_name s) = s.
Proof.
  intros Hs. unfold principal_name_to_string, string_to_principal_name. cbn [pn_string]. rewrite <- (join_split c_slash s) at 2.
  f_equal. rewrite map_map. pose proof (split_ascii c_slash s Hs) as Hf. induction Hf as [|p l Hp _ IH]; [done|].
  cbn [List.map]. by rewrite gstring_roundtrip, IH.
Qed.

Lemma krbtgt_name realm :
  ascii_name realm -> principal_name_to_string (krbtgt_principal_name realm) = str "krbtgt/" ++ realm.
Proof. intros Hr. apply principal_roundtrip. rewrite ascii_name_app. split; [by_decide|done]. Qed.

Lemma krbtgt_not_changepw realm : ascii_name realm -> is_changepw (krbtgt_principal_name realm) = false.
Proof. intros Hr. unfold is_changepw. by rewrite krbtgt_name. Qed.

(** ** The client *)

(** The generator of random bytes, or the KDC's store or generator, failed. *)
Definition unserved (C : Z -> Prop) (e : KrbClientError) : Prop :=
  e = KrbCrypto Ossl \/ exists code, e = KdcErrorCode code /\ C code.

Section sealing.
  Context `{!OpenSsl, !OpenSslLaws} (T : Z -> Prop) (m : kvstore).

Lemma ro_seal (e : Enctype) key usage b :
  zlen key = key_len e -> ro T m (fun x => x = Ossl) (encrypt_with e key usage b) (fun c => decrypt e key usage c = Ok b).
Proof.
  intros Hk. apply ro_runs. intros r m' (rep & m1 & (-> & Hrep) & -> & ->). destruct Hrep as [->|(conf & -> & Hl & Hb)].
  - split; [done|]. unfold encrypt. destruct (derive_ke_ki_ok e key usage Hk) as (keys & -> & _). done.
  - destruct (encrypt_decrypt e key usage conf b Hk) as (c & -> & Hd & _); [unfold zlen; by rewrite Hl|]. done.
Qed.

(** A value that is there. *)
Lemma ro_there {A B : Type} (I : KrbClientError -> Prop) (o : option A) (a : A) (f : A -> prog (result KrbClientError B)) (Q : B -> Prop) :
  o = Some a -> ro T m I (f a) Q -> ro T m I (try_bind (or_malformed o) f) Q.
Proof. intros -> Hf. by apply ro_ok. Qed.

Lemma ro_lift_ok {A B : Type} (I : KrbClientError -> Prop) (r : result KrbClientError A) (a : A) (f : A -> prog (result KrbClientError B)) (Q : B -> Prop) :
  r = Ok a -> ro T m I (f a) Q -> ro T m I (try_bind (lift r) f) Q.
Proof. intros -> Hf. by apply ro_ok. Qed.
End sealing.

(** The result with the run that gave it. *)
Lemma ro_run {E A : Type} (T : Z -> Prop) m (I : E -> Prop) (p : prog (result E A)) (Q : A -> Prop) :
  ro T m I p Q -> ro T m I p (fun a => Q a /\ runs_at T p m (Ok a) m).
Proof. intros Hp r m' Hr. pose proof (Hp r m' Hr) as [-> Hx]. split; [done|]. by destruct r. Qed.

Section exchanges.
  Context `{!WireCodec, !ClientCodec, !WireLaws} `{EntryCodec} `{Base64} `{!OpenSsl, !OpenSslLaws} `{!KrbCodec} `{!ErrorText}.
  Context `{!DerLaw EncTicketPart, !DerLaw EncAsRepPart, !DerLaw EncTgsRepPart, !DerLaw ApReq}.
  Context `{!DerLaw PaEncTsEnc, !DerLaw EncryptedData, !DerLaw Authenticator, !DerLaw (list PaData), !DerLaw (list EtypeInfo2Entry)}.
  Context `{!DerTotal PaEncTsEnc, !DerTotal EncryptedData, !DerTotal Authenticator, !DerTotal ApReq, !DerTotal (list PaData),
    !DerTotal (list EtypeInfo2Entry)}.
  Context (fresh_fips : result Error unit) (T : Z -> Prop) (app : AppState) (Hst : connected (app_store app))
    (F : forest) (m : kvstore) (HF : holds (app_store app) index_spec F m) (Hwf : forest_keys_wf app F).

(** All clocks agree within the allowed skew. *)
Definition clocks_agree : Prop :=
  forall t t', T t -> T t' -> Z.abs (diff_seconds (whole_seconds t) (whole_seconds t')) <= CLOCK_SKEW_SECS.
  Context (Hclocks : clocks_agree).

(** The requests of one kind and their answers can be encoded within the limit
    of the framing. *)
Definition carried (is_req : KdcReq -> Prop) (encode : KdcReq -> option bytes) (handle : KdcReq -> prog (option KdcResponse)) : Prop :=
  forall req, is_req req -> (exists b, encode req = Some b /\ fits b) /\
    forall resp, runs_at T (handle req) m (Some resp) m -> exists b, response_encode resp = Ok b /\ fits b.

(** An account of the realm whose first key is the password's. *)
Record account (realm name : rstring) (password : bytes) (dn : Dn) (e : Entry) (ks : list PrincipalKey) (k : PrincipalKey) (salt : bytes) : Prop := {
  acc_at : principal_at app F (fqn name realm) dn e;
  acc_keys : has_keys e ks;
  acc_first : head ks = Some k;
  acc_salt : Principal.salt e = Ok salt;
  acc_plain : forallb permitted salt = true;
  acc_password : string_to_key (pk_enctype k) password salt None = Ok (pk_key k);
}.

Lemma ro_timestamp C (en : Enctype) key :
  zlen key = key_len en ->
  ro T m (unserved C) (timestamp_padata en key) (fun pa => pa_type pa = PA_ENC_TIMESTAMP /\ exists t cipher b, T t /\
    der_encode (mkEncryptedData (etype_number en) None cipher) = Some (pa_value pa) /\
    der_encode (mkPaEncTsEnc (whole_seconds t)) = Some b /\ decrypt en key 1 cipher = Ok b).
Proof.
  intros Hk. unfold timestamp_padata. apply ro_clock. intros t Ht. destruct (der_total (mkPaEncTsEnc (whole_seconds t))) as [b Hb].
  change (now_of t).1 with (whole_seconds t). eapply ro_there; [exact Hb|].
  eapply ro_try; [eapply ro_map_err; [by apply ro_seal|]; intros ? ->; by left|]. intros c Hc.
  destruct (der_total (mkEncryptedData (etype_number en) None c)) as [v Hv]. eapply ro_there; [exact Hv|].
  apply ro_ret. split; [done|]. by exists t, c, b.
Qed.

(** What the KDC says about an account is what the client needs. *)
Lemma hint_chosen ks k salt err :
  head ks = Some k -> forallb permitted salt = true -> ke_code err = KDC_ERR_PREAUTH_REQUIRED -> ke_data err = preauth_data ks salt ->
  preauth_hint err = Ok (pk_enctype k, salt).
Proof.
  intros Hk Hs Hc Hd. unfold preauth_hint. rewrite Hc, Hd. cbn [Z.eqb negb]. unfold preauth_data.
  destruct (der_total (etype_info2 ks salt)) as [b Hb]. rewrite Hb. cbn [mbind option_bind]. unfold encode_method_data.
  destruct (der_total [mkPaData PA_ENC_TIMESTAMP []; mkPaData PA_ETYPE_INFO2 b]) as [d Hd']. rewrite Hd'.
  change (negb (KDC_ERR_PREAUTH_REQUIRED =? 25)) with false. cbn [ok_or mbind result_bind].
  rewrite (der_roundtrip _ _ Hd'). cbn [ok_or mbind result_bind].
  change (List.find _ _) with (Some (mkPaData PA_ETYPE_INFO2 b)). cbn [ok_or mbind result_bind pa_value].
  rewrite (der_roundtrip _ _ Hb). cbn [ok_or mbind result_bind]. destruct ks as [|k' ks]; [done|]. injection Hk as ->.
  unfold chosen_etype, etype_info2, gstring_from_bytes. cbn [omap list_omap]. rewrite Hs. cbn [mbind option_bind omap list_omap ei_etype ei_salt].
  rewrite try_from_etype. done.
Qed.

(** One request of the client and the answer it reads. *)
Lemma ro_ask I addr (is_req : KdcReq -> Prop) encode handle req (Q : KdcResponse -> Prop) :
  carried is_req encode handle -> is_req req -> (forall b, encode req = Some b -> respond_to fresh_fips app b = handle req) ->
  (forall r m', runs_at T (handle req) m r m' -> m' = m /\ exists resp, r = Some resp /\ Q resp) ->
  exists b, encode req = Some b /\ ro T m I (send_and_recv (kdc_network fresh_fips app) addr b)
    (fun reply => exists resp, response_encode resp = Ok reply /\ Q resp).
Proof.
  intros Hc Hreq Hresp Hh. destruct (Hc req Hreq) as [(b & Hb & Hfit) Hrep]. exists b. split; [done|].
  apply ro_send; [done|]. intros r m' Hr. eapply dispatch_reply; [by apply Hresp|exact Hh|exact Hrep|exact Hr].
Qed.

Lemma respond_as req b : encode_as_req req = Some b -> respond_to fresh_fips app b = as_handle fresh_fips app req.
Proof. intros Hb. unfold respond_to. by rewrite (decode_request_as _ _ Hb). Qed.

Lemma respond_tgs req b : encode_tgs_req req = Some b -> respond_to fresh_fips app b = tgs_handle fresh_fips app req.
Proof. intros Hb. unfold respond_to. by rewrite (decode_request_tgs _ _ Hb). Qed.

Lemma read_error tag decode err reply :
  response_encode (KdcError err) = Ok reply -> tag <> 30 -> decode_or_error tag decode reply = Ok (inr err).
Proof. unfold response_encode. destruct (encode_krb_error err) as [b|] eqn:He; cbn [ok_or]; [intros [= ->]|by intros [=]]. by apply decode_error. Qed.

Lemma read_as_rep rep reply : response_encode (AsRep rep) = Ok reply -> decode_as_or_error reply = Ok (inl rep).
Proof. unfold response_encode. destruct (encode_as_rep rep) as [b|] eqn:He; cbn [ok_or]; [intros [= ->]|by intros [=]]. by destruct (as_rep_law _ _ He); apply (decode_reply 107). Qed.

Lemma read_tgs_rep rep reply : response_encode (TgsRep rep) = Ok reply -> decode_tgs_or_error reply = Ok (inl rep).
Proof. unfold response_encode. destruct (encode_tgs_rep rep) as [b|] eqn:He; cbn [ok_or]; [intros [= ->]|by intros [=]]. by destruct (tgs_rep_law _ _ He); apply (decode_reply 109). Qed.

(** The requests of an authentication exchange. *)
Definition as_request (realm principal : rstring) (req : KdcReq) : Prop :=
  req = mkKdcReq None (as_body realm principal) \/
  exists en key pa, runs_at T (timestamp_padata en key) m (Ok pa) m /\ req = mkKdcReq (Some [pa]) (as_body realm principal).

(** A ticket-granting ticket of the principal under [kk], with its session key. *)
Definition tgt_for (realm principal : rstring) (en : Enctype) (kk : PrincipalKey) (cred : Credential) : Prop :=
  exists t1 t2 ad, T t1 /\ T t2 /\ cred_enctype cred = en /\ zlen (cred_session_key cred) = key_len en /\
    cred_cname cred = string_to_principal_name principal /\ cred_crealm cred = string_to_gstring realm /\
    cred_auth_time_unix_secs cred = kerberos_time_to_unix (whole_seconds t1) /\
    tkt_realm (cred_ticket cred) = string_to_gstring realm /\ tkt_sname (cred_ticket cred) = krbtgt_principal_name realm /\
    try_from (ed_etype (tkt_enc_part (cred_ticket cred))) = Some (pk_enctype kk) /\
    seals (pk_enctype kk) (pk_key kk) 2 (ed_cipher (tkt_enc_part (cred_ticket cred)))
      (mkEncTicketPart (ticket_flags [flag_INITIAL; flag_PRE_AUTHENT]) (mkEncryptionKey (etype_number en) (cred_session_key cred))
         (cred_crealm cred) (cred_cname cred) (whole_seconds t1) (plus_seconds_of t2 TICKET_LIFETIME_SECS) ad).

Lemma open_as_rep_for pas realm principal dn e k kk rep :
  ascii_name realm -> as_reply_for T app F (mkKdcReq pas (as_body realm principal)) (string_to_principal_name principal) k kk dn e rep ->
  exists cred, open_as_rep (pk_key k) rep = Ok cred /\ tgt_for realm principal (pk_enctype k) kk cred.
Proof.
  intros Hr (sk & t1 & t2 & ad & Hlen & _ & Ht1 & Ht2 & Hcr & Hcn & Htr & Hts & Het & Hseal & _ & Hed & b & Hb & Hpart).
  unfold open_as_rep. rewrite Hed, try_from_etype. cbn [ok_or mbind result_bind]. rewrite Hb. cbn [map_err mbind result_bind].
  rewrite Hpart. cbn [ok_or mbind result_bind as_rep_part]. unfold credential. cbn [erp_nonce erp_key ek_type ek_value erp_auth_time req_body as_body rb_nonce].
  rewrite Z.eqb_refl, try_from_etype. cbn [negb ok_or mbind result_bind]. eexists. split; [done|].
  assert (ticket_sname (mkKdcReq pas (as_body realm principal)) = krbtgt_principal_name realm) as Hsn.
  { unfold ticket_sname, kdc_sname, realm_str. cbn [req_body as_body rb_sname rb_realm]. rewrite krbtgt_not_changepw by done.
    unfold realm_to_string. by rewrite gstring_roundtrip. }
  exists t1, t2, ad. cbn [cred_enctype cred_session_key cred_cname cred_crealm cred_ticket cred_auth_time_unix_secs].
  rewrite Hcr, Hcn. rewrite Hsn in Hts, Hseal. rewrite krbtgt_not_changepw in Hseal by done. by repeat split.
Qed.

(** The realm's ticket-granting service, with a key of the enctype [en]. *)
Record granting (realm : rstring) (en : Enctype) (dn : Dn) (e : Entry) (ks : list PrincipalKey) (kk : PrincipalKey) : Prop := {
  gr_at : principal_at app F (fqn (str "krbtgt/" ++ realm) realm) dn e;
  gr_keys : has_keys e ks;
  gr_key : find_key en ks = Some kk;
}.

Lemma first_key_found ks k : head ks = Some k -> find_key (pk_enctype k) ks = Some k.
Proof. destruct ks as [|x ks]; [done|]. intros [= ->]. unfold find_key. cbn [List.find]. by rewrite bool_decide_true. Qed.

Lemma account_key_len realm name password dn e ks k salt :
  account realm name password dn e ks k salt -> zlen (pk_key k) = key_len (pk_enctype k).
Proof.
  intros [[_ [dn' Hf]] Hk Hh _ _ _]. apply (proj1 (Forall_forall _ _) (Hwf _ _ _ _ Hf Hk)).
  destruct ks as [|x ks]; [done|]. injection Hh as ->. by left.
Qed.

Lemma as_realm pas realm principal : ascii_name realm -> realm_str (mkKdcReq pas (as_body realm principal)) = realm.
Proof. intros Hr. unfold realm_str, realm_to_string. cbn [req_body as_body rb_realm]. by apply gstring_roundtrip. Qed.

(** What the KDC answers to the two requests. *)
Definition hints (ks : list PrincipalKey) (salt : bytes) (resp : KdcResponse) : Prop :=
  exists err, resp = KdcError err /\ (ke_code err = KRB_ERR_GENERIC \/
    ke_code err = KDC_ERR_PREAUTH_REQUIRED /\ ke_data err = preauth_data ks salt).

Lemma as_first_answer realm principal password dn e ks k salt r m' :
  ascii_name realm -> ascii_name principal -> account realm principal password dn e ks k salt ->
  runs_at T (as_handle fresh_fips app (mkKdcReq None (as_body realm principal))) m r m' ->
  m' = m /\ exists resp, r = Some resp /\ hints ks salt resp.
Proof.
  intros Hr Hp [Hat Hks _ Hsalt _ _] Hrun.
  eapply (as_handle_hint fresh_fips T app Hst F m HF _ (string_to_principal_name principal) dn e ks salt) in Hrun
    as [-> (err & -> & Herr)]; [|done|by rewrite as_realm, principal_roundtrip|done..].
  split; [done|]. eexists. split; [done|]. by exists err.
Qed.

Lemma as_second_answer realm principal password dn e ks k salt kdn ke kks kk pa t c b r m' :
  ascii_name realm -> ascii_name principal -> account realm principal password dn e ks k salt ->
  granting realm (pk_enctype k) kdn ke kks kk -> T t -> pa_type pa = PA_ENC_TIMESTAMP ->
  der_encode (mkEncryptedData (etype_number (pk_enctype k)) None c) = Some (pa_value pa) ->
  der_encode (mkPaEncTsEnc (whole_seconds t)) = Some b -> decrypt (pk_enctype k) (pk_key k) 1 c = Ok b ->
  runs_at T (as_handle fresh_fips app (mkKdcReq (Some [pa]) (as_body realm principal))) m r m' ->
  m' = m /\ exists resp, r = Some resp /\
    ((exists rep, resp = AsRep rep /\ as_reply_for T app F (mkKdcReq (Some [pa]) (as_body realm principal))
        (string_to_principal_name principal) k kk dn e rep) \/
     exists err, resp = KdcError err /\ ke_code err = KRB_ERR_GENERIC).
Proof.
  intros Hr Hp [Hat Hks Hhd Hsalt _ _] [Hkat Hkks Hkk] Ht Hty Hv Hb Hd Hrun.
  eapply (as_handle_issues fresh_fips T app Hst F m HF Hwf _ (string_to_principal_name principal) dn e ks salt) in Hrun;
    [exact Hrun|done|by rewrite as_realm, principal_roundtrip|done|done|by apply first_key_found| |exact Hv|exact Hb|exact Hd|..].
  - unfold find_padata. cbn [padata mbind option_bind List.find]. by rewrite Hty.
  - intros now Hnow. by apply Hclocks.
  - unfold kdc_sname. by rewrite as_realm, krbtgt_name.
  - exact Hkks.
  - exact Hkk.
Qed.

Lemma ro_as_exchange addr realm principal password dn e ks k salt kdn ke kks kk :
  ascii_name realm -> ascii_name principal -> account realm principal password dn e ks k salt ->
  granting realm (pk_enctype k) kdn ke kks kk -> carried (as_request realm principal) encode_as_req (as_handle fresh_fips app) ->
  ro T m (unserved (fun c => c = KRB_ERR_GENERIC)) (as_exchange (kdc_network fresh_fips app) addr realm principal password)
    (tgt_for realm principal (pk_enctype k) kk).
Proof.
  intros Hr Hp Hacc Hgr Hc. unfold as_exchange. apply ro_clock. intros t0 _. cbn zeta.
  destruct (ro_ask (unserved (fun c => c = KRB_ERR_GENERIC)) addr _ _ _ (mkKdcReq None (as_body realm principal)) (hints ks salt) Hc)
    as (b1 & Hb1 & Hask1); [by left|apply respond_as|intros r m'; by eapply as_first_answer|].
  eapply ro_there; [exact Hb1|]. eapply ro_try; [exact Hask1|]. intros reply (resp & Hrep & err & -> & Herr).
  eapply ro_lift_ok; [by apply read_error|]. cbn [lift]. apply ro_ok. destruct Herr as [Hgen|[Hcode Hdata]].
  { unfold preauth_hint. rewrite Hgen. change (negb (KRB_ERR_GENERIC =? 25)) with true. cbn iota.
    eapply (ro_try _ _ _ _ _ (fun _ => False)); [|done]. apply ro_err. right. by exists KRB_ERR_GENERIC. }
  eapply ro_lift_ok; [eapply hint_chosen; [apply Hacc|apply Hacc|done|done]|]. unfold crypto. rewrite (acc_password _ _ _ _ _ _ _ _ Hacc).
  apply ro_ok. eapply ro_try; [apply ro_run, ro_timestamp; by eapply account_key_len|].
  intros pa [(Hty & t & c & b & Ht & Hv & Hb & Hd) Hrun].
  destruct (ro_ask (unserved (fun c => c = KRB_ERR_GENERIC)) addr _ _ _ (mkKdcReq (Some [pa]) (as_body realm principal)) _ Hc
    ltac:(right; by exists (pk_enctype k), (pk_key k), pa) (respond_as _)
    (fun r m' => as_second_answer _ _ _ _ _ _ _ _ _ _ _ _ _ _ _ _ r m' Hr Hp Hacc Hgr Ht Hty Hv Hb Hd)) as (b2 & Hb2 & Hask2).
  eapply ro_there; [exact Hb2|]. eapply ro_try; [exact Hask2|]. intros reply2 (resp & Hrep2 & [(rep & -> & Hfor)|(err2 & -> & Hgen)]).
  - eapply ro_lift_ok; [by apply read_as_rep|]. cbn [reply_or_code]. apply ro_ok.
    destruct (open_as_rep_for _ _ _ _ _ _ _ _ Hr Hfor) as (cred & -> & Hcred). by apply ro_ret.
  - eapply ro_lift_ok; [by apply read_error|]. cbn [reply_or_code lift]. eapply (ro_try _ _ _ _ _ (fun _ => False)); [|done].
    apply ro_err. right. by exists (ke_code err2).
Qed.

(** Clocks that agree do not expire a fresh ticket. *)
Lemma whole_diff t t' : diff_seconds (whole_seconds t) (whole_seconds t') = t' / NANOS - t / NANOS.
Proof.
  unfold diff_seconds, whole_seconds. rewrite <- Z.mul_sub_distr_r. by apply Z.quot_mul.
Qed.

Lemma fresh_ticket t now : T t -> T now -> diff_seconds (plus_seconds_of t TICKET_LIFETIME_SECS) (whole_seconds now) <= 0.
Proof.
  intros Ht Hn. specialize (Hclocks t now Ht Hn). unfold plus_seconds_of. rewrite whole_diff in Hclocks |- *.
  rewrite Z.div_add by done. unfold CLOCK_SKEW_SECS, TICKET_LIFETIME_SECS in *. lia.
Qed.

Lemma principal_at_unique name dn e dn' e' :
  principal_at app F name dn e -> principal_at app F name dn' e' -> dn = dn' /\ e = e'.
Proof.
  intros [Hu [d Hf]] [Hu' [d' Hf']]. assert (dn = dn') as <- by (apply Hu', Hu; done). split; [done|]. congruence.
Qed.

Lemma ro_ap_padata C cred :
  zlen (cred_session_key cred) = key_len (cred_enctype cred) ->
  ro T m (unserved C) (ap_padata cred) (fun pa => pa_type pa = PA_TGS_REQ /\ exists t usec c b, T t /\
    der_encode (mkApReq (cred_ticket cred) (mkEncryptedData (etype_number (cred_enctype cred)) None c)) = Some (pa_value pa) /\
    der_encode (mkAuthenticator (cred_crealm cred) (cred_cname cred) None usec (whole_seconds t) None) = Some b /\
    decrypt (cred_enctype cred) (cred_session_key cred) 7 c = Ok b).
Proof.
  intros Hk. unfold ap_padata. apply ro_clock. intros t Ht.
  destruct (der_total (mkAuthenticator (cred_crealm cred) (cred_cname cred) None (now_of t).2 (now_of t).1 None)) as [b Hb].
  eapply ro_there; [exact Hb|]. eapply ro_try; [eapply ro_map_err; [by apply ro_seal|]; intros ? ->; by left|]. intros c Hc.
  destruct (der_total (mkApReq (cred_ticket cred) (mkEncryptedData (etype_number (cred_enctype cred)) None c))) as [v Hv].
  eapply ro_there; [exact Hv|]. apply ro_ret. split; [done|]. by exists t, (now_of t).2, c, b.
Qed.

(** The request of a ticket-granting exchange. *)
Definition tgs_request (addr realm principal : rstring) (password : bytes) (service : rstring) (req : KdcReq) : Prop :=
  exists tgt pa, runs_at T (as_exchange (kdc_network fresh_fips app) addr realm principal password) m (Ok tgt) m /\
    runs_at T (ap_padata tgt) m (Ok pa) m /\ req = mkKdcReq (Some [pa]) (tgs_body realm service (cred_enctype tgt)).

(** The service of this realm, and the key the KDC takes for a client that
    knows the enctype [en]. *)
Record served_by (realm service : rstring) (en : Enctype) (dn : Dn) (e : Entry) (ks : list PrincipalKey) (sk : PrincipalKey) : Prop := {
  sv_at : principal_at app F (fqn service realm) dn e;
  sv_keys : has_keys e ks;
  sv_key : preferred_key (fun k => existsb (Z.eqb (etype_number (pk_enctype k))) [etype_number en]) ks = Some sk;
  sv_plain : is_changepw (string_to_principal_name service) = false;
}.

(** A ticket of the principal for the service under [sk], with its session key;
    authorization data, if there is any, is the client's. *)
Definition service_ticket_for (realm principal service : rstring) (dn : Dn) (e : Entry) (sk kk : PrincipalKey) (cred : Credential) : Prop :=
  exists t1 end_time ad, T t1 /\ cred_enctype cred = pk_enctype sk /\ zlen (cred_session_key cred) = key_len (pk_enctype sk) /\
    cred_cname cred = string_to_principal_name principal /\ cred_crealm cred = string_to_gstring realm /\
    cred_auth_time_unix_secs cred = kerberos_time_to_unix (whole_seconds t1) /\
    tkt_realm (cred_ticket cred) = string_to_gstring realm /\ tkt_sname (cred_ticket cred) = string_to_principal_name service /\
    try_from (ed_etype (tkt_enc_part (cred_ticket cred))) = Some (pk_enctype sk) /\
    seals (pk_enctype sk) (pk_key sk) 2 (ed_cipher (tkt_enc_part (cred_ticket cred)))
      (mkEncTicketPart reserved_flags (mkEncryptionKey (etype_number (pk_enctype sk)) (cred_session_key cred))
         (cred_crealm cred) (cred_cname cred) (whole_seconds t1) end_time ad) /\
    (forall x, ad = Some x -> pac_for app F dn e (whole_seconds t1) sk kk x).

Lemma tgs_realm pas realm service en : ascii_name realm -> realm_str (mkKdcReq pas (tgs_body realm service en)) = realm.
Proof. intros Hr. unfold realm_str, realm_to_string. cbn [req_body tgs_body rb_realm]. by apply gstring_roundtrip. Qed.

(** What the client makes of the reply. *)
Lemma open_tgs_rep_for pas realm principal service dn e en kk sk cred part a rep t1 :
  ascii_name realm -> ascii_name principal -> principal_at app F (fqn principal realm) dn e ->
  cred_enctype cred = en -> pk_enctype kk = en -> zlen (cred_session_key cred) = key_len en ->
  ek_value (etp_key part) = cred_session_key cred -> auth_subkey a = None ->
  etp_crealm part = string_to_gstring realm -> etp_cname part = string_to_principal_name principal -> etp_auth_time part = whole_seconds t1 -> T t1 ->
  tgs_reply_for T (mkKdcReq pas (tgs_body realm service en)) kk sk part a (string_to_gstring realm)
    (string_to_principal_name service) (client_pac app F part kk sk) rep ->
  exists cred', open_tgs_rep cred rep = Ok cred' /\ service_ticket_for realm principal service dn e sk kk cred'.
Proof.
  intros Hr Hp Hat Hen Hken Hlen Hkey Hsub Hcr Hcn Hau Ht1
    (key & t3 & t4 & ad' & Hkl & _ & _ & _ & Hpac & Hcr' & Hcn' & Htr' & Hts' & Het' & Hseal' & Hopen).
  rewrite Hsub, Hkey, Hken in Hopen. cbn [reply_key_for] in Hopen. destruct (Hopen Hlen) as (x & Hx & Hpart). clear Hopen.
  unfold open_tgs_rep. rewrite Hen, Hx. cbn [map_err mbind result_bind]. rewrite Hpart.
  cbn [ok_or mbind result_bind tgs_rep_part]. unfold credential. cbn [erp_nonce erp_key ek_type ek_value erp_auth_time req_body tgs_body rb_nonce].
  rewrite Z.eqb_refl, try_from_etype. cbn [negb ok_or mbind result_bind]. eexists. split; [done|].
  eexists t1, _, ad'. cbn [cred_enctype cred_session_key cred_cname cred_crealm cred_ticket cred_auth_time_unix_secs].
  rewrite Hcr', Hcn', Hau in *. do 9 (split; [done|]). split; [exact Hseal'|]. intros y Hy. destruct (Hpac y Hy) as (cdn & client & Hc & Hfor).
  rewrite Hau in Hfor. unfold realm_to_string in Hc. rewrite Hcn, Hcr, principal_roundtrip, gstring_roundtrip in Hc by done.
  by destruct (principal_at_unique _ _ _ _ _ Hat Hc) as [-> ->].
Qed.

Lemma tgs_answer realm principal service dn e en kdn ke kks kk sdn se sks sk cred pa t usec c b r m' :
  ascii_name realm -> ascii_name principal -> ascii_name service -> app_realm app = realm -> principal_at app F (fqn principal realm) dn e ->
  granting realm en kdn ke kks kk -> served_by realm service en sdn se sks sk -> tgt_for realm principal en kk cred ->
  pa_type pa = PA_TGS_REQ -> T t ->
  der_encode (mkApReq (cred_ticket cred) (mkEncryptedData (etype_number (cred_enctype cred)) None c)) = Some (pa_value pa) ->
  der_encode (mkAuthenticator (cred_crealm cred) (cred_cname cred) None usec (whole_seconds t) None) = Some b ->
  decrypt (cred_enctype cred) (cred_session_key cred) 7 c = Ok b ->
  runs_at T (tgs_handle fresh_fips app (mkKdcReq (Some [pa]) (tgs_body realm service (cred_enctype cred)))) m r m' ->
  m' = m /\ exists resp, r = Some resp /\
    ((exists rep cred', resp = TgsRep rep /\ open_tgs_rep cred rep = Ok cred' /\ service_ticket_for realm principal service dn e sk kk cred') \/
     exists err, resp = KdcError err /\ tgs_code (ke_code err)).
Proof.
  intros Hr Hp Hs Happ Hat [Hkat Hkks Hkk] [Hsat Hsks Hsk Hncp]
    (t1 & t2 & ad & Ht1 & Ht2 & Hen & Hlen & Hcn & Hcr & _ & Htr & Hts & Het & Hseal) Hty Ht Hap Hb Hd Hrun.
  pose proof (find_key_in _ _ _ Hkk) as [_ Hken]. rewrite Hen in *. set (req := mkKdcReq _ _) in Hrun.
  assert (realm_str req = realm) as Hrs by (by apply tgs_realm).
  set (ap := mkApReq _ _) in Hap. set (a := mkAuthenticator _ _ _ _ _ _) in Hb. set (part := mkEncTicketPart _ _ _ _ _ _ _) in Hseal.
  assert (principal_at app F (issuer_principal (ap_ticket ap)) kdn ke) as Hiss.
  { unfold issuer_principal, realm_to_string. cbn [ap ap_ticket]. by rewrite Htr, Hts, krbtgt_name, gstring_roundtrip. }
  apply (tgs_handle_issues fresh_fips T app Hst F m HF Hwf req ap pa eq_refl Hty Hap kdn ke kks kk Hiss Hkks) with
    (tgt := part) (a := a) (b := b) (sname := string_to_principal_name service) (sdn := sdn) (se := se) (sks := sks) (sk := sk) in Hrun;
    try done; try (by rewrite Hken); [|by intros now Hnow; split; [apply fresh_ticket|apply Hclocks]|by rewrite Hrs|by rewrite Hrs, principal_roundtrip].
  destruct Hrun as [-> (resp & -> & Hresp)]. split; [done|]. exists resp. split; [done|].
  destruct Hresp as [(rep & -> & Hrep)|Herr]; [left|by right].
  destruct (open_tgs_rep_for (Some [pa]) realm principal service dn e en kk sk cred part a rep t1 Hr Hp Hat Hen Hken Hlen) as (cred' & Ho & Hc); try done.
  by exists rep, cred'.
Qed.

Lemma ro_tgs_exchange addr realm principal password service dn e en kdn ke kks kk sdn se sks sk cred :
  ascii_name realm -> ascii_name principal -> ascii_name service -> app_realm app = realm -> principal_at app F (fqn principal realm) dn e ->
  granting realm en kdn ke kks kk -> served_by realm service en sdn se sks sk ->
  carried (tgs_request addr realm principal password service) encode_tgs_req (tgs_handle fresh_fips app) ->
  tgt_for realm principal en kk cred ->
  runs_at T (as_exchange (kdc_network fresh_fips app) addr realm principal password) m (Ok cred) m ->
  ro T m (unserved tgs_code) (tgs_exchange (kdc_network fresh_fips app) addr realm cred service)
    (service_ticket_for realm principal service dn e sk kk).
Proof.
  intros Hr Hp Hs Happ Hat Hgr Hsv Hc Htgt Hrun. unfold tgs_exchange.
  eapply ro_try; [apply ro_run, ro_ap_padata; destruct Htgt as (t1 & t2 & ad & _ & _ & -> & Hl & _); exact Hl|].
  intros pa [(Hty & t & usec & c & b & Ht & Hv & Hb & Hd) Hpa]. apply ro_clock. intros t0 _.
  destruct (ro_ask (unserved tgs_code) addr _ _ _ (mkKdcReq (Some [pa]) (tgs_body realm service (cred_enctype cred))) _ Hc
    ltac:(by exists cred, pa) (respond_tgs _)
    (fun r m' => tgs_answer _ _ _ _ _ _ _ _ _ _ _ _ _ _ _ _ _ _ _ _ r m' Hr Hp Hs Happ Hat Hgr Hsv Htgt Hty Ht Hv Hb Hd))
    as (b2 & Hb2 & Hask). eapply ro_there; [exact Hb2|]. eapply ro_try; [exact Hask|].
  intros reply (resp & Hrep & [(rep & cred' & -> & Ho & Hfor)|(err & -> & Hcode)]).
  - eapply ro_lift_ok; [by apply read_tgs_rep|]. cbn [reply_or_code]. apply ro_ok. rewrite Ho. by apply ro_ret.
  - eapply ro_lift_ok; [by apply read_error|]. cbn [reply_or_code lift]. eapply (ro_try _ _ _ _ _ (fun _ => False)); [|done].
    apply ro_err. right. by exists (ke_code err).
Qed.

(** A logon as the simulator makes it: a ticket-granting ticket for the
    password, and with it a ticket for the service. *)
Definition logon (addr realm principal : rstring) (password : bytes) (service : rstring) : prog (result KrbClientError Credential) :=
  tgt <-? as_exchange (kdc_network fresh_fips app) addr realm principal password ;;
  tgs_exchange (kdc_network fresh_fips app) addr realm tgt service.

Lemma unserved_mono (C D : Z -> Prop) e : unserved C e -> (forall c, C c -> D c) -> unserved D e.
Proof. intros [->|(c & -> & Hc)] HD; [by left|]. right. exists c. auto. Qed.

Lemma ro_logon addr realm principal password service dn e ks k salt kdn ke kks kk sdn se sks sk :
  ascii_name realm -> ascii_name principal -> ascii_name service -> app_realm app = realm ->
  account realm principal password dn e ks k salt -> granting realm (pk_enctype k) kdn ke kks kk ->
  served_by realm service (pk_enctype k) sdn se sks sk ->
  carried (as_request realm principal) encode_as_req (as_handle fresh_fips app) ->
  carried (tgs_request addr realm principal password service) encode_tgs_req (tgs_handle fresh_fips app) ->
  ro T m (unserved tgs_code) (logon addr realm principal password service) (service_ticket_for realm principal service dn e sk kk).
Proof.
  intros Hr Hp Hs Happ Hacc Hgr Hsv Has Htgs. eapply ro_try.
  - apply ro_run. eapply ro_mono; [by eapply ro_as_exchange| |intros cred Hc; exact Hc].
    intros err He. eapply unserved_mono; [exact He|]. intros c ->. by left.
  - intros cred [Hc Hrun]. eapply ro_tgs_exchange; try done. apply Hacc.
Qed.

End exchanges.

(** ** An example *)

#[local] Existing Instance bit_codec.
#[local] Existing Instance hex_base64.
#[local] Existing Instance demo_ssl.
#[local] Existing Instance demo_ssl_laws.
#[local] Existing Instance PlainCodec.plain_codec.
#[local] Existing Instance PlainCodec.plain_enc_ticket_law.
#[local] Existing Instance PlainCodec.plain_as_rep_law.
#[local] Existing Instance PlainCodec.plain_tgs_rep_law.
#[local] Existing Instance plain_text.

Lemma plain_der_total {A : Type} (s : Ser A) : @DerTotal A (plain_der s).
Proof. intros a. by eexists. Qed.

Lemma plain_laws : DerLaw ApReq /\ DerLaw PaEncTsEnc /\ DerLaw EncryptedData /\ DerLaw Authenticator /\
  DerLaw (list PaData) /\ DerLaw (list EtypeInfo2Entry) /\ DerLaw (list AuthorizationDataValue).
Proof. repeat split; apply plain_der_law. Qed.

Lemma plain_totals : DerTotal PaEncTsEnc /\ DerTotal EncryptedData /\ DerTotal Authenticator /\ DerTotal ApReq /\
  DerTotal (list PaData) /\ DerTotal (list EtypeInfo2Entry).
Proof. repeat split; apply plain_der_total. Qed.

(** Messages of two bytes: the tag, and a number for the rest. *)
Definition pack {A} (s : Ser A) (tag : Z) (a : A) : option bytes := Some [tag; Zpos (countable.encode (@ser _ s a))].
Definition unpack {A} (s : Ser A) (b : bytes) : option A :=
  match b with
  | [_; Zpos p] => l ← (countable.decode p : option (list Z)); @der_decode _ (plain_der s) l
  | _ => None
  end.

Lemma unpack_pack {A} (s : Ser A) tag a b : pack s tag a = Some b -> head b = Some tag /\ unpack s b = Some a.
Proof.
  intros [= <-]. split; [done|]. unfold unpack. rewrite countable.decode_encode. cbn [mbind option_bind].
  by destruct (plain_der_law s) as [Hl]; apply Hl.
Qed.

Definition packed_wire : WireCodec := {|
  decode_as_req := unpack PlainCodec.ser_req;
  decode_tgs_req := unpack PlainCodec.ser_req;
  encode_as_rep := pack PlainCodec.ser_rep 107;
  encode_tgs_rep := pack PlainCodec.ser_rep 109;
  encode_krb_error := pack PlainCodec.ser_error 126;
|}.
Definition packed_client : ClientCodec := {|
  encode_as_req := pack PlainCodec.ser_req 106;
  encode_tgs_req := pack PlainCodec.ser_req 108;
  decode_as_rep := unpack PlainCodec.ser_rep;
  decode_tgs_rep := unpack PlainCodec.ser_rep;
  decode_krb_error := unpack PlainCodec.ser_error;
|}.
#[local] Existing Instance packed_wire.
#[local] Existing Instance packed_client.

Lemma packed_laws : WireLaws.
Proof. split; intros ? ?; apply unpack_pack. Qed.

#[local] Existing Instance packed_laws.

Lemma packed_carried T m is_req handle tag : carried T m is_req (pack PlainCodec.ser_req tag) handle.
Proof.
  intros req _. split; [by eexists|]. intros resp _. destruct resp; by eexists.
Qed.

(** What a lookup on the reference server finds is the principal. *)
Lemma principal_by_exec (app : AppState) (Hst : connected (app_store app)) F m name dn dn' e :
  holds (app_store app) index_spec F m -> (exec zeros (lookup_one app name) m).1 = Ok dn ->
  find_entry (app_store app) F dn = Some (dn', e) -> principal_at app F name dn e.
Proof.
  intros HF Hl Hf. pose proof (exec_runs_at (fun t => t = 0) zeros (lookup_one app name) m eq_refl zeros_ok) as Hr. rewrite Hl in Hr.
  apply (ro_lookup_one _ app Hst F m HF) in Hr as [_ Hu]. split; [exact Hu|by exists dn'].
Qed.

Definition alice_key : PrincipalKey := Eval vm_compute in first_key alice_entry.
Definition service_name_str : rstring := str "ldap/dc.g10.lo".
Definition ex_logon : result KrbClientError Credential :=
  (exec zeros (logon (Ok tt) ex_app (str "kdc") ex_realm (str "alice") (str "correcthorse") service_name_str) kdc_store).1.

Lemma ex_logon_runs :
  runs_at (fun t => t = 0) (logon (Ok tt) ex_app (str "kdc") ex_realm (str "alice") (str "correcthorse") service_name_str) kdc_store ex_logon
    (exec zeros (logon (Ok tt) ex_app (str "kdc") ex_realm (str "alice") (str "correcthorse") service_name_str) kdc_store).2.
Proof. exact (exec_runs_at _ _ _ _ eq_refl zeros_ok). Qed.

Lemma ex_clocks : clocks_agree (fun t => t = 0).
Proof. intros t t' -> ->. vm_compute. discriminate. Qed.

Lemma alice_account :
  account ex_app kdc_forest ex_realm (str "alice") (str "correcthorse") alice alice_entry (keys_of alice_entry) alice_key (to_hex (replicate 16 3)).
Proof.
  split; [|vm_compute; reflexivity..].
  apply (principal_by_exec ex_app ex_st_connected kdc_forest kdc_store _ _ alice); [apply kdc_holds|vm_compute; reflexivity..].
Qed.

Lemma krbtgt_granting :
  granting ex_app kdc_forest ex_realm (pk_enctype alice_key) krbtgt_dn krbtgt_entry (keys_of krbtgt_entry) (first_key krbtgt_entry).
Proof.
  split; [|vm_compute; reflexivity..].
  apply (principal_by_exec ex_app ex_st_connected kdc_forest kdc_store _ _ krbtgt_dn); [apply kdc_holds|vm_compute; reflexivity..].
Qed.

Lemma ldap_served :
  served_by ex_app kdc_forest ex_realm service_name_str (pk_enctype alice_key) service_dn service_entry (keys_of service_entry) (first_key service_entry).
Proof.
  split; [|vm_compute; reflexivity..].
  apply (principal_by_exec ex_app ex_st_connected kdc_forest kdc_store _ _ service_dn); [apply kdc_holds|vm_compute; reflexivity..].
Qed.

