(* ===== verification/Daemons.v ===== *)
(** How the programs start: the [main] functions of [iron-kdcd], [iron-rpcd],
    [iron-ldapd], [iron-oidcd] and [iron-gcd] from the environment to the state
    they serve, before they listen. *)

From S2P Require Import Prelude Bytes Str Btree Decimal Sid Utf8 Dn Partition Key Registry Entry Etcd Index Store Directory.
From S2P Require Import Token Kerberos Password Principal BinaryAttrs Krb Kdc Samr Netlogon RpcServer.
From S2P Require Import Ldap LdapSession Oidc OidcHandlers Gc GcReplica Config ConfigSpec ConfigCtl.

(** What [anyhow::Error] is made from. *)
Inductive DaemonError (E J : Type) :=
| DEnv (name : rstring)
| DPartition (e : PartitionError)
| DStore (e : StoreError E)
| DConfig (e : J)
| DCrypto (e : Error)
| MalformedReferral (entry : rstring)
| MalformedForest (entry : rstring)
| MalformedClient (entry : rstring)
| NoForest
| BadDomainSid
| TlsTogether
| TlsBuild.
Arguments DEnv {E J} name.
Arguments DPartition {E J} e.
Arguments DStore {E J} e.
Arguments DConfig {E J} e.
Arguments DCrypto {E J} e.
Arguments MalformedReferral {E J} entry.
Arguments MalformedForest {E J} entry.
Arguments MalformedClient {E J} entry.
Arguments NoForest {E J}.
Arguments BadDomainSid {E J}.
Arguments TlsTogether {E J}.
Arguments TlsBuild {E J}.

(** The attributes [iron-rpcd] indexes. *)
Definition rpcd_spec : IndexSpec := IndexSpec_new [str "cn"; str "member"].

(** [raw.split(d).filter(|s| !s.trim().is_empty())]. *)
Definition split_nonblank (d : char) (raw : rstring) : list rstring :=
  List.filter (fun s => negb (bool_decide (trim s = []))) (split_char d raw).

Section daemons.
  Context `{EntryCodec} `{!PartitionJson}.
(** The environment, what connecting to a cluster gives, and whether the FIPS
    provider can be used. *)
  Context (vars : rstring -> option rstring) (connect_cluster : ClusterRef -> result (StoreError json_error) unit)
    (fresh_fips : result Error unit).
  Abbreviation failing A := (result (DaemonError json_error ConfigError) A).

Definition require (name : string) : failing rstring := ok_or (DEnv (str name)) (env vars name).

(** The store of one domain partition, which every program makes alike. *)
Definition domain_registry (pid base_dn endpoint : rstring) : failing (PartitionRegistry * Dn) :=
  forest ← map_err DPartition (ForestId_new pid);
  base ← map_err DPartition (Dn.parse base_dn);
  partition ← map_err DPartition (Partition.domain pid forest base (plaintext [endpoint]));
  reg ← map_err DPartition (Registry.insert Registry.new partition);
  Ok (reg, base).

Definition domain_store (pid base_dn endpoint : rstring) : failing (Store * Dn) :=
  made ← domain_registry pid base_dn endpoint;
  st ← map_err DStore (Store.connect connect_cluster made.1);
  Ok (st, made.2).

(** The registry kept in a configuration partition. *)
Definition load_forest (endpoint pid base_dn : rstring) : prog (failing PartitionRegistry) :=
  forest <-? lift (map_err DPartition (ForestId_new pid)) ;;
  config_dn <-? lift (map_err DPartition (Dn.parse base_dn)) ;;
  p <-? lift (map_err DPartition (configuration pid forest config_dn (plaintext [endpoint]))) ;;
  reg <-? lift (map_err DPartition (Registry.insert Registry.new p)) ;;
  st <-? lift (map_err DStore (Store.connect connect_cluster reg)) ;;
  prog_map_err DConfig (load_registry st config_dn).

(** [load_topology] of [iron-kdcd] and [iron-ldapd], which read three variables
    each; the program runs on the store of the configuration partition. *)
Definition load_topology (endpoint pid base_dn : string) : prog (failing (option PartitionRegistry)) :=
  match env vars endpoint, env vars pid, env vars base_dn with
  | Some endpoint, Some pid, Some base_dn =>
      registry <-? load_forest endpoint pid base_dn ;;
      Ret (Ok (Some registry))
  | _, _, _ => Ret (Ok None)
  end.

Definition kdc_load_topology : prog (failing (option PartitionRegistry)) :=
  load_topology "IRON_KDC_CONFIG_FASTETCD_ENDPOINT" "IRON_KDC_CONFIG_PARTITION_ID" "IRON_KDC_CONFIG_BASE_DN".
Definition ldap_load_topology : prog (failing (option PartitionRegistry)) :=
  load_topology "IRON_LDAP_CONFIG_FASTETCD_ENDPOINT" "IRON_LDAP_CONFIG_PARTITION_ID" "IRON_LDAP_CONFIG_BASE_DN".

(** *** [iron-kdcd] *)

(** [AppState::new]: no KDC without the FIPS provider. *)
Definition kdc_app_new (st : Store) (base_dn : Dn) (realm : rstring) (topology : option PartitionRegistry)
    (own_partition_id : option PartitionId) : result Error Kdc.AppState :=
  _ ← fresh_fips; Ok (Kdc.mkAppState st base_dn realm topology own_partition_id).

(** [topology] is what [kdc_load_topology] gave. *)
Definition kdcd_start (topology : failing (option PartitionRegistry)) : failing Kdc.AppState :=
  endpoint ← require "IRON_KDC_FASTETCD_ENDPOINT";
  pid ← require "IRON_KDC_PARTITION_ID";
  base_dn ← require "IRON_KDC_BASE_DN";
  realm ← require "IRON_KDC_REALM";
  made ← domain_store pid base_dn endpoint;
  topology ← topology;
  own ← map_err DPartition (PartitionId_new pid);
  map_err DCrypto (kdc_app_new made.1 made.2 realm topology (Some own)).

(** *** [iron-rpcd]: the two services have a connection each. *)
Definition rpcd_start : failing RpcServer.AppState :=
  endpoint ← require "IRON_RPC_FASTETCD_ENDPOINT";
  pid ← require "IRON_RPC_PARTITION_ID";
  base_dn ← require "IRON_RPC_BASE_DN";
  sid ← require "IRON_RPC_DOMAIN_SID";
  domain_sid ← ok_or BadDomainSid (Sid.parse sid);
  netbios_name ← require "IRON_RPC_NETBIOS_NAME";
  dns_domain ← require "IRON_RPC_DNS_DOMAIN";
  made ← domain_registry pid base_dn endpoint;
  store_for_samr ← map_err DStore (Store.connect connect_cluster made.1);
  store_for_netlogon ← map_err DStore (Store.connect connect_cluster made.1);
  _ ← map_err DCrypto fresh_fips;
  Ok (RpcServer.mkAppState (mkDomainInfo netbios_name dns_domain dns_domain domain_sid)
        (mkSamrState store_for_samr made.2 rpcd_spec) (mkNetlogonState store_for_netlogon made.2)).

(** *** [iron-ldapd] *)

Definition parse_referral (pair : rstring) : failing (Dn * rstring) :=
  p ← ok_or (MalformedReferral pair) (Oidc.split_once (ch "|") pair);
  dn ← map_err DPartition (Dn.parse (trim p.1));
  Ok (dn, trim p.2).
Definition parse_referrals (raw : rstring) : failing (list (Dn * rstring)) :=
  try_map parse_referral (split_nonblank (ch ";") raw).

(** Whether the provider is active decides what the server offers, not whether
    it starts. *)
Definition ldap_app_new (st : Store) (spec : IndexSpec) (referrals : list (Dn * rstring)) (topology : option PartitionRegistry)
    (own_partition_id : option PartitionId) : LdapApp :=
  mkLdapApp st spec (is_ok fresh_fips) referrals topology own_partition_id.

(** [tls_acceptor] is what OpenSSL makes of the two files.  The flag says
    whether the server has an acceptor. *)
Definition ldapd_tls (tls_acceptor : rstring -> rstring -> bool) : failing bool :=
  match env vars "IRON_LDAP_TLS_CERT", env vars "IRON_LDAP_TLS_KEY" with
  | Some cert, Some key => if tls_acceptor cert key then Ok true else Err TlsBuild
  | None, None => Ok false
  | _, _ => Err TlsTogether
  end.

Definition ldapd_start (tls_acceptor : rstring -> rstring -> bool) (topology : failing (option PartitionRegistry)) : failing (LdapApp * bool) :=
  endpoint ← require "IRON_LDAP_FASTETCD_ENDPOINT";
  pid ← require "IRON_LDAP_PARTITION_ID";
  base_dn ← require "IRON_LDAP_BASE_DN";
  referrals ← (match env vars "IRON_LDAP_REFERRALS" with Some raw => parse_referrals raw | None => Ok [] end);
  made ← domain_store pid base_dn endpoint;
  topology ← topology;
  tls ← ldapd_tls tls_acceptor;
  Ok (ldap_app_new made.1 Kdc.index_spec referrals topology (Some pid), tls).

(** *** [iron-oidcd] *)

(** A number of seconds, or the default if there is none that can be read. *)
Definition env_secs (name : string) (default_secs : Z) : Z :=
  default default_secs (v ← env vars name; parse_uint u64_max v).

(** [signing_key] is the key pair the provider generates, of which the state has
    the public part. *)
Definition oidcd_start (signing_key : result Error bytes) : failing OidcHandlers.AppState :=
  endpoint ← require "IRON_OIDC_FASTETCD_ENDPOINT";
  pid ← require "IRON_OIDC_PARTITION_ID";
  base_dn ← require "IRON_OIDC_BASE_DN";
  issuer ← require "IRON_OIDC_ISSUER";
  clients_raw ← require "IRON_OIDC_CLIENTS";
  let login_attribute := default (str "uid") (env vars "IRON_OIDC_LOGIN_ATTRIBUTE") in
  let code_ttl_secs := env_secs "IRON_OIDC_CODE_TTL_SECS" 60 in
  let token_ttl_secs := env_secs "IRON_OIDC_TOKEN_TTL_SECS" 3600 in
  _ ← map_err DCrypto fresh_fips;
  key ← map_err DCrypto signing_key;
  clients ← map_err MalformedClient (ClientRegistry_parse clients_raw);
  made ← domain_store pid base_dn endpoint;
  Ok (OidcHandlers.mkAppState issuer made.1 made.2 login_attribute key clients (code_ttl_secs * NANOS) (token_ttl_secs * NANOS)).

(** *** [iron-gcd] *)

Record ForestSpec := mkForestSpec { fs_endpoint : rstring; fs_partition_id : rstring; fs_base_dn : rstring }.

Definition parse_forest (entry : rstring) : failing ForestSpec :=
  match Oidc.splitn3 (ch "|") entry with
  | Some (endpoint, partition_id, base_dn) => Ok (mkForestSpec (trim endpoint) (trim partition_id) (trim base_dn))
  | None => Err (MalformedForest entry)
  end.

Definition forest_specs : failing (list ForestSpec) :=
  own ← (match env vars "IRON_GC_CONFIG_FASTETCD_ENDPOINT" with
         | Some endpoint =>
             partition_id ← require "IRON_GC_CONFIG_PARTITION_ID";
             base_dn ← require "IRON_GC_CONFIG_BASE_DN";
             Ok [mkForestSpec endpoint partition_id base_dn]
         | None => Ok []
         end);
  listed ← (match env vars "IRON_GC_FORESTS" with
            | Some raw => try_map parse_forest (split_nonblank (ch ";") raw)
            | None => Ok []
            end);
  match own ++ listed with [] => Err NoForest | specs => Ok specs end.

(** [load] is what [load_forest] gives on the store of each forest. *)
Definition merge_forests (load : ForestSpec -> failing PartitionRegistry) (specs : list ForestSpec) : failing PartitionRegistry :=
  try_fold (fun merged spec =>
    registry ← load spec;
    map_err DPartition (try_fold Registry.insert merged (iter registry))) Registry.new specs.

Definition attribute_whitelist : list rstring :=
  match env vars "IRON_GC_ATTRIBUTES" with
  | Some raw => List.filter (fun s => negb (bool_decide (s = []))) (List.map trim (split_char (ch ",") raw))
  | None => DEFAULT_ATTRIBUTES
  end.

(** The state, the partitions that get a watch task and the attributes they
    keep. *)
Definition gcd_start (load : ForestSpec -> failing PartitionRegistry) : failing (GcState * list Partition * list rstring) :=
  specs ← forest_specs;
  registry ← merge_forests load specs;
  let domain_partitions := List.filter (fun p => bool_decide (kind p = Domain)) (iter registry) in
  Ok (mkGcState Aggregate_new registry (zlen domain_partitions), domain_partitions, attribute_whitelist).
End daemons.

(** ** What the programs start with *)

Section merge.
  Context `{EntryCodec} `{!PartitionJson}.
  Implicit Types (reg merged : PartitionRegistry) (regs : list PartitionRegistry) (id : PartitionId) (p : Partition).

(** *** The forests of the Global Catalog *)

Lemma iter_ids reg : registry_wf reg -> NoDup (List.map p_id (iter reg)).
Proof.
  intros [Hs Hk]. unfold iter, bt_values. rewrite List.map_map. revert Hk. induction Hs as [|k p l Hlt _ IH]; cbn; intros Hk; [constructor|].
  apply Forall_cons in Hk as [Hkp Hk]. apply NoDup_cons. split; [|auto]. intros ([k' p'] & Heq & Hin)%list_elem_of_fmap. cbn in *.
  rewrite Forall_forall in Hlt, Hk. specialize (Hlt _ Hin). specialize (Hk _ Hin). cbn in *. unfold klt in Hlt.
  assert (k' = k) as -> by congruence. by rewrite kcmp_refl in Hlt.
Qed.

Definition clash reg1 reg2 : Prop := exists id, is_Some (Registry.get reg1 id) /\ is_Some (Registry.get reg2 id).

(** One forest more. *)
Lemma merge_one merged reg :
  registry_wf merged -> registry_wf reg ->
  match try_fold Registry.insert merged (iter reg) with
  | Ok all => ~ clash merged reg /\ registry_wf all /\
      forall id p, Registry.get all id = Some p <-> Registry.get merged id = Some p \/ Registry.get reg id = Some p
  | Err _ => clash merged reg
  end.
Proof.
  intros Hm Hr. pose proof (iter_ids reg Hr) as Hnd.
  assert (forall id p, Registry.get reg id = Some p -> p_id p = id /\ p ∈ iter reg) as Hget.
  { intros id p Hp. assert (p_id p = id) as Hid; [|split; [done|]; apply iter_elem; [done|by rewrite Hid]].
    destruct Hr as [Hw Hk]. apply bt_get_In in Hp; [|done]. rewrite Forall_forall in Hk. by specialize (Hk _ Hp). }
  destruct (try_fold Registry.insert merged (iter reg)) as [all|e] eqn:E.
  - assert (~ clash merged reg) as Hc.
    { intros (id & [q Hq] & [p Hp]). destruct (Hget id p Hp) as [<- Hin].
      destruct (try_fold_insert_get _ _ _ (p_id p) E) as (_ & Hfresh & _). by rewrite Hfresh in Hq. }
    split; [done|]. split; [by apply (try_fold_insert_wf (iter reg) merged)|]. intros id p. destruct (try_fold_insert_get _ _ _ id E) as (_ & Hfresh & ->).
    destruct (List.find _ _) as [q|] eqn:Ef.
    + apply find_some in Ef as [Hin%list_elem_of_In <-%bool_decide_eq_true]. rewrite Hfresh by done. apply iter_elem in Hin as ->; [|done]. naive_solver.
    + split; [by left|]. intros [?|Hp]; [done|]. destruct (Hget _ _ Hp) as [Hid Hin%list_elem_of_In].
      by apply (find_none _ _ Ef), bool_decide_eq_false in Hin.
  - destruct (List.forallb (fun p => negb (bool_decide (is_Some (Registry.get merged (p_id p))))) (iter reg)) eqn:Ef.
    + exfalso. rewrite forallb_forall in Ef. assert (is_ok (try_fold Registry.insert merged (iter reg)) = true) as Hok; [|by rewrite E in Hok].
      apply try_fold_insert_ok; [done|]. intros p Hp%list_elem_of_In%Ef. apply negb_true_iff, bool_decide_eq_false in Hp. by apply eq_None_not_Some.
    + assert (exists p, p ∈ iter reg /\ is_Some (Registry.get merged (p_id p))) as (p & Hin & Hs).
      { clear -Ef. induction (iter reg) as [|p l IH]; [done|]. cbn in Ef. apply andb_false_iff in Ef as [Ef|Ef].
        - apply negb_false_iff, bool_decide_eq_true in Ef. exists p. split; [by left|done].
        - destruct (IH Ef) as (q & ? & ?). exists q. split; [by right|done]. }
      exists (p_id p). split; [done|]. apply iter_elem in Hin as ->; [|done]. by eexists.
Qed.

(** No two forests have a partition of the same name. *)
Fixpoint apart regs : Prop :=
  match regs with [] => True | reg :: regs' => Forall (fun other => ~ clash reg other) regs' /\ apart regs' end.

Lemma apart_merge all merged reg regs :
  ~ clash merged reg -> (forall id p, Registry.get all id = Some p <-> Registry.get merged id = Some p \/ Registry.get reg id = Some p) ->
  apart (all :: regs) <-> apart (merged :: reg :: regs).
Proof.
  intros Hc Hall. assert (forall other, clash all other <-> clash merged other \/ clash reg other) as Hcl.
  { intros other. unfold clash. split.
    - intros (id & [p Hp] & Ho). apply Hall in Hp as [Hp|Hp]; [left|right]; exists id; split; eauto.
    - intros [(id & [p Hp] & Ho)|(id & [p Hp] & Ho)]; exists id; (split; [|done]); exists p; apply Hall; auto. }
  cbn [apart]. rewrite !Forall_cons, !Forall_forall. setoid_rewrite Hcl. naive_solver.
Qed.

Lemma merge_forests_from (load : ForestSpec -> result (DaemonError json_error ConfigError) PartitionRegistry) specs regs merged :
  Forall2 (fun spec reg => load spec = Ok reg /\ registry_wf reg) specs regs -> registry_wf merged ->
  match try_fold (fun merged spec => registry ← load spec; map_err (DPartition (E := json_error) (J := ConfigError)) (try_fold Registry.insert merged (iter registry)))
          merged specs with
  | Ok all => apart (merged :: regs) /\ registry_wf all /\
      forall id p, Registry.get all id = Some p <-> Registry.get merged id = Some p \/ exists reg, reg ∈ regs /\ Registry.get reg id = Some p
  | Err _ => ~ apart (merged :: regs)
  end.
Proof.
  intros Hl. revert merged. induction Hl as [|spec reg specs regs [Hs Hr] Hl IH]; intros merged Hm; cbn [try_fold].
  - split; [by repeat constructor|]. split; [done|]. intros id p. split; [by left|]. intros [?|(? & []%not_elem_of_nil & _)]; done.
  - rewrite Hs. cbn [mbind result_bind]. pose proof (merge_one merged reg Hm Hr) as H1.
    destruct (try_fold Registry.insert merged (iter reg)) as [all|e]; cbn [map_err mbind result_bind].
    + destruct H1 as (Hc & Hw & Hget). specialize (IH all Hw). pose proof (apart_merge all merged reg regs Hc Hget) as Hiff.
      destruct (try_fold _ all specs) as [rest|]; [|by rewrite <- Hiff]. destruct IH as (Ha & Hw' & Hg). split; [by apply Hiff|]. split; [done|].
      intros id p. rewrite Hg, Hget. setoid_rewrite elem_of_cons. naive_solver.
    + intros [Hf _]. by apply Forall_cons in Hf as [? _].
Qed.

(** C33: The Global Catalog merges the forests it is configured for exactly when no
    two of them have a partition of the same name; its registry then has the
    partitions of all of them and no others, and otherwise it does not start. *)
Theorem gcd_forests_merged (load : ForestSpec -> result (DaemonError json_error ConfigError) PartitionRegistry) specs regs :
  Forall2 (fun spec reg => load spec = Ok reg /\ registry_wf reg) specs regs ->
  match merge_forests load specs with
  | Ok merged => apart regs /\ registry_wf merged /\
      forall id p, Registry.get merged id = Some p <-> exists reg, reg ∈ regs /\ Registry.get reg id = Some p
  | Err _ => ~ apart regs
  end.
Proof.
  intros Hl. pose proof (merge_forests_from load specs regs Registry.new Hl registry_new_wf) as Hm. unfold merge_forests.
  assert (forall reg, ~ clash Registry.new reg) as Hnew by (by intros reg (id & [p Hp] & _)).
  assert (apart (Registry.new :: regs) <-> apart regs) as Ha.
  { cbn [apart]. split; [by intros [_ ?]|]. split; [|done]. by apply Forall_forall. }
  destruct (try_fold _ Registry.new specs) as [merged|]; [|by rewrite <- Ha]. destruct Hm as (? & ? & Hget).
  split; [by apply (proj1 Ha)|]. split; [done|]. intros id p. rewrite Hget. split; [by intros [?|?]|by right].
Qed.
End merge.

Section start.
  Context `{EntryCodec} `{!PartitionJson}.
  Context (vars : rstring -> option rstring) (connect_cluster : ClusterRef -> result (StoreError json_error) unit) (fresh_fips : result Error unit).

(** *** The topology *)

Section topology.
  Context (cid base : rstring) (config_dn : Dn) (Hparse : Dn.parse base = Ok config_dn)
    (Hwf : dn_wf config_dn) (Hchars : str_ok (Dn.to_string config_dn)) (Hne : rdns config_dn <> []) (Hkey : keyed config_dn).

Lemma load_forest_runs spec endpoint R m r m' :
  config_holds cid config_dn spec R m -> runs (load_forest connect_cluster endpoint cid base) m r m' ->
  m' = m /\ ((exists e, r = Err e) \/ exists reg, r = Ok reg /\ forall id, Registry.get reg id = R !! id).
Proof.
  intros HR. unfold load_forest, ForestId_new. destruct (valid_id cid) eqn:Hid; [|intros [-> ->]; eauto].
  rewrite Hparse. cbn [map_err lift try_bind prog_bind_]. unfold configuration, PartitionId_new. rewrite Hid. cbn [mbind result_bind map_err lift try_bind prog_bind_].
  set (p := mkPartition _ _ _ _ _ _ _ _ _ _ _ _). assert (Registry.insert Registry.new p = Ok (mkRegistry [(p_id p, p)])) as -> by done.
  cbn [map_err lift try_bind prog_bind_]. destruct (Store.connect connect_cluster (mkRegistry [(p_id p, p)])) as [st|e] eqn:Hst; [|intros [-> ->]; eauto].
  cbn [map_err lift try_bind prog_bind_]. intros Hr. apply runs_map_err in Hr as (r0 & Hr & ->).
  assert (serves cid config_dn st) as Hserve.
  { apply (store_serves connect_cluster config_dn p st); [|done]. unfold config_store.
    assert (Registry.insert Registry.new p = Ok (mkRegistry [(p_id p, p)])) as -> by done. cbn [map_err mbind result_bind]. by rewrite Hst. }
  destruct (load_registry_runs cid config_dn spec Hwf Hchars Hne Hkey Hid st Hserve R m r0 m' HR Hr) as [-> [[e ->]|(reg & -> & Hget)]]; cbn; eauto.
Qed.

(** A KDC that starts with the forest's topology has what the configuration
    partition holds; one without the settings for it has none; reading it
    writes nothing. *)
Theorem kdc_topology_loaded spec R m r m' :
  config_holds cid config_dn spec R m ->
  (forall v, env vars "IRON_KDC_CONFIG_PARTITION_ID" = Some v -> v = cid) -> (forall v, env vars "IRON_KDC_CONFIG_BASE_DN" = Some v -> v = base) ->
  runs (kdc_load_topology vars connect_cluster) m r m' ->
  m' = m /\ match r with
            | Ok (Some reg) => forall id, Registry.get reg id = R !! id
            | Ok None => env vars "IRON_KDC_CONFIG_FASTETCD_ENDPOINT" = None \/ env vars "IRON_KDC_CONFIG_PARTITION_ID" = None \/
                env vars "IRON_KDC_CONFIG_BASE_DN" = None
            | Err _ => True
            end.
Proof.
  intros HR Hid Hdn. unfold kdc_load_topology, load_topology.
  destruct (env vars "IRON_KDC_CONFIG_FASTETCD_ENDPOINT") as [ep|]; [|intros [-> ->]; auto].
  destruct (env vars "IRON_KDC_CONFIG_PARTITION_ID") as [pid|]; [|intros [-> ->]; auto].
  destruct (env vars "IRON_KDC_CONFIG_BASE_DN") as [b|]; [|intros [-> ->]; auto].
  rewrite (Hid pid eq_refl), (Hdn b eq_refl). intros (x & m1 & Hx & Hr)%runs_bind.
  apply (load_forest_runs spec ep R) in Hx as [-> [[e ->]|(reg & -> & Hget)]]; [by destruct Hr as [-> ->]| |done]. by destruct Hr as [-> ->].
Qed.
End topology.

(** *** One store

    Programs that are told the same partition, base and endpoint use the same
    store: what the theorems on a server and another program, or on two
    servers, ask for. *)

Lemma domain_store_registry pid b endpoint st base :
  domain_store connect_cluster pid b endpoint = Ok (st, base) <->
  exists reg, domain_registry pid b endpoint = Ok (reg, base) /\ Store.connect connect_cluster reg = Ok st.
Proof.
  unfold domain_store. destruct (domain_registry pid b endpoint) as [[reg base']|e]; cbn [mbind result_bind fst snd].
  - destruct (Store.connect connect_cluster reg) as [st'|] eqn:Hc; cbn [map_err mbind result_bind]; split.
    + intros [= -> ->]. by exists reg.
    + intros (reg' & [= -> ->] & Hc'). by rewrite Hc in Hc'; injection Hc' as ->.
    + done.
    + intros (reg' & [= -> ->] & Hc'). by rewrite Hc in Hc'.
  - split; [done|]. by intros (? & ? & _).
Qed.

(** The three settings under the prefix of a program. *)
Definition told (prefix : string) (pid base endpoint : rstring) : Prop :=
  env vars (prefix ++ "PARTITION_ID") = Some pid /\ env vars (prefix ++ "BASE_DN") = Some base /\
  env vars (prefix ++ "FASTETCD_ENDPOINT") = Some endpoint.

Lemma told_require prefix pid base endpoint :
  told prefix pid base endpoint ->
  require vars (prefix ++ "PARTITION_ID") = Ok pid /\ require vars (prefix ++ "BASE_DN") = Ok base /\
  require vars (prefix ++ "FASTETCD_ENDPOINT") = Ok endpoint.
Proof. unfold require. by intros (-> & -> & ->). Qed.

Lemma kdcd_store topology app pid base endpoint :
  told "IRON_KDC_" pid base endpoint -> kdcd_start vars connect_cluster fresh_fips topology = Ok app ->
  domain_store connect_cluster pid base endpoint = Ok (app_store app, app_base_dn app) /\ topology = Ok (app_topology app).
Proof.
  intros (Hi & Hb & He)%told_require. cbv [String.append] in Hi, Hb, He. unfold kdcd_start. rewrite He, Hi, Hb. cbn [mbind result_bind].
  intros (realm & _ & ([st dn] & -> & (t & -> & (own & _ & Hn)%bind_ok)%bind_ok)%bind_ok)%bind_ok.
  unfold kdc_app_new in Hn. destruct fresh_fips; cbn in Hn; [|done]. by injection Hn as <-.
Qed.

Lemma rpcd_store app pid base endpoint :
  told "IRON_RPC_" pid base endpoint -> rpcd_start vars connect_cluster fresh_fips = Ok app ->
  exists st dn, domain_store connect_cluster pid base endpoint = Ok (st, dn) /\
    app_samr app = mkSamrState st dn rpcd_spec /\ app_netlogon app = mkNetlogonState st dn.
Proof.
  intros (Hi & Hb & He)%told_require. cbv [String.append] in Hi, Hb, He. unfold rpcd_start. rewrite He, Hi, Hb. cbn [mbind result_bind].
  intros (s & _ & (sid & _ & (nb & _ & (dns & _ & ([reg dn] & Hreg & Hr)%bind_ok)%bind_ok)%bind_ok)%bind_ok)%bind_ok.
  cbn [fst snd] in Hr. destruct (Store.connect connect_cluster reg) as [st|] eqn:Hst; [|done]. cbn [map_err mbind result_bind] in Hr.
  apply bind_ok in Hr as ([] & _ & [= <-]). exists st, dn. split; [|done]. apply domain_store_registry. by exists reg.
Qed.

Lemma ldapd_store tls topology app pid base endpoint :
  told "IRON_LDAP_" pid base endpoint -> ldapd_start vars connect_cluster fresh_fips tls topology = Ok app ->
  exists dn, domain_store connect_cluster pid base endpoint = Ok (la_store app.1, dn) /\ la_index_spec app.1 = Kdc.index_spec /\
    topology = Ok (la_topology app.1) /\ la_own_partition_id app.1 = Some pid.
Proof.
  intros (Hi & Hb & He)%told_require. cbv [String.append] in Hi, Hb, He. unfold ldapd_start. rewrite He, Hi, Hb. cbn [mbind result_bind].
  intros (refs & _ & ([st dn] & -> & (t & -> & (x & _ & [= <-])%bind_ok)%bind_ok)%bind_ok)%bind_ok. by exists dn.
Qed.

Lemma oidcd_store key app pid base endpoint :
  told "IRON_OIDC_" pid base endpoint -> oidcd_start vars connect_cluster fresh_fips key = Ok app ->
  domain_store connect_cluster pid base endpoint = Ok (oidc_store app, oidc_base_dn app).
Proof.
  intros (Hi & Hb & He)%told_require. cbv [String.append] in Hi, Hb, He. unfold oidcd_start. rewrite He, Hi, Hb. cbn [mbind result_bind].
  intros (iss & _ & (cl & _ & Hr)%bind_ok)%bind_ok. cbn zeta in Hr.
  apply bind_ok in Hr as (u & _ & (k & _ & (cs & _ & ([st dn] & -> & [= <-])%bind_ok)%bind_ok)%bind_ok). done.
Qed.

(** The four servers of a domain, given the same three settings, use one store
    and one base; the directory and the KDC index the same attributes. *)
Theorem programs_share_store tls key topo1 topo2 kapp rapp lapp oapp pid base endpoint :
  (forall prefix, prefix ∈ ["IRON_KDC_"; "IRON_RPC_"; "IRON_LDAP_"; "IRON_OIDC_"]%string -> told prefix pid base endpoint) ->
  kdcd_start vars connect_cluster fresh_fips topo1 = Ok kapp -> rpcd_start vars connect_cluster fresh_fips = Ok rapp ->
  ldapd_start vars connect_cluster fresh_fips tls topo2 = Ok lapp -> oidcd_start vars connect_cluster fresh_fips key = Ok oapp ->
  let st := app_store kapp in let dn := app_base_dn kapp in
  app_samr rapp = mkSamrState st dn rpcd_spec /\ app_netlogon rapp = mkNetlogonState st dn /\
  la_store lapp.1 = st /\ la_index_spec lapp.1 = Kdc.index_spec /\ oidc_store oapp = st /\ oidc_base_dn oapp = dn.
Proof.
  intros Htold Hk Hr Hl Ho st dn. subst st dn.
  apply (kdcd_store topo1 kapp pid base endpoint) in Hk as [Hk _]; [|apply Htold; by left].
  apply (rpcd_store rapp pid base endpoint) in Hr as (st & dn & Hr & Hs & Hn); [|apply Htold; right; by left].
  apply (ldapd_store tls topo2 lapp pid base endpoint) in Hl as (dn' & Hl & Hi & _); [|apply Htold; right; right; by left].
  apply (oidcd_store key oapp pid base endpoint) in Ho; [|apply Htold; right; right; right; by left].
  rewrite Hk in Hr, Hl, Ho. injection Hr as <- <-. injection Hl as <- _. by injection Ho as <- <-.
Qed.
End start.

(** ** An example: two forests, and the same forest twice *)

Definition forest_of (id dn : rstring) : PartitionRegistry :=
  match (base ← Dn.parse dn; p ← Partition.domain id id base (plaintext [str "http://a:2379"]); Registry.insert Registry.new p) with
  | Ok reg => reg
  | Err _ => Registry.new
  end.
#[local] Existing Instance bit_codec.

Definition two_forests (spec : ForestSpec) : result (DaemonError json_error ConfigError) PartitionRegistry :=
  if bool_decide (fs_partition_id spec = str "a") then Ok (forest_of (str "a-root") (str "dc=a,dc=lo"))
  else Ok (forest_of (str "b-root") (str "dc=b,dc=lo")).
Definition spec_of (id : rstring) : ForestSpec := mkForestSpec (str "http://a:2379") id (str "cn=config").

Lemma forest_of_wf id dn : registry_wf (forest_of id dn).
Proof.
  unfold forest_of. destruct (Dn.parse dn); cbn [mbind result_bind]; [|apply registry_new_wf].
  destruct (Partition.domain _ _ _ _); cbn [mbind result_bind]; [|apply registry_new_wf].
  destruct (Registry.insert _ _) eqn:E; [by eapply registry_insert_wf; [apply registry_new_wf|]|apply registry_new_wf].
Qed.

Lemma gcd_forests_merged_witness :
  is_ok (merge_forests two_forests [spec_of (str "a"); spec_of (str "b")]) = true /\
  is_ok (merge_forests two_forests [spec_of (str "a"); spec_of (str "a")]) = false /\
  apart [forest_of (str "a-root") (str "dc=a,dc=lo"); forest_of (str "b-root") (str "dc=b,dc=lo")] /\
  ~ apart [forest_of (str "a-root") (str "dc=a,dc=lo"); forest_of (str "a-root") (str "dc=a,dc=lo")].
Proof.
  pose proof (gcd_forests_merged two_forests [spec_of (str "a"); spec_of (str "b")]
    [forest_of (str "a-root") (str "dc=a,dc=lo"); forest_of (str "b-root") (str "dc=b,dc=lo")]) as H1.
  pose proof (gcd_forests_merged two_forests [spec_of (str "a"); spec_of (str "a")]
    [forest_of (str "a-root") (str "dc=a,dc=lo"); forest_of (str "a-root") (str "dc=a,dc=lo")]) as H2.
  destruct (merge_forests two_forests [spec_of (str "a"); spec_of (str "b")]) as [m1|] eqn:E1; [|vm_compute in E1; discriminate E1].
  destruct (merge_forests two_forests [spec_of (str "a"); spec_of (str "a")]) as [m2|] eqn:E2; [vm_compute in E2; discriminate E2|].
  split; [reflexivity|]. split; [reflexivity|].
  split; [apply H1|apply H2]; repeat constructor; apply forest_of_wf.
Defined.
