(* ===== verification/Join.v ===== *)
(** The simulated domain join and logon, [crates/simulate/src/join.rs], over
    the simulator's RPC and Kerberos clients and its own connection to the
    store; [main] of [iron-simulate] up to the spawning of its tasks. *)

From S2P Require Import Prelude Bytes Str Btree Utf8 Decimal Dn Partition Key Registry Entry Etcd Index Ridpool Store.
From S2P Require Import Directory Sid Nfold Kerberos Md4 Password Principal BinaryAttrs Ndr Pdu Samr Netlogon RpcServer RpcClient.
From S2P Require Import Krb Pac Kdc KdcAs KdcTgs KdcServer KrbClient.

Inductive JoinError (E : Type) :=
| JRpc (e : RpcClientError)
| JKrb (e : KrbClientError)
| JStore (e : StoreError E)
| JCrypto (e : Error)
| JPrincipal (e : PrincipalError)
| JPartition (e : PartitionError)
| AccountMissing
| NoPac.
Arguments JRpc {E} e.
Arguments JKrb {E} e.
Arguments JStore {E} e.
Arguments JCrypto {E} e.
Arguments JPrincipal {E} e.
Arguments JPartition {E} e.
Arguments AccountMissing {E}.
Arguments NoPac {E}.

Record SimConfig := mkSimConfig {
  sim_rpc_addr : rstring;
  sim_kdc_addr : rstring;
  sim_partition_id : rstring;
  sim_base_dn : rstring;
  sim_realm : rstring;
  sim_service_principal : rstring;
  sim_service_password : bytes;
}.

(** The reports, without the time that passed; the flags are always set. *)
Record JoinReport := mkJoinReport {
  jr_computer_name : rstring;
  jr_rid : Z;
  jr_domain_sid : rstring;
  jr_pac_buffer_types : list Z;
}.
Record LoginReport := mkLoginReport { lr_username : rstring; lr_pac_buffer_types : list Z }.

Section join.
  Context `{!ClientCodec} `{EntryCodec} `{Base64} `{!OpenSsl} `{!KrbCodec} `{!Cfb8}.
(** The endpoint in the environment, what connecting to a cluster gives, and
    the network of the KDC. *)
  Context (endpoint : option rstring) (connect_cluster : ClusterRef -> result (StoreError json_error) unit) (kdc : Network).
(** TCP to the RPC server: connecting, and what is received after writing. *)
  Context {Stream : Type} (tcp_connect : rstring -> prog (option Stream)) (tcp_exchange : Stream -> bytes -> prog (option (bytes * Stream))).
  Abbreviation sim A := (prog (result (stop (JoinError json_error)) A)).

Definition returning {E A} (f : E -> JoinError json_error) (p : prog (result E A)) : sim A :=
  prog_map_err (fun e => Return (f e)) p.
Definition sim_err {A} (e : JoinError json_error) : sim A := Ret (Err (Return e)).

(** *** The RPC client *)

(** [rc_pending] is what was received and not yet read. *)
Record RpcClient := mkRpcClient { rc_stream : Stream; rc_pending : bytes; rc_call_id : Z }.

(** Writing a PDU and reading one back. *)
Definition rpc_roundtrip (stream : Stream) (pending pdu : bytes) : prog (result RpcClientError (bytes * bytes * Stream)) :=
  prog_bind_ (fun r => Ret (
      match r with
      | None => Err Io
      | Some (input, stream) => resp ← client_read_pdu (pending ++ input); Ok (resp, stream)
      end)) (tcp_exchange stream pdu).

Definition rpc_connect (addr : rstring) (abstract_syntax : bytes) : prog (result RpcClientError RpcClient) :=
  prog_bind_ (fun s =>
      match s with
      | None => Ret (Err Io)
      | Some stream =>
          resp <-? rpc_roundtrip stream [] (connect_pdu abstract_syntax) ;;
          _ <-? lift (connect_result resp.1.1) ;;
          Ret (Ok (mkRpcClient resp.2 resp.1.2 2))
      end) (tcp_connect addr).

(** [call_id] is a [u32] that no client increments past its width. *)
Definition rpc_call (c : RpcClient) (opnum : Z) (stub : bytes) : prog (result RpcClientError (bytes * RpcClient)) :=
  resp <-? rpc_roundtrip (rc_stream c) (rc_pending c) (call_pdu (rc_call_id c) opnum stub) ;;
  out <-? lift (call_result resp.1.1) ;;
  Ret (Ok (out, mkRpcClient resp.2 resp.1.2 (rc_call_id c + 1))).

(** A call whose response is read by [f]. *)
Definition rpc_read {A} (c : RpcClient) (opnum : Z) (stub : bytes) (f : bytes -> result RpcClientError A) : sim (A * RpcClient) :=
  r <-? returning JRpc (rpc_call c opnum stub) ;;
  a <-? returning JRpc (lift (f r.1)) ;;
  Ret (Ok (a, r.2)).

(** A call whose response starts with a handle, sliced off. *)
Definition rpc_handle (c : RpcClient) (opnum : Z) (stub : bytes) : sim (bytes * RpcClient) :=
  r <-? returning JRpc (rpc_call c opnum stub) ;;
  match open_domain_result r.1 with
  | None => Ret (Err Panic)
  | Some h => Ret (Ok (h, r.2))
  end.

(** *** The store *)

Definition connect_store (config : SimConfig) : sim Store :=
  match endpoint with
  | None => Ret (Err Panic)
  | Some ep =>
      let cluster := plaintext [ep] in
      forest <-? returning JPartition (lift (ForestId_new (sim_partition_id config))) ;;
      base_dn <-? returning JPartition (lift (Dn.parse (sim_base_dn config))) ;;
      partition <-? returning JPartition (lift (Partition.domain (sim_partition_id config) forest base_dn cluster)) ;;
      reg <-? returning JPartition (lift (Registry.insert Registry.new partition)) ;;
      returning JStore (lift (Store.connect connect_cluster reg))
  end.

Definition service_fqn (config : SimConfig) : rstring := fqn (sim_service_principal config) (sim_realm config).

Definition sim_set_password (entry : Entry) (principal : rstring) (password : bytes) : sim Entry :=
  returning JPrincipal (Call (Random (Z.to_nat MIN_SALT_LEN)) (fun random => Ret (Principal.set_password random entry principal password))).

Definition ensure_service_principal (config : SimConfig) : sim unit :=
  store <-? connect_store config ;;
  base_dn <-? returning JPartition (lift (Dn.parse (sim_base_dn config))) ;;
  existing <-? returning JStore (Store.lookup_by_index store base_dn ATTR_PRINCIPAL_NAME (service_fqn config)) ;;
  found <-? match existing with
            | [] =>
                let cn_value := dotted (sim_service_principal config) in
                dn <-? returning JPartition (lift (Dn.parse (str "cn=" ++ cn_value ++ str "," ++ sim_base_dn config))) ;;
                Ret (Ok (dn, Entry.set (Entry.set Entry.new (str "objectclass") [str "top"]) (str "cn") [cn_value]))
            | [dn] =>
                e <-? returning JStore (Store.get_entry store dn) ;;
                match e with None => sim_err AccountMissing | Some e => Ret (Ok (dn, e)) end
            | _ => sim_err AccountMissing
            end ;;
  entry <-? sim_set_password found.2 (service_fqn config) (sim_service_password config) ;;
  returning JStore (Store.put_entry store found.1 entry Kdc.index_spec).

Definition fetch_service_key (config : SimConfig) : sim PrincipalKey :=
  store <-? connect_store config ;;
  base_dn <-? returning JPartition (lift (Dn.parse (sim_base_dn config))) ;;
  dns <-? returning JStore (Store.lookup_by_index store base_dn ATTR_PRINCIPAL_NAME (service_fqn config)) ;;
  match dns with
  | [dn] =>
      e <-? returning JStore (Store.get_entry store dn) ;;
      match e with
      | None => sim_err AccountMissing
      | Some entry =>
          match key_for_enctype entry Aes256CtsHmacSha384_192 with
          | None => Ret (Err Panic)
          | Some r => returning JPrincipal (lift r)
          end
      end
  | _ => sim_err AccountMissing
  end.

(** *** Logging on *)

(** The service ticket of a logon, opened with the service's key: the types of
    its PAC's buffers. *)
Definition inspect_ticket (config : SimConfig) (service_ticket : Credential) : sim (list Z) :=
  service_key <-? fetch_service_key config ;;
  enc_ticket <-? returning JKrb (lift (decrypt_ticket (cred_ticket service_ticket) (pk_key service_key) (pk_enctype service_key))) ;;
  match extract_pac enc_ticket ≫= pac_buffer_types with
  | Some types => Ret (Ok types)
  | None => sim_err NoPac
  end.

Definition simulate_login (config : SimConfig) (username : rstring) (password : bytes) : sim LoginReport :=
  tgt <-? returning JKrb (as_exchange kdc (sim_kdc_addr config) (sim_realm config) username password) ;;
  service_ticket <-? returning JKrb (tgs_exchange kdc (sim_kdc_addr config) (sim_realm config) tgt (sim_service_principal config)) ;;
  types <-? inspect_ticket config service_ticket ;;
  Ret (Ok (mkLoginReport username types)).

(** *** Joining *)

(** LSARPC: the domain's names. *)
Definition join_lsarpc (config : SimConfig) : sim DnsDomainInfo :=
  lsa <-? returning JRpc (rpc_connect (sim_rpc_addr config) lsarpc_syntax) ;;
  policy <-? rpc_handle lsa LSA_OPNUM_OPEN_POLICY2 [] ;;
  info <-? rpc_read policy.2 LSA_OPNUM_QUERY_INFORMATION_POLICY2 (query_policy_stub policy.1) query_policy_result ;;
  _ <-? returning JRpc (rpc_call info.2 LSA_OPNUM_CLOSE (close_handle_stub policy.1)) ;;
  Ret (Ok info.1).

(** SAMR: the computer account. *)
Definition join_samr (config : SimConfig) (netbios_name computer_name : rstring) : sim (Sid * Z) :=
  samr <-? returning JRpc (rpc_connect (sim_rpc_addr config) samr_syntax) ;;
  server <-? rpc_read samr OPNUM_CONNECT5 connect5_stub connect5_result ;;
  sid <-? rpc_read server.2 OPNUM_LOOKUP_DOMAIN (lookup_domain_stub server.1 netbios_name) lookup_domain_result ;;
  dom <-? rpc_handle sid.2 OPNUM_OPEN_DOMAIN (open_domain_stub server.1 sid.1) ;;
  user <-? rpc_read dom.2 OPNUM_CREATE_USER2_IN_DOMAIN (create_user2_stub dom.1 computer_name) create_user2_result ;;
  c1 <-? returning JRpc (rpc_call user.2 OPNUM_CLOSE_HANDLE (close_handle_stub user.1.1)) ;;
  c2 <-? returning JRpc (rpc_call c1.2 OPNUM_CLOSE_HANDLE (close_handle_stub dom.1)) ;;
  _ <-? returning JRpc (rpc_call c2.2 OPNUM_CLOSE_HANDLE (close_handle_stub server.1)) ;;
  Ret (Ok (sid.1, user.1.2)).

(** The secrets of the account, written to the store. *)
Definition join_secrets (config : SimConfig) (computer_name : rstring) (nt password : bytes) : sim unit :=
  store <-? connect_store config ;;
  _ <-? returning JPartition (lift (Dn.parse (sim_base_dn config))) ;;
  dn <-? returning JPartition (lift (Dn.parse (str "cn=" ++ computer_name ++ str "," ++ sim_base_dn config))) ;;
  e <-? returning JStore (Store.get_entry store dn) ;;
  match e with
  | None => sim_err AccountMissing
  | Some entry =>
      let entry := Entry.set entry NTOWF_ATTR [to_hex nt] in
      entry <-? sim_set_password entry (fqn computer_name (sim_realm config)) password ;;
      returning JStore (Store.put_entry store dn entry Kdc.index_spec)
  end.

(** NETLOGON: the secure channel. *)
Definition join_netlogon (config : SimConfig) (computer_name : rstring) (nt : bytes) : sim unit :=
  nl <-? returning JRpc (rpc_connect (sim_rpc_addr config) netlogon_syntax) ;;
  let client_challenge := [1; 2; 3; 4; 5; 6; 7; 8] in
  challenge <-? rpc_read nl OPNUM_SERVER_REQ_CHALLENGE (req_challenge_stub computer_name client_challenge) req_challenge_result ;;
  stub <-? returning JRpc (lift (authenticate3_stub computer_name computer_name nt client_challenge challenge.1)) ;;
  _ <-? rpc_read challenge.2 OPNUM_SERVER_AUTHENTICATE3 stub (authenticate3_result nt client_challenge challenge.1) ;;
  Ret (Ok tt).

Definition simulate_join (config : SimConfig) (computer_name : rstring) (password : bytes) : sim JoinReport :=
  domain_info <-? join_lsarpc config ;;
  account <-? join_samr config (dd_netbios_name domain_info) computer_name ;;
  let '(domain_sid, rid) := account in
  let nt := Md4.ntowf (default [] (utf8_decode password)) in
  _ <-? join_secrets config computer_name nt password ;;
  _ <-? join_netlogon config computer_name nt ;;
  tgt <-? returning JKrb (as_exchange kdc (sim_kdc_addr config) (sim_realm config) computer_name password) ;;
  service_ticket <-? returning JKrb (tgs_exchange kdc (sim_kdc_addr config) (sim_realm config) tgt (sim_service_principal config)) ;;
  types <-? inspect_ticket config service_ticket ;;
  Ret (Ok (mkJoinReport computer_name rid (Sid.to_string domain_sid) types)).

(** *** The command *)

Inductive SimulateError :=
| SimUsage
| SimEnvRequired (name : rstring)
| SimFips (e : Error)
| SimCount
| SimJoin (s : stop (JoinError json_error))
| SimUnknownMode (mode : rstring).

(** What is spawned. *)
Inductive Task := JoinTask (computer_name : rstring) (password : bytes) | LoginTask (username : rstring) (password : bytes).

(** The environment, and making a FIPS context. *)
  Context (vars : rstring -> option rstring) (fips : result Error unit).

Definition sim_require_env (name : string) : result SimulateError rstring :=
  match vars (str name) with
  | Some (c :: v) => Ok (c :: v)
  | _ => Err (SimEnvRequired (str name))
  end.

Definition build_config : result SimulateError SimConfig :=
  rpc_addr ← sim_require_env "IRON_SIM_RPC_ADDR";
  kdc_addr ← sim_require_env "IRON_SIM_KDC_ADDR";
  partition_id ← sim_require_env "IRON_SIM_PARTITION_ID";
  base_dn ← sim_require_env "IRON_SIM_BASE_DN";
  realm ← sim_require_env "IRON_SIM_REALM";
  service_principal ← sim_require_env "IRON_SIM_SERVICE_PRINCIPAL";
  Ok (mkSimConfig rpc_addr kdc_addr partition_id base_dn realm service_principal (str "iron-simulate-service-secret")).

(** [{i:04}]. *)
Definition padded4 (i : Z) : rstring := let d := to_decimal i in replicate (4 - length d) (ch "0") ++ d.

Definition join_task (prefix : rstring) (i : nat) : Task :=
  JoinTask (prefix ++ padded4 (Z.of_nat i) ++ str "$") (str "sim-password-" ++ to_decimal (Z.of_nat i)).

(** [args.get(2).map(parse).transpose()?.unwrap_or(1)], an [usize]. *)
Definition task_count (args : list rstring) : result SimulateError Z :=
  match args !! 2%nat with None => Ok 1 | Some s => ok_or SimCount (parse_uint (2 ^ 64 - 1) s) end.

(** Each task is spawned with a FIPS context of its own. *)
Definition with_fips (ts : list Task) : result SimulateError (list Task) :=
  _ ← map_err SimFips (if (0 <? length ts)%nat then fips else Ok tt); Ok ts.

Definition join_tasks (args : list rstring) : result SimulateError (list Task) :=
  count ← task_count args;
  with_fips (List.map (join_task (default (str "SIMPC") (args !! 3%nat))) (seq 0 (Z.to_nat count))).

Definition login_tasks (args : list rstring) : result SimulateError (list Task) :=
  count ← task_count args;
  username ← ok_or SimUsage (args !! 3%nat);
  password ← ok_or SimUsage (args !! 4%nat);
  with_fips (replicate (Z.to_nat count) (LoginTask username (utf8_encode password))).

(** The tasks of a mode. *)
Definition sim_tasks (args : list rstring) (mode : rstring) : result SimulateError (list Task) :=
  if bool_decide (mode = str "join") then join_tasks args
  else if bool_decide (mode = str "login") then login_tasks args
  else Err (SimUnknownMode mode).

(** [main] up to the spawning of its tasks, with the configuration they get. *)
Definition sim_main (args : list rstring) : prog (result SimulateError (SimConfig * list Task)) :=
  mode <-? lift (ok_or SimUsage (args !! 1%nat)) ;;
  config <-? lift build_config ;;
  _ <-? lift (map_err SimFips fips) ;;
  _ <-? prog_map_err SimJoin (ensure_service_principal config) ;;
  tasks <-? lift (sim_tasks args mode) ;;
  Ret (Ok (config, tasks)).
End join.
