(* ===== verification/JoinSpec.v ===== *)
(** A simulated logon against the KDC: the user gets a ticket for the service,
    and the ticket carries the user's PAC. *)

From S2P Require Import Prelude Bytes Str Btree Utf8 Decimal Dn Partition Key Registry Entry Etcd Index Ridpool Store.
From S2P Require Import Directory Sid Nfold Kerberos Md4 Password Principal BinaryAttrs Ndr Pdu Samr Netlogon RpcServer RpcClient.
From S2P Require Import Krb Pac Kdc KdcAs KdcTgs KdcServer KrbClient KrbLogon Join.

(** ** Logging on *)

Section login.
  Context `{!WireCodec, !ClientCodec, !WireLaws} `{EntryCodec} `{Base64} `{!OpenSsl, !OpenSslLaws} `{!KrbCodec} `{!ErrorText}.
  Context `{!DerLaw EncTicketPart, !DerLaw EncAsRepPart, !DerLaw EncTgsRepPart, !DerLaw ApReq}.
  Context `{!DerLaw PaEncTsEnc, !DerLaw EncryptedData, !DerLaw Authenticator, !DerLaw (list PaData), !DerLaw (list EtypeInfo2Entry)}.
  Context `{!DerTotal PaEncTsEnc, !DerTotal EncryptedData, !DerTotal Authenticator, !DerTotal ApReq, !DerTotal (list PaData),
    !DerTotal (list EtypeInfo2Entry), !DerLaw (list AuthorizationDataValue)}.
(** The KDC and its directory. *)
  Context (fresh_fips : result Error unit) (T : Z -> Prop) (app : AppState) (Hst : connected (app_store app))
    (F : forest) (m : kvstore) (HF : holds (app_store app) index_spec F m) (Hwf : forest_keys_wf app F) (Hclocks : clocks_agree T).
(** The simulator, its own connection to the store, and the directory it sees. *)
  Context (endpoint : option rstring) (connect_cluster : ClusterRef -> result (StoreError json_error) unit) (config : SimConfig)
    (st : Store) (base : Dn) (G : forest) (Hsim : connect_store endpoint connect_cluster config = Ret (Ok st))
    (Hbase : Dn.parse (sim_base_dn config) = Ok base) (Hst' : connected st) (HG : holds st index_spec G m).
  Abbreviation realm := (sim_realm config).
  Abbreviation service := (sim_service_principal config).
  Abbreviation sim_app := (mkAppState st base realm None None).
  Abbreviation network := (kdc_network fresh_fips app).

(** Why a logon fails: the store, a generator of random bytes, or no PAC. *)
Definition login_unserved (s : stop (JoinError json_error)) : Prop :=
  (exists e, s = Return (JKrb e) /\ unserved tgs_code e) \/ (exists e, s = Return (JStore e)) \/ s = Return NoPac.

(** The service, as the KDC and the simulator see it. *)
  Context (sdn sdn' : Dn) (se : Entry) (sks : list PrincipalKey) (sk : PrincipalKey)
    (Hsat : principal_at app F (fqn service realm) sdn se) (Hsat' : principal_at sim_app G (fqn service realm) sdn' se)
    (Hsks : has_keys se sks) (Hsk : find_key Aes256CtsHmacSha384_192 sks = Some sk)
    (Hplain : is_changepw (string_to_principal_name service) = false).

Lemma fetch_service_key_known :
  ro T m login_unserved (fetch_service_key endpoint connect_cluster config) (fun k => k = sk).
Proof.
  unfold fetch_service_key. rewrite Hsim. apply ro_ok. rewrite Hbase. apply ro_ok.
  eapply ro_eq; [eapply ro_map_err; [by apply (lookup_single T sim_app Hst' G m HG _ sdn' se)|intros e _; right; left; by exists e]|].
  cbn iota. eapply ro_eq; [eapply ro_map_err; [by apply (get_single T sim_app Hst' G m HG (fqn service realm) sdn' se)|intros e _; right; left; by exists e]|].
  cbn iota. unfold key_for_enctype. rewrite Hsks. cbn [option_map mbind result_bind]. rewrite Hsk. by apply ro_ret.
Qed.

(** The PAC of a service ticket of the user. *)
Lemma inspect_known principal dn e kk cred :
  service_ticket_for T app F realm principal service dn e sk kk cred ->
  ro T m login_unserved (inspect_ticket endpoint connect_cluster config cred)
    (fun types => types = [PAC_LOGON_INFO; PAC_CLIENT_INFO_TYPE; PAC_SERVER_CHECKSUM; PAC_PRIVSVR_CHECKSUM]).
Proof.
  intros (t1 & end_time & ad & _ & _ & _ & _ & _ & _ & _ & _ & _ & (b & Hb & Hpart) & Hpac). unfold inspect_ticket.
  eapply ro_eq; [apply fetch_service_key_known|]. unfold decrypt_ticket. rewrite Hb. cbn [map_err mbind result_bind]. rewrite Hpart.
  apply ro_ok. set (part := mkEncTicketPart _ _ _ _ _ _ _). destruct ad as [x|].
  - destruct (Hpac x eq_refl) as (c & pac & _ & _ & Hgen & Hwrap). rewrite (extract_wrapped pac x part Hwrap eq_refl). cbn [mbind option_bind].
    rewrite (pac_types_generated _ _ _ _ _ _ Hgen). by apply ro_ret.
  - apply ro_err. by right; right.
Qed.

Lemma service_served : served_by app F realm service Aes256CtsHmacSha384_192 sdn se sks sk.
Proof.
  split; [done..| |done]. unfold preferred_key. unfold find_key in Hsk.
  assert (List.find (fun k => existsb (Z.eqb (etype_number (pk_enctype k))) [etype_number Aes256CtsHmacSha384_192]) sks = Some sk) as Hf;
    [|by rewrite Hf].
  rewrite <- Hsk. clear. induction sks as [|x l IH]; [done|]. cbn [List.find].
  assert (existsb (Z.eqb (etype_number (pk_enctype x))) [etype_number Aes256CtsHmacSha384_192]
    = bool_decide (pk_enctype x = Aes256CtsHmacSha384_192)) as -> by (by destruct (pk_enctype x)). by rewrite IH.
Qed.

(** The three steps a logon and a join end with; [f] makes the report. *)
Lemma ro_login {A : Type} (f : list Z -> A) username password dn e ks k salt kdn ke kks kk :
  ascii_name realm -> ascii_name username -> ascii_name service -> app_realm app = realm ->
  account app F realm username password dn e ks k salt -> pk_enctype k = Aes256CtsHmacSha384_192 ->
  granting app F realm Aes256CtsHmacSha384_192 kdn ke kks kk ->
  carried T m (as_request T m realm username) encode_as_req (as_handle fresh_fips app) ->
  carried T m (tgs_request fresh_fips T app m (sim_kdc_addr config) realm username password service) encode_tgs_req (tgs_handle fresh_fips app) ->
  ro T m login_unserved
    (tgt <-? returning JKrb (as_exchange network (sim_kdc_addr config) realm username password) ;;
     service_ticket <-? returning JKrb (tgs_exchange network (sim_kdc_addr config) realm tgt service) ;;
     types <-? inspect_ticket endpoint connect_cluster config service_ticket ;;
     Ret (Ok (f types)))
    (fun report => report = f [PAC_LOGON_INFO; PAC_CLIENT_INFO_TYPE; PAC_SERVER_CHECKSUM; PAC_PRIVSVR_CHECKSUM]).
Proof.
  intros Hr Hu Hs Happ Hacc Hen Hgr Has Htgs. rewrite <- Hen in Hgr. pose proof service_served as Hsv. rewrite <- Hen in Hsv.
  assert (forall C e, unserved C e -> (forall c, C c -> tgs_code c) -> login_unserved (Return (JKrb e))) as Hun.
  { intros C x Hx HC. left. exists x. split; [done|]. by eapply unserved_mono. }
  eapply ro_try.
  { eapply ro_map_err; [apply ro_run; by apply (ro_as_exchange fresh_fips T app Hst F m HF Hwf Hclocks _ _ username password dn e ks k salt kdn ke kks kk)|].
    intros x Hx. eapply Hun; [exact Hx|]. intros c ->. by left. }
  intros tgt [Htgt Hrun]. eapply ro_try.
  { eapply ro_map_err; [apply (ro_tgs_exchange fresh_fips T app Hst F m HF Hwf Hclocks _ _ username password service dn e (pk_enctype k)
      kdn ke kks kk sdn se sks sk); try done; apply Hacc|].
    intros x Hx. by eapply Hun. }
  intros cred Hcred. eapply ro_eq; [by apply (inspect_known username dn e kk)|]. by apply ro_ret.
Qed.

(** A simulated logon: a user whose password is right, at a service the
    simulator provisioned, gets through both exchanges and finds the four
    buffers of a PAC in the service ticket; otherwise the KDC's or the
    simulator's store or a generator of random bytes failed, or the KDC could
    not make a PAC.  The password is never refused, no message is malformed,
    nothing panics and nothing is written. *)
Theorem login_succeeds username password dn e ks k salt kdn ke kks kk r m' :
  ascii_name realm -> ascii_name username -> ascii_name service -> app_realm app = realm ->
  account app F realm username password dn e ks k salt -> pk_enctype k = Aes256CtsHmacSha384_192 ->
  granting app F realm Aes256CtsHmacSha384_192 kdn ke kks kk ->
  carried T m (as_request T m realm username) encode_as_req (as_handle fresh_fips app) ->
  carried T m (tgs_request fresh_fips T app m (sim_kdc_addr config) realm username password service) encode_tgs_req (tgs_handle fresh_fips app) ->
  runs_at T (simulate_login endpoint connect_cluster network config username password) m r m' ->
  m' = m /\ match r with
            | Ok report => report = mkLoginReport username [PAC_LOGON_INFO; PAC_CLIENT_INFO_TYPE; PAC_SERVER_CHECKSUM; PAC_PRIVSVR_CHECKSUM]
            | Err s => login_unserved s
            end.
Proof. intros Hr Hu Hs Happ Hacc Hen Hgr Has Htgs. by eapply (ro_login (mkLoginReport username)). Qed.
End login.

(** ** An example *)

#[local] Existing Instance bit_codec.
#[local] Existing Instance hex_base64.
#[local] Existing Instance demo_ssl.
#[local] Existing Instance demo_ssl_laws.
#[local] Existing Instance PlainCodec.plain_codec.
#[local] Existing Instance PlainCodec.plain_enc_ticket_law.
#[local] Existing Instance PlainCodec.plain_as_rep_law.
#[local] Existing Instance PlainCodec.plain_tgs_rep_law.
#[local] Existing Instance plain_text.
#[local] Existing Instance packed_wire.
#[local] Existing Instance packed_client.
#[local] Existing Instance packed_laws.

Definition lab_endpoint : option rstring := Some (str "http://a:2379").
Definition lab_cluster (_ : ClusterRef) : result (StoreError json_error) unit := Ok tt.
Definition lab_config : SimConfig :=
  mkSimConfig (str "rpc") (str "kdc") (str "g10") (str "dc=g10,dc=lo") (str "G10.LO") (str "host/sim") (str "iron-simulate-service-secret").
Definition lab_base : Dn := Eval vm_compute in dn_of (str "dc=g10,dc=lo").
Definition lab_partitions : list Partition := ok_partition (domain (str "g10") (str "g10") lab_base (plaintext [str "http://a:2379"])).
Definition lab_registry (ps : list Partition) : PartitionRegistry := match from_partitions ps with Ok r => r | Err _ => Registry.new end.
Definition lab_st : Store := Eval vm_compute in mkStore (lab_registry lab_partitions) [str "g10"].
Definition lab_sid : Sid := mkSid 1 5 [21; 1; 2; 3].
Definition lab_app : AppState :=
  mkAppState lab_st lab_base (str "G10.LO") (Some (lab_registry (List.map (with_domain_sid (Sid.to_string lab_sid)) lab_partitions))) None.

Definition bob_dn : Dn := Eval vm_compute in dn_of (str "cn=bob,dc=g10,dc=lo").
Definition lab_krbtgt_dn : Dn := Eval vm_compute in dn_of (str "cn=krbtgt,dc=g10,dc=lo").
Definition host_dn : Dn := Eval vm_compute in dn_of (str "cn=host.sim,dc=g10,dc=lo").
Definition with_sid (rid : Z) (e : Entry) : Entry :=
  Entry.set e OBJECT_SID_ATTR [encode_binary_attr (Sid.encode (with_sub_authority lab_sid rid))].
Definition bob : Entry := Eval vm_compute in with_sid 1100 (with_key (str "bob") (str "bob@G10.LO") (str "correcthorse")).
Definition lab_krbtgt : Entry := Eval vm_compute in with_key (str "krbtgt") (str "krbtgt/G10.LO@G10.LO") (str "ticket-granting").
Definition host : Entry := Eval vm_compute in with_key (str "host.sim") (str "host/sim@G10.LO") (sim_service_password lab_config).

Definition lab_forest : forest :=
  set_entry lab_st (set_entry lab_st (set_entry lab_st ∅ bob_dn bob) lab_krbtgt_dn lab_krbtgt) host_dn host.
Definition lab_store : kvstore :=
  foldl (fun m de => (exec zeros (Store.put_entry lab_st de.1 de.2 index_spec) m).2) ∅
    [(bob_dn, bob); (lab_krbtgt_dn, lab_krbtgt); (host_dn, host)].

Lemma lab_connected : connected lab_st.
Proof.
  assert (forallb (fun p => valid_id (p_id p) && bool_decide (p_id p ∈ clients lab_st)) (iter (registry lab_st)) = true)
    as Hall by (vm_compute; reflexivity).
  rewrite forallb_forall in Hall.
  split; intros p Hp%list_elem_of_In%Hall; apply andb_true_iff in Hp as [? ?%bool_decide_eq_true]; done.
Qed.

Lemma lab_connect : connect_store lab_endpoint lab_cluster lab_config = Ret (Ok lab_st).
Proof. vm_compute. reflexivity. Qed.

Lemma bob_wf : entry_wf bob.
Proof.
  assert (bob = with_sid 1100 (with_key (str "bob") (str "bob@G10.LO") (str "correcthorse"))) as -> by (vm_compute; reflexivity).
  apply entry_set_wf; [apply with_key_wf; apply str_ok_str|apply str_ok_str|].
  apply Forall_singleton, encode_binary_str_ok. apply (bool_decide_unpack (bytes_ok _)). vm_compute. reflexivity.
Qed.

Lemma lab_dn_ok dn s : dn = dn_of (str s) -> dn_wfb dn = true -> Dn.to_string dn = str s -> dn_ok dn.
Proof. intros -> Hw Hs. by apply kdc_dn_ok. Qed.

Lemma lab_holds : holds lab_st index_spec lab_forest lab_store.
Proof.
  unfold lab_forest, lab_store. cbn [foldl fst snd].
  repeat (apply (put_entry_exec lab_st lab_connected index_spec); [..|vm_compute; reflexivity]);
    try (apply spelled_absent; vm_compute; reflexivity).
  - apply holds_empty.
  - by apply (lab_dn_ok _ "cn=bob,dc=g10,dc=lo").
  - apply bob_wf.
  - by apply (lab_dn_ok _ "cn=krbtgt,dc=g10,dc=lo").
  - apply (with_key_wf (str "krbtgt") (str "krbtgt/G10.LO@G10.LO") (str "ticket-granting")); apply str_ok_str.
  - by apply (lab_dn_ok _ "cn=host.sim,dc=g10,dc=lo").
  - apply (with_key_wf (str "host.sim") (str "host/sim@G10.LO") (sim_service_password lab_config)); apply str_ok_str.
Qed.

Lemma lab_keys_wf : forest_keys_wf lab_app lab_forest.
Proof.
  intros dn dn' e ks Hf. apply keys_wfb_sound. unfold lab_forest in Hf.
  apply find_entry_set in Hf as [[_ ->]|Hf]; [vm_compute; reflexivity|].
  apply find_entry_set in Hf as [[_ ->]|Hf]; [vm_compute; reflexivity|].
  apply find_entry_set in Hf as [[_ ->]|Hf]; [vm_compute; reflexivity|].
  by rewrite find_entry_empty in Hf.
Qed.

(** What a lookup on the reference server does not find is not there. *)
Lemma unindexed_by_exec attr value d :
  to_ascii_lowercase attr ∈ Kdc.index_spec -> (exec zeros (Store.lookup_by_index lab_st lab_base attr value) lab_store).1 = Ok [] ->
  ~ indexed_dn lab_st lab_forest lab_base attr value d.
Proof.
  intros Ha Hl Hi. pose proof (exec_runs zeros (Store.lookup_by_index lab_st lab_base attr value) lab_store zeros_ok) as Hr.
  apply (lookup_runs lab_st lab_connected Kdc.index_spec _ _ _ _ _ _ _ lab_holds Ha) in Hr as [_ [[e He]|(l & Hl' & _ & Hin)]]; rewrite Hl in *; [done|].
  injection Hl' as <-. apply Hin in Hi. by apply not_elem_of_nil in Hi.
Qed.

Definition bob_key : PrincipalKey := Eval vm_compute in first_key bob.

Lemma bob_account :
  account lab_app lab_forest (str "G10.LO") (str "bob") (str "correcthorse") bob_dn bob (keys_of bob) bob_key (to_hex (replicate 16 3)).
Proof.
  split; [|vm_compute; reflexivity..].
  apply (principal_by_exec lab_app lab_connected lab_forest lab_store _ _ bob_dn); [apply lab_holds|vm_compute; reflexivity..].
Qed.

Lemma lab_granting :
  granting lab_app lab_forest (str "G10.LO") Aes256CtsHmacSha384_192 lab_krbtgt_dn lab_krbtgt (keys_of lab_krbtgt) (first_key lab_krbtgt).
Proof.
  split; [|vm_compute; reflexivity..].
  apply (principal_by_exec lab_app lab_connected lab_forest lab_store _ _ lab_krbtgt_dn); [apply lab_holds|vm_compute; reflexivity..].
Qed.

Lemma host_at (app : AppState) : app_store app = lab_st -> app_base_dn app = lab_base ->
  principal_at app lab_forest (fqn (str "host/sim") (str "G10.LO")) host_dn host.
Proof.
  destruct app as [st base r t o]. cbn [app_store app_base_dn]. intros -> ->.
  apply (principal_by_exec (mkAppState lab_st lab_base r t o) lab_connected lab_forest lab_store _ _ host_dn);
    [apply lab_holds|vm_compute; reflexivity..].
Qed.

Definition lab_login : result (stop (JoinError json_error)) LoginReport :=
  (exec zeros (simulate_login lab_endpoint lab_cluster (kdc_network (Ok tt) lab_app) lab_config (str "bob") (str "correcthorse")) lab_store).1.

Lemma lab_login_runs :
  runs_at (fun t => t = 0)
    (simulate_login lab_endpoint lab_cluster (kdc_network (Ok tt) lab_app) lab_config (str "bob") (str "correcthorse")) lab_store lab_login
    (exec zeros (simulate_login lab_endpoint lab_cluster (kdc_network (Ok tt) lab_app) lab_config (str "bob") (str "correcthorse")) lab_store).2.
Proof. exact (exec_runs_at _ _ _ _ eq_refl zeros_ok). Qed.

Lemma login_succeeds_witness : lab_login = Ok (mkLoginReport (str "bob") [1; 10; 6; 7]).
Proof.
  destruct plain_laws as (L1 & L2 & L3 & L4 & L5 & L6 & L7). destruct plain_totals as (D1 & D2 & D3 & D4 & D5 & D6).
  pose proof (login_succeeds (Ok tt) (fun t => t = 0) lab_app lab_connected lab_forest lab_store lab_holds lab_keys_wf ex_clocks
    lab_endpoint lab_cluster lab_config lab_st lab_base lab_forest lab_connect ltac:(vm_compute; reflexivity) lab_connected lab_holds
    host_dn host_dn host (keys_of host) (first_key host) (host_at lab_app eq_refl eq_refl) (host_at (mkAppState lab_st lab_base (str "G10.LO") None None) eq_refl eq_refl)
    ltac:(vm_compute; reflexivity) ltac:(vm_compute; reflexivity) ltac:(vm_compute; reflexivity)
    (str "bob") (str "correcthorse") bob_dn bob (keys_of bob) bob_key (to_hex (replicate 16 3))
    lab_krbtgt_dn lab_krbtgt (keys_of lab_krbtgt) (first_key lab_krbtgt) lab_login _
    ltac:(by_decide) ltac:(by_decide) ltac:(by_decide) eq_refl bob_account eq_refl lab_granting
    (packed_carried _ _ _ _ _) (packed_carried _ _ _ _ _) lab_login_runs) as [_ Hr].
  destruct lab_login as [report|] eqn:E; [|vm_compute in E; discriminate E]. rewrite Hr. reflexivity.
Defined.
