(* ===== verification/KdcCtl.v ===== *)
(** The administration of principals: [iron-kdc-ctl]
    ([crates/kdc/src/bin/iron-kdc-ctl.rs]) and [iron-rpc-ctl]
    ([crates/rpc/src/bin/iron-rpc-ctl.rs]).  A principal whose password was set
    can log on, the keys of a trust agree on both of its sides, and a keytab has
    the keys of the directory. *)

From S2P Require Import Prelude Bytes Str Btree Utf8 Decimal Dn Partition Key Registry Entry Etcd Index Ridpool Store.
From S2P Require Import Directory Sid Nfold Kerberos Md4 Password Principal BinaryAttrs Keytab Krb Pac Kdc KdcAs KdcTgs KdcServer Netlogon.
From S2P Require Import Config ConfigSpec Daemons KrbClient KrbLogon Join JoinSpec.

Inductive KdcCtlError (E J : Type) :=
| CtlStart (e : DaemonError E J)
| CtlUsage
| CtlPrincipal (e : PrincipalError)
| CtlEntryMissing (dn : Dn)
| CtlNotUnique (name : rstring) (count : Z)
| CtlNoSuch (name : rstring)
| CtlNoKeys (name : rstring)
| CtlFile
| CtlUnknown (cmd : rstring).
Arguments CtlStart {E J} e.
Arguments CtlUsage {E J}.
Arguments CtlPrincipal {E J} e.
Arguments CtlEntryMissing {E J} dn.
Arguments CtlNotUnique {E J} name count.
Arguments CtlNoSuch {E J} name.
Arguments CtlNoKeys {E J} name.
Arguments CtlFile {E J}.
Arguments CtlUnknown {E J} cmd.

(** What a command reports. *)
Inductive KdcCtlDone :=
| PasswordSet (name : rstring) (dn : Dn)
| KeytabWritten (path : rstring) (contents : bytes)
| CrossRealmKeySet (name : rstring) (dn : Dn).

Section ctl.
  Context `{EntryCodec} `{!PartitionJson} `{!OpenSsl}.
(** The environment, what connecting to a cluster gives, whether the FIPS
    provider can be used, and whether a file can be written. *)
  Context (vars : rstring -> option rstring) (connect_cluster : ClusterRef -> result (StoreError json_error) unit)
    (fresh_fips : result Error unit) (write_file : rstring -> bytes -> bool).
  Abbreviation kdc_ctl A := (prog (result (stop (KdcCtlError json_error ConfigError)) A)).

Definition ctl_err {A} (e : KdcCtlError json_error ConfigError) : kdc_ctl A := Ret (Err (Return e)).
Definition ctl_start {A} (r : result (DaemonError json_error ConfigError) A) : kdc_ctl A := lift (map_err (fun e => Return (CtlStart e)) r).
Definition ctl_store {A} (p : prog (result (StoreError json_error) A)) : kdc_ctl A :=
  prog_map_err (fun e => Return (CtlStart (DStore e))) p.

Definition ctl_connect (base_dn_str pid endpoint : rstring) : kdc_ctl (Store * Dn) :=
  ctl_start (domain_store connect_cluster pid base_dn_str endpoint).

(** The entry of the principal [name], or a new one called [cn_value]. *)
Definition principal_entry (st : Store) (base_dn : Dn) (base_dn_str name cn_value : rstring) : kdc_ctl (Dn * Entry) :=
  existing <-? ctl_store (Store.lookup_by_index st base_dn ATTR_PRINCIPAL_NAME name) ;;
  match existing with
  | [] =>
      dn <-? ctl_start (map_err DPartition (Dn.parse (str "cn=" ++ cn_value ++ str "," ++ base_dn_str))) ;;
      Ret (Ok (dn, Entry.set (Entry.set Entry.new (str "objectclass") [str "top"]) (str "cn") [cn_value]))
  | [dn] =>
      e <-? ctl_store (Store.get_entry st dn) ;;
      match e with None => ctl_err (CtlEntryMissing dn) | Some entry => Ret (Ok (dn, entry)) end
  | multiple => ctl_err (CtlNotUnique name (zlen multiple))
  end.

(** The commands, with the settings [main] has read. *)
  Context (endpoint pid base_dn_str realm : rstring).

Definition set_password_cmd (principal password : rstring) : kdc_ctl KdcCtlDone :=
  let principal_fqn := fqn principal realm in
  made <-? ctl_connect base_dn_str pid endpoint ;;
  _ <-? ctl_start (map_err DCrypto fresh_fips) ;;
  found <-? principal_entry made.1 made.2 base_dn_str principal_fqn (dotted principal) ;;
  entry <-? prog_map_err (fun e => Return (CtlPrincipal e)) (Call (Random (Z.to_nat MIN_SALT_LEN)) (fun random =>
              Ret (Principal.set_password random found.2 principal_fqn (utf8_encode password)))) ;;
  _ <-? ctl_store (Store.put_entry made.1 found.1 entry Kdc.index_spec) ;;
  Ret (Ok (PasswordSet principal_fqn found.1)).

(** [duration_since(UNIX_EPOCH).map(|d| d.as_secs() as u32).unwrap_or(0)]. *)
Definition unix_u32 (t : Z) : Z := if t <? 0 then 0 else as_u32 (t / NANOS).

Definition keytab_entries (principal : rstring) (t : Z) (ks : list PrincipalKey) : list KeytabEntry :=
  let components := List.map gstring_to_string (pn_string (string_to_principal_name principal)) in
  let name_type := if (1 <? length components)%nat then 2 else 1 in
  List.map (fun k => mkKeytabEntry realm components name_type (unix_u32 t) (pk_kvno k) (pk_enctype k) (pk_key k)) ks.

Definition export_keytab_cmd (principal output_path : rstring) : kdc_ctl KdcCtlDone :=
  let principal_fqn := fqn principal realm in
  made <-? ctl_connect base_dn_str pid endpoint ;;
  existing <-? ctl_store (Store.lookup_by_index made.1 made.2 ATTR_PRINCIPAL_NAME principal_fqn) ;;
  dn <-? match existing with
         | [] => ctl_err (CtlNoSuch principal_fqn)
         | [dn] => Ret (Ok dn)
         | multiple => ctl_err (CtlNotUnique principal_fqn (zlen multiple))
         end ;;
  e <-? ctl_store (Store.get_entry made.1 dn) ;;
  match e with
  | None => ctl_err (CtlEntryMissing dn)
  | Some entry =>
      match Principal.keys entry with
      | None => Ret (Err Panic)
      | Some (Err e) => ctl_err (CtlPrincipal e)
      | Some (Ok []) => ctl_err (CtlNoKeys principal_fqn)
      | Some (Ok ks) =>
          Call Now (fun t =>
            let contents := Keytab.write (keytab_entries principal t ks) in
            if write_file output_path contents then Ret (Ok (KeytabWritten output_path contents)) else ctl_err CtlFile)
      end
  end.

Definition set_cross_realm_key_cmd (to_realm from_realm : rstring) (secret : option rstring) : kdc_ctl KdcCtlDone :=
  let to_realm := to_ascii_uppercase to_realm in
  let from_realm := to_ascii_uppercase from_realm in
  match secret with
  | None => ctl_err CtlUsage
  | Some secret =>
      let name := str "krbtgt/" ++ to_realm in
      let principal_fqn := fqn name from_realm in
      made <-? ctl_connect base_dn_str pid endpoint ;;
      _ <-? ctl_start (map_err DCrypto fresh_fips) ;;
      found <-? principal_entry made.1 made.2 base_dn_str principal_fqn (dotted name ++ str "." ++ from_realm) ;;
      entry <-? lift (map_err (fun e => Return (CtlPrincipal e)) (Principal.set_shared_key found.2 principal_fqn (utf8_encode secret))) ;;
      _ <-? ctl_store (Store.put_entry made.1 found.1 entry Kdc.index_spec) ;;
      Ret (Ok (CrossRealmKeySet principal_fqn found.1))
  end.
End ctl.

Section main.
  Context `{EntryCodec} `{!PartitionJson} `{!OpenSsl}.
  Context (vars : rstring -> option rstring) (connect_cluster : ClusterRef -> result (StoreError json_error) unit)
    (fresh_fips : result Error unit) (write_file : rstring -> bytes -> bool).

Definition kdc_ctl_main (args : list rstring) : prog (result (stop (KdcCtlError json_error ConfigError)) KdcCtlDone) :=
  match args !! 1%nat, args !! 2%nat, args !! 3%nat with
  | Some cmd, Some principal, Some third =>
      endpoint <-? ctl_start (require vars "IRON_KDC_FASTETCD_ENDPOINT") ;;
      pid <-? ctl_start (require vars "IRON_KDC_PARTITION_ID") ;;
      base_dn_str <-? ctl_start (require vars "IRON_KDC_BASE_DN") ;;
      realm <-? ctl_start (require vars "IRON_KDC_REALM") ;;
      if bool_decide (cmd = str "set-password") then set_password_cmd connect_cluster fresh_fips endpoint pid base_dn_str realm principal third
      else if bool_decide (cmd = str "export-keytab") then export_keytab_cmd connect_cluster write_file endpoint pid base_dn_str realm principal third
      else if bool_decide (cmd = str "set-cross-realm-key")
      then set_cross_realm_key_cmd connect_cluster fresh_fips endpoint pid base_dn_str principal third (args !! 4%nat)
      else ctl_err (CtlUnknown cmd)
  | _, _, _ => ctl_err CtlUsage
  end.

(** [iron-rpc-ctl]. *)
Definition rpc_ctl_main (args : list rstring) : prog (result (stop (KdcCtlError json_error ConfigError)) Dn) :=
  match args !! 1%nat, args !! 2%nat, args !! 3%nat with
  | Some cmd, Some account_name, Some secret =>
      if negb (bool_decide (cmd = str "set-computer-secret")) then ctl_err (CtlUnknown cmd)
      else
        endpoint <-? ctl_start (require vars "IRON_RPC_FASTETCD_ENDPOINT") ;;
        pid <-? ctl_start (require vars "IRON_RPC_PARTITION_ID") ;;
        base_dn_str <-? ctl_start (require vars "IRON_RPC_BASE_DN") ;;
        made <-? ctl_connect connect_cluster base_dn_str pid endpoint ;;
        existing <-? ctl_store (Store.lookup_by_index made.1 made.2 (str "cn") account_name) ;;
        match existing with
        | [] => ctl_err (CtlNoSuch account_name)
        | [dn] =>
            e <-? ctl_store (Store.get_entry made.1 dn) ;;
            match e with
            | None => ctl_err (CtlEntryMissing dn)
            | Some entry =>
                let entry := Entry.set entry NTOWF_ATTR [to_hex (Md4.ntowf secret)] in
                _ <-? ctl_store (Store.put_entry made.1 dn entry rpcd_spec) ;;
                Ret (Ok dn)
            end
        | multiple => ctl_err (CtlNotUnique account_name (zlen multiple))
        end
  | _, _, _ => ctl_err CtlUsage
  end.
End main.

(** ** A principal with a new password

    [e] is [e0] with the keys of [password], written at [dn]. *)

(** An entry with one principal name, which no other has. *)
Lemma named_at (app : AppState) (F : forest) (dn : Dn) (p : Partition) (name : rstring) (e : Entry) :
  Registry.resolve (registry (app_store app)) dn = Some p -> Registry.resolve (registry (app_store app)) (app_base_dn app) = Some p ->
  spelled (app_store app) F dn -> Entry.get e ATTR_PRINCIPAL_NAME = Some [name] ->
  (forall d, indexed_dn (app_store app) F (app_base_dn app) ATTR_PRINCIPAL_NAME name d -> d = dn) ->
  principal_at app (set_entry (app_store app) F dn e) name dn e.
Proof.
  intros Hp Hbase Hs Hname Hunique. split; [|exists dn; by apply (find_entry_new _ _ _ p)]. intros d.
  rewrite (indexed_set _ _ _ p Hp _ _ _ _ _ Hs Hbase), Hname. split.
  - by intros [[? _]|[_ ?%Hunique]].
  - intros ->. left. split; [done|]. by left.
Qed.

Section rekeyed.
  Context `{EntryCodec} `{Base64} `{!OpenSsl, !OpenSslLaws} `{!KrbCodec} `{!ErrorText}.
  Context (app : AppState) (F : forest) (dn : Dn) (p : Partition) (Hp : Registry.resolve (registry (app_store app)) dn = Some p)
    (Hbase : Registry.resolve (registry (app_store app)) (app_base_dn app) = Some p) (Hs : spelled (app_store app) F dn).
  Context (name : rstring) (password : bytes) (e0 e : Entry) (random : bytes) (Hl : zlen random = MIN_SALT_LEN) (Hb : bytes_ok random)
    (Hpassword : 8 <= zlen password) (Hset : set_password (Some random) e0 name password = Ok e)
    (Hunique : forall d, indexed_dn (app_store app) F (app_base_dn app) ATTR_PRINCIPAL_NAME name d -> d = dn).
  Abbreviation F' := (set_entry (app_store app) F dn e).

Lemma rekeyed_name : Entry.get e ATTR_PRINCIPAL_NAME = Some [name].
Proof. destruct (set_password_keys random e0 name password Hl Hb Hpassword) as (e' & He & Hn & _). rewrite Hset in He. by injection He as <-. Qed.

Lemma rekeyed_at : principal_at app F' name dn e.
Proof. exact (named_at app F dn p name e Hp Hbase Hs rekeyed_name Hunique). Qed.

Lemma rekeyed_account realm principal : name = fqn principal realm ->
  exists ks k salt, account app F' realm principal password dn e ks k salt /\ pk_enctype k = Aes256CtsHmacSha384_192.
Proof.
  intros Hname. destruct (set_password_first random e0 name password Hl Hb Hpassword) as (e' & k1 & k2 & He & Hk & Hsalt & Hd & _).
  rewrite Hset in He. injection He as <-. eexists _, (mkPrincipalKey _ _ k1), (to_hex random). split; [|reflexivity].
  split; [rewrite <- Hname; apply rekeyed_at|exact Hk|done|exact Hsalt|by apply hex_permitted|exact Hd].
Qed.

(** Other principals, on other entries, stay. *)
Lemma rekeyed_kept n d x : principal_at app F n d x -> d <> dn -> n <> name -> principal_at app F' n d x.
Proof.
  intros [Hu [d' Hf]] Hd Hn. assert (indexed_dn (app_store app) F (app_base_dn app) ATTR_PRINCIPAL_NAME n d) as (q & x' & Hq & Hk & _) by (by apply Hu).
  rewrite Hbase in Hq. injection Hq as <-. split.
  - intros d1. rewrite (indexed_set _ _ _ p Hp _ _ _ _ _ Hs Hbase), rekeyed_name, Hu. split.
    + intros [[-> Hin]|[_ ?]]; [|done]. by apply list_elem_of_singleton in Hin.
    + intros ->. by right.
  - exists d'. rewrite (find_entry_kept _ _ _ p Hp); [done|]. intros Heq. rewrite Heq in Hk. apply Hd. by eapply (spelled_key _ _ _ p Hp).
Qed.

Lemma rekeyed_keys_wf : forest_keys_wf app F -> forest_keys_wf app F'.
Proof.
  intros Hwf d d' x ks Hf Hks. apply find_entry_set in Hf as [[_ ->]|Hf]; [|by eapply Hwf].
  destruct (set_password_first random e0 name password Hl Hb Hpassword) as (e' & k1 & k2 & He & Hk & _ & _ & Hw).
  rewrite Hset in He. injection He as <-. unfold has_keys in *. rewrite Hk in Hks. by injection Hks as <-.
Qed.
End rekeyed.

(** ** A store of one partition *)

Lemma domain_store_one `{EntryCodec} `{!PartitionJson} connect_cluster pid b endpoint st base :
  domain_store connect_cluster pid b endpoint = Ok (st, base) ->
  connected st /\ Dn.parse b = Ok base /\
  exists p, iter (registry st) = [p] /\ base_dn p = base.
Proof.
  intros (reg & Hr & Hc)%domain_store_registry. unfold domain_registry, ForestId_new in Hr. destruct (valid_id pid) eqn:Hv; [|done].
  cbn [map_err mbind result_bind] in Hr. destruct (Dn.parse b) as [dn|]; [|done]. cbn [map_err mbind result_bind] in Hr.
  unfold Partition.domain, PartitionId_new in Hr. rewrite Hv in Hr. cbn [map_err mbind result_bind] in Hr.
  set (p := mkPartition _ _ _ _ _ _ _ _ _ _ _ _) in Hr. assert (Registry.insert Registry.new p = Ok (mkRegistry [(pid, p)])) as Hi by done.
  rewrite Hi in Hr. injection Hr as <- <-. unfold Store.connect in Hc. cbn in Hc. destruct (connect_cluster _) as [[]|]; [|done].
  injection Hc as <-. split; [|split; [done|by exists p]].
  split; intros q ->%list_elem_of_singleton; [done|]. by left.
Qed.

Section spec.
  Context `{!WireCodec, !ClientCodec, !WireLaws} `{EntryCodec} `{!PartitionJson} `{Base64} `{!OpenSsl, !OpenSslLaws} `{!KrbCodec} `{!ErrorText}.
  Context `{!DerLaw EncTicketPart, !DerLaw EncAsRepPart, !DerLaw EncTgsRepPart, !DerLaw ApReq}.
  Context `{!DerLaw PaEncTsEnc, !DerLaw EncryptedData, !DerLaw Authenticator, !DerLaw (list PaData), !DerLaw (list EtypeInfo2Entry)}.
  Context `{!DerTotal PaEncTsEnc, !DerTotal EncryptedData, !DerTotal Authenticator, !DerTotal ApReq, !DerTotal (list PaData),
    !DerTotal (list EtypeInfo2Entry), !DerLaw (list AuthorizationDataValue)}.
(** The KDC and the command have the same settings. *)
  Context (T : Z -> Prop) (connect_cluster : ClusterRef -> result (StoreError json_error) unit) (fresh_fips : result Error unit)
    (endpoint pid base_dn_str : rstring) (app : AppState)
    (Hconn : domain_store connect_cluster pid base_dn_str endpoint = Ok (app_store app, app_base_dn app))
    (F : forest) (m : kvstore) (HF : holds (app_store app) index_spec F m).
  Abbreviation st := (app_store app).
  Abbreviation base := (app_base_dn app).
  Implicit Types (dn d : Dn) (e : Entry) (name cn : rstring).

Lemma st_connected : connected st.
Proof. by apply domain_store_one in Hconn as (? & _). Qed.

Lemma st_owner : exists p, Registry.resolve (registry st) base = Some p /\
  forall d q, Registry.resolve (registry st) d = Some q -> q = p.
Proof.
  apply domain_store_one in Hconn as (_ & _ & p & Hi & Hb). exists p. unfold Registry.resolve. rewrite Hi. split.
  - cbn [List.filter]. by rewrite Hb, is_within_refl.
  - intros d q. cbn [List.filter]. destruct (is_within d (base_dn p)); [|done]. by intros [= ->].
Qed.

(** What is found by a name is written the way it is called. *)
Lemma indexed_facts attr value d : indexed_dn st F base attr value d -> spelled st F d /\ dn_ok d.
Proof.
  intros (p & e & Hb & Hk & _). destruct st_owner as (p' & Hb' & Hall). rewrite Hb in Hb'. injection Hb' as <-. split.
  - intros d' e'. unfold find_entry. destruct (Registry.resolve (registry st) d) as [q|] eqn:Hq; [|done]. cbn [mbind option_bind].
    rewrite (Hall d q Hq), Hk. by intros [= <-].
  - destruct (owner _ st_connected _ _ Hb) as (Hin & _ & _). by destruct (r_keys _ _ _ _ (HF p Hin) _ _ _ Hk) as (_ & ? & _).
Qed.

Definition new_entry cn : Entry := Entry.set (Entry.set Entry.new (str "objectclass") [str "top"]) (str "cn") [cn].

(** The entry a command changes: the principal's, or a new one. *)
Definition target name cn dn e : Prop :=
  principal_at app F name dn e \/
  ((forall d, ~ indexed_dn st F base ATTR_PRINCIPAL_NAME name d) /\
   Dn.parse (str "cn=" ++ cn ++ str "," ++ base_dn_str) = Ok dn /\ e = new_entry cn).

Lemma ro_principal_entry name cn :
  ro T m (fun _ => True) (principal_entry st base base_dn_str name cn) (fun found => target name cn found.1 found.2).
Proof.
  unfold principal_entry, ctl_store. eapply (ro_try _ _ _ _ _ (fun l => NoDup l /\ forall d, d ∈ l <-> indexed_dn st F base ATTR_PRINCIPAL_NAME name d)).
  { apply (ro_map_err T m (fun _ => True)); [|done]. apply ro_runs. intros r m' Hr. apply (lookup_runs st st_connected index_spec F m) in Hr as [-> Hr]; [|done|by_decide].
    split; [done|]. destruct Hr as [[e ->]|(l & -> & Hl)]; [exact I|exact Hl]. }
  intros l [Hnd Hl]. destruct l as [|d [|d2 l]].
  - unfold ctl_start. destruct (Dn.parse _) as [dn|] eqn:Hparse; cbn [map_err lift]; [|by apply ro_err].
    apply ro_ok, ro_ret. right. split; [|done]. intros d Hd%Hl. by apply not_elem_of_nil in Hd.
  - assert (forall d', indexed_dn st F base ATTR_PRINCIPAL_NAME name d' <-> d' = d) as Hu.
    { intros d'. rewrite <- Hl. apply list_elem_of_singleton. }
    eapply (ro_try _ _ _ _ _ (fun o => o = snd <$> find_entry st F d)).
    + apply (ro_map_err T m (fun _ => True)); [|done]. apply ro_runs. intros r m' Hr. by apply (get_entry_runs st st_connected index_spec F) in Hr as [-> [->|[e ->]]].
    + intros o ->. destruct (find_entry st F d) as [[d' e]|] eqn:Hf; cbn; [|by apply ro_err]. apply ro_ret. left. split; [done|by exists d'].
  - by apply ro_err.
Qed.

(** A new principal gets an entry of its own. *)
Definition free name cn : Prop :=
  (forall d, ~ indexed_dn st F base ATTR_PRINCIPAL_NAME name d) -> forall dn, Dn.parse (str "cn=" ++ cn ++ str "," ++ base_dn_str) = Ok dn ->
  dn_ok dn /\ find_entry st F dn = None /\ is_Some (Registry.resolve (registry st) dn).

Lemma target_facts name cn dn e :
  free name cn -> str_ok cn -> target name cn dn e ->
  dn_ok dn /\ spelled st F dn /\ entry_wf e /\ (forall d, indexed_dn st F base ATTR_PRINCIPAL_NAME name d -> d = dn) /\
  exists p, Registry.resolve (registry st) dn = Some p /\ Registry.resolve (registry st) base = Some p.
Proof.
  intros Hfree Hcn Ht. destruct st_owner as (p & Hp & Hall). destruct Ht as [[Hu [d' Hf]]|(Hno & Hparse & ->)].
  - destruct (indexed_facts ATTR_PRINCIPAL_NAME name dn) as [Hs Hok]; [by apply Hu|]. split; [done|]. split; [done|].
    split; [by apply (find_entry_wf _ st_connected _ _ _ _ _ _ HF Hf)|]. split; [by intros d ?%Hu|]. exists p. split; [|done].
    unfold find_entry in Hf. destruct (Registry.resolve (registry st) dn) as [q|] eqn:Hq; [|done]. by rewrite (Hall dn q Hq).
  - destruct (Hfree Hno dn Hparse) as (Hok & Hf & [q Hq]). split; [done|]. split; [by apply spelled_absent|]. split; [|split; [by intros d ?%Hno|]].
    + unfold new_entry. repeat (apply entry_set_wf; [|apply str_ok_str|apply Forall_singleton; first [done|apply str_ok_str]]). apply entry_new_wf.
    + exists p. split; [|done]. by rewrite Hq, (Hall dn q Hq).
Qed.

(** The entry with the new password. *)
Definition password_of name cn (password : bytes) dn e : Prop :=
  exists e0 random, target name cn dn e0 /\ zlen random = MIN_SALT_LEN /\ bytes_ok random /\
    set_password (Some random) e0 name password = Ok e.

Definition rekeyed_or_not name cn (password : bytes) (m' : kvstore) : Prop :=
  holds st index_spec F m' \/ exists dn e, password_of name cn password dn e /\ holds st index_spec (set_entry st F dn e) m'.

Lemma put_target name cn dn e0 e r m' :
  free name cn -> str_ok cn -> target name cn dn e0 -> entry_wf e ->
  runs (Store.put_entry st dn e Kdc.index_spec) m r m' -> outcome st Kdc.index_spec F (set_entry st F dn e) r m'.
Proof.
  intros Hfree Hcn Ht Hwf. destruct (target_facts _ _ _ _ Hfree Hcn Ht) as (Hok & Hs & _).
  apply (put_entry_runs st st_connected Kdc.index_spec F); done.
Qed.

Lemma set_password_cmd_runs (realm principal password : rstring) :
  let name := fqn principal realm in
  free name (dotted principal) -> str_ok (dotted principal) -> str_ok name ->
  wpt T (fun _ => rekeyed_or_not name (dotted principal) (utf8_encode password))
    (set_password_cmd connect_cluster fresh_fips endpoint pid base_dn_str realm principal password)
    (fun done m' => exists dn e, done = PasswordSet name dn /\ password_of name (dotted principal) (utf8_encode password) dn e /\
       holds st index_spec (set_entry st F dn e) m') m.
Proof.
  intros name Hfree Hcn Hname. unfold set_password_cmd. cbn zeta. fold name. unfold ctl_connect at 1, ctl_start at 1. rewrite Hconn. cbn [map_err lift].
  apply wpt_ok. cbn [fst snd]. unfold ctl_start. destruct fresh_fips; cbn [map_err lift]; [|intros r m' [-> ->]; by left]. apply wpt_ok.
  eapply wpt_ro; [apply ro_principal_entry|by left|]. intros [dn e0] Ht. cbn [fst snd] in *.
  eapply (wpt_try _ _ _ _ (fun e m' => m' = m /\ password_of name (dotted principal) (utf8_encode password) dn e)).
  { apply (wpt_map_err T (fun _ m' => m' = m)); [|intros e m' ->; by left].
    intros r m' (random & m1 & (-> & Hr) & _ & -> & ->). destruct Hr as [->|(salt & -> & Hl & Hb)]; [done|].
    destruct (set_password _ e0 _ _) as [e|] eqn:Hset; [|done]. split; [done|]. exists e0, salt. split; [done|]. split; [unfold zlen; by rewrite Hl|done]. }
  intros e ? [-> He]. pose proof He as (e0' & random & Ht' & Hl & Hb & Hset).
  assert (entry_wf e) as Hwf.
  { destruct (target_facts _ _ _ _ Hfree Hcn Ht') as (_ & _ & Hwf0 & _). by eapply set_password_wf. }
  eapply (wpt_try _ _ _ _ (fun _ m' => holds st index_spec (set_entry st F dn e) m')).
  - apply (wpt_map_err T (fun _ m' => rekeyed_or_not name (dotted principal) (utf8_encode password) m')); [|done].
    intros r m' Hr%runs_at_runs. apply (put_target name (dotted principal) dn e0 e) in Hr; [|done..].
    destruct r as [[]|]; cbn [outcome] in Hr; [done|]. destruct Hr; [by left|right; by exists dn, e].
  - intros _ m' Hm. apply wpt_ret. by exists dn, e.
Qed.

(** *** Logging on with the new password *)

Section logging_on.
  Context (realm principal password service addr : rstring) (Hclocks : clocks_agree T) (Happ : app_realm app = realm).
  Context (Hr : ascii_name realm) (Hp : ascii_name principal) (Hs : ascii_name service) (Hlen : 8 <= zlen (utf8_encode password))
    (Hfree : free (fqn principal realm) (dotted principal)) (Hwf : forest_keys_wf app F).
(** The ticket-granting service and the service are other principals, on other
    entries. *)
  Context (kdn sdn : Dn) (ke se : Entry) (kks sks : list PrincipalKey) (kk sk : PrincipalKey)
    (Hgr : granting app F realm Aes256CtsHmacSha384_192 kdn ke kks kk)
    (Hsv : served_by app F realm service Aes256CtsHmacSha384_192 sdn se sks sk)
    (Hnames : fqn principal realm <> fqn (str "krbtgt/" ++ realm) realm /\ fqn principal realm <> fqn service realm)
    (Hentries : forall d, indexed_dn st F base ATTR_PRINCIPAL_NAME (fqn principal realm) d -> d <> kdn /\ d <> sdn).

Lemma target_other n d x dn e0 :
  principal_at app F n d x -> (indexed_dn st F base ATTR_PRINCIPAL_NAME (fqn principal realm) dn -> dn <> d) ->
  target (fqn principal realm) (dotted principal) dn e0 -> d <> dn.
Proof.
  intros [_ [d' Hf]] Hd [[Hu _]|(Hno & Hparse & _)]; [intros ->; by apply Hd; [apply Hu|]|].
  destruct (Hfree Hno dn Hparse) as (_ & Hnone & _). intros ->. by rewrite Hnone in Hf.
Qed.

Lemma ro_logon_rekeyed dn e m1 :
  str_ok (dotted principal) -> password_of (fqn principal realm) (dotted principal) (utf8_encode password) dn e ->
  holds st index_spec (set_entry st F dn e) m1 ->
  carried T m1 (as_request T m1 realm principal) encode_as_req (as_handle fresh_fips app) ->
  carried T m1 (tgs_request fresh_fips T app m1 addr realm principal (utf8_encode password) service) encode_tgs_req (tgs_handle fresh_fips app) ->
  ro T m1 (unserved tgs_code) (logon fresh_fips app addr realm principal (utf8_encode password) service)
    (service_ticket_for T app (set_entry st F dn e) realm principal service dn e sk kk).
Proof.
  intros Hcn (e0 & random & Ht & Hl & Hb & Hset) HF1 Has Htgs.
  destruct (target_facts _ _ _ _ Hfree Hcn Ht) as (Hok & Hsp & _ & Hu & p & Hdn & Hbase).
  destruct (rekeyed_account app F dn p Hdn Hbase Hsp _ _ e0 e random Hl Hb Hlen Hset Hu realm principal eq_refl) as (ks & k & salt & Hacc & Hen).
  assert (forall n d x, principal_at app F n d x -> n <> fqn principal realm ->
    (forall d', indexed_dn st F base ATTR_PRINCIPAL_NAME (fqn principal realm) d' -> d' <> d) -> principal_at app (set_entry st F dn e) n d x) as Hkept.
  { intros n d x Hat Hn Hd. apply (rekeyed_kept app F dn p Hdn Hbase Hsp _ _ e0 e random Hl Hb Hlen Hset); [done| |done].
    eapply target_other; [done| |done]. apply Hd. }
  destruct Hgr as [Hkat Hkks Hkk]. destruct Hsv as [Hsat Hsks Hsk Hplain].
  apply (ro_logon fresh_fips T app st_connected (set_entry st F dn e) m1 HF1
    (rekeyed_keys_wf app F dn _ _ e0 e random Hl Hb Hlen Hset Hwf) Hclocks addr realm principal _ service dn e ks k salt kdn ke kks kk sdn se sks sk);
    rewrite ?Hen; try done.
  - split; [|exact Hkks|exact Hkk]. apply Hkept; [done|by apply not_eq_sym, Hnames|]. intros d' Hd'. by apply Hentries.
  - split; [|exact Hsks|exact Hsk|exact Hplain]. apply Hkept; [done|by apply not_eq_sym, Hnames|]. intros d' Hd'. by apply Hentries.
Qed.

Lemma ascii_str_ok s : ascii_name s -> str_ok s.
Proof. intros Ha. eapply Forall_impl; [exact Ha|]. intros c Hc. left. simpl in Hc. lia. Qed.

Lemma dotted_ascii s : ascii_name s -> ascii_name (dotted s).
Proof. intros Ha. apply Forall_map. eapply Forall_impl; [exact Ha|]. intros c Hc. cbn. destruct (c =? c_slash); [vm_compute; split; congruence|done]. Qed.

End logging_on.

(** *** Keys of a trust *)

Lemma set_cross_realm_key_runs (to_realm from_realm secret : rstring) :
  let name := fqn (str "krbtgt/" ++ to_ascii_uppercase to_realm) (to_ascii_uppercase from_realm) in
  let cn := dotted (str "krbtgt/" ++ to_ascii_uppercase to_realm) ++ str "." ++ to_ascii_uppercase from_realm in
  free name cn -> str_ok cn -> (forall e0 e, entry_wf e0 -> set_shared_key e0 name (utf8_encode secret) = Ok e -> entry_wf e) ->
  wpt T (fun _ m' => holds st index_spec F m' \/ exists dn e0 e, target name cn dn e0 /\ set_shared_key e0 name (utf8_encode secret) = Ok e /\
           holds st index_spec (set_entry st F dn e) m')
    (set_cross_realm_key_cmd connect_cluster fresh_fips endpoint pid base_dn_str to_realm from_realm (Some secret))
    (fun _ m' => exists dn e0 e, target name cn dn e0 /\ set_shared_key e0 name (utf8_encode secret) = Ok e /\
       holds st index_spec (set_entry st F dn e) m') m.
Proof.
  intros name cn Hfree Hcn Hwf. unfold set_cross_realm_key_cmd. cbn zeta. fold name. fold cn. unfold ctl_connect at 1, ctl_start at 1. rewrite Hconn. cbn [map_err lift].
  apply wpt_ok. cbn [fst snd]. unfold ctl_start. destruct fresh_fips; cbn [map_err lift]; [|intros r m' [-> ->]; by left]. apply wpt_ok.
  eapply wpt_ro; [apply ro_principal_entry|by left|]. intros [dn e0] Ht. cbn [fst snd] in *.
  destruct (set_shared_key e0 name (utf8_encode secret)) as [e|] eqn:Hset; cbn [map_err lift]; [|intros r m' [-> ->]; by left]. apply wpt_ok.
  assert (entry_wf e) as Hwf'. { destruct (target_facts _ _ _ _ Hfree Hcn Ht) as (_ & _ & Hwf0 & _). by eapply Hwf. }
  eapply (wpt_try _ _ _ _ (fun _ m' => holds st index_spec (set_entry st F dn e) m')).
  - apply (wpt_map_err T (fun _ m' => holds st index_spec F m' \/ exists dn e0 e, target name cn dn e0 /\ set_shared_key e0 name (utf8_encode secret) = Ok e /\
           holds st index_spec (set_entry st F dn e) m')); [|done].
    intros r m' Hr%runs_at_runs. apply (put_target name cn dn e0 e) in Hr; [|done..].
    destruct r as [[]|]; cbn [outcome] in Hr; [done|]. destruct Hr; [by left|right; by exists dn, e0, e].
  - intros _ m' Hm. apply wpt_ret. by exists dn, e0, e.
Qed.
End spec.

(** C23: Both sides of a trust: whichever stores, entries and clocks the command
    runs with, a realm that it succeeds for holds the same keys, which are
    derived from the two names and the secret, under the name of the trust. *)
Theorem cross_realm_keys_agree `{EntryCodec} `{!PartitionJson} `{!OpenSsl, !OpenSslLaws} (to_realm from_realm secret : rstring) :
  ascii_name to_realm -> ascii_name from_realm -> 8 <= zlen (utf8_encode secret) ->
  let to_upper := to_ascii_uppercase to_realm in let from_upper := to_ascii_uppercase from_realm in
  let name := fqn (str "krbtgt/" ++ to_upper) from_upper in
  exists ks, map pk_enctype ks = DEFAULT_ENCTYPES /\ keys_wf ks /\
    forall T connect_cluster fresh_fips endpoint pid base_dn_str app F m r m',
    domain_store connect_cluster pid base_dn_str endpoint = Ok (app_store app, app_base_dn app) ->
    holds (app_store app) index_spec F m -> free base_dn_str app F name (dotted (str "krbtgt/" ++ to_upper) ++ str "." ++ from_upper) ->
    runs_at T (set_cross_realm_key_cmd connect_cluster fresh_fips endpoint pid base_dn_str to_realm from_realm (Some secret)) m r m' ->
    let trusted m' := exists dn e, principal_at app (set_entry (app_store app) F dn e) name dn e /\ has_keys e ks /\
      holds (app_store app) index_spec (set_entry (app_store app) F dn e) m' in
    match r with Ok _ => trusted m' | Err _ => holds (app_store app) index_spec F m' \/ trusted m' end.
Proof.
  intros Hto Hfrom Hlen to_upper from_upper name. assert (forall s, ascii_name s -> ascii_name (to_ascii_uppercase s)) as Hup.
  { intros s Hs. apply Forall_map. eapply Forall_impl; [exact Hs|]. intros c Hc. cbn. unfold ascii_upper. destruct (_ && _) eqn:E; [|done]. lia. }
  assert (ascii_name (str "krbtgt/" ++ to_upper)) as Hk by (apply ascii_name_app; split; [by_decide|by apply Hup]).
  assert (ascii_name name) as Hname by (apply ascii_name_app; split; [done|]; apply ascii_name_app; split; [by_decide|by apply Hup]).
  destruct (set_shared_key_keys name (utf8_encode secret) Hlen) as (ks & Hks & Hw & Hall).
  { rewrite utf8_ascii by exact Hname. unfold name, fqn. rewrite !zlen_app. change (zlen (str "krbtgt/")) with 7. change (zlen (str "@")) with 1.
    pose proof (zlen_nonneg to_upper). pose proof (zlen_nonneg from_upper). lia. }
  { by apply ascii_str_ok. }
  exists ks. split; [done|]. split; [exact Hw|]. intros T cc fips ep pid b app F m r m' Hconn HF Hfree Hrun trusted.
  assert (str_ok (dotted (str "krbtgt/" ++ to_upper) ++ str "." ++ from_upper)) as Hcn.
  { apply ascii_str_ok, ascii_name_app. split; [by apply dotted_ascii|]. apply ascii_name_app. split; [by_decide|by apply Hup]. }
  assert (forall m0, (exists dn e0 e, target b app F name (dotted (str "krbtgt/" ++ to_upper) ++ str "." ++ from_upper) dn e0 /\
    set_shared_key e0 name (utf8_encode secret) = Ok e /\ holds (app_store app) index_spec (set_entry (app_store app) F dn e) m0) -> trusted m0) as Htr.
  { intros m0 (dn & e0 & e & Ht & Hset & Hh). destruct (target_facts cc ep pid b app Hconn F m HF _ _ _ _ Hfree Hcn Ht) as (_ & Hs & _ & Hu & p & Hdn & Hbase).
    destruct (Hall e0) as (e' & He' & Hke & Hn & _). rewrite Hset in He'. injection He' as <-. exists dn, e. split; [by apply (named_at app F dn p)|done]. }
  apply (set_cross_realm_key_runs T cc fips ep pid b app Hconn F m HF to_realm from_realm secret Hfree Hcn) in Hrun.
  - destruct r; [by apply Htr|]. destruct Hrun; [by left|right; by apply Htr].
  - intros e0 e Hwf Hset. change (set_shared_key e0 name (utf8_encode secret) = Ok e) in Hset.
    destruct (Hall e0) as (e' & He' & _ & _ & He). rewrite Hset in He'. injection He' as <-. by apply He.
Qed.

(** ** Keytabs *)

(** A keytab has the keys the directory has for the principal, in their order,
    and reads back as they were written. *)
Theorem keytab_has_principal_keys `{EntryCodec} `{!PartitionJson} `{!OpenSsl} (T : Z -> Prop) connect_cluster write_file endpoint pid base_dn_str
    (realm principal output_path : rstring) (app : AppState) F m dn e ks r m' :
  domain_store connect_cluster pid base_dn_str endpoint = Ok (app_store app, app_base_dn app) ->
  holds (app_store app) index_spec F m -> principal_at app F (fqn principal realm) dn e -> has_keys e ks ->
  (forall t, T t -> Forall entry_ok (keytab_entries realm principal t ks)) ->
  runs_at T (export_keytab_cmd connect_cluster write_file endpoint pid base_dn_str realm principal output_path) m r m' ->
  m' = m /\ match r with
            | Ok (KeytabWritten path contents) => path = output_path /\ write_file path contents = true /\
                exists t, T t /\ Keytab.read contents = Some (Ok (keytab_entries realm principal t ks))
            | Ok _ => False
            | Err s => (exists e, s = Return (CtlStart (DStore e))) \/ s = Return CtlFile \/ (s = Return (CtlNoKeys (fqn principal realm)) /\ ks = [])
            end.
Proof.
  intros Hconn HF [Hu [dn' Hf]] Hks Hok. pose proof (st_connected _ _ _ _ app Hconn) as Hst. revert r m'.
  change (ro T m (fun s => (exists e, s = Return (CtlStart (DStore e))) \/ s = Return CtlFile \/ (s = Return (CtlNoKeys (fqn principal realm)) /\ ks = []))
    (export_keytab_cmd connect_cluster write_file endpoint pid base_dn_str realm principal output_path)
    (fun done => match done with
                 | KeytabWritten path contents => path = output_path /\ write_file path contents = true /\
                     exists t, T t /\ Keytab.read contents = Some (Ok (keytab_entries realm principal t ks))
                 | _ => False
                 end)).
  unfold export_keytab_cmd, ctl_connect, ctl_start. cbn zeta. rewrite Hconn. cbn [map_err lift]. apply ro_ok. cbn [fst snd]. unfold ctl_store.
  assert (principal_at app F (fqn principal realm) dn e) as Hat by (split; [done|by exists dn']).
  eapply ro_eq; [eapply ro_map_err; [by apply (lookup_single T app Hst F m HF _ dn e)|intros x _; left; by exists x]|]. cbn iota. apply ro_ok.
  eapply ro_eq; [eapply ro_map_err; [by apply (get_single T app Hst F m HF (fqn principal realm) dn e)|intros x _; left; by exists x]|].
  cbn iota. unfold has_keys in Hks. rewrite Hks. destruct ks as [|k ks]; [apply ro_err; right; right; done|].
  apply ro_clock. intros t Ht. cbn zeta. destruct (write_file _ _) eqn:Hw; [|apply ro_err; by right; left].
  apply ro_ret. split; [done|]. split; [done|]. exists t. split; [done|]. by apply keytab_roundtrip, Hok.
Qed.

(** ** Examples *)

#[local] Existing Instance bit_codec.
#[local] Existing Instance bit_partitions.
#[local] Existing Instance hex_base64.
#[local] Existing Instance demo_ssl.
#[local] Existing Instance demo_ssl_laws.
#[local] Existing Instance PlainCodec.plain_codec.
#[local] Existing Instance PlainCodec.plain_enc_ticket_law.
#[local] Existing Instance PlainCodec.plain_as_rep_law.
#[local] Existing Instance PlainCodec.plain_tgs_rep_law.
#[local] Existing Instance plain_text.
#[local] Existing Instance packed_wire.
#[local] Existing Instance packed_client.
#[local] Existing Instance packed_laws.

Definition lab_base_str : rstring := str "dc=g10,dc=lo".
Definition lab_settings : domain_store lab_cluster (str "g10") lab_base_str (str "http://a:2379") = Ok (app_store lab_app, app_base_dn lab_app) :=
  ltac:(vm_compute; reflexivity).
Abbreviation lab_set_password principal password :=
  (set_password_cmd lab_cluster (Ok tt) (str "http://a:2379") (str "g10") lab_base_str (str "G10.LO") principal password).

(** Setting the password of a principal that the directory has an entry for,
    but not as a principal, replaces the entry: what else it said is lost. *)
Definition dave_dn : Dn := Eval vm_compute in dn_of (str "cn=dave,dc=g10,dc=lo").
Definition dave : Entry := Entry.set (Entry.set Entry.new (str "cn") [str "dave"]) (str "mail") [str "dave@g10.lo"].
Definition dave_store : kvstore := (exec zeros (Store.put_entry lab_st dave_dn dave Kdc.index_spec) ∅).2.

Lemma set_password_replaces_entry :
  let r := exec zeros (lab_set_password (str "dave") (str "davespassword")) dave_store in
  (exec zeros (Store.get_entry lab_st dave_dn) dave_store).1 = Ok (Some dave) /\
  r.1 = Ok (PasswordSet (str "dave@G10.LO") dave_dn) /\
  match (exec zeros (Store.get_entry lab_st dave_dn) r.2).1 with
  | Ok (Some e) => Entry.get e (str "mail") = None /\ Entry.get e ATTR_PRINCIPAL_NAME = Some [str "dave@G10.LO"]
  | _ => False
  end.
Proof. vm_compute. repeat split. Qed.

(** Two principals whose names differ in a dot and a slash have one entry. *)
Lemma dotted_names_collide :
  let r1 := exec zeros (lab_set_password (str "host/a") (str "first-password")) ∅ in
  let r2 := exec zeros (lab_set_password (str "host.a") (str "other-password")) r1.2 in
  is_ok r1.1 = true /\ is_ok r2.1 = true /\
  (exec zeros (Store.lookup_by_index lab_st lab_base ATTR_PRINCIPAL_NAME (str "host/a@G10.LO")) r2.2).1 = Ok [].
Proof. vm_compute. repeat split. Qed.

(** A new user, who then logs on. *)
Definition carol_store : kvstore := (exec zeros (lab_set_password (str "carol") (str "carolspassword")) lab_store).2.

Lemma carol_free : free lab_base_str lab_app lab_forest (fqn (str "carol") (str "G10.LO")) (dotted (str "carol")).
Proof.
  intros _ dn Hdn. assert (dn = dn_of (str "cn=carol,dc=g10,dc=lo")) as -> by (vm_compute in Hdn; injection Hdn as <-; vm_compute; reflexivity).
  split; [by apply (lab_dn_ok _ "cn=carol,dc=g10,dc=lo")|]. split; [vm_compute; reflexivity|]. vm_compute. by eexists.
Qed.

Lemma host_served : served_by lab_app lab_forest (str "G10.LO") (str "host/sim") Aes256CtsHmacSha384_192 host_dn host (keys_of host) (first_key host).
Proof. split; [by apply host_at|vm_compute; reflexivity..]. Qed.

Definition carol_logon : result KrbClientError Credential :=
  (exec zeros (logon (Ok tt) lab_app (str "kdc") (str "G10.LO") (str "carol") (str "carolspassword") (str "host/sim")) carol_store).1.


(** The two sides of a trust. *)
Definition peer_base_str : rstring := str "dc=peer,dc=lo".
Definition peer_app : AppState := Eval vm_compute in
  match domain_store lab_cluster (str "peer") peer_base_str (str "http://b:2379") with
  | Ok (st, base) => mkAppState st base (str "PEER.LO") None None
  | Err _ => lab_app
  end.
Definition peer_settings : domain_store lab_cluster (str "peer") peer_base_str (str "http://b:2379") = Ok (app_store peer_app, app_base_dn peer_app) :=
  ltac:(vm_compute; reflexivity).
Definition trust_name : rstring := str "krbtgt/PEER.LO@G10.LO".
Abbreviation lab_trust := (set_cross_realm_key_cmd lab_cluster (Ok tt) (str "http://a:2379") (str "g10") lab_base_str (str "peer.lo") (str "g10.lo")
  (Some (str "shared-secret"))).
Abbreviation peer_trust := (set_cross_realm_key_cmd lab_cluster (Ok tt) (str "http://b:2379") (str "peer") peer_base_str (str "peer.lo") (str "g10.lo")
  (Some (str "shared-secret"))).

Lemma lab_trust_free : free lab_base_str lab_app lab_forest trust_name (str "krbtgt.PEER.LO.G10.LO").
Proof.
  intros _ dn Hdn. assert (dn = dn_of (str "cn=krbtgt.PEER.LO.G10.LO,dc=g10,dc=lo")) as -> by (vm_compute in Hdn; injection Hdn as <-; vm_compute; reflexivity).
  split; [by apply (lab_dn_ok _ "cn=krbtgt.PEER.LO.G10.LO,dc=g10,dc=lo")|]. split; [vm_compute; reflexivity|]. vm_compute. by eexists.
Qed.

Lemma peer_trust_free : free peer_base_str peer_app ∅ trust_name (str "krbtgt.PEER.LO.G10.LO").
Proof.
  intros _ dn Hdn. assert (dn = dn_of (str "cn=krbtgt.PEER.LO.G10.LO,dc=peer,dc=lo")) as -> by (vm_compute in Hdn; injection Hdn as <-; vm_compute; reflexivity).
  split; [by apply (lab_dn_ok _ "cn=krbtgt.PEER.LO.G10.LO,dc=peer,dc=lo")|]. split; [vm_compute; reflexivity|]. vm_compute. by eexists.
Qed.

Lemma cross_realm_keys_agree_witness :
  exists ks dn e dn' e',
    principal_at lab_app (set_entry lab_st lab_forest dn e) trust_name dn e /\ has_keys e ks /\
    principal_at peer_app (set_entry (app_store peer_app) ∅ dn' e') trust_name dn' e' /\ has_keys e' ks.
Proof.
  destruct (cross_realm_keys_agree (str "peer.lo") (str "g10.lo") (str "shared-secret") ltac:(by_decide) ltac:(by_decide) ltac:(vm_compute; discriminate))
    as (ks & _ & _ & Hall). exists ks.
  pose proof (Hall (fun t => t = 0) lab_cluster (Ok tt) (str "http://a:2379") (str "g10") lab_base_str lab_app lab_forest lab_store _ _
    lab_settings lab_holds lab_trust_free (exec_runs_at (fun t => t = 0) zeros lab_trust lab_store eq_refl zeros_ok)) as H1.
  pose proof (Hall (fun t => t = 0) lab_cluster (Ok tt) (str "http://b:2379") (str "peer") peer_base_str peer_app ∅ ∅ _ _
    peer_settings (holds_empty _ _) peer_trust_free (exec_runs_at (fun t => t = 0) zeros peer_trust ∅ eq_refl zeros_ok)) as H2.
  destruct (exec zeros lab_trust lab_store).1 eqn:E1; [|vm_compute in E1; discriminate E1]. destruct H1 as (dn & e & Hat & Hk & _).
  destruct (exec zeros peer_trust ∅).1 eqn:E2; [|vm_compute in E2; discriminate E2]. destruct H2 as (dn' & e' & Hat' & Hk' & _).
  exists dn, e, dn', e'. split; [exact Hat|]. split; [exact Hk|]. split; [exact Hat'|exact Hk'].
Defined.
