(* ===== verification/JoinRun.v ===== *)
(** A computer joins the domain and logs on: the simulator of
    [crates/simulate/src/join.rs] against the RPC server of [crates/rpc] and the
    KDC of [crates/kdc], over one store. *)

From S2P Require Import Prelude Bytes Str Btree Utf8 Decimal Dn Partition Key Registry Entry Etcd Index Ridpool Store.
From S2P Require Import Directory Sid SecurityDescriptor Nfold Kerberos Md4 Password Principal BinaryAttrs Ndr Pdu Samr Netlogon RpcServer RpcClient.
From S2P Require Import Krb Pac Kdc KdcAs KdcTgs KdcServer KrbClient KrbLogon Daemons Join JoinSpec KdcCtl.

(** ** The RPC server behind the simulator's connections *)

Section rpc.
  Context `{EntryCodec} `{Base64} `{!OpenSsl, !Cfb8}.
  Context (T : Z -> Prop) (fuel : nat) (rapp : RpcServer.AppState).
  Implicit Types (iface : BoundInterface) (s : Session) (id op : Z) (stub out : bytes) (m : kvstore).

Definition rpc_accept (addr : rstring) : prog (option Conn) := Ret (Some conn_new).

(** The server reads what was written and answers; where it does not, the
    client reads the end of the stream. *)
Definition rpc_serve (c : Conn) (written : bytes) : prog (option (bytes * Conn)) :=
  match read_pdu written with
  | PduRead pdu _ =>
      prog_bind_ (fun o => Ret (Some (match o with Sent c' out => (out, c') | _ => ([], c) end))) (handle_pdu fuel rapp c pdu)
  | _ => Ret (Some ([], c))
  end.

Abbreviation client_at iface s id := (mkRpcClient (mkConn (Some (0, iface)) s) [] id).

Lemma handle_call_at c id iface op stub m o m' :
  in_u32 id -> call_ok (op, stub) -> bound c = Some (0, iface) ->
  runs_at T (handle_pdu fuel rapp c (call_pdu id op stub)) m o m' ->
  exists r, runs_at T (dispatch fuel rapp (netlogon_session c) iface op stub) m r m' /\
    o = match r with Some (res, s) => Sent (mkConn (bound c) s) (reply_pdu id res) | None => NoAnswer end.
Proof.
  intros Hid [Hop Hl] Hb. cbn [fst snd] in *. destruct (parse_build_request id 0 op stub) as [Hh Hr]; [done..|].
  unfold handle_pdu, call_pdu. rewrite Hh. cbn [ptype call_id]. change (PTYPE_REQUEST =? PTYPE_BIND) with false.
  change (PTYPE_REQUEST =? PTYPE_REQUEST) with true. cbn [andb]. rewrite Hr. unfold handle_request. rewrite Hb.
  cbn [req_ctx_id opnum stub_data]. change (0 =? 0) with true. cbn [andb]. rewrite runs_at_bind.
  intros (r & m1 & Hd & [-> ->]). exists r. split; [done|]. by destruct r as [[[]]|].
Qed.

Lemma read_reply id r : RpcServer.fits r -> client_read_pdu (reply_pdu id r) = Ok (reply_pdu id r, []).
Proof.
  intros Hf. destruct r as [out|e]; cbn [reply_pdu RpcServer.fits] in *.
  - unfold build_response. match goal with |- context [build_pdu ?t id ?b] => pose proof (client_read_pdu_build t id b []) as Hx end.
    rewrite app_nil_r in Hx. apply Hx. rewrite !zlen_app, !zlen_le_bytes. change (zlen [0; 0]) with 2. lia.
  - unfold build_fault. match goal with |- context [build_pdu ?t id ?b] => pose proof (client_read_pdu_build t id b []) as Hx end.
    rewrite app_nil_r in Hx. apply Hx. rewrite !zlen_app, !zlen_le_bytes. change (zlen [0; 0]) with 2. lia.
Qed.

(** A call gets what the dispatcher answers. *)
Lemma wpt_call (I : RpcClientError -> kvstore -> Prop) iface (s : Session) (id op : Z) (stub : bytes) (Q : bytes * RpcClient -> kvstore -> Prop) m :
  in_u32 id -> call_ok (op, stub) ->
  (forall (r : option (result CallError bytes * Session)) m', runs_at T (dispatch fuel rapp s iface op stub) m r m' ->
    match r with
    | Some (Ok out, s') => 24 + zlen out < 2 ^ 16 /\ Q (out, client_at iface s' (id + 1)) m'
    | Some (Err e, _) => I (Fault (fault_of e)) m'
    | None => I ConnectionClosed m'
    end) ->
  wpt T I (rpc_call rpc_serve (client_at iface s id) op stub) Q m.
Proof.
  intros Hid Hc Hd r m'. unfold rpc_call, rpc_roundtrip, rpc_serve. cbn [rc_stream rc_pending rc_call_id app].
  assert (read_pdu (call_pdu id op stub) = PduRead (call_pdu id op stub) []) as ->.
  { pose proof (read_pdu_build PTYPE_REQUEST id (le_bytes 4 (as_u32 (zlen stub)) ++ le_bytes 2 0 ++ le_bytes 2 op ++ stub) []) as Hr.
    rewrite app_nil_r in Hr. apply Hr. rewrite !zlen_app, !zlen_le_bytes. destruct Hc as [_ Hc]. cbn [snd] in Hc. lia. }
  intros (x & m1 & Hx & Hr)%runs_at_bind. apply runs_at_bind in Hx as (y & m2 & Hy & -> & ->).
  apply runs_at_bind in Hy as (o & m3 & Ho & -> & ->).
  apply (handle_call_at _ id iface op stub) in Ho as (d & Hrun & ->); [|done..]. cbn [netlogon_session bound] in Hrun. specialize (Hd d _ Hrun).
  destruct d as [[res s']|].
  - assert (RpcServer.fits res) as Hf by (destruct res; [apply Hd|done]). rewrite read_reply in Hr by done.
    cbn [mbind result_bind fst snd] in Hr. rewrite call_result_reply in Hr by done.
    destruct res as [out|e]; cbn in Hr; destruct Hr as [-> ->]; [apply Hd|exact Hd].
  - cbn in Hr. destruct Hr as [-> ->]. exact Hd.
Qed.

Lemma wpt_connect (I : RpcClientError -> kvstore -> Prop) addr syntax iface m :
  interface_of syntax = Some iface ->
  wpt T I (rpc_connect rpc_accept rpc_serve addr syntax) (fun c m' => m' = m /\ c = client_at iface session_default 2) m.
Proof.
  intros Hi r m'. unfold rpc_connect, rpc_accept. cbn [prog_bind_]. unfold rpc_roundtrip, rpc_serve.
  assert (read_pdu (connect_pdu syntax) = PduRead (connect_pdu syntax) []) as ->.
  { pose proof (read_pdu_build PTYPE_BIND 1 (zdrop 16 (connect_pdu syntax)) []) as Hr. rewrite app_nil_r in Hr.
    assert (build_pdu PTYPE_BIND 1 (zdrop 16 (connect_pdu syntax)) = connect_pdu syntax) as Heq;
      [|rewrite Heq in Hr; apply Hr];
      unfold interface_of in Hi; repeat (case_bool_decide; [subst syntax; vm_compute; done|]); done. }
  intros (x & m1 & Hx & Hr)%runs_at_bind. apply runs_at_bind in Hx as (y & m2 & Hy & -> & ->).
  apply runs_at_bind in Hy as (o & m3 & Ho & -> & ->).
  apply runs_at_runs, (handle_bind _ _ _ _ _ _ _ _ Hi) in Ho as [-> ->]. cbn [netlogon_session conn_new app] in Hr.
  assert (client_read_pdu (build_bind_ack 1 4280 1 [accept]) = Ok (build_bind_ack 1 4280 1 [accept], [])) as Hread by (vm_compute; reflexivity).
  rewrite Hread in Hr. cbn [mbind result_bind fst snd] in Hr. rewrite ack_accepted in Hr. cbn in Hr. by destruct Hr as [-> ->].
Qed.

(** Calls with a fixed answer. *)
Section fixed.
  Context (J : stop (JoinError json_error) -> kvstore -> Prop).

Lemma wpt_fixed_call iface s id op stub out m :
  in_u32 id -> call_ok (op, stub) -> dispatch fuel rapp s iface op stub = Ret (Some (Ok out, s)) -> 24 + zlen out < 2 ^ 16 ->
  wpt T J (returning JRpc (rpc_call rpc_serve (client_at iface s id) op stub))
    (fun r m' => m' = m /\ r = (out, client_at iface s (id + 1))) m.
Proof.
  intros Hid Hc Hd Hl. apply (wpt_map_err T (fun _ _ => False)); [|done]. apply wpt_call; [done..|].
  rewrite Hd. intros r m' [-> ->]. done.
Qed.

Lemma wpt_fixed_read {A : Type} iface s id op stub out (f : bytes -> result RpcClientError A) (a : A) m :
  in_u32 id -> call_ok (op, stub) -> dispatch fuel rapp s iface op stub = Ret (Some (Ok out, s)) -> 24 + zlen out < 2 ^ 16 -> f out = Ok a ->
  wpt T J (rpc_read rpc_serve (client_at iface s id) op stub f) (fun r m' => m' = m /\ r = (a, client_at iface s (id + 1))) m.
Proof.
  intros Hid Hc Hd Hl Hf. unfold rpc_read. eapply wpt_try; [by apply wpt_fixed_call|]. intros ? ? [-> ->]. cbn [fst snd].
  rewrite Hf. apply wpt_ok. by apply wpt_ret.
Qed.

Lemma wpt_fixed_handle iface s id op stub out h m :
  in_u32 id -> call_ok (op, stub) -> dispatch fuel rapp s iface op stub = Ret (Some (Ok out, s)) -> 24 + zlen out < 2 ^ 16 ->
  open_domain_result out = Some h ->
  wpt T J (rpc_handle rpc_serve (client_at iface s id) op stub) (fun r m' => m' = m /\ r = (h, client_at iface s (id + 1))) m.
Proof.
  intros Hid Hc Hd Hl Hf. unfold rpc_handle. eapply wpt_try; [by apply wpt_fixed_call|]. intros ? ? [-> ->]. cbn [fst snd].
  rewrite Hf. by apply wpt_ret.
Qed.
End fixed.
End rpc.

(** ** Joining *)

Section join.
  Context `{!WireCodec, !ClientCodec, !WireLaws} `{EntryCodec} `{Base64} `{!OpenSsl, !OpenSslLaws, !Cfb8, !Cfb8Laws} `{!KrbCodec} `{!ErrorText}.
  Context `{!DerLaw EncTicketPart, !DerLaw EncAsRepPart, !DerLaw EncTgsRepPart, !DerLaw ApReq}.
  Context `{!DerLaw PaEncTsEnc, !DerLaw EncryptedData, !DerLaw Authenticator, !DerLaw (list PaData), !DerLaw (list EtypeInfo2Entry)}.
  Context `{!DerTotal PaEncTsEnc, !DerTotal EncryptedData, !DerTotal Authenticator, !DerTotal ApReq, !DerTotal (list PaData),
    !DerTotal (list EtypeInfo2Entry), !DerLaw (list AuthorizationDataValue)}.
(** The domain: one store, the RPC server, the KDC. *)
  Context (T : Z -> Prop) (fuel : nat) (fresh_fips : result Error unit) (st : Store) (Hst : connected st) (base : Dn)
    (info : DomainInfo) (topology : option PartitionRegistry) (own : option PartitionId) (Hclocks : clocks_agree T).

Definition rpcd : RpcServer.AppState :=
  RpcServer.mkAppState info (mkSamrState st base rpcd_spec) (mkNetlogonState st base).
Definition kdcd (realm : rstring) : AppState := mkAppState st base realm topology own.

(** What the messages of a join for [computer] need: names that can be written,
    and messages that fit in a PDU. *)
Record join_fits (computer : rstring) : Prop := {
  jf_netbios : name_ok (netbios_name info);
  jf_dns : name_ok (dns_domain_name info);
  jf_forest : name_ok (dns_forest_name info) /\ dns_forest_name info <> [];
  jf_sid : sid_wire (Samr.domain_sid info) /\ zlen (sub_authorities (Samr.domain_sid info)) <= 254;
  jf_computer : name_ok computer /\ computer <> [] /\ wide_ok computer /\ trim_end_nul computer = computer;
  jf_policy : 24 + zlen (policy_response info) < 2 ^ 16;
  jf_domain : 24 + zlen (lookup_domain_in_sam_server (Samr.domain_sid info)) < 2 ^ 16;
  jf_lookup : 24 + zlen (lookup_domain_stub SERVER_HANDLE (netbios_name info)) < 2 ^ 16;
  jf_open : 24 + zlen (open_domain_stub SERVER_HANDLE (Samr.domain_sid info)) < 2 ^ 16;
  jf_create : 24 + zlen (create_user2_stub DOMAIN_HANDLE computer) < 2 ^ 16;
  jf_challenge : 24 + zlen (req_challenge_stub computer [1; 2; 3; 4; 5; 6; 7; 8]) < 2 ^ 16;
  jf_authenticate : 24 + zlen (auth_stub computer computer (replicate 8 0) NETLOGON_NEG_SUPPORTS_AES) < 2 ^ 16;
}.

Lemma join_lsarpc_runs J config computer m :
  join_fits computer ->
  wpt T J (join_lsarpc rpc_accept (rpc_serve fuel rpcd) config)
    (fun i m' => m' = m /\ i = mkDnsDomainInfo (netbios_name info) (dns_domain_name info) (Samr.domain_sid info)) m.
Proof.
  intros Hf. unfold join_lsarpc. eapply wpt_try; [by eapply (wpt_map_err T (fun _ _ => False)); [apply wpt_connect|]|].
  intros ? ? [-> ->]. eapply wpt_try; [by apply (wpt_fixed_handle _ _ _ _ _ _ _ _ _ open_policy2 POLICY_HANDLE)|]. intros ? ? [-> ->]. cbn [fst snd].
  eapply wpt_try; [apply (wpt_fixed_read _ _ _ _ _ _ _ _ _ (policy_response info)); [done|done|done|apply Hf|by apply policy_result_reads; apply Hf]|].
  intros ? ? [-> ->]. cbn [fst snd]. eapply wpt_try; [by apply (wpt_fixed_call _ _ _ _ _ _ _ _ _ lsa_close)|].
  intros ? ? [-> ->]. by apply wpt_ret.
Qed.

(** *** The account

    A computer whose name is new, in the partition of the domain; [n] is the
    next RID. *)
  Context (F : forest) (m : kvstore) (HF : holds st Kdc.index_spec F m).
  Context (config : SimConfig) (computer : rstring) (password : bytes) (dn : Dn) (p : Partition) (n : Z)
    (Hfits : join_fits computer) (Hbase : Registry.resolve (registry st) base = Some p) (Hp : Registry.resolve (registry st) dn = Some p)
    (Hdn : account_dn (mkSamrState st base rpcd_spec) computer = Ok dn) (Hok : dn_ok dn) (Hnew : find_entry st F dn = None)
    (Hpool : pool_of st dn m = Some n).

Definition created : Entry := computer_entry (Samr.domain_sid info) computer n.
Definition nt : bytes := Md4.ntowf (default [] (utf8_decode password)).

(** The account with its secrets. *)
Definition equipped (e : Entry) : Prop :=
  exists random, zlen random = MIN_SALT_LEN /\ bytes_ok random /\
    set_password (Some random) (Entry.set created NTOWF_ATTR [to_hex nt]) (fqn computer (sim_realm config)) password = Ok e.

(** How far a join that fails may have come. *)
Definition joining (m' : kvstore) : Prop :=
  holds st Kdc.index_spec F m' \/ holds st Kdc.index_spec (set_entry st F dn created) m' \/
  exists e, equipped e /\ holds st Kdc.index_spec (set_entry st F dn e) m'.

(** Why a join fails: a store or a generator of random bytes. *)
Definition join_unserved (s : stop (JoinError json_error)) : Prop :=
  s = Return (JRpc ConnectionClosed) \/ s = Return (JRpc (Status STATUS_INTERNAL_DB_ERROR)) \/ s = Return (JRpc (Status STATUS_ACCESS_DENIED)) \/
  s = Return (JPrincipal (CryptoErr Ossl)) \/ login_unserved s.

Definition join_failed (s : stop (JoinError json_error)) (m' : kvstore) : Prop := join_unserved s /\ joining m'.

Lemma created_str_ok : str_ok computer.
Proof. apply Hfits. Qed.

Lemma created_wf : entry_wf created.
Proof. apply computer_entry_wf; [apply Hfits|apply Hfits]. Qed.

Lemma next_rid_u32 : in_u32 n.
Proof. revert Hpool. unfold pool_of. rewrite Hp. apply pool_value_u32. Qed.

(** The server indexes fewer attributes, but a new account has no others. *)
Lemma created_keys pid : index_keys_for pid dn created rpcd_spec = index_keys_for pid dn created Kdc.index_spec.
Proof.
  assert (forall a, Entry.get created a = if eq_ignore_ascii_case NT_SECURITY_DESCRIPTOR_ATTR a then
      Some [encode_binary_attr (default_descriptor (Samr.domain_sid info))]
    else if eq_ignore_ascii_case OBJECT_SID_ATTR a then Some [encode_binary_attr (Sid.encode (with_sub_authority (Samr.domain_sid info) n))]
    else if eq_ignore_ascii_case (str "cn") a then Some [computer]
    else if eq_ignore_ascii_case (str "objectclass") a then Some [str "top"; str "computer"] else None) as Hg.
  { intros a. unfold created, computer_entry. by rewrite !get_set. }
  unfold index_keys_for, rpcd_spec, Kdc.index_spec, IndexSpec_new. cbn [List.map concat]. rewrite !Hg. done.
Qed.

Lemma create_same : Store.create_entry st dn created rpcd_spec = Store.create_entry st dn created Kdc.index_spec.
Proof.
  unfold Store.create_entry. destruct (Directory.owner st Hst dn p Hp) as (_ & _ & Hin).
  rewrite !(in_partition_connected _ _ _ p) by done. unfold create_entry_indexed. by rewrite created_keys.
Qed.

(** Creating the account. *)
Lemma create_dispatch s r m' :
  runs_at T (dispatch fuel rpcd s SamrIf OPNUM_CREATE_USER2_IN_DOMAIN (create_user2_stub DOMAIN_HANDLE computer)) m r m' ->
  match r with
  | Some (Ok out, s') => s' = s /\ exists rid status, in_u32 rid /\ out = create_user2_response rid status /\
      ((status = STATUS_SUCCESS /\ rid = n /\ holds st Kdc.index_spec (set_entry st F dn created) m') \/
       (status = STATUS_INTERNAL_DB_ERROR /\ (holds st Kdc.index_spec F m' \/ holds st Kdc.index_spec (set_entry st F dn created) m')))
  | Some (Err _, _) => False
  | None => holds st Kdc.index_spec F m'
  end.
Proof.
  intros Hr%runs_at_runs. change (dispatch fuel rpcd s SamrIf OPNUM_CREATE_USER2_IN_DOMAIN (create_user2_stub DOMAIN_HANDLE computer)) with
    (prog_bind_ (fun r => Ret ((fun r => (r, s)) <$> r)) (prog_bind_ (fun r => Ret (ok_or Malformed <$> r))
      (create_user2_in_domain fuel (mkSamrState st base rpcd_spec) (Samr.domain_sid info) (create_user2_stub DOMAIN_HANDLE computer)))) in Hr.
  apply runs_bind in Hr as (x & m1 & Hr & -> & ->). apply runs_bind in Hr as (y & m2 & Hr & -> & ->).
  unfold create_user2_in_domain in Hr. rewrite (create_stub_reads DOMAIN_HANDLE computer) in Hr by (apply Hfits || done). rewrite Hdn in Hr.
  cbn [samr_store Samr.index_spec] in Hr. fold created in Hr. apply runs_bind in Hr as (a & m3 & Ha & Hr).
  apply (allocate_rid_holds st Hst Kdc.index_spec F) with (n := n) in Ha as [HF1 Hrid]; [|done..].
  destruct a as [[rid|]|er].
  - rewrite (Hrid rid eq_refl) in *. fold created in Hr. rewrite create_same in Hr. apply runs_bind in Hr as (c & m4 & Hc & -> & ->).
    apply (create_entry_runs st Hst Kdc.index_spec F) in Hc as [Hb Ho]; [|done|done|apply created_wf].
    rewrite bool_decide_true in Hb, Ho by done. cbn [fmap option_fmap option_map ok_or]. split; [done|].
    destruct c as [[]|er]; cbn [outcome] in Ho.
    + exists n, STATUS_SUCCESS. split; [apply next_rid_u32|]. split; [done|]. by left.
    + by specialize (Hb false eq_refl).
    + exists 0, STATUS_INTERNAL_DB_ERROR. split; [done|]. split; [done|]. by right.
  - by destruct Hr as [-> ->].
  - destruct Hr as [-> ->]. cbn [fmap option_fmap option_map ok_or]. split; [done|].
    exists 0, STATUS_INTERNAL_DB_ERROR. split; [done|]. split; [done|]. right. auto.
Qed.

Lemma create_response_len rid status : zlen (create_user2_response rid status) = 32.
Proof.
  unfold create_user2_response, w_u32, w_handle, w_bytes, w_new. cbn [buf app]. rewrite !zlen_app, !zlen_le_bytes. by destruct (status =? STATUS_SUCCESS).
Qed.

Lemma create_read s id :
  in_u32 id ->
  wpt T join_failed (rpc_read (rpc_serve fuel rpcd) (mkRpcClient (mkConn (Some (0, SamrIf)) s) [] id) OPNUM_CREATE_USER2_IN_DOMAIN
      (create_user2_stub DOMAIN_HANDLE computer) create_user2_result)
    (fun r m' => r = (user_handle n, n, mkRpcClient (mkConn (Some (0, SamrIf)) s) [] (id + 1)) /\
       holds st Kdc.index_spec (set_entry st F dn created) m') m.
Proof.
  intros Hid. unfold rpc_read. eapply wpt_try.
  - eapply (wpt_map_err T (fun e m' => e = ConnectionClosed /\ joining m')); [|intros e m' [-> Hj]; split; [by left|done]].
    apply (wpt_call T fuel rpcd _ SamrIf s id _ _ (fun r m' => r.2 = mkRpcClient (mkConn (Some (0, SamrIf)) s) [] (id + 1) /\
      exists rid status, in_u32 rid /\ r.1 = create_user2_response rid status /\
      ((status = STATUS_SUCCESS /\ rid = n /\ holds st Kdc.index_spec (set_entry st F dn created) m') \/
       (status = STATUS_INTERNAL_DB_ERROR /\ (holds st Kdc.index_spec F m' \/ holds st Kdc.index_spec (set_entry st F dn created) m')))));
      [done|split; [done|apply Hfits]|].
    intros r m' Hr%create_dispatch. destruct r as [[[out|e] s']|]; [|done|split; [done|by left]].
    destruct Hr as [-> (rid & status & Hu & -> & Hr)]. split; [by rewrite create_response_len|]. split; [done|]. by exists rid, status.
  - intros [out c] m1 [Hc (rid & status & Hu & Ho & Hr)]. cbn [fst snd] in *. subst. destruct Hr as [(-> & -> & HF1)|[-> Hj]].
    + rewrite create_result_reads by done. apply wpt_ok. by apply wpt_ret.
    + rewrite create_result_reads by done. change (STATUS_INTERNAL_DB_ERROR =? STATUS_SUCCESS) with false. cbn iota.
      eapply (wpt_try _ _ _ _ (fun _ _ => False)); [|done]. apply wpt_err. split; [by right; left|]. destruct Hj; [by left|by right; left].
Qed.

Lemma join_samr_runs :
  wpt T join_failed (join_samr rpc_accept (rpc_serve fuel rpcd) config (netbios_name info) computer)
    (fun r m' => r = (Samr.domain_sid info, n) /\ holds st Kdc.index_spec (set_entry st F dn created) m') m.
Proof.
  unfold join_samr. eapply wpt_try; [by eapply (wpt_map_err T (fun _ _ => False)); [apply wpt_connect|]|].
  intros ? ? [-> ->]. eapply wpt_try; [by apply (wpt_fixed_read _ _ _ _ _ _ _ _ _ connect5 _ SERVER_HANDLE)|]. intros ? ? [-> ->]. cbn [fst snd].
  eapply wpt_try; [apply (wpt_fixed_read _ _ _ _ _ _ _ _ _ (lookup_domain_in_sam_server (Samr.domain_sid info)));
    [done|split; [done|apply Hfits]|done|apply Hfits|apply lookup_domain_reads, Hfits]|].
  intros ? ? [-> ->]. cbn [fst snd].
  eapply wpt_try; [apply (wpt_fixed_handle _ _ _ _ _ _ _ _ _ open_domain DOMAIN_HANDLE); [done|split; [done|apply Hfits]|done..]|].
  intros ? ? [-> ->]. cbn [fst snd]. eapply wpt_try; [by apply create_read|]. intros ? m1 [-> HF1]. cbn [fst snd].
  do 3 (eapply wpt_try; [by apply (wpt_fixed_call _ _ _ _ _ _ _ _ _ close_handle)|]; intros ? ? [-> ->]; cbn [fst snd]).
  by apply wpt_ret.
Qed.

(** *** The secrets *)

  Context (endpoint : option rstring) (connect_cluster : ClusterRef -> result (StoreError json_error) unit)
    (Hsim : connect_store endpoint connect_cluster config = Ret (Ok st)) (Hsbase : Dn.parse (sim_base_dn config) = Ok base)
    (Hsdn : Dn.parse (str "cn=" ++ computer ++ str "," ++ sim_base_dn config) = Ok dn)
    (Hpassword : 8 <= zlen password) (Hname : str_ok (fqn computer (sim_realm config))).

Lemma nt_len : zlen nt = 16.
Proof. unfold nt, Md4.ntowf, md4. by rewrite !zlen_app, !zlen_le_bytes. Qed.

Lemma nt_ok : bytes_ok nt.
Proof. unfold nt, Md4.ntowf, md4, bytes_ok. rewrite !Forall_app. repeat split; apply le_bytes_ok. Qed.

Lemma secret_wf : entry_wf (Entry.set created NTOWF_ATTR [to_hex nt]).
Proof.
  apply entry_set_wf; [apply created_wf|apply str_ok_str|]. apply Forall_singleton.
  eapply Forall_impl; [apply to_hex_ascii, nt_ok|]. intros c Hc. left. simpl in Hc. lia.
Qed.

Lemma equipped_wf e : equipped e -> entry_wf e.
Proof. intros (random & Hl & Hb & He). eapply set_password_wf; [exact Hl|exact Hb|exact Hname|apply secret_wf|exact He]. Qed.

Lemma password_runs m1 :
  holds st Kdc.index_spec (set_entry st F dn created) m1 ->
  wpt T join_failed (sim_set_password (Entry.set created NTOWF_ATTR [to_hex nt]) (fqn computer (sim_realm config)) password)
    (fun e m' => m' = m1 /\ equipped e) m1.
Proof.
  intros HF1. unfold sim_set_password. eapply (wpt_map_err T (fun e m' => e = CryptoErr Ossl /\ m' = m1)).
  - intros r m' (rep & m2 & (-> & Hrep) & _ & -> & ->). destruct Hrep as [->|(random & -> & Hl & Hb)]; [done|].
    assert (zlen random = MIN_SALT_LEN) as Hz by (unfold zlen; by rewrite Hl).
    destruct (set_password_first random (Entry.set created NTOWF_ATTR [to_hex nt]) (fqn computer (sim_realm config)) password Hz Hb Hpassword)
      as (e & k1 & k2 & He & _). rewrite He. split; [done|]. by exists random.
  - intros e m' [-> ->]. split; [by right; right; right; left|by right; left].
Qed.

Lemma join_secrets_runs m1 :
  holds st Kdc.index_spec (set_entry st F dn created) m1 ->
  wpt T join_failed (join_secrets endpoint connect_cluster config computer nt password)
    (fun _ m' => exists e, equipped e /\ holds st Kdc.index_spec (set_entry st F dn e) m') m1.
Proof.
  intros HF1. assert (forall e m', joining m' -> join_failed (Return (JStore e)) m') as Hstore.
  { intros e m' Hj. split; [|done]. right; right; right; right; right; left. by exists e. }
  unfold join_secrets. rewrite Hsim. apply wpt_ok. rewrite Hsbase. apply wpt_ok. rewrite Hsdn. apply wpt_ok.
  eapply (wpt_try _ _ _ _ (fun o m' => m' = m1 /\ o = Some created)).
  { eapply (wpt_map_err T (fun _ m' => m' = m1)); [|intros e m' ->; apply Hstore; by right; left].
    intros r m' Hr%runs_at_runs. apply (get_entry_runs st Hst Kdc.index_spec _ _ _ _ _ HF1) in Hr as [-> [->|[e ->]]]; [|done].
    by rewrite (find_entry_new st F dn p Hp). }
  intros ? ? [-> ->]. cbn iota zeta. eapply wpt_try; [by apply password_runs|]. intros e ? [-> He].
  eapply (wpt_map_err T (fun _ m' => joining m')); [|intros x m' Hj; by apply Hstore].
  intros r m' Hr%runs_at_runs. apply (put_entry_runs st Hst Kdc.index_spec (set_entry st F dn created)) in Hr; [|done|done|by apply equipped_wf|].
  - rewrite (set_entry_twice st F dn p Hp) in Hr. destruct r as [[]|x]; cbn [outcome] in Hr; [eauto|].
    destruct Hr as [Hr|Hr]; [by right; left|right; right; eauto].
  - intros d' e' Hf. rewrite (find_entry_new st F dn p Hp) in Hf. by injection Hf.
Qed.

(** *** The secure channel *)

(** No other entry has the name of the computer or of its principal. *)
  Context (Hcn : forall d, ~ indexed_dn st F base (str "cn") computer d)
    (Hpn : forall d, ~ indexed_dn st F base ATTR_PRINCIPAL_NAME (fqn computer (sim_realm config)) d).

Lemma equipped_facts e :
  equipped e -> exists random k1 k2, bytes_ok random /\
    has_keys e [mkPrincipalKey Aes256CtsHmacSha384_192 1 k1; mkPrincipalKey Aes256CtsHmacSha1_96 1 k2] /\
    Principal.salt e = Ok (to_hex random) /\ string_to_key Aes256CtsHmacSha384_192 password (to_hex random) None = Ok k1 /\
    keys_wf [mkPrincipalKey Aes256CtsHmacSha384_192 1 k1; mkPrincipalKey Aes256CtsHmacSha1_96 1 k2] /\
    Entry.get e ATTR_PRINCIPAL_NAME = Some [fqn computer (sim_realm config)] /\
    Entry.get e NTOWF_ATTR = Some [to_hex nt] /\ Entry.get e (str "cn") = Some [computer].
Proof.
  intros (random & Hl & Hb & He).
  destruct (set_password_first random (Entry.set created NTOWF_ATTR [to_hex nt]) (fqn computer (sim_realm config)) password Hl Hb Hpassword)
    as (e' & k1 & k2 & He' & Hk & Hs & Hd & Hw).
  destruct (set_password_keys random (Entry.set created NTOWF_ATTR [to_hex nt]) (fqn computer (sim_realm config)) password Hl Hb Hpassword)
    as (e'' & He'' & Hn & _ & _ & _ & Hother).
  rewrite He in He', He''. injection He' as <-. injection He'' as <-. exists random, k1, k2.
  rewrite (Hother NTOWF_ATTR), (Hother (str "cn")) by done. do 6 (split; [done|]). rewrite get_set. split; [done|].
  unfold created, computer_entry. by rewrite !get_set.
Qed.

  Abbreviation realm := (sim_realm config).
  Abbreviation service := (sim_service_principal config).

Section equipped.
  Context (e : Entry) (He : equipped e) (m2 : kvstore) (HF2 : holds st Kdc.index_spec (set_entry st F dn e) m2).

Lemma computer_found d : indexed_dn st (set_entry st F dn e) base (str "cn") computer d <-> d = dn.
Proof.
  rewrite (indexed_new st F dn p Hp e base _ _ _ Hnew Hbase). destruct (equipped_facts e He) as (random & k1 & k2 & _ & _ & _ & _ & _ & _ & _ & ->).
  split; [intros [[-> _]|Hi]; [done|by destruct (Hcn d)]|]. intros ->. left. split; [done|]. by left.
Qed.

Lemma authenticate_served cc sc cred x :
  secret_proof e cc sc cred x ->
  forall r m', runs_at T (authenticate (mkNetlogonState st base) (Some (cc, sc)) computer cred NETLOGON_NEG_SUPPORTS_AES) m2 r m' ->
  m' = m2 /\ (r = Some (Ok x) \/ exists deny, r = Some (Err deny)).
Proof.
  intros Hx r m' Hr%runs_at_runs. unfold authenticate in Hr. change (Z.land NETLOGON_NEG_SUPPORTS_AES NETLOGON_NEG_SUPPORTS_AES =? 0) with false in Hr.
  apply runs_bind in Hr as (dns & m1 & Hl & Hr). apply (lookup_runs st Hst Kdc.index_spec _ _ _ _ _ _ _ HF2) in Hl as [-> Hl]; [|by_decide].
  destruct Hl as [[er ->]|(l & -> & Hnd & Hl)]; [destruct Hr as [-> ->]; eauto|].
  destruct l as [|d1 [|d2 l]]; [destruct Hr as [-> ->]; eauto| |destruct Hr as [-> ->]; eauto].
  assert (d1 = dn) as -> by (apply computer_found, Hl; by left). apply runs_bind in Hr as (found & m3 & Hg & Hr).
  apply (get_entry_runs st Hst Kdc.index_spec _ _ _ _ _ HF2) in Hg as [-> [->|[er ->]]]; [|destruct Hr as [-> ->]; eauto].
  rewrite (find_entry_new st F dn p Hp) in Hr. cbn [fmap option_fmap option_map snd] in Hr. destruct Hr as [-> ->].
  split; [done|]. left. by apply verify_secret_spec.
Qed.

Lemma still_joining : joining m2.
Proof. right; right. by exists e. Qed.

Lemma auth_stub_len cred : zlen cred = 8 ->
  zlen (auth_stub computer computer cred NETLOGON_NEG_SUPPORTS_AES) = zlen (auth_stub computer computer (replicate 8 0) NETLOGON_NEG_SUPPORTS_AES).
Proof.
  intros Hc. unfold auth_stub. cbn zeta. set (w := w_embedded_wstr computer _). unfold w_u32, w_bytes. cbn [buf].
  rewrite !zlen_app, !zlen_le_bytes, Hc. done.
Qed.

Lemma denied_result cc sc flags deny : zlen cc = 8 ->
  authenticate3_result nt cc sc (authenticate_response flags (Err deny)) = Err (Status STATUS_ACCESS_DENIED).
Proof.
  intros Hcc. unfold authenticate3_result. destruct (session_key_total nt cc sc) as (k & -> & _). cbn [map_err mbind result_bind].
  unfold client_read, authenticate_response. by rewrite auth_response_reads.
Qed.

Lemma challenge_read (cc sc : bytes) :
  sc = server_challenge_of cc -> zlen cc = 8 -> 24 + zlen (req_challenge_stub computer cc) < 2 ^ 16 ->
  wpt T join_failed (rpc_read (rpc_serve fuel rpcd) (mkRpcClient (mkConn (Some (0, NetlogonIf)) session_default) [] 2)
      OPNUM_SERVER_REQ_CHALLENGE (req_challenge_stub computer cc) req_challenge_result)
    (fun r m' => m' = m2 /\ r = (sc, mkRpcClient (mkConn (Some (0, NetlogonIf)) (Some (cc, sc))) [] 3)) m2.
Proof.
  intros -> Hcc Hfit. assert (zlen (server_challenge_of cc) = 8) as Hsc by (by rewrite server_challenge_len).
  unfold rpc_read. eapply (wpt_try _ _ _ _ (fun r m' => m' = m2 /\
    r = (buf (w_u32 0 (w_bytes (server_challenge_of cc) w_new)), mkRpcClient (mkConn (Some (0, NetlogonIf)) (Some (cc, server_challenge_of cc))) [] 3))).
  - eapply (wpt_map_err T (fun _ _ => False)); [|done]. apply wpt_call; [done|done|]. intros r m'.
    unfold dispatch, netlogon_dispatch. cbn [app_netlogon rpcd Z.eqb OPNUM_SERVER_REQ_CHALLENGE Pos.eqb].
    unfold server_req_challenge. rewrite req_challenge_reads by (apply Hfits || done). intros [-> ->].
    split; [|done]. change (buf (w_u32 0 (w_bytes ?x w_new))) with (x ++ le_bytes 4 0). rewrite zlen_app, zlen_le_bytes, Hsc. done.
  - intros ? ? [-> ->]. cbn [fst snd]. rewrite challenge_response_reads by done. apply wpt_ok. by apply wpt_ret.
Qed.

Lemma join_netlogon_runs :
  wpt T join_failed (join_netlogon rpc_accept (rpc_serve fuel rpcd) config computer nt) (fun _ m' => m' = m2) m2.
Proof.
  unfold join_netlogon. eapply wpt_try; [by eapply (wpt_map_err T (fun _ _ => False)); [apply wpt_connect|]|]. intros ? ? [-> ->]. cbn zeta.
  set (cc := [1; 2; 3; 4; 5; 6; 7; 8]). set (sc := server_challenge_of cc). assert (zlen cc = 8) as Hcc by done. assert (zlen sc = 8) as Hsc by done.
  eapply wpt_try; [by apply (challenge_read cc sc); [..|apply Hfits]|]. intros ? ? [-> ->]. cbn [fst snd].
  destruct (authenticate3_stub_ok computer computer nt cc sc Hcc) as (k & cred & Hk & Hkl & Hcr & Hcl & ->). apply wpt_ok.
  destruct (credential_total k sc Hkl Hsc) as (x & Hx & Hxl).
  assert (secret_proof e cc sc cred x) as Hproof.
  { destruct (equipped_facts e He) as (random & k1 & k2 & _ & _ & _ & _ & _ & _ & Hn & _). exists (to_hex nt), nt, k. rewrite Hn.
    split; [done|]. split; [apply from_hex_to_hex, nt_ok|]. split; [apply nt_len|done]. }
  eapply (wpt_try _ _ _ _ (fun _ m' => m' = m2)); [|intros ? ? ->; by apply wpt_ret]. unfold rpc_read.
  eapply (wpt_try _ _ _ _ (fun r m' => m' = m2 /\ exists a, r.1 = authenticate_response NETLOGON_NEG_SUPPORTS_AES a /\ (a = Ok x \/ exists d, a = Err d))).
  - eapply (wpt_map_err T (fun _ _ => False)); [|done]. apply wpt_call; [done|split; [done|cbn [snd]; rewrite auth_stub_len by done; apply Hfits]|].
    intros r m' (y & m3 & Hy & -> & ->)%runs_at_bind. unfold server_authenticate3 in Hy. rewrite auth_stub_reads in Hy by (apply Hfits || done).
    apply runs_at_bind in Hy as (a & m4 & Ha & -> & ->). rewrite (proj2 (proj2 (proj2 (jf_computer _ Hfits)))) in Ha.
    apply (authenticate_served cc sc cred x Hproof) in Ha as [-> Ha].
    destruct Ha as [->|[d ->]]; cbn [fmap option_fmap option_map ok_or]; (split; [|split; [done|]; eexists; split; [done|]; eauto]).
    + unfold authenticate_response, w_u32, w_bytes. cbn [buf w_new app]. rewrite !zlen_app, !zlen_le_bytes, Hxl. done.
    + done.
  - intros [out c] ? [-> (a & -> & [->|[d ->]])]; cbn [fst snd].
    + rewrite (authenticate3_result_ok nt cc sc k x) by done. apply wpt_ok. by apply wpt_ret.
    + rewrite denied_result by done. eapply (wpt_try _ _ _ _ (fun _ _ => False)); [|done]. apply wpt_err.
      split; [by right; right; left|apply still_joining].
Qed.

(** *** The logon *)

Lemma principal_kept name d x : principal_at (kdcd realm) F name d x -> principal_at (kdcd realm) (set_entry st F dn e) name d x.
Proof.
  intros Hat. destruct He as (random & Hl & Hb & Hset). pose proof Hat as [Hu [d' Hf]]. cbn [app_store app_base_dn kdcd] in *.
  apply (rekeyed_kept (kdcd realm) F dn p Hp Hbase (spelled_absent _ _ _ Hnew) _ _ _ e random Hl Hb Hpassword Hset); [done| |].
  - intros ->. by rewrite Hnew in Hf.
  - intros ->. apply (Hpn d). by apply Hu.
Qed.

Lemma computer_account : exists ks k salt,
  account (kdcd realm) (set_entry st F dn e) realm computer password dn e ks k salt /\ pk_enctype k = Aes256CtsHmacSha384_192.
Proof.
  destruct He as (random & Hl & Hb & Hset).
  apply (rekeyed_account (kdcd realm) F dn p Hp Hbase (spelled_absent _ _ _ Hnew) _ _ _ e random Hl Hb Hpassword Hset); [|done].
  intros d Hd. by destruct (Hpn d).
Qed.

Lemma equipped_keys_wf : forest_keys_wf (kdcd realm) F -> forest_keys_wf (kdcd realm) (set_entry st F dn e).
Proof. destruct He as (random & Hl & Hb & Hset). exact (rekeyed_keys_wf (kdcd realm) F dn _ _ _ e random Hl Hb Hpassword Hset). Qed.

(** The service and the ticket-granting service of the realm, both there before
    the computer is. *)
  Context (sdn kdn : Dn) (se ke : Entry) (sks kks : list PrincipalKey) (sk kk : PrincipalKey).

Lemma join_logon_runs {A : Type} (f : list Z -> A) :
  ascii_name realm -> ascii_name computer -> ascii_name service ->
  forest_keys_wf (kdcd realm) F -> granting (kdcd realm) F realm Aes256CtsHmacSha384_192 kdn ke kks kk ->
  principal_at (kdcd realm) F (fqn service realm) sdn se -> has_keys se sks -> find_key Aes256CtsHmacSha384_192 sks = Some sk ->
  is_changepw (string_to_principal_name service) = false ->
  carried T m2 (as_request T m2 realm computer) encode_as_req (as_handle fresh_fips (kdcd realm)) ->
  carried T m2 (tgs_request fresh_fips T (kdcd realm) m2 (sim_kdc_addr config) realm computer password service) encode_tgs_req
    (tgs_handle fresh_fips (kdcd realm)) ->
  wpt T join_failed
    (tgt <-? returning JKrb (as_exchange (kdc_network fresh_fips (kdcd realm)) (sim_kdc_addr config) realm computer password) ;;
     service_ticket <-? returning JKrb (tgs_exchange (kdc_network fresh_fips (kdcd realm)) (sim_kdc_addr config) realm tgt service) ;;
     types <-? inspect_ticket endpoint connect_cluster config service_ticket ;;
     Ret (Ok (f types)))
    (fun report m' => m' = m2 /\ report = f [PAC_LOGON_INFO; PAC_CLIENT_INFO_TYPE; PAC_SERVER_CHECKSUM; PAC_PRIVSVR_CHECKSUM]) m2.
Proof.
  intros Hr Hc Hs Hwf [Hkat Hkks Hkk] Hsat Hsks Hsk Hplain Has Htgs. destruct computer_account as (ks & k & salt & Hacc & Hen).
  apply (wpt_of_ro T join_failed _ login_unserved (fun x => x = f _)).
  - eapply (ro_login fresh_fips T (kdcd realm) Hst (set_entry st F dn e) m2 HF2 (equipped_keys_wf Hwf) Hclocks endpoint connect_cluster config
      st base (set_entry st F dn e) Hsim Hsbase Hst HF2 sdn sdn se sks sk); try done.
    + by apply principal_kept.
    + by apply principal_kept in Hsat.
    + split; [by apply principal_kept|exact Hkks|exact Hkk].
  - intros x Hx. split; [by do 4 right|apply still_joining].
Qed.
End equipped.

End join.

(** ** An example *)

#[local] Existing Instance bit_codec.
#[local] Existing Instance hex_base64.
#[local] Existing Instance demo_ssl.
#[local] Existing Instance demo_ssl_laws.
#[local] Existing Instance demo_cfb8.
#[local] Existing Instance demo_cfb8_laws.
#[local] Existing Instance PlainCodec.plain_codec.
#[local] Existing Instance PlainCodec.plain_enc_ticket_law.
#[local] Existing Instance PlainCodec.plain_as_rep_law.
#[local] Existing Instance PlainCodec.plain_tgs_rep_law.
#[local] Existing Instance plain_text.
#[local] Existing Instance packed_wire.
#[local] Existing Instance packed_client.
#[local] Existing Instance packed_laws.

Definition lab_info : DomainInfo := mkDomainInfo (str "G10") (str "g10.lo") (str "g10.lo") lab_sid.
Definition lab_topology : option PartitionRegistry := app_topology lab_app.
Definition lab_pool : kvstore := <[pool_key (str "g10") := str "1000"]> lab_store.
Definition pc : rstring := str "SIMPC0000$".
Definition pc_password : bytes := str "sim-password-0".
Definition pc_dn : Dn := Eval vm_compute in dn_of (str "cn=SIMPC0000$,dc=g10,dc=lo").

Lemma lab_resolves : exists p, Registry.resolve (registry lab_st) lab_base = Some p /\ Registry.resolve (registry lab_st) pc_dn = Some p /\ p_id p = str "g10".
Proof. eexists. split; [vm_compute; reflexivity|]. split; vm_compute; reflexivity. Qed.

Lemma lab_pool_holds : holds lab_st Kdc.index_spec lab_forest lab_pool.
Proof. destruct lab_resolves as (p & Hp & _ & Hid). unfold lab_pool. rewrite <- Hid. apply (holds_pool lab_st lab_connected _ _ _ lab_base); [apply lab_holds|done]. Qed.

Lemma pc_fits : join_fits lab_info pc.
Proof.
  assert (forall s, str_ok (str s)) as Hs by (intros; apply str_ok_str).
  assert (forall s, units_len (str s) <? 2 ^ 16 = true -> name_ok (str s)) as Hn by (intros s Hl%Z.ltb_lt; by split).
  split; [by apply Hn|by apply Hn|by split; [apply Hn|]|by split; [apply sid_wireb_spec|]| |apply Z.ltb_lt; vm_compute; reflexivity..].
  split; [by apply Hn|]. split; [discriminate|]. split; [split; [apply Hs|vm_compute; reflexivity]|vm_compute; reflexivity].
Qed.

Abbreviation lab_join := (simulate_join lab_endpoint lab_cluster (kdc_network (Ok tt) (kdcd lab_st lab_base lab_topology None (str "G10.LO")))
  rpc_accept (rpc_serve 1 (rpcd lab_st lab_base lab_info)) lab_config pc pc_password).
Definition lab_joined : result (stop (JoinError json_error)) JoinReport := (exec zeros lab_join lab_pool).1.

Lemma lab_join_runs : runs_at (fun t => t = 0) lab_join lab_pool lab_joined (exec zeros lab_join lab_pool).2.
Proof. exact (exec_runs_at _ _ _ _ eq_refl zeros_ok). Qed.

