(* ===== verification/Dns.v ===== *)
(** Publishing of service records: [crates/dns] and its command
    [iron-dns-ctl].  MicroDNS itself, a separate program with an HTTP API, is
    the parameter [DnsService]; [DnsServiceLaws] says what the client relies
    on of it. *)

From S2P Require Import Prelude Bytes Str Decimal Utf8.

Definition LDAP_SRV_NAME : rstring := str "_ldap._tcp".
Definition KERBEROS_UDP_SRV_NAME : rstring := str "_kerberos._udp".
Definition KERBEROS_TCP_SRV_NAME : rstring := str "_kerberos._tcp".

(** ** The client, [microdns.rs] *)

Record Zone := mkZone { z_id : rstring; z_name : rstring }.
Record SrvData := mkSrvData { sd_priority : Z; sd_weight : Z; sd_port : Z; sd_target : rstring }.
Record CreateRecordReq := mkCreateRecordReq { rr_name : rstring; rr_ttl : Z; rr_type : rstring; rr_data : SrvData; rr_enabled : bool }.

#[global] Instance SrvData_eq_dec : EqDecision SrvData.
Proof. solve_decision. Defined.
#[global] Instance CreateRecordReq_eq_dec : EqDecision CreateRecordReq.
Proof. solve_decision. Defined.
#[global] Instance SrvData_countable : Countable SrvData.
Proof.
  refine (inj_countable' (fun d => (sd_priority d, sd_weight d, sd_port d, sd_target d)) (fun x => let '(a, b, c, d) := x in mkSrvData a b c d) _).
  by intros [].
Defined.
#[global] Instance CreateRecordReq_countable : Countable CreateRecordReq.
Proof.
  refine (inj_countable' (fun r => (rr_name r, rr_ttl r, rr_type r, rr_data r, rr_enabled r))
    (fun x => let '(a, b, c, d, e) := x in mkCreateRecordReq a b c d e) _).
  by intros [].
Defined.

(** A request with its URL and its body. *)
Inductive HttpRequest :=
| HttpGet (url : rstring)
| PostZone (url name : rstring)
| PostRecord (url : rstring) (body : CreateRecordReq).

Record HttpResponse := mkHttpResponse { status : Z; body : bytes }.

Inductive DnsError := DnsHttp | DnsApi (status : Z) (body : bytes).

(** The service: what it answers, [None] if nothing comes back, and its next
    state; and the JSON of its bodies. *)
Class DnsService := {
  dns_state : Type;
  http : HttpRequest -> dns_state -> option HttpResponse * dns_state;
  zones_of_json : bytes -> option (list Zone);
  zone_of_json : bytes -> option Zone;
}.

Section client.
  Context `{DnsService}.
  Abbreviation dns A := (dns_state -> result DnsError A * dns_state).

Definition dns_ret {A} (a : A) : dns A := fun s => (Ok a, s).
Definition dns_lift {A} (r : result DnsError A) : dns A := fun s => (r, s).
Definition dns_bind {A B} (p : dns A) (f : A -> dns B) : dns B :=
  fun s => match p s with (Ok a, s') => f a s' | (Err e, s') => (Err e, s') end.
Notation "x <-@ p ;; k" := (dns_bind p (fun x => k)) (at level 100, p at next level, right associativity).

Definition send (req : HttpRequest) : dns HttpResponse :=
  fun s => let '(r, s') := http req s in (ok_or DnsHttp r, s').

(** [is_success]: 200 to 299. *)
Definition check_status (resp : HttpResponse) : result DnsError HttpResponse :=
  if (200 <=? status resp) && (status resp <? 300) then Ok resp else Err (DnsApi (status resp) (body resp)).

Definition list_zones (base_url : rstring) : dns (list Zone) :=
  resp <-@ send (HttpGet (base_url ++ str "/zones")) ;;
  resp <-@ dns_lift (check_status resp) ;;
  dns_lift (ok_or DnsHttp (zones_of_json (body resp))).

Definition find_zone (base_url name : rstring) : dns (option Zone) :=
  zones <-@ list_zones base_url ;;
  dns_ret (List.find (fun z => eq_ignore_ascii_case (z_name z) name) zones).

Definition create_zone (base_url name : rstring) : dns Zone :=
  resp <-@ send (PostZone (base_url ++ str "/zones") name) ;;
  resp <-@ dns_lift (check_status resp) ;;
  dns_lift (ok_or DnsHttp (zone_of_json (body resp))).

Definition find_or_create_zone (base_url name : rstring) : dns Zone :=
  found <-@ find_zone base_url name ;;
  match found with Some z => dns_ret z | None => create_zone base_url name end.

Definition create_srv_record (base_url zone_id name : rstring) (ttl : Z) (srv : SrvData) : dns unit :=
  resp <-@ send (PostRecord (base_url ++ str "/zones/" ++ zone_id ++ str "/records") (mkCreateRecordReq name ttl (str "SRV") srv true)) ;;
  _ <-@ dns_lift (check_status resp) ;;
  dns_ret tt.

(** ** Publishing, [lib.rs] *)

Record Target := mkTarget { t_host : rstring; t_port : Z; t_priority : Z; t_weight : Z }.
Definition Target_new (host : rstring) (port : Z) : Target := mkTarget host port 10 20.

Fixpoint publish_targets (url zone_id record_name : rstring) (targets : list Target) : dns unit :=
  match targets with
  | [] => dns_ret tt
  | t :: targets' =>
      _ <-@ create_srv_record url zone_id record_name 300 (mkSrvData (t_priority t) (t_weight t) (t_port t) (t_host t)) ;;
      publish_targets url zone_id record_name targets'
  end.

Definition publish (url zone_name record_name : rstring) (targets : list Target) : dns unit :=
  zone <-@ find_or_create_zone url zone_name ;;
  publish_targets url (z_id zone) record_name targets.

Definition publish_ldap (url domain : rstring) (targets : list Target) : dns unit := publish url domain LDAP_SRV_NAME targets.

Definition publish_kerberos (url realm : rstring) (targets : list Target) : dns unit :=
  let domain := to_ascii_lowercase realm in
  _ <-@ publish url domain KERBEROS_UDP_SRV_NAME targets ;;
  _ <-@ publish url domain KERBEROS_TCP_SRV_NAME targets ;;
  dns_ret tt.

(** ** The command, [iron-dns-ctl.rs] *)

Inductive DnsCtlError := DnsUsage | NoTargets | BadTarget (s : rstring) | BadPort (s : rstring) | DnsUnknown (kind : rstring) | DnsFailed (e : DnsError).

(** [rsplit_once(':')]. *)
Definition rsplit_once (d : char) (s : rstring) : option (rstring * rstring) :=
  match split_char d (rev s) with
  | [] | [_] => None
  | last :: rest => Some (rev (join [d] rest), rev last)
  end.

Definition parse_target (s : rstring) : result DnsCtlError Target :=
  hp ← ok_or (BadTarget s) (rsplit_once (ch ":") s);
  port ← ok_or (BadPort hp.2) (parse_uint u16_max hp.2);
  Ok (Target_new hp.1 port).

(** The number of targets that were published. *)
Definition dns_ctl_main (args : list rstring) : dns_state -> result DnsCtlError Z * dns_state :=
  fun s =>
    match args !! 1%nat, args !! 2%nat, args !! 3%nat with
    | Some kind, Some url, Some name =>
        if (length args <? 5)%nat then (Err NoTargets, s)
        else
          match try_map parse_target (drop 4 args) with
          | Err e => (Err e, s)
          | Ok targets =>
              let done (r : result DnsError unit * dns_state) := (map_err DnsFailed (_ ← r.1; Ok (zlen targets)), r.2) in
              if bool_decide (kind = str "ldap") then done (publish_ldap url name targets s)
              else if bool_decide (kind = str "kerberos") then done (publish_kerberos url name targets s)
              else (Err (DnsUnknown kind), s)
          end
    | _, _, _ => (Err DnsUsage, s)
    end.
End client.

(** ** What MicroDNS promises

    [zone_db] is its database: the zones, by id, with their names and records.
    Reading changes nothing; a zone is created under a new id; a record is
    added to its zone, unless it is there already.  A request that is refused
    or whose answer is lost has had its effect or none. *)
Notation zone_map := (gmap rstring (rstring * gset CreateRecordReq)).

Definition success (resp : HttpResponse) : bool := (200 <=? status resp) && (status resp <? 300).

Class DnsServiceLaws `{DnsService} (url : rstring) := {
  zone_db : dns_state -> zone_map;
  law_list s r s' : http (HttpGet (url ++ str "/zones")) s = (r, s') ->
    zone_db s' = zone_db s /\
    forall resp l, r = Some resp -> success resp = true -> zones_of_json (body resp) = Some l ->
      forall id name, mkZone id name ∈ l <-> fst <$> zone_db s !! id = Some name;
  law_create name s r s' : http (PostZone (url ++ str "/zones") name) s = (r, s') ->
    (zone_db s' = zone_db s \/ exists id, zone_db s !! id = None /\ zone_db s' = <[id := (name, ∅)]> (zone_db s)) /\
    forall resp z, r = Some resp -> success resp = true -> zone_of_json (body resp) = Some z ->
      zone_db s !! z_id z = None /\ zone_db s' = <[z_id z := (name, ∅)]> (zone_db s);
  law_record id req n R s r s' : zone_db s !! id = Some (n, R) ->
    http (PostRecord (url ++ str "/zones/" ++ id ++ str "/records") req) s = (r, s') ->
    (zone_db s' = zone_db s \/ zone_db s' = <[id := (n, {[req]} ∪ R)]> (zone_db s)) /\
    forall resp, r = Some resp -> success resp = true -> zone_db s' = <[id := (n, {[req]} ∪ R)]> (zone_db s);
}.

Section published.
  Context `{DnsService} (url : rstring) `{!DnsServiceLaws url}.
  Implicit Types (s : dns_state) (zone id n : rstring) (R : gset CreateRecordReq) (db : zone_map) (targets : list Target).

(** The zone a name stands for: the one that has it, in whatever case, or a new
    one. *)
Definition named db zone id n R : Prop := db !! id = Some (n, R) /\ eq_ignore_ascii_case n zone = true.
Definition chosen db zone id n R : Prop :=
  named db zone id n R \/ (db !! id = None /\ n = zone /\ R = ∅ /\ forall id' n' R', ~ named db zone id' n' R').

Definition srv_record (record_name : rstring) (t : Target) : CreateRecordReq :=
  mkCreateRecordReq record_name 300 (str "SRV") (mkSrvData (t_priority t) (t_weight t) (t_port t) (t_host t)) true.
Definition srv_records (record_name : rstring) targets : gset CreateRecordReq := list_to_set (List.map (srv_record record_name) targets).

Lemma find_zone_runs zone s r s' :
  find_zone url zone s = (r, s') ->
  zone_db s' = zone_db s /\ match r with
    | Ok (Some z) => exists R, named (zone_db s) zone (z_id z) (z_name z) R
    | Ok None => forall id n R, ~ named (zone_db s) zone id n R
    | Err _ => True
    end.
Proof.
  unfold find_zone, list_zones, send, dns_bind, dns_lift, dns_ret, check_status.
  destruct (http _ s) as [o s1] eqn:E. apply law_list in E as [Hdb Hl]. destruct o as [resp|]; cbn [ok_or]; [|by intros [= <- <-]].
  fold (success resp). destruct (success resp) eqn:Hs; [|by intros [= <- <-]].
  destruct (zones_of_json (body resp)) as [l|] eqn:Hj; cbn [ok_or]; intros [= <- <-]; [|done]. split; [done|].
  specialize (Hl resp l eq_refl Hs Hj). destruct (List.find _ l) as [[id n]|] eqn:Ef.
  - apply find_some in Ef as [Hin%list_elem_of_In Hn]. apply Hl in Hin. apply fmap_Some in Hin as ([n' R] & Hin & ->). by exists R.
  - intros id n R [Hid Hn]. assert (mkZone id n ∈ l) as Hin%list_elem_of_In by (apply Hl; by rewrite Hid).
    apply (find_none _ _ Ef) in Hin. cbn in Hin. by rewrite Hn in Hin.
Qed.

Lemma find_or_create_runs zone s r s' :
  find_or_create_zone url zone s = (r, s') ->
  match r with
  | Ok z => exists n R, chosen (zone_db s) zone (z_id z) n R /\ zone_db s' = <[z_id z := (n, R)]> (zone_db s)
  | Err _ => zone_db s' = zone_db s \/ exists id, chosen (zone_db s) zone id zone ∅ /\ zone_db s' = <[id := (zone, ∅)]> (zone_db s)
  end.
Proof.
  unfold find_or_create_zone, dns_bind, dns_ret. destruct (find_zone url zone s) as [r1 s1] eqn:E. apply find_zone_runs in E as [Hdb Hr].
  destruct r1 as [[z|]|e]; [| |intros [= <- <-]; by left].
  - intros [= <- <-]. destruct Hr as (R & Hn). exists (z_name z), R. split; [by left|]. rewrite Hdb. by rewrite insert_id by apply Hn.
  - unfold create_zone, send, dns_bind, dns_lift, check_status. destruct (http _ s1) as [o s2] eqn:E. apply law_create in E as [Hw Hok]. rewrite Hdb in Hw, Hok.
    assert (zone_db s2 = zone_db s \/ exists id, chosen (zone_db s) zone id zone ∅ /\ zone_db s2 = <[id := (zone, ∅)]> (zone_db s)) as Hfail.
    { destruct Hw as [?|(id & Hid & ?)]; [by left|right; exists id; split; [by right|done]]. }
    destruct o as [resp|]; cbn [ok_or]; [|by intros [= <- <-]]. fold (success resp). destruct (success resp) eqn:Hs; [|by intros [= <- <-]].
    destruct (zone_of_json (body resp)) as [z|] eqn:Hj; cbn [ok_or]; intros [= <- <-]; [|done].
    destruct (Hok resp z eq_refl Hs Hj) as [Hid Hdb2]. exists zone, ∅. split; [by right|done].
Qed.

Lemma publish_targets_runs record_name id n targets : forall R s r s',
  zone_db s !! id = Some (n, R) -> publish_targets url id record_name targets s = (r, s') ->
  exists X, X ⊆ srv_records record_name targets /\ zone_db s' = <[id := (n, X ∪ R)]> (zone_db s) /\ (is_ok r = true -> X = srv_records record_name targets).
Proof.
  induction targets as [|t targets IH]; intros R s r s' Hid; cbn [publish_targets].
  { intros [= <- <-]. exists ∅. split; [done|]. split; [by rewrite union_empty_l_L, insert_id|done]. }
  unfold create_srv_record, send, dns_bind, dns_lift, dns_ret, check_status. destruct (http _ s) as [o s1] eqn:E.
  apply (law_record id _ n R) in E as [Hw Hok]; [|done].
  assert (forall r0, exists X, X ⊆ srv_records record_name (t :: targets) /\ zone_db s1 = <[id := (n, X ∪ R)]> (zone_db s) /\
    (is_ok (Err r0 : result DnsError unit) = true -> X = srv_records record_name (t :: targets))) as Hfail.
  { intros r0. destruct Hw as [->| ->].
    - exists ∅. split; [set_solver|]. split; [by rewrite union_empty_l_L, insert_id|done].
    - eexists. split; [|split; [reflexivity|done]]. unfold srv_records. cbn [List.map list_to_set]. set_solver. }
  destruct o as [resp|]; cbn [ok_or]; [|intros [= <- <-]; apply Hfail]. fold (success resp). destruct (success resp) eqn:Hs; [|intros [= <- <-]; apply Hfail].
  clear Hfail Hw. specialize (Hok resp eq_refl Hs). intros Hr. eapply (IH ({[srv_record record_name t]} ∪ R)) in Hr as (X & HX & Hdb & Hall); [|rewrite Hok; by rewrite lookup_insert_eq].
  exists ({[srv_record record_name t]} ∪ X). unfold srv_records in *. cbn [List.map list_to_set]. split; [set_solver|]. split.
  - rewrite Hdb, Hok, insert_insert_eq. f_equal. f_equal. set_solver.
  - intros Hr. by rewrite Hall.
Qed.

Lemma publish_runs zone record_name targets s r s' :
  publish url zone record_name targets s = (r, s') ->
  (is_ok r = false /\ zone_db s' = zone_db s) \/
  exists id n R X, chosen (zone_db s) zone id n R /\ X ⊆ srv_records record_name targets /\ zone_db s' = <[id := (n, X ∪ R)]> (zone_db s) /\
    (is_ok r = true -> X = srv_records record_name targets).
Proof.
  unfold publish, dns_bind. destruct (find_or_create_zone url zone s) as [[z|e] s1] eqn:E; apply find_or_create_runs in E.
  - destruct E as (n & R & Hc & Hdb). intros Hp. eapply publish_targets_runs in Hp as (X & HX & Hdb' & Hall); [|rewrite Hdb; by rewrite lookup_insert_eq].
    right. exists (z_id z), n, R, X. split; [done|]. split; [done|]. split; [|done]. by rewrite Hdb', Hdb, insert_insert_eq.
  - intros [= <- <-]. destruct E as [?|(id & Hc & Hdb)]; [by left|]. right. exists id, zone, ∅, ∅. split; [done|]. split; [set_solver|].
    split; [by rewrite union_empty_l_L|done].
Qed.

(** Of the zones of the realm there is at most one. *)
Definition unambiguous db zone : Prop := forall id n R id' n' R', named db zone id n R -> named db zone id' n' R' -> id = id'.

Lemma chosen_again db zone id n R X id' n' R' :
  unambiguous db zone -> chosen db zone id n R -> chosen (<[id := (n, X)]> db) zone id' n' R' -> id' = id /\ n' = n /\ R' = X.
Proof.
  intros Hu Hc Hc'. assert (named (<[id := (n, X)]> db) zone id n X) as Hn.
  { split; [by rewrite lookup_insert_eq|]. destruct Hc as [[_ ?]|(_ & -> & _)]; [done|by apply bool_decide_eq_true]. }
  assert (id' = id) as ->.
  { destruct Hc' as [[Hid' Hn']|(_ & _ & _ & Hno)]; [|by apply Hno in Hn]. destruct (decide (id = id')) as [|Hne]; [done|].
    rewrite lookup_insert_ne in Hid' by done. destruct Hc as [Hc|(_ & _ & _ & Hno)]; [by eapply Hu; [split|]|by destruct (Hno id' n' R')]. }
  split; [done|]. destruct Hc' as [[Hid' _]|(Hid' & _)]; rewrite lookup_insert_eq in Hid'; [by injection Hid' as <- <-|done].
Qed.

Lemma unambiguous_after db zone id n R X : unambiguous db zone -> chosen db zone id n R -> unambiguous (<[id := (n, X)]> db) zone.
Proof.
  intros Hu Hc i1 n1 R1 i2 n2 R2 H1 H2. destruct (chosen_again db zone id n R X i1 n1 R1 Hu Hc (or_introl H1)) as [-> _].
  by destruct (chosen_again db zone id n R X i2 n2 R2 Hu Hc (or_introl H2)) as [-> _].
Qed.

Definition kerberos_records targets : gset CreateRecordReq :=
  srv_records KERBEROS_UDP_SRV_NAME targets ∪ srv_records KERBEROS_TCP_SRV_NAME targets.

(** [X] is what a run added to the zone. *)
Definition added zone records s (s' : dns_state) (ok : bool) id n R X : Prop :=
  chosen (zone_db s) zone id n R /\ X ⊆ records /\ zone_db s' = <[id := (n, X ∪ R)]> (zone_db s) /\ (ok = true -> X = records).

Lemma publish_kerberos_runs realm targets s r s' :
  unambiguous (zone_db s) (to_ascii_lowercase realm) -> publish_kerberos url realm targets s = (r, s') ->
  (is_ok r = false /\ zone_db s' = zone_db s) \/
  exists id n R X, added (to_ascii_lowercase realm) (kerberos_records targets) s s' (is_ok r) id n R X.
Proof.
  intros Hu. unfold publish_kerberos, dns_bind, dns_ret, added, kerberos_records. set (zone := to_ascii_lowercase realm) in *.
  destruct (publish url zone KERBEROS_UDP_SRV_NAME targets s) as [r1 s1] eqn:E1. apply publish_runs in E1.
  destruct E1 as [[H1 Hs1]|(id & n & R & X & Hc & HX & Hs1 & Hall)]; [destruct r1; [done|]; intros [= <- <-]; by left|].
  destruct r1 as [u|e]; [|intros [= <- <-]; right; exists id, n, R, X; split; [done|]; split; [set_solver|done]]. specialize (Hall eq_refl). subst X.
  destruct (publish url zone KERBEROS_TCP_SRV_NAME targets s1) as [r2 s2] eqn:E2. apply publish_runs in E2.
  intros Hr. right. exists id, n, R. destruct E2 as [[H2 Hs2]|(id2 & n2 & R2 & X2 & Hc2 & HX2 & Hs2 & Hall2)].
  - exists (srv_records KERBEROS_UDP_SRV_NAME targets). destruct r2; [done|]. injection Hr as <- <-. split; [done|]. split; [set_solver|]. by rewrite Hs2.
  - rewrite Hs1 in Hc2. apply (chosen_again _ _ _ _ _ _ _ _ _ Hu Hc) in Hc2 as (-> & -> & ->).
    exists (srv_records KERBEROS_UDP_SRV_NAME targets ∪ X2). split; [done|]. split; [set_solver|].
    assert (s' = s2) as -> by (by destruct r2; injection Hr).
    split; [rewrite Hs2, Hs1, insert_insert_eq; do 2 f_equal; set_solver|]. destruct r2; injection Hr as <- ; [|done]. by rewrite Hall2.
Qed.

End published.

(** ** Targets *)

(** A host and a port are read back as they are written. *)
Theorem parse_target_roundtrip (host : rstring) (port : Z) :
  0 <= port <= u16_max -> parse_target (host ++ str ":" ++ to_decimal port) = Ok (mkTarget host port 10 20).
Proof.
  intros Hp. unfold parse_target, rsplit_once. rewrite app_assoc, rev_app_distr. rewrite rev_app_distr. cbn [rev app str].
  assert (ch ":" ∉ rev (to_decimal port)) as Hno by (rewrite list_elem_of_In, <- in_rev, <- list_elem_of_In; apply to_decimal_no; [lia|done]).
  change (rev (str ":") ++ rev host) with (ch ":" :: rev host). rewrite split_char_app by done.
  pose proof (split_char_nonempty (ch ":") (rev host)) as Hne. destruct (split_char (ch ":") (rev host)) as [|x l] eqn:E; [done|].
  rewrite <- E, join_split, !rev_involutive. cbn [ok_or mbind result_bind fst snd]. by rewrite parse_uint_to_decimal.
Qed.

(** ** An example: a service that keeps its database in memory *)

#[global] Instance Zone_eq_dec : EqDecision Zone.
Proof. solve_decision. Defined.
#[global] Instance Zone_countable : Countable Zone.
Proof. refine (inj_countable' (fun z => (z_id z, z_name z)) (fun x => mkZone x.1 x.2) _). by intros []. Defined.

(** One number stands for the JSON of a value. *)
Definition one_number {A} `{Countable A} (a : A) : bytes := [Zpos (encode a)].
Definition of_number {A} `{Countable A} (b : bytes) : option A := match b with [Zpos x] => decode x | _ => None end.

Definition memory_url : rstring := str "http://dns/api/v1".
Definition record_url (id : rstring) : rstring := memory_url ++ str "/zones/" ++ id ++ str "/records".
Definition memory_http (req : HttpRequest) (db : zone_map) : option HttpResponse * zone_map :=
  match req with
  | HttpGet _ => (Some (mkHttpResponse 200 (one_number (List.map (fun x : rstring * (rstring * gset CreateRecordReq) => mkZone x.1 x.2.1) (map_to_list db)))), db)
  | PostZone _ name =>
      let id := to_decimal (Z.of_nat (size db)) in
      match db !! id with
      | None => (Some (mkHttpResponse 201 (one_number (mkZone id name))), <[id := (name, ∅)]> db)
      | Some _ => (Some (mkHttpResponse 409 []), db)
      end
  | PostRecord url r =>
      match List.find (fun x : rstring * (rstring * gset CreateRecordReq) => bool_decide (record_url x.1 = url)) (map_to_list db) with
      | Some (id, (n, R)) => (Some (mkHttpResponse 201 []), <[id := (n, {[r]} ∪ R)]> db)
      | None => (Some (mkHttpResponse 404 []), db)
      end
  end.

#[local] Instance memory_dns : DnsService := {|
  dns_state := zone_map;
  http := memory_http;
  zones_of_json := of_number;
  zone_of_json := of_number;
|}.

Lemma memory_find (db : zone_map) id n R : db !! id = Some (n, R) ->
  List.find (fun x : rstring * (rstring * gset CreateRecordReq) => bool_decide (record_url x.1 = record_url id)) (map_to_list db) = Some (id, (n, R)).
Proof.
  intros Hid. destruct (List.find _ _) as [[id' [n' R']]|] eqn:E.
  - apply find_some in E as [Hin%list_elem_of_In Heq%bool_decide_eq_true]. apply elem_of_map_to_list in Hin. unfold record_url in Heq. cbn [fst] in Heq.
    apply app_inv_head, app_inv_head, app_inv_tail in Heq. subst id'. rewrite Hid in Hin. by injection Hin as <- <-.
  - exfalso. apply elem_of_map_to_list, list_elem_of_In in Hid. apply (find_none _ _ E) in Hid. cbn [fst] in Hid. by rewrite bool_decide_true in Hid.
Qed.

#[local] Instance memory_laws : DnsServiceLaws memory_url.
Proof.
  refine {| zone_db := (fun db : zone_map => db) : @dns_state memory_dns -> zone_map |}.
  - intros s r s' [= <- <-]. split; [done|]. intros resp l [= <-] _. cbn [body zones_of_json memory_dns of_number one_number]. rewrite decode_encode. intros [= <-].
    intros id name. rewrite list_elem_of_fmap. split.
    + intros ([id' [n R]] & [= -> ->] & Hin). apply elem_of_map_to_list in Hin. by rewrite Hin.
    + intros ([n R] & Hin & ->)%fmap_Some. exists (id, (n, R)). split; [done|]. by apply elem_of_map_to_list.
  - intros name s r s'. cbn [http memory_dns memory_http]. cbn zeta.
    destruct ((s : zone_map) !! to_decimal (Z.of_nat (size (s : zone_map)))) eqn:E; intros [= <- <-].
    + split; [by left|]. intros resp z [= <-]. done.
    + split; [right; eauto|]. intros resp z [= <-] _. cbn [body zone_of_json memory_dns of_number one_number]. rewrite decode_encode. by intros [= <-].
  - intros id req n R s r s' Hid. cbn [http memory_dns memory_http]. fold (record_url id). change (memory_url ++ str "/zones/" ++ id ++ str "/records") with (record_url id).
    rewrite (memory_find s id n R Hid). intros [= <- <-]. split; [by right|done].
Defined.

Definition one_kdc : list Target := [Target_new (str "kdc1.g8.lo") 88].
Definition g8_zones : zone_map := {[ str "z" := (str "G8.lo", ∅) ]}.

Lemma g8_only id n R : g8_zones !! id = Some (n, R) -> id = str "z" /\ n = str "G8.lo" /\ R = ∅.
Proof. unfold g8_zones. intros [<- [= <- <-]]%lookup_singleton_Some. done. Qed.

